(* ===== verification/_CoqProject ===== *)
-Q . S2P
Prelude.v
GoStrings.v
GoPath.v
GoSlice.v
Md5.v
Flaw.v
GoFloat.v
Semv.v
Ids.v
Startup.v
CMap.v
DeployConfig.v
Deployment.v
Samples.v
State.v
Differ.v
ResolveFilter.v
ResolveErrors.v
R11nQueue.v
Poller.v
Resolver.v
DockerNames.v
Builds.v
DockerDetect.v
DockerBuild.v
NameCache.v
SingIds.v
StateManagers.v
GoQuote.v
SingDtos.v
Singularity.v
RectiAgent.v
SingBuilder.v
Running.v
GoUrl.v
PutBack.v
Restful.v
Server.v
HttpState.v
Rectification.v
AutoResolver.v
Storage.v
Commands.v
Targets.v
SqlGen.v
Postgres.v
PgStore.v
PgWrite.v
PgRoundTrip.v
Whitespace.v
FirstErr.v
Shell.v
UrlParse.v
Git.v
GitContext.v
GitUrl.v
GitRemotes.v
Github.v
Cmdr.v
