(* ===== verification/Prelude.v ===== *)
(** * Sous: a verification library

    Sous builds images of projects, and deploys what a global deploy manifest
    (the GDM) says.  A manifest names a repository and, per cluster, a version
    and a configuration.  A server resolves: it compares what runs in the
    clusters with what the manifests intend, finds the image of each version and
    tells Singularity, the scheduler, what to change.  Clients read and write
    manifests over HTTP, and poll the servers until a deployment is done.  This
    library models that path, from the text forms of identifiers to the requests
    sent to Singularity, and from the bytes of a query to the manifest stored.

    ** The files and the code they model

    The ground:

    - [Prelude], [GoStrings], [GoSlice], [GoPath], [GoQuote], [GoUrl], [GoFloat],
      [Md5]: results and panics, maps that may be nil, sorting; Go's [strings],
      [strconv], [path/filepath], [net/url] and [crypto/md5], slices that share
      an array.
    - [Flaw] (lib/flaw.go): flaws found by validation, and their repair.
    - [Semv] (vendor/github.com/samsalisbury/semv): versions.
    - [Ids] (lib/source_location.go, source_id.go, manifest_id.go,
      deploymentid.go, source_host.go): identifiers and their text forms.
    - [CMap] (util/blueprints/cmap/cmap.go): the concurrent maps that
      deployments, deploy states and manifests are kept in.  A class, [Value],
      states what the map needs of its values.

    The state:

    - [Startup] (lib/startup.go): health checks, merged with and unmerged from
      the defaults of a cluster.
    - [DeployConfig] (lib/resources.go, volumes.go, deploy_config.go,
      deploy_spec.go) and [Deployment] (lib/owner_set.go, deployment.go,
      deployments.go, deploystate.go, manifest.go, manifests.go): the data, its
      comparison, its validation.  [Samples] has concrete ones.
    - [State] (lib/state.go, map_state_to_deployments.go): manifests expanded
      into deployments, and deployments put back into manifests.
    - [StateManagers] (lib/state_manager.go, cluster_manager.go,
      deployment_manager.go, dispatchstatemanager.go, user.go): state managers
      as records of operations on a world, and those made of others.
    - [Storage] (ext/storage: disk_state_manager.go, git_state_manager.go,
      duplexstatemanager.go, logonlystatemanager.go): states kept in the files of
      a git repository.  What git and the codec answer is a function of all that
      was asked of them, the class [Outside].
    - [SqlGen] (util/sqlgen): the fields of inserts, their text and their values.
      [Postgres] (ext/storage: postgresstatemanager.go, its _read.go and _write.go,
      database/changelog.xml): states kept in PostgreSQL: the tables, the
      statements and what they do, and the manager that is made of them; which
      statement fails is the class [Postgres].  [PgStore] has the theorems on
      reading, [PgWrite] those on the inserts, [PgRoundTrip] those on both.

    A resolution:

    - [Differ] (lib/deployment_diff.go, deployable_pair.go): pairs of what runs
      and what is intended, and their kinds.
    - [ResolveFilter] (lib/resolvefilter.go, source_context.go): the selection
      of deployments, manifests and clusters; versions from git tags.
    - [ResolveErrors] (lib/resolve_errors.go, resolvestatus.go): the errors of a
      resolution, and the recorder that collects its outcome.
    - [R11nQueue] (lib/r11n_queue.go, r11n_queue_set.go): the queues of
      rectifications, one per deployment.
    - [Resolver] (lib/nameresolver.go, pipeline.go, resolver.go): a resolution.
      It uses the registry and the deployer through the classes [Registry] and
      [Deployer].
    - [Rectification] (lib/rectification.go): what a queue's handler begins: one
      change, applied and then polled for.
    - [AutoResolver] (lib/auto_resolver.go, server/handle_status.go): the
      goroutines that resolve again and again, and the page that shows it.
    - [Poller] (lib/resolvestate.go, status_poller.go, subpoller.go): the client
      that waits for a deployment.

    Singularity:

    - [SingIds] and [Singularity] (ext/singularity/deployer.go, the names of
      recti-agent.go): which requests and deploys are sent for a change.  The
      client is the class [Client].
    - [SingDtos] and [RectiAgent] (ext/singularity/recti-agent.go): the contents
      of what is sent, an implementation of [Client].
    - [SingBuilder] (ext/singularity/deployment_builder.go, requeststate.go): a
      deploy state read back from Singularity.
    - [Running] (ext/singularity/actual_deployment_set.go): the goroutines that
      read back all of them.

    Builds and images:

    - [Builds] (lib/build_config.go, build_context.go, build_manager.go): what a
      build is of, what it is refused for, its order.
    - [DockerNames], [DockerDetect], [DockerBuild] (ext/docker: names.go,
      docker_labels.go, the two build packs, builder.go): labels and tags,
      detection on the syntax tree of a Dockerfile, the commands of a build.
    - [NameCache] (ext/docker/image_mapping.go): the tables that map images to
      sources, with their queries.  What the driver does with each statement, and
      when rows end with an error, is the class [Database].

    The server and its clients:

    - [PutBack] (util/restful/putbackjson.go): the three-way merge of JSON trees.
    - [Restful] (util/restful: router.go, routemap.go, canaryattr.go,
      queryvalues.go, client.go): conditions, ETags and canaries on the server,
      the client that updates what it retrieved.
    - [Server] (server/, dto/): the resources over the state and the queues.
    - [HttpState] (lib/http_state_manager.go, http_name_inserter.go): a state
      manager that is a client of the server.

    The command line:

    - [Commands] (cli/actions: deploy.go, update.go, manifest_get.go,
      manifest_set.go): what the client does for a command.
    - [Targets] (config/deploy_filter.go, graph/targetmanifest.go,
      graph/otpldeploy.go, ext/otpl/otpl.go, cli/sous_init.go): filters from
      flags, the IDs and the manifest a command is about, and [sous init].
    - [Cmdr] (util/cmdr, cli/cli.go, cli/sous.go): the tree of commands, flags,
      hooks, results and exit codes.

    The source at hand:

    - [Whitespace], [FirstErr] and [Shell] (util/whitespace, util/firsterr,
      util/shell): words and lines of text, functions in turn and in goroutines of
      their own, commands and their output.  Processes are the class [System].
    - [Git] (ext/git; graph/graph.go): the client of git and the source context it
      makes; [GitContext], [GitRemotes] and [GitUrl] hold the theorems on it, and
      [UrlParse] is the parser of Go's package net/url.
    - [Github] (ext/github): locations on GitHub.

    The components meet as in the code: [Resolver.Begin] filters what [State]
    expands, hands it to [Differ], passes the pairs through the name resolver,
    and [Resolver.queueDiffs] pushes them on the queues of [R11nQueue], whose
    handler is [Singularity.Rectify]; the [ResolveErrors] recorder keeps the
    resolutions that come back, and [Poller] reads them from its servers.  What
    [RectiAgent] sends, [SingBuilder] reads back.  The handlers of [Server] are
    exchanges of [Restful], over a state manager of [StateManagers] and the
    queues of [R11nQueue], and [HttpState] is on the other end of them.

    ** Conventions

    A Go function that returns an error returns a [result]; one that can panic
    returns an [option], [None] being the panic (for operations on channels, also
    the operation that blocks, as each file says).  Integers are [Z], with the
    conversions to 32 bits written out where the code has them; floats are IEEE
    binary64 data; strings are byte strings, as in Go.  A range over a map visits
    it in an unspecified order: where the order can matter it is an argument,
    constrained only to be a permutation, and elsewhere the model uses the order
    of [map_to_list], on which nothing proved depends.  Code that runs under a
    lock is one step; goroutines that share a lock are a transition system whose
    steps are the critical sections, and a theorem about them is about every run.
    Tools, servers and databases are classes of operations ([DockerHost],
    [Client], [Registry], [Codec]), or act on a world that is threaded through.

    ** What is proved

    - Round trips: putting the deployments of manifests back gives the manifests
      ([State], on [Startup] for the health checks); identifiers parse from what
      they print as ([Ids]); a deployment reads back from what Singularity was
      told ([SingBuilder], on [RectiAgent]); a deploy manifest can be put as it
      was got ([Server]); changes put back are the changes ([PutBack]); a state
      written to files is read back, with nothing left to repair, when no manifest
      was removed, and with the removed ones otherwise, as their files stay ([Storage]).
    - What is written to PostgreSQL is read back, of the deployments that changed
      and of the others, and the tables stay well-formed ([PgRoundTrip], [PgWrite]);
      the values of an insert are those its placeholders number ([SqlGen]).
    - Writes to git are guarded by the revision that was read, end well with a push
      that went well, with nothing to commit or with git that could not tell, and
      are bounded ([Storage]).
    - The resolution: the differ pairs every deployment once and classifies it
      ([Differ]); what is acted on is intended, selected by the filter, and has
      an image its cluster allows ([Resolver], [ResolveFilter]); what is queued
      is what needs a change and is idle ([Resolver]).
    - A rectification ends, polls its deployer at bounded intervals, and its
      verdict is what was reported ([Rectification]).  Resolutions never overlap
      and always recur ([AutoResolver]).
    - The queues: occupancy, order, results, positions, and that they drain, as
      invariants of every run ([R11nQueue]).
    - Singularity: which changes cause which calls, in which order, with legal
      and distinct IDs ([Singularity], [SingIds]); the collection of running
      deployments ends in every run and misses none ([Running]).
    - Builds: what a strict build refuses, that images are registered only once
      everything was built and pushed ([Builds], [DockerBuild]); the name cache
      names only images that were inserted for the source or are labelled with it,
      with advisories that are theirs, and finds what was inserted ([NameCache]).
    - The client: when the poller stops and what it reports, in any order of the
      clusters ([Poller]); no resolution is lost, errors end a phase and are
      reported ([ResolveErrors]).
    - The server: an update is refused unless the resource was still the one that
      was retrieved, as far as its ETag tells, when the server looked; what other
      requests do between that look and the write is an argument, and such an update
      loses theirs ([Restful]).  A single deployment that is accepted is recorded,
      queued and can be followed, and waiting for it ends with its resolution
      ([Server]).
    - Commands: a deploy that is reported as requested is in the server's state
      and queue, through both ends of the REST library; an update changes one
      version; polling ends ([Commands]).  Flags that do not parse end a command
      before it runs, the command that runs is the one whose help is shown, and
      flags that are written are set ([Cmdr]).  A new project gets a valid manifest,
      and initialising it adds its deployments and touches no other ([Targets]).
    - The source: functions in parallel end, with the error of one that failed
      ([FirstErr]); a source context is the same in any order of its commands
      ([GitContext]); a repository has one name for all spellings of its URL
      ([GitUrl]), remotes are read back from what git prints ([GitRemotes]), and
      both spellings of a location on GitHub are one ([Github]).
    - Comparison and validation: every comparison used to decide on a change is
      the stated equivalence ([DeployConfig], [Deployment], [GoFloat]);
      validation's repairs leave exactly what cannot be repaired.

    Where the code does not do what it means to, a theorem states what it does:
    [DeployConfig_Equal_inverted], [DeployConfig_Validate_nil_resources],
    [VariancesFrom_missing_panics], [ParseSourceID_total],
    [AnyTransientResolveErrors_false], [recorder_can_lose_error],
    [Snapshot_race], [computeStatus_hides_last_cycle], [MakeRequestID_collides];
    [OffsetFromWorkdir_spec], [split_products_mislabelled], [blocked_registered],
    [known_name_accumulates], [harvest_only_on_mismatch], [poisoned_list],
    [malformed_list_crashes]; [WriteCluster_cannot_remove],
    [WriteDeployment_lost], [GDM_never_stale], [PUTGDM_malformed],
    [PUTSingle_writes_invalid], [PUTManifest_kept], [GETDeployQueue_panics],
    [Update_not_retryable], [HTTPNameInserter_refused], [hsm_WriteCluster_once],
    [hsm_last_writer_wins]; [r11n_verdict], [Statuses_race], [trigger_leaks],
    [conflict_forgotten], [compact_spec]; [update_new_refused],
    [updateRetryLoop_once], [BuildFilter_all]; [pg_cannot_remove];
    [no_remotes_no_context], [OpenRepo_spec], [CleanWS_spec], [bad_flags_exit].

    ** Bounds

    Recursion is structural throughout, on lists, strings, trees or runs, but for
    three functions with fuel: [Md5.Hash.pieces], whose fuel is the length of the
    list it takes apart, [GoQuote.quoted], whose fuel is the length of the string,
    each step of which consumes a byte, and [Whitespace.clean_lines], whose fuel is
    more than the length of the text, each round taking a byte of it.  Runs of the transition systems
    are lists of steps; that those of [Running] end is proved with a measure, the
    number of retries being at most four; those of [Rectification] end within
    the twenty minutes of its timer, those of [AutoResolver] come back to the
    start of a resolution by a measure.  A write to git pushes at most five times,
    the number of attempts the loop has.  The loop of [Commands.updateRetryLoop],
    whose limit changes as it runs, has fuel; one round of it is always enough.  The queues are modelled for any
    capacity; what depends on it says so, as [MaxRefsPerR11nQueue] and the
    positions of a snapshot.  The theorems on reading back assume that the
    integers fit in 32 bits, as they are sent to Singularity and as the tables of
    PostgreSQL have them.

    ** What is not modelled

    Unicode normalisation (golang.org/x/text) is a class that says what it does
    to ASCII; the messages of errors are kept as a format and its arguments; what
    encoding/json makes of a type with its tags is a class of functions.
    What encoding and decoding the files of a state does is a function of all that
    was written, of which is assumed only that writing replaces the files of the
    manifests that are written, and deletes none.  But for the theorem on updates, the requests of the theorems
    on the server and its clients are handled one at a time.
    Transactions of PostgreSQL run one at a time, what they wait for and what makes
    them conflict is not modelled, and that its texts hold no zero byte is not
    looked at.  The client of Docker registries, the wiring of the dependency graph
    and most of what is printed to the terminal are input and output around what is
    modelled, and logging is left out.  A state that is
    given to a manager to write is a value: that the managers over files repair
    the caller's own state is described, but not carried through to the callers. *)

From stdpp Require Export base tactics numbers list option strings gmap sorting.
From stdpp Require Export fin_maps fin_map_dom fin_sets.
From Stdlib Require Export Ascii ZArith Lia.

#[global] Set Default Proof Using "Type".
#[global] Open Scope Z_scope.

(** ** Errors and panics

    A Go function that returns [(T, error)] is modelled by [result E T], where
    [E] lists the errors that function can return.  A function that can hit a
    run-time panic (an explicit [panic], a nil pointer, an index out of range)
    returns an [option]: [None] is the panic. *)

Inductive result (E A : Type) : Type :=
| Ok (a : A)
| Err (e : E).
Arguments Ok {E A} a.
Arguments Err {E A} e.

#[export] Instance result_eq_dec {E A} `{EqDecision E, EqDecision A} :
  EqDecision (result E A).
Proof. solve_decision. Defined.

#[export] Instance result_ret {E} : MRet (result E) := @Ok E.
#[export] Instance result_bind {E} : MBind (result E) := λ A B f m,
  match m with Ok a => f a | Err e => Err e end.
#[export] Instance result_fmap {E} : FMap (result E) := λ A B f m,
  match m with Ok a => Ok (f a) | Err e => Err e end.

(** [map_err f m] is [if err != nil { return f(err) }]. *)
Definition map_err {E F A} (f : E → F) (m : result E A) : result F A :=
  match m with Ok a => Ok a | Err e => Err (f e) end.

Definition is_ok {E A} (m : result E A) : bool :=
  match m with Ok _ => true | Err _ => false end.

(** [rfold f l a] is the loop [for _, x := range l { a, err = f(x, a); if err
    != nil { return err } }]. *)
Fixpoint rfold {E A B} (f : A → B → result E B) (l : list A) (b : B) : result E B :=
  match l with
  | [] => Ok b
  | x :: l' => match f x b with Ok b' => rfold f l' b' | Err e => Err e end
  end.

Section rfold.
Context {E A B : Type} (f : A → B → result E B).

Lemma rfold_app l1 l2 b :
  rfold f (l1 ++ l2) b = rfold f l1 b ≫= rfold f l2.
Proof.
  revert b. induction l1 as [|x l1 IH]; intros b; [done|]; simpl.
  destruct (f x b); [apply IH|done].
Qed.

(** A loop whose body never fails is a fold. *)
Lemma rfold_ok (g : A → B → B) l b :
  (∀ x b, x ∈ l → f x b = Ok (g x b)) →
  rfold f l b = Ok (foldl (λ b x, g x b) b l).
Proof.
  revert b. induction l as [|x l IH]; intros b H; [done|]; simpl.
  rewrite H by set_solver. apply IH. intros; apply H; set_solver.
Qed.

(** The loop rule: an invariant kept by every successful iteration holds at
    the end of a successful loop. *)
Lemma rfold_inv (P : list A → B → Prop) l b b' :
  P [] b →
  (∀ done x c c', x ∈ l → P done c → f x c = Ok c' → P (done ++ [x]) c') →
  rfold f l b = Ok b' → P l b'.
Proof.
  intros H0 Hstep.
  enough (∀ l' dn b, (∀ x, x ∈ l' → x ∈ l) → P dn b →
    rfold f l' b = Ok b' → P (dn ++ l') b') as G.
  { intros Hr. by apply (G l [] b). }
  clear H0 b. induction l' as [|x l' IH]; intros dn b Hsub HP; simpl.
  { intros [= <-]. by rewrite app_nil_r. }
  destruct (f x b) as [c|] eqn:Hf; [|done]. intros Hr.
  rewrite cons_middle, app_assoc. eapply IH; [set_solver|..|done].
  eapply Hstep; [|done..]. set_solver.
Qed.

(** Total correctness: when every iteration succeeds from its invariant, so
    does the loop.  [dn] is what is done and [x :: rest] what is left. *)
Lemma rfold_total (P : list A → B → Prop) l b :
  P [] b →
  (∀ dn x rest c, l = dn ++ x :: rest → P dn c →
     ∃ c', f x c = Ok c' ∧ P (dn ++ [x]) c') →
  ∃ b', rfold f l b = Ok b' ∧ P l b'.
Proof.
  intros H0 Hstep.
  enough (∀ l' dn c, l = dn ++ l' → P dn c → ∃ b', rfold f l' c = Ok b' ∧ P l b') as G
    by by apply (G l []).
  clear H0 b. induction l' as [|x l' IH]; intros dn c -> HP; simpl.
  { exists c. by rewrite app_nil_r in *. }
  destruct (Hstep dn x l' c eq_refl HP) as (c'&->&HP').
  destruct (IH (dn ++ [x]) c') as (b'&Hb&HPb); [by rewrite <-app_assoc|done|eauto].
Qed.
End rfold.

(** ** Go maps

    A value of a Go map type is [None] when it is nil; reading a nil map finds
    nothing and its length is zero. *)
Abbreviation gomap V := (option (gmap string V)).

Definition entries {V} (m : gomap V) : gmap string V := default ∅ m.
Definition nilmap {V} : gomap V := None.
Definition mlen {V} (m : gomap V) : nat := size (entries m).

(** ** Extensional lemmas the components share *)

Lemma size_0_empty {V} `{Countable K} (m : gmap K V) : size m = 0%nat ↔ m = ∅.
Proof. apply map_size_empty_iff. Qed.

(** Two maps of one size, one of which is below the other, are equal. *)
Lemma map_subseteq_size_eq {V} `{Countable K} (m1 m2 : gmap K V) :
  m1 ⊆ m2 → size m1 = size m2 → m1 = m2.
Proof.
  intros Hs Hsz. apply map_eq. intros i. destruct (m1 !! i) as [v|] eqn:H1.
  { symmetry. eapply lookup_weaken; done. }
  destruct (m2 !! i) as [v|] eqn:H2; [exfalso|done].
  assert (m1 ⊆ delete i m2) as Hd.
  { apply map_subseteq_spec. intros j x Hj. apply lookup_delete_Some. split; [by intros ->; congruence|].
    by eapply lookup_weaken. }
  apply map_subseteq_size in Hd. rewrite map_size_delete_Some in Hd by eauto.
  assert (size m2 ≠ 0%nat); [|lia].
  intros Hz%map_size_empty_inv. by rewrite Hz, lookup_empty in H2.
Qed.

Lemma NoDup_length_le {A} (l1 l2 : list A) :
  NoDup l1 → l1 ⊆ l2 → (length l1 ≤ length l2)%nat.
Proof. intros. by apply submseteq_length, NoDup_submseteq. Qed.

(** ** Sorting

    [sort.Strings] and [sort.Ints]: the sorted permutation of their argument,
    which is unique, so the algorithm does not matter. *)
Definition sort_strings (l : list string) : list string := merge_sort String.le l.
Definition sort_ints (l : list Z) : list Z := merge_sort Z.le l.

Lemma sort_strings_perm l : sort_strings l ≡ₚ l.
Proof. apply merge_sort_Permutation. Qed.
Lemma sort_ints_perm l : sort_ints l ≡ₚ l.
Proof. apply merge_sort_Permutation. Qed.

Lemma sort_strings_unique l1 l2 : l1 ≡ₚ l2 → sort_strings l1 = sort_strings l2.
Proof.
  intros Hp. apply (StronglySorted_unique String.le).
  - apply (StronglySorted_merge_sort _ l1).
  - apply (StronglySorted_merge_sort _ l2).
  - by rewrite !sort_strings_perm.
Qed.

Lemma sort_ints_unique l1 l2 : l1 ≡ₚ l2 ↔ sort_ints l1 = sort_ints l2.
Proof.
  split.
  - intros Hp. apply (StronglySorted_unique Z.le).
    + apply (StronglySorted_merge_sort _ l1).
    + apply (StronglySorted_merge_sort _ l2).
    + by rewrite !sort_ints_perm.
  - intros He. by rewrite <-(sort_ints_perm l1), He, sort_ints_perm.
Qed.

Lemma sort_strings_sorted l : StronglySorted String.le l → sort_strings l = l.
Proof.
  intros Hs. apply (StronglySorted_unique String.le); [|done|apply sort_strings_perm].
  apply StronglySorted_merge_sort; apply _.
Qed.

Lemma sort_ints_length l : length (sort_ints l) = length l.
Proof. by rewrite sort_ints_perm. Qed.

(** ** Automation *)

Create HintDb sous discriminated.
Create Rewrite HintDb sous.
#[export] Hint Resolve sort_strings_perm sort_ints_perm : sous.
#[export] Hint Rewrite sort_ints_length : sous.

(** Case analysis on every [if] and [match] of the goal, closing what
    computes or is contradictory. *)
Ltac case_all := repeat (case_match || case_decide); simplify_eq/=; try done.

(** Split a record equality field by field. *)
Ltac record_eq := f_equal; try done; try lia; try congruence.
