(* ===== verification/GoStrings.v ===== *)
(** * The string functions of Go's standard library that Sous calls

    Go strings are byte sequences, so they are [string]s (lists of 8-bit
    [ascii]).  [strings.Split], [SplitN], [Join], [Replace], [HasPrefix] and
    [strconv.Atoi], [ParseInt], with the lemmas the parsers and printers of
    the other files share. *)

From S2P Require Import Prelude.
From Stdlib Require Import DecimalString Decimal DecimalZ DecimalPos DecimalFacts.

#[local] Open Scope string_scope.
#[local] Open Scope Z_scope.
#[global] Arguments String.append : simpl nomatch.

(** ** Bytes of a string *)

Fixpoint bytes (s : string) : list ascii :=
  match s with EmptyString => [] | String c s' => c :: bytes s' end.

(** The byte [c] does not occur in [s]. *)
Definition lacks (c : ascii) (s : string) : bool := bool_decide (c ∉ bytes s).

Lemma lacks_spec c s : lacks c s = true ↔ c ∉ bytes s.
Proof. apply bool_decide_eq_true. Qed.

Lemma bytes_app s1 s2 : bytes (s1 +:+ s2) = (bytes s1 ++ bytes s2)%list.
Proof. induction s1; simpl; congruence. Qed.

Lemma str_app_nil_r (s : string) : s +:+ "" = s.
Proof. induction s; simpl; congruence. Qed.

Lemma str_app_assoc (s1 s2 s3 : string) : (s1 +:+ s2) +:+ s3 = s1 +:+ (s2 +:+ s3).
Proof. induction s1; simpl; congruence. Qed.

Lemma str_length_app (s1 s2 : string) :
  String.length (s1 +:+ s2) = (String.length s1 + String.length s2)%nat.
Proof. induction s1; simpl; congruence. Qed.

Lemma lacks_app c s1 s2 : lacks c (s1 +:+ s2) = lacks c s1 && lacks c s2.
Proof.
  apply eq_bool_prop_intro. rewrite andb_True.
  rewrite !Is_true_true, !lacks_spec, bytes_app. set_solver.
Qed.

(** [s[:n]] and [s[n:]] for [n <= len(s)]. *)
Fixpoint str_take (n : nat) (s : string) : string :=
  match n, s with
  | S n', String c s' => String c (str_take n' s')
  | _, _ => ""
  end.
Fixpoint str_drop (n : nat) (s : string) : string :=
  match n, s with
  | S n', String _ s' => str_drop n' s'
  | _, _ => s
  end.

Lemma str_take_length n s :
  String.length (str_take n s) = (n `min` String.length s)%nat.
Proof.
  revert s. induction n as [|n IH]; intros [|c s]; simpl; [done..|].
  by rewrite IH.
Qed.

(** ** [strings.Split] and [strings.SplitN(s, sep, 2)], for a one-byte separator *)

Fixpoint split_on (c : ascii) (s : string) : list string :=
  match s with
  | "" => [""]
  | String x s' =>
      if decide (x = c) then "" :: split_on c s'
      else match split_on c s' with
           | w :: ws => String x w :: ws
           | [] => [String x ""]
           end
  end.

(** The part before the first [c] and, if there is a [c], the part after it. *)
Fixpoint cut (c : ascii) (s : string) : string * option string :=
  match s with
  | "" => ("", None)
  | String x s' =>
      if decide (x = c) then ("", Some s')
      else let '(a, b) := cut c s' in (String x a, b)
  end.

Definition split2 (c : ascii) (s : string) : list string :=
  match cut c s with
  | (a, None) => [a]
  | (a, Some b) => [a; b]
  end.

Fixpoint join (sep : string) (l : list string) : string :=
  match l with
  | [] => ""
  | [s] => s
  | s :: l' => s +:+ sep +:+ join sep l'
  end.

(** [strings.Trim(s, cutset)]. *)
Fixpoint trim_left (cutset : list ascii) (s : string) : string :=
  match s with
  | "" => ""
  | String c s' => if decide (c ∈ cutset) then trim_left cutset s' else s
  end.
Fixpoint rev_str (acc s : string) : string :=
  match s with "" => acc | String c s' => rev_str (String c acc) s' end.
Definition trim (cutset : list ascii) (s : string) : string :=
  rev_str "" (trim_left cutset (rev_str "" (trim_left cutset s))).

(** [strings.TrimSpace] on ASCII space. *)
Definition spaces : list ascii := ["009"; "010"; "011"; "012"; "013"; " "]%char.
Definition TrimSpace (s : string) : string := trim spaces s.

Definition newline : ascii := "010"%char.

Lemma split_on_nonempty c s : split_on c s ≠ [].
Proof.
  destruct s as [|x s]; simpl; [done|].
  case_decide; [done|]. by destruct (split_on c s).
Qed.

Lemma split_on_lacks c s : lacks c s = true → split_on c s = [s].
Proof.
  rewrite lacks_spec. induction s as [|x s IH]; simpl; [done|].
  intros Hn. rewrite decide_False by set_solver. rewrite IH by set_solver. done.
Qed.

Lemma split_on_cons c s1 s2 :
  lacks c s1 = true → split_on c (s1 +:+ String c s2) = s1 :: split_on c s2.
Proof.
  rewrite lacks_spec. induction s1 as [|x s1 IH]; simpl.
  { intros _. by rewrite decide_True. }
  intros Hn. rewrite decide_False by set_solver. rewrite IH by set_solver. done.
Qed.

Lemma split_on_pieces c s : Forall (λ w, lacks c w = true) (split_on c s).
Proof.
  induction s as [|x s IH]; simpl; [by repeat constructor|].
  case_decide as Hx; [by constructor|].
  destruct (split_on c s) as [|w ws]; inv IH; constructor; [|constructor|..|done].
  all: rewrite ?lacks_spec in *; simpl; set_solver.
Qed.

(** Joining the pieces gives back the string. *)
Lemma join_split_on c s : join (String c "") (split_on c s) = s.
Proof.
  induction s as [|x s IH]; simpl; [done|].
  pose proof (split_on_nonempty c s) as Hne.
  case_decide as Hx; [subst|].
  - destruct (split_on c s) as [|w ws]; [done|]. simpl in *. by rewrite IH.
  - destruct (split_on c s) as [|w ws]; [done|].
    destruct ws; simpl in *; congruence.
Qed.

(** What is joined of pieces without the separator splits into them. *)
Lemma split_on_join (c : ascii) (l : list string) :
  l ≠ [] → Forall (λ s, lacks c s = true) l → split_on c (join (String c "") l) = l.
Proof.
  intros Hne Hl. induction Hl as [|s l Hs Hl IH]; [done|]. destruct l as [|s' l].
  - simpl. by apply split_on_lacks.
  - change (join (String c "") (s :: s' :: l)) with (s +:+ String c (join (String c "") (s' :: l))).
    rewrite split_on_cons by done. by rewrite IH.
Qed.

Lemma cut_lacks c s : lacks c s = true → cut c s = (s, None).
Proof.
  rewrite lacks_spec. induction s as [|x s IH]; simpl; [done|].
  intros Hn. rewrite decide_False by set_solver. by rewrite IH by set_solver.
Qed.

Lemma cut_app c s1 s2 :
  lacks c s1 = true → cut c (s1 +:+ String c s2) = (s1, Some s2).
Proof.
  rewrite lacks_spec. induction s1 as [|x s1 IH]; simpl.
  { intros _. by rewrite decide_True. }
  intros Hn. rewrite decide_False by set_solver. by rewrite IH by set_solver.
Qed.

#[export] Hint Rewrite split_on_lacks split_on_cons cut_lacks cut_app
  using done : sous.

(** [strings.HasPrefix]. *)
Fixpoint has_prefix (s p : string) {struct p} : bool :=
  match p, s with
  | "", _ => true
  | String a p', String b s' => bool_decide (a = b) && has_prefix s' p'
  | _, _ => false
  end.

(** [strings.Replace(s, old, new, -1)] for a non-empty [old]: [skip] counts the
    bytes of a match still to be dropped. *)
Fixpoint replace_from (skip : nat) (old new s : string) : string :=
  match s with
  | "" => ""
  | String c s' =>
      match skip with
      | S k => replace_from k old new s'
      | O => if has_prefix s old
             then new +:+ replace_from (String.length old - 1) old new s'
             else String c (replace_from 0 old new s')
      end
  end.
Definition replace_all (s old new : string) : string := replace_from 0 old new s.

(** ** Decimal integers *)

(** [%d]. *)
Definition itoa (z : Z) : string := NilZero.string_of_int (Z.to_int z).

Definition is_digit (c : ascii) : bool :=
  (48 <=? nat_of_ascii c)%nat && (nat_of_ascii c <=? 57)%nat.
Definition digit_val (c : ascii) : Z := Z.of_nat (nat_of_ascii c) - 48.

Fixpoint digits_val (acc : Z) (s : string) : option Z :=
  match s with
  | "" => Some acc
  | String c s' => if is_digit c then digits_val (10 * acc + digit_val c) s' else None
  end.

Definition parse_digits (s : string) : option Z :=
  match s with "" => None | _ => digits_val 0 s end.

(** [strconv.ParseInt(s, 10, bits)]: an optional sign, then digits, then the
    range check.  Every failure is the one error value the callers test for. *)
Definition parse_int (bits : Z) (s : string) : option Z :=
  z ← match s with
      | "" => None
      | String c s' =>
          if decide (c = "+"%char) then parse_digits s'
          else if decide (c = "-"%char) then Z.opp <$> parse_digits s'
          else parse_digits s
      end;
  if (- 2 ^ (bits - 1) <=? z) && (z <? 2 ^ (bits - 1)) then Some z else None.

(** [strconv.Atoi] on a 64-bit platform. *)
Definition atoi (s : string) : option Z := parse_int 64 s.

Lemma digits_val_acc d acc :
  digits_val (Z.pos acc) (NilEmpty.string_of_uint d) = Some (Z.pos (Pos.of_uint_acc d acc)).
Proof.
  revert acc. induction d; intros acc; [done|..]; cbn [Pos.of_uint_acc];
    rewrite <-IHd; cbn [NilEmpty.string_of_uint digits_val];
    match goal with |- context [is_digit ?c] =>
      change (is_digit c) with true;
      let v := eval vm_compute in (digit_val c) in change (digit_val c) with v
    end; f_equal; lia.
Qed.

Lemma digits_val_uint d :
  digits_val 0 (NilEmpty.string_of_uint d) = Some (Z.of_N (Pos.of_uint d)).
Proof. induction d; [done|apply IHd|..]; apply digits_val_acc. Qed.

Lemma parse_digits_uint d :
  d ≠ Nil → parse_digits (NilEmpty.string_of_uint d) = Some (Z.of_N (Pos.of_uint d)).
Proof. intros Hd. rewrite <-digits_val_uint. by destruct d. Qed.

Lemma is_digit_range c : is_digit c = true ↔ (48 ≤ nat_of_ascii c ≤ 57)%nat.
Proof. unfold is_digit. rewrite andb_true_iff, !Nat.leb_le. lia. Qed.

Lemma uint_bytes_digits d : Forall (λ c, is_digit c = true) (bytes (NilEmpty.string_of_uint d)).
Proof. induction d; simpl; by constructor. Qed.

Lemma itoa_nonneg z : 0 ≤ z →
  ∃ d, d ≠ Nil ∧ itoa z = NilEmpty.string_of_uint d ∧ Z.of_N (Pos.of_uint d) = z.
Proof.
  intros Hz. destruct z as [|p|p]; [by exists (D0 Nil)| |lia].
  exists (Pos.to_uint p). pose proof (Unsigned.to_uint_nonnil p) as Hn.
  split_and!; [done|..].
  - unfold itoa. simpl. by destruct (Pos.to_uint p).
  - by rewrite Unsigned.of_to.
Qed.

(** A printed non-negative number is made of digits, and there is at least one. *)
Lemma itoa_digits z : 0 ≤ z → Forall (λ c, is_digit c = true) (bytes (itoa z)).
Proof. intros (d&_&->&_)%itoa_nonneg. apply uint_bytes_digits. Qed.

Lemma itoa_lacks c z : 0 ≤ z → is_digit c = false → lacks c (itoa z) = true.
Proof.
  intros Hz Hc. apply lacks_spec. intros Hin.
  pose proof (itoa_digits z Hz) as Hd. rewrite Forall_forall in Hd.
  specialize (Hd c Hin). congruence.
Qed.

(** [strconv.Atoi] reads back what [%d] prints, within 64 bits. *)
Lemma parse_int_itoa bits z :
  0 ≤ z < 2 ^ (bits - 1) → parse_int bits (itoa z) = Some z.
Proof.
  intros [Hz Hb]. destruct (itoa_nonneg z Hz) as (d&Hd&Hi&Hv).
  assert (parse_digits (itoa z) = Some z) as Hp by (by rewrite Hi, parse_digits_uint, Hv).
  pose proof (itoa_digits z Hz) as Hall. unfold parse_int.
  destruct (itoa z) as [|c s]; [done|]. inv Hall.
  rewrite !decide_False by (by intros ->). rewrite Hp. simpl.
  rewrite (proj2 (Z.ltb_lt _ _)) by lia.
  rewrite (proj2 (Z.leb_le _ _)) by (pose proof (Z.pow_nonneg 2 (bits - 1)); lia). done.
Qed.

Lemma parse_int_range bits s z : parse_int bits s = Some z → - 2 ^ (bits - 1) ≤ z < 2 ^ (bits - 1).
Proof.
  unfold parse_int. intros Hb. apply bind_Some in Hb as (y&_&Hy).
  destruct ((_ <=? y) && (y <? _)) eqn:Hc; [|done]. injection Hy as <-.
  apply andb_true_iff in Hc. lia.
Qed.

(** The round trip on negative numbers too. *)
Lemma parse_int_itoa_signed bits z :
  - 2 ^ (bits - 1) ≤ z < 2 ^ (bits - 1) → parse_int bits (itoa z) = Some z.
Proof.
  intros Hz. destruct (decide (0 ≤ z)) as [|Hneg]; [apply parse_int_itoa; lia|].
  destruct z as [|p|p]; [lia..|].
  change (itoa (Z.neg p)) with (String "-"%char (itoa (Z.pos p))).
  destruct (itoa_nonneg (Z.pos p)) as (d&Hd&Hi&Hv); [lia|].
  assert (parse_digits (itoa (Z.pos p)) = Some (Z.pos p)) as Hp by (by rewrite Hi, parse_digits_uint, Hv).
  unfold parse_int. rewrite decide_False, decide_True, Hp by done.
  cbn [fmap option_fmap option_map mbind option_bind].
  rewrite (proj2 (Z.ltb_lt _ _)), (proj2 (Z.leb_le _ _)) by lia. done.
Qed.

(** ** [strings.ToUpper] on ASCII letters (Sous upcases only "http" and "https") *)

Definition ascii_upper (c : ascii) : ascii :=
  if (97 <=? nat_of_ascii c)%nat && (nat_of_ascii c <=? 122)%nat
  then ascii_of_nat (nat_of_ascii c - 32) else c.
Fixpoint to_upper (s : string) : string :=
  match s with "" => "" | String c s' => String (ascii_upper c) (to_upper s') end.

(** ** Replacing in a string built from pieces *)

Lemma has_prefix_bytes s p c : has_prefix s p = true → c ∈ bytes p → c ∈ bytes s.
Proof.
  revert s. induction p as [|a p IH]; intros [|b s]; simpl; [set_solver..|done|].
  rewrite andb_true_iff, bool_decide_eq_true. intros [-> Hp] Hc.
  specialize (IH s Hp). set_solver.
Qed.

(** Closes [c ∈ bytes "..."] for closed strings. *)
Ltac byte_in := solve [apply list_elem_of_In; simpl; tauto].

(** A pattern with a byte the string lacks is not found. *)
Lemma replace_all_lacks c s old new :
  c ∈ bytes old → lacks c s = true → replace_all s old new = s.
Proof.
  intros Hc. rewrite lacks_spec. unfold replace_all.
  induction s as [|x s IH]; [done|]. intros Hs. cbn [replace_from].
  destruct (has_prefix (String x s) old) eqn:Hp.
  - exfalso. apply Hs. exact (has_prefix_bytes _ _ _ Hp Hc).
  - by rewrite IH by set_solver.
Qed.

(** A piece that lacks the pattern's first byte is copied. *)
Lemma replace_all_app c o new s1 s2 :
  lacks c s1 = true →
  replace_all (s1 +:+ s2) (String c o) new = s1 +:+ replace_all s2 (String c o) new.
Proof.
  rewrite lacks_spec. unfold replace_all.
  induction s1 as [|x s1 IH]; simpl; [done|]. intros Hn.
  rewrite bool_decide_eq_false_2 by set_solver. simpl. rewrite IH by set_solver. done.
Qed.

Lemma lacks_cons c x s : lacks c (String x s) = negb (bool_decide (c = x)) && lacks c s.
Proof.
  apply eq_bool_prop_intro. rewrite andb_True, negb_True, !Is_true_true, !lacks_spec.
  rewrite bool_decide_eq_true. simpl. set_solver.
Qed.

Lemma lacks_forall (P : ascii → bool) c s :
  Forall (λ x, P x = true) (bytes s) → P c = false → lacks c s = true.
Proof.
  intros Hall Hc. apply lacks_spec. intros Hin.
  rewrite Forall_forall in Hall. specialize (Hall c Hin). congruence.
Qed.

(** A one-byte pattern at the head of a string, and a two-byte one. *)
Lemma replace_all_hd1 c s new :
  replace_all (String c s) (String c "") new = new +:+ replace_all s (String c "") new.
Proof. unfold replace_all. simpl. by rewrite bool_decide_eq_true_2. Qed.

Lemma replace_all_hd2 a b s new :
  replace_all (String a (String b s)) (String a (String b "")) new =
    new +:+ replace_all s (String a (String b "")) new.
Proof. unfold replace_all. simpl. rewrite !bool_decide_eq_true_2 by done. done. Qed.

Lemma replace_all_tl c x o s new :
  c ≠ x → replace_all (String x s) (String c o) new = String x (replace_all s (String c o) new).
Proof. intros H. unfold replace_all. simpl. by rewrite bool_decide_eq_false_2. Qed.

Lemma replace_all_nil old new : replace_all "" old new = "".
Proof. done. Qed.

#[export] Hint Rewrite replace_all_hd1 replace_all_hd2 replace_all_nil str_app_nil_r : sous.
#[export] Hint Rewrite replace_all_tl using done : sous.
