(* ===== verification/GoPath.v ===== *)
(** * Go's [path] and [path/filepath] on Unix

    The lexical operations of Go's standard library on slash-separated paths
    that Sous calls: [Clean], [Join], [IsAbs] and [Rel].  [path.Clean] and
    [filepath.Clean] are the same function on Unix.  Paths are taken apart into
    their components and put back, so that what the operations do can be stated
    on lists of components. *)

From S2P Require Import Prelude.
From S2P Require Import GoStrings.
#[local] Open Scope string_scope.
#[local] Open Scope Z_scope.

Definition slash : ascii := "/"%char.

(** ** Operations *)

Definition IsAbs (p : string) : bool := has_prefix p "/".

(** One component of a path met by [Clean]; [out] is what was written so far,
    the last component first.  A [..] takes away the component before it,
    stays at the front of a relative path, and is dropped at the root. *)
Definition clean_step (rooted : bool) (out : list string) (c : string) : list string :=
  if decide (c = "" ∨ c = ".") then out
  else if decide (c = "..")
  then match out with
       | top :: rest => if decide (top = "..") then c :: out else rest
       | [] => if rooted then [] else [c]
       end
  else c :: out.

Definition clean_comps (rooted : bool) (l : list string) : list string :=
  reverse (foldl (clean_step rooted) [] l).

(** The string of a rooted or relative list of components. *)
Definition unsplit (rooted : bool) (l : list string) : string :=
  if rooted then "/" +:+ join "/" l
  else if decide (l = []) then "." else join "/" l.

Definition Clean (p : string) : string :=
  unsplit (IsAbs p) (clean_comps (IsAbs p) (split_on slash p)).

(** [Join] skips leading empty elements, and is empty when all are. *)
Fixpoint Join (l : list string) : string :=
  match l with
  | [] => ""
  | e :: l' => if decide (e = "") then Join l' else Clean (join "/" l)
  end.

(** [filepath.Dir]: all but the last component. *)
Fixpoint through_last_slash (p : string) : option string :=
  match p with
  | "" => None
  | String c p' =>
      match through_last_slash p' with
      | Some q => Some (String c q)
      | None => if decide (c = slash) then Some "/" else None
      end
  end.
Definition dirname (p : string) : string := Clean (default "" (through_last_slash p)).

(** The components of a clean path. *)
Definition path_comps (p : string) : list string := filter (λ c, c ≠ "") (split_on slash p).

Fixpoint drop_common (a b : list string) : list string * list string :=
  match a, b with
  | x :: a', y :: b' => if decide (x = y) then drop_common a' b' else (a, b)
  | _, _ => (a, b)
  end.

(** [None] is the error "can't make ... relative to ...". *)
Definition Rel (basepath targpath : string) : option string :=
  let base := Clean basepath in
  let targ := Clean targpath in
  if decide (targ = base) then Some "."
  else
    let base := if decide (base = ".") then "" else base in
    if decide (IsAbs base ≠ IsAbs targ) then None
    else
      let '(bs, ts) := drop_common (path_comps base) (path_comps targ) in
      match bs, ts with
      | [], _ => Some (join "/" ts)
      | b :: _, t :: _ =>
          if decide (b = "..") then None
          else Some (join "/" (((λ _, "..") <$> bs) ++ ts))
      | _ :: _, [] => Some (join "/" ((λ _, "..") <$> bs))
      end.

Example Clean_ex1 : Clean "a//b/./c/.." = "a/b". Proof. reflexivity. Qed.
Example Clean_ex2 : Clean "/../a" = "/a". Proof. reflexivity. Qed.
Example Clean_ex3 : Clean "../../a/.." = "../..". Proof. reflexivity. Qed.
Example Clean_ex4 : Clean "" = ".". Proof. reflexivity. Qed.
Example Join_ex : Join [""; "a"; ""; "../b"] = "b". Proof. reflexivity. Qed.
Example dirname_ex : dirname "/a/b/c" = "/a/b" ∧ dirname "a" = "." ∧ dirname "/a" = "/".
Proof. by split_and!. Qed.
Example Rel_ex1 : Rel "/a/b" "/a/c/d" = Some "../c/d". Proof. reflexivity. Qed.
Example Rel_ex2 : Rel "/a" "/a/b/" = Some "b". Proof. reflexivity. Qed.
Example Rel_ex3 : Rel "/a/b" "/" = Some "../..". Proof. reflexivity. Qed.
Example Rel_ex4 : Rel "a" "/b" = None. Proof. reflexivity. Qed.

(** ** Splitting and joining *)

Lemma split_on_app_join p s :
  split_on slash (p +:+ String slash s) = (split_on slash p ++ split_on slash s)%list.
Proof.
  induction p as [|x p IH]; simpl.
  { done. }
  rewrite IH. case_decide; [done|]. pose proof (split_on_nonempty slash p).
  by destruct (split_on slash p).
Qed.

(** ** Normal forms *)

(** A component other than the three that [Clean] treats. *)
Definition plain (c : string) : Prop := c ≠ "" ∧ c ≠ "." ∧ c ≠ ".." ∧ lacks slash c = true.

(** What [Clean] makes of components: plain ones, after some [..] if the path
    is relative.  [n] counts the [..]. *)
Definition normal (rooted : bool) (l : list string) : Prop :=
  ∃ n ps, l = (replicate n ".." ++ ps)%list ∧ Forall plain ps ∧ (rooted = true → n = 0%nat).

Lemma clean_step_normal rooted out c :
  lacks slash c = true → normal rooted (reverse out) →
  normal rooted (reverse (clean_step rooted out c)).
Proof.
  intros Hc (n&ps&Hl&Hps&Hr). unfold clean_step.
  case_decide as H1; [by exists n, ps|]. case_decide as H2; [subst c|].
  - destruct out as [|top rest].
    { destruct rooted; [by exists 0%nat, []|]. by exists 1%nat, []. }
    rewrite reverse_cons in Hl. destruct ps as [|p ps _] using rev_ind.
    + rewrite app_nil_r in Hl. destruct n as [|n]; [by apply app_nil in Hl as [_ ?]|].
      replace (S n) with (n + 1)%nat in Hl by lia. rewrite replicate_add in Hl.
      apply app_inj_tail in Hl as [Hl ->]. rewrite decide_True by done.
      exists (S (S n)), []. rewrite !reverse_cons, Hl, app_nil_r.
      split_and!; [|done|intros ->; by specialize (Hr eq_refl)].
      replace (S (S n)) with (n + 1 + 1)%nat by lia. by rewrite !replicate_add.
    + rewrite app_assoc in Hl. apply app_inj_tail in Hl as [Hl ->].
      apply Forall_app in Hps as [Hps Hp]. inv Hp. destruct H2 as (_&_&Hne&_).
      rewrite decide_False by done. by exists n, ps.
  - exists n, (ps ++ [c])%list. rewrite reverse_cons, Hl, app_assoc. split_and!; [done| |done].
    apply Forall_app. split; [done|]. repeat constructor; naive_solver.
Qed.

Lemma clean_comps_normal rooted l :
  Forall (λ c, lacks slash c = true) l → normal rooted (clean_comps rooted l).
Proof.
  unfold clean_comps. intros Hl.
  assert (normal rooted (reverse [])) as H0 by (by exists 0%nat, []).
  revert Hl H0. generalize (@nil string) as out.
  induction l as [|c l IH]; intros out Hl Ho; simpl; [done|]. inv Hl.
  apply IH; [done|]. by apply clean_step_normal.
Qed.

Lemma clean_dotdots rooted n l :
  (rooted = true → n = 0%nat) →
  foldl (clean_step rooted) [] (replicate n ".." ++ l) =
    foldl (clean_step rooted) (replicate n "..") l.
Proof.
  intros Hr. rewrite foldl_app. f_equal. destruct rooted; [by rewrite Hr|]. clear Hr.
  assert (∀ k, foldl (clean_step false) (replicate k "..") (replicate n "..") =
            replicate (k + n) "..") as G; [|apply (G 0%nat)].
  induction n as [|n IH]; intros k; simpl; [f_equal; lia|].
  replace (clean_step false (replicate k "..") "..") with (replicate (S k) "..").
  { rewrite IH. f_equal. lia. }
  destruct k; done.
Qed.

Lemma clean_plain rooted out ps :
  Forall plain ps → foldl (clean_step rooted) out ps = (reverse ps ++ out)%list.
Proof.
  intros Hps. revert out. induction Hps as [|p ps Hp Hps IH]; intros out; simpl; [done|].
  rewrite IH, reverse_cons, <-app_assoc. f_equal. unfold clean_step. destruct Hp as (?&?&?&?).
  rewrite !decide_False by naive_solver. done.
Qed.

(** [Clean] leaves a normal list as it is. *)
Lemma clean_comps_id rooted l : normal rooted l → clean_comps rooted l = l.
Proof.
  intros (n&ps&->&Hps&Hr). unfold clean_comps.
  rewrite clean_dotdots, clean_plain by done.
  rewrite reverse_app, reverse_involutive. f_equal. apply reverse_replicate.
Qed.

Lemma plain_lacks l : Forall plain l → Forall (λ w, lacks slash w = true) l.
Proof. intros Hl. eapply Forall_impl; [exact Hl|]. by intros c (_&_&_&?). Qed.

Lemma normal_rooted l : normal true l ↔ Forall plain l.
Proof.
  split; [|by exists 0%nat, l]. intros (n&ps&->&Hps&Hr). by rewrite Hr.
Qed.

Lemma normal_lacks rooted l : normal rooted l → Forall (λ w, lacks slash w = true ∧ w ≠ "") l.
Proof.
  intros (n&ps&->&Hps&_). apply Forall_app. split.
  - by apply Forall_replicate.
  - eapply Forall_impl; [exact Hps|]. by intros c (?&_&_&?).
Qed.

Lemma join_head w l : ∃ r, join "/" (w :: l) = w +:+ r.
Proof. destruct l as [|x l]; simpl; [exists ""; by rewrite str_app_nil_r|eauto]. Qed.

Lemma IsAbs_unsplit rooted l : normal rooted l → IsAbs (unsplit rooted l) = rooted.
Proof.
  intros Hn. destruct rooted; simpl; [done|]. case_decide; [done|].
  apply normal_lacks in Hn. destruct l as [|w l]; [done|]. inv Hn.
  destruct H2 as [Hl Hne]. destruct (join_head w l) as (r&->). destruct w as [|c w]; [done|].
  unfold IsAbs. simpl. rewrite andb_true_r. apply bool_decide_eq_false. intros <-.
  by rewrite lacks_cons in Hl.
Qed.

Lemma split_unsplit rooted l :
  normal rooted l → l ≠ [] →
  split_on slash (unsplit rooted l) = if rooted then "" :: l else l.
Proof.
  intros Hn Hl. assert (Forall (λ w, lacks slash w = true) l) as Hs.
  { eapply Forall_impl; [by eapply normal_lacks|]. by intros ? []. }
  unfold unsplit. destruct rooted; [|rewrite decide_False by done; by apply split_on_join].
  change ("/" +:+ join "/" l) with ("" +:+ String slash (join "/" l)).
  rewrite split_on_app_join. simpl. by rewrite split_on_join.
Qed.

Lemma Clean_unsplit rooted l : normal rooted l → Clean (unsplit rooted l) = unsplit rooted l.
Proof.
  intros Hn. unfold Clean. rewrite IsAbs_unsplit by done. f_equal.
  destruct (decide (l = [])) as [->|Hl]; [by destruct rooted|].
  rewrite split_unsplit by done. transitivity (clean_comps rooted l); [by destruct rooted|].
  by apply clean_comps_id.
Qed.

Lemma Clean_normal p : normal (IsAbs p) (clean_comps (IsAbs p) (split_on slash p)).
Proof. apply clean_comps_normal, split_on_pieces. Qed.

(** Cleaning twice is cleaning once, and keeps absolute paths absolute. *)
Lemma Clean_idem p : Clean (Clean p) = Clean p.
Proof. apply Clean_unsplit, Clean_normal. Qed.

Lemma IsAbs_Clean p : IsAbs (Clean p) = IsAbs p.
Proof. apply IsAbs_unsplit, Clean_normal. Qed.

#[export] Hint Rewrite Clean_idem IsAbs_Clean : sous.

(** ** Absolute paths, by their components *)

Definition abs_comps (p : string) : list string := clean_comps true (split_on slash p).

Lemma abs_comps_plain p : Forall plain (abs_comps p).
Proof. apply normal_rooted, clean_comps_normal, split_on_pieces. Qed.

Lemma Clean_abs p : IsAbs p = true → Clean p = unsplit true (abs_comps p).
Proof. intros Hp. unfold Clean. by rewrite Hp. Qed.

Lemma abs_comps_unsplit l : Forall plain l → abs_comps (unsplit true l) = l.
Proof.
  intros Hl. unfold abs_comps. destruct (decide (l = [])) as [->|Hne]; [done|].
  rewrite split_unsplit by (done || by apply normal_rooted).
  transitivity (clean_comps true l); [done|]. by apply clean_comps_id, normal_rooted.
Qed.

Lemma path_comps_unsplit l : Forall plain l → path_comps (unsplit true l) = l.
Proof.
  intros Hl. unfold path_comps. destruct (decide (l = [])) as [->|Hne]; [done|].
  rewrite split_unsplit by (done || by apply normal_rooted).
  rewrite filter_cons_False by naive_solver.
  induction Hl as [|c l (Hc&_) Hl IH]; [done|]. rewrite filter_cons_True by done. f_equal.
  destruct l; [done|by apply IH].
Qed.

Lemma unsplit_inj l1 l2 :
  Forall plain l1 → Forall plain l2 → unsplit true l1 = unsplit true l2 → l1 = l2.
Proof.
  intros H1 H2 He. by rewrite <-(abs_comps_unsplit l1), He, abs_comps_unsplit.
Qed.

(** Joining below an absolute directory: the components follow. *)
Lemma foldl_comps_app rooted out a b :
  foldl (clean_step rooted) out (split_on slash (a +:+ String "/" b)) =
    foldl (clean_step rooted) (foldl (clean_step rooted) out (split_on slash a)) (split_on slash b).
Proof.
  change (String "/" b) with (String slash b). by rewrite split_on_app_join, foldl_app.
Qed.

Lemma IsAbs_app a b : a ≠ "" → IsAbs (a +:+ b) = IsAbs a.
Proof. by destruct a. Qed.

Lemma Join2_abs root p :
  IsAbs root = true → Join [root; p] = unsplit true
    (reverse (foldl (clean_step true) (reverse (abs_comps root)) (split_on slash p))).
Proof.
  intros Ha. assert (root ≠ "") as Hne by (by intros ->).
  simpl. rewrite decide_False by done. unfold Clean. rewrite IsAbs_app, Ha by done.
  unfold clean_comps, abs_comps, clean_comps. by rewrite foldl_comps_app, reverse_involutive.
Qed.

Lemma IsAbs_Join2 root p : IsAbs root = true → IsAbs (Join [root; p]) = true.
Proof. intros Ha. by rewrite Join2_abs. Qed.

Lemma Join2_plain root ps :
  IsAbs root = true → Forall plain ps →
  Join [root; join "/" ps] = unsplit true (abs_comps root ++ ps).
Proof.
  intros Ha Hps. rewrite Join2_abs by done. f_equal.
  destruct (decide (ps = [])) as [->|Hne].
  { cbn [join split_on foldl]. unfold clean_step. rewrite decide_True by auto.
    by rewrite reverse_involutive, app_nil_r. }
  rewrite split_on_join by (done || by apply plain_lacks).
  rewrite clean_plain by done. by rewrite reverse_app, !reverse_involutive.
Qed.

(** ** [Rel] on absolute paths *)

Lemma drop_common_app a b x y : drop_common a b = (x, y) →
  ∃ c, a = (c ++ x)%list ∧ b = (c ++ y)%list.
Proof.
  revert b. induction a as [|u a IH]; intros [|v b]; simpl; try (intros [= <- <-]; by exists []).
  case_decide as Huv; [subst v|intros [= <- <-]; by exists []].
  intros (c&->&->)%IH. by exists (u :: c).
Qed.

Lemma drop_common_prefix a b : drop_common a (a ++ b) = ([], b).
Proof.
  induction a as [|u a IH]; simpl; [by destruct b|]. by rewrite decide_True.
Qed.

Lemma Rel_abs base targ :
  IsAbs base = true → IsAbs targ = true →
  Rel base targ = let '(bs, ts) := drop_common (abs_comps base) (abs_comps targ) in
    Some (if decide (bs = [] ∧ ts = []) then "." else join "/" (((λ _, "..") <$> bs) ++ ts)).
Proof.
  intros Hb Ht. pose proof (abs_comps_plain base) as Pb. pose proof (abs_comps_plain targ) as Pt.
  unfold Rel. rewrite !Clean_abs by done.
  destruct (drop_common (abs_comps base) (abs_comps targ)) as [bs ts] eqn:Hd.
  destruct (drop_common_app _ _ _ _ Hd) as (c&Hcb&Hct). case_decide as He.
  { apply unsplit_inj in He; [|done..]. assert (bs = ts) as <- by (apply (app_inv_head c); congruence).
    rewrite He in Hd. rewrite <-(app_nil_r (abs_comps base)) in Hd at 2.
    rewrite drop_common_prefix in Hd. injection Hd as <-. done. }
  rewrite (decide_False (P := unsplit true _ = ".")) by done.
  rewrite decide_False by (simpl; naive_solver).
  rewrite !path_comps_unsplit, Hd by done.
  destruct bs as [|b bs].
  { rewrite decide_False; [done|]. intros [_ ->]. apply He. congruence. }
  rewrite (decide_False (P := _ ∧ _)) by (by intros []). destruct ts as [|t ts]; [by rewrite app_nil_r|].
  rewrite decide_False; [done|]. rewrite Hcb in Pb. apply Forall_app in Pb as [_ Pb].
  apply Forall_cons in Pb as [(_&_&Hb2&_) _]. done.
Qed.
