(* ===== verification/GoSlice.v ===== *)
(** * Go slices that share their backing arrays

    Where the program appends to a slice that others hold, what [append] does
    to the array matters: within the capacity it writes in place, past it the
    elements move to a new array.  A slice is a view of an array in a store;
    [append] is Go's, with the growth of the capacity as a parameter. *)

From S2P Require Import Prelude.
#[local] Open Scope nat_scope.

(** A view from the start of its array.  [None] is the nil slice. *)
Record Slice := mkSlice { sl_array : nat; sl_len : nat }.
#[export] Instance Slice_eq_dec : EqDecision Slice.
Proof. solve_decision. Defined.

(** The arrays, as the list of their cells: its length is the capacity. *)
Abbreviation arrays := (list (list string)).

Class Growth := {
  grow : nat → nat → nat;
  grow_enough old need : need ≤ grow old need
}.

(** The run-time's rule for slices of strings of fewer than 1024 elements,
    without the rounding up to a size class, which begins at 17 elements. *)
Definition doubling (old need : nat) : nat := if 2 * old <? need then need else 2 * old.

Lemma doubling_enough old need : need ≤ doubling old need.
Proof. unfold doubling. destruct (Nat.ltb_spec (2 * old) need); lia. Qed.

#[global] Instance go_growth : Growth | 100 :=
  { grow := doubling; grow_enough := doubling_enough }.

Definition contents (h : arrays) (s : option Slice) : list string :=
  match s with
  | None => []
  | Some s => take (sl_len s) (default [] (h !! sl_array s))
  end.

Definition sl_length (s : option Slice) : nat := from_option sl_len 0 s.
Definition capacity (h : arrays) (s : option Slice) : nat :=
  from_option (λ s, length (default [] (h !! sl_array s))) 0 s.

(** A slice that exists in the store. *)
Definition valid (h : arrays) (s : option Slice) : Prop :=
  match s with
  | None => True
  | Some s => ∃ cells, h !! sl_array s = Some cells ∧ sl_len s ≤ length cells
  end.

Section append.
Context `{Growth}.

(** A new array of a given capacity, holding [xs]. *)
Definition alloc (xs : list string) (cap : nat) (h : arrays) : arrays * Slice :=
  ((h ++ [xs ++ replicate (cap - length xs) ""%string])%list, mkSlice (length h) (length xs)).

Definition append (s : option Slice) (xs : list string) (h : arrays) : arrays * option Slice :=
  let n := sl_length s in
  let need := n + length xs in
  if decide (xs = []) then (h, s)
  else
    match s with
    | Some sl =>
        if need <=? capacity h s
        then
          let cells := default [] (h !! sl_array sl) in
          (<[sl_array sl := (take n cells ++ xs ++ drop need cells)%list]> h,
           Some (mkSlice (sl_array sl) need))
        else
          let '(h', sl') := alloc (contents h s ++ xs) (grow (capacity h s) need) h in
          (h', Some sl')
    | None => let '(h', sl') := alloc xs (grow 0 need) h in (h', Some sl')
    end.

(** [make([]string, 0, n)]. *)
Definition make0 (n : nat) (h : arrays) : arrays * option Slice :=
  let '(h', sl) := alloc [] n h in (h', Some sl).

(** ** What [append] does *)

Lemma contents_length h s : valid h s → length (contents h s) = sl_length s.
Proof.
  destruct s as [s|]; simpl; [|done]. intros (cells&->&Hl). simpl. by rewrite length_take, Nat.min_l.
Qed.

Lemma alloc_contents xs cap h h' s :
  alloc xs cap h = (h', s) → contents h' (Some s) = xs ∧ valid h' (Some s).
Proof.
  intros [= <- <-]. simpl. rewrite list_lookup_middle by done. simpl. split.
  - by rewrite take_app_length.
  - eexists. split; [done|]. rewrite length_app. lia.
Qed.

(** A slice appended to reads as its old elements and the new ones. *)
Lemma append_contents s xs h h' s' :
  valid h s → append s xs h = (h', s') →
  contents h' s' = (contents h s ++ xs)%list ∧ valid h' s'.
Proof.
  intros Hv. unfold append. case_decide as Hxs; [intros [= <- <-]; subst; by rewrite app_nil_r|].
  destruct s as [sl|]; simpl in *.
  - destruct Hv as (cells&Hc&Hl). rewrite Hc. simpl.
    destruct (Nat.leb_spec (sl_len sl + length xs) (length cells)) as [Hle|Hgt]; intros [= <- <-].
    + simpl. rewrite list_lookup_insert_eq by (by eapply lookup_lt_Some). simpl. split.
      * rewrite app_assoc, take_app_le.
        { rewrite take_ge; [done|]. rewrite length_app, length_take. lia. }
        rewrite length_app, length_take. lia.
      * eexists. split; [done|]. rewrite !length_app, length_take, length_drop. lia.
    + by eapply alloc_contents.
  - intros [= <- <-]. by eapply alloc_contents.
Qed.

(** Which slices an append can change: those that see past the end of the slice
    appended to, in the same array. *)
Lemma append_frame s xs h h' s' t :
  valid h s → valid h t → append s xs h = (h', s') →
  (∀ a b, s = Some a → t = Some b → sl_array a = sl_array b → sl_len b ≤ sl_len a) →
  contents h' t = contents h t ∧ valid h' t.
Proof.
  intros Hv Ht. unfold append. case_decide as Hxs; [by intros [= <- <-]|].
  assert (∀ ys, contents (h ++ [ys])%list t = contents h t ∧ valid (h ++ [ys])%list t) as Hnew.
  { intros ys. destruct t as [t|]; [|done]. destruct Ht as (c&Hc&Hl). simpl.
    rewrite !lookup_app_l, Hc by (by eapply lookup_lt_Some). split; [done|by exists c]. }
  destruct s as [sl|]; simpl in *; [|intros [= <- <-] _; apply Hnew].
  destruct Hv as (cells&Hc&Hl). rewrite Hc. simpl.
  destruct (Nat.leb_spec (sl_len sl + length xs) (length cells)) as [Hle|Hgt];
    intros [= <- <-] Hover; [|apply Hnew].
  destruct t as [t|]; [|done]. simpl in *. destruct Ht as (c&Hct&Hlt).
  destruct (decide (sl_array sl = sl_array t)) as [Heq|Hne].
  - specialize (Hover sl t eq_refl eq_refl Heq). rewrite <-Heq in *.
    assert (c = cells) as -> by congruence. rewrite Hc.
    rewrite list_lookup_insert_eq by (by eapply lookup_lt_Some). simpl. split.
    + rewrite take_app_le by (rewrite length_take; lia). rewrite take_take. f_equal. lia.
    + eexists. split; [done|]. rewrite !length_app, length_take, length_drop. lia.
  - rewrite list_lookup_insert_ne, Hct by done. split; [done|by exists c].
Qed.

(** Appending keeps the capacity of what there was. *)
Lemma append_capacity s xs h h' s' t :
  valid h s → valid h t → append s xs h = (h', s') → capacity h' t = capacity h t.
Proof.
  intros Hv Ht. unfold append. case_decide as Hxs; [by intros [= <- _]|].
  assert (∀ ys, capacity (h ++ [ys])%list t = capacity h t) as Hnew.
  { intros ys. destruct t as [t|]; [|done]. destruct Ht as (c&Hc&Hl). simpl.
    by rewrite lookup_app_l by (by eapply lookup_lt_Some). }
  destruct s as [sl|]; simpl in *; [|intros [= <- _]; apply Hnew].
  destruct Hv as (cells&Hc&Hl). rewrite Hc. simpl.
  destruct (Nat.leb_spec (sl_len sl + length xs) (length cells)) as [Hle|Hgt];
    intros [= <- _]; [|apply Hnew].
  destruct t as [t|]; [|done]. simpl. destruct (decide (sl_array sl = sl_array t)) as [Heq|Hne].
  - rewrite <-Heq, list_lookup_insert_eq, Hc by (by eapply lookup_lt_Some). simpl.
    rewrite !length_app, length_take, length_drop. lia.
  - by rewrite list_lookup_insert_ne.
Qed.

(** [xs] more elements fit the array of a slice. *)
Definition fits (h : arrays) (s : option Slice) (n : nat) : Prop :=
  match s with Some a => sl_len a + n ≤ capacity h s | None => False end.

#[export] Instance fits_dec h s n : Decision (fits h s n).
Proof. destruct s; simpl; apply _. Defined.

(** Two slices of different arrays; a slice a computation left as it was. *)
Definition apart (a b : option Slice) : Prop :=
  ∀ x y, a = Some x → b = Some y → sl_array x ≠ sl_array y.
Definition undisturbed (h h' : arrays) (t : option Slice) : Prop :=
  contents h' t = contents h t ∧ valid h' t ∧ capacity h' t = capacity h t.

Lemma undisturbed_new h ys t : valid h t → undisturbed h (h ++ [ys])%list t.
Proof.
  intros Ht. destruct t as [t|]; [|done]. destruct Ht as (c&Hc&Hl).
  unfold undisturbed, contents, capacity, valid. simpl.
  rewrite !lookup_app_l, Hc by (by eapply lookup_lt_Some). split_and!; [done|by exists c|done].
Qed.

Lemma append_in_place s xs h h' s' :
  xs ≠ [] → fits h s (length xs) → append s xs h = (h', s') →
  ∃ a, s = Some a ∧ s' = Some (mkSlice (sl_array a) (sl_len a + length xs)).
Proof.
  intros Hne Hf. unfold append. rewrite decide_False by done. destruct s as [a|]; [|done].
  unfold fits in Hf. rewrite (proj2 (Nat.leb_le _ _)) by done. intros [= _ <-]. by exists a.
Qed.

(** When they do not fit, they go to a new array, and nothing else changes. *)
Lemma append_fresh s xs h h' s' :
  xs ≠ [] → ¬ fits h s (length xs) → append s xs h = (h', s') →
  ∃ ys a, h' = (h ++ [ys])%list ∧ s' = Some a ∧ sl_array a = length h.
Proof.
  intros Hne Hf. unfold append. rewrite decide_False by done.
  destruct s as [a|]; [|by intros [= <- <-]; eauto]. unfold fits in Hf.
  rewrite (proj2 (Nat.leb_gt _ _)) by (simpl in *; lia). intros [= <- <-]. eauto.
Qed.

Lemma make0_spec n h h' s :
  make0 n h = (h', s) →
  contents h' s = [] ∧ valid h' s ∧ (∀ t, valid h t → undisturbed h h' t) ∧
  ∀ t, valid h t → apart t s.
Proof.
  unfold make0, alloc. intros [= <- <-]. simpl. rewrite list_lookup_middle by done. split_and!.
  - done.
  - eexists. split; [done|lia].
  - intros t Ht. by apply undisturbed_new.
  - intros t Ht x y -> [= <-]. destruct Ht as (cs&Hc&_). apply lookup_lt_Some in Hc. simpl. lia.
Qed.

(** The capacity after an append. *)
Lemma append_new_capacity s xs h h' s' :
  valid h s → xs ≠ [] → append s xs h = (h', s') →
  capacity h' s' = if decide (fits h s (length xs)) then capacity h s
                   else grow (capacity h s) (sl_length s + length xs).
Proof.
  intros Hv Hne Ha. case_decide as Hf.
  - rewrite <-(append_capacity _ _ _ _ _ s Hv Hv Ha).
    destruct (append_in_place _ _ _ _ _ Hne Hf Ha) as (a&->&->). done.
  - unfold append in Ha. rewrite decide_False in Ha by done. destruct s as [a|].
    + unfold fits in Hf. rewrite (proj2 (Nat.leb_gt _ _)) in Ha by (simpl in *; lia).
      pose proof (contents_length h (Some a) Hv) as Hlen.
      pose proof (grow_enough (capacity h (Some a)) (sl_length (Some a) + length xs)) as Hg.
      injection Ha as <- <-. unfold capacity at 1. cbn [from_option sl_array].
      rewrite list_lookup_middle by done. simpl in *.
      rewrite !length_app, length_replicate, Hlen. lia.
    + injection Ha as <- <-. unfold capacity at 1. cbn [from_option sl_array].
      rewrite list_lookup_middle by done. simpl. rewrite length_app, length_replicate.
      pose proof (grow_enough 0 (0 + length xs)). simpl in *. lia.
Qed.

(** An append disturbs only what shares the array it writes in place. *)
Lemma append_undisturbed s xs h h' s' t :
  valid h s → valid h t → append s xs h = (h', s') →
  (xs ≠ [] → fits h s (length xs) → apart t s) →
  undisturbed h h' t ∧ (xs ≠ [] → apart t s').
Proof.
  intros Hv Ht Ha Hap. destruct (decide (xs = [])) as [->|Hne].
  { injection Ha as <- _. split; [by split_and!|done]. }
  specialize (Hap Hne). destruct (decide (fits h s (length xs))) as [Hf|Hf].
  - specialize (Hap Hf). destruct (append_in_place _ _ _ _ _ Hne Hf Ha) as (a&->&->).
    split; [|intros _ x y Hx [= <-]; by apply (Hap x a)].
    destruct (append_frame _ _ _ _ _ t Hv Ht Ha) as [? ?].
    { intros ? b [= <-] -> Hab. exfalso. by apply (Hap b a). }
    split_and!; [done..|]. exact (append_capacity _ _ _ _ _ t Hv Ht Ha).
  - destruct (append_fresh _ _ _ _ _ Hne Hf Ha) as (ys&a&->&->&Hna).
    split; [by apply undisturbed_new|]. intros _ x y -> [= <-].
    destruct Ht as (cs&Hc&_). apply lookup_lt_Some in Hc. lia.
Qed.

Lemma append_grows s xs h h' s' : append s xs h = (h', s') → length h ≤ length h'.
Proof.
  unfold append. case_decide; [by intros [= <- <-]|].
  destruct s as [sl|]; simpl; [case_match|]; intros [= <- <-];
    rewrite ?length_app, ?length_insert; simpl; lia.
Qed.
End append.
