(* ===== verification/Md5.v ===== *)
(** * The MD5 digest (Go's crypto/md5)

    Deployment IDs are digested with MD5: the algorithm of RFC 1321 on bytes,
    with 32-bit words as integers. *)

From S2P Require Import Prelude GoStrings.
#[local] Open Scope Z_scope.
#[local] Open Scope list_scope.

Module Hash.

Definition word (z : Z) : Z := z mod 2 ^ 32.
Definition add32 (a b : Z) : Z := word (a + b).
Definition not32 (a : Z) : Z := Z.lxor a (2 ^ 32 - 1).
Definition rotl (a s : Z) : Z := Z.lor (word (Z.shiftl a s)) (Z.shiftr a (32 - s)).

(** [n] bytes of a number, the least significant first. *)
Fixpoint le_bytes (n : nat) (z : Z) : list Z :=
  match n with O => [] | S n' => z mod 256 :: le_bytes n' (z / 256) end.
Fixpoint of_le_bytes (bs : list Z) : Z :=
  match bs with [] => 0 | b :: bs' => b + 256 * of_le_bytes bs' end.

(** The integer part of [2^32 * |sin (i + 1)|]. *)
Definition sines : list Z :=
  [3614090360; 3905402710; 606105819; 3250441966; 4118548399; 1200080426; 2821735955; 4249261313;
   1770035416; 2336552879; 4294925233; 2304563134; 1804603682; 4254626195; 2792965006; 1236535329;
   4129170786; 3225465664; 643717713; 3921069994; 3593408605; 38016083; 3634488961; 3889429448;
   568446438; 3275163606; 4107603335; 1163531501; 2850285829; 4243563512; 1735328473; 2368359562;
   4294588738; 2272392833; 1839030562; 4259657740; 2763975236; 1272893353; 4139469664; 3200236656;
   681279174; 3936430074; 3572445317; 76029189; 3654602809; 3873151461; 530742520; 3299628645;
   4096336452; 1126891415; 2878612391; 4237533241; 1700485571; 2399980690; 4293915773; 2240044497;
   1873313359; 4264355552; 2734768916; 1309151649; 4149444226; 3174756917; 718787259; 3951481745].

Definition shifts : list (list Z) :=
  [[7; 12; 17; 22]; [5; 9; 14; 20]; [4; 11; 16; 23]; [6; 10; 15; 21]].

Record state := mkState { sa : Z; sb : Z; sc : Z; sd : Z }.

Definition init : state := mkState 1732584193 4023233417 2562383102 271733878.

(** Step [i] on the sixteen words of a block. *)
Definition md5_step (block : list Z) (s : state) (i : nat) : state :=
  let '(mkState a b c d) := s in
  let rnd := (i / 16)%nat in
  let '(f, g) :=
    match rnd with
    | 0%nat => (Z.lor (Z.land b c) (Z.land (not32 b) d), i)
    | 1%nat => (Z.lor (Z.land d b) (Z.land (not32 d) c), (5 * i + 1) mod 16)%nat
    | 2%nat => (Z.lxor b (Z.lxor c d), (3 * i + 5) mod 16)%nat
    | _ => (Z.lxor c (Z.lor b (not32 d)), (7 * i) mod 16)%nat
    end in
  let sum := add32 (add32 (add32 a f) (nth i sines 0)) (nth g block 0) in
  mkState d (add32 b (rotl sum (nth (i mod 4)%nat (nth rnd shifts []) 0))) b c.

Definition md5_block (s : state) (block : list Z) : state :=
  let r := foldl (md5_step block) s (seq 0 64) in
  mkState (add32 (sa s) (sa r)) (add32 (sb s) (sb r)) (add32 (sc s) (sc r)) (add32 (sd s) (sd r)).

(** The message, a one bit, zeros, and the length in bits: a multiple of 64 bytes. *)
Definition pad (msg : list Z) : list Z :=
  let len := Z.of_nat (length msg) in
  msg ++ [128] ++ replicate (Z.to_nat ((55 - len) mod 64)) 0 ++ le_bytes 8 (8 * len).

(** The list in pieces of [n]; [fuel] bounds their number. *)
Fixpoint pieces (fuel n : nat) (l : list Z) : list (list Z) :=
  match fuel, l with
  | S fuel', _ :: _ => take n l :: pieces fuel' n (drop n l)
  | _, _ => []
  end.

Definition words (bs : list Z) : list Z := of_le_bytes <$> pieces (length bs) 4 bs.

Definition md5_ints (msg : list Z) : list Z :=
  let padded := pad msg in
  let s := foldl md5_block init (words <$> pieces (length padded) 64 padded) in
  le_bytes 4 (sa s) ++ le_bytes 4 (sb s) ++ le_bytes 4 (sc s) ++ le_bytes 4 (sd s).

(** [md5.Sum]. *)
Definition md5 (s : string) : list ascii :=
  (λ z, ascii_of_nat (Z.to_nat z)) <$> md5_ints ((λ c, Z.of_nat (nat_of_ascii c)) <$> bytes s).

Lemma md5_length s : length (md5 s) = 16%nat.
Proof. unfold md5. by rewrite length_fmap. Qed.

(** The padded message is a whole number of blocks. *)
Lemma pad_length msg : Z.of_nat (length (pad msg)) mod 64 = 0.
Proof.
  unfold pad. rewrite !length_app, length_replicate. cbn [length le_bytes].
  set (len := Z.of_nat (length msg)). pose proof (Z.mod_pos_bound (55 - len) 64 ltac:(lia)).
  replace (Z.of_nat _) with (len + 9 + (55 - len) mod 64) by (unfold len in *; lia).
  rewrite Zplus_mod_idemp_r. by replace (len + 9 + (55 - len)) with 64 by lia.
Qed.

(** The test suite of RFC 1321, in part. *)
Example md5_abc : md5_ints [97; 98; 99] =
  [144; 1; 80; 152; 60; 210; 79; 176; 214; 150; 63; 125; 40; 225; 127; 114].
Proof. vm_compute. reflexivity. Qed.
Example md5_empty : md5_ints [] =
  [212; 29; 140; 217; 143; 0; 178; 4; 233; 128; 9; 152; 236; 248; 66; 126].
Proof. vm_compute. reflexivity. Qed.
End Hash.

(** Digests are compared, never computed, in proofs. *)
#[global] Opaque Hash.md5.
