(* ===== verification/Flaw.v ===== *)
(** * Formatted messages and flaws (lib/flaw.go)

    [text] is a message as the program builds it: a literal, or the format
    string and the arguments given to [fmt.Sprintf].  The rendering of the
    verbs is not interpreted: no decision of the program reads a message back,
    only whether there is one.

    A flaw is what a [Validate] method returns.  Its [Repair] closure captures
    the object it was found in, so here it is a function on the state [S] of
    that object: it returns the new state and the error, if any. *)

From S2P Require Import Prelude GoStrings.
#[local] Open Scope string_scope.
#[local] Open Scope Z_scope.

Inductive arg : Type :=
| AText (t : text)
| AStr (s : string)
| AInt (z : Z)
| ABool (b : bool)
| AInts (l : list Z)
| AMap (m : gomap string)
| AVolumes (l : list (option (string * string * string)))
with text : Type :=
| Lit (s : string)
| Sprintf (format : text) (args : list arg)
| Cat (a b : text).

Abbreviation errorf f args := (Sprintf (Lit f) args).

(** ** Flaws *)

Record Flaw (S : Type) := mkFlaw {
  Desc : text;
  Repair : S → S * option text
}.
Arguments mkFlaw {S}.
Arguments Desc {S}.
Arguments Repair {S}.

Definition NewFlaw {S} (desc : text) (repair : S → S * option text) : Flaw S :=
  {| Desc := desc; Repair := repair |}.

Definition FatalFlaw {S} (frmt : string) (vals : list arg) : Flaw S :=
  {| Desc := errorf frmt vals;
     Repair := λ s, (s, Some (errorf "%s: cannot be repaired." [AText (errorf frmt vals)])) |}.

Fixpoint RepairAll {S} (fin : list (Flaw S)) (s : S) :
    list (Flaw S) * list text * S :=
  match fin with
  | [] => ([], [], s)
  | f :: fin' =>
      let '(s1, e) := Repair f s in
      let '(fs, es, s2) := RepairAll fin' s1 in
      match e with
      | Some e => (f :: fs, e :: es, s2)
      | None => (fs, es, s2)
      end
  end.

(** A flaw of a part [P] of an object [S]: the flaw's pointer is to the field
    that [get] reads and [set] writes. *)
Definition lift_flaw {S P} (get : S → P) (set : P → S → S) (f : Flaw P) : Flaw S :=
  {| Desc := Desc f;
     Repair := λ s, let '(p, e) := Repair f (get s) in (set p s, e) |}.

(** ** Facts about repairs *)

Definition fatal {S} (f : Flaw S) : Prop :=
  ∀ s, ∃ e, Repair f s = (s, Some e).
Definition repairable {S} (f : Flaw S) : Prop := ∀ s, snd (Repair f s) = None.

Lemma FatalFlaw_fatal {S} frmt vals : fatal (@FatalFlaw S frmt vals).
Proof. intros s. eexists. reflexivity. Qed.

Lemma RepairAll_app {S} (l1 l2 : list (Flaw S)) s :
  RepairAll (l1 ++ l2) s =
    let '(f1, e1, s1) := RepairAll l1 s in
    let '(f2, e2, s2) := RepairAll l2 s1 in ((f1 ++ f2)%list, (e1 ++ e2)%list, s2).
Proof.
  revert s. induction l1 as [|f l1 IH]; intros s; simpl.
  { by destruct (RepairAll l2 s) as [[??]?]. }
  destruct (Repair f s) as [s1 e]. rewrite IH.
  destruct (RepairAll l1 s1) as [[??]s2]. destruct e; simpl;
    by destruct (RepairAll l2 s2) as [[??]?].
Qed.

Lemma RepairAll_fatal {S} (l : list (Flaw S)) s :
  Forall fatal l → ∃ es, RepairAll l s = (l, es, s) ∧ length es = length l.
Proof.
  induction 1 as [|f l Hf Hl IH]; simpl; [by exists []|].
  destruct (Hf s) as [e He]. destruct IH as (es&IH&Hlen).
  exists (e :: es). by rewrite He, IH, <-Hlen.
Qed.

(** Each reported flaw has one reported error, and only flaws of the input are
    reported. *)
Lemma RepairAll_spec {S} (l : list (Flaw S)) s fs es s' :
  RepairAll l s = (fs, es, s') → length fs = length es ∧ sublist fs l.
Proof.
  revert s fs es s'. induction l as [|f l IH]; intros s fs es s'; simpl.
  { intros [= <- <- <-]. split; [done|constructor]. }
  destruct (Repair f s) as [s1 e].
  destruct (RepairAll l s1) as [[fs1 es1] s2] eqn:Hr.
  destruct (IH _ _ _ _ Hr) as [Hlen Hsub].
  destruct e; intros [= <- <- <-]; simpl; split; [lia|by constructor|lia|by constructor].
Qed.

Lemma RepairAll_lift {S P} (get : S → P) set (l : list (Flaw P)) (s : S) fs es p :
  (∀ p s, get (set p s) = p) → (∀ s, set (get s) s = s) →
  (∀ p q s, set p (set q s) = set p s) →
  RepairAll l (get s) = (fs, es, p) →
  RepairAll (lift_flaw get set <$> l) s = (lift_flaw get set <$> fs, es, set p s).
Proof.
  intros Hgs Hsg Hss. revert s fs es p. induction l as [|f l IH]; intros s fs es p.
  { intros [= <- <- <-]. simpl. by rewrite Hsg. }
  rewrite fmap_cons. simpl. destruct (Repair f (get s)) as [p1 e].
  destruct (RepairAll l p1) as [[fs1 es1] p2] eqn:Hr.
  rewrite (IH (set p1 s) fs1 es1 p2) by (by rewrite Hgs). rewrite Hss.
  by destruct e; intros [= <- <- <-].
Qed.

#[export] Hint Resolve FatalFlaw_fatal : sous.
