(* ===== verification/GoFloat.v ===== *)
(** * float64 values and [strconv.ParseFloat]

    Resources hold numbers as text.  Sous parses them to float64 and compares
    them up to 0.001, so the comparison depends on binary64 rounding.  A float64
    is the Standard Library's [spec_float] (an IEEE 754 datum, with every NaN
    identified); [ParseFloat] reads the decimal grammar of Go's [strconv] and
    rounds the exact decimal value to nearest, ties to even. *)

From S2P Require Import Prelude GoStrings.
From Stdlib Require Export SpecFloat.
#[local] Open Scope string_scope.
#[local] Open Scope Z_scope.

Definition float64 : Type := spec_float.

#[export] Instance float64_eq_dec : EqDecision spec_float.
Proof. solve_decision. Defined.

Definition prec64 : Z := 53.
Definition emax64 : Z := 1024.

(** The float64 nearest to [(-1)^neg * m * 10^e]. *)
Definition of_decimal (neg : bool) (m e : Z) : float64 :=
  match m with
  | Z0 => S754_zero neg
  | Zpos p =>
      if 0 <=? e then
        match m * 10 ^ e with
        | Zpos q => binary_round prec64 emax64 neg q 0
        | _ => S754_nan
        end
      else
        let '(q, e', l) := SFdiv_core_binary prec64 emax64 m 0 (10 ^ (- e)) 0 in
        binary_round_aux prec64 emax64 neg q e' l
  | Zneg _ => S754_nan
  end.

(** ** Reading the text *)

Fixpoint lower (s : string) : string :=
  match s with
  | "" => ""
  | String c s' =>
      let c' := if (65 <=? nat_of_ascii c)%nat && (nat_of_ascii c <=? 90)%nat
                then ascii_of_nat (nat_of_ascii c + 32) else c in
      String c' (lower s')
  end.

(** [special]: infinities and NaN, in any case. *)
Definition special (s : string) : option float64 :=
  let l := lower s in
  if decide (l = "inf" ∨ l = "infinity" ∨ l = "+inf" ∨ l = "+infinity")
  then Some (S754_infinity false)
  else if decide (l = "-inf" ∨ l = "-infinity") then Some (S754_infinity true)
  else if decide (l = "nan") then Some S754_nan
  else None.

(** The digits of the mantissa: the value so far, the number of digits after
    the point, whether the point and whether a digit was seen; then the rest. *)
Fixpoint read_mantissa (m frac : Z) (sawdot sawdigits : bool) (s : string) :
    Z * Z * bool * string :=
  match s with
  | "" => (m, frac, sawdigits, "")
  | String c s' =>
      if decide (c = "."%char)
      then if sawdot then (m, frac, sawdigits, s) else read_mantissa m frac true sawdigits s'
      else if is_digit c
      then read_mantissa (10 * m + digit_val c) (if sawdot then frac + 1 else frac)
             sawdot true s'
      else (m, frac, sawdigits, s)
  end.

(** The digits of the exponent, which stop accumulating at 10000. *)
Fixpoint read_exp_digits (e : Z) (s : string) : option Z :=
  match s with
  | "" => Some e
  | String c s' =>
      if is_digit c
      then read_exp_digits (if e <? 10000 then 10 * e + digit_val c else e) s'
      else None
  end.

Definition read_exponent (s : string) : option Z :=
  match s with
  | "" => Some 0
  | String c s' =>
      if decide (c = "e"%char ∨ c = "E"%char) then
        let '(neg, digits) :=
          match s' with
          | "" => (false, "")
          | String d s'' =>
              if decide (d = "+"%char) then (false, s'')
              else if decide (d = "-"%char) then (true, s'')
              else (false, s')
          end in
        match digits with
        | "" => None
        | _ => e ← read_exp_digits 0 digits; Some (if (neg : bool) then - e else e)
        end
      else None
  end.

Definition read_float (s : string) : option (bool * Z * Z) :=
  let '(neg, body) :=
    match s with
    | "" => (false, "")
    | String c s' =>
        if decide (c = "+"%char) then (false, s')
        else if decide (c = "-"%char) then (true, s') else (false, s)
    end in
  let '(m, frac, sawdigits, rest) := read_mantissa 0 0 false false body in
  if sawdigits then e ← read_exponent rest; Some (neg, m, e - frac) else None.

(** [strconv.ParseFloat(s, 64)]; [None] is a syntax error or an overflow. *)
Definition ParseFloat (s : string) : option float64 :=
  match special s with
  | Some f => Some f
  | None =>
      '(neg, m, e) ← read_float s;
      match of_decimal neg m e with
      | S754_infinity _ => None
      | f => Some f
      end
  end.

(** ** Writing it *)

(** The integer nearest to [a / 2^k], ties to even. *)
Definition round_shift (a k : Z) : Z :=
  let q := a / 2 ^ k in
  let r := a mod 2 ^ k in
  if (2 ^ k <? 2 * r) || ((2 * r =? 2 ^ k) && Z.odd q) then q + 1 else q.

(** The last [n] decimal digits of a number. *)
Fixpoint fixed_digits (n : nat) (z : Z) (acc : string) : string :=
  match n with
  | O => acc
  | S n' => fixed_digits n' (z / 10) (String (ascii_of_nat (Z.to_nat (48 + z mod 10))) acc)
  end.

(** [fmt.Sprintf("%f", x)]: six digits after the point, correctly rounded. *)
Definition format_f (x : float64) : string :=
  let sign (neg : bool) := if neg then "-" else "" in
  let fixed n := itoa (n / 10 ^ 6) +:+ "." +:+ fixed_digits 6 (n mod 10 ^ 6) "" in
  match x with
  | S754_nan => "NaN"
  | S754_infinity neg => if neg then "-Inf" else "+Inf"
  | S754_zero neg => sign neg +:+ fixed 0
  | S754_finite neg m e =>
      sign neg +:+ fixed (if 0 <=? e then Zpos m * 2 ^ e * 10 ^ 6
                          else round_shift (Zpos m * 10 ^ 6) (- e))
  end.

Example format_f_ex : format_f <$> [of_decimal false 1 (-1); of_decimal true 25678901234 (-8);
    of_decimal false 128 0; of_decimal false 9999999 (-7); of_decimal false 5 (-7); S754_zero true] =
  ["0.100000"; "-256.789012"; "128.000000"; "1.000000"; "0.000000"; "-0.000000"].
Proof. vm_compute. reflexivity. Qed.

(** [math.Abs(x - y) > 0.001]. *)
Definition milli : float64 := of_decimal false 1 (-3).
Definition apart (x y : float64) : bool :=
  SFltb milli (SFabs (SFsub prec64 emax64 x y)).

Example ParseFloat_tenth : ParseFloat "0.1" = Some (S754_finite false 7205759403792794 (-56)).
Proof. vm_compute. reflexivity. Qed.
Example ParseFloat_exp : ParseFloat "-25e-1" = Some (S754_finite true 5629499534213120 (-51)).
Proof. vm_compute. reflexivity. Qed.
Example ParseFloat_bad : ParseFloat "100MB" = None ∧ ParseFloat "" = None ∧ ParseFloat "1e999" = None.
Proof. vm_compute. done. Qed.
Example apart_ex : apart (of_decimal false 1 (-1)) (of_decimal false 1005 (-4)) = false.
Proof. vm_compute. reflexivity. Qed.

(** ** [apart] is irreflexive and symmetric, at infinities and NaN too *)

Lemma binary_normalize_0 szero : binary_normalize prec64 emax64 0 0 szero = S754_zero szero.
Proof. done. Qed.

Lemma apart_irrefl x : apart x x = false.
Proof.
  unfold apart. destruct x as [[]|[]| |s m e]; try (vm_compute; reflexivity).
  unfold SFsub. rewrite Z.sub_diag. vm_compute. reflexivity.
Qed.

Lemma SFabs_round_aux s1 s2 m e l :
  SFabs (binary_round_aux prec64 emax64 s1 m e l) =
  SFabs (binary_round_aux prec64 emax64 s2 m e l).
Proof.
  unfold binary_round_aux. destruct (shr_fexp _ _ m e l) as [mrs e'].
  destruct (shr_fexp _ _ _ e' loc_Exact) as [mrs' e''].
  destruct (shr_m mrs'); [done| |done]. by destruct (e'' <=? _).
Qed.

Lemma SFabs_normalize_opp z e :
  SFabs (binary_normalize prec64 emax64 z e false) =
  SFabs (binary_normalize prec64 emax64 (- z) e false).
Proof.
  destruct z as [|p|p]; simpl; [done|..]; unfold binary_round;
    destruct (shl_align p e _); apply SFabs_round_aux.
Qed.

Lemma apart_sym x y : apart x y = apart y x.
Proof.
  unfold apart. f_equal.
  destruct x as [[]|[]| |sx mx ex], y as [[]|[]| |sy my ey]; try done.
  unfold SFsub. rewrite (Z.min_comm ey ex), SFabs_normalize_opp. do 2 f_equal. lia.
Qed.

#[export] Hint Rewrite apart_irrefl : sous.
