(* ===== verification/Semv.v ===== *)
(** * Semantic versions (vendor/github.com/samsalisbury/semv)

    The version type every Sous identifier carries, as the vendored library
    parses, prints and orders it. *)

From S2P Require Import Prelude GoStrings.
#[local] Open Scope string_scope.
#[local] Open Scope Z_scope.

Record Version := mkVersion {
  Major : Z;
  Minor : Z;
  Patch : Z;
  Pre : string;
  Meta : string;
  DefaultFormat : string
}.

#[export] Instance Version_eq_dec : EqDecision Version.
Proof. solve_decision. Defined.

Definition zeroVersion : Version := mkVersion 0 0 0 "" "" "".

(** ** Printing *)

Definition MajorMinorPatch : string := "M.m.p".
Definition Complete : string := "M.m.p-?+?".

Definition Format (v : Version) (format : string) : string :=
  let format := if decide (format = "") then Complete else format in
  let formatted := replace_all format "M" (itoa (Major v)) in
  let formatted := replace_all formatted "m" (itoa (Minor v)) in
  let formatted := replace_all formatted "p" (itoa (Patch v)) in
  let formatted :=
    replace_all formatted "-?" (if decide (Pre v = "") then "" else "-" +:+ Pre v) in
  let formatted :=
    replace_all formatted "+?" (if decide (Meta v = "") then "" else "+" +:+ Meta v) in
  let formatted := replace_all formatted "-!" (Pre v) in
  replace_all formatted "+!" (Meta v).

Definition String (v : Version) : string := Format v (DefaultFormat v).

(** ** Ordering *)

Definition PreComponents (v : Version) : list string := split_on "."%char (Pre v).

(** The loop of [Less] over the prerelease components.  [strings.Split] never
    returns an empty slice and the length test returns before [vPreParts] runs
    out, so the case of no [v] component is not reached. *)
Fixpoint less_components (vs ts : list string) : bool :=
  match ts with
  | [] => false
  | t :: ts' =>
      match vs with
      | [] => false
      | v :: vs' =>
          let by_string :=
            if String.ltb v t then true
            else if String.ltb t v then false
            else if bool_decide (vs' = [] ∧ ts' ≠ []) then true
            else less_components vs' ts' in
          match atoi v with
          | None => by_string
          | Some vInt =>
              match atoi t with
              | Some tInt =>
                  if vInt <? tInt then true
                  else if tInt <? vInt then false else by_string
              | None => true
              end
          end
      end
  end.

Definition Less (v than : Version) : bool :=
  if Major v <? Major than then true
  else if Major than <? Major v then false
  else if Minor v <? Minor than then true
  else if Minor than <? Minor v then false
  else if Patch v <? Patch than then true
  else if Patch than <? Patch v then false
  else if bool_decide (Pre v ≠ "" ∧ Pre than = "") then true
  else if bool_decide (Pre v = "" ∧ Pre than ≠ "") then false
  else less_components (PreComponents v) (PreComponents than).

Definition Equals (v other : Version) : bool := negb (Less v other) && negb (Less other v).

(** ** Parsing *)

Inductive mode := modeMajor | modeMinor | modePatch | modePre | modeMeta.
#[export] Instance mode_eq_dec : EqDecision mode.
Proof. solve_decision. Defined.

Inductive parse_error : Type :=
| VersionIncomplete
| UnexpectedCharacter (c : ascii)
| ZeroLengthNumeric (part : string)
| LeadingZero (part : string)
| NumError (s : string).

(** The buffers and flags of the loop in [parse]. *)
Record scan := mkScan {
  s_mode : mode;
  s_major : string; s_minor : string; s_patch : string; s_pre : string; s_meta : string;
  parsedMinor : bool; parsedPatch : bool; parsedPre : bool; parsedMeta : bool
}.

Definition scan0 : scan := mkScan modeMajor "" "" "" "" "" false false false false.

Definition mark_mode (st : scan) : scan :=
  let '(mkScan m a b c d e p1 p2 p3 p4) := st in
  mkScan m a b c d e
    (p1 || bool_decide (m = modeMinor)) (p2 || bool_decide (m = modePatch))
    (p3 || bool_decide (m = modePre)) (p4 || bool_decide (m = modeMeta)).

Definition set_mode (m : mode) (st : scan) : scan :=
  let '(mkScan _ a b c d e p1 p2 p3 p4) := st in mkScan m a b c d e p1 p2 p3 p4.

(** [targets[m].WriteRune(c)]. *)
Definition write_rune (x : ascii) (st : scan) : scan :=
  let '(mkScan m a b c d e p1 p2 p3 p4) := st in
  let w := String.String x "" in
  match m with
  | modeMajor => mkScan m (a +:+ w) b c d e p1 p2 p3 p4
  | modeMinor => mkScan m a (b +:+ w) c d e p1 p2 p3 p4
  | modePatch => mkScan m a b (c +:+ w) d e p1 p2 p3 p4
  | modePre => mkScan m a b c (d +:+ w) e p1 p2 p3 p4
  | modeMeta => mkScan m a b c d (e +:+ w) p1 p2 p3 p4
  end.

Definition is_letter (c : ascii) : bool :=
  let n := nat_of_ascii c in
  ((97 <=? n)%nat && (n <=? 122)%nat) || ((65 <=? n)%nat && (n <=? 90)%nat).
Definition valid_pre_meta (c : ascii) : bool :=
  is_digit c || bool_decide (c = "."%char) || bool_decide (c = "-"%char) || is_letter c.

(** [changeMode]: [None] is "not changed". *)
Definition changeMode (m : mode) (c : ascii) : result parse_error (option mode) :=
  if decide ((m = modePre ∨ m = modeMeta) ∧ c = "-"%char) then Ok None
  else if decide (m = modeMeta ∧ c = "+"%char) then Err (UnexpectedCharacter c)
  else if decide (m = modePatch ∧ c = "."%char) then Err (UnexpectedCharacter c)
  else if decide (m = modeMajor ∧ c = "."%char) then Ok (Some modeMinor)
  else if decide (m = modeMinor ∧ c = "."%char) then Ok (Some modePatch)
  else if decide (c = "-"%char) then Ok (Some modePre)
  else if decide (c = "+"%char) then Ok (Some modeMeta)
  else Ok None.

(** One iteration of the loop over the runes of the input. *)
Definition scan_rune (c : ascii) (st : scan) : scan * option parse_error :=
  let st := mark_mode st in
  let write :=
    match s_mode st with
    | modeMajor | modeMinor | modePatch =>
        if is_digit c then (write_rune c st, None) else (st, Some (UnexpectedCharacter c))
    | modePre | modeMeta =>
        if valid_pre_meta c then (write_rune c st, None) else (st, Some (UnexpectedCharacter c))
    end in
  if decide (c = "."%char ∨ c = "-"%char ∨ c = "+"%char)
  then match changeMode (s_mode st) c with
       | Err e => (st, Some e)
       | Ok (Some m) => (set_mode m st, None)
       | Ok None => write
       end
  else write.

Fixpoint scan_string (s : string) (st : scan) : scan * option parse_error :=
  match s with
  | "" => (st, None)
  | String.String c s' =>
      match scan_rune c st with
      | (st', None) => scan_string s' st'
      | (st', Some e) => (st', Some e)
      end
  end.

Definition validateMMPFormat (s name : string) : list parse_error :=
  match s with
  | "" => [ZeroLengthNumeric name]
  | String.String c s' =>
      if decide (s' ≠ "" ∧ c = "0"%char) then [LeadingZero name] else []
  end.

(** A component of [finalise]: its format check, then [strconv.Atoi]. *)
Definition component (name s : string) : list parse_error * option Z :=
  match atoi s with
  | Some z => (validateMMPFormat s name, Some z)
  | None => (validateMMPFormat s name ++ [NumError s], None)%list
  end.

Definition finalise (st : scan) (known : list parse_error) : Version * list parse_error :=
  let '(e1, major) := component "major" (s_major st) in
  match major with
  | None => (mkVersion 0 0 0 "" "" "M", (known ++ e1)%list)
  | Some major =>
  let '(e2, minor) := if parsedMinor st then component "minor" (s_minor st) else ([], Some 0) in
  let fmt := if parsedMinor st then "M.m" else "M" in
  match minor with
  | None => (mkVersion major 0 0 "" "" fmt, (known ++ e1 ++ e2)%list)
  | Some minor =>
  let '(e3, patch) := if parsedPatch st then component "patch" (s_patch st) else ([], Some 0) in
  let fmt := if parsedPatch st then MajorMinorPatch else fmt in
  match patch with
  | None => (mkVersion major minor 0 "" "" fmt, (known ++ e1 ++ e2 ++ e3)%list)
  | Some patch =>
  let fmt := if parsedPre st then fmt +:+ "-?" else fmt in
  let fmt := if parsedMeta st then fmt +:+ "+?" else fmt in
  (mkVersion major minor patch (s_pre st) (s_meta st) fmt, (known ++ e1 ++ e2 ++ e3)%list)
  end end end.

Definition parse (s : string) : Version * list parse_error :=
  match scan_string s scan0 with
  | (st, Some e) => finalise st [e]
  | (st, None) =>
      finalise st (if negb (parsedMinor st) || negb (parsedPatch st)
                   then [VersionIncomplete] else [])
  end.

Definition permissible (e : parse_error) : bool :=
  match e with LeadingZero _ | VersionIncomplete => true | _ => false end.

Definition Parse (s : string) : result parse_error Version :=
  let '(v, errs) := parse s in
  match filter (λ e, permissible e = false) errs with
  | e :: _ => Err e
  | [] => Ok v
  end.

Example Parse_full : Parse "1.2.3-rc.1+abc" = Ok (mkVersion 1 2 3 "rc.1" "abc" "M.m.p-?+?").
Proof. vm_compute. reflexivity. Qed.
Example Parse_short : Parse "7" = Ok (mkVersion 7 0 0 "" "" "M").
Proof. vm_compute. reflexivity. Qed.
Example Parse_twodots : Parse "1..3" = Err (ZeroLengthNumeric "minor").
Proof. vm_compute. reflexivity. Qed.
Example String_full : String (mkVersion 1 2 3 "rc.1" "abc" "M.m.p-?+?") = "1.2.3-rc.1+abc".
Proof. vm_compute. reflexivity. Qed.
Example Less_pre : Less (mkVersion 1 0 0 "alpha.1" "" "") (mkVersion 1 0 0 "alpha.beta" "" "") = true.
Proof. vm_compute. reflexivity. Qed.

(** ** Ordering lemmas *)

Lemma str_ltb_irrefl s : String.ltb s s = false.
Proof.
  unfold String.ltb. enough ((s ?= s)%string = Eq) as -> by done.
  induction s as [|c s IH]; simpl; [done|].
  unfold Ascii.compare. by rewrite N.compare_refl.
Qed.

Lemma str_ltb_total s t : String.ltb s t = false → String.ltb t s = false → s = t.
Proof.
  unfold String.ltb. rewrite (String.compare_antisym t s).
  destruct (s ?= t)%string eqn:Hc; try done. intros _ _. by apply String.compare_eq_iff.
Qed.

Lemma less_components_irrefl l : less_components l l = false.
Proof.
  induction l as [|x l IH]; simpl; [done|].
  rewrite str_ltb_irrefl, IH. rewrite bool_decide_eq_false_2 by naive_solver.
  destruct (atoi x); [by rewrite Z.ltb_irrefl|done].
Qed.

Lemma Less_irrefl v : Less v v = false.
Proof.
  unfold Less. rewrite !Z.ltb_irrefl, less_components_irrefl.
  by rewrite !bool_decide_eq_false_2 by naive_solver.
Qed.

Lemma Equals_refl v : Equals v v = true.
Proof. unfold Equals. by rewrite Less_irrefl. Qed.

Lemma Equals_sym v w : Equals v w = Equals w v.
Proof. apply andb_comm. Qed.

(** What takes part in a version's precedence: neither the build metadata nor
    the print format does. *)
Definition same_precedence (v w : Version) : Prop :=
  Major v = Major w ∧ Minor v = Minor w ∧ Patch v = Patch w ∧ Pre v = Pre w.

Lemma less_by_string_total {A} (v t : string) (vs ts : list A) b1 b2 :
  (if String.ltb v t then true else if String.ltb t v then false
   else if bool_decide (vs = [] ∧ ts ≠ []) then true else b1) = false →
  (if String.ltb t v then true else if String.ltb v t then false
   else if bool_decide (ts = [] ∧ vs ≠ []) then true else b2) = false →
  v = t ∧ b1 = false ∧ b2 = false ∧ (vs = [] ↔ ts = []).
Proof.
  destruct (String.ltb v t) eqn:Hvt, (String.ltb t v) eqn:Htv; try done.
  case_bool_decide as H1; [done|]. case_bool_decide as H2; [done|]. intros -> ->.
  split; [by apply str_ltb_total|]. split; [done|]. split; [done|].
  destruct vs, ts; split; intros ?; try done; [by destruct H1|by destruct H2].
Qed.

Lemma less_components_total vs ts :
  less_components vs ts = false → less_components ts vs = false →
  (vs = [] ↔ ts = []) → vs = ts.
Proof.
  revert ts. induction vs as [|v vs IH]; intros ts H1 H2 Hnil.
  { symmetry. by apply Hnil. }
  destruct ts as [|t ts]; [by apply (proj2 Hnil)|].
  enough (v = t ∧ less_components vs ts = false ∧ less_components ts vs = false ∧ (vs = [] ↔ ts = []))
    as (->&?&?&?) by (f_equal; by apply IH).
  simpl in H1, H2. destruct (atoi v) as [i|], (atoi t) as [j|]; try done.
  - destruct (Z.ltb_spec i j), (Z.ltb_spec j i); try done. by apply less_by_string_total.
  - by apply less_by_string_total.
Qed.

(** [Equals] decides having one precedence. *)
Lemma Equals_spec v w : Equals v w = true ↔ same_precedence v w.
Proof.
  unfold Equals, same_precedence. rewrite andb_true_iff, !negb_true_iff. split.
  - unfold Less. intros [H1 H2].
    destruct (Z.ltb_spec (Major v) (Major w)), (Z.ltb_spec (Major w) (Major v)); try done.
    destruct (Z.ltb_spec (Minor v) (Minor w)), (Z.ltb_spec (Minor w) (Minor v)); try done.
    destruct (Z.ltb_spec (Patch v) (Patch w)), (Z.ltb_spec (Patch w) (Patch v)); try done.
    split_and!; [lia..|].
    repeat case_bool_decide; try done; try naive_solver.
    all: rewrite <-(join_split_on "."%char (Pre v)), <-(join_split_on "."%char (Pre w)).
    all: f_equal; apply less_components_total; [done|done|].
    all: split; intros Hn; by apply split_on_nonempty in Hn.
  - intros (H1&H2&H3&H4). destruct v, w. simpl in *. subst. split; exact (Less_irrefl _).
Qed.

(** Build metadata and the print format take no part in [Equals]. *)
Lemma Equals_meta v w m f :
  Equals (mkVersion (Major v) (Minor v) (Patch v) (Pre v) m f) w = Equals v w.
Proof. done. Qed.

#[export] Hint Rewrite Equals_refl Less_irrefl : sous.

(** ** Printing and parsing *)

(** A version as [Parse] builds it from three numbers: 64-bit components,
    legal prerelease and metadata, printed at the detail it was parsed at. *)
Definition canonical_format (v : Version) : string :=
  MajorMinorPatch +:+ (if decide (Pre v = "") then "" else "-?")
                  +:+ (if decide (Meta v = "") then "" else "+?").

Record wf (v : Version) : Prop := {
  wf_major : 0 ≤ Major v < 2 ^ 63;
  wf_minor : 0 ≤ Minor v < 2 ^ 63;
  wf_patch : 0 ≤ Patch v < 2 ^ 63;
  wf_pre : Forall (λ c, valid_pre_meta c = true) (bytes (Pre v));
  wf_meta : Forall (λ c, valid_pre_meta c = true) (bytes (Meta v));
  wf_format : DefaultFormat v = canonical_format v
}.

Definition pre_part (v : Version) : string :=
  if decide (Pre v = "") then "" else "-" +:+ Pre v.
Definition meta_part (v : Version) : string :=
  if decide (Meta v = "") then "" else "+" +:+ Meta v.
Definition full_string (v : Version) : string :=
  itoa (Major v) +:+ ("." +:+ (itoa (Minor v) +:+ ("." +:+ (itoa (Patch v)
    +:+ (pre_part v +:+ meta_part v))))).

Section format.
Context (v : Version) (Hwf : wf v).

Lemma comp_lacks c :
  is_digit c = false →
  lacks c (itoa (Major v)) = true ∧ lacks c (itoa (Minor v)) = true ∧
  lacks c (itoa (Patch v)) = true.
Proof using Hwf. intros Hc. destruct Hwf. split_and!; apply itoa_lacks; lia || done. Qed.

Lemma pre_lacks c : valid_pre_meta c = false → c ≠ "-"%char → lacks c (pre_part v) = true.
Proof using Hwf.
  intros Hc Hd. unfold pre_part. case_decide; [done|].
  change ("-" +:+ Pre v) with (String.String "-" (Pre v)). rewrite lacks_cons.
  rewrite bool_decide_eq_false_2 by done.
  by rewrite (lacks_forall valid_pre_meta) by (apply Hwf || done).
Qed.

Lemma meta_lacks c : valid_pre_meta c = false → c ≠ "+"%char → lacks c (meta_part v) = true.
Proof using Hwf.
  intros Hc Hd. unfold meta_part. case_decide; [done|].
  change ("+" +:+ Meta v) with (String.String "+" (Meta v)). rewrite lacks_cons.
  rewrite bool_decide_eq_false_2 by done.
  by rewrite (lacks_forall valid_pre_meta) by (apply Hwf || done).
Qed.
End format.

(** The number part of [Format], and the two optional parts. *)
Lemma Format_mmp v r :
  wf v → lacks "M" r = true → lacks "m" r = true → lacks "p" r = true →
  replace_all (replace_all (replace_all (MajorMinorPatch +:+ r) "M" (itoa (Major v)))
    "m" (itoa (Minor v))) "p" (itoa (Patch v)) =
  itoa (Major v) +:+ ("." +:+ (itoa (Minor v) +:+ ("." +:+ (itoa (Patch v) +:+ r)))).
Proof.
  intros Hwf HM Hm Hp.
  destruct (comp_lacks v Hwf "m" eq_refl) as (Ha&_&_).
  destruct (comp_lacks v Hwf "p" eq_refl) as (Hb&Hc&_).
  change (MajorMinorPatch +:+ r) with
    (String.String "M" (String.String "." (String.String "m" (String.String "."
      (String.String "p" r))))).
  autorewrite with sous. rewrite (replace_all_lacks "M" _ "M") by (done || byte_in).
  rewrite replace_all_app by done. autorewrite with sous.
  rewrite (replace_all_lacks "m" _ "m") by (done || byte_in).
  rewrite replace_all_app by done. autorewrite with sous.
  rewrite replace_all_app by done. autorewrite with sous.
  by rewrite (replace_all_lacks "p" _ "p") by (done || byte_in).
Qed.

Definition num_string (v : Version) : string :=
  itoa (Major v) +:+ ("." +:+ (itoa (Minor v) +:+ ("." +:+ itoa (Patch v)))).

Lemma full_string_num v : full_string v = num_string v +:+ (pre_part v +:+ meta_part v).
Proof. unfold num_string. rewrite !str_app_assoc. done. Qed.

Lemma num_lacks v c : wf v → is_digit c = false → c ≠ "."%char → lacks c (num_string v) = true.
Proof.
  intros Hwf Hd Hc. destruct (comp_lacks v Hwf c Hd) as (H1&H2&H3). unfold num_string.
  rewrite !lacks_app, H1, H2, H3. simpl. rewrite lacks_cons, bool_decide_eq_false_2 by done.
  done.
Qed.

(** The optional parts of a format, and what they are replaced by. *)
Lemma replace_tail n rp rm pre meta :
  lacks "-" n = true → lacks "+" n = true → lacks "+" pre = true →
  rp = "-?" ∨ rp = "" → rm = "+?" ∨ rm = "" →
  replace_all (replace_all (n +:+ (rp +:+ rm)) "-?" pre) "+?" meta =
    n +:+ ((if decide (rp = "") then "" else pre) +:+ (if decide (rm = "") then "" else meta)).
Proof.
  intros Hd Hp Hpre Hrp Hrm. rewrite replace_all_app by done.
  assert (replace_all (rp +:+ rm) "-?" pre = (if decide (rp = "") then "" else pre) +:+ rm) as ->.
  { by destruct Hrp as [-> | ->], Hrm as [-> | ->]. }
  rewrite !replace_all_app by (done || by case_decide).
  destruct Hrm as [-> | ->]; autorewrite with sous; done.
Qed.

(** What [Format] prints for a version's numbers followed by either, both or
    none of its optional parts. *)
Lemma Format_parts v rp rm :
  wf v → rp = "-?" ∨ rp = "" → rm = "+?" ∨ rm = "" →
  Format v (MajorMinorPatch +:+ (rp +:+ rm)) =
    num_string v +:+ ((if decide (rp = "") then "" else pre_part v) +:+
                      (if decide (rm = "") then "" else meta_part v)).
Proof.
  intros Hwf Hrp Hrm.
  assert (∀ c, c ∈ ["M"; "m"; "p"]%char → lacks c (rp +:+ rm) = true) as Hl.
  { intros c Hc. rewrite !list_elem_of_In in Hc. simpl in Hc.
    destruct Hrp as [-> | ->], Hrm as [-> | ->]; naive_solver. }
  unfold Format. rewrite decide_False by done.
  rewrite Format_mmp by (done || apply Hl; set_solver).
  match goal with |- context [itoa (Major v) +:+ ?t] =>
    replace (itoa (Major v) +:+ t) with (num_string v +:+ (rp +:+ rm))
      by (unfold num_string; by rewrite !str_app_assoc) end.
  fold (pre_part v) (meta_part v).
  rewrite replace_tail by (done || by apply num_lacks || by apply pre_lacks).
  match goal with |- replace_all (replace_all ?t _ _) _ _ = _ =>
    assert (lacks "!" t = true) as Hbang end.
  { rewrite !lacks_app, num_lacks by done.
    repeat case_decide; rewrite ?pre_lacks, ?meta_lacks by done; done. }
  rewrite (replace_all_lacks "!" _ "-!") by (done || byte_in).
  by rewrite (replace_all_lacks "!" _ "+!") by (done || byte_in).
Qed.

Lemma Format_spec v fmt :
  wf v → fmt = Complete ∨ fmt = canonical_format v → Format v fmt = full_string v.
Proof.
  intros Hwf Hfmt. rewrite full_string_num. destruct Hfmt as [-> | ->].
  - by apply (Format_parts v "-?" "+?"); auto.
  - unfold canonical_format. rewrite Format_parts by (done || case_decide; auto).
    unfold pre_part, meta_part. f_equal. f_equal; repeat case_decide; done.
Qed.

(** Runes that a mode accepts are appended to that mode's buffer. *)
Definition accepts (m : mode) (c : ascii) : bool :=
  match m with
  | modeMajor | modeMinor | modePatch => is_digit c
  | modePre | modeMeta => valid_pre_meta c
  end.

Fixpoint feed (s : string) (st : scan) : scan :=
  match s with
  | "" => st
  | String.String c s' => feed s' (write_rune c (mark_mode st))
  end.

Lemma s_mode_mark st : s_mode (mark_mode st) = s_mode st.
Proof. by destruct st. Qed.
Lemma s_mode_write c st : s_mode (write_rune c st) = s_mode st.
Proof. destruct st as [[]]; done. Qed.

Lemma scan_accepted c st :
  accepts (s_mode st) c = true → scan_rune c st = (write_rune c (mark_mode st), None).
Proof.
  unfold scan_rune. rewrite s_mode_mark. intros Hc.
  assert (c ≠ "+"%char) as Hplus by (intros ->; by destruct (s_mode st)).
  case_decide as Hd; [|destruct (s_mode st); simpl in *; by rewrite Hc].
  assert (s_mode st = modePre ∨ s_mode st = modeMeta) as Hm.
  { destruct (s_mode st); auto; destruct Hd as [-> | [-> | ->]]; done. }
  destruct Hm as [Hm|Hm]; rewrite Hm in *; simpl in *; rewrite Hc;
    destruct Hd as [-> | [-> | ->]]; done.
Qed.

Lemma scan_feed s rest st :
  Forall (λ c, accepts (s_mode st) c = true) (bytes s) →
  scan_string (s +:+ rest) st = scan_string rest (feed s st).
Proof.
  revert st. induction s as [|c s IH]; intros st; simpl; [done|].
  intros Hall. inv Hall. rewrite scan_accepted by done.
  apply IH. by rewrite s_mode_write, s_mode_mark.
Qed.

(** What feeding a non-empty string does to each buffer and flag. *)
Definition nonempty (s : string) : bool := negb (bool_decide (s = "")).

Lemma feed_spec s m a b c d e p1 p2 p3 p4 :
  feed s (mkScan m a b c d e p1 p2 p3 p4) =
    match m with
    | modeMajor => mkScan m (a +:+ s) b c d e p1 p2 p3 p4
    | modeMinor => mkScan m a (b +:+ s) c d e (p1 || nonempty s) p2 p3 p4
    | modePatch => mkScan m a b (c +:+ s) d e p1 (p2 || nonempty s) p3 p4
    | modePre => mkScan m a b c (d +:+ s) e p1 p2 (p3 || nonempty s) p4
    | modeMeta => mkScan m a b c d (e +:+ s) p1 p2 p3 (p4 || nonempty s)
    end.
Proof.
  revert a b c d e p1 p2 p3 p4. induction s as [|x s IH]; intros.
  { simpl. destruct m; by rewrite ?str_app_nil_r, ?orb_false_r. }
  simpl feed. destruct m; simpl; rewrite IH; simpl;
    by rewrite str_app_assoc, ?orb_false_r, ?orb_true_r.
Qed.

Lemma scan_sep c st st' rest :
  scan_rune c st = (st', None) → scan_string (String.String c rest) st = scan_string rest st'.
Proof. intros H. simpl. by rewrite H. Qed.

Lemma digits_forall m z :
  m = modeMajor ∨ m = modeMinor ∨ m = modePatch → 0 ≤ z →
  Forall (λ c, accepts m c = true) (bytes (itoa z)).
Proof. intros Hm Hz. destruct Hm as [-> | [-> | ->]]; by apply itoa_digits. Qed.

Lemma nonempty_itoa z : 0 ≤ z → nonempty (itoa z) = true.
Proof.
  intros Hz. destruct (itoa_nonneg z Hz) as (d&Hd&->&_).
  unfold nonempty. destruct d; done.
Qed.

(** The scanner's state after a full version. *)
Lemma scan_full v :
  wf v → scan_string (full_string v) scan0 =
    (mkScan (if decide (Meta v = "") then if decide (Pre v = "") then modePatch else modePre
             else modeMeta)
       (itoa (Major v)) (itoa (Minor v)) (itoa (Patch v)) (Pre v) (Meta v)
       true true (nonempty (Pre v)) (nonempty (Meta v)), None).
Proof.
  intros [HM Hm Hp Hpre Hmeta Hf]. unfold full_string, scan0, pre_part, meta_part.
  rewrite scan_feed by (apply digits_forall; [auto|lia]). rewrite feed_spec. simpl.
  rewrite scan_feed by (apply digits_forall; [auto|lia]). rewrite feed_spec. simpl.
  rewrite nonempty_itoa by lia. simpl.
  rewrite scan_feed by (apply digits_forall; [auto|lia]). rewrite feed_spec. simpl.
  rewrite nonempty_itoa by lia. simpl.
  case_decide as H1; case_decide as H2; rewrite ?H1, ?H2; simpl; try done.
  - rewrite <-(str_app_nil_r (Meta v)) at 1. rewrite scan_feed by done.
    rewrite feed_spec. simpl. done.
  - rewrite str_app_nil_r, <-(str_app_nil_r (Pre v)) at 1. rewrite scan_feed by done.
    rewrite feed_spec. simpl. done.
  - rewrite scan_feed by done. rewrite feed_spec. simpl.
    rewrite <-(str_app_nil_r (Meta v)) at 1. rewrite scan_feed by done.
    rewrite feed_spec. simpl.
    assert (nonempty (Pre v) = true) as -> by (unfold nonempty; by rewrite bool_decide_eq_false_2).
    done.
Qed.

Lemma component_itoa name z :
  0 ≤ z < 2 ^ 63 → ∃ es, component name (itoa z) = (es, Some z) ∧
    Forall (λ e, permissible e = true) es.
Proof.
  intros Hz. unfold component, atoi. rewrite parse_int_itoa by done.
  eexists. split; [done|]. unfold validateMMPFormat.
  pose proof (nonempty_itoa z (proj1 Hz)) as Hn.
  destruct (itoa z); [done|]. case_decide; repeat constructor.
Qed.

Lemma filter_permissible es :
  Forall (λ e, permissible e = true) es → filter (λ e, permissible e = false) es = [].
Proof.
  induction 1 as [|e es He Hes IH]; [done|]. rewrite filter_cons_False by congruence. done.
Qed.

(** Parsing a printed version gives the version back. *)
Theorem Parse_full_string v : wf v → Parse (full_string v) = Ok v.
Proof.
  intros Hwf. unfold Parse, parse. rewrite scan_full by done. simpl. unfold finalise. simpl.
  destruct Hwf as [HM Hm Hp _ _ Hf].
  destruct (component_itoa "major" _ HM) as (e1&->&H1).
  destruct (component_itoa "minor" _ Hm) as (e2&->&H2).
  destruct (component_itoa "patch" _ Hp) as (e3&->&H3). simpl.
  rewrite filter_permissible by (by rewrite !Forall_app). f_equal.
  destruct v as [M m p pre meta f]; unfold canonical_format in Hf; simpl in *.
  subst f. f_equal. unfold nonempty.
  destruct (decide (pre = "")) as [->|?], (decide (meta = "")) as [->|?]; simpl;
    rewrite ?bool_decide_eq_false_2 by done; done.
Qed.

Lemma Parse_String v : wf v → Parse (String v) = Ok v.
Proof.
  intros Hwf. unfold String. rewrite Format_spec by (auto || right; apply Hwf).
  by apply Parse_full_string.
Qed.

Lemma Parse_Format_Complete v : wf v → Parse (Format v Complete) = Ok v.
Proof. intros Hwf. rewrite Format_spec by auto. by apply Parse_full_string. Qed.
