(* ===== verification/Ids.v ===== *)
(** * Identifiers (lib/source_location.go, source_id.go, manifest_id.go,
    deploymentid.go, source_host.go, source_host_chooser.go)

    Source locations, source IDs, manifest IDs and deployment IDs, with the
    string forms that are their serialisation: they are keys of YAML and JSON
    maps and parameters of HTTP requests. *)

From S2P Require Import Prelude GoStrings Semv.
#[local] Open Scope string_scope.
#[local] Open Scope Z_scope.

(** ** Data *)

Record SourceLocation := mkSourceLocation { Repo : string; Dir : string }.
Record SourceID := mkSourceID { Location : SourceLocation; sid_Version : Version }.
Record ManifestID := mkManifestID { Source : SourceLocation; mid_Flavor : string }.
Record DeploymentID := mkDeploymentID { did_ManifestID : ManifestID; did_Cluster : string }.

#[export] Instance SourceLocation_eq_dec : EqDecision SourceLocation.
Proof. solve_decision. Defined.
#[export] Instance SourceID_eq_dec : EqDecision SourceID.
Proof. solve_decision. Defined.
#[export] Instance ManifestID_eq_dec : EqDecision ManifestID.
Proof. solve_decision. Defined.
#[export] Instance DeploymentID_eq_dec : EqDecision DeploymentID.
Proof. solve_decision. Defined.

#[export] Instance SourceLocation_countable : Countable SourceLocation.
Proof.
  refine (inj_countable' (λ l, (Repo l, Dir l)) (λ '(r, d), mkSourceLocation r d) _).
  by intros [].
Defined.
#[export] Instance ManifestID_countable : Countable ManifestID.
Proof.
  refine (inj_countable' (λ m, (Source m, mid_Flavor m)) (λ '(s, f), mkManifestID s f) _).
  by intros [].
Defined.
#[export] Instance DeploymentID_countable : Countable DeploymentID.
Proof.
  refine (inj_countable' (λ d, (did_ManifestID d, did_Cluster d))
            (λ '(m, c), mkDeploymentID m c) _).
  by intros [].
Defined.

Definition zeroLocation : SourceLocation := mkSourceLocation "" "".

(** ** Unicode normalisation

    [norm.NFC.String] of golang.org/x/text is not part of Sous.  Its documented
    behaviour on ASCII text, which is already in normal form, is all that the
    round trips rely on. *)

Definition is_ascii (s : string) : Prop :=
  Forall (λ c, (nat_of_ascii c < 128)%nat) (bytes s).

Class Norm := {
  nfc : string → string;
  nfc_ascii s : is_ascii s → nfc s = s
}.

(** The identity is a normaliser of ASCII text. *)
#[global] Instance ascii_norm : Norm | 100 := { nfc := λ s, s; nfc_ascii := λ s _, eq_refl }.

Inductive id_error : Type :=
| MissingRepo (context parsing : string)
| IncludesVersion (parsing : string)
| VersionError (e : parse_error)
| IllegalManifestID (s : string)
| EmptyDeploymentID
| NoColon
| NotARepo (s : string)
| NotRecognised (s : string).

Section Parsing.
Context `{Norm}.

(** ** Chunks *)

(** The first byte selects the default delimiter when it is a letter, a digit,
    a dot or a slash, and is the delimiter otherwise. *)
Definition starts_default (c : ascii) : bool :=
  is_letter c || is_digit c || bool_decide (c = "."%char ∨ c = "/"%char).

(** [None] is the panic of [source[0]] on an empty string. *)
Definition parseChunks (sourceStr : string) : option (list string) :=
  if decide (sourceStr = "") then Some []
  else match nfc sourceStr with
       | "" => None
       | String.String c rest =>
           if starts_default c then Some (split_on ","%char (String.String c rest))
           else Some (split_on c rest)
       end.

(** ** Source locations *)

Definition sourceLocationFromChunks (source : string) (chunks : list string) :
    result id_error SourceLocation :=
  match chunks with
  | [] => Err (MissingRepo "location" source)
  | [repo] =>
      if decide (repo = "") then Err (MissingRepo "location" source)
      else Ok (mkSourceLocation repo "")
  | [repo; dir] =>
      if decide (repo = "") then Err (MissingRepo "location" source)
      else Ok (mkSourceLocation repo dir)
  | _ => Err (IncludesVersion source)
  end.

Definition ParseSourceLocation (s : string) : option (result id_error SourceLocation) :=
  chunks ← parseChunks s; Some (sourceLocationFromChunks s chunks).

Definition SourceLocation_String (sl : SourceLocation) : string :=
  if decide (Dir sl = "") then Repo sl else Repo sl +:+ "," +:+ Dir sl.

(** [UnmarshalText] on locations never fails: what does not parse is empty. *)
Definition SourceLocation_UnmarshalText (b : string) : option SourceLocation :=
  r ← ParseSourceLocation b;
  Some (match r with Ok sl => sl | Err _ => mkSourceLocation "" "" end).

Definition LocationSourceID (sl : SourceLocation) (v : Version) : SourceID := mkSourceID sl v.

Definition ShortName (sl : SourceLocation) : result id_error string :=
  let splitRepo := split_on "/"%char (Repo sl) in
  if (length splitRepo <? 3)%nat then Err (NotARepo (Repo sl))
  else Ok (default "" (last splitRepo)).

(** ** Source IDs *)

Definition SourceID_String (sid : SourceID) : string :=
  if decide (Dir (Location sid) = "")
  then Repo (Location sid) +:+ "," +:+ Semv.String (sid_Version sid)
  else Repo (Location sid) +:+ "," +:+ Semv.String (sid_Version sid) +:+ ","
         +:+ Dir (Location sid).

(** [chunks[0]] and [chunks[1]] panic when the slice is too short. *)
Definition sourceIDFromChunks (source : string) (chunks : list string) :
    option (result id_error SourceID) :=
  repoURL ← chunks !! 0%nat;
  if decide (repoURL = "") then Some (Err (MissingRepo "parsing" source))
  else
    version ← chunks !! 1%nat;
    match Parse version with
    | Err e => Some (Err (VersionError e))
    | Ok v =>
        let repoOffset := default "" (chunks !! 2%nat) in
        Some (Ok (mkSourceID (mkSourceLocation repoURL repoOffset) v))
    end.

Definition ParseSourceID (s : string) : option (result id_error SourceID) :=
  chunks ← parseChunks s; sourceIDFromChunks s chunks.

Definition NewSourceID (repo offset version : string) : result id_error SourceID :=
  match Parse version with
  | Err e => Err (VersionError e)
  | Ok v => Ok (mkSourceID (mkSourceLocation repo offset) v)
  end.

(** The comparison ignores build metadata and the print format. *)
Definition SourceID_Equal (sid o : SourceID) : bool :=
  if Equals (sid_Version sid) (sid_Version o)
  then bool_decide (Location sid = Location o) else false.

Definition Tag (sid : SourceID) : string := Format (sid_Version sid) MajorMinorPatch.
Definition RevID (sid : SourceID) : string := Meta (sid_Version sid).

(** ** Manifest IDs *)

Definition ManifestID_String (mid : ManifestID) : string :=
  let f := if decide (mid_Flavor mid = "") then "" else "~" +:+ mid_Flavor mid in
  SourceLocation_String (Source mid) +:+ f.

Definition ManifestID_UnmarshalText (b : string) : option (result id_error ManifestID) :=
  match split_on "~"%char b with
  | [src] =>
      sl ← SourceLocation_UnmarshalText src; Some (Ok (mkManifestID sl ""))
  | [src; flavor] =>
      sl ← SourceLocation_UnmarshalText src; Some (Ok (mkManifestID sl flavor))
  | _ => Some (Err (IllegalManifestID b))
  end.

Definition ParseManifestID (s : string) : option (result id_error ManifestID) :=
  ManifestID_UnmarshalText s.

Definition ManifestID_QueryMap (mid : ManifestID) : gmap string string :=
  <["flavor" := mid_Flavor mid]> (<["offset" := Dir (Source mid)]>
    (<["repo" := Repo (Source mid)]> ∅)).

(** ** Deployment IDs *)

Definition DeploymentID_String (did : DeploymentID) : string :=
  did_Cluster did +:+ ":" +:+ ManifestID_String (did_ManifestID did).

Definition ParseDeploymentID (s : string) : option (result id_error DeploymentID) :=
  if decide (s = "") then Some (Err EmptyDeploymentID)
  else match split2 ":"%char s with
       | [cluster; manifest] =>
           r ← ParseManifestID manifest;
           Some (mid ← r; Ok (mkDeploymentID mid cluster))
       | _ => Some (Err NoColon)
       end.

Definition DeploymentID_QueryMap (did : DeploymentID) : gmap string string :=
  let sl := Source (did_ManifestID did) in
  <["flavor" := mid_Flavor (did_ManifestID did)]> (<["offset" := Dir sl]>
    (<["cluster" := did_Cluster did]> (<["repo" := Repo sl]> ∅))).

(** ** Source hosts *)

(** The [SourceHost] interface, for parsing locations. *)
Record SourceHost := mkSourceHost {
  CanParseSourceLocation : string → bool;
  HostParseSourceLocation : string → option (result id_error SourceLocation)
}.

Definition GenericHost : SourceHost := mkSourceHost (λ _, true) ParseSourceLocation.

(** The first host that can parse decides, whatever its answer. *)
Fixpoint Chooser_ParseSourceLocation (hosts : list SourceHost) (s : string) :
    option (result id_error SourceLocation) :=
  match hosts with
  | [] => Some (Err (NotRecognised s))
  | h :: hosts' =>
      if CanParseSourceLocation h s then HostParseSourceLocation h s
      else Chooser_ParseSourceLocation hosts' s
  end.
End Parsing.

Example ParseSourceID_panics : ParseSourceID "github.com/opentable/sous" = None.
Proof. vm_compute. reflexivity. Qed.
Example ParseSourceID_ex :
  ParseSourceID "*github.com/a/b*1.2.3*dir" =
    Some (Ok (mkSourceID (mkSourceLocation "github.com/a/b" "dir")
                (mkVersion 1 2 3 "" "" "M.m.p"))).
Proof. vm_compute. reflexivity. Qed.
Example ParseDeploymentID_ex :
  ParseDeploymentID "c1:github.com/a/b,d~vanilla" =
    Some (Ok (mkDeploymentID (mkManifestID (mkSourceLocation "github.com/a/b" "d") "vanilla") "c1")).
Proof. vm_compute. reflexivity. Qed.

(** ** Well-formed identifiers *)

(** A repository that prints to something [parseChunks] reads back. *)
Record wf_location (sl : SourceLocation) : Prop := {
  wf_first : ∃ c rest, Repo sl = String.String c rest ∧ starts_default c = true;
  wf_repo_ascii : is_ascii (Repo sl);
  wf_dir_ascii : is_ascii (Dir sl);
  wf_repo_comma : lacks ","%char (Repo sl) = true;
  wf_dir_comma : lacks ","%char (Dir sl) = true
}.

Record wf_manifest_id (mid : ManifestID) : Prop := {
  wf_source : wf_location (Source mid);
  wf_repo_tilde : lacks "~"%char (Repo (Source mid)) = true;
  wf_dir_tilde : lacks "~"%char (Dir (Source mid)) = true;
  wf_flavor_tilde : lacks "~"%char (mid_Flavor mid) = true
}.

Record wf_deployment_id (did : DeploymentID) : Prop := {
  wf_mid : wf_manifest_id (did_ManifestID did);
  wf_cluster_colon : lacks ":"%char (did_Cluster did) = true
}.

Record wf_source_id (sid : SourceID) : Prop := {
  wf_sid_location : wf_location (Location sid);
  wf_sid_version : Semv.wf (sid_Version sid)
}.

(** ** Lemmas *)

Lemma is_ascii_app s1 s2 : is_ascii (s1 +:+ s2) ↔ is_ascii s1 ∧ is_ascii s2.
Proof. unfold is_ascii. by rewrite bytes_app, Forall_app. Qed.

Lemma is_ascii_forall (P : ascii → bool) s :
  (∀ c, P c = true → (nat_of_ascii c < 128)%nat) →
  Forall (λ c, P c = true) (bytes s) → is_ascii s.
Proof. intros HP Hs. eapply Forall_impl; [exact Hs|]. apply HP. Qed.

(** Reduce a claim about all bytes to the 256 of them. *)
Lemma all_bytes (P : ascii → bool) :
  forallb P (ascii_of_nat <$> seq 0 256) = true → ∀ c, P c = true.
Proof.
  rewrite forallb_forall. intros H c. apply H. rewrite <-(ascii_nat_embedding c).
  apply list_elem_of_In, list_elem_of_fmap_2, elem_of_seq.
  split; [lia|]. apply nat_ascii_bounded.
Qed.

Lemma valid_pre_meta_ascii c : valid_pre_meta c = true → (nat_of_ascii c < 128)%nat.
Proof.
  intros Hc. apply Nat.ltb_lt.
  pose proof (all_bytes (λ c, implb (valid_pre_meta c) (nat_of_ascii c <? 128)%nat)
    ltac:(vm_compute; reflexivity) c) as Ha. simpl in Ha. by rewrite Hc in Ha.
Qed.

Lemma digit_ascii c : is_digit c = true → (nat_of_ascii c < 128)%nat.
Proof. rewrite is_digit_range. lia. Qed.

Lemma full_string_ascii v : Semv.wf v → is_ascii (full_string v).
Proof.
  intros [HM Hm Hp Hpre Hmeta _]. unfold full_string, pre_part, meta_part.
  assert (∀ z, 0 ≤ z < 2 ^ 63 → is_ascii (itoa z)) as Hi.
  { intros z Hz. eapply is_ascii_forall; [apply digit_ascii|]. apply itoa_digits. lia. }
  assert (∀ s, Forall (λ c, valid_pre_meta c = true) (bytes s) → is_ascii s) as Hv.
  { intros s Hs. eapply is_ascii_forall; [apply valid_pre_meta_ascii|done]. }
  rewrite !is_ascii_app. repeat case_decide; rewrite ?is_ascii_app;
    split_and!; auto; try (by repeat constructor).
Qed.

Lemma full_string_lacks v c :
  Semv.wf v → valid_pre_meta c = false → c ≠ "+"%char → lacks c (full_string v) = true.
Proof.
  intros Hwf Hc Hp.
  assert (is_digit c = false ∧ c ≠ "."%char ∧ c ≠ "-"%char) as (Hd&Hdot&Hdash).
  { split_and!; [|by intros ->..]. unfold valid_pre_meta in Hc. by destruct (is_digit c). }
  rewrite full_string_num, !lacks_app, num_lacks, pre_lacks, meta_lacks by done. done.
Qed.

Lemma Semv_String_full v : Semv.wf v → Semv.String v = full_string v.
Proof. intros Hwf. apply Format_spec; [done|]. right. apply Hwf. Qed.

Section Roundtrip.
Context `{Norm}.

(** The chunks of a string that starts with a default byte. *)
Lemma parseChunks_default c rest :
  starts_default c = true → is_ascii (String.String c rest) →
  parseChunks (String.String c rest) = Some (split_on ","%char (String.String c rest)).
Proof.
  intros Hc Ha. unfold parseChunks. rewrite decide_False by done.
  by rewrite nfc_ascii, Hc.
Qed.

Lemma wf_location_chunks sl tail :
  wf_location sl → is_ascii tail →
  parseChunks (Repo sl +:+ tail) = Some (split_on ","%char (Repo sl +:+ tail)).
Proof.
  intros [(c&rest&HR&Hc) Hra _ _ _] Ht. rewrite HR in *. simpl.
  apply parseChunks_default; [done|]. by apply (is_ascii_app (String.String c rest)).
Qed.

Lemma wf_repo_nonempty sl : wf_location sl → Repo sl ≠ "".
Proof. intros [(c&rest&->&_) _ _ _ _]. done. Qed.

Lemma ParseSourceLocation_String sl :
  wf_location sl → ParseSourceLocation (SourceLocation_String sl) = Some (Ok sl).
Proof.
  intros Hwf. pose proof (wf_repo_nonempty sl Hwf) as Hne.
  unfold ParseSourceLocation, SourceLocation_String. case_decide as Hd.
  - rewrite <-(str_app_nil_r (Repo sl)) at 1.
    rewrite wf_location_chunks by (done || constructor). simpl.
    rewrite str_app_nil_r, split_on_lacks by apply Hwf. simpl. rewrite decide_False by done.
    destruct sl; simpl in *; by subst.
  - rewrite wf_location_chunks; [|done|].
    2: { apply is_ascii_app. split; [by repeat constructor|apply Hwf]. }
    change ("," +:+ Dir sl) with (String.String "," (Dir sl)). simpl.
    rewrite split_on_cons, (split_on_lacks _ (Dir sl)) by apply Hwf. simpl.
    rewrite decide_False by done. by destruct sl.
Qed.

Lemma SourceLocation_String_lacks c sl :
  c ≠ ","%char → lacks c (Repo sl) = true → lacks c (Dir sl) = true →
  lacks c (SourceLocation_String sl) = true.
Proof.
  intros Hc HR HD. unfold SourceLocation_String. case_decide; [done|].
  rewrite !lacks_app, HR, HD, lacks_cons, bool_decide_eq_false_2 by done. done.
Qed.

Lemma ParseManifestID_String mid :
  wf_manifest_id mid → ParseManifestID (ManifestID_String mid) = Some (Ok mid).
Proof.
  intros [Hs HR HD HF]. unfold ParseManifestID, ManifestID_UnmarshalText, ManifestID_String.
  assert (lacks "~" (SourceLocation_String (Source mid)) = true) as Hl
    by by apply SourceLocation_String_lacks.
  unfold SourceLocation_UnmarshalText. case_decide as Hf.
  - rewrite str_app_nil_r, split_on_lacks by done.
    rewrite ParseSourceLocation_String by done. simpl. destruct mid; simpl in *; by subst.
  - change ("~" +:+ mid_Flavor mid) with (String.String "~" (mid_Flavor mid)).
    rewrite split_on_cons, (split_on_lacks _ (mid_Flavor mid)) by done.
    rewrite ParseSourceLocation_String by done. simpl. by destruct mid.
Qed.

(** ** Properties *)

(** Parsing a printed deployment ID gives it back: the string that keys a
    deployment in HTTP requests and logs identifies it, manifest, flavor and
    cluster alike. *)
Theorem ParseDeploymentID_String (did : DeploymentID) :
  wf_deployment_id did → ParseDeploymentID (DeploymentID_String did) = Some (Ok did).
Proof.
  intros [Hm Hc]. unfold ParseDeploymentID, DeploymentID_String.
  rewrite decide_False by by destruct (did_Cluster did).
  change (":" +:+ ?s) with (String.String ":" s).
  unfold split2. rewrite cut_app by done. rewrite ParseManifestID_String by done.
  simpl. by destruct did.
Qed.

(** Parsing a printed source ID gives it back, version, prerelease,
    metadata and offset included. *)
Theorem ParseSourceID_String (sid : SourceID) :
  wf_source_id sid → ParseSourceID (SourceID_String sid) = Some (Ok sid).
Proof.
  intros [Hl Hv]. pose proof (wf_repo_nonempty _ Hl) as Hne.
  unfold ParseSourceID, SourceID_String. rewrite Semv_String_full by done.
  pose proof (full_string_ascii _ Hv) as Ha.
  pose proof (full_string_lacks _ "," Hv eq_refl ltac:(done)) as Hc.
  case_decide as Hd.
  - rewrite wf_location_chunks; [|done|by apply is_ascii_app; split; [repeat constructor|]].
    change ("," +:+ ?s) with (String.String "," s). simpl.
    rewrite split_on_cons, split_on_lacks by (apply Hl || done).
    unfold sourceIDFromChunks. simpl. rewrite decide_False by done.
    rewrite Parse_full_string by done. destruct sid as [[]]; simpl in *; by subst.
  - rewrite wf_location_chunks; [|done|].
    2: { rewrite !is_ascii_app. split_and!; first [done | by repeat constructor | apply Hl]. }
    change ("," +:+ ?s) with (String.String "," s). simpl.
    rewrite !split_on_cons, (split_on_lacks _ (Dir _)) by (apply Hl || done).
    unfold sourceIDFromChunks. simpl. rewrite decide_False by done.
    rewrite Parse_full_string by done. by destruct sid as [[]].
Qed.

(** [ParseSourceID] panics exactly on the inputs that lack a second chunk
    behind a non-empty first one, or have no chunk at all; on every other input
    it returns, with an error or a source ID. *)
Theorem ParseSourceID_total (s : string) :
  ParseSourceID s = None ↔
  parseChunks s = None ∨ parseChunks s = Some [] ∨
  ∃ repo, parseChunks s = Some [repo] ∧ repo ≠ "".
Proof.
  unfold ParseSourceID. destruct (parseChunks s) as [chunks|]; [|by split; auto].
  destruct chunks as [|repo [|v rest]]; simpl.
  - split; auto.
  - unfold sourceIDFromChunks. simpl. case_decide; naive_solver.
  - unfold sourceIDFromChunks. simpl. case_decide; [naive_solver|].
    destruct (Parse v); naive_solver.
Qed.

End Roundtrip.

(** ** Witnesses *)

Lemma ParseDeploymentID_String_witness :
  let did := mkDeploymentID (mkManifestID (mkSourceLocation "github.com/opentable/sous" "cmd") "neat") "ci-sf" in
  DeploymentID_String did = "ci-sf:github.com/opentable/sous,cmd~neat" ∧
  ParseDeploymentID (DeploymentID_String did) = Some (Ok did).
Proof.
  split; [reflexivity|]. apply ParseDeploymentID_String.
  split; [split; [split|..]|]; try reflexivity.
  - by exists "g"%char, "ithub.com/opentable/sous".
  - apply (bool_decide_unpack _). vm_compute. exact I.
  - apply (bool_decide_unpack _). vm_compute. exact I.
Defined.

Lemma ParseSourceID_String_witness :
  let sid := mkSourceID (mkSourceLocation "github.com/opentable/sous" "cmd")
               (mkVersion 1 20 3 "rc.1" "5b8e7a" "M.m.p-?+?") in
  SourceID_String sid = "github.com/opentable/sous,1.20.3-rc.1+5b8e7a,cmd" ∧
  ParseSourceID (SourceID_String sid) = Some (Ok sid).
Proof.
  split; [reflexivity|]. apply ParseSourceID_String. split; [split|split]; try reflexivity.
  - by exists "g"%char, "ithub.com/opentable/sous".
  - apply (bool_decide_unpack _). vm_compute. exact I.
  - apply (bool_decide_unpack _). vm_compute. exact I.
  - by split.
  - by split.
  - by split.
  - apply (bool_decide_unpack _). vm_compute. exact I.
  - apply (bool_decide_unpack _). vm_compute. exact I.
Defined.

Lemma SourceID_Equal_refl sid : SourceID_Equal sid sid = true.
Proof. unfold SourceID_Equal. rewrite Equals_refl. by apply bool_decide_eq_true. Qed.

(** One source location at versions of one precedence. *)
Definition source_equiv (sid o : SourceID) : Prop :=
  Location sid = Location o ∧ same_precedence (sid_Version sid) (sid_Version o).

Lemma SourceID_Equal_spec sid o : SourceID_Equal sid o = true ↔ source_equiv sid o.
Proof.
  unfold SourceID_Equal, source_equiv. rewrite <-Equals_spec.
  destruct (Equals _ _); [rewrite bool_decide_eq_true|]; naive_solver.
Qed.

Lemma source_equiv_refl sid : source_equiv sid sid.
Proof. by split. Qed.

Lemma source_equiv_sym a b : source_equiv a b → source_equiv b a.
Proof. intros (?&?&?&?&?). by split. Qed.

Lemma SourceID_Equal_sym a b : SourceID_Equal a b = SourceID_Equal b a.
Proof.
  unfold SourceID_Equal. rewrite Equals_sym. case_match; [|done].
  apply bool_decide_ext. naive_solver.
Qed.
