(* ===== verification/Startup.v ===== *)
(** * Startup checks (lib/startup.go)

    The health-check options of a deployment: how a cluster's defaults are
    merged into a manifest's options and unmerged from a deployment's, how two
    are compared, and how they are validated and repaired. *)

From S2P Require Import Prelude GoStrings Flaw.
#[local] Open Scope string_scope.
#[local] Open Scope Z_scope.

Record Startup := mkStartup {
  SkipCheck : bool;
  ConnectDelay : Z;
  Timeout : Z;
  ConnectInterval : Z;
  CheckReadyProtocol : string;
  CheckReadyURIPath : string;
  CheckReadyPortIndex : Z;
  CheckReadyFailureStatuses : list Z;
  CheckReadyURITimeout : Z;
  CheckReadyInterval : Z;
  CheckReadyRetries : Z
}.

#[export] Instance Startup_eq_dec : EqDecision Startup.
Proof. solve_decision. Defined.

Definition zeroStartup : Startup :=
  mkStartup false 0 0 0 "" "" 0 [] 0 0 0.

(** ** Merging and unmerging defaults *)

(** [if n.F == zeroStartup.F { n.F = s.F }]: the new [n.F]. *)
Definition default_field {A} `{EqDecision A} (zero s n : A) : A :=
  if decide (n = zero) then s else n.

Definition MergeDefaults (s base : Startup) : Startup :=
  {| SkipCheck := default_field (SkipCheck zeroStartup) (SkipCheck s) (SkipCheck base);
     ConnectDelay :=
       default_field (ConnectDelay zeroStartup) (ConnectDelay s) (ConnectDelay base);
     Timeout := default_field (Timeout zeroStartup) (Timeout s) (Timeout base);
     ConnectInterval :=
       default_field (ConnectInterval zeroStartup) (ConnectInterval s) (ConnectInterval base);
     CheckReadyProtocol :=
       default_field (CheckReadyProtocol zeroStartup) (CheckReadyProtocol s)
         (CheckReadyProtocol base);
     CheckReadyURIPath :=
       default_field (CheckReadyURIPath zeroStartup) (CheckReadyURIPath s)
         (CheckReadyURIPath base);
     CheckReadyPortIndex :=
       default_field (CheckReadyPortIndex zeroStartup) (CheckReadyPortIndex s)
         (CheckReadyPortIndex base);
     CheckReadyFailureStatuses :=
       if decide (length (CheckReadyFailureStatuses base) =
                  length (CheckReadyFailureStatuses zeroStartup))
       then CheckReadyFailureStatuses s else CheckReadyFailureStatuses base;
     CheckReadyURITimeout :=
       default_field (CheckReadyURITimeout zeroStartup) (CheckReadyURITimeout s)
         (CheckReadyURITimeout base);
     CheckReadyInterval :=
       default_field (CheckReadyInterval zeroStartup) (CheckReadyInterval s)
         (CheckReadyInterval base);
     CheckReadyRetries :=
       default_field (CheckReadyRetries zeroStartup) (CheckReadyRetries s)
         (CheckReadyRetries base) |}.

(** [if base.F == s.F && old.F == zeroStartup.F { n.F = zeroStartup.F }]. *)
Definition undefault_field {A} `{EqDecision A} (zero s base old : A) : A :=
  if decide (base = s ∧ old = zero) then zero else base.

(** The slice case: when the lengths agree both slices are sorted in place, and
    [base]'s backing array is the result's, so the result is the sorted slice
    even when the contents then turn out to differ. *)
Definition undefault_statuses (s base old : list Z) : list Z :=
  if decide (length base = length s ∧ length old = 0%nat)
  then if decide (sort_ints s = sort_ints base)
       then CheckReadyFailureStatuses zeroStartup else sort_ints base
  else base.

Definition UnmergeDefaults (s base old : Startup) : Startup :=
  {| SkipCheck :=
       undefault_field (SkipCheck zeroStartup) (SkipCheck s) (SkipCheck base) (SkipCheck old);
     ConnectDelay :=
       undefault_field (ConnectDelay zeroStartup) (ConnectDelay s) (ConnectDelay base)
         (ConnectDelay old);
     Timeout :=
       undefault_field (Timeout zeroStartup) (Timeout s) (Timeout base) (Timeout old);
     ConnectInterval :=
       undefault_field (ConnectInterval zeroStartup) (ConnectInterval s)
         (ConnectInterval base) (ConnectInterval old);
     CheckReadyProtocol :=
       undefault_field (CheckReadyProtocol zeroStartup) (CheckReadyProtocol s)
         (CheckReadyProtocol base) (CheckReadyProtocol old);
     CheckReadyURIPath :=
       undefault_field (CheckReadyURIPath zeroStartup) (CheckReadyURIPath s)
         (CheckReadyURIPath base) (CheckReadyURIPath old);
     CheckReadyPortIndex :=
       undefault_field (CheckReadyPortIndex zeroStartup) (CheckReadyPortIndex s)
         (CheckReadyPortIndex base) (CheckReadyPortIndex old);
     CheckReadyFailureStatuses :=
       undefault_statuses (CheckReadyFailureStatuses s) (CheckReadyFailureStatuses base)
         (CheckReadyFailureStatuses old);
     CheckReadyURITimeout :=
       undefault_field (CheckReadyURITimeout zeroStartup) (CheckReadyURITimeout s)
         (CheckReadyURITimeout base) (CheckReadyURITimeout old);
     CheckReadyInterval :=
       undefault_field (CheckReadyInterval zeroStartup) (CheckReadyInterval s)
         (CheckReadyInterval base) (CheckReadyInterval old);
     CheckReadyRetries :=
       undefault_field (CheckReadyRetries zeroStartup) (CheckReadyRetries s)
         (CheckReadyRetries base) (CheckReadyRetries old) |}.

(** ** Comparison *)

(** [if l.F != r.F { diff(format, l.F, r.F) }]. *)
Definition diff_field {A} `{EqDecision A} (format : string) (show : A → arg) (l r : A) :
    list text :=
  if decide (l = r) then [] else [errorf format [show l; show r]].

Definition diff_statuses (l r : list Z) : list text :=
  if decide (length l = length r)
  then if decide (sort_ints l = sort_ints r) then []
       else [errorf "CheckReadyFailureStatuses; this %v, other %v"
               [AInts (sort_ints l); AInts (sort_ints r)]]
  else [errorf "CheckReadyFailureStatuses; this %v, other %v" [AInts l; AInts r]].

Definition diff (s o : Startup) : list text :=
  let l := if SkipCheck s then zeroStartup else s in
  let r := if SkipCheck o then zeroStartup else o in
  (diff_field "SkipCheck; this %v, other %v" ABool (SkipCheck s) (SkipCheck o)
  ++ diff_field "ConnectDelay; this %d, other %d" AInt (ConnectDelay l) (ConnectDelay r)
  ++ diff_field "ConnectInterval; this %d, other %d" AInt
       (ConnectInterval l) (ConnectInterval r)
  ++ diff_field "Timeout; this %d, other %d" AInt (Timeout l) (Timeout r)
  ++ diff_field "CheckReadyProtocol; this %q, other %q" AStr
       (CheckReadyProtocol l) (CheckReadyProtocol r)
  ++ diff_field "CheckReadyPortIndex; this %d, other %d" AInt
       (CheckReadyPortIndex l) (CheckReadyPortIndex r)
  ++ diff_statuses (CheckReadyFailureStatuses l) (CheckReadyFailureStatuses r)
  ++ diff_field "CheckReadyInterval; this %d, other %d" AInt
       (CheckReadyInterval l) (CheckReadyInterval r)
  ++ diff_field "CheckReadyRetries; this %d, other %d" AInt
       (CheckReadyRetries l) (CheckReadyRetries r)
  ++ diff_field "CheckReadyURIPath; this %q, other %q" AStr
       (CheckReadyURIPath l) (CheckReadyURIPath r)
  ++ diff_field "CheckReadyURITimeout; this %d, other %d" AInt
       (CheckReadyURITimeout l) (CheckReadyURITimeout r))%list.

Definition Equal (s o : Startup) : bool := bool_decide (length (diff s o) = 0%nat).

(** ** Validation and repair *)

Definition set_CheckReadyProtocol (p : string) (s : Startup) : Startup :=
  {| SkipCheck := SkipCheck s; ConnectDelay := ConnectDelay s; Timeout := Timeout s;
     ConnectInterval := ConnectInterval s; CheckReadyProtocol := p;
     CheckReadyURIPath := CheckReadyURIPath s;
     CheckReadyPortIndex := CheckReadyPortIndex s;
     CheckReadyFailureStatuses := CheckReadyFailureStatuses s;
     CheckReadyURITimeout := CheckReadyURITimeout s;
     CheckReadyInterval := CheckReadyInterval s;
     CheckReadyRetries := CheckReadyRetries s |}.

(** [if z < 0 { flaws = append(flaws, FatalFlaw(frmt, z)) }]. *)
Definition check_nonneg (frmt : string) (z : Z) : list (Flaw Startup) :=
  if decide (z < 0) then [FatalFlaw frmt [AInt z]] else [].

Definition check_protocol (s : Startup) : list (Flaw Startup) :=
  let p := CheckReadyProtocol s in
  if decide (p = "https" ∨ p = "http") then
    [NewFlaw (errorf "CheckReadyProtocol must be HTTP or HTTPS, was %q (lowercase)." [AStr p])
       (λ s, (set_CheckReadyProtocol (to_upper (CheckReadyProtocol s)) s, None))]
  else if decide (p = "HTTPS" ∨ p = "HTTP") then []
  else [FatalFlaw "CheckReadyProtocol must be HTTP or HTTPS, was %q." [AStr p]].

Definition check_statuses (l : list Z) : list (Flaw Startup) :=
  l ≫= check_nonneg "CheckReadyFailureStatuses includes a value less that zero: %d".

Definition Validate (s : Startup) : list (Flaw Startup) :=
  if SkipCheck s then []
  else
    (check_nonneg "ConnectDelay less than zero: %d!" (ConnectDelay s)
    ++ check_nonneg "Timeout less than zero: %d!" (Timeout s)
    ++ check_nonneg "ConnectInterval less than zero: %d!" (ConnectInterval s)
    ++ check_nonneg "CheckReadyPortIndex less than zero: %d!" (CheckReadyPortIndex s)
    ++ check_nonneg "CheckReadyURITimeout less than zero: %d!" (CheckReadyURITimeout s)
    ++ check_nonneg "CheckReadyInterval less than zero: %d!" (CheckReadyInterval s)
    ++ check_nonneg "CheckReadyRetries less than zero: %d!" (CheckReadyRetries s)
    ++ check_protocol s
    ++ check_statuses (CheckReadyFailureStatuses s))%list.

(** ** Lemmas *)

Section fields.
Context {A : Type} `{EqDecision A} (zero : A).

Lemma default_field_zero_l n : default_field zero zero n = n.
Proof. unfold default_field. case_decide; congruence. Qed.

Lemma default_field_zero_r s : default_field zero s zero = s.
Proof. unfold default_field. by rewrite decide_True. Qed.

Lemma default_field_assoc a b c :
  default_field zero a (default_field zero b c) =
    default_field zero (default_field zero a b) c.
Proof. unfold default_field. repeat case_decide; congruence. Qed.

(** Unmerging undoes merging when it is told the value merged into. *)
Lemma undefault_default s old :
  undefault_field zero s (default_field zero s old) old = old.
Proof.
  unfold undefault_field, default_field.
  repeat case_decide; naive_solver.
Qed.
End fields.

Lemma undefault_statuses_merged s old :
  undefault_statuses s (if decide (length old = 0%nat) then s else old) old = old.
Proof.
  unfold undefault_statuses. destruct old as [|z old]; simpl; [by rewrite !decide_True|].
  by rewrite decide_False by naive_solver.
Qed.

Lemma diff_field_nil {A} `{EqDecision A} f (show : A → arg) l r :
  diff_field f show l r = [] ↔ l = r.
Proof. unfold diff_field. case_decide; naive_solver. Qed.

Lemma diff_statuses_nil l r : diff_statuses l r = [] ↔ l ≡ₚ r.
Proof.
  unfold diff_statuses. rewrite sort_ints_unique.
  case_decide as Hl; [case_decide; naive_solver|]. split; [done|].
  intros He. destruct Hl. rewrite <-(sort_ints_length l), He. apply sort_ints_length.
Qed.

(** The equality that [diff] decides: options that are skipped are all alike,
    and failure statuses are compared as multisets. *)
Definition equiv (s o : Startup) : Prop :=
  SkipCheck s = SkipCheck o ∧
  (SkipCheck s = false →
   ConnectDelay s = ConnectDelay o ∧ ConnectInterval s = ConnectInterval o ∧
   Timeout s = Timeout o ∧ CheckReadyProtocol s = CheckReadyProtocol o ∧
   CheckReadyPortIndex s = CheckReadyPortIndex o ∧
   CheckReadyFailureStatuses s ≡ₚ CheckReadyFailureStatuses o ∧
   CheckReadyInterval s = CheckReadyInterval o ∧
   CheckReadyRetries s = CheckReadyRetries o ∧
   CheckReadyURIPath s = CheckReadyURIPath o ∧
   CheckReadyURITimeout s = CheckReadyURITimeout o).

#[export] Instance equiv_equivalence : Equivalence equiv.
Proof.
  split.
  - by intros s.
  - intros s o [H1 H2]. split; [done|]. rewrite <-H1. intros Hs.
    destruct (H2 Hs) as (?&?&?&?&?&?&?&?&?&?). by split_and!.
  - intros s o p [H1 H2] [H3 H4]. split; [congruence|]. intros Hs.
    destruct (H2 Hs) as (?&?&?&?&?&?&?&?&?&?).
    destruct H4 as (?&?&?&?&?&?&?&?&?&?); [congruence|].
    split_and!; try congruence. by etrans.
Qed.

Lemma diff_nil s o : diff s o = [] ↔ equiv s o.
Proof.
  unfold diff, equiv.
  rewrite !app_nil, !diff_field_nil, diff_statuses_nil.
  destruct (SkipCheck s), (SkipCheck o); simpl; naive_solver.
Qed.

(** ** Properties *)

Lemma unmerge_merge (cluster old : Startup) :
  UnmergeDefaults cluster (MergeDefaults cluster old) old = old.
Proof.
  destruct old; unfold UnmergeDefaults, MergeDefaults; simpl.
  by rewrite !undefault_default, undefault_statuses_merged.
Qed.

(** Unmerging a cluster's defaults from options they were merged into gives
    the options back, whatever they set: the merge a manifest goes through on
    its way to a deployment loses nothing. *)
Theorem UnmergeDefaults_MergeDefaults (cluster old : Startup) :
  UnmergeDefaults cluster (MergeDefaults cluster old) old = old.
Proof. exact (unmerge_merge cluster old). Qed.

(** Merging defaults is a monoid with the empty options as its identity:
    layers of defaults can be merged in any grouping. *)
Theorem MergeDefaults_monoid (a b c : Startup) :
  MergeDefaults a (MergeDefaults b c) = MergeDefaults (MergeDefaults a b) c ∧
  MergeDefaults zeroStartup a = a ∧ MergeDefaults a zeroStartup = a.
Proof.
  split_and!.
  - unfold MergeDefaults; simpl. f_equal; try apply default_field_assoc.
    by destruct (CheckReadyFailureStatuses c).
  - destruct a; unfold MergeDefaults; simpl. rewrite !default_field_zero_l.
    f_equal. case_decide as Hl; [|done]. by apply nil_length_inv in Hl.
  - destruct a; unfold MergeDefaults; simpl. by rewrite !default_field_zero_r.
Qed.

(** [Equal] decides an equivalence: skipped options are all alike, and
    otherwise every field agrees, the failure statuses up to their order. *)
Lemma Equal_iff (s o : Startup) : Equal s o = true ↔ equiv s o.
Proof.
  unfold Equal. rewrite bool_decide_eq_true, length_zero_iff_nil. apply diff_nil.
Qed.

Lemma check_nonneg_fatal f z : Forall fatal (check_nonneg f z).
Proof. unfold check_nonneg. case_decide; auto with sous. Qed.

Lemma check_statuses_fatal l : Forall fatal (check_statuses l).
Proof.
  induction l as [|z l IH]; [by constructor|]. apply Forall_app.
  split; [apply check_nonneg_fatal|apply IH].
Qed.

(** The flaws of a [Validate] other than the protocol's. *)
Definition other_flaws (s : Startup) : list (Flaw Startup) * list (Flaw Startup) :=
  (check_nonneg "ConnectDelay less than zero: %d!" (ConnectDelay s)
    ++ check_nonneg "Timeout less than zero: %d!" (Timeout s)
    ++ check_nonneg "ConnectInterval less than zero: %d!" (ConnectInterval s)
    ++ check_nonneg "CheckReadyPortIndex less than zero: %d!" (CheckReadyPortIndex s)
    ++ check_nonneg "CheckReadyURITimeout less than zero: %d!" (CheckReadyURITimeout s)
    ++ check_nonneg "CheckReadyInterval less than zero: %d!" (CheckReadyInterval s)
    ++ check_nonneg "CheckReadyRetries less than zero: %d!" (CheckReadyRetries s),
   check_statuses (CheckReadyFailureStatuses s))%list.

Lemma Validate_split s :
  SkipCheck s = false →
  Validate s = ((other_flaws s).1 ++ check_protocol s ++ (other_flaws s).2)%list.
Proof. intros Hs. unfold Validate. rewrite Hs. simpl. by rewrite <-!app_assoc. Qed.

Lemma other_flaws_fatal s : Forall fatal (other_flaws s).1 ∧ Forall fatal (other_flaws s).2.
Proof.
  split; [|apply check_statuses_fatal]. simpl.
  rewrite !Forall_app. split_and!; apply check_nonneg_fatal.
Qed.

Lemma check_protocol_repair s :
  (Forall fatal (check_protocol s)) ∨
  (∃ p, RepairAll (check_protocol s) s = ([], [], set_CheckReadyProtocol p s) ∧
        check_protocol (set_CheckReadyProtocol p s) = []).
Proof.
  unfold check_protocol. case_decide as H1; [right|left; case_decide; auto with sous].
  exists (to_upper (CheckReadyProtocol s)). split; [done|].
  destruct H1 as [-> | ->]; vm_compute; done.
Qed.

Lemma Validate_repaired_lemma (s : Startup) :
  let '(fs, es, s') := RepairAll (Validate s) s in
  Validate s' = fs ∧ Forall fatal fs ∧ length es = length fs.
Proof.
  destruct (SkipCheck s) eqn:Hskip.
  { unfold Validate. rewrite Hskip. simpl. by rewrite Hskip. }
  destruct (other_flaws_fatal s) as [Hf1 Hf2].
  rewrite Validate_split by done. rewrite RepairAll_app.
  destruct (RepairAll_fatal _ s Hf1) as (es1&->&Hl1). rewrite RepairAll_app.
  destruct (check_protocol_repair s) as [Hf|(p&->&Hp)].
  - destruct (RepairAll_fatal _ s Hf) as (es2&->&Hl2).
    destruct (RepairAll_fatal _ s Hf2) as (es3&->&Hl3).
    split_and!; [by apply Validate_split|by rewrite !Forall_app|].
    rewrite !length_app. lia.
  - destruct (RepairAll_fatal _ (set_CheckReadyProtocol p s) Hf2) as (es3&->&Hl3).
    split_and!; [|by rewrite !Forall_app|by rewrite !length_app, Hl1, Hl3].
    rewrite Validate_split by done. by rewrite Hp.
Qed.

(** Repairing what [Validate] finds leaves exactly the flaws that cannot be
    repaired, and reports one error for each of them: validating the repaired
    options again finds those flaws and no other. *)
Theorem Validate_repaired (s : Startup) :
  let '(fs, es, s') := RepairAll (Validate s) s in
  Validate s' = fs ∧ Forall fatal fs ∧ length es = length fs.
Proof. exact (Validate_repaired_lemma s). Qed.
