(* ===== verification/CMap.v ===== *)
(** * Concurrent maps (util/blueprints/cmap/cmap.go)

    The blueprint from which [Deployments], [DeployStates] and [Manifests] are
    generated.  Every operation runs its body while holding the map's lock, so a
    body is one atomic step and is modelled as a function on the contents; the
    methods wrap it with the check that the map was initialised.  [None] is an
    uninitialised map, on which every method panics.

    The blueprint is generic in its values through their [ID] and [Clone]
    methods: the class [Value]. *)

From S2P Require Import Prelude.

Class Value (K V : Type) := {
  ID : V → K;
  Clone : V → V;
  Clone_ID v : ID (Clone v) = ID v
}.

(** ** The bodies, on the contents *)

Section Bodies.
Context {K V : Type} `{Countable K, !Value K V}.
Implicit Types (m : gmap K V) (v : V) (k : K).

Definition add v m : gmap K V * bool :=
  match m !! ID v with
  | Some _ => (m, false)
  | None => (<[ID v := v]> m, true)
  end.

(** The conflicting key that the first loop of [AddAll] stops at, if any. *)
Definition conflict (ss m : gmap K V) : option K :=
  head (filter (λ k, is_Some (m !! k)) ((map_to_list ss).*1)).

Definition add_all (ss m : gmap K V) : gmap K V * option K :=
  match conflict ss m with
  | Some k => (m, Some k)
  | None => (map_fold (λ k v acc, <[k := v]> acc) m ss, None)
  end.

(** [NewCMapFromMap]: the right-most map wins. *)
Definition from_maps (maps : list (gmap K V)) : gmap K V :=
  foldl (λ acc m, map_fold (λ k v acc, <[k := v]> acc) acc m) ∅ maps.

Definition filtered (p : V → bool) m : gmap K V := filter (λ kv, p kv.2 = true) m.

Definition clone_all m : gmap K V :=
  map_fold (λ _ v acc, (add (Clone v) acc).1) ∅ m.
End Bodies.

(** ** The methods *)

Section Methods.
Context {K V : Type} `{Countable K, !Value K V}.

Abbreviation cmap := (option (gmap K V)).

(** [read] and [write]: panic on an uninitialised map, then the locked body. *)
Definition read {A} (m : cmap) (f : gmap K V → A) : option A := c ← m; Some (f c).
Definition write {A} (m : cmap) (f : gmap K V → gmap K V * A) : option (cmap * A) :=
  c ← m; let '(c', a) := f c in Some (Some c', a).

Definition NewCMapFromMap (from : list (gmap K V)) : cmap := Some (from_maps from).

(** [NewCMap] panics on a conflicting key. *)
Definition NewCMap (from : list V) : option cmap :=
  c ← foldl (λ acc v, c ← acc; let '(c', ok) := add v c in if (ok : bool) then Some c' else None)
        (Some ∅) from;
  Some (Some c).

Definition Get (m : cmap) (k : K) : option (option V) := read m (λ c, c !! k).
Definition Set_ (k : K) (v : V) (m : cmap) : option (cmap * ()) :=
  write m (λ c, (<[k := v]> c, ())).
Definition Snapshot (m : cmap) : option (gmap K V) := read m (λ c, c).
Definition FilteredSnapshot (p : V → bool) (m : cmap) : option (gmap K V) :=
  read m (filtered p).
Definition CloneMap (m : cmap) : option cmap := ss ← Snapshot m; Some (Some (clone_all ss)).

(** A nil predicate clones. *)
Definition Filter (p : option (V → bool)) (m : cmap) : option cmap :=
  match p with
  | None => CloneMap m
  | Some p => out ← read m (filtered p); Some (NewCMapFromMap [out])
  end.

Definition Single (p : V → bool) (m : cmap) : option (option V) :=
  f ← FilteredSnapshot p m;
  Some (match map_to_list f with [(_, v)] => Some v | _ => None end).

Definition Any (p : V → bool) (m : cmap) : option (option V) :=
  f ← Filter (Some p) m; ss ← Snapshot f; Some (snd <$> head (map_to_list ss)).

Definition Merge (m other : cmap) : option cmap :=
  a ← Snapshot m; b ← Snapshot other; Some (NewCMapFromMap [a; b]).

Definition Add (v : V) (m : cmap) : option (cmap * bool) := write m (add v).
Definition MustAdd (v : V) (m : cmap) : option cmap :=
  '(m', ok) ← Add v m; if (ok : bool) then Some m' else None.
Definition AddAll (from m : cmap) : option (cmap * option K) :=
  ss ← Snapshot from; write m (add_all ss).
Definition Remove (k : K) (m : cmap) : option (cmap * ()) := write m (λ c, (delete k c, ())).
Definition Len (m : cmap) : option nat := read m size.
Definition Keys (m : cmap) : option (list K) := read m (λ c, (map_to_list c).*1).
Definition GetAll (m : cmap) : option (gmap K V) := Snapshot m.
Definition SetAll (v : option (gmap K V)) : cmap := v.
End Methods.

(** ** Lemmas *)

Section Lemmas.
Context {K V : Type} `{Countable K, !Value K V}.
Implicit Types (m ss : gmap K V) (v : V) (k : K).

(** Every value sits under its own ID. *)
Definition keyed m : Prop := map_Forall (λ k v, ID v = k) m.

Lemma keyed_empty : keyed ∅.
Proof. apply map_Forall_empty. Qed.

Lemma keyed_insert v m : keyed m → keyed (<[ID v := v]> m).
Proof. intros Hm. by apply map_Forall_insert_2. Qed.

Lemma keyed_subseteq m m' : m ⊆ m' → keyed m' → keyed m.
Proof. intros Hs Hm k v Hk. apply Hm. by eapply lookup_weaken. Qed.

Lemma keyed_union m1 m2 : keyed m1 → keyed m2 → keyed (m1 ∪ m2).
Proof. apply map_Forall_union_2. Qed.

Lemma add_keyed v m : keyed m → keyed (add v m).1.
Proof. intros Hm. unfold add. case_match; [done|]. by apply keyed_insert. Qed.

Lemma insert_all_union m ss : map_fold (λ k v acc, <[k := v]> acc) m ss = ss ∪ m.
Proof.
  apply (map_fold_weak_ind (λ r ss, r = ss ∪ m)).
  - by rewrite (left_id_L ∅ (∪)).
  - intros k v ss' r _ ->. by rewrite insert_union_l.
Qed.

Lemma from_maps_pair m1 m2 : from_maps [m1; m2] = m2 ∪ m1.
Proof. unfold from_maps. simpl. by rewrite !insert_all_union, (right_id_L ∅ (∪)). Qed.

Lemma from_maps_single m : from_maps [m] = m.
Proof. unfold from_maps. simpl. by rewrite insert_all_union, (right_id_L ∅ (∪)). Qed.

Lemma conflict_None ss m : conflict ss m = None ↔ ss ##ₘ m.
Proof.
  unfold conflict. rewrite head_None, map_disjoint_spec.
  split.
  - intros Hn k v w Hs Hm.
    assert (k ∈ filter (λ k, is_Some (m !! k)) ((map_to_list ss).*1)) as Hk.
    { apply list_elem_of_filter. split; [eauto|]. apply list_elem_of_fmap.
      exists (k, v). by rewrite elem_of_map_to_list. }
    rewrite Hn in Hk. set_solver.
  - intros Hd. destruct (filter _ _) as [|k l] eqn:Hf; [done|exfalso].
    assert (k ∈ filter (λ k, is_Some (m !! k)) ((map_to_list ss).*1)) as Hk
      by (rewrite Hf; set_solver).
    apply list_elem_of_filter in Hk as [[w Hw] Hk].
    apply list_elem_of_fmap in Hk as ([k' v]&->&Hk). apply elem_of_map_to_list in Hk.
    by eapply Hd.
Qed.

Lemma conflict_Some ss m k :
  conflict ss m = Some k → is_Some (ss !! k) ∧ is_Some (m !! k).
Proof.
  unfold conflict. intros Hh. apply head_Some_elem_of in Hh.
  apply list_elem_of_filter in Hh as [Hm Hk]. split; [|done].
  apply list_elem_of_fmap in Hk as ([k' v]&->&Hk). apply elem_of_map_to_list in Hk. by eexists.
Qed.

Lemma add_all_ok ss m : ss ##ₘ m → add_all ss m = (ss ∪ m, None).
Proof. intros Hd. unfold add_all. by rewrite (proj2 (conflict_None ss m) Hd), insert_all_union. Qed.

Lemma clone_all_keyed m : keyed m → clone_all m = Clone <$> m.
Proof.
  intros Hm. unfold clone_all. revert Hm.
  apply (map_fold_weak_ind (λ r m, keyed m → r = Clone <$> m)).
  { intros _. by rewrite fmap_empty. }
  intros k v m' r Hk IH Hm. rewrite IH.
  2: { eapply keyed_subseteq; [|exact Hm]. by apply insert_subseteq. }
  assert (ID v = k) as <- by (apply Hm; apply lookup_insert_eq).
  unfold add. rewrite Clone_ID, lookup_fmap, Hk. simpl. by rewrite fmap_insert.
Qed.

(** A map is made of its values, in any order. *)
Lemma NewCMap_values m (l : list V) : keyed m → l ≡ₚ (map_to_list m).*2 → NewCMap l = Some (Some m).
Proof.
  intros Hm Hl.
  assert (∀ l c, NoDup (ID <$> l) → (∀ v, v ∈ l → c !! ID v = None) →
    foldl (λ acc v, c ← acc; let '(c', ok) := add v c in if (ok : bool) then Some c' else None) (Some c) l =
      Some (list_to_map ((λ v, (ID v, v)) <$> l) ∪ c)) as Hfold.
  { clear. intros l. induction l as [|v l IH]; intros c Hnd Hc; cbn [foldl fmap list_fmap list_to_map foldr];
      [by rewrite (left_id_L ∅ (∪))|].
    apply NoDup_cons in Hnd as [Hv Hnd]. cbn [mbind option_bind]. unfold add at 2. rewrite Hc by set_solver.
    rewrite IH; [|done|].
    - f_equal. unfold uncurry. simpl. rewrite <-insert_union_l, insert_union_r; [done|].
      apply not_elem_of_list_to_map_1. by rewrite <-list_fmap_compose.
    - intros v' Hv'. rewrite lookup_insert_ne; [apply Hc; set_solver|].
      intros He. apply Hv. rewrite He. by apply list_elem_of_fmap_2. }
  assert ((λ v, (ID v, v)) <$> (map_to_list m).*2 = map_to_list m) as Hpairs.
  { rewrite <-list_fmap_compose. rewrite <-(list_fmap_id (map_to_list m)) at 2.
    apply list_fmap_ext. intros i [k v] Hi. apply list_elem_of_lookup_2, elem_of_map_to_list in Hi.
    unfold compose. simpl. by rewrite (Hm k v Hi). }
  assert (ID <$> (map_to_list m).*2 = (map_to_list m).*1) as Hids
    by (rewrite <-Hpairs, <-!list_fmap_compose; done).
  unfold NewCMap. rewrite Hfold.
  - cbn [mbind option_bind]. rewrite (right_id_L ∅ (∪)). do 2 f_equal.
    transitivity (list_to_map (map_to_list m) : gmap K V); [|apply list_to_map_to_list].
    apply list_to_map_proper; [|by rewrite Hl, Hpairs].
    rewrite <-list_fmap_compose. change (_ <$> l) with (ID <$> l). rewrite Hl, Hids. apply NoDup_fst_map_to_list.
  - rewrite Hl, Hids. apply NoDup_fst_map_to_list.
  - intros v _. apply lookup_empty.
Qed.

Lemma filtered_lookup p m k v : filtered p m !! k = Some v ↔ m !! k = Some v ∧ p v = true.
Proof. unfold filtered. by rewrite map_lookup_filter_Some. Qed.

Lemma filtered_subseteq p m : filtered p m ⊆ m.
Proof. apply map_filter_subseteq. Qed.

(** ** Properties *)

(** [AddAll] is atomic: either no key conflicts and everything is added, or
    the map is untouched and the key returned is one both maps have. *)
Theorem AddAll_atomic ss m :
  (ss ##ₘ m ∧ AddAll (Some ss) (Some m) = Some (Some (ss ∪ m), None)) ∨
  (∃ k, AddAll (Some ss) (Some m) = Some (Some m, Some k) ∧
        is_Some (ss !! k) ∧ is_Some (m !! k)).
Proof.
  unfold AddAll, write. simpl. unfold add_all.
  destruct (conflict ss m) as [k|] eqn:Hc; [right|left].
  - exists k. by apply conflict_Some in Hc.
  - rewrite insert_all_union. by apply conflict_None in Hc.
Qed.

(** The methods that build maps keep every value under its own ID, and a
    clone is the pairwise clone: nothing is dropped as a conflict. *)
Theorem methods_keyed m1 m2 v p :
  keyed m1 → keyed m2 →
  (∀ m' ok, Add v (Some m1) = Some (Some m', ok) → keyed m') ∧
  (∀ m' r, AddAll (Some m2) (Some m1) = Some (Some m', r) → keyed m') ∧
  (∀ m', Merge (Some m1) (Some m2) = Some (Some m') → keyed m' ∧ m' = m2 ∪ m1) ∧
  (∀ m', Filter (Some p) (Some m1) = Some (Some m') → keyed m') ∧
  CloneMap (Some m1) = Some (Some (Clone <$> m1)) ∧ keyed (Clone <$> m1).
Proof.
  intros H1 H2. split_and!.
  - unfold Add, write. simpl. intros m' ok.
    pose proof (add_keyed v m1 H1) as Hk. destruct (add v m1). by intros [= <- <-].
  - unfold AddAll, write. simpl. unfold add_all. intros m' r.
    destruct (conflict m2 m1); [by intros [= <- <-]|]. rewrite insert_all_union.
    intros [= <- <-]. by apply keyed_union.
  - unfold Merge. simpl. unfold NewCMapFromMap. rewrite from_maps_pair. intros m' [= <-].
    split; [by apply keyed_union|done].
  - unfold Filter. simpl. unfold NewCMapFromMap. rewrite from_maps_single. intros m' [= <-].
    eapply keyed_subseteq; [apply filtered_subseteq|done].
  - unfold CloneMap. simpl. by rewrite clone_all_keyed.
  - intros k w Hk. rewrite lookup_fmap in Hk. apply fmap_Some in Hk as (u&Hu&->).
    rewrite Clone_ID. by apply H1.
Qed.

End Lemmas.

Lemma methods_keyed_witness :
  let value := {| ID := λ v : nat * bool, v.1; Clone := λ v, v; Clone_ID := λ v, eq_refl |} in
  let m := {[1%nat := (1%nat, true)]} : gmap nat (nat * bool) in
  CloneMap (Some m) = Some (Some m) ∧
  ∃ m', Merge (Some m) (Some m) = Some (Some m') ∧ keyed m'.
Proof.
  intros value m. assert (keyed m) as Hm by by apply map_Forall_singleton.
  destruct (methods_keyed m m (2%nat, true) (λ _, true) Hm Hm) as (_&_&Hmerge&_&Hc&_). split.
  - rewrite Hc. by vm_compute.
  - eexists. split; [reflexivity|]. apply Hmerge. reflexivity.
Defined.

#[export] Hint Resolve keyed_empty keyed_insert keyed_union add_keyed : sous.
