(* ===== verification/DeployConfig.v ===== *)
(** * Deployment configuration (lib/resources.go, volumes.go, deploy_config.go,
    deploy_spec.go)

    Resources, volumes, environments and metadata; the configuration record
    that holds them; how two are compared, how a list of them is flattened into
    one, and how one is validated and repaired. *)

From S2P Require Import Prelude GoStrings Flaw GoFloat Semv Startup.
#[local] Open Scope string_scope.
#[local] Open Scope Z_scope.

(** ** Resources *)

Abbreviation Resources := (gomap string).

Definition resource (r : Resources) (name : string) : string :=
  default "" (entries r !! name).

Definition Cpus (r : Resources) : float64 :=
  match ParseFloat (resource r "cpus") with
  | Some cpus => cpus
  | None => of_decimal false 1 (-1)
  end.

Definition Memory (r : Resources) : float64 :=
  match ParseFloat (resource r "memory") with
  | Some memory => memory
  | None => of_decimal false 100 0
  end.

Definition Ports (r : Resources) : Z :=
  match parse_int 32 (resource r "ports") with Some ports => ports | None => 1 end.

Definition Resources_Equal (r o : Resources) : bool :=
  if negb (bool_decide (mlen r = mlen o)) then false
  else if negb (Ports r =? Ports o) then false
  else if apart (Cpus r) (Cpus o) then false
  else if apart (Memory r) (Memory o) then false
  else true.

Definition MissingResourceFlaw (field dflt : string) : Flaw (gmap string string) :=
  {| Desc := errorf "Missing resource field %q for cluster %s" [AStr field];
     Repair := λ r, (<[field := dflt]> r, None) |}.

Definition validateField (r : gmap string string) (name def : string) :
    list (Flaw (gmap string string)) :=
  match r !! name with Some _ => [] | None => [MissingResourceFlaw name def] end.

Definition Resources_Validate (r : gmap string string) : list (Flaw (gmap string string)) :=
  (validateField r "cpus" "0.1" ++ validateField r "memory" "100"
   ++ validateField r "ports" "1")%list.

(** ** Volumes *)

Record Volume := mkVolume { Host : string; Container : string; Mode : string }.
#[export] Instance Volume_eq_dec : EqDecision Volume.
Proof. solve_decision. Defined.

(** A slice of pointers, some of which may be nil. *)
Abbreviation Volumes := (list (option Volume)).

(** Comparing through a nil pointer panics. *)
Definition Volume_Equal (v o : option Volume) : option bool :=
  v ← v; o ← o;
  Some (bool_decide (Host v = Host o) && bool_decide (Container v = Container o)
        && bool_decide (Mode v = Mode o)).

(** The index of the first element of [c] equal to [v]. *)
Fixpoint find_volume (v : option Volume) (c : Volumes) (i : nat) : option (option nat) :=
  match c with
  | [] => Some None
  | ov :: c' =>
      eq ← Volume_Equal v ov;
      if (eq : bool) then Some (Some i) else find_volume v c' (S i)
  end.

(** [c[i] = c[len(c)-1]; c = c[:len(c)-1]]. *)
Definition swap_remove {A} (i : nat) (c : list A) : list A :=
  match c !! (length c - 1)%nat with
  | Some l => take (length c - 1) (<[i := l]> c)
  | None => c
  end.

Fixpoint volumes_loop (vs c : Volumes) : option bool :=
  match vs with
  | [] => Some (bool_decide (length c = 0%nat))
  | v :: vs' =>
      found ← find_volume v c 0;
      match found with
      | Some i => volumes_loop vs' (swap_remove i c)
      | None => Some false
      end
  end.

Definition Volumes_Equal (vs o : Volumes) : option bool :=
  if decide (length vs = length o) then volumes_loop vs o else Some false.

(** ** Environments and metadata: maps of strings *)

Definition Env_Equal (e o : gomap string) : bool :=
  if negb (bool_decide (mlen e = mlen o)) then false
  else forallb (λ '(name, value), bool_decide (entries o !! name = Some value))
         (map_to_list (entries e)).

(** ** Deploy configs *)

Record DeployConfig := mkDeployConfig {
  dc_Resources : Resources;
  dc_Metadata : gomap string;
  dc_Env : gomap string;
  NumInstances : Z;
  dc_Volumes : Volumes;
  dc_Startup : Startup;
  Schedule : string
}.

#[export] Instance DeployConfig_eq_dec : EqDecision DeployConfig.
Proof. solve_decision. Defined.

Definition show_volumes (vs : Volumes) : arg :=
  AVolumes (map (option_map (λ v, (Host v, Container v, Mode v))) vs).

(** [if len(a) != 0 || len(b) != 0 { if !a.Equal(b) { diffs = append(...) } }]. *)
Definition diff_maps (equal : gomap string → gomap string → bool) (frmt : string)
    (a b : gomap string) : list text :=
  if decide (mlen a ≠ 0%nat ∨ mlen b ≠ 0%nat)
  then if equal a b then [] else [errorf frmt [AMap a; AMap b]]
  else [].

Definition diff_volumes (a b : Volumes) : option (list text) :=
  if decide (length a ≠ 0%nat ∨ length b ≠ 0%nat)
  then eq ← Volumes_Equal a b;
       Some (if (eq : bool) then []
             else [errorf "volumes; this: %v; other: %v" [show_volumes a; show_volumes b]])
  else Some [].

(** The list of differences; the boolean is [len(diffs) == 0], as in the code. *)
Definition DeployConfig_Diff (dc o : DeployConfig) : option (bool * list text) :=
  vols ← diff_volumes (dc_Volumes dc) (dc_Volumes o);
  let diffs :=
    (diff_field "number of instances; this: %d; other: %d" AInt
       (NumInstances dc) (NumInstances o)
    ++ diff_maps Env_Equal "env; this: %v; other: %v" (dc_Env dc) (dc_Env o)
    ++ diff_maps Env_Equal "metadata; this: %v; other: %v" (dc_Metadata dc) (dc_Metadata o)
    ++ diff_maps Resources_Equal "resources; this: %v; other: %v"
         (dc_Resources dc) (dc_Resources o)
    ++ vols
    ++ diff (dc_Startup dc) (dc_Startup o))%list in
  Some (bool_decide (length diffs = 0%nat), diffs).

Definition DeployConfig_Equal (dc o : DeployConfig) : option bool :=
  '(different, _) ← DeployConfig_Diff dc o; Some (negb different).

(** [Clone] makes the environment and the resources non-nil, and copies. *)
Definition DeployConfig_Clone (dc : DeployConfig) : DeployConfig :=
  {| NumInstances := NumInstances dc;
     dc_Env := Some (entries (dc_Env dc));
     dc_Resources := Some (entries (dc_Resources dc));
     dc_Metadata := match dc_Metadata dc with None => None | Some m => Some m end;
     dc_Volumes := dc_Volumes dc;
     dc_Startup := dc_Startup dc;
     Schedule := Schedule dc |}.

(** ** Flattening *)

(** [for n, v := range m { if _, set := acc[n]; !set { acc[n] = v } }]. *)
Definition merge_missing {V} (acc m : gmap string V) : gmap string V :=
  map_fold (λ n v acc, match acc !! n with Some _ => acc | None => <[n := v]> acc end) acc m.

(** [for _, c := range dcs { if p(c) { x = f(c); break } }]. *)
Fixpoint first_such {A B} (p : A → bool) (f : A → B) (x : B) (l : list A) : B :=
  match l with
  | [] => x
  | c :: l' => if p c then f c else first_such p f x l'
  end.

Definition flatten_maps (sel : DeployConfig → gomap string) (dcs : list DeployConfig) :
    gmap string string :=
  foldl (λ acc c, merge_missing acc (entries (sel c))) ∅ dcs.

Definition flattenDeployConfigs (dcs : list DeployConfig) : DeployConfig :=
  {| NumInstances := first_such (λ c, negb (NumInstances c =? 0)) NumInstances 0 dcs;
     dc_Volumes :=
       first_such (λ c, negb (bool_decide (length (dc_Volumes c) = 0%nat))) dc_Volumes [] dcs;
     Schedule := first_such (λ c, negb (bool_decide (Schedule c = ""))) Schedule "" dcs;
     dc_Resources := Some (flatten_maps dc_Resources dcs);
     dc_Env := Some (flatten_maps dc_Env dcs);
     dc_Metadata := Some (flatten_maps dc_Metadata dcs);
     dc_Startup := foldl (λ _ c, dc_Startup c) zeroStartup dcs |}.

(** ** Deploy specs *)

Record DeploySpec := mkDeploySpec {
  spec_DeployConfig : DeployConfig;
  spec_Version : Version;
  clusterName : string
}.

#[export] Instance DeploySpec_eq_dec : EqDecision DeploySpec.
Proof. solve_decision. Defined.

Definition zeroConfig : DeployConfig := mkDeployConfig None None None 0 [] zeroStartup "".
Definition zeroSpec : DeploySpec := mkDeploySpec zeroConfig zeroVersion "".

Definition DeploySpec_Clone (spec : DeploySpec) : DeploySpec :=
  mkDeploySpec (DeployConfig_Clone (spec_DeployConfig spec)) (spec_Version spec)
    (clusterName spec).

(** Each configuration difference becomes a format string of its own. *)
Definition DeploySpec_Diff (spec other : DeploySpec) : option (bool * list text) :=
  '(_, configDiffs) ← DeployConfig_Diff (spec_DeployConfig spec) (spec_DeployConfig other);
  let diffs :=
    ((if Equals (spec_Version spec) (spec_Version other) then []
      else [errorf "version; this: %q; other: %q"
              [AStr (Semv.String (spec_Version spec)); AStr (Semv.String (spec_Version other))]])
    ++ ((λ d, Sprintf d []) <$> configDiffs))%list in
  Some (negb (bool_decide (length diffs = 0%nat)), diffs).

Definition DeploySpec_Equal (spec other : DeploySpec) : option bool :=
  '(different, _) ← DeploySpec_Diff spec other; Some (negb different).

Definition isZero (spec : DeploySpec) : option bool := DeploySpec_Equal spec zeroSpec.

Definition flattenDeploySpecs (dss : list DeploySpec) : DeploySpec :=
  {| spec_DeployConfig := flattenDeployConfigs (spec_DeployConfig <$> dss);
     spec_Version :=
       first_such (λ s, negb (bool_decide (spec_Version s = zeroVersion))) spec_Version
         zeroVersion dss;
     clusterName := "" |}.

(** ** Validation and repair *)

Definition set_Resources (r : Resources) (dc : DeployConfig) : DeployConfig :=
  mkDeployConfig r (dc_Metadata dc) (dc_Env dc) (NumInstances dc) (dc_Volumes dc)
    (dc_Startup dc) (Schedule dc).
Definition set_Volumes (vs : Volumes) (dc : DeployConfig) : DeployConfig :=
  mkDeployConfig (dc_Resources dc) (dc_Metadata dc) (dc_Env dc) (NumInstances dc) vs
    (dc_Startup dc) (Schedule dc).
Definition set_Startup (s : Startup) (dc : DeployConfig) : DeployConfig :=
  mkDeployConfig (dc_Resources dc) (dc_Metadata dc) (dc_Env dc) (NumInstances dc)
    (dc_Volumes dc) s (Schedule dc).

Definition NilVolumeFlaw : Flaw DeployConfig :=
  {| Desc := Lit "NilVolumeFlaw";
     Repair := λ dc, (set_Volumes (filter is_Some (dc_Volumes dc)) dc, None) |}.

(** Resources flaws write to the map that was validated.  When the config has no
    map that is a fresh one, which the config does not refer to: repairing them
    does not change the config. *)
Definition detached_flaw {S P} (p0 : P) (f : Flaw P) : Flaw S :=
  {| Desc := Desc f; Repair := λ s, (s, (Repair f p0).2) |}.

Definition DeployConfig_Validate (dc : DeployConfig) : list (Flaw DeployConfig) :=
  ((if decide (None ∈ dc_Volumes dc) then [NilVolumeFlaw] else [])
  ++ match dc_Resources dc with
     | None =>
         NewFlaw (Lit "No Resources set for DeployConfig")
           (λ dc, (set_Resources (Some ∅) dc, None))
         :: (detached_flaw ∅ <$> Resources_Validate ∅)
     | Some r =>
         lift_flaw (λ dc, entries (dc_Resources dc)) (λ r, set_Resources (Some r))
           <$> Resources_Validate r
     end
  ++ (lift_flaw dc_Startup set_Startup <$> Validate (dc_Startup dc)))%list.

(** ** Lemmas: volumes *)

Lemma Volume_Equal_Some v o : Volume_Equal (Some v) (Some o) = Some (bool_decide (v = o)).
Proof.
  unfold Volume_Equal. simpl. f_equal. destruct v, o; simpl.
  apply eq_bool_prop_intro. rewrite !andb_True, !bool_decide_spec. naive_solver.
Qed.

Lemma find_volume_Some v l i :
  (∃ k, find_volume (Some v) (Some <$> l) i = Some (Some (i + k)%nat) ∧ l !! k = Some v) ∨
  (find_volume (Some v) (Some <$> l) i = Some None ∧ v ∉ l).
Proof.
  revert i. induction l as [|o l IH]; intros i; [right; split; [done|set_solver]|].
  rewrite fmap_cons. cbn [find_volume]. rewrite Volume_Equal_Some. simpl.
  case_bool_decide as Ho; simpl; subst.
  { left. exists 0%nat. by rewrite Nat.add_0_r. }
  destruct (IH (S i)) as [(k&->&Hk)|[-> Hn]]; [left|right].
  - exists (S k). split; [do 2 f_equal; lia|done].
  - split; [done|set_solver].
Qed.

Lemma swap_remove_fmap {A B} (f : A → B) i l :
  swap_remove i (f <$> l) = f <$> swap_remove i l.
Proof.
  unfold swap_remove. rewrite length_fmap, list_lookup_fmap.
  destruct (l !! (length l - 1)%nat); simpl; [|done].
  by rewrite <-list_fmap_insert, fmap_take.
Qed.

Lemma swap_remove_perm {A} k (l : list A) v :
  l !! k = Some v → v :: swap_remove k l ≡ₚ l.
Proof.
  intros Hk. apply take_drop_middle in Hk as Hl.
  assert (k < length l)%nat as Hlt by by eapply lookup_lt_Some.
  set (a := take k l) in *. set (b := drop (S k) l) in *.
  assert (length a = k) as Ha by (apply length_take_le; lia).
  rewrite <-Hl. clearbody a b. clear Hl Hk. subst k.
  destruct b as [|z b _] using rev_ind; unfold swap_remove.
  - rewrite length_app. simpl. replace (length a + 1 - 1)%nat with (length a) by lia.
    rewrite list_lookup_middle by done. rewrite insert_app_r_alt, Nat.sub_diag by lia.
    simpl. rewrite take_app_length. by rewrite Permutation_app_comm.
  - assert ((length (a ++ v :: b ++ [z]) - 1)%nat = length (a ++ v :: b)) as Hlen
      by (rewrite !length_app; simpl; rewrite length_app; simpl; lia).
    rewrite Hlen. rewrite app_comm_cons, app_assoc, list_lookup_middle by done.
    rewrite <-app_assoc, insert_app_r_alt, Nat.sub_diag by lia. simpl.
    replace (length (a ++ v :: b)) with (length (a ++ z :: b)) by (by rewrite !length_app).
    rewrite app_comm_cons, app_assoc, take_app_length.
    rewrite <-(Permutation_cons_append b z). by rewrite <-!Permutation_middle.
Qed.

Lemma volumes_loop_Some l1 l2 :
  volumes_loop (Some <$> l1) (Some <$> l2) = Some (bool_decide (l1 ≡ₚ l2)).
Proof.
  revert l2. induction l1 as [|v l1 IH]; intros l2; simpl.
  { f_equal. apply bool_decide_ext. rewrite length_fmap, length_zero_iff_nil.
    split; [by intros ->|]. intros Hp. by apply Permutation_nil in Hp. }
  destruct (find_volume_Some v l2 0) as [(k&->&Hk)|[-> Hn]]; simpl.
  - rewrite swap_remove_fmap, IH. f_equal. apply bool_decide_ext.
    rewrite <-(swap_remove_perm k l2 v Hk) at 2. split; [by intros ->|].
    apply Permutation_cons_inv.
  - f_equal. symmetry. apply bool_decide_eq_false. intros Hp. apply Hn.
    rewrite <-Hp. set_solver.
Qed.

Lemma Volumes_Equal_Some (l1 l2 : list Volume) :
  Volumes_Equal (Some <$> l1) (Some <$> l2) = Some (bool_decide (l1 ≡ₚ l2)).
Proof.
  unfold Volumes_Equal. rewrite !length_fmap. case_decide as Hl; [apply volumes_loop_Some|].
  f_equal. symmetry. apply bool_decide_eq_false. intros Hp. by rewrite Hp in Hl.
Qed.

(** Volumes are compared as multisets: on lists without nil entries the
    in-place matching loop answers whether one is a permutation of the other,
    and a nil entry of the first list is a panic when there is a second. *)
Theorem Volumes_Equal_spec (l1 l2 : list Volume) (v : option Volume) (vs vs' : Volumes) :
  Volumes_Equal (Some <$> l1) (Some <$> l2) = Some (bool_decide (l1 ≡ₚ l2)) ∧
  (length vs = length vs' → Volumes_Equal (None :: vs) (v :: vs') = None).
Proof.
  split; [apply Volumes_Equal_Some|]. intros Hl.
  unfold Volumes_Equal. rewrite decide_True by (simpl; congruence). done.
Qed.

Lemma Volumes_Equal_spec_witness :
  let a := mkVolume "/var/log" "/logs" "RO" in
  let b := mkVolume "/tmp" "/scratch" "RW" in
  Volumes_Equal (Some <$> [a; b; a]) (Some <$> [b; a; a]) = Some true ∧
  Volumes_Equal (Some <$> [a; b; a]) (Some <$> [b; a; b]) = Some false ∧
  Volumes_Equal [None; Some a] [Some b; Some a] = None.
Proof.
  intros a b. split_and!.
  - rewrite (proj1 (Volumes_Equal_spec [a; b; a] [b; a; a] None [] [])). by vm_compute.
  - rewrite (proj1 (Volumes_Equal_spec [a; b; a] [b; a; b] None [] [])). by vm_compute.
  - exact (proj2 (Volumes_Equal_spec [] [] (Some b) [Some a] [Some a]) eq_refl).
Defined.

(** ** Lemmas: maps *)

Lemma Env_Equal_spec e o : Env_Equal e o = true ↔ entries e = entries o.
Proof.
  unfold Env_Equal, mlen. split.
  - case_bool_decide as Hl; simpl; [|done]. rewrite forallb_forall. intros Hall.
    apply map_subseteq_size_eq; [|done]. apply map_subseteq_spec. intros k v Hk.
    apply elem_of_map_to_list, list_elem_of_In in Hk. apply Hall in Hk.
    by apply bool_decide_eq_true in Hk.
  - intros He. rewrite He, bool_decide_eq_true_2 by done. simpl. apply forallb_forall.
    intros [k v] Hk. apply list_elem_of_In, elem_of_map_to_list in Hk.
    by apply bool_decide_eq_true.
Qed.

Lemma Resources_Equal_refl_entries r o : entries r = entries o → Resources_Equal r o = true.
Proof.
  intros He. unfold Resources_Equal, mlen, Ports, Cpus, Memory, resource. rewrite He.
  rewrite bool_decide_eq_true_2, Z.eqb_refl, !apart_irrefl by done. done.
Qed.

Lemma Resources_Equal_sym r o : Resources_Equal r o = Resources_Equal o r.
Proof.
  unfold Resources_Equal. rewrite (Z.eqb_sym (Ports o)), (apart_sym (Cpus o)), (apart_sym (Memory o)).
  replace (bool_decide (mlen o = mlen r)) with (bool_decide (mlen r = mlen o)); [done|by apply bool_decide_ext].
Qed.

(** What resources are compared by: as many of them, and numbers that are the
    same (the ports) or at most a thousandth apart (the processors and the
    memory), where a resource that is missing or does not parse counts as its
    default. *)
Definition number_or {A} (parse : string → option A) (dflt : A) (r : Resources) (name : string) : A :=
  default dflt (entries r !! name ≫= parse).

Definition within_milli (x y : float64) : Prop :=
  SFltb (of_decimal false 1 (-3)) (SFabs (SFsub 53 1024 x y)) = false.

Record resources_equiv (r o : Resources) : Prop := {
  re_count : size (entries r) = size (entries o);
  re_ports : number_or (parse_int 32) 1 r "ports" = number_or (parse_int 32) 1 o "ports";
  re_cpus : within_milli (number_or ParseFloat (of_decimal false 1 (-1)) r "cpus")
                         (number_or ParseFloat (of_decimal false 1 (-1)) o "cpus");
  re_memory : within_milli (number_or ParseFloat (of_decimal false 100 0) r "memory")
                           (number_or ParseFloat (of_decimal false 100 0) o "memory")
}.

Lemma number_or_resource {A} (parse : string → option A) dflt r name :
  parse "" = None →
  number_or parse dflt r name = match parse (resource r name) with Some x => x | None => dflt end.
Proof.
  intros He. unfold number_or, resource. destruct (entries r !! name) as [v|]; simpl; [|by rewrite He].
  by destruct (parse v).
Qed.

Lemma Resources_Equal_iff r o : Resources_Equal r o = true ↔ resources_equiv r o.
Proof.
  assert (∀ r, number_or (parse_int 32) 1 r "ports" = Ports r) as Hp
    by (intros; by apply number_or_resource).
  assert (∀ r, number_or ParseFloat (of_decimal false 1 (-1)) r "cpus" = Cpus r) as Hc
    by (intros; by apply number_or_resource).
  assert (∀ r, number_or ParseFloat (of_decimal false 100 0) r "memory" = Memory r) as Hm
    by (intros; by apply number_or_resource).
  unfold Resources_Equal, mlen. split.
  - case_bool_decide; simpl; [|done]. destruct (Z.eqb_spec (Ports r) (Ports o)); simpl; [|done].
    destruct (apart (Cpus r) (Cpus o)) eqn:H1; [done|].
    destruct (apart (Memory r) (Memory o)) eqn:H2; [done|]. intros _.
    split; rewrite ?Hp, ?Hc, ?Hm; done.
  - intros [H1 H2 H3 H4]. rewrite !Hp in H2. rewrite !Hc in H3. rewrite !Hm in H4.
    rewrite bool_decide_eq_true_2, H2, Z.eqb_refl by done. simpl.
    unfold within_milli in H3, H4. fold prec64 emax64 milli in H3, H4.
    fold (apart (Cpus r) (Cpus o)) in H3. fold (apart (Memory r) (Memory o)) in H4. by rewrite H3, H4.
Qed.

Lemma resources_equiv_refl_entries r o : entries r = entries o → resources_equiv r o.
Proof. intros He. by apply Resources_Equal_iff, Resources_Equal_refl_entries. Qed.

Lemma resources_equiv_sym r o : resources_equiv r o → resources_equiv o r.
Proof. rewrite <-!Resources_Equal_iff. by rewrite Resources_Equal_sym. Qed.

(** Resource equality is reflexive and symmetric, whatever the values
    parse to (NaN and infinities included), but does not look at the names: maps
    that set different resources are equal when their numbers agree. *)
Theorem Resources_Equal_spec (r o : Resources) :
  Resources_Equal r r = true ∧ Resources_Equal r o = Resources_Equal o r ∧
  (Resources_Equal r o = true ↔
     mlen r = mlen o ∧ Ports r = Ports o ∧
     apart (Cpus r) (Cpus o) = false ∧ apart (Memory r) (Memory o) = false) ∧
  Resources_Equal (Some {["gpus" := "4"]}) (Some {["cpus" := "0.1"]}) = true.
Proof.
  split_and!; [by apply Resources_Equal_refl_entries| | |vm_compute; reflexivity].
  - apply Resources_Equal_sym.
  - unfold Resources_Equal.
    case_bool_decide; simpl; [|by split; [|intros [? _]]].
    destruct (Z.eqb_spec (Ports r) (Ports o)); simpl; [|by split; [|intros (_&?&_)]].
    destruct (apart (Cpus r) (Cpus o)); [by split; [|intros (_&_&?&_)]|].
    destruct (apart (Memory r) (Memory o)); [by split; [|intros (_&_&_&?)]|done].
Qed.

Lemma diff_maps_nil equal f a b :
  (entries a = entries b → equal a b = true) →
  diff_maps equal f a b = [] ↔ equal a b = true.
Proof.
  intros Hrefl. unfold diff_maps. case_decide as Hc.
  - destruct (equal a b); naive_solver.
  - split; [|done]. intros _. apply Hrefl. unfold mlen in Hc.
    assert (entries a = ∅) as -> by (apply map_size_empty_iff; lia).
    symmetry. apply map_size_empty_iff. lia.
Qed.

(** ** Lemmas: comparing configs *)

(** No volume pointer is nil. *)
Definition volumes_ok (vs : Volumes) : Prop := None ∉ vs.

Lemma volumes_ok_Some vs : volumes_ok vs ↔ ∃ l, vs = Some <$> l.
Proof.
  unfold volumes_ok. split.
  - induction vs as [|[v|] vs IH]; intros Hn; [by exists []| |set_solver].
    destruct IH as [l ->]; [set_solver|]. by exists (v :: l).
  - intros [l ->]. rewrite list_elem_of_fmap. naive_solver.
Qed.

Lemma Volumes_Equal_ok a b :
  volumes_ok a → volumes_ok b → Volumes_Equal a b = Some (bool_decide (a ≡ₚ b)).
Proof.
  intros [l1 ->]%volumes_ok_Some [l2 ->]%volumes_ok_Some. rewrite Volumes_Equal_Some.
  f_equal. apply bool_decide_ext. split; [by intros ->|].
  intros (l3&Hl3&->)%Permutation_map_inv. apply (inj (fmap Some)) in Hl3. by subst.
Qed.

(** What [Diff] compares: the schedule is not among it.  Neither this nor
    [resources_equiv] and [Startup.equiv] mention the code's comparisons. *)
Record config_equiv (dc o : DeployConfig) : Prop := {
  ce_instances : NumInstances dc = NumInstances o;
  ce_env : entries (dc_Env dc) = entries (dc_Env o);
  ce_metadata : entries (dc_Metadata dc) = entries (dc_Metadata o);
  ce_resources : resources_equiv (dc_Resources dc) (dc_Resources o);
  ce_volumes : dc_Volumes dc ≡ₚ dc_Volumes o;
  ce_startup : equiv (dc_Startup dc) (dc_Startup o)
}.

Lemma config_equiv_sym dc o : config_equiv dc o → config_equiv o dc.
Proof. intros [H1 H2 H3 H4 H5 H6]. split; try done. by apply resources_equiv_sym. Qed.

Lemma diff_volumes_ok a b :
  volumes_ok a → volumes_ok b →
  ∃ d, diff_volumes a b = Some d ∧ (d = [] ↔ a ≡ₚ b).
Proof.
  intros Ha Hb. unfold diff_volumes. case_decide as Hc.
  - rewrite Volumes_Equal_ok by done. simpl. eexists. split; [done|].
    case_bool_decide; naive_solver.
  - exists []. split; [done|]. split; [|done]. intros _.
    assert (a = []) as -> by (apply nil_length_inv; lia).
    assert (b = []) as -> by (apply nil_length_inv; lia). done.
Qed.

Lemma DeployConfig_Diff_ok dc o :
  volumes_ok (dc_Volumes dc) → volumes_ok (dc_Volumes o) →
  ∃ diffs, DeployConfig_Diff dc o = Some (bool_decide (length diffs = 0%nat), diffs) ∧
           (diffs = [] ↔ config_equiv dc o).
Proof.
  intros Ha Hb. destruct (diff_volumes_ok _ _ Ha Hb) as (vols&Hv&Hvols).
  unfold DeployConfig_Diff. rewrite Hv. simpl. eexists. split; [done|].
  rewrite !app_nil, diff_field_nil, !diff_maps_nil, !Env_Equal_spec, Resources_Equal_iff, Hvols, diff_nil.
  { split; [intros (?&?&?&?&?&?); by split|intros []; done]. }
  all: first [apply Env_Equal_spec | by intros; apply Resources_Equal_refl_entries].
Qed.

#[export] Instance config_equiv_refl : Reflexive config_equiv.
Proof.
  intros dc. split; [reflexivity..| |reflexivity|reflexivity].
  by apply resources_equiv_refl_entries.
Qed.

(** C39.  [DeployConfig.Diff] never panics on configs without nil volumes, and
    finds no difference exactly when the configs agree: one number of instances,
    the same environment and metadata, resources as many and of the same numbers
    (to a thousandth), the same volumes in any order, and startup options that
    agree unless the check is skipped; the schedule is not looked at.  Its boolean
    says that there is no difference, so it is the negation of what the same
    method of deployments and deploy specs returns. *)
Theorem DeployConfig_Diff_spec (dc o : DeployConfig) :
  volumes_ok (dc_Volumes dc) → volumes_ok (dc_Volumes o) →
  ∃ b diffs, DeployConfig_Diff dc o = Some (b, diffs) ∧
    (diffs = [] ↔ config_equiv dc o) ∧ (b = true ↔ config_equiv dc o).
Proof.
  intros Ha Hb. destruct (DeployConfig_Diff_ok dc o Ha Hb) as (diffs&->&Hd).
  eexists _, _. split; [done|]. by rewrite bool_decide_eq_true, length_zero_iff_nil.
Qed.

(** Configs that differ in their ports and those that differ in nothing. *)
Lemma DeployConfig_Diff_spec_witness :
  let config ports := mkDeployConfig (Some {["ports" := ports]}) None None 1
    [Some (mkVolume "/var/log" "/logs" "RO")] zeroStartup "" in
  (∃ b diffs, DeployConfig_Diff (config "1") (config "2") = Some (b, diffs) ∧ diffs ≠ [] ∧ b = false) ∧
  (∃ b, DeployConfig_Diff (config "2") (config "2") = Some (b, []) ∧ b = true).
Proof.
  intros config.
  assert (∀ p, volumes_ok (dc_Volumes (config p))) as Hok
    by (intros p; apply (bool_decide_unpack _); vm_compute; exact I).
  split.
  - destruct (DeployConfig_Diff_spec (config "1") (config "2") (Hok _) (Hok _)) as (b&diffs&H1&H2&H3).
    exists b, diffs. split; [exact H1|].
    assert (¬ config_equiv (config "1") (config "2")) as Hn.
    { intros [_ _ _ [_ Hp _ _] _ _]. vm_compute in Hp. discriminate Hp. }
    split; [intros He; apply Hn, H2, He|]. destruct b; [|reflexivity]. destruct Hn. by apply H3.
  - destruct (DeployConfig_Diff_spec (config "2") (config "2") (Hok _) (Hok _)) as (b&diffs&H1&H2&H3).
    exists b. assert (config_equiv (config "2") (config "2")) as Hr.
    { reflexivity. }
    rewrite (proj2 H2 Hr) in H1. split; [exact H1|]. by apply H3.
Defined.

(** The boolean of [DeployConfig.Diff] is inverted, so [DeployConfig.Equal]
    answers the opposite of equality. *)
Theorem DeployConfig_Equal_inverted (dc o : DeployConfig) :
  volumes_ok (dc_Volumes dc) → volumes_ok (dc_Volumes o) →
  (config_equiv dc o → DeployConfig_Equal dc o = Some false) ∧
  (¬ config_equiv dc o → DeployConfig_Equal dc o = Some true).
Proof.
  intros Ha Hb. destruct (DeployConfig_Diff_ok dc o Ha Hb) as (diffs&Hd&Hiff).
  unfold DeployConfig_Equal. rewrite Hd. simpl.
  split; intros Hc; case_bool_decide as Hl; try done.
  - apply Hiff in Hc. by subst.
  - destruct Hc. by apply Hiff, nil_length_inv.
Qed.

Definition spec_equiv (spec other : DeploySpec) : Prop :=
  Equals (spec_Version spec) (spec_Version other) = true ∧
  config_equiv (spec_DeployConfig spec) (spec_DeployConfig other).

Definition spec_volumes_ok (spec : DeploySpec) : Prop :=
  volumes_ok (dc_Volumes (spec_DeployConfig spec)).

Lemma DeploySpec_Diff_ok spec other :
  spec_volumes_ok spec → spec_volumes_ok other →
  ∃ diffs, DeploySpec_Diff spec other = Some (negb (bool_decide (length diffs = 0%nat)), diffs) ∧
           (diffs = [] ↔ spec_equiv spec other).
Proof.
  intros Ha Hb. destruct (DeployConfig_Diff_ok _ _ Ha Hb) as (diffs&Hd&Hiff).
  unfold DeploySpec_Diff, spec_equiv. rewrite Hd. simpl. eexists. split; [done|].
  rewrite app_nil, <-Hiff. destruct (Equals _ _); split; try naive_solver.
  intros [_ Hm]. split; [done|]. by apply fmap_nil_inv in Hm.
Qed.

(** [DeploySpec.Equal] holds exactly when the versions are equal in
    precedence and the configs agree. *)
Theorem DeploySpec_Equal_spec (spec other : DeploySpec) :
  spec_volumes_ok spec → spec_volumes_ok other →
  ∃ b, DeploySpec_Equal spec other = Some b ∧ (b = true ↔ spec_equiv spec other).
Proof.
  intros Ha Hb. destruct (DeploySpec_Diff_ok _ _ Ha Hb) as (diffs&Hd&Hiff).
  unfold DeploySpec_Equal. rewrite Hd. simpl. eexists. split; [done|].
  by rewrite negb_involutive, bool_decide_eq_true, length_zero_iff_nil.
Qed.

(** ** Lemmas: flattening *)

Lemma merge_missing_union {V} (acc m : gmap string V) : merge_missing acc m = acc ∪ m.
Proof.
  unfold merge_missing. apply (map_fold_weak_ind (λ r m, r = acc ∪ m)).
  - by rewrite (right_id_L ∅ (∪)).
  - intros k v m' r Hk ->. apply map_eq. intros j.
    destruct (acc !! k) as [w|] eqn:Ha.
    + rewrite (lookup_union_Some_l acc m' k w) by done. rewrite !lookup_union.
      destruct (decide (j = k)) as [->|]; [|by rewrite lookup_insert_ne].
      by rewrite Ha, Hk, lookup_insert_eq.
    + rewrite lookup_union_r, Hk by done. rewrite lookup_union.
      destruct (decide (j = k)) as [->|].
      * by rewrite !lookup_insert_eq, Ha.
      * by rewrite !lookup_insert_ne, lookup_union by done.
Qed.

Lemma flatten_maps_lookup (sel : DeployConfig → gomap string) dcs acc n :
  foldl (λ acc c, merge_missing acc (entries (sel c))) acc dcs !! n =
    match acc !! n with
    | Some v => Some v
    | None => first_such (λ c, bool_decide (is_Some (entries (sel c) !! n)))
                (λ c, entries (sel c) !! n) None dcs
    end.
Proof.
  revert acc. induction dcs as [|c dcs IH]; intros acc; simpl; [by destruct (acc !! n)|].
  rewrite IH, merge_missing_union, lookup_union.
  destruct (acc !! n); simpl; [by destruct (entries (sel c) !! n)|].
  by destruct (entries (sel c) !! n) eqn:He; simpl; rewrite ?He.
Qed.

Lemma flatten_maps_first (sel : DeployConfig → gomap string) dcs n :
  flatten_maps sel dcs !! n =
    first_such (λ c, bool_decide (is_Some (entries (sel c) !! n)))
      (λ c, entries (sel c) !! n) None dcs.
Proof. unfold flatten_maps. by rewrite flatten_maps_lookup, lookup_empty. Qed.

(** Flattening gives each setting to the first config that sets it: the
    first non-zero instance count, the first volumes, the first schedule, and
    for each name of the three maps the first config that has it. *)
Theorem flattenDeployConfigs_first (dcs : list DeployConfig) :
  let f := flattenDeployConfigs dcs in
  (∀ pre c post, dcs = (pre ++ c :: post)%list → NumInstances c ≠ 0 →
     Forall (λ p, NumInstances p = 0) pre → NumInstances f = NumInstances c) ∧
  (∀ n, entries (dc_Env f) !! n =
     first_such (λ c, bool_decide (is_Some (entries (dc_Env c) !! n)))
       (λ c, entries (dc_Env c) !! n) None dcs) ∧
  (∀ n, entries (dc_Resources f) !! n =
     first_such (λ c, bool_decide (is_Some (entries (dc_Resources c) !! n)))
       (λ c, entries (dc_Resources c) !! n) None dcs) ∧
  (∀ n, entries (dc_Metadata f) !! n =
     first_such (λ c, bool_decide (is_Some (entries (dc_Metadata c) !! n)))
       (λ c, entries (dc_Metadata c) !! n) None dcs).
Proof.
  simpl. split_and!; [|intros n; apply flatten_maps_first..].
  intros pre c post -> Hc. induction 1 as [|p pre Hp _ IH]; simpl.
  - by destruct (Z.eqb_spec (NumInstances c) 0).
  - by rewrite Hp.
Qed.

Lemma flattenDeployConfigs_first_witness :
  let config n s := mkDeployConfig None None (Some {["A" := s]}) n [] zeroStartup "" in
  NumInstances (flattenDeployConfigs [config 0 "x"; config 3 "y"; config 5 "z"]) = 3 ∧
  entries (dc_Env (flattenDeployConfigs [config 0 "x"; config 3 "y"; config 5 "z"])) !! "A" = Some "x".
Proof.
  intros config. destruct (flattenDeployConfigs_first [config 0 "x"; config 3 "y"; config 5 "z"])
    as (Hn&He&_). split.
  - apply (Hn [config 0 "x"] (config 3 "y") [config 5 "z"]); [done|done|by repeat constructor].
  - rewrite He. reflexivity.
Defined.

(** A config with its maps made non-nil: what flattening makes of one config. *)
Definition with_maps (dc : DeployConfig) : DeployConfig :=
  {| dc_Resources := Some (entries (dc_Resources dc));
     dc_Metadata := Some (entries (dc_Metadata dc));
     dc_Env := Some (entries (dc_Env dc));
     NumInstances := NumInstances dc; dc_Volumes := dc_Volumes dc;
     dc_Startup := dc_Startup dc; Schedule := Schedule dc |}.

Lemma flatten_single dc : flattenDeployConfigs [dc] = with_maps dc.
Proof.
  unfold flattenDeployConfigs, with_maps, flatten_maps. simpl.
  rewrite !merge_missing_union, !(left_id_L ∅ (∪)). f_equal.
  - by destruct (Z.eqb_spec (NumInstances dc) 0).
  - case_bool_decide as Hl; [|done]. simpl. by apply nil_length_inv in Hl.
  - by case_bool_decide.
Qed.

Lemma flatten_specs_single spec :
  flattenDeploySpecs [spec] =
    mkDeploySpec (with_maps (spec_DeployConfig spec)) (spec_Version spec) "".
Proof.
  unfold flattenDeploySpecs. simpl. rewrite flatten_single. f_equal.
  by case_bool_decide.
Qed.

Lemma DeployConfig_Clone_with_maps dc : DeployConfig_Clone (with_maps dc) = with_maps dc.
Proof. done. Qed.

(** A clone compares as equal to its original. *)
Lemma DeployConfig_Clone_equiv dc : config_equiv (DeployConfig_Clone dc) dc.
Proof.
  split; try done; simpl; [by destruct (dc_Metadata dc)|].
  by apply resources_equiv_refl_entries.
Qed.

(** ** Lemmas: repairs *)

Lemma Resources_Validate_repaired r :
  ∃ r', RepairAll (Resources_Validate r) r = ([], [], r') ∧ Resources_Validate r' = [].
Proof.
  unfold Resources_Validate, validateField.
  destruct (r !! "cpus") eqn:H1, (r !! "memory") eqn:H2, (r !! "ports") eqn:H3;
    simpl; (eexists; split; [reflexivity|]); by simplify_map_eq.
Qed.

Lemma lift_startup_repair dc fs es s :
  RepairAll (Validate (dc_Startup dc)) (dc_Startup dc) = (fs, es, s) →
  RepairAll (lift_flaw dc_Startup set_Startup <$> Validate (dc_Startup dc)) dc =
    (lift_flaw dc_Startup set_Startup <$> fs, es, set_Startup s dc).
Proof. apply RepairAll_lift; [done|by intros []|done]. Qed.

Lemma lift_fatal {S P} (get : S → P) set (f : Flaw P) :
  (∀ s, set (get s) s = s) → fatal f → fatal (lift_flaw get set f).
Proof. intros Hs Hf s. destruct (Hf (get s)) as [e He]. exists e. simpl. by rewrite He, Hs. Qed.

(** The three stages of validating a config, repaired one after the other. *)
Lemma repair_volumes (dc : DeployConfig) :
  ∃ vs, RepairAll (if decide (None ∈ dc_Volumes dc) then [NilVolumeFlaw] else []) dc =
          ([], [], set_Volumes vs dc) ∧ None ∉ vs.
Proof.
  case_decide as Hn; simpl.
  - eexists. split; [done|]. rewrite list_elem_of_filter. by intros [[] _].
  - exists (dc_Volumes dc). by destruct dc.
Qed.

Lemma repair_resources (dc : DeployConfig) r :
  dc_Resources dc = Some r →
  ∃ r', RepairAll (lift_flaw (λ dc, entries (dc_Resources dc)) (λ r, set_Resources (Some r))
          <$> Resources_Validate r) dc = ([], [], set_Resources (Some r') dc) ∧
        Resources_Validate r' = [].
Proof.
  intros Hr. destruct dc as [r0 md env ni vs st sch]. simpl in Hr. subst r0.
  unfold Resources_Validate, validateField.
  destruct (r !! "cpus") eqn:H1, (r !! "memory") eqn:H2, (r !! "ports") eqn:H3;
    simpl; (eexists; split; [reflexivity|]); by simplify_map_eq.
Qed.

Lemma detached_repair {P} (p0 : P) fs (dc : DeployConfig) :
  Forall repairable fs → RepairAll (detached_flaw p0 <$> fs) dc = ([], [], dc).
Proof. induction 1 as [|f fs Hf _ IH]; [done|]. rewrite fmap_cons. simpl. by rewrite IH, Hf. Qed.

Lemma repair_startup dc :
  ∃ fs es s, RepairAll (lift_flaw dc_Startup set_Startup <$> Validate (dc_Startup dc)) dc =
      (lift_flaw dc_Startup set_Startup <$> fs, es, set_Startup s dc) ∧
    Validate s = fs ∧ Forall fatal fs ∧ length es = length fs.
Proof.
  pose proof (Startup.Validate_repaired_lemma (dc_Startup dc)) as Hs.
  destruct (RepairAll (Validate (dc_Startup dc)) (dc_Startup dc)) as [[fs es] s] eqn:Hr.
  exists fs, es, s. by rewrite (lift_startup_repair _ _ _ _ Hr).
Qed.

(** For a config that has a resources map, repairing what [Validate] finds
    leaves exactly the flaws that cannot be repaired: nil volumes are dropped,
    missing resources are set, a lower-case protocol is upcased. *)
Theorem DeployConfig_Validate_repaired (dc : DeployConfig) (r : gmap string string) :
  dc_Resources dc = Some r →
  let '(fs, es, dc') := RepairAll (DeployConfig_Validate dc) dc in
  DeployConfig_Validate dc' = fs ∧ Forall fatal fs ∧ length es = length fs.
Proof.
  intros Hr. unfold DeployConfig_Validate at 1. rewrite Hr, !RepairAll_app.
  destruct (repair_volumes dc) as (vs&->&Hvs). rewrite RepairAll_app.
  destruct (repair_resources (set_Volumes vs dc) r Hr) as (r'&->&Hr').
  destruct (repair_startup (set_Resources (Some r') (set_Volumes vs dc)))
    as (fs&es&s&Hrep&HV&Hfat&Hlen).
  change (dc_Startup dc) with (dc_Startup (set_Resources (Some r') (set_Volumes vs dc))).
  rewrite Hrep. simpl. split_and!; [|apply Forall_fmap|by rewrite length_fmap].
  - unfold DeployConfig_Validate. simpl. rewrite decide_False, Hr', HV by done. done.
  - eapply Forall_impl; [exact Hfat|]. intros f. apply lift_fatal. by intros [].
Qed.

Lemma DeployConfig_Validate_repaired_witness :
  let dc := mkDeployConfig (Some ∅) None None 1 [None; Some (mkVolume "/var/log" "/logs" "XX")] zeroStartup "" in
  let '(fs, es, dc') := RepairAll (DeployConfig_Validate dc) dc in
  DeployConfig_Validate dc' = fs ∧ Forall fatal fs ∧ length es = length fs.
Proof. apply (DeployConfig_Validate_repaired _ ∅). reflexivity. Defined.

(** A config without a resources map is given an empty one, but its missing
    resources are repaired in a map that is thrown away: every repair succeeds
    and validating again still finds the three of them. *)
Theorem DeployConfig_Validate_nil_resources (dc : DeployConfig) :
  dc_Resources dc = None →
  let '(fs, es, dc') := RepairAll (DeployConfig_Validate dc) dc in
  dc_Resources dc' = Some ∅ ∧
  length (DeployConfig_Validate dc') = (3 + length fs)%nat.
Proof.
  intros Hr. unfold DeployConfig_Validate at 1. rewrite Hr, !RepairAll_app.
  destruct (repair_volumes dc) as (vs&->&Hvs). rewrite <-app_comm_cons. cbn [RepairAll Repair NewFlaw].
  rewrite RepairAll_app, detached_repair by (repeat constructor; by intros ?).
  destruct (repair_startup (set_Resources (Some ∅) (set_Volumes vs dc)))
    as (fs&es&s&Hrep&HV&Hfat&Hlen).
  change (dc_Startup dc) with (dc_Startup (set_Resources (Some ∅) (set_Volumes vs dc))).
  rewrite Hrep. simpl. split; [done|].
  unfold DeployConfig_Validate. simpl. rewrite decide_False, HV by done.
  by rewrite !length_app, !length_fmap.
Qed.
