(* ===== verification/Deployment.v ===== *)
(** * Deployments and manifests (lib/owner_set.go, manifestkind.go, state.go,
    deployment.go, deployments.go, deploystatus.go, deploystate.go, manifest.go,
    manifests.go)

    The data a deployment is made of, how two deployments, two deploy states,
    two manifests are compared, and how a deployment is validated. *)

From S2P Require Import Prelude GoStrings Flaw Semv Ids Startup DeployConfig CMap.
#[local] Open Scope string_scope.
#[local] Open Scope Z_scope.
#[local] Open Scope list_scope.

(** ** Owners *)

Abbreviation OwnerSet := (gset string).

Definition NewOwnerSet (owners : list string) : OwnerSet :=
  foldl (λ os o, os ∪ {[o]}) ∅ owners.

Definition OwnerSet_Merge (os other : OwnerSet) : OwnerSet := os ∪ other.

Definition OwnerSet_Diff (os o : OwnerSet) : bool * list text :=
  let diffs :=
    (if decide (size os = size o) then []
     else [errorf "different lengths: %d vs %d" [AInt (Z.of_nat (size os)); AInt (Z.of_nat (size o))]])
    ++ ((λ ownr, errorf "Owner %q missing from other" [AStr ownr])
          <$> filter (λ ownr, ownr ∉ o) (elements os)) in
  (negb (bool_decide (length diffs = 0%nat)), diffs).

Definition OwnerSet_Equal (os o : OwnerSet) : bool := negb (OwnerSet_Diff os o).1.

Definition Slice (os : OwnerSet) : list string := sort_strings (elements os).

(** ** Kinds *)

Definition ManifestKindService : string := "http-service".
Definition ManifestKindWorker : string := "worker".
Definition ManifestKindOnDemand : string := "on-demand".
Definition ManifestKindScheduled : string := "scheduled".
Definition ManifestKindOnce : string := "once".
Definition ScheduledJob : string := "scheduled-job".

Definition valid_kinds : list string :=
  [ManifestKindService; ManifestKindWorker; ManifestKindOnDemand; ManifestKindScheduled;
   ManifestKindOnce; ScheduledJob].

Definition ManifestKind_Validate {S} (mk : string) : list (Flaw S) :=
  if decide (mk ∈ valid_kinds) then []
  else [{| Desc := errorf "ManifestKind %q not valid" [AStr mk];
           Repair := λ s, (s, Some (Lit "unable to repair invalid ManifestKind")) |}].

(** ** Clusters *)

Record Cluster := mkCluster {
  c_Name : string;
  c_Kind : string;
  BaseURL : string;
  c_Env : gomap string;
  c_Startup : Startup;
  AllowedAdvisories : list string
}.
#[export] Instance Cluster_eq_dec : EqDecision Cluster.
Proof. solve_decision. Defined.

(** The advisories are copied; the other fields are shared or scalar. *)
Definition Cluster_Clone (c : Cluster) : Cluster :=
  {| c_Name := c_Name c; c_Kind := c_Kind c; BaseURL := BaseURL c; c_Env := c_Env c;
     c_Startup := c_Startup c; AllowedAdvisories := AllowedAdvisories c |}.

(** ** Deployments *)

Record Deployment := mkDeployment {
  d_DeployConfig : DeployConfig;
  ClusterName : string;
  d_Cluster : option Cluster;
  d_SourceID : SourceID;
  Flavor : string;
  Owners : OwnerSet;
  Kind : string
}.
#[export] Instance Deployment_eq_dec : EqDecision Deployment.
Proof. solve_decision. Defined.

Definition Deployment_Clone (d : Deployment) : Deployment :=
  {| d_DeployConfig := DeployConfig_Clone (d_DeployConfig d);
     ClusterName := ClusterName d;
     d_Cluster := Cluster_Clone <$> d_Cluster d;
     d_SourceID := d_SourceID d; Flavor := Flavor d; Owners := Owners d; Kind := Kind d |}.

Definition Deployment_ManifestID (d : Deployment) : ManifestID :=
  mkManifestID (Location (d_SourceID d)) (Flavor d).

Definition Deployment_ID (d : Deployment) : DeploymentID :=
  mkDeploymentID (Deployment_ManifestID d) (ClusterName d).

Definition Deployment_DeploySpec (d : Deployment) : DeploySpec :=
  mkDeploySpec (d_DeployConfig d) (sid_Version (d_SourceID d)) (ClusterName d).

(** [None] is the panic on comparing deployments with different IDs. *)
Definition Deployment_Diff (d o : Deployment) : option (bool * list text) :=
  if decide (Deployment_ID d = Deployment_ID o) then
    '(_, configDiffs) ← DeployConfig_Diff (d_DeployConfig d) (d_DeployConfig o);
    let diffs :=
      diff_field "cluster name; this: %q; other: %q" AStr (ClusterName d) (ClusterName o)
      ++ (if SourceID_Equal (d_SourceID d) (d_SourceID o) then []
          else [errorf "source id; this: %q; other: %q"
                  [AStr (SourceID_String (d_SourceID d)); AStr (SourceID_String (d_SourceID o))]])
      ++ diff_field "flavor; this: %q; other: %q" AStr (Flavor d) (Flavor o)
      ++ diff_field "kind; this: %q; other: %q" AStr (Kind d) (Kind o)
      ++ (if decide (Kind d = ManifestKindScheduled)
          then diff_field "schedule; this: %q, other: %q" AStr
                 (Schedule (d_DeployConfig d)) (Schedule (d_DeployConfig o))
          else [])
      ++ diff_field "number of owners; this: %+v; other: %+v" (λ n, AInt (Z.of_nat n))
           (size (Owners d)) (size (Owners o))
      ++ ((λ owner, errorf "owner %s" [AStr owner])
            <$> filter (λ owner, owner ∉ Owners o) (elements (Owners d)))
      ++ configDiffs in
    Some (negb (bool_decide (length diffs = 0%nat)), diffs)
  else None.

Definition Deployment_Equal (d o : Deployment) : option bool :=
  '(diff, _) ← Deployment_Diff d o; Some (negb diff).

Definition set_DeployConfig (dc : DeployConfig) (d : Deployment) : Deployment :=
  mkDeployment dc (ClusterName d) (d_Cluster d) (d_SourceID d) (Flavor d) (Owners d) (Kind d).
Definition set_Kind (k : string) (d : Deployment) : Deployment :=
  mkDeployment (d_DeployConfig d) (ClusterName d) (d_Cluster d) (d_SourceID d) (Flavor d)
    (Owners d) k.

Definition Deployment_Validate (d : Deployment) : list (Flaw Deployment) :=
  (if decide (Kind d = "")
   then [NewFlaw (errorf "manifest %q missing Kind" [AStr (DeploymentID_String (Deployment_ID d))])
           (λ d, (set_Kind ManifestKindService d, None))]
   else ManifestKind_Validate (Kind d))
  ++ (lift_flaw d_DeployConfig set_DeployConfig <$> DeployConfig_Validate (d_DeployConfig d)).

#[export] Instance Deployment_value : Value DeploymentID Deployment :=
  { ID := Deployment_ID; Clone := Deployment_Clone; Clone_ID := λ _, eq_refl }.

Abbreviation Deployments := (gmap DeploymentID Deployment).

(** Only: [Err] is more than one; [Ok None] is none. *)
Definition Deployments_Only (ds : Deployments) : result text (option Deployment) :=
  match map_to_list ds with
  | [] => Ok None
  | [(_, p)] => Ok (Some p)
  | _ => Err (Lit "multiple deploys returned from Only")
  end.

(** [VariancesFrom] compares every deployment with the one of the same ID; a
    missing one is a nil pointer, which [Diff] dereferences: a panic. *)
Definition Deployments_VariancesFrom (ds ods : Deployments) : option (list text) :=
  foldl (λ acc '(did, dep),
      vs ← acc;
      match ods !! did with
      | None => None
      | Some od => '(_, diffs) ← Deployment_Diff dep od; Some (vs ++ diffs)
      end)
    (Some (if decide (size ds = size ods) then []
           else [errorf "We have %d deployments, other has %d."
                   [AInt (Z.of_nat (size ds)); AInt (Z.of_nat (size ods))]]))
    (map_to_list ds).

(** ** Deploy states *)

Inductive DeployStatus : Type :=
| DeployStatusAny | DeployStatusPending | DeployStatusActive | DeployStatusFailed.
#[export] Instance DeployStatus_eq_dec : EqDecision DeployStatus.
Proof. solve_decision. Defined.

Definition Failed (ds : DeployStatus) : bool :=
  match ds with DeployStatusFailed => true | _ => false end.

(** The stringer's names (lib/deploystatus_string.go). *)
Definition DeployStatus_String (ds : DeployStatus) : string :=
  match ds with
  | DeployStatusAny => "DeployStatusAny"
  | DeployStatusPending => "DeployStatusPending"
  | DeployStatusActive => "DeployStatusActive"
  | DeployStatusFailed => "DeployStatusFailed"
  end.

(** An [interface{}] that only the Singularity deployer looks into. *)
Inductive ExecutorData : Type :=
| NoData
| SingularityTaskData (requestID : string)
| OtherData.
#[export] Instance ExecutorData_eq_dec : EqDecision ExecutorData.
Proof. solve_decision. Defined.

Record DeployState := mkDeployState {
  ds_Deployment : Deployment;
  ds_Status : DeployStatus;
  ExecutorMessage : string;
  ds_ExecutorData : ExecutorData;
  ds_SchedulerURL : string
}.
#[export] Instance DeployState_eq_dec : EqDecision DeployState.
Proof. solve_decision. Defined.

Definition DeployState_ID (ds : DeployState) : DeploymentID := Deployment_ID (ds_Deployment ds).

Definition DeployState_Clone (ds : DeployState) : DeployState :=
  mkDeployState (Deployment_Clone (ds_Deployment ds)) (ds_Status ds) (ExecutorMessage ds)
    (ds_ExecutorData ds) (ds_SchedulerURL ds).

#[export] Instance DeployState_value : Value DeploymentID DeployState :=
  { ID := DeployState_ID; Clone := DeployState_Clone; Clone_ID := λ _, eq_refl }.

Abbreviation DeployStates := (gmap DeploymentID DeployState).

Definition IgnoringStatus (ds : DeployStates) : Deployments := ds_Deployment <$> ds.

Definition Final (ds : DeployState) : bool :=
  match ds_Status ds with
  | DeployStatusActive | DeployStatusFailed => true
  | _ => false
  end.

Definition DeployState_Diff (ds o : DeployState) : option (bool * list text) :=
  '(_, depS) ← Deployment_Diff (ds_Deployment ds) (ds_Deployment o);
  let depS := depS ++ diff_field "status: this: %s other: %s"
    (λ s, AStr (DeployStatus_String s)) (ds_Status ds) (ds_Status o) in
  Some (negb (bool_decide (length depS = 0%nat)), depS).

(** ** Manifests *)

Record Manifest := mkManifest {
  m_Source : SourceLocation;
  m_Flavor : string;
  m_Owners : list string;
  m_Kind : string;
  m_Deployments : gmap string DeploySpec
}.
#[export] Instance Manifest_eq_dec : EqDecision Manifest.
Proof. solve_decision. Defined.

Definition Manifest_ID (m : Manifest) : ManifestID := mkManifestID (m_Source m) (m_Flavor m).

Definition SetID (mid : ManifestID) (m : Manifest) : Manifest :=
  mkManifest (Source mid) (mid_Flavor mid) (m_Owners m) (m_Kind m) (m_Deployments m).

Definition Manifest_Clone (m : Manifest) : Manifest :=
  mkManifest (m_Source m) (m_Flavor m) (m_Owners m) (m_Kind m)
    (DeploySpec_Clone <$> m_Deployments m).

#[export] Instance Manifest_value : Value ManifestID Manifest :=
  { ID := Manifest_ID; Clone := Manifest_Clone; Clone_ID := λ _, eq_refl }.

Abbreviation Manifests := (gmap ManifestID Manifest).

(** One cluster of the first manifest against the second. *)
Definition diff_deploy_spec (o : gmap string DeploySpec) (clusterName : string)
    (spec : DeploySpec) : option (list text) :=
  match o !! clusterName with
  | None => Some [errorf "missing deployment %q" [AStr clusterName]]
  | Some ospec =>
      '(_, differences) ← DeploySpec_Diff spec ospec;
      Some (map (λ d, Sprintf (Cat (Lit "%s: ") d) [AStr clusterName]) differences)
  end.

Definition diff_deploy_specs (m o : gmap string DeploySpec) : option (list text) :=
  ds ← mapM (λ '(cn, spec), diff_deploy_spec o cn spec) (map_to_list m);
  Some (concat ds
    ++ ((λ cn, errorf "extra deployment %q" [AStr cn])
          <$> filter (λ cn, m !! cn = None) ((map_to_list o).*1))).

(** [same] is [m == o], the comparison of the two pointers. *)
Definition Manifest_Diff (same : bool) (m o : Manifest) : option (bool * list text) :=
  if same then Some (false, [])
  else
    deps ← (if decide (size (m_Deployments m) = size (m_Deployments o))
            then diff_deploy_specs (m_Deployments m) (m_Deployments o)
            else Some [errorf "number of deployments; this: %d; other: %d"
                         [AInt (Z.of_nat (size (m_Deployments m)));
                          AInt (Z.of_nat (size (m_Deployments o)))]]);
    let diffs :=
      diff_field "source; this: %q; other: %q" (λ s, AStr (SourceLocation_String s))
        (m_Source m) (m_Source o)
      ++ diff_field "kind; this: %q; other: %q" AStr (m_Kind m) (m_Kind o)
      ++ (if decide (length (m_Owners m) = length (m_Owners o))
          then (OwnerSet_Diff (NewOwnerSet (m_Owners m)) (NewOwnerSet (m_Owners o))).2
          else [errorf "number of owners; this: %d; other: %d"
                  [AInt (Z.of_nat (length (m_Owners m)));
                   AInt (Z.of_nat (length (m_Owners o)))]])
      ++ deps in
    Some (negb (bool_decide (length diffs = 0%nat)), diffs).

Definition Manifest_Equal (same : bool) (m o : Manifest) : option bool :=
  '(diff, _) ← Manifest_Diff same m o; Some (negb diff).

Definition set_m_Kind (k : string) (m : Manifest) : Manifest :=
  mkManifest (m_Source m) (m_Flavor m) (m_Owners m) k (m_Deployments m).

Definition Manifest_Validate (m : Manifest) : list (Flaw Manifest) :=
  if decide (m_Kind m = "")
  then [NewFlaw (errorf "manifest %q missing Kind" [AStr (ManifestID_String (Manifest_ID m))])
          (λ m, (set_m_Kind ManifestKindService m, None))]
  else ManifestKind_Validate (m_Kind m).

(** [ptr] says which manifests the two sets share. *)
Definition Manifests_Diff (ptr : ManifestID → bool) (ms other : Manifests) :
    option (bool * list text) :=
  ds ← mapM (λ '(mid, m),
         match other !! mid with
         | None => Some [errorf "missing manifest %q" [AStr (ManifestID_String mid)]]
         | Some n =>
             '(_, ds) ← Manifest_Diff (ptr mid) m n;
             Some (map (λ d, Sprintf (Lit "manifest %q: %s") [AStr (ManifestID_String mid); AText d]) ds)
         end) (map_to_list ms);
  let diffs := concat ds
    ++ ((λ mid, errorf "extra manifest %q" [AStr (ManifestID_String mid)])
          <$> filter (λ mid, ms !! mid = None) ((map_to_list other).*1)) in
  Some (negb (bool_decide (length diffs = 0%nat)), diffs).

Definition Flavors (ms : Manifests) : gset string :=
  foldl (λ acc mid, acc ∪ {[mid_Flavor mid]}) ∅ ((map_to_list ms).*1).

(** ** Lemmas: owners *)

Lemma NewOwnerSet_list l : NewOwnerSet l = list_to_set l.
Proof.
  unfold NewOwnerSet. enough (∀ acc, foldl (λ os o, os ∪ {[o]}) acc l = acc ∪ list_to_set l :> gset string) as H.
  { rewrite H. set_solver. }
  induction l as [|x l IH]; intros acc; simpl; [set_solver|]. rewrite IH. set_solver.
Qed.

(** The owner part of a comparison finds nothing exactly on equal sets. *)
Lemma owners_missing_nil {A} (f : string → A) (os o : OwnerSet) :
  f <$> filter (λ ownr, ownr ∉ o) (elements os) = [] ↔ os ⊆ o.
Proof.
  split.
  - intros Hn%fmap_nil_inv x Hx. destruct (decide (x ∈ o)) as [|Ho]; [done|].
    assert (x ∈ filter (λ ownr, ownr ∉ o) (elements os)) as Hf
      by (apply list_elem_of_filter; set_solver).
    rewrite Hn in Hf. set_solver.
  - intros Hs. destruct (filter _ _) as [|x l] eqn:Hf; [done|exfalso].
    assert (x ∈ filter (λ ownr, ownr ∉ o) (elements os)) as Hx by (rewrite Hf; set_solver).
    apply list_elem_of_filter in Hx. set_solver.
Qed.

Lemma OwnerSet_Diff_nil os o : (OwnerSet_Diff os o).2 = [] ↔ os = o.
Proof.
  unfold OwnerSet_Diff. simpl. rewrite app_nil, owners_missing_nil. split.
  - intros [Hz Hs]. case_decide; [|done]. apply set_subseteq_size_eq; [done|lia].
  - intros ->. by rewrite decide_True.
Qed.

Lemma negb_length_nil {A} (l : list A) :
  negb (bool_decide (length l = 0%nat)) = false ↔ l = [].
Proof. rewrite negb_false_iff, bool_decide_eq_true. apply length_zero_iff_nil. Qed.

Lemma OwnerSet_Equal_spec os o : OwnerSet_Equal os o = true ↔ os = o.
Proof.
  unfold OwnerSet_Equal. rewrite negb_true_iff, <-OwnerSet_Diff_nil.
  apply negb_length_nil.
Qed.

Lemma elements_Slice os : Slice os ≡ₚ elements os.
Proof. apply sort_strings_perm. Qed.

Lemma NewOwnerSet_Slice os : NewOwnerSet (Slice os) = os.
Proof.
  rewrite NewOwnerSet_list. apply leibniz_equiv. intros x.
  rewrite elem_of_list_to_set, elements_Slice. apply elem_of_elements.
Qed.

(** A list of owners as [Slice] produces it. *)
Definition owners_sorted (l : list string) : Prop := NoDup l ∧ StronglySorted String.le l.

Lemma Slice_NewOwnerSet l : owners_sorted l → Slice (NewOwnerSet l) = l.
Proof.
  intros [Hnd Hs]. unfold Slice. rewrite NewOwnerSet_list.
  rewrite <-(sort_strings_sorted l Hs) at 2. apply sort_strings_unique.
  by apply elements_list_to_set.
Qed.

(** ** Lemmas: comparing deployments *)

(** What [Deployment.Diff] compares, given equal IDs: versions by precedence,
    the schedule of scheduled jobs only. *)
Record deployment_equiv (d o : Deployment) : Prop := {
  de_id : Deployment_ID d = Deployment_ID o;
  de_source : source_equiv (d_SourceID d) (d_SourceID o);
  de_kind : Kind d = Kind o;
  de_schedule : Kind d = ManifestKindScheduled →
    Schedule (d_DeployConfig d) = Schedule (d_DeployConfig o);
  de_owners : Owners d = Owners o;
  de_config : config_equiv (d_DeployConfig d) (d_DeployConfig o)
}.

Lemma deployment_equiv_refl d : deployment_equiv d d.
Proof. split; [done|apply source_equiv_refl|done|done|done|reflexivity]. Qed.

Lemma deployment_equiv_sym d o : deployment_equiv d o → deployment_equiv o d.
Proof.
  intros [Hi Hs Hk Hsch Ho Hc]. split; try done; [by apply source_equiv_sym| |by apply config_equiv_sym].
  intros Hko. symmetry. apply Hsch. congruence.
Qed.

Definition d_volumes_ok (d : Deployment) : Prop := volumes_ok (dc_Volumes (d_DeployConfig d)).

Lemma Deployment_Diff_ok d o :
  Deployment_ID d = Deployment_ID o → d_volumes_ok d → d_volumes_ok o →
  ∃ diffs, Deployment_Diff d o = Some (negb (bool_decide (length diffs = 0%nat)), diffs) ∧
           (diffs = [] ↔ deployment_equiv d o).
Proof.
  intros Hid Hd Ho. destruct (DeployConfig_Diff_ok _ _ Hd Ho) as (cd&Hcd&Hiff).
  unfold Deployment_Diff. rewrite decide_True, Hcd by done. simpl. eexists. split; [done|].
  rewrite !app_nil, !diff_field_nil, owners_missing_nil, Hiff.
  assert (ClusterName d = ClusterName o) as Hc by exact (f_equal did_Cluster Hid).
  assert (Flavor d = Flavor o) as Hf
    by exact (f_equal (λ i, mid_Flavor (did_ManifestID i)) Hid).
  split.
  - intros (_&Hs&_&Hk&Hsch&Hsz&Hown&Hcfg). split; try done.
    + apply SourceID_Equal_spec. by destruct (SourceID_Equal _ _).
    + intros Hk'. rewrite decide_True in Hsch by done. by apply diff_field_nil in Hsch.
    + apply set_subseteq_size_eq; [done|lia].
  - intros [_ Hs%SourceID_Equal_spec Hk Hsch Hown Hcfg]. rewrite Hs, Hown. split_and!; try done.
    destruct (decide (Kind d = ManifestKindScheduled)) as [Hk2|]; [|done].
    apply diff_field_nil. auto.
Qed.

Lemma Deployment_Diff_self d :
  d_volumes_ok d → Deployment_Diff d d = Some (false, []).
Proof.
  intros Hd. destruct (Deployment_Diff_ok d d eq_refl Hd Hd) as (diffs&->&Hiff).
  assert (diffs = []) as ->; [|done]. apply Hiff.
  apply deployment_equiv_refl.
Qed.

(** ** Properties: deployments *)

(** Two deployments of one ID without nil volumes compare without a panic,
    and are equal exactly when versions, kind, owners and configs agree, and the
    schedule for scheduled jobs; deployments of different IDs panic. *)
Theorem Deployment_Equal_spec (d o : Deployment) :
  d_volumes_ok d → d_volumes_ok o →
  (Deployment_ID d ≠ Deployment_ID o → Deployment_Equal d o = None) ∧
  (Deployment_ID d = Deployment_ID o →
     ∃ b, Deployment_Equal d o = Some b ∧ (b = true ↔ deployment_equiv d o)).
Proof.
  intros Hd Ho. unfold Deployment_Equal. split; intros Hid.
  - unfold Deployment_Diff. by rewrite decide_False.
  - destruct (Deployment_Diff_ok d o Hid Hd Ho) as (diffs&->&Hiff). simpl.
    eexists. split; [done|]. by rewrite negb_true_iff, negb_length_nil.
Qed.

Lemma Deployment_Equal_spec_witness :
  let dep cluster n := mkDeployment
    (mkDeployConfig None None None n [Some (mkVolume "/var/log" "/logs" "RO")] zeroStartup "")
    cluster None (mkSourceID (mkSourceLocation "github.com/opentable/sous" "") zeroVersion) "" ∅
    ManifestKindService in
  Deployment_Equal (dep "left" 1) (dep "right" 1) = None ∧
  ∃ b, Deployment_Equal (dep "left" 1) (dep "left" 2) = Some b ∧
       (b = true ↔ deployment_equiv (dep "left" 1) (dep "left" 2)).
Proof.
  intros dep. assert (∀ cluster n, d_volumes_ok (dep cluster n)) as Hok
    by (intros; apply (bool_decide_unpack _); vm_compute; exact I).
  split.
  - exact (proj1 (Deployment_Equal_spec _ _ (Hok "left" 1) (Hok "right" 1)) ltac:(by intros [=])).
  - exact (proj2 (Deployment_Equal_spec _ _ (Hok "left" 1) (Hok "left" 2)) eq_refl).
Defined.

(** A clone has its original's ID and compares equal to it, and cloning
    makes every map but the metadata non-nil. *)
Theorem Deployment_Clone_spec (d : Deployment) :
  d_volumes_ok d →
  Deployment_ID (Deployment_Clone d) = Deployment_ID d ∧
  Deployment_Diff (Deployment_Clone d) d = Some (false, []) ∧
  is_Some (dc_Env (d_DeployConfig (Deployment_Clone d))).
Proof.
  intros Hd. split_and!; [done| |by eexists].
  destruct (Deployment_Diff_ok (Deployment_Clone d) d eq_refl Hd Hd) as (diffs&->&Hiff).
  assert (diffs = []) as ->; [|done]. apply Hiff. split; try done.
  apply DeployConfig_Clone_equiv.
Qed.

(** The panic of a fold is final. *)
Lemma foldl_None {A B} (f : option B → A → option B) l :
  (∀ x, f None x = None) → foldl f None l = None.
Proof. intros Hf. induction l as [|x l IH]; [done|]. simpl. by rewrite Hf. Qed.

(** [VariancesFrom] panics whenever the other set lacks one of this set's
    deployments: instead of being reported, the missing deployment is compared
    through a nil pointer. *)
Theorem VariancesFrom_missing_panics (ds ods : Deployments) (did : DeploymentID) :
  is_Some (ds !! did) → ods !! did = None → Deployments_VariancesFrom ds ods = None.
Proof.
  intros [d Hd] Ho. unfold Deployments_VariancesFrom.
  apply elem_of_map_to_list, list_elem_of_split in Hd as (l1&l2&->).
  rewrite foldl_app. simpl. destruct (foldl _ _ l1); simpl; rewrite ?Ho; by apply foldl_None; intros [].
Qed.

(** ** Lemmas: comparing manifests *)

Lemma diff_deploy_spec_ok (o : gmap string DeploySpec) cn spec :
  spec_volumes_ok spec → map_Forall (λ _, spec_volumes_ok) o →
  ∃ ds, diff_deploy_spec o cn spec = Some ds ∧
        (ds = [] ↔ ∃ ospec, o !! cn = Some ospec ∧ spec_equiv spec ospec).
Proof.
  intros Hs Ho. unfold diff_deploy_spec. destruct (o !! cn) as [ospec|] eqn:Hcn.
  - destruct (DeploySpec_Diff_ok spec ospec Hs (Ho _ _ Hcn)) as (ds&->&Hiff). simpl.
    eexists. split; [done|]. rewrite <-map_fmap || idtac.
    split; [intros Hm%map_eq_nil; naive_solver|].
    intros (os&[= <-]&He). apply Hiff in He. by subst.
  - eexists. split; [done|]. naive_solver.
Qed.

(** A loop that never panics, and finds nothing exactly when no iteration does. *)
Lemma mapM_concat_nil {A B} (f : A → option (list B)) (P : A → Prop) l :
  (∀ x, x ∈ l → ∃ ds, f x = Some ds ∧ (ds = [] ↔ P x)) →
  ∃ dss, mapM f l = Some dss ∧ (concat dss = [] ↔ Forall P l).
Proof.
  induction l as [|x l IH]; intros Hl; [exists []; split; [done|by split]|].
  destruct (Hl x) as (ds&Hds&Hiff); [set_solver|].
  destruct IH as (dss&Hdss&IH); [intros; apply Hl; set_solver|].
  exists (ds :: dss). simpl. rewrite Hds. simpl. rewrite Hdss. split; [done|].
  by rewrite app_nil, Hiff, IH, Forall_cons.
Qed.

Definition specs_equiv (m o : gmap string DeploySpec) : Prop :=
  ∀ cn, match m !! cn, o !! cn with
        | Some spec, Some ospec => spec_equiv spec ospec
        | None, None => True
        | _, _ => False
        end.

Lemma diff_deploy_specs_ok (m o : gmap string DeploySpec) :
  map_Forall (λ _, spec_volumes_ok) m → map_Forall (λ _, spec_volumes_ok) o →
  ∃ ds, diff_deploy_specs m o = Some ds ∧ (ds = [] ↔ specs_equiv m o).
Proof.
  intros Hm Ho. unfold diff_deploy_specs.
  destruct (mapM_concat_nil (λ '(cn, spec), diff_deploy_spec o cn spec)
    (λ kv, ∃ ospec, o !! kv.1 = Some ospec ∧ spec_equiv kv.2 ospec) (map_to_list m))
    as (dss&->&Hiff).
  { intros [cn spec] Hin%elem_of_map_to_list. apply diff_deploy_spec_ok; [|done]. by eapply Hm. }
  simpl. eexists. split; [done|]. rewrite app_nil, Hiff.
  assert ((λ cn, errorf "extra deployment %q" [AStr cn])
      <$> filter (λ cn, m !! cn = None) ((map_to_list o).*1) = [] ↔
    ∀ cn, is_Some (o !! cn) → is_Some (m !! cn)) as ->.
  { split.
    - intros Hn%fmap_nil_inv cn [s Hs]. destruct (m !! cn) as [|] eqn:Hc; [by eexists|exfalso].
      assert (cn ∈ filter (λ cn, m !! cn = None) ((map_to_list o).*1)) as Hin.
      { apply list_elem_of_filter. split; [done|]. apply list_elem_of_fmap.
        exists (cn, s). by rewrite elem_of_map_to_list. }
      rewrite Hn in Hin. set_solver.
    - intros Hall. destruct (filter _ _) as [|cn l] eqn:Hf; [done|exfalso].
      assert (cn ∈ filter (λ cn, m !! cn = None) ((map_to_list o).*1)) as Hin
        by (rewrite Hf; set_solver).
      apply list_elem_of_filter in Hin as [Hn Hin].
      apply list_elem_of_fmap in Hin as ([k v]&->&Hin). apply elem_of_map_to_list in Hin.
      destruct (Hall k) as [? ?]; [by eexists|]. simpl in *. congruence. }
  rewrite Forall_forall. unfold specs_equiv. split.
  - intros [H1 H2] cn. destruct (m !! cn) as [spec|] eqn:Hc.
    + destruct (H1 (cn, spec)) as (os&Hos&He); [by apply elem_of_map_to_list|].
      simpl in *. by rewrite Hos.
    + destruct (o !! cn) eqn:Hoc; [|done]. destruct (H2 cn) as [? ?]; [by eexists|]. congruence.
  - intros Hall. split.
    + intros [cn spec] Hin%elem_of_map_to_list. specialize (Hall cn). simpl. rewrite Hin in Hall.
      destruct (o !! cn); naive_solver.
    + intros cn [s Hs]. specialize (Hall cn). rewrite Hs in Hall.
      destruct (m !! cn); naive_solver.
Qed.

Lemma specs_equiv_size m o : specs_equiv m o → size m = size o.
Proof.
  intros He. rewrite <-!(size_dom (D:=gset string)). f_equal. apply set_eq. intros cn. rewrite !elem_of_dom.
  specialize (He cn). destruct (m !! cn), (o !! cn); naive_solver.
Qed.

Definition m_volumes_ok (m : Manifest) : Prop :=
  map_Forall (λ _, spec_volumes_ok) (m_Deployments m).

(** Two distinct manifests are equal exactly when they have the same
    source, kind, number of owners and set of owners, the same clusters, and
    equal specs in each.  The flavor, half of a manifest's ID, is not compared. *)
Theorem Manifest_Equal_spec (m o : Manifest) :
  m_volumes_ok m → m_volumes_ok o →
  ∃ b, Manifest_Equal false m o = Some b ∧
       (b = true ↔
          m_Source m = m_Source o ∧ m_Kind m = m_Kind o ∧
          length (m_Owners m) = length (m_Owners o) ∧
          NewOwnerSet (m_Owners m) = NewOwnerSet (m_Owners o) ∧
          specs_equiv (m_Deployments m) (m_Deployments o)).
Proof.
  intros Hm Ho. destruct (diff_deploy_specs_ok _ _ Hm Ho) as (ds&Hds&Hiff).
  unfold Manifest_Equal, Manifest_Diff.
  assert (∃ ds', (if decide (size (m_Deployments m) = size (m_Deployments o))
    then diff_deploy_specs (m_Deployments m) (m_Deployments o)
    else Some [errorf "number of deployments; this: %d; other: %d"
      [AInt (Z.of_nat (size (m_Deployments m))); AInt (Z.of_nat (size (m_Deployments o)))]])
    = Some ds' ∧ (ds' = [] ↔ specs_equiv (m_Deployments m) (m_Deployments o)))
    as (ds'&->&Hiff').
  { case_decide as Hsz; [by exists ds|]. eexists. split; [done|]. split; [done|].
    by intros He%specs_equiv_size. }
  simpl. eexists. split; [done|].
  rewrite negb_true_iff, negb_length_nil, !app_nil, !diff_field_nil, Hiff'.
  case_decide as Hl.
  - pose proof (OwnerSet_Diff_nil (NewOwnerSet (m_Owners m)) (NewOwnerSet (m_Owners o))) as HO.
    cbn in HO. rewrite HO. naive_solver.
  - naive_solver.
Qed.

Lemma Manifest_Equal_spec_witness :
  let config n := mkDeployConfig None None None n [Some (mkVolume "/var/log" "/logs" "RO")] zeroStartup "" in
  let m n := mkManifest (mkSourceLocation "github.com/opentable/sous" "") "neat" ["bob"] ManifestKindService
               {["left" := mkDeploySpec (config n) zeroVersion ""]} in
  ∃ b, Manifest_Equal false (m 1) (m 2) = Some b ∧
    (b = true ↔ m_Source (m 1) = m_Source (m 2) ∧ m_Kind (m 1) = m_Kind (m 2) ∧
       length (m_Owners (m 1)) = length (m_Owners (m 2)) ∧
       NewOwnerSet (m_Owners (m 1)) = NewOwnerSet (m_Owners (m 2)) ∧
       specs_equiv (m_Deployments (m 1)) (m_Deployments (m 2))).
Proof.
  intros config m. apply Manifest_Equal_spec; apply map_Forall_singleton;
    apply (bool_decide_unpack _); vm_compute; exact I.
Defined.

