(* ===== verification/Samples.v ===== *)
(** * A concrete manifest and deployment

    The inputs at which the theorems of the other files are instantiated: one
    service of one repository, in one cluster, with an inherited health check
    and environment variable. *)

From S2P Require Import Prelude GoStrings Flaw Semv Ids Startup DeployConfig CMap Deployment.
#[local] Open Scope string_scope.
#[local] Open Scope Z_scope.
#[local] Open Scope list_scope.

Definition sample_location : SourceLocation := mkSourceLocation "github.com/opentable/wackadoo" "nested/there".
Definition sample_version : Version := mkVersion 1 2 3 "beta.1" "5b8e7a" "M.m.p-?+?".
Definition sample_sid : SourceID := mkSourceID sample_location sample_version.
Definition sample_mid : ManifestID := mkManifestID sample_location "neat".
Definition sample_did : DeploymentID := mkDeploymentID sample_mid "ci-sf".

Definition sample_startup : Startup :=
  mkStartup false 10 60 5 "HTTP" "/health" 0 [500; 503] 5 5 120.

Definition sample_cluster : Cluster :=
  mkCluster "ci-sf" "singularity" "http://singularity.ci-sf" (Some {["HOST" := "ci-sf"]})
    sample_startup ["not_service"].

Definition sample_resources : Resources :=
  Some (<["cpus" := "0.25"]> (<["memory" := "256"]> {["ports" := "2"]})).

Definition sample_volume : Volume := mkVolume "/var/log" "/logs" "RO".

(** The configuration a manifest gives: the rest comes from the cluster. *)
Definition sample_config : DeployConfig :=
  mkDeployConfig sample_resources None (Some {["GREETING" := "hello"]}) 3 [Some sample_volume]
    zeroStartup "".

Definition sample_spec : DeploySpec := mkDeploySpec sample_config sample_version "".

Definition sample_manifest : Manifest :=
  mkManifest sample_location "neat" ["alice@example.com"; "bob@example.com"] ManifestKindService
    {["ci-sf" := sample_spec]}.

(** The deployment it describes. *)
Definition sample_deployment : Deployment :=
  mkDeployment
    (mkDeployConfig sample_resources None (Some (<["GREETING" := "hello"]> {["HOST" := "ci-sf"]})) 3
       [Some sample_volume] sample_startup "")
    "ci-sf" (Some sample_cluster) sample_sid "neat" {["alice@example.com"; "bob@example.com"]}
    ManifestKindService.

Definition with_instances (n : Z) (d : Deployment) : Deployment :=
  let dc := d_DeployConfig d in
  set_DeployConfig (mkDeployConfig (dc_Resources dc) (dc_Metadata dc) (dc_Env dc) n (dc_Volumes dc)
    (dc_Startup dc) (Schedule dc)) d.

Lemma sample_volumes_ok n : d_volumes_ok (with_instances n sample_deployment).
Proof. apply volumes_ok_Some. by exists [sample_volume]. Qed.

Lemma sample_ID n : Deployment_ID (with_instances n sample_deployment) = sample_did.
Proof. done. Qed.

Definition sample_deployments : Deployments := {[sample_did := sample_deployment]}.

Lemma sample_keyed : keyed sample_deployments.
Proof. by apply map_Forall_singleton. Qed.

Lemma sample_manifests_keyed : keyed ({[sample_mid := sample_manifest]} : gmap ManifestID Manifest).
Proof. by apply map_Forall_singleton. Qed.
