(* ===== verification/State.v ===== *)
(** * The global deploy manifest (lib/state.go, lib/map_state_to_deployments.go)

    A state holds definitions and manifests.  [Deployments] expands manifests
    into deployments; [PutbackManifests] folds deployments back into manifests,
    given the old ones. *)

From S2P Require Import Prelude GoStrings Flaw Semv Ids Startup DeployConfig CMap Deployment.
From S2P Require Import Samples.
#[local] Open Scope string_scope.
#[local] Open Scope Z_scope.
#[local] Open Scope list_scope.

(** ** Data *)

Record EnvDef := mkEnvDef { ed_Name : string; ed_Desc : string; ed_Scope : string; ed_Type : string }.
Record FieldDefinition := mkFieldDefinition {
  fd_Name : string; fd_Type : string; fd_Default : string; fd_Optional : bool
}.
Abbreviation Clusters := (gmap string Cluster).

Record Defs := mkDefs {
  DockerRepo : string;
  defs_Clusters : Clusters;
  EnvVars : list EnvDef;
  defs_Resources : list FieldDefinition;
  defs_Metadata : list FieldDefinition
}.

Record State := mkState {
  st_Defs : Defs;
  st_Manifests : Manifests;
  etag : option string
}.

Inductive state_error : Type :=
| ClusterNotDefined (clusterName : string) (manifest : ManifestID)
| ConflictingDeploys (did : DeploymentID)
| NoClusterName
| ClusterNotDescribed (clusterName : string)
| EtagMismatch (checking etag : string)
| NoEtag.

Definition NewState : State := mkState (mkDefs "" ∅ [] [] []) ∅ None.

Definition CheckEtag (s : State) (tag : string) : result state_error () :=
  match etag s with
  | Some e => if decide (tag = e) then Ok () else Err (EtagMismatch tag e)
  | None => Ok ()
  end.

Definition SetEtag (tag : string) (s : State) : State :=
  mkState (st_Defs s) (st_Manifests s) (Some tag).

Definition GetEtag (s : State) : result state_error string :=
  match etag s with Some e => Ok e | None => Err NoEtag end.

(** [Defs.Clone]: the clusters are cloned, the slices copied. *)
Definition Defs_Clone (d : Defs) : Defs :=
  mkDefs (DockerRepo d) (Cluster_Clone <$> defs_Clusters d) (EnvVars d) (defs_Resources d)
    (defs_Metadata d).

Definition State_Clone (s : State) : State :=
  mkState (Defs_Clone (st_Defs s)) (clone_all (st_Manifests s)) (etag s).

Definition Names (cs : Clusters) : list string := sort_strings ((map_to_list cs).*1).

Definition ClusterMap (s : State) : gmap string string := BaseURL <$> defs_Clusters (st_Defs s).
Definition BaseURLs (s : State) : list string :=
  BaseURL <$> (map_to_list (defs_Clusters (st_Defs s))).*2.

(** ** From manifests to deployments *)

Definition set_dc_Env (e : gomap string) (dc : DeployConfig) : DeployConfig :=
  mkDeployConfig (dc_Resources dc) (dc_Metadata dc) e (NumInstances dc) (dc_Volumes dc)
    (dc_Startup dc) (Schedule dc).

Definition BuildDeployment (m : Manifest) (nick : string) (cluster : Cluster)
    (spec : DeploySpec) (inherit : list DeploySpec) : Deployment :=
  let ownMap := NewOwnerSet (m_Owners m) in
  let ds := flattenDeploySpecs (spec :: inherit) in
  let dc := spec_DeployConfig ds in
  let dc := set_Startup (MergeDefaults (c_Startup cluster) (dc_Startup dc)) dc in
  let dc := set_dc_Env (Some (merge_missing (entries (dc_Env dc)) (entries (c_Env cluster)))) dc in
  {| ClusterName := nick; d_Cluster := Some cluster; d_DeployConfig := dc;
     Flavor := m_Flavor m; Owners := ownMap; Kind := m_Kind m;
     d_SourceID := LocationSourceID (m_Source m) (spec_Version ds) |}.

Definition from_manifest_step (defs : Defs) (m : Manifest) '((clusterName, spec) : string * DeploySpec)
    (ds : Deployments) : result state_error Deployments :=
  match defs_Clusters defs !! clusterName with
  | None => Err (ClusterNotDefined clusterName (Manifest_ID m))
  | Some cluster => Ok (add (BuildDeployment m clusterName cluster spec []) ds).1
  end.

Definition DeploymentsFromManifest (defs : Defs) (m : Manifest) : result state_error Deployments :=
  rfold (from_manifest_step defs m) (map_to_list (m_Deployments m)) ∅.

Definition manifests_step (defs : Defs) '((_, m) : ManifestID * Manifest) (ds : Deployments) :
    result state_error Deployments :=
  deployments ← DeploymentsFromManifest defs m;
  match add_all deployments ds with
  | (ds', None) => Ok ds'
  | (_, Some conflict) => Err (ConflictingDeploys conflict)
  end.

Definition Manifests_Deployments (defs : Defs) (ms : Manifests) : result state_error Deployments :=
  rfold (manifests_step defs) (map_to_list ms) ∅.

Definition State_Deployments (s : State) : result state_error Deployments :=
  Manifests_Deployments (st_Defs s) (st_Manifests s).

(** ** From deployments to manifests

    The loops run over the deployments in Go's unspecified map order, which
    decides whose owners and whose kind a manifest gets: the order is an
    argument, a permutation of the deployments' entries. *)

Abbreviation order := (list (DeploymentID * Deployment)).

(** The cluster of a deployment: its own, or the one defined by its name. *)
Definition deployment_cluster (defs : Defs) (d : Deployment) : result state_error Cluster :=
  if decide (ClusterName d = "") then Err NoClusterName
  else match d_Cluster d with
       | Some c => Ok c
       | None =>
           match defs_Clusters defs !! ClusterName d with
           | Some c => Ok c
           | None => Err (ClusterNotDescribed (ClusterName d))
           end
       end.

(** The manifest being assembled for a deployment, or a new one. *)
Definition manifest_for (ms : Manifests) (d : Deployment) : Manifest :=
  match ms !! Deployment_ManifestID d with
  | Some m => m
  | None => SetID (Deployment_ManifestID d) (mkManifest zeroLocation "" (Slice (Owners d)) "" ∅)
  end.

(** Environment variables that only repeat the cluster's are dropped, unless the
    old manifest had them. *)
Definition redundant (cluster : Cluster) (oldSpec : option DeploySpec) (k v : string) : bool :=
  match entries (c_Env cluster) !! k with
  | None => false
  | Some clusterVal =>
      if decide (clusterVal = v) then
        match oldSpec with
        | Some old => bool_decide (entries (dc_Env (spec_DeployConfig old)) !! k = None)
        | None => true
        end
      else false
  end.

Definition unmerge_env (cluster : Cluster) (oldSpec : option DeploySpec)
    (env : gmap string string) : gmap string string :=
  filter (λ kv, redundant cluster oldSpec kv.1 kv.2 = false) env.

Definition putback_spec (cluster : Cluster) (oldSpec : option DeploySpec) (d : Deployment) :
    DeploySpec :=
  let dc := DeployConfig_Clone (d_DeployConfig d) in
  let old := default zeroSpec oldSpec in
  let dc := set_Startup (UnmergeDefaults (c_Startup cluster) (dc_Startup dc)
                           (dc_Startup (spec_DeployConfig old))) dc in
  let dc := set_dc_Env (Some (unmerge_env cluster oldSpec (entries (dc_Env dc)))) dc in
  mkDeploySpec dc (sid_Version (d_SourceID d)) "".

Definition set_deployment (cn : string) (spec : DeploySpec) (kind : string) (m : Manifest) :
    Manifest :=
  mkManifest (m_Source m) (m_Flavor m) (m_Owners m) kind (<[cn := spec]> (m_Deployments m)).

Definition putback_step (defs : Defs) (olds : Manifests) '((_, d) : DeploymentID * Deployment)
    (ms : Manifests) : result state_error Manifests :=
  cluster ← deployment_cluster defs d;
  let mid := Deployment_ManifestID d in
  let oldSpec := old ← olds !! mid; m_Deployments old !! ClusterName d in
  let m := set_deployment (ClusterName d) (putback_spec cluster oldSpec d) (Kind d)
             (manifest_for ms d) in
  Ok (<[mid := m]> ms).

(** The closing loop stores every manifest where it already is. *)
Definition restore_all (ms : Manifests) : Manifests :=
  foldl (λ acc k, match acc !! k with Some m => <[k := m]> acc | None => acc end) ms
    ((map_to_list ms).*1).

Definition PutbackManifests (defs : Defs) (olds : Manifests) (ds : order) :
    result state_error Manifests :=
  ms ← rfold (putback_step defs olds) ds ∅; Ok (restore_all ms).

Definition raw_step (defs : Defs) '((_, d) : DeploymentID * Deployment) (ms : Manifests) :
    result state_error Manifests :=
  _ ← deployment_cluster defs d;
  let spec := mkDeploySpec (DeployConfig_Clone (d_DeployConfig d)) (sid_Version (d_SourceID d)) "" in
  Ok (<[Deployment_ManifestID d :=
         set_deployment (ClusterName d) spec (Kind d) (manifest_for ms d)]> ms).

Definition RawManifests (defs : Defs) (ds : order) : result state_error Manifests :=
  ms ← rfold (raw_step defs) ds ∅; Ok (restore_all ms).

(** [UpdateDeployments]: [perm] is the map order in which the merged deployments
    are put back. *)
Definition UpdateDeployments (perm : Deployments → order) (s : State) (ds : list Deployment) :
    result state_error State :=
  stateDeps ← State_Deployments s;
  let stateDeps := foldl (λ acc d, <[Deployment_ID d := d]> acc) stateDeps ds in
  newManifests ← PutbackManifests (st_Defs s) (st_Manifests s) (perm stateDeps);
  Ok (mkState (st_Defs s) newManifests (etag s)).

(** ** Validation *)

(** Flaws of a manifest or a deployment of the state.  Deployments are expanded
    into fresh objects, but for the arrays of their volumes: what repairing their
    flaws does to the state is described with [repairState], in [Storage]. *)
Definition State_Validate (s : State) : list text :=
  let flaws := concat ((λ m, Desc <$> Manifest_Validate m) <$> (map_to_list (st_Manifests s)).*2) in
  match State_Deployments s with
  | Err _ => [Lit "Cannot merge a set of deployments to validate: %v"]
  | Ok ds => flaws ++ concat ((λ d, Desc <$> Deployment_Validate d) <$> (map_to_list ds).*2)
  end.

(** ** Lemmas: expanding *)

Lemma BuildDeployment_ID m nick cluster spec :
  Deployment_ID (BuildDeployment m nick cluster spec []) = mkDeploymentID (Manifest_ID m) nick.
Proof. done. Qed.

Lemma BuildDeployment_config m nick cluster spec :
  d_DeployConfig (BuildDeployment m nick cluster spec []) =
    let dc := with_maps (spec_DeployConfig spec) in
    set_dc_Env (Some (entries (dc_Env dc) ∪ entries (c_Env cluster)))
      (set_Startup (MergeDefaults (c_Startup cluster) (dc_Startup dc)) dc).
Proof. unfold BuildDeployment. cbn zeta. rewrite flatten_specs_single. simpl. by rewrite merge_missing_union. Qed.

Lemma BuildDeployment_source m nick cluster spec :
  d_SourceID (BuildDeployment m nick cluster spec []) =
    mkSourceID (m_Source m) (spec_Version spec).
Proof. unfold BuildDeployment. cbn zeta. by rewrite flatten_specs_single. Qed.

(** The deployment a manifest describes for a cluster. *)
Definition described (defs : Defs) (m : Manifest) (cn : string) (d : Deployment) : Prop :=
  ∃ spec cluster, m_Deployments m !! cn = Some spec ∧
    defs_Clusters defs !! cn = Some cluster ∧ d = BuildDeployment m cn cluster spec [].

Lemma described_functional defs m cn d d' :
  described defs m cn d → described defs m cn d' → d = d'.
Proof. intros (?&?&?&?&->) (?&?&?&?&->). by simplify_eq. Qed.

(** What a loop over part [dn] of a manifest's clusters has built. *)
Lemma DeploymentsFromManifest_spec defs m ds :
  DeploymentsFromManifest defs m = Ok ds →
  ∀ did d, ds !! did = Some d ↔
    did_ManifestID did = Manifest_ID m ∧ described defs m (did_Cluster did) d.
Proof.
  unfold DeploymentsFromManifest. intros Hr.
  set (P := λ (dn : list (string * DeploySpec)) (acc : Deployments),
    (∀ x, x ∈ dn → x ∈ map_to_list (m_Deployments m)) ∧
    ∀ did d, acc !! did = Some d ↔ did_ManifestID did = Manifest_ID m ∧
      did_Cluster did ∈ dn.*1 ∧ described defs m (did_Cluster did) d).
  enough (P (map_to_list (m_Deployments m)) ds) as [_ HP].
  { intros did d. rewrite HP. split; [naive_solver|]. intros [Hm Hd]. split_and!; try done.
    destruct Hd as (spec&cluster&Hs&_). apply list_elem_of_fmap.
    exists (did_Cluster did, spec). by rewrite elem_of_map_to_list. }
  eapply rfold_inv; [|..|exact Hr].
  { split; [set_solver|]. intros did d. rewrite lookup_empty. set_solver. }
  intros dn [cn spec] acc acc' Hin [Hsub HP] Hstep. unfold from_manifest_step in Hstep.
  destruct (defs_Clusters defs !! cn) as [cluster|] eqn:Hc; [|done]. simplify_eq.
  split; [set_solver|]. pose proof Hin as Hs. apply elem_of_map_to_list in Hs.
  set (d0 := BuildDeployment m cn cluster spec []).
  assert (described defs m cn d0) as Hd0 by by exists spec, cluster.
  intros did d. unfold add. change (ID d0) with (mkDeploymentID (Manifest_ID m) cn).
  rewrite fmap_app. setoid_rewrite elem_of_app. simpl.
  destruct (decide (did = mkDeploymentID (Manifest_ID m) cn)) as [->|Hne].
  - simpl. destruct (acc !! mkDeploymentID (Manifest_ID m) cn) as [d1|] eqn:Ha; simpl.
    + rewrite Ha. apply HP in Ha as (_&Hcn&Hd1). split.
      * intros [= <-]. auto.
      * intros (_&_&Hd). f_equal. by eapply described_functional.
    + rewrite lookup_insert_eq. split.
      * intros [= <-]. set_solver.
      * intros (_&_&Hd). f_equal. by eapply described_functional.
  - assert (did_ManifestID did = Manifest_ID m → did_Cluster did ≠ cn) as Hne'.
    { destruct did as [mid cn']; simpl. intros -> ->. done. }
    destruct (acc !! _); simpl; rewrite ?lookup_insert_ne by done; rewrite HP; set_solver.
Qed.

Definition all_described (defs : Defs) (ms : Manifests) (ds : Deployments) : Prop :=
  ∀ did d, ds !! did = Some d ↔
    ∃ m, ms !! did_ManifestID did = Some m ∧ described defs m (did_Cluster did) d.

Lemma Manifests_Deployments_spec defs ms ds :
  keyed ms → Manifests_Deployments defs ms = Ok ds → all_described defs ms ds.
Proof.
  unfold Manifests_Deployments. intros Hk Hr.
  set (P := λ (dn : list (ManifestID * Manifest)) (acc : Deployments),
    (∀ x, x ∈ dn → x ∈ map_to_list ms) ∧
    ∀ did d, acc !! did = Some d ↔ ∃ m, (did_ManifestID did, m) ∈ dn ∧
      described defs m (did_Cluster did) d).
  enough (P (map_to_list ms) ds) as [_ HP].
  { intros did d. rewrite HP. by setoid_rewrite elem_of_map_to_list. }
  eapply rfold_inv; [|..|exact Hr].
  { split; [set_solver|]. intros did d. rewrite lookup_empty. set_solver. }
  intros dn [mid m] acc acc' Hin [Hsub HP] Hstep. unfold manifests_step in Hstep.
  destruct (DeploymentsFromManifest defs m) as [new|] eqn:Hnew; [|done]. simpl in Hstep.
  pose proof (DeploymentsFromManifest_spec _ _ _ Hnew) as Hspec.
  assert (Manifest_ID m = mid) as Hmid by (apply (Hk mid m); by apply elem_of_map_to_list).
  destruct (add_all new acc) as [acc1 [c|]] eqn:Hadd; simplify_eq.
  assert (new ##ₘ acc) as Hdis.
  { apply conflict_None. unfold add_all in Hadd. by destruct (conflict new acc). }
  rewrite add_all_ok in Hadd by done. simplify_eq.
  split; [set_solver|]. intros did d. rewrite lookup_union_Some by done.
  rewrite Hspec, HP. setoid_rewrite elem_of_app. setoid_rewrite list_elem_of_singleton. split.
  - intros [[Hm Hd]|(m'&Hm'&Hd)]; [exists m; rewrite Hm; auto|exists m'; auto].
  - intros (m'&[Hm'|Hm']&Hd); [by right; exists m'|left]. by simplify_eq.
Qed.

(** ** Lemmas: expanding succeeds *)

(** Every cluster a manifest names is defined. *)
Definition clusters_defined (defs : Defs) (m : Manifest) : Prop :=
  ∀ cn spec, m_Deployments m !! cn = Some spec → is_Some (defs_Clusters defs !! cn).

Lemma all_described_keyed defs ms ds : keyed ms → all_described defs ms ds → keyed ds.
Proof.
  intros Hk Hall did d (m&Hm&spec&cluster&_&_&->)%Hall. change (ID ?x) with (Deployment_ID x).
  rewrite BuildDeployment_ID. pose proof (Hk _ _ Hm) as Hid.
  assert (Manifest_ID m = did_ManifestID did) as -> by exact Hid. by destruct did.
Qed.

Lemma DeploymentsFromManifest_ok defs m :
  clusters_defined defs m ↔ ∃ ds, DeploymentsFromManifest defs m = Ok ds.
Proof.
  split.
  - intros Hc. destruct (rfold_total (from_manifest_step defs m) (λ _ _, True)
      (map_to_list (m_Deployments m)) ∅) as (ds&Hds&_); [done| |by exists ds].
    intros dn [cn spec] rest acc Heq _. unfold from_manifest_step.
    destruct (Hc cn spec) as [cluster ->]; [|by eexists].
    apply elem_of_map_to_list. rewrite Heq. set_solver.
  - intros [ds Hds] cn spec Hcn.
    apply elem_of_map_to_list, list_elem_of_split in Hcn as (l1&l2&Hl).
    unfold DeploymentsFromManifest in Hds. rewrite Hl, rfold_app in Hds.
    destruct (rfold _ l1 ∅); simpl in Hds; [|done].
    destruct (defs_Clusters defs !! cn); [by eexists|done].
Qed.

Lemma Manifests_Deployments_ok defs ms :
  keyed ms → map_Forall (λ _, clusters_defined defs) ms →
  ∃ ds, Manifests_Deployments defs ms = Ok ds.
Proof.
  intros Hk Hc.
  destruct (rfold_total (manifests_step defs)
    (λ dn acc, ∀ did d, acc !! did = Some d → did_ManifestID did ∈ dn.*1)
    (map_to_list ms) ∅) as (ds&Hds&_); [| |by exists ds].
  { intros did d. by rewrite lookup_empty. }
  intros dn [mid m] rest acc Heq HP.
  assert (ms !! mid = Some m) as Hmid by (apply elem_of_map_to_list; rewrite Heq; set_solver).
  destruct (proj1 (DeploymentsFromManifest_ok defs m) (Hc _ _ Hmid)) as [new Hnew].
  unfold manifests_step. rewrite Hnew. simpl.
  pose proof (DeploymentsFromManifest_spec _ _ _ Hnew) as Hspec.
  pose proof (Hk _ _ Hmid) as Hid. assert (Manifest_ID m = mid) as Hid' by exact Hid.
  assert (mid ∉ dn.*1) as Hnot.
  { pose proof (NoDup_fst_map_to_list ms) as Hnd. rewrite Heq, fmap_app in Hnd.
    apply NoDup_app in Hnd as (_&Hnd&_). intros Hin. apply (Hnd _ Hin). set_solver. }
  assert (new ##ₘ acc) as Hdis.
  { apply map_disjoint_spec. intros did d d' Hn%Hspec Ha%HP. destruct Hn as [Hn _].
    rewrite Hn, Hid' in Ha. done. }
  rewrite add_all_ok by done. eexists. split; [done|].
  intros did d [Hn|Ha]%lookup_union_Some; [| |done]; rewrite fmap_app; set_solver.
Qed.

Definition sample_defs : Defs := mkDefs "" {["ci-sf" := sample_cluster]} [] [] [].

Lemma sample_clusters_defined : clusters_defined sample_defs sample_manifest.
Proof.
  intros cn spec Hcn. change (({["ci-sf" := sample_spec]} : gmap string DeploySpec) !! cn = Some spec) in Hcn.
  apply lookup_singleton_Some in Hcn as [<- _]. by eexists.
Qed.

(** The manifests expand exactly when each cluster they name is defined, and
    then to one deployment per manifest and cluster, under its own ID: an
    expansion never conflicts with itself. *)
Theorem Manifests_Deployments_complete (defs : Defs) (ms : Manifests) :
  keyed ms → map_Forall (λ _, clusters_defined defs) ms →
  ∃ ds, Manifests_Deployments defs ms = Ok ds ∧ keyed ds ∧ all_described defs ms ds ∧
    ∀ did, is_Some (ds !! did) ↔
      ∃ m, ms !! did_ManifestID did = Some m ∧ is_Some (m_Deployments m !! did_Cluster did).
Proof.
  intros Hk Hc. destruct (Manifests_Deployments_ok defs ms Hk Hc) as [ds Hds].
  pose proof (Manifests_Deployments_spec _ _ _ Hk Hds) as Hall.
  exists ds. split_and!; [done|by eapply all_described_keyed|done|].
  - intros did. split.
    + intros [d (m&Hm&spec&?&Hs&_)%Hall]. by exists m.
    + intros (m&Hm&spec&Hs). destruct (Hc _ _ Hm _ _ Hs) as [cluster Hcl].
      exists (BuildDeployment m (did_Cluster did) cluster spec []). apply Hall.
      exists m. split; [done|]. by exists spec, cluster.
Qed.

Lemma Manifests_Deployments_complete_witness :
  let defs := sample_defs in
  let ms := {[sample_mid := sample_manifest]} : Manifests in
  ∃ ds, Manifests_Deployments defs ms = Ok ds ∧ keyed ds ∧ all_described defs ms ds ∧
    ∀ did, is_Some (ds !! did) ↔
      ∃ m, ms !! did_ManifestID did = Some m ∧ is_Some (m_Deployments m !! did_Cluster did).
Proof.
  intros defs ms. apply Manifests_Deployments_complete; [apply sample_manifests_keyed|].
  apply map_Forall_singleton. apply sample_clusters_defined.
Defined.


(** ** Lemmas: putting back *)

Lemma restore_all_id ms : restore_all ms = ms.
Proof.
  unfold restore_all. induction ((map_to_list ms).*1) as [|k l IH]; [done|]. simpl.
  destruct (ms !! k) eqn:Hk; [|done]. by rewrite insert_id.
Qed.

(** What a manifest's spec looks like after a round trip: its maps are non-nil. *)
Definition norm_spec (spec : DeploySpec) : DeploySpec :=
  mkDeploySpec (with_maps (spec_DeployConfig spec)) (spec_Version spec) "".
Definition norm_manifest (m : Manifest) : Manifest :=
  mkManifest (m_Source m) (m_Flavor m) (m_Owners m) (m_Kind m) (norm_spec <$> m_Deployments m).

Lemma unmerge_env_merged cluster spec :
  unmerge_env cluster (Some spec)
    (entries (dc_Env (spec_DeployConfig spec)) ∪ entries (c_Env cluster)) =
  entries (dc_Env (spec_DeployConfig spec)).
Proof.
  set (env := entries (dc_Env (spec_DeployConfig spec))). apply map_eq. intros k.
  apply option_eq. intros v. unfold unmerge_env. rewrite map_lookup_filter_Some. simpl.
  unfold redundant. fold env. rewrite lookup_union.
  destruct (env !! k) as [w|] eqn:He.
  - rewrite union_Some_l. split; [by intros [? _]|]. intros [= <-]. split; [done|].
    by destruct (entries (c_Env cluster) !! k); [case_decide|].
  - rewrite (left_id_L None (∪)). destruct (entries (c_Env cluster) !! k) as [c|]; [|naive_solver].
    split; [|done]. intros [[= ->] Hr]. by rewrite decide_True in Hr.
Qed.

(** The spec put back for a described deployment is the manifest's own. *)
Lemma putback_spec_described m nick cluster spec :
  putback_spec cluster (Some spec) (BuildDeployment m nick cluster spec []) = norm_spec spec.
Proof.
  unfold putback_spec, norm_spec. rewrite BuildDeployment_config, BuildDeployment_source.
  cbn zeta. simpl. rewrite unmerge_merge, unmerge_env_merged. done.
Qed.

(** ** The round trip

    A manifest that is written the way [PutbackManifests] writes manifests: it
    has a deployment, its owners are sorted and distinct, and its clusters are
    named and defined. *)
Record canonical (defs : Defs) (m : Manifest) : Prop := {
  can_deployed : m_Deployments m ≠ ∅;
  can_owners : owners_sorted (m_Owners m);
  can_named : m_Deployments m !! "" = None;
  can_defined : clusters_defined defs m
}.

Section Roundtrip.
Context (defs : Defs) (ms : Manifests) (ds : Deployments).
Context (Hkeyed : keyed ms) (Hcan : map_Forall (λ _, canonical defs) ms).
Context (Hall : all_described defs ms ds).

(** What is put back of a manifest once the deployments [dn] were seen. *)
Definition done_specs (mid : ManifestID) (m : Manifest) (dn : list DeploymentID) :
    gmap string DeploySpec :=
  norm_spec <$> filter (λ kv, mkDeploymentID mid kv.1 ∈ dn) (m_Deployments m).

Definition rebuilt (m : Manifest) (deps : gmap string DeploySpec) : Manifest :=
  mkManifest (m_Source m) (m_Flavor m) (m_Owners m) (m_Kind m) deps.

Definition expected (dn : list DeploymentID) (mid : ManifestID) : option Manifest :=
  m ← ms !! mid;
  if decide (done_specs mid m dn = ∅) then None else Some (rebuilt m (done_specs mid m dn)).

Lemma done_specs_other mid m dn did :
  did_ManifestID did ≠ mid → done_specs mid m (dn ++ [did]) = done_specs mid m dn.
Proof using.
  intros Hne. unfold done_specs. f_equal. apply map_filter_ext. intros cn spec _. simpl.
  rewrite elem_of_app, list_elem_of_singleton. split; [|auto].
  intros [?|Heq]; [done|]. by subst did.
Qed.

Lemma done_specs_step m dn did spec :
  m_Deployments m !! did_Cluster did = Some spec →
  done_specs (did_ManifestID did) m (dn ++ [did]) =
    <[did_Cluster did := norm_spec spec]> (done_specs (did_ManifestID did) m dn).
Proof using.
  intros Hs. apply map_eq. intros cn. apply option_eq. intros s. unfold done_specs.
  destruct did as [mid c]; simpl in *.
  rewrite lookup_fmap, fmap_Some. setoid_rewrite map_lookup_filter_Some. simpl.
  setoid_rewrite elem_of_app. setoid_rewrite list_elem_of_singleton.
  destruct (decide (cn = c)) as [->|Hne].
  - rewrite lookup_insert_eq. rewrite Hs. naive_solver.
  - rewrite lookup_insert_ne, lookup_fmap, fmap_Some by done.
    setoid_rewrite map_lookup_filter_Some. naive_solver.
Qed.

Lemma done_specs_nil mid m : done_specs mid m [] = ∅.
Proof using.
  unfold done_specs. apply fmap_empty_iff, map_empty. intros cn.
  apply map_lookup_filter_None. right. intros s _ Hin. by apply not_elem_of_nil in Hin.
Qed.

(** The manifest a described deployment is added to. *)
Lemma manifest_for_expected acc dn mid m cn d :
  (∀ mid, acc !! mid = expected dn mid) → ms !! mid = Some m → described defs m cn d →
  ∃ k, manifest_for acc d =
    mkManifest (m_Source m) (m_Flavor m) (m_Owners m) k (done_specs mid m dn).
Proof using Hkeyed Hcan.
  intros Hacc Hm (spec&cluster&Hs&Hc&->).
  assert (Manifest_ID m = mid) as Hid by exact (Hkeyed _ _ Hm).
  unfold manifest_for, Deployment_ManifestID. rewrite BuildDeployment_source. simpl.
  change (mkManifestID (m_Source m) (m_Flavor m)) with (Manifest_ID m).
  rewrite Hid, Hacc. unfold expected. rewrite Hm. simpl. case_decide as Hd; [|by eexists].
  rewrite Hd. exists "". unfold SetID. simpl. rewrite <-Hid at 1 2. simpl.
  rewrite Slice_NewOwnerSet; [done|]. by apply (Hcan _ _ Hm).
Qed.

Lemma putback_step_expected acc dn did d :
  (∀ mid, acc !! mid = expected dn mid) → ds !! did = Some d →
  ∃ acc', putback_step defs ms (did, d) acc = Ok acc' ∧
          ∀ mid, acc' !! mid = expected (dn ++ [did]) mid.
Proof using Hkeyed Hcan Hall.
  intros Hacc Hd. apply Hall in Hd as (m&Hm&Hdesc).
  destruct (manifest_for_expected _ _ _ _ _ _ Hacc Hm Hdesc) as [k Hfor].
  destruct Hdesc as (spec&cluster&Hs&Hc&->).
  assert (Manifest_ID m = did_ManifestID did) as Hid by exact (Hkeyed _ _ Hm).
  assert (Deployment_ManifestID (BuildDeployment m (did_Cluster did) cluster spec [])
    = did_ManifestID did) as Hmid.
  { unfold Deployment_ManifestID. rewrite BuildDeployment_source. exact Hid. }
  unfold putback_step, deployment_cluster. change (ClusterName (BuildDeployment m ?n _ _ _)) with n.
  rewrite decide_False.
  2: { intros He. pose proof (can_named _ _ (Hcan _ _ Hm)) as Hn. rewrite He in Hs. congruence. }
  change (d_Cluster _) with (Some cluster). cbn [mbind result_bind].
  rewrite Hmid, Hm. cbn [mbind option_bind]. rewrite Hs, putback_spec_described, Hfor.
  eexists. split; [done|]. intros mid. unfold expected.
  destruct (decide (mid = did_ManifestID did)) as [->|Hne].
  - rewrite lookup_insert_eq, Hm. simpl. rewrite (done_specs_step m dn did spec) by done.
    rewrite decide_False by apply insert_non_empty. done.
  - rewrite lookup_insert_ne by done. rewrite Hacc. unfold expected.
    destruct (ms !! mid) as [m'|]; [|done]. simpl. by rewrite done_specs_other.
Qed.

(** Everything was seen: the manifests are complete. *)
Lemma expected_all l mid :
  l ≡ₚ map_to_list ds → expected l.*1 mid = norm_manifest <$> ms !! mid.
Proof using Hkeyed Hcan Hall.
  intros Hl. unfold expected. destruct (ms !! mid) as [m|] eqn:Hm; [|done]. simpl.
  assert (done_specs mid m l.*1 = norm_spec <$> m_Deployments m) as ->.
  { unfold done_specs. f_equal. apply map_filter_id. intros cn spec Hs. simpl.
    rewrite Hl. destruct (can_defined _ _ (Hcan _ _ Hm) _ _ Hs) as [cluster Hc].
    apply list_elem_of_fmap. exists (mkDeploymentID mid cn, BuildDeployment m cn cluster spec []).
    split; [done|]. apply elem_of_map_to_list, Hall. exists m. split; [done|].
    by exists spec, cluster. }
  rewrite decide_False; [done|]. rewrite fmap_empty_iff. apply (can_deployed _ _ (Hcan _ _ Hm)).
Qed.

Lemma putback_expected l :
  l ≡ₚ map_to_list ds → PutbackManifests defs ms l = Ok (norm_manifest <$> ms).
Proof using Hkeyed Hcan Hall.
  intros Hl. unfold PutbackManifests.
  destruct (rfold_total (putback_step defs ms)
    (λ dn acc, ∀ mid, acc !! mid = expected dn.*1 mid) l ∅) as (ms'&->&HP).
  - intros mid. rewrite lookup_empty. unfold expected. destruct (ms !! mid); [|done].
    simpl. by rewrite done_specs_nil, decide_True.
  - intros dn [did d] rest acc Heq HP.
    destruct (putback_step_expected acc dn.*1 did d HP) as (acc'&Hacc&HP').
    { apply elem_of_map_to_list. rewrite <-Hl, Heq. set_solver. }
    exists acc'. split; [done|]. by rewrite fmap_app.
  - simpl. rewrite restore_all_id. f_equal. apply map_eq. intros mid.
    rewrite HP, lookup_fmap. by apply expected_all.
Qed.
End Roundtrip.

(** C1.  Expanding manifests into deployments and putting these back, in whatever
    order the map yields them, gives the manifests back (with nil maps made
    empty): neither cluster defaults nor inherited environment variables leak
    into a manifest, and what a manifest repeats of them is not lost. *)
Theorem PutbackManifests_Deployments (defs : Defs) (ms : Manifests) :
  keyed ms → map_Forall (λ _, canonical defs) ms →
  ∃ ds, Manifests_Deployments defs ms = Ok ds ∧
    ∀ l, l ≡ₚ map_to_list ds → PutbackManifests defs ms l = Ok (norm_manifest <$> ms).
Proof.
  intros Hk Hc. destruct (Manifests_Deployments_ok defs ms Hk) as [ds Hds].
  { intros mid m Hm. by apply (Hc mid). }
  exists ds. split; [done|]. intros l Hl.
  apply (putback_expected defs ms ds); try done. by apply Manifests_Deployments_spec.
Qed.

Lemma PutbackManifests_Deployments_witness :
  let defs := sample_defs in
  let ms := {[sample_mid := sample_manifest]} : Manifests in
  ∃ ds, Manifests_Deployments defs ms = Ok ds ∧
    PutbackManifests defs ms (map_to_list ds) = Ok (norm_manifest <$> ms).
Proof.
  intros defs ms. destruct (PutbackManifests_Deployments defs ms) as (ds&Hds&Hback).
  - apply sample_manifests_keyed.
  - apply map_Forall_singleton. split; [done| |reflexivity|].
    { split; [apply (bool_decide_unpack _); vm_compute; exact I|]. repeat constructor. }
    apply sample_clusters_defined.
  - exists ds. split; [done|]. by apply Hback.
Defined.

