(* ===== verification/Differ.v ===== *)
(** * Differences between deployment sets (lib/deployment_diff.go,
    deployable_pair.go, deployable.go, deployable_chans.go, buildpack.go)

    Comparing the deploy states that run with the deployments that are intended
    gives a stream of pairs, prior and post.  A channel that a differ writes and
    then closes is the list of what was sent on it. *)

From S2P Require Import Prelude GoStrings Flaw Semv Ids Startup DeployConfig CMap Deployment.
From S2P Require Import Samples.
#[local] Open Scope string_scope.
#[local] Open Scope Z_scope.
#[local] Open Scope list_scope.

(** ** Data *)

Record Quality := mkQuality { q_Name : string; q_Kind : string }.
Record BuildArtifact := mkBuildArtifact {
  ba_Name : string; ba_Type : string; Qualities : list Quality
}.

Record Deployable := mkDeployable {
  Status : DeployStatus;
  dep_Deployment : Deployment;
  dep_BuildArtifact : option BuildArtifact
}.

(** [UUID], sixteen bytes, is [None] for the nil UUID. *)
Record DeployablePair := mkDeployablePair {
  Prior : option Deployable;
  Post : option Deployable;
  pair_name : DeploymentID;
  pair_ExecutorData : ExecutorData;
  UUID : option (list ascii)
}.

Inductive DeployablePairKind : Type := SameKind | AddedKind | RemovedKind | ModifiedKind.
#[export] Instance DeployablePairKind_eq_dec : EqDecision DeployablePairKind.
Proof. solve_decision. Defined.

Definition Kind_String (kind : DeployablePairKind) : string :=
  match kind with
  | SameKind => "same" | AddedKind => "added" | RemovedKind => "removed"
  | ModifiedKind => "modified"
  end.

Abbreviation ResolutionType := string.
Definition StableDiff : ResolutionType := "unchanged".
Definition ComingDiff : ResolutionType := "coming".
Definition CreateDiff : ResolutionType := "created".
Definition ModifyDiff : ResolutionType := "updated".
Definition DeleteDiff : ResolutionType := "deleted".

Definition ExpectedResolutionType (kind : DeployablePairKind) : ResolutionType :=
  match kind with
  | SameKind => StableDiff | AddedKind => CreateDiff | RemovedKind => DeleteDiff
  | ModifiedKind => ModifyDiff
  end.

Definition ResolveVerb (kind : DeployablePairKind) : string :=
  match kind with
  | SameKind => "take no action" | AddedKind => "create new deployment"
  | RemovedKind => "delete existing deployment" | ModifiedKind => "update existing deployment"
  end.

(** ** Kinds of pairs *)

Definition Deployable_diffs (prior post : Deployable) : option (list text) :=
  '(_, diffs) ← Deployment_Diff (dep_Deployment prior) (dep_Deployment post);
  Some (diffs ++ diff_field "status prior: %s; post: %s"
                   (λ s, AStr (DeployStatus_String s)) (Status prior) (Status post)).

(** [Diffs] panics on a pair that lacks a side. *)
Definition Diffs (dp : DeployablePair) : option (list text) :=
  prior ← Prior dp; post ← Post dp; Deployable_diffs prior post.

Definition pair_Kind (dp : DeployablePair) : option DeployablePairKind :=
  match Prior dp with
  | None => Some AddedKind
  | Some _ =>
      match Post dp with
      | None => Some RemovedKind
      | Some _ =>
          diffs ← Diffs dp;
          Some (if decide (length diffs = 0%nat) then SameKind else ModifiedKind)
      end
  end.

(** ** The differs *)

Definition new_pair (prior post : option Deployable) (name : DeploymentID)
    (data : ExecutorData) : DeployablePair :=
  {| Prior := prior; Post := post; pair_name := name; pair_ExecutorData := data; UUID := None |}.

Definition of_state (ds : DeployState) : Deployable :=
  mkDeployable (ds_Status ds) (ds_Deployment ds) None.

(** [makeDeployablePair]: [intendedDS] is [None] when it does not exist. *)
Definition makeDeployablePair (id : DeploymentID) (existingDS : DeployState)
    (intendedDS : option DeployState) : DeployablePair :=
  new_pair (of_state <$> intendedDS) (Some (of_state existingDS)) id
    (match intendedDS with Some i => ds_ExecutorData i | None => NoData end).

Definition removed_pair (deletedDS : DeployState) : DeployablePair :=
  new_pair (Some (of_state deletedDS)) None (DeployState_ID deletedDS) (ds_ExecutorData deletedDS).

Definition promoteAll (d : Deployments) (to : DeployStatus) : DeployStates :=
  map_fold (λ _ ad rds, (add (mkDeployState ad to "" NoData "") rds).1) ∅ d.

(** The start map of a differ, keyed by the values' own names. *)
Definition start_map (i : DeployStates) : DeployStates :=
  map_fold (λ _ dep acc, <[DeployState_ID dep := dep]> acc) ∅ i.

(** One iteration over the existing deployments: the pair sent, and the start
    map without the entry. *)
Definition state_diff_step '((id, existingDS) : DeploymentID * DeployState)
    '((out, from) : list DeployablePair * DeployStates) : list DeployablePair * DeployStates :=
  (out ++ [makeDeployablePair id existingDS (from !! id)], delete id from).

Section Differs.
(** The order in which a range loop visits a map. *)
Context (range : ∀ V, gmap DeploymentID V → list (DeploymentID * V)).
Context (range_perm : ∀ V (m : gmap DeploymentID V), range V m ≡ₚ map_to_list m).

Definition stateDiffer_diff (from existing : DeployStates) : list DeployablePair :=
  let '(out, rest) := foldl (λ acc x, state_diff_step x acc) ([], from) (range _ existing) in
  out ++ (removed_pair <$> (range _ rest).*2).

(** [DeployStates.Diff]: what the channel of pairs carries. *)
Definition DeployStates_Diff (d : DeployStates) (other : Deployments) : list DeployablePair :=
  stateDiffer_diff (start_map d) (promoteAll other DeployStatusActive).

Definition active (d : Deployment) : Deployable := mkDeployable DeployStatusActive d None.

(** One iteration of [differ.diff]; comparing can panic. *)
Definition matched_pair (id : DeploymentID) (existing : Deployment) (intended : DeployState) :
    option DeployablePair :=
  '(different, _) ← Deployment_Diff existing (ds_Deployment intended);
  Some (new_pair (Some (of_state intended))
          (Some (if (different : bool) then active existing else of_state intended)) id NoData).

Definition diff_step '((id, existing) : DeploymentID * Deployment)
    (acc : option (list DeployablePair * DeployStates)) :
    option (list DeployablePair * DeployStates) :=
  match acc with
  | None => None
  | Some (out, from) =>
      match from !! id with
      | None => Some (out ++ [new_pair None (Some (active existing)) id NoData], from)
      | Some intended =>
          match matched_pair id existing intended with
          | Some p => Some (out ++ [p], delete id from)
          | None => None
          end
      end
  end.

Definition differ_diff (from : DeployStates) (existing : Deployments) :
    option (list DeployablePair) :=
  '(out, rest) ← foldl (λ acc x, diff_step x acc) (Some ([], from)) (range _ existing);
  Some (out ++ ((λ ds, new_pair (Some (of_state ds)) None (DeployState_ID ds) NoData)
                  <$> (range _ rest).*2)).

Definition Deployments_Diff (d other : Deployments) : option (list DeployablePair) :=
  differ_diff (map_fold (λ _ dep acc,
    <[Deployment_ID dep := mkDeployState dep DeployStatusActive "" NoData ""]> acc) ∅ d) other.

(** ** Lemmas *)

Lemma start_map_keyed d : keyed d → start_map d = d.
Proof using.
  unfold start_map. apply (map_fold_weak_ind (λ r m, keyed m → r = m)); [done|].
  intros k v m r Hk IH Hm. rewrite IH.
  2: { eapply keyed_subseteq; [|exact Hm]. by apply insert_subseteq. }
  assert (DeployState_ID v = k) as -> by (apply (Hm k v); apply lookup_insert_eq). done.
Qed.

Lemma promoteAll_keyed d to :
  keyed d → promoteAll d to = (λ ad, mkDeployState ad to "" NoData "") <$> d.
Proof using.
  set (up := λ ad, mkDeployState ad to "" NoData "").
  unfold promoteAll. apply (map_fold_weak_ind (λ r m, keyed m → r = up <$> m)).
  { intros _. by rewrite fmap_empty. }
  intros k v m r Hk IH Hm. rewrite IH.
  2: { eapply keyed_subseteq; [|exact Hm]. by apply insert_subseteq. }
  assert (Deployment_ID v = k) as <- by (apply (Hm k v); apply lookup_insert_eq).
  unfold add. change (ID (mkDeployState v to "" NoData "")) with (Deployment_ID v).
  rewrite lookup_fmap, Hk. simpl. by rewrite fmap_insert.
Qed.

(** The pair a deployment ID gets, from what runs and what is intended. *)
Definition pair_for (d : DeployStates) (other : Deployments) (id : DeploymentID) :
    DeployablePair :=
  new_pair (of_state <$> d !! id) (active <$> other !! id) id
    (match d !! id with Some i => ds_ExecutorData i | None => NoData end).

(** The keys of two maps: those of the second, then those only the first has. *)
Lemma elem_of_keys {V} (m : gmap DeploymentID V) id : id ∈ (map_to_list m).*1 ↔ id ∈ dom m.
Proof using.
  rewrite list_elem_of_fmap, elem_of_dom. split.
  - intros ([k v]&->&Hk). apply elem_of_map_to_list in Hk. by eexists.
  - intros [v Hv]. exists (id, v). by rewrite elem_of_map_to_list.
Qed.

Lemma elements_keys {V W} (m1 : gmap DeploymentID V) (m2 : gmap DeploymentID W) :
  elements (dom m1 ∪ dom m2) ≡ₚ
    (map_to_list m2).*1 ++ (map_to_list (filter (λ kv, kv.1 ∉ dom m2) m1)).*1.
Proof using.
  assert (∀ id, id ∈ (map_to_list (filter (λ kv : DeploymentID * V, kv.1 ∉ dom m2) m1)).*1 ↔
    id ∈ dom m1 ∧ id ∉ dom m2) as Hf.
  { intros id. rewrite elem_of_keys. split.
    - intros [v [Hv Hn]%map_lookup_filter_Some]%elem_of_dom. split; [|done].
      by apply elem_of_dom; eexists.
    - intros [[v Hv]%elem_of_dom Hn]. apply elem_of_dom. exists v.
      by apply map_lookup_filter_Some. }
  apply NoDup_Permutation.
  - apply NoDup_elements.
  - apply NoDup_app. split_and!; try apply NoDup_fst_map_to_list.
    intros id Hi. rewrite Hf. rewrite elem_of_keys in Hi. naive_solver.
  - intros id. rewrite elem_of_elements, elem_of_union, elem_of_app, Hf, elem_of_keys.
    destruct (decide (id ∈ dom m2)); naive_solver.
Qed.

(** The loop sends one pair per existing entry, and leaves the others. *)
Lemma state_diff_loop l out from :
  NoDup l.*1 →
  foldl (λ acc x, state_diff_step x acc) (out, from) l =
    (out ++ ((λ '(id, ds), makeDeployablePair id ds (from !! id)) <$> l),
     filter (λ kv, kv.1 ∉ l.*1) from).
Proof using.
  revert out from. induction l as [|[id ds] l IH]; intros out from Hnd; simpl.
  { rewrite app_nil_r, map_filter_id; [done|]. intros ? ? ? ?%elem_of_nil. done. }
  simpl in Hnd. apply NoDup_cons in Hnd as [Hid Hnd]. rewrite IH by done. f_equal.
  - rewrite <-app_assoc. simpl. do 2 f_equal. apply list_fmap_ext. intros i [id' ds'] Hin. simpl.
    rewrite lookup_delete_ne; [done|]. intros ->. apply Hid.
    apply list_elem_of_fmap. exists (id', ds'). split; [done|]. by eapply list_elem_of_lookup_2.
  - apply map_eq. intros k. apply option_eq. intros v.
    rewrite !map_lookup_filter_Some, lookup_delete_Some. simpl.
    rewrite not_elem_of_cons. naive_solver.
Qed.

Lemma DeployStates_Diff_perm (d : DeployStates) (other : Deployments) :
  keyed d → keyed other →
  DeployStates_Diff d other ≡ₚ pair_for d other <$> elements (dom d ∪ dom other).
Proof using range_perm.
  intros Hd Ho. unfold DeployStates_Diff, stateDiffer_diff.
  rewrite start_map_keyed, promoteAll_keyed by done.
  set (up := λ ad, mkDeployState ad DeployStatusActive "" NoData "").
  rewrite state_diff_loop.
  2: { rewrite range_perm. apply NoDup_fst_map_to_list. }
  simpl. rewrite !range_perm, map_to_list_fmap.
  set (lone := filter (λ kv : DeploymentID * DeployState, kv.1 ∉ dom other) d).
  assert (filter (λ kv : DeploymentID * DeployState,
    kv.1 ∉ (range DeployState (up <$> other)).*1) d = lone) as ->.
  { apply map_filter_ext. intros id v _. simpl. rewrite range_perm, map_to_list_fmap.
    by rewrite <-list_fmap_compose, elem_of_keys. }
  rewrite elements_keys, fmap_app. f_equiv.
  - rewrite <-!list_fmap_compose. apply Permutation_refl'. apply list_fmap_ext.
    intros i [id o] Hin. simpl. apply list_elem_of_lookup_2, elem_of_map_to_list in Hin.
    unfold pair_for. rewrite Hin. by destruct (d !! id).
  - rewrite <-!list_fmap_compose. apply Permutation_refl'. apply list_fmap_ext.
    intros i [id v] Hin. simpl. apply list_elem_of_lookup_2, elem_of_map_to_list in Hin.
    apply map_lookup_filter_Some in Hin as [Hin Hno]. simpl in Hno.
    unfold pair_for. rewrite Hin. apply not_elem_of_dom in Hno. rewrite Hno.
    unfold removed_pair. assert (DeployState_ID v = id) as -> by exact (Hd id v Hin). done.
Qed.
(** Two deployable sides of one ID differ in nothing exactly when the
    deployments are equivalent and the statuses equal. *)
Lemma Deployable_diffs_ok (prior post : Deployable) :
  Deployment_ID (dep_Deployment prior) = Deployment_ID (dep_Deployment post) →
  d_volumes_ok (dep_Deployment prior) → d_volumes_ok (dep_Deployment post) →
  ∃ diffs, Deployable_diffs prior post = Some diffs ∧
    (diffs = [] ↔ deployment_equiv (dep_Deployment prior) (dep_Deployment post) ∧
                  Status prior = Status post).
Proof using.
  intros Hid Hp Ho. unfold Deployable_diffs.
  destruct (Deployment_Diff_ok _ _ Hid Hp Ho) as (diffs&->&Hiff). simpl.
  eexists. split; [done|]. by rewrite app_nil, diff_field_nil, Hiff.
Qed.

Definition states_volumes_ok (d : DeployStates) : Prop :=
  map_Forall (λ _ ds, d_volumes_ok (ds_Deployment ds)) d.
Definition deployments_volumes_ok (d : Deployments) : Prop := map_Forall (λ _, d_volumes_ok) d.

(** The kind of the pair of an ID, by what the two sets have for it. *)
Definition expected_kind (d : DeployStates) (other : Deployments) (id : DeploymentID)
    (k : DeployablePairKind) : Prop :=
  match d !! id, other !! id with
  | Some ds, Some o =>
      (k = SameKind ↔ deployment_equiv (ds_Deployment ds) o ∧ ds_Status ds = DeployStatusActive) ∧
      (k = SameKind ∨ k = ModifiedKind)
  | Some _, None => k = RemovedKind
  | None, _ => k = AddedKind
  end.

Lemma pair_Kind_pair_for (d : DeployStates) (other : Deployments) (id : DeploymentID) :
  keyed d → keyed other → states_volumes_ok d → deployments_volumes_ok other →
  ∃ k, pair_Kind (pair_for d other id) = Some k ∧ expected_kind d other id k.
Proof using.
  intros Hd Ho Hvd Hvo. unfold pair_for, pair_Kind, Diffs, expected_kind. simpl.
  destruct (d !! id) as [ds|] eqn:Hds; simpl; [|by eexists].
  destruct (other !! id) as [o|] eqn:Hos; simpl; [|by eexists].
  destruct (Deployable_diffs_ok (of_state ds) (active o)) as (diffs&->&Hiff); simpl.
  - pose proof (Hd _ _ Hds) as Hid. pose proof (Ho _ _ Hos) as Hid'. simpl in Hid, Hid'.
    unfold DeployState_ID in Hid. congruence.
  - exact (Hvd _ _ Hds).
  - exact (Hvo _ _ Hos).
  - eexists. split; [done|]. split; [|case_decide; auto]. simpl in Hiff. rewrite <-Hiff.
    rewrite <-length_zero_iff_nil. by case_decide.
Qed.

(** *** The differ of deployments *)

(** Whether two deployments differ, as far as comparing them does not panic. *)
Definition differ_in (d o : Deployment) : bool := from_option fst false (Deployment_Diff d o).

Lemma differ_in_spec d o : Deployment_ID d = Deployment_ID o → d_volumes_ok d → d_volumes_ok o →
  differ_in d o = false ↔ deployment_equiv d o.
Proof using.
  intros Hid Hd Ho. destruct (Deployment_Diff_ok d o Hid Hd Ho) as (diffs&Hdiff&Hiff).
  unfold differ_in. rewrite Hdiff. cbn. by rewrite negb_false_iff, bool_decide_eq_true, length_zero_iff_nil.
Qed.

Definition up (d : Deployment) : DeployState := mkDeployState d DeployStatusActive "" NoData "".

(** The pair of an ID, from what there is and what is to be. *)
Definition deployments_pair (d other : Deployments) (id : DeploymentID) : DeployablePair :=
  match d !! id, other !! id with
  | Some i, Some e => new_pair (Some (active i)) (Some (active (if differ_in e i then e else i))) id NoData
  | i, e => new_pair (active <$> i) (active <$> e) id NoData
  end.

Lemma diff_loop (d other : Deployments) l out : keyed d → deployments_volumes_ok d → NoDup l.*1 →
  (∀ id e, (id, e) ∈ l → other !! id = Some e ∧ Deployment_ID e = id ∧ d_volumes_ok e) →
  ∀ from, (∀ id, id ∈ l.*1 → from !! id = d !! id) →
  foldl (λ acc x, diff_step x acc) (Some (out, up <$> from)) l =
    Some (out ++ (deployments_pair d other <$> l.*1), up <$> filter (λ kv, kv.1 ∉ l.*1) from).
Proof using.
  intros Hk Hv. revert out. induction l as [|[id e] l IH]; intros out Hnd Hl from Hfrom; cbn [foldl fmap list_fmap fst].
  { rewrite app_nil_r, map_filter_id; [done|]. intros ? ? ? ?%elem_of_nil. done. }
  apply NoDup_cons in Hnd as [Hid Hnd]. destruct (Hl id e) as (Ho&He&Hve); [by left|].
  assert (diff_step (id, e) (Some (out, up <$> from)) =
    Some (out ++ [deployments_pair d other id], up <$> delete id from)) as ->.
  { unfold diff_step, deployments_pair. rewrite lookup_fmap, Hfrom, Ho by by left.
    destruct (d !! id) as [i|] eqn:Hi; cbn [fmap option_fmap option_map].
    - unfold matched_pair. change (ds_Deployment (up i)) with i.
      destruct (Deployment_Diff_ok e i) as (diffs&Hd&_); [|done|by apply (Hv id)|].
      { rewrite He. symmetry. exact (Hk id i Hi). }
      unfold differ_in. rewrite Hd. cbn. rewrite fmap_delete. by destruct (negb _).
    - rewrite delete_id; [done|]. by rewrite Hfrom by by left. }
  rewrite IH; [|done| |].
  - rewrite <-(assoc_L (++)). do 3 f_equal. apply map_eq. intros k. apply option_eq. intros v.
    rewrite !map_lookup_filter_Some, lookup_delete_Some. cbn. rewrite not_elem_of_cons. naive_solver.
  - intros id' e' Hin. apply Hl. by right.
  - intros id' Hin. rewrite lookup_delete_ne; [apply Hfrom; by right|]. by intros ->.
Qed.

Lemma up_start_map (d : Deployments) : keyed d →
  map_fold (λ _ dep acc, <[Deployment_ID dep := up dep]> acc) ∅ d = up <$> d.
Proof using.
  apply (map_fold_weak_ind (λ r d, keyed d → r = up <$> d)).
  - intros _. by rewrite fmap_empty.
  - intros k v m r Hkm IH Hm. rewrite IH.
    2: { eapply keyed_subseteq; [|exact Hm]. by apply insert_subseteq. }
    assert (Deployment_ID v = k) as -> by (apply (Hm k v); apply lookup_insert_eq). by rewrite fmap_insert.
Qed.

Lemma range_keys {V} (m : gmap DeploymentID V) id : id ∈ (range _ m).*1 ↔ is_Some (m !! id).
Proof using range_perm. rewrite (range_perm _ m), elem_of_keys. apply elem_of_dom. Qed.

(** The differ of deployments sends one pair for each ID, and does not panic. *)
Lemma Deployments_Diff_perm (d other : Deployments) :
  keyed d → keyed other → deployments_volumes_ok d → deployments_volumes_ok other →
  ∃ ids, Deployments_Diff d other = Some (deployments_pair d other <$> ids) ∧
    NoDup ids ∧ ∀ id, id ∈ ids ↔ is_Some (d !! id) ∨ is_Some (other !! id).
Proof using range_perm.
  intros Hd Ho Hvd Hvo. unfold Deployments_Diff, differ_diff.
  match goal with |- context [map_fold ?f ∅ d] => assert (map_fold f ∅ d = up <$> d) as -> by exact (up_start_map d Hd) end.
  set (l := range _ other).
  assert (NoDup l.*1) as Hnd by (unfold l; rewrite (range_perm _ other); apply NoDup_fst_map_to_list).
  rewrite (diff_loop d other l [] Hd Hvd Hnd); [| |done].
  2: { intros id e Hin. unfold l in Hin. rewrite (range_perm _ other) in Hin. apply elem_of_map_to_list in Hin.
       split_and!; [done|exact (Ho id e Hin)|exact (Hvo id e Hin)]. }
  cbn [mbind option_bind app]. set (rest := filter _ d).
  exists (l.*1 ++ (range _ (up <$> rest)).*1). rewrite fmap_app.
  assert (∀ id, id ∈ (range _ (up <$> rest)).*1 ↔ is_Some (d !! id) ∧ other !! id = None) as Hrest.
  { intros id. rewrite range_keys, lookup_fmap, fmap_is_Some. unfold rest. split.
    - intros [v [Hv Hn]%map_lookup_filter_Some]. split; [by eexists|]. apply eq_None_not_Some. intros Hs.
      apply Hn. by apply range_keys.
    - intros [[v Hv] Hn]. exists v. apply map_lookup_filter_Some. split; [done|]. cbn. unfold l.
      rewrite range_keys, Hn. apply is_Some_None. }
  split_and!.
  - do 2 f_equal. rewrite <-!list_fmap_compose. apply list_fmap_ext. intros i [id v] Hin. cbn [compose snd fst].
    apply list_elem_of_lookup_2 in Hin. assert (id ∈ (range _ (up <$> rest)).*1) as [_ Hn]%Hrest.
    { apply list_elem_of_fmap. by exists (id, v). }
    rewrite (range_perm _ (up <$> rest)) in Hin. apply elem_of_map_to_list, lookup_fmap_Some in Hin as (w&<-&Hw).
    unfold rest in Hw. apply map_lookup_filter_Some in Hw as [Hw _]. unfold deployments_pair. rewrite Hw, Hn.
    cbn. unfold DeployState_ID. cbn. by rewrite (Hd id w Hw : Deployment_ID w = id).
  - apply NoDup_app. split_and!; [done| |].
    + intros id Hin Hr. apply Hrest in Hr as [_ Hn]. unfold l in Hin. apply range_keys in Hin as [? ?]. congruence.
    + rewrite (range_perm _ (up <$> rest)). apply NoDup_fst_map_to_list.
  - intros id. rewrite elem_of_app, Hrest. unfold l. rewrite range_keys. destruct (other !! id); naive_solver.
Qed.

(** Its kinds: of IDs on both sides, whether the deployments are equivalent. *)
Lemma deployments_pair_Kind (d other : Deployments) (id : DeploymentID) :
  keyed d → keyed other → deployments_volumes_ok d → deployments_volumes_ok other →
  ∃ k, pair_Kind (deployments_pair d other id) = Some k ∧
    match d !! id, other !! id with
    | Some i, Some e => (deployment_equiv i e ∧ k = SameKind) ∨
        (¬ deployment_equiv i e ∧ k = ModifiedKind ∧ Post (deployments_pair d other id) = Some (active e))
    | Some i, None => k = RemovedKind
    | None, _ => k = AddedKind
    end.
Proof using.
  intros Hd Ho Hvd Hvo. unfold deployments_pair, pair_Kind.
  destruct (d !! id) as [i|] eqn:Hi; [|by exists AddedKind].
  destruct (other !! id) as [e|] eqn:He; [|by exists RemovedKind]. cbn [Prior Post new_pair Diffs mbind option_bind].
  assert (Deployment_ID i = Deployment_ID e) as Hid by (rewrite (Hd id i Hi : Deployment_ID i = id); symmetry; exact (Ho id e He)).
  unfold Diffs. cbn [Prior Post new_pair mbind option_bind].
  destruct (Deployable_diffs_ok (active i) (active (if differ_in e i then e else i))) as (diffs&->&Hiff); cbn.
  { by destruct (differ_in e i). } { exact (Hvd _ _ Hi). } { destruct (differ_in e i); [exact (Hvo _ _ He)|exact (Hvd _ _ Hi)]. }
  eexists. split; [done|]. pose proof (differ_in_spec e i (eq_sym Hid) (Hvo _ _ He) (Hvd _ _ Hi)) as Hdiff.
  cbn in Hiff. destruct (differ_in e i).
  - assert (¬ deployment_equiv i e) as Hne by (intros Heq%deployment_equiv_sym%Hdiff; done).
    right. split_and!; [done| |done]. case_decide as Hl; [|done]. apply length_zero_iff_nil, Hiff in Hl as [? _]. done.
  - left. split; [by apply deployment_equiv_sym, Hdiff|]. case_decide as Hl; [done|]. exfalso. apply Hl.
    apply length_zero_iff_nil, Hiff. split; [|done]. by apply deployment_equiv_refl.
Qed.

(** ** Properties *)

(** C14.  The deploy-state differ sends, in some order, exactly one pair for each
    deployment that runs or is intended: its prior side is what runs, its post
    side what is intended, promoted to active. *)
Theorem DeployStates_Diff_complete (d : DeployStates) (other : Deployments) :
  keyed d → keyed other →
  DeployStates_Diff d other ≡ₚ pair_for d other <$> elements (dom d ∪ dom other).
Proof using range_perm. apply DeployStates_Diff_perm. Qed.

(** The kind of each pair the differ sends is computed without a panic: added
    when only intended, removed when only running, the same exactly when the
    deployments are equivalent and the running one is active, else modified. *)
Theorem DeployStates_Diff_kinds (d : DeployStates) (other : Deployments) (p : DeployablePair) :
  keyed d → keyed other → states_volumes_ok d → deployments_volumes_ok other →
  p ∈ DeployStates_Diff d other →
  ∃ k, pair_Kind p = Some k ∧ expected_kind d other (pair_name p) k ∧
       (is_Some (Prior p) ∨ is_Some (Post p)).
Proof using range_perm.
  intros Hd Ho Hvd Hvo. rewrite DeployStates_Diff_perm by done.
  intros (id&->&Hid)%list_elem_of_fmap.
  destruct (pair_Kind_pair_for d other id Hd Ho Hvd Hvo) as (k&Hk&He).
  exists k. split_and!; [done|done|]. simpl. rewrite !fmap_is_Some.
  rewrite elem_of_elements, elem_of_union, !elem_of_dom in Hid. done.
Qed.
End Differs.

(** What runs of the sample deployment: one instance less, under way. *)
Definition sample_state : DeployState :=
  mkDeployState (with_instances 2 sample_deployment) DeployStatusPending "" (SingularityTaskData "req") "".

Definition sample_states : DeployStates := {[sample_did := sample_state]}.

Lemma sample_states_ok : keyed sample_states ∧ states_volumes_ok sample_states.
Proof. split; apply map_Forall_singleton; [done|apply sample_volumes_ok]. Qed.

Lemma sample_deployments_ok : deployments_volumes_ok sample_deployments.
Proof. apply map_Forall_singleton, (sample_volumes_ok 3). Qed.

Lemma DeployStates_Diff_complete_witness :
  DeployStates_Diff (λ _, map_to_list) sample_states sample_deployments ≡ₚ
    pair_for sample_states sample_deployments
      <$> elements (dom sample_states ∪ dom sample_deployments).
Proof.
  apply DeployStates_Diff_complete; [done|apply sample_states_ok|apply sample_keyed].
Defined.

Lemma DeployStates_Diff_kinds_witness :
  let p := pair_for sample_states sample_deployments sample_did in
  ∃ k, pair_Kind p = Some k ∧ expected_kind sample_states sample_deployments (pair_name p) k ∧
       (is_Some (Prior p) ∨ is_Some (Post p)).
Proof.
  apply (DeployStates_Diff_kinds (λ _, map_to_list)); [done|apply sample_states_ok|apply sample_keyed
    |apply sample_states_ok|apply sample_deployments_ok|].
  rewrite DeployStates_Diff_perm; [|done|apply sample_states_ok|apply sample_keyed].
  apply list_elem_of_fmap. exists sample_did. split; [done|].
  apply elem_of_elements, elem_of_union_l, elem_of_dom. exists sample_state.
  apply lookup_singleton_eq.
Defined.
