(* ===== verification/ResolveFilter.v ===== *)
(** * Resolve filters (lib/resolvefilter.go, source_context.go, registry.go)

    The predicates that select the deployments, deploy states, manifests and
    clusters a command or a resolution is about, and the version a source
    context gives to a build. *)

From S2P Require Import Prelude GoStrings Flaw Semv Ids Startup DeployConfig CMap Deployment.
From S2P Require Import Samples State.
#[local] Open Scope string_scope.
#[local] Open Scope Z_scope.
#[local] Open Scope list_scope.

(** ** Source contexts *)

Record GitTag := mkGitTag { tag_Name : string; tag_Revision : string }.

Record SourceContext := mkSourceContext {
  RootDir : string; OffsetDir : string; Branch : string; Revision : string;
  Files : list string; ModifiedFiles : list string; NewFiles : list string;
  Tags : list GitTag;
  NearestTag : GitTag;
  NearestTagName : string; NearestTagRevision : string;
  PrimaryRemoteURL : string;
  RemoteURL : string;
  RemoteURLs : list string;
  DirtyWorkingTree : bool;
  RevisionUnpushed : bool;
  DevBuild : bool
}.

(** [semv.MustParse("0.0.0-unversioned")]. *)
Definition ZeroVersion : Version := mkVersion 0 0 0 "unversioned" "" "M.m.p-?".

(** [versionStrip], the regular expression [^\D*], removed from a name. *)
Fixpoint versionStrip (s : string) : string :=
  match s with
  | "" => ""
  | String.String c s' => if is_digit c then s else versionStrip s'
  end.

Definition parseSemverTagWithOptionalPrefix (tagName : string) : result parse_error Version :=
  Parse (versionStrip tagName).

Fixpoint nearestVersion (tags : list GitTag) : Version :=
  match tags with
  | [] => ZeroVersion
  | t :: tags' =>
      match parseSemverTagWithOptionalPrefix (tag_Name t) with
      | Ok v => v
      | Err _ => nearestVersion tags'
      end
  end.

Definition SourceContext_Version (sc : SourceContext) : SourceID :=
  let v := nearestVersion (NearestTag sc :: Tags sc) in
  mkSourceID (mkSourceLocation (RemoteURL sc) (OffsetDir sc))
    (mkVersion (Major v) (Minor v) (Patch v) (Pre v) (Revision sc) Complete).

Definition SourceContext_SourceLocation (sc : SourceContext) : SourceLocation :=
  mkSourceLocation (PrimaryRemoteURL sc) (OffsetDir sc).

Definition SourceContext_TagVersion (sc : SourceContext) : string :=
  let v := sid_Version (SourceContext_Version sc) in
  if Equals v ZeroVersion then "" else Format v MajorMinorPatch.

(** ** Filters *)

(** A [ResolveFieldMatcher]: [None] is the nil [Match], which matches all. *)
Abbreviation matcher := (option string).

Record ResolveFilter := mkResolveFilter {
  rf_Repo : matcher;
  rf_Offset : matcher;
  rf_Tag : matcher;
  rf_Revision : matcher;
  rf_Flavor : matcher;
  rf_Cluster : matcher;
  rf_Status : DeployStatus
}.

Inductive filter_error : Type :=
| FieldNotSpecified
| TagNotSpecified
| InvalidTag (tag : string)
| TagParse (e : parse_error)
| NoTagFlag
| NoClusterFlag.

Definition NewResolveFieldMatcher (m : string) : matcher := Some m.
Definition matches_all (m : matcher) : bool := match m with None => true | Some _ => false end.
Definition match_ (m : matcher) (against : string) : bool :=
  match m with None => true | Some v => bool_decide (against = v) end.
Definition ValueOr (m : matcher) (def : string) : string := default def m.
Definition Value_ (m : matcher) : result filter_error string :=
  match m with None => Err FieldNotSpecified | Some v => Ok v end.

Definition matchDeployStatus (rf : ResolveFilter) (status : DeployStatus) : bool :=
  bool_decide (rf_Status rf = DeployStatusAny) || bool_decide (status = rf_Status rf).

Definition set_rf_Tag (t : matcher) (rf : ResolveFilter) : ResolveFilter :=
  mkResolveFilter (rf_Repo rf) (rf_Offset rf) t (rf_Revision rf) (rf_Flavor rf) (rf_Cluster rf)
    (rf_Status rf).

Definition SetTag (tag : string) (rf : ResolveFilter) : result filter_error ResolveFilter :=
  match parseSemverTagWithOptionalPrefix tag with
  | Err _ => Err (InvalidTag tag)
  | Ok v => Ok (set_rf_Tag (NewResolveFieldMatcher (Format v Complete)) rf)
  end.

Definition rf_TagVersion (rf : ResolveFilter) : result filter_error Version :=
  tag ← map_err (λ _, TagNotSpecified) (Value_ (rf_Tag rf));
  map_err TagParse (Parse tag).

Definition rf_All (rf : ResolveFilter) : bool :=
  matches_all (rf_Repo rf) && matches_all (rf_Offset rf) && matches_all (rf_Tag rf)
  && matches_all (rf_Revision rf) && matches_all (rf_Flavor rf) && matches_all (rf_Cluster rf).

Definition rf_SourceLocation (rf : ResolveFilter) : SourceLocation * bool :=
  if matches_all (rf_Repo rf) || matches_all (rf_Offset rf) then (zeroLocation, false)
  else (mkSourceLocation (ValueOr (rf_Repo rf) "<unspecified!>")
          (ValueOr (rf_Offset rf) "<unspecified!>"), true).

Definition rf_SourceID (rf : ResolveFilter) (mid : ManifestID) : result filter_error SourceID :=
  if matches_all (rf_Tag rf) then Err NoTagFlag
  else
    newVersion ← map_err TagParse (Parse (ValueOr (rf_Tag rf) "<untagged!>"));
    Ok (LocationSourceID (Source mid) newVersion).

Definition rf_DeploymentID (rf : ResolveFilter) (mid : ManifestID) :
    result filter_error DeploymentID :=
  if matches_all (rf_Cluster rf) then Err NoClusterFlag
  else Ok (mkDeploymentID mid (ValueOr (rf_Cluster rf) "<no-cluster!>")).

Definition rf_String (rf : ResolveFilter) : string :=
  let star m := ValueOr m "*" in
  "<cluster:" +:+ star (rf_Cluster rf) +:+ " repo:" +:+ star (rf_Repo rf)
  +:+ " offset:" +:+ star (rf_Revision rf) +:+ " flavor:" +:+ star (rf_Flavor rf)
  +:+ " tag:" +:+ star (rf_Offset rf) +:+ " revision:" +:+ star (rf_Tag rf) +:+ ">".

Definition FilterClusterName (rf : ResolveFilter) (name : string) : bool :=
  match_ (rf_Cluster rf) name.

Definition FilteredClusters (rf : ResolveFilter) (c : Clusters) : Clusters :=
  map_fold (λ n cl newC, if FilterClusterName rf n then <[n := cl]> newC else newC) ∅ c.

Definition FilterDeployment (rf : ResolveFilter) (d : Deployment) : bool :=
  match_ (rf_Repo rf) (Repo (Location (d_SourceID d)))
  && match_ (rf_Offset rf) (Dir (Location (d_SourceID d)))
  && match_ (rf_Tag rf) (Semv.String (sid_Version (d_SourceID d)))
  && match_ (rf_Revision rf) (RevID (d_SourceID d))
  && match_ (rf_Flavor rf) (Flavor d)
  && match_ (rf_Cluster rf) (ClusterName d).

Definition FilterDeployStates (rf : ResolveFilter) (d : DeployState) : bool :=
  FilterDeployment rf (ds_Deployment d) && matchDeployStatus rf (ds_Status d).

Definition FilterManifestID (rf : ResolveFilter) (m : ManifestID) : bool :=
  match_ (rf_Repo rf) (Repo (Source m)) && match_ (rf_Offset rf) (Dir (Source m))
  && match_ (rf_Flavor rf) (mid_Flavor m).

Definition FilterManifest (rf : ResolveFilter) (m : Manifest) : bool :=
  FilterManifestID rf (Manifest_ID m).

(** ** Lemmas *)

Lemma match_spec m s : match_ m s = true ↔ ∀ v, m = Some v → s = v.
Proof.
  destruct m as [v|]; simpl; [rewrite bool_decide_eq_true|]; naive_solver.
Qed.

Lemma FilteredClusters_lookup rf c n :
  FilteredClusters rf c !! n = if FilterClusterName rf n then c !! n else None.
Proof.
  unfold FilteredClusters. revert n.
  apply (map_fold_weak_ind (λ r c, ∀ n, r !! n = if FilterClusterName rf n then c !! n else None)).
  { intros n. rewrite !lookup_empty. by case_match. }
  intros k cl c' r Hk IH n. destruct (decide (n = k)) as [->|Hne].
  - destruct (FilterClusterName rf k) eqn:Hf.
    + by rewrite !lookup_insert_eq.
    + by rewrite IH, Hf.
  - rewrite (lookup_insert_ne c') by done.
    destruct (FilterClusterName rf k); rewrite ?lookup_insert_ne by done; apply IH.
Qed.

(** What a filter asks of the parts a manifest ID and a cluster name have. *)
Lemma FilterDeployment_parts rf d :
  FilterDeployment rf d = true ↔
    FilterManifestID rf (Deployment_ManifestID d) = true ∧
    FilterClusterName rf (ClusterName d) = true ∧
    match_ (rf_Tag rf) (Semv.String (sid_Version (d_SourceID d))) = true ∧
    match_ (rf_Revision rf) (RevID (d_SourceID d)) = true.
Proof.
  unfold FilterDeployment, FilterManifestID, FilterClusterName. simpl.
  rewrite !andb_true_iff. tauto.
Qed.

Lemma versionStrip_digit c s : is_digit c = true → versionStrip (String.String c s) = String.String c s.
Proof. simpl. by intros ->. Qed.

Lemma versionStrip_prefix p s :
  Forall (λ c, is_digit c = false) (bytes p) → versionStrip (p +:+ s) = versionStrip s.
Proof. induction p as [|c p IH]; simpl; [done|]. intros Hp. inv Hp. rewrite H1. auto. Qed.

Lemma full_string_digit v : wf v → ∃ c s, full_string v = String.String c s ∧ is_digit c = true.
Proof.
  intros Hwf. unfold full_string. pose proof (wf_major v Hwf) as [H0 _].
  pose proof (nonempty_itoa _ H0) as Hne.
  pose proof (itoa_digits _ H0) as Hd. destruct (itoa (Major v)) as [|c s] eqn:He; [done|].
  simpl in Hd. inv Hd. by eexists _, _.
Qed.

(** ** Properties *)

(** Expanding the manifests a filter selects loses nothing the filter wants:
    a deployment it matches comes from a manifest it matches and from a cluster
    it keeps; conversely a manifest and cluster match only leaves the tag and
    the revision to check. *)
Theorem FilterDeployment_manifest (rf : ResolveFilter) (defs : Defs) (ms : Manifests)
    (ds : Deployments) (did : DeploymentID) (d : Deployment) :
  keyed ms → Manifests_Deployments defs ms = Ok ds → ds !! did = Some d →
  FilterDeployment rf d = true →
  (∃ m, ms !! did_ManifestID did = Some m ∧ FilterManifest rf m = true) ∧
  is_Some (FilteredClusters rf (defs_Clusters defs) !! did_Cluster did).
Proof.
  intros Hk Hds Hd Hf. apply FilterDeployment_parts in Hf as (Hm&Hc&_).
  apply (Manifests_Deployments_spec _ _ _ Hk Hds) in Hd as (m&Hmid&spec&cluster&Hs&Hcl&->).
  unfold Deployment_ManifestID in Hm. rewrite BuildDeployment_source in Hm. split.
  - exists m. split; [done|]. exact Hm.
  - rewrite FilteredClusters_lookup. change (ClusterName _) with (did_Cluster did) in Hc.
    rewrite Hc, Hcl. by eexists.
Qed.

Lemma FilterDeployment_manifest_witness :
  let rf := mkResolveFilter (Some "github.com/opentable/wackadoo") None (Some "1.2.3-beta.1+5b8e7a")
              (Some "5b8e7a") (Some "neat") (Some "ci-sf") DeployStatusAny in
  let ms := {[sample_mid := sample_manifest]} : Manifests in
  (∃ m, ms !! sample_mid = Some m ∧ FilterManifest rf m = true) ∧
  is_Some (FilteredClusters rf (defs_Clusters sample_defs) !! "ci-sf").
Proof.
  intros rf ms. destruct (Manifests_Deployments_ok sample_defs ms) as [ds Hds].
  { apply sample_manifests_keyed. }
  { apply map_Forall_singleton, sample_clusters_defined. }
  apply (FilterDeployment_manifest rf sample_defs ms ds sample_did
    (BuildDeployment sample_manifest "ci-sf" sample_cluster sample_spec [])).
  - apply sample_manifests_keyed.
  - exact Hds.
  - apply (Manifests_Deployments_spec _ _ _ sample_manifests_keyed Hds).
    exists sample_manifest. split; [by apply lookup_singleton_eq|]. exists sample_spec, sample_cluster.
    split; [apply lookup_singleton_eq|split; [apply lookup_singleton_eq|reflexivity]].
  - vm_compute. reflexivity.
Defined.



(** A tag with any non-numeric prefix selects its version: after [SetTag] the
    filter's source ID carries the version in full, and the filter matches
    exactly the deployments that print that version. *)
Theorem SetTag_selects (rf : ResolveFilter) (prefix : string) (v : Version) :
  wf v → Forall (λ c, is_digit c = false) (bytes prefix) →
  ∃ rf', SetTag (prefix +:+ Semv.String v) rf = Ok rf' ∧
    rf_TagVersion rf' = Ok v ∧
    (∀ mid, rf_SourceID rf' mid = Ok (mkSourceID (Source mid) v)) ∧
    ∀ d, FilterDeployment rf' d = true ↔
      FilterDeployment (set_rf_Tag None rf) d = true ∧
      Semv.String (sid_Version (d_SourceID d)) = Semv.String v.
Proof.
  intros Hwf Hp.
  assert (Semv.String v = full_string v) as Hs.
  { apply Format_spec; [done|]. right. apply Hwf. }
  assert (Format v Complete = full_string v) as Hc by (apply Format_spec; auto).
  unfold SetTag, parseSemverTagWithOptionalPrefix.
  rewrite versionStrip_prefix, Hs by done.
  destruct (full_string_digit v Hwf) as (c&s&Hcs&Hd).
  assert (versionStrip (full_string v) = full_string v) as ->.
  { rewrite Hcs. by apply versionStrip_digit. }
  rewrite Parse_full_string, Hc by done. eexists. split; [done|]. split_and!.
  - unfold rf_TagVersion. cbn -[Parse full_string]. by rewrite Parse_full_string.
  - intros mid. unfold rf_SourceID. cbn -[Parse full_string]. by rewrite Parse_full_string.
  - intros d. rewrite !FilterDeployment_parts. cbn [rf_Tag rf_Revision set_rf_Tag match_].
    unfold NewResolveFieldMatcher. cbn [match_]. rewrite bool_decide_eq_true.
    change (FilterManifestID (set_rf_Tag ?t rf)) with (FilterManifestID rf).
    change (FilterClusterName (set_rf_Tag ?t rf)) with (FilterClusterName rf). tauto.
Qed.

Lemma SetTag_selects_witness :
  let rf := mkResolveFilter (Some "github.com/opentable/wackadoo") None None None None None DeployStatusAny in
  ∃ rf', SetTag "release-1.2.3" rf = Ok rf' ∧ rf_TagVersion rf' = Ok (mkVersion 1 2 3 "" "" "M.m.p") ∧
    ∀ d, FilterDeployment rf' d = true ↔
      FilterDeployment (set_rf_Tag None rf) d = true ∧
      Semv.String (sid_Version (d_SourceID d)) = "1.2.3".
Proof.
  intros rf. destruct (SetTag_selects rf "release-" (mkVersion 1 2 3 "" "" "M.m.p")) as (rf'&Hset&Htag&_&Hsel).
  - split; try done; constructor.
  - repeat constructor.
  - exists rf'. split; [exact Hset|]. split; [exact Htag|]. exact Hsel.
Defined.


(** The version of a build carries the revision and is otherwise that of the
    first tag that parses; a context without one has the zero version, whatever
    its revision, and reports no tag version. *)
Theorem SourceContext_Version_spec (sc : SourceContext) :
  Meta (sid_Version (SourceContext_Version sc)) = Revision sc ∧
  (∀ pre t post v, NearestTag sc :: Tags sc = pre ++ t :: post →
     Forall (λ t, is_ok (parseSemverTagWithOptionalPrefix (tag_Name t)) = false) pre →
     parseSemverTagWithOptionalPrefix (tag_Name t) = Ok v →
     Equals (sid_Version (SourceContext_Version sc)) v = true) ∧
  (Forall (λ t, is_ok (parseSemverTagWithOptionalPrefix (tag_Name t)) = false)
     (NearestTag sc :: Tags sc) → SourceContext_TagVersion sc = "").
Proof.
  assert (∀ pre rest,
    Forall (λ t, is_ok (parseSemverTagWithOptionalPrefix (tag_Name t)) = false) pre →
    nearestVersion (pre ++ rest) = nearestVersion rest) as Hskip.
  { induction 1 as [|t pre Ht Hpre IH]; [done|]. simpl.
    by destruct (parseSemverTagWithOptionalPrefix (tag_Name t)). }
  split_and!; [done| |].
  - intros pre t post v Htags Hpre Hv. unfold SourceContext_Version.
    rewrite Htags, Hskip by done. cbn [nearestVersion]. rewrite Hv. cbn [sid_Version].
    rewrite Equals_meta. apply Equals_refl.
  - intros Hnone. unfold SourceContext_TagVersion, SourceContext_Version.
    rewrite <-(app_nil_r (_ :: _)), Hskip by done. cbn [nearestVersion sid_Version].
    rewrite Equals_meta. by rewrite Equals_refl.
Qed.
