(* ===== verification/ResolveErrors.v ===== *)
(** * Resolutions and their errors (lib/resolve_errors.go, resolvestatus.go,
    deployable_pair.go)

    The errors a resolution can meet, as the Go error values the program tells
    apart by type; the wrapper that carries them over HTTP; the record of one
    resolved difference, and the status a whole resolution accumulates. *)

From S2P Require Import Prelude GoStrings Flaw Semv Ids Startup DeployConfig CMap Deployment.
From S2P Require Import Samples State Differ.
#[local] Open Scope string_scope.
#[local] Open Scope Z_scope.
#[local] Open Scope list_scope.

(** ** Error values *)

Record DeploymentPair := mkDeploymentPair {
  dp_name : DeploymentID;
  dp_Prior : option Deployment;
  dp_Post : option Deployment;
  dp_Status : DeployStatus
}.

(** [EOther] is any error of a type that no code tells apart, [EErrorf] one that
    [fmt.Errorf] makes of the message of another; [ECause] is one of
    github.com/pkg/errors, which has a [Cause]; [EWrapper] is a pointer to an
    [ErrorWrapper], [EWrapperVal] an [ErrorWrapper] itself: a type switch tells
    them apart. *)
Inductive err : Type :=
| EOther (gotype : string) (msg : text)
| EErrorf (format : string) (e : err)
| ECause (gotype : string) (msg : text) (cause : err)
| EWrapper (w : ErrorWrapper)
| EWrapperVal (w : ErrorWrapper)
| EMissingImageName (cause : err)
| EFailedStatus
| EUnacceptableAdvisory (q : Quality) (sid : SourceID)
| ECreate (d : option Deployment) (e : option err)
| EDelete (d : option Deployment) (e : option err)
| EChange (ds : option DeploymentPair) (e : option err)
| EResolve (causes : list ErrorWrapper)
with ErrorWrapper : Type :=
| mkErrorWrapper (ew_Type ew_String : string) (ew_error : option err).

Definition ew_Type (w : ErrorWrapper) : string := let '(mkErrorWrapper t _ _) := w in t.
Definition ew_String (w : ErrorWrapper) : string := let '(mkErrorWrapper _ s _) := w in s.
Definition ew_error (w : ErrorWrapper) : option err := let '(mkErrorWrapper _ _ e) := w in e.

(** [&ErrorWrapper{error: err}]. *)
Definition wrap (e : err) : ErrorWrapper := mkErrorWrapper "" "" (Some e).

Definition WrapResolveError (e : err) : ErrorWrapper :=
  match e with EWrapper w => w | _ => wrap e end.

(** [errors.Cause]. *)
Fixpoint Cause (e : err) : err := match e with ECause _ _ e' => Cause e' | _ => e end.

(** [fmt.Sprintf("%T", err)]. *)
Definition type_name (e : err) : string :=
  match e with
  | EOther t _ | ECause t _ _ => t
  | EErrorf _ _ => "*errors.errorString"
  | EWrapper _ => "*sous.ErrorWrapper"
  | EWrapperVal _ => "sous.ErrorWrapper"
  | EMissingImageName _ => "*sous.MissingImageNameError"
  | EFailedStatus => "*sous.FailedStatusError"
  | EUnacceptableAdvisory _ _ => "*sous.UnacceptableAdvisory"
  | ECreate _ _ => "*sous.CreateError"
  | EDelete _ _ => "*sous.DeleteError"
  | EChange _ _ => "*sous.ChangeError"
  | EResolve _ => "*sous.ResolveErrors"
  end.

(** ** Transience *)

(** The verdict on the name of an error's type, for an error that came over the
    wire. *)
Definition transient_type (t : string) : bool :=
  bool_decide (t = "*sous.ChangeError") || bool_decide (t = "*sous.CreateError").

(** The type switch is on [errors.Cause(err)]: the recursion unwraps causes too. *)
Fixpoint IsTransientResolveError (e : err) : bool :=
  match e with
  | ECause _ _ e' => IsTransientResolveError e'
  | EWrapper (mkErrorWrapper t _ inner) =>
      match inner with
      | Some e' => IsTransientResolveError e'
      | None => transient_type t
      end
  | EChange _ _ | ECreate _ _ => true
  | EFailedStatus | EUnacceptableAdvisory _ _ | EMissingImageName _ | EDelete _ _ => false
  | EOther _ _ | EErrorf _ _ | EWrapperVal _ | EResolve _ => false
  end.

(** The causes are [ErrorWrapper] values, and are passed as such. *)
Definition AnyTransientResolveErrors (e : err) : bool :=
  match Cause e with
  | EResolve causes => existsb (λ w, IsTransientResolveError (EWrapperVal w)) causes
  | _ => false
  end.

Definition ExistingDeployment (e : err) : option (option Deployment) :=
  match e with
  | ECreate _ _ => Some None
  | EDelete d _ => Some d
  | EChange (Some p) _ => Some (dp_Prior p)
  | _ => None
  end.
Definition IntendedDeployment (e : err) : option (option Deployment) :=
  match e with
  | ECreate d _ => Some d
  | EDelete _ _ => Some None
  | EChange (Some p) _ => Some (dp_Post p)
  | _ => None
  end.

(** ** Messages and the wire *)

(** What a message is rendered from. *)
Inductive shown : Type :=
| ShStr (s : string)
| ShText (t : text)
| ShSourceID (sid : SourceID)
| ShDeployment (d : option Deployment).

Section Messages.
(** [fmt.Sprintf]: no decision reads what it renders. *)
Context (sprintf : string → list shown → string).

(** [Error] of a change error without a pair would panic; the deployer always
    sets one, and the empty string stands for that case. *)
Fixpoint Error (e : err) : string :=
  let shown_err (o : option err) := match o with Some e' => Error e' | None => "<nil>" end in
  let wrapped (w : ErrorWrapper) :=
    match w with mkErrorWrapper _ s inner => match inner with Some e' => Error e' | None => s end end in
  match e with
  | EOther _ msg => sprintf "%s" [ShText msg]
  | EErrorf format e' => sprintf format [ShStr (Error e')]
  | ECause _ msg e' => sprintf "%s: %s" [ShText msg; ShStr (Error e')]
  | EWrapper w | EWrapperVal w => wrapped w
  | EMissingImageName c => sprintf "Image name unknown to Sous for source IDs: %s" [ShStr (Error c)]
  | EFailedStatus => "Deploy failed on Singularity."
  | EUnacceptableAdvisory q sid =>
      sprintf "Advisory unacceptable on image: %s for %v" [ShStr (q_Name q); ShSourceID sid]
  | ECreate d o => sprintf "Couldn't create deployment
  %+v: %v" [ShDeployment d; ShStr (shown_err o)]
  | EDelete d o => sprintf "%v: Couldn't delete deployment %+v" [ShStr (shown_err o); ShDeployment d]
  | EChange (Some p) o => sprintf "%v: Couldn't change from deployment
  %+v

  to deployment

  %+v" [ShStr (shown_err o); ShDeployment (dp_Prior p); ShDeployment (dp_Post p)]
  | EChange None o => ""
  | EResolve causes => join "
  " ("Errors during resolve:" :: map wrapped causes)
  end.

Definition buildMarshableError (e : option err) : string * string :=
  match e with
  | Some e => (type_name e, sprintf "%s" [ShStr (Error e)])
  | None => ("<nil>", "Failed to marshal error, it was NULL")
  end.

(** What a client decodes of a wrapper that a server encoded. *)
Definition over_the_wire (w : ErrorWrapper) : ErrorWrapper :=
  let '(t, s) := buildMarshableError (ew_error w) in mkErrorWrapper t s None.
End Messages.

(** ** Resolutions *)

Record DiffResolution := mkDiffResolution {
  rez_DeploymentID : DeploymentID;
  rez_Desc : ResolutionType;
  rez_Error : option ErrorWrapper;
  rez_DeployState : option DeployState;
  rez_SchedulerURL : string
}.

Definition zeroDeploymentID : DeploymentID := mkDeploymentID (mkManifestID zeroLocation "") "".
Definition zeroResolution : DiffResolution := mkDiffResolution zeroDeploymentID "" None None "".

(** [SameResolution] panics on a pair without a prior side. *)
Definition SameResolution (dp : DeployablePair) : option DiffResolution :=
  dep ← Prior dp;
  Some (mkDiffResolution (Deployment_ID (dep_Deployment dep))
    (if decide (Status dep = DeployStatusPending) then ComingDiff else StableDiff)
    (if decide (Status dep = DeployStatusFailed) then Some (WrapResolveError EFailedStatus) else None)
    None "").

(** The times are [time.Time]s, of which only an identity is needed. *)
Record ResolveStatus := mkResolveStatus {
  Started : string;
  Finished : option string;
  Phase : string;
  Intended : list Deployment;
  Log : list DiffResolution;
  Errs : list ErrorWrapper
}.

Definition rs_Err (rs : ResolveStatus) : option err :=
  match Errs rs with [] => None | _ :: _ => Some (EResolve (Errs rs)) end.

(** The recorder of a resolution: the status, the error that ended a phase and
    whether [finished] was closed. *)
Record ResolveRecorder := mkResolveRecorder {
  rr_status : ResolveStatus;
  rr_err : option err;
  rr_finished : bool
}.

Definition NewResolveRecorder (now : string) (intended : Deployments) : ResolveRecorder :=
  mkResolveRecorder (mkResolveStatus now None "" ((map_to_list intended).*2) [] []) None false.

(** One value received from the [Log] channel. *)
Definition record_resolution (rez : DiffResolution) (rr : ResolveRecorder) : ResolveRecorder :=
  let s := rr_status rr in
  mkResolveRecorder
    (mkResolveStatus (Started s) (Finished s) (Phase s) (Intended s) (Log s ++ [rez])
       (match rez_Error rez with
        | Some w => Errs s ++ [wrap (EWrapper w)]
        | None => Errs s
        end))
    (rr_err rr) (rr_finished rr).

Definition setPhase (phase : string) (rr : ResolveRecorder) : ResolveRecorder :=
  let s := rr_status rr in
  mkResolveRecorder (mkResolveStatus (Started s) (Finished s) phase (Intended s) (Log s) (Errs s))
    (rr_err rr) (rr_finished rr).

Definition doneWithError (e : err) (rr : ResolveRecorder) : ResolveRecorder :=
  mkResolveRecorder (rr_status rr) (Some e) (rr_finished rr).

Definition earlyExit (rr : ResolveRecorder) : bool := bool_decide (is_Some (rr_err rr)).

(** [performPhase], with the phase a function on the recorder and on the
    variables [X] it shares with the other phases. *)
Definition performPhase {X} (name : string)
    (f : ResolveRecorder * X → ResolveRecorder * X * option err)
    (st : ResolveRecorder * X) : ResolveRecorder * X :=
  if earlyExit st.1 then st
  else
    let '(rr, x, e) := f (setPhase name st.1, st.2) in
    match e with Some e => (doneWithError e rr, x) | None => (rr, x) end.

Definition finish (now : string) (rr : ResolveRecorder) : ResolveRecorder :=
  let s := rr_status rr in
  mkResolveRecorder
    (mkResolveStatus (Started s) (Some now)
       (match rr_err rr with None => "finished" | Some _ => Phase s end)
       (Intended s) (Log s) (Errs s))
    (rr_err rr) true.

Definition rr_Done (rr : ResolveRecorder) : bool := rr_finished rr.

(** [Wait], once [finished] was closed. *)
Definition rr_Wait (rr : ResolveRecorder) : option err :=
  match rr_err rr with Some e => Some e | None => rs_Err (rr_status rr) end.

(** The two goroutines of [NewResolveRecorder]: the main function sends on the
    channel [Log], of capacity 10, then closes it and finishes; the other one
    receives and records. *)
Definition Log_cap : nat := 10.

Record recording := mkRecording {
  rc_rr : ResolveRecorder;
  rc_chan : list DiffResolution;
  rc_closed : bool
}.

Inductive rec_event : Type :=
| RecSend (rez : DiffResolution)
| RecReceive
| RecClose
| RecFinish (now : string).

(** [None]: the event cannot happen in that state. *)
Definition rec_step (c : recording) (ev : rec_event) : option recording :=
  match ev with
  | RecSend rez =>
      if decide (rc_closed c = false ∧ (length (rc_chan c) < Log_cap)%nat)
      then Some (mkRecording (rc_rr c) (rc_chan c ++ [rez]) false) else None
  | RecReceive =>
      match rc_chan c with
      | rez :: ch => Some (mkRecording (record_resolution rez (rc_rr c)) ch (rc_closed c))
      | [] => None
      end
  | RecClose =>
      if rc_closed c then None else Some (mkRecording (rc_rr c) (rc_chan c) true)
  | RecFinish now =>
      if decide (rc_closed c = true ∧ rr_finished (rc_rr c) = false)
      then Some (mkRecording (finish now (rc_rr c)) (rc_chan c) true) else None
  end.

Definition rec_run (c : recording) (evs : list rec_event) : option recording :=
  foldl (λ c ev, c ← c; rec_step c ev) (Some c) evs.

Definition sent (evs : list rec_event) : list DiffResolution :=
  omap (λ ev, match ev with RecSend rez => Some rez | _ => None end) evs.

(** ** Lemmas *)

Lemma IsTransient_Cause e : IsTransientResolveError (Cause e) = IsTransientResolveError e.
Proof. by induction e. Qed.

Lemma Cause_not_cause e gt m c : Cause e ≠ ECause gt m c.
Proof. by induction e. Qed.

(** An error as a resolution makes it: not itself a wrapper, not one with a
    cause. *)
Definition direct (e : err) : bool :=
  match e with
  | ECause _ _ _ | EWrapper _ => false
  | EOther t _ => negb (transient_type t)
  | _ => true
  end.

(** ** Properties *)

(** Whether an error may be retried survives the wire: for every error the
    program makes directly, the verdict on the wrapper a client decodes is the
    verdict on the live error. *)
Theorem transient_over_the_wire sprintf (e : err) :
  direct e = true →
  IsTransientResolveError (EWrapper (over_the_wire sprintf (WrapResolveError e))) =
  IsTransientResolveError (EWrapper (WrapResolveError e)).
Proof.
  intros Hd. destruct e; try done; simpl in *; by destruct (transient_type gotype).
Qed.

(** [AnyTransientResolveErrors] is false of every error: the causes it passes
    on are [ErrorWrapper] values, and the type switch knows only pointers.  A
    resolution whose only error is a transient one is so reported not worth
    retrying. *)
Theorem AnyTransientResolveErrors_false :
  (∀ e, AnyTransientResolveErrors e = false) ∧
  ∀ e, IsTransientResolveError e = true →
    IsTransientResolveError (EWrapper (wrap e)) = true ∧
    AnyTransientResolveErrors (EResolve [wrap e]) = false.
Proof.
  split; [|done]. intros e. unfold AnyTransientResolveErrors. destruct (Cause e); try done.
  by induction causes.
Qed.

(** Phases run in order until one fails: the recorder then waits with that
    error whatever the later phases are, keeps the name of the failed phase, and
    the later phases are not run; without a failure the error is that some
    resolution had one. *)
Theorem phases_stop_at_error {X} (now name : string)
    (f : ResolveRecorder * X → ResolveRecorder * X * option err)
    (later : list (string * (ResolveRecorder * X → ResolveRecorder * X * option err)))
    (st : ResolveRecorder * X) (rr : ResolveRecorder) (x : X) (e : err) :
  rr_err (st.1) = None →
  f (setPhase name st.1, st.2) = (rr, x, Some e) →
  Phase (rr_status rr) = name →
  let st' := foldl (λ st '(n, g), performPhase n g st) (performPhase name f st) later in
  st' = (doneWithError e rr, x) ∧
  rr_Wait (finish now st'.1) = Some e ∧ Phase (rr_status (finish now st'.1)) = name.
Proof.
  intros Hn Hf Hp st'.
  assert (st' = (doneWithError e rr, x)) as ->; [|done].
  assert (performPhase name f st = (doneWithError e rr, x)) as Hs.
  { unfold performPhase, earlyExit. rewrite Hn, Hf. by rewrite bool_decide_eq_false_2 by naive_solver. }
  unfold st'. rewrite Hs. clear -e. induction later as [|[n g] later IH]; [done|]. simpl.
  unfold performPhase at 2, earlyExit. by rewrite bool_decide_eq_true_2 by by eexists.
Qed.

Lemma phases_stop_at_error_witness :
  let failing := λ st : ResolveRecorder * nat, (st.1, st.2, Some EFailedStatus) in
  let counting := λ st : ResolveRecorder * nat, (st.1, S st.2, None) in
  let start := (NewResolveRecorder "noon" ∅, 7%nat) in
  let st' := performPhase "creating" counting (performPhase "getting" failing start) in
  st'.2 = 7%nat ∧ rr_Wait (finish "one" st'.1) = Some EFailedStatus ∧
  Phase (rr_status (finish "one" st'.1)) = "getting".
Proof.
  intros failing counting start.
  destruct (phases_stop_at_error "one" "getting" failing [("creating", counting)] start
    (setPhase "getting" start.1) 7%nat EFailedStatus eq_refl eq_refl eq_refl) as (Hst&Hw&Hp).
  split; [exact (f_equal snd Hst)|]. split; [exact Hw|exact Hp].
Defined.


(** What any run of the two goroutines maintains. *)
Record rec_inv (evs : list rec_event) (c : recording) : Prop := {
  ri_sent : Log (rr_status (rc_rr c)) ++ rc_chan c = sent evs;
  ri_errs : Errs (rr_status (rc_rr c)) =
    map (λ w, wrap (EWrapper w)) (omap rez_Error (Log (rr_status (rc_rr c))));
  ri_err : rr_err (rc_rr c) = None
}.

Lemma rec_run_app c evs1 evs2 : rec_run c (evs1 ++ evs2) = rec_run c evs1 ≫= λ c, rec_run c evs2.
Proof.
  unfold rec_run. rewrite foldl_app. destruct (foldl _ _ evs1); [done|].
  by induction evs2.
Qed.

Lemma sent_app evs1 evs2 : sent (evs1 ++ evs2) = sent evs1 ++ sent evs2.
Proof. apply omap_app. Qed.

Lemma rec_step_inv evs c ev c' :
  rec_inv evs c → rec_step c ev = Some c' → rec_inv (evs ++ [ev]) c'.
Proof.
  intros [Hs He Hn]. unfold rec_step.
  destruct ev; intros Hc; case_all; split; simpl; rewrite ?sent_app; simpl;
    rewrite ?app_nil_r; try done.
  - by rewrite app_assoc, Hs.
  - rewrite <-app_assoc. simpl. rewrite <-Hs. congruence.
  - rewrite omap_app, map_app, He. simpl. destruct (rez_Error _); simpl; [done|by rewrite app_nil_r].
Qed.

Lemma rec_run_inv now intended evs c :
  rec_run (mkRecording (NewResolveRecorder now intended) [] false) evs = Some c → rec_inv evs c.
Proof.
  revert c. induction evs as [|ev evs IH] using rev_ind; intros c.
  { unfold rec_run. simpl. intros [= <-]. by split. }
  rewrite rec_run_app. intros Hr. apply bind_Some in Hr as (c1&H1&H2).
  eapply rec_step_inv; [by apply IH|exact H2].
Qed.

Lemma rr_Wait_errs evs c :
  rec_inv evs c →
  (rr_Wait (rc_rr c) = None ↔ Forall (λ rez, rez_Error rez = None) (Log (rr_status (rc_rr c)))).
Proof.
  intros [_ He Hn]. unfold rr_Wait, rs_Err. rewrite Hn, He.
  assert (∀ l, omap rez_Error l = [] ↔ Forall (λ rez, rez_Error rez = None) l) as Hiff.
  { induction l as [|r l IH]; simpl; [done|]. rewrite Forall_cons, <-IH.
    destruct (rez_Error r); naive_solver. }
  rewrite <-Hiff. by destruct (omap rez_Error _).
Qed.

(** However the goroutines of a recorder interleave, the log and the channel
    together are the resolutions sent, in order, and an error is reported exactly
    when a recorded resolution has one; once the channel is drained that is every
    resolution sent. *)
Theorem recorder_keeps_log (now : string) (intended : Deployments) (evs : list rec_event)
    (c : recording) :
  rec_run (mkRecording (NewResolveRecorder now intended) [] false) evs = Some c →
  Log (rr_status (rc_rr c)) ++ rc_chan c = sent evs ∧
  (rr_Wait (rc_rr c) = None ↔ Forall (λ rez, rez_Error rez = None) (Log (rr_status (rc_rr c)))) ∧
  (rc_chan c = [] →
     (rr_Wait (rc_rr c) = None ↔ Forall (λ rez, rez_Error rez = None) (sent evs))).
Proof.
  intros Hr. apply rec_run_inv in Hr as Hinv. pose proof (rr_Wait_errs _ _ Hinv) as Hw.
  destruct Hinv as [Hs _ _]. split_and!; [done|done|].
  intros Hch. rewrite Hch, app_nil_r in Hs. by rewrite Hw, Hs.
Qed.

Lemma recorder_keeps_log_witness :
  let rez := mkDiffResolution zeroDeploymentID "not created" (Some (wrap EFailedStatus)) None "" in
  let evs := [RecSend zeroResolution; RecSend rez; RecReceive; RecClose; RecReceive; RecFinish "one"] in
  ∃ c, rec_run (mkRecording (NewResolveRecorder "noon" ∅) [] false) evs = Some c ∧
    Log (rr_status (rc_rr c)) = [zeroResolution; rez] ∧ rr_Wait (rc_rr c) ≠ None.
Proof.
  intros rez evs. eexists. split; [reflexivity|].
  destruct (recorder_keeps_log "noon" ∅ evs _ eq_refl) as (Hlog&Hwait&_). split.
  - rewrite app_nil_r in Hlog. exact Hlog.
  - intros Hnone%Hwait. by inversion Hnone as [|?? _ Hr]; inversion Hr.
Defined.


(** Nothing makes the recorder wait for its channel: a run can finish, and
    [Wait] can report success, while a resolution with an error is still in it. *)
Theorem recorder_can_lose_error (now1 now2 : string) (intended : Deployments)
    (rez : DiffResolution) (w : ErrorWrapper) :
  rez_Error rez = Some w →
  ∃ c, rec_run (mkRecording (NewResolveRecorder now1 intended) [] false)
         [RecSend rez; RecClose; RecFinish now2] = Some c ∧
       rr_Done (rc_rr c) = true ∧ Phase (rr_status (rc_rr c)) = "finished" ∧
       rr_Wait (rc_rr c) = None ∧ rc_chan c = [rez].
Proof. intros _. eexists. split_and!; reflexivity. Qed.
