(* ===== verification/R11nQueue.v ===== *)
(** * Queues of rectifications (lib/r11n_queue.go, r11n_queue_set.go)

    A queue holds the rectifications of one deployment; one goroutine handles
    them in order.  Its critical sections are the steps of a transition system:
    what a step does between taking and releasing the lock is one function.
    Queued items are shared pointers, so they live in a heap, the list of items
    in the order of their allocation, and the channel and the maps hold their
    addresses. *)

From S2P Require Import Prelude GoStrings Flaw Semv Ids Startup DeployConfig CMap Deployment.
From S2P Require Import Samples State Differ ResolveErrors.
#[local] Open Scope string_scope.
#[local] Open Scope Z_scope.
#[local] Open Scope list_scope.

(** ** Data *)

Record Rectification := mkRectification {
  r_Pair : DeployablePair;
  r_Resolution : DiffResolution
}.

Definition NewRectification (dp : DeployablePair) : Rectification :=
  mkRectification dp zeroResolution.

Abbreviation R11nID := string.
Definition MaxRefsPerR11nQueue : nat := 100.
Definition R11nQueueCapDefault : nat := 10.

(** [closed] is whether the channel [done] was closed. *)
Record QueuedR11n := mkQueuedR11n {
  qr_ID : R11nID;
  Pos : Z;
  qr_Rectification : Rectification;
  closed : bool
}.

Abbreviation addr := nat.

(** Where the goroutine of [Start] is: waiting for an item, holding one it
    received, about to handle it, about to retire it. *)
Inductive worker : Type :=
| Idle
| Received (a : addr)
| Handling (a : addr)
| Handled (a : addr).

(** [fifoRefs] is the ring, read from the current element on. *)
Record R11nQueue := mkR11nQueue {
  cap : nat;
  heap : list QueuedR11n;
  queue : list addr;
  refs : gmap R11nID addr;
  allRefs : gmap R11nID addr;
  fifoRefs : list (option R11nID);
  wk : worker
}.

Definition NewR11nQueue (cap : nat) : R11nQueue :=
  mkR11nQueue cap [] [] ∅ ∅ (replicate MaxRefsPerR11nQueue None) Idle.

(** ** Operations *)

Definition ring_Next {A} (r : list A) : list A :=
  match r with [] => [] | x :: r' => r' ++ [x] end.
Definition ring_set {A} (x : A) (r : list A) : list A :=
  match r with [] => [] | _ :: r' => x :: r' end.

(** [id] is the ID that [NewR11nID] draws.  [None]: the send on the full channel
    blocks, with the lock held. *)
Definition internalPush (id : R11nID) (r : Rectification) (rq : R11nQueue) :
    option (R11nQueue * addr) :=
  let qr := mkQueuedR11n id (Z.of_nat (length (queue rq))) r false in
  let a := length (heap rq) in
  let ring := ring_Next (fifoRefs rq) in
  let all := <[id := a]> (allRefs rq) in
  let all := match head ring with Some (Some idToDelete) => delete idToDelete all | _ => all end in
  if decide (length (queue rq) < cap rq)%nat
  then Some (mkR11nQueue (cap rq) (heap rq ++ [qr]) (queue rq ++ [a]) (<[id := a]> (refs rq))
               all (ring_set (Some id) ring) (wk rq), a)
  else None.

Definition Push (id : R11nID) (r : Rectification) (rq : R11nQueue) :
    option (R11nQueue * option addr) :=
  if decide (length (queue rq) = cap rq) then Some (rq, None)
  else match internalPush id r rq with Some (rq', a) => Some (rq', Some a) | None => None end.

Definition PushIfEmpty (id : R11nID) (r : Rectification) (rq : R11nQueue) :
    option (R11nQueue * option addr) :=
  if decide (size (refs rq) ≠ 0%nat) then Some (rq, None)
  else match internalPush id r rq with Some (rq', a) => Some (rq', Some a) | None => None end.

Definition set_wk (w : worker) (rq : R11nQueue) : R11nQueue :=
  mkR11nQueue (cap rq) (heap rq) (queue rq) (refs rq) (allRefs rq) (fifoRefs rq) w.
Definition set_heap (h : list QueuedR11n) (rq : R11nQueue) : R11nQueue :=
  mkR11nQueue (cap rq) h (queue rq) (refs rq) (allRefs rq) (fifoRefs rq) (wk rq).

(** [qr := <-rq.queue] of [next]. *)
Definition receive (rq : R11nQueue) : option R11nQueue :=
  match wk rq, queue rq with
  | Idle, a :: q =>
      Some (mkR11nQueue (cap rq) (heap rq) q (refs rq) (allRefs rq) (fifoRefs rq) (Received a))
  | _, _ => None
  end.

Definition dec_Pos (qr : QueuedR11n) : QueuedR11n :=
  mkQueuedR11n (qr_ID qr) (Pos qr - 1) (qr_Rectification qr) (closed qr).
Definition set_Resolution (dr : DiffResolution) (qr : QueuedR11n) : QueuedR11n :=
  mkQueuedR11n (qr_ID qr) (Pos qr) (mkRectification (r_Pair (qr_Rectification qr)) dr) (closed qr).
Definition close_done (qr : QueuedR11n) : QueuedR11n :=
  mkQueuedR11n (qr_ID qr) (Pos qr) (qr_Rectification qr) true.

(** [handlePopped], over everything in [allRefs]. *)
Definition handlePopped (all : gmap R11nID addr) (h : list QueuedR11n) : list QueuedR11n :=
  map_fold (λ _ a h, alter dec_Pos a h) h all.

(** The locked part of [next]. *)
Definition popped (rq : R11nQueue) : option R11nQueue :=
  match wk rq with
  | Received a => Some (set_wk (Handling a) (set_heap (handlePopped (allRefs rq) (heap rq)) rq))
  | _ => None
  end.

(** The handler of [R11nQueueStartWithHandler] returns [dr]. *)
Definition handle (dr : DiffResolution) (rq : R11nQueue) : option R11nQueue :=
  match wk rq with
  | Handling a => Some (set_wk (Handled a) (set_heap (alter (set_Resolution dr) a (heap rq)) rq))
  | _ => None
  end.

(** The second critical section of [Start]'s loop. *)
Definition retire (rq : R11nQueue) : option R11nQueue :=
  match wk rq with
  | Handled a =>
      match heap rq !! a with
      | Some qr =>
          Some (mkR11nQueue (cap rq) (alter close_done a (heap rq)) (queue rq)
                  (delete (qr_ID qr) (refs rq)) (allRefs rq) (fifoRefs rq) Idle)
      | None => None
      end
  | _ => None
  end.

Definition ByID (id : R11nID) (rq : R11nQueue) : option QueuedR11n :=
  a ← allRefs rq !! id; heap rq !! a.

(** [None]: [Wait] blocks. *)
Definition Wait (id : R11nID) (rq : R11nQueue) : option (DiffResolution * bool) :=
  match ByID id rq with
  | None => Some (zeroResolution, false)
  | Some qr => if closed qr then Some (r_Resolution (qr_Rectification qr), true) else None
  end.

Definition Len (rq : R11nQueue) : nat := length (queue rq).

(** What [Snapshot] may return: [sort.Slice] is not stable, and the map's order
    is not fixed. *)
Definition is_Snapshot (rq : R11nQueue) (s : list QueuedR11n) : Prop :=
  s ≡ₚ omap (λ a, heap rq !! a) (map_to_list (refs rq)).*2 ∧
  StronglySorted (λ a b, Pos a ≤ Pos b) s.

(** ** Runs *)

Inductive event : Type :=
| EvPush (id : R11nID) (r : Rectification)
| EvPushIfEmpty (id : R11nID) (r : Rectification)
| EvReceive
| EvPopped
| EvHandle (dr : DiffResolution)
| EvRetire.

Definition step (ev : event) (rq : R11nQueue) : option R11nQueue :=
  match ev with
  | EvPush id r => fst <$> Push id r rq
  | EvPushIfEmpty id r => fst <$> PushIfEmpty id r rq
  | EvReceive => receive rq
  | EvPopped => popped rq
  | EvHandle dr => handle dr rq
  | EvRetire => retire rq
  end.

Definition run (evs : list event) (rq : R11nQueue) : option R11nQueue :=
  foldl (λ q ev, q ← q; step ev q) (Some rq) evs.

Definition event_id (ev : event) : option R11nID :=
  match ev with EvPush id _ | EvPushIfEmpty id _ => Some id | _ => None end.
Definition event_resolution (ev : event) : option DiffResolution :=
  match ev with EvHandle dr => Some dr | _ => None end.

(** The IDs drawn in a run are distinct: what a UUID generator is for. *)
Definition fresh_ids (evs : list event) : Prop := NoDup (omap event_id evs).

(** ** The structural invariant *)

Definition ids (rq : R11nQueue) : list R11nID := qr_ID <$> heap rq.
(** How many items were received, and how many of these were retired. *)
Definition taken (rq : R11nQueue) : nat := length (heap rq) - length (queue rq).
Definition busy (rq : R11nQueue) : nat := match wk rq with Idle => 0 | _ => 1 end.
Definition finished (rq : R11nQueue) : nat := taken rq - busy rq.
Definition wk_addr (w : worker) : option addr :=
  match w with Idle => None | Received a | Handling a | Handled a => Some a end.

(** The last [MaxRefsPerR11nQueue] IDs, oldest first, padded in front. *)
Definition last_ids (l : list R11nID) : list (option R11nID) :=
  drop (length l) (replicate MaxRefsPerR11nQueue None ++ (Some <$> l)).

Record inv (rq : R11nQueue) : Prop := {
  i_queue : queue rq = seq (taken rq) (length (queue rq));
  i_len : (length (queue rq) + busy rq ≤ length (heap rq))%nat;
  i_cap : (length (queue rq) ≤ cap rq)%nat;
  i_wk : ∀ a, wk_addr (wk rq) = Some a → a = finished rq;
  i_ids : NoDup (ids rq);
  i_refs : ∀ id a, refs rq !! id = Some a ↔ (finished rq ≤ a)%nat ∧ ids rq !! a = Some id;
  i_all : ∀ id a, allRefs rq !! id = Some a ↔
    (length (heap rq) ≤ a + MaxRefsPerR11nQueue)%nat ∧ ids rq !! a = Some id;
  i_ring : ∃ cur rest, fifoRefs rq = cur :: rest ∧ rest ++ [cur] = last_ids (ids rq)
}.

Lemma inv_init cap : inv (NewR11nQueue cap).
Proof.
  split; simpl; try done; try lia.
  - apply NoDup_nil_2.
  - intros id a. rewrite lookup_empty. unfold ids. simpl. split; [done|]. by intros [_ ?].
  - intros id a. rewrite lookup_empty. unfold ids. simpl. split; [done|]. by intros [_ ?].
  - exists None, (replicate 99 None). by vm_compute.
Qed.

Lemma last_ids_length l : length (last_ids l) = MaxRefsPerR11nQueue.
Proof. unfold last_ids. rewrite length_drop, length_app, length_replicate, length_fmap. lia. Qed.

Lemma last_ids_snoc l id x rest :
  last_ids l = x :: rest → last_ids (l ++ [id]) = rest ++ [Some id].
Proof.
  unfold last_ids. intros H. rewrite length_app, fmap_app, app_assoc.
  rewrite drop_app_le by (rewrite length_app, length_replicate, length_fmap;
    unfold MaxRefsPerR11nQueue; cbn [length]; lia).
  f_equal. by rewrite <-drop_drop, H.
Qed.

(** The oldest of the last IDs is that of the item [MaxRefsPerR11nQueue] back. *)
Lemma last_ids_head l x rest :
  last_ids l = x :: rest →
  match x with
  | Some id => ∃ a, l !! a = Some id ∧ (a + MaxRefsPerR11nQueue)%nat = length l
  | None => (length l < MaxRefsPerR11nQueue)%nat
  end.
Proof.
  unfold last_ids. intros H. assert ((replicate MaxRefsPerR11nQueue None ++ (Some <$> l)) !! length l = Some x) as Hx.
  { rewrite <-(Nat.add_0_r (length l)), <-lookup_drop, H. done. }
  apply lookup_app_Some in Hx as [Hx|[Hlen Hx]].
  - apply lookup_replicate in Hx as [-> ?]. done.
  - rewrite length_replicate in *. apply list_lookup_fmap_Some in Hx as (id&->&Hid).
    eexists. split; [done|]. lia.
Qed.

(** IDs at two addresses are different. *)
Lemma inv_ids_inj rq a b id : inv rq → ids rq !! a = Some id → ids rq !! b = Some id → a = b.
Proof. intros Hi Ha Hb. eapply NoDup_lookup; [apply (i_ids _ Hi)|done|done]. Qed.

Lemma ids_length rq : length (ids rq) = length (heap rq).
Proof. apply length_fmap. Qed.

(** Changing items but not their IDs keeps the structure. *)
Lemma inv_heap rq h : qr_ID <$> h = ids rq → inv rq → inv (set_heap h rq).
Proof.
  intros Hh [Hq Hl Hc Hw Hi Hr Ha Hg].
  assert (length h = length (heap rq)) as Hlen by (by rewrite <-(length_fmap qr_ID), Hh, ids_length).
  split; unfold ids, finished, taken, busy, set_heap in *; cbn in *; rewrite ?Hh, ?Hlen; try done.
Qed.

(** A worker that stays on its item keeps the structure. *)
Lemma inv_wk rq w a :
  wk_addr (wk rq) = Some a → wk_addr w = Some a → inv rq → inv (set_wk w rq).
Proof.
  intros Ha Hw [Hq Hl Hc Hwk Hi Hr Hal Hg].
  assert (busy (set_wk w rq) = busy rq) as Hb
    by (unfold busy, set_wk; cbn; by destruct w, (wk rq)).
  assert (finished (set_wk w rq) = finished rq) as Hf by (unfold finished; by rewrite Hb).
  split; rewrite ?Hf, ?Hb; try done. unfold set_wk. cbn. rewrite Hw. intros ? [= <-]. auto.
Qed.

Lemma alter_ids f (a : addr) (h : list QueuedR11n) : (∀ qr, qr_ID (f qr) = qr_ID qr) → qr_ID <$> alter f a h = qr_ID <$> h.
Proof.
  intros Hf. apply list_eq. intros i. rewrite !list_lookup_fmap.
  destruct (decide (i = a)) as [->|Hne].
  - rewrite list_lookup_alter_eq. by destruct (h !! a); simpl; rewrite ?Hf.
  - by rewrite list_lookup_alter_ne.
Qed.

Lemma handlePopped_ids all h : qr_ID <$> handlePopped all h = qr_ID <$> h.
Proof.
  unfold handlePopped. apply (map_fold_weak_ind (λ h' _, qr_ID <$> h' = qr_ID <$> h)); [done|].
  intros i a m r _ IH. by rewrite alter_ids.
Qed.

(** *** Pushing *)

Lemma internalPush_inv id r rq rq' a :
  inv rq → id ∉ ids rq → internalPush id r rq = Some (rq', a) →
  inv rq' ∧ a = length (heap rq) ∧
  heap rq' = heap rq ++ [mkQueuedR11n id (Z.of_nat (length (queue rq))) r false] ∧
  taken rq' = taken rq ∧ finished rq' = finished rq ∧ wk rq' = wk rq ∧ cap rq' = cap rq.
Proof.
  intros [Hq Hl Hc Hw Hi Hr Ha (cur&rest&Hring&Hlast)] Hid. unfold internalPush.
  case_decide as Hfull; [|done]. rewrite Hring. cbn [ring_Next].
  set (qr := mkQueuedR11n id _ r false).
  assert (taken rq < length (heap rq) + 1)%nat as Ht by (unfold taken; lia).
  destruct rest as [|x rest].
  { pose proof (last_ids_length (ids rq)) as Hlen. rewrite <-Hlast in Hlen. done. }
  simpl in Hlast. pose proof (last_ids_snoc _ id _ _ (eq_sym Hlast)) as Hsnoc.
  pose proof (last_ids_head _ _ _ (eq_sym Hlast)) as Hhead. rewrite ids_length in Hhead.
  cbn [head app ring_set]. set (all := match x with Some d => _ | None => _ end).
  intros [= <- <-]. set (rq' := mkR11nQueue _ _ _ _ _ _ _).
  assert (ids rq' = ids rq ++ [id]) as Hids by (unfold ids, rq'; cbn; by rewrite fmap_app).
  assert (length (heap rq') = S (length (heap rq))) as Hlh
    by (unfold rq'; cbn; rewrite length_app; simpl; lia).
  assert (length (queue rq') = S (length (queue rq))) as Hlq
    by (unfold rq'; cbn; rewrite length_app; simpl; lia).
  assert (taken rq' = taken rq) as Htk by (unfold taken; rewrite Hlh, Hlq; lia).
  assert (busy rq' = busy rq) as Hb by done.
  assert (finished rq' = finished rq) as Hf by (unfold finished; by rewrite Htk, Hb).
  assert (∀ b i, ids rq' !! b = Some i ↔ ids rq !! b = Some i ∨ b = length (heap rq) ∧ i = id) as Hlook.
  { intros b i. rewrite Hids, lookup_snoc_Some, ids_length. split; [naive_solver|].
    intros [Hb'|[-> ->]]; [left|naive_solver].
    split; [|done]. rewrite <-ids_length. by eapply lookup_lt_Some. }
  assert (finished rq ≤ length (heap rq))%nat as Hfl by (unfold finished, taken; lia).
  split; [|done]. split; rewrite ?Htk, ?Hf, ?Hlq, ?Hb, ?Hlh; try done.
  - unfold rq'. cbn [queue]. rewrite Hq at 1. rewrite seq_S. do 2 f_equal. unfold taken. lia.
  - lia.
  - rewrite Hids. apply NoDup_app. split_and!; [done|set_solver|apply NoDup_singleton].
  - intros i b. rewrite Hlook. unfold rq'. cbn. rewrite lookup_insert_Some, Hr.
    split; [naive_solver lia|]. intros [Hle [Hb'|[-> ->]]]; [right|by left].
    split; [|done]. intros ->. apply Hid. by eapply list_elem_of_lookup_2.
  - intros i b. rewrite Hlook. unfold rq'. cbn. subst all. destruct x as [old|].
    + destruct Hhead as (o&Ho&Hoeq). rewrite lookup_delete_Some, lookup_insert_Some, Ha.
      assert (id ≠ old) as Hne by (intros ->; apply Hid; by eapply list_elem_of_lookup_2).
      unfold MaxRefsPerR11nQueue in *. split.
      * intros [Hio [[-> <-]|[Hne' [Hle Hb']]]]; [split; [lia|by right]|].
        split; [|by left]. assert (b ≠ o) by (intros ->; congruence). lia.
      * intros [Hle [Hb'|[-> ->]]]; [|by split; [|left]].
        split; [|right; split; [intros ->; apply Hid; by eapply list_elem_of_lookup_2|split; [lia|done]]].
        intros ->. assert (b = o) by (by eapply NoDup_lookup). lia.
    + rewrite lookup_insert_Some, Ha. unfold MaxRefsPerR11nQueue in *. split.
      * intros [[-> <-]|[Hne' [Hle Hb']]]; [split; [lia|by right]|]. split; [|by left].
        apply lookup_lt_Some in Hb'. rewrite ids_length in Hb'. lia.
      * intros [Hle [Hb'|[-> ->]]]; [right|by left].
        split; [intros ->; apply Hid; by eapply list_elem_of_lookup_2|]. split; [lia|done].
  - exists (Some id), (rest ++ [cur]). split; [done|]. by rewrite Hids, Hsnoc.
Qed.

(** *** The worker *)

Lemma receive_inv rq rq' :
  inv rq → receive rq = Some rq' →
  inv rq' ∧ wk rq = Idle ∧ wk rq' = Received (taken rq) ∧ heap rq' = heap rq ∧ cap rq' = cap rq ∧
  taken rq' = S (taken rq) ∧ finished rq' = finished rq ∧ allRefs rq' = allRefs rq.
Proof.
  intros [Hq Hl Hc Hw Hi Hr Ha Hg]. unfold receive.
  destruct (wk rq) eqn:Hwk; try done. destruct (queue rq) as [|a q] eqn:Hqe; [done|].
  intros [= <-]. simpl in *. injection Hq as Haq Hq.
  assert (busy rq = 0%nat) as Hb by (unfold busy; by rewrite Hwk).
  assert (finished rq = taken rq) as Hf by (unfold finished; lia).
  set (rq' := mkR11nQueue _ _ _ _ _ _ _).
  assert (taken rq' = S (taken rq)) as Ht.
  { unfold taken, rq'. cbn [heap queue]. rewrite Hqe. cbn [length]. lia. }
  assert (finished rq' = taken rq) as Hf' by (unfold finished; rewrite Ht; cbn; lia).
  subst a. split; [|by rewrite Hf, Hf'].
  split; rewrite ?Ht, ?Hf'; unfold rq'; cbn; try done; try lia.
  - congruence.
  - intros id a. by rewrite Hr, Hf.
Qed.

Lemma popped_inv rq rq' :
  inv rq → popped rq = Some rq' →
  inv rq' ∧ wk rq = Received (finished rq) ∧ wk rq' = Handling (finished rq) ∧
  heap rq' = handlePopped (allRefs rq) (heap rq) ∧ cap rq' = cap rq ∧
  taken rq' = taken rq ∧ finished rq' = finished rq.
Proof.
  intros Hinv. unfold popped. destruct (wk rq) as [|a|a|a] eqn:Hwk; try done. intros [= <-].
  assert (a = finished rq) as -> by (apply (i_wk _ Hinv); by rewrite Hwk).
  set (h := handlePopped _ _). assert (qr_ID <$> h = ids rq) as Hh by apply handlePopped_ids.
  assert (length h = length (heap rq)) as Hlen by (by rewrite <-(length_fmap qr_ID), Hh, ids_length).
  split.
  - eapply inv_wk; [cbn; by rewrite Hwk|done|]. by apply inv_heap.
  - unfold finished, taken, busy, set_wk, set_heap. cbn. by rewrite Hlen, Hwk.
Qed.

Lemma handle_inv dr rq rq' :
  inv rq → handle dr rq = Some rq' →
  inv rq' ∧ wk rq = Handling (finished rq) ∧ wk rq' = Handled (finished rq) ∧
  heap rq' = alter (set_Resolution dr) (finished rq) (heap rq) ∧ cap rq' = cap rq ∧
  taken rq' = taken rq ∧ finished rq' = finished rq.
Proof.
  intros Hinv. unfold handle. destruct (wk rq) as [|a|a|a] eqn:Hwk; try done. intros [= <-].
  assert (a = finished rq) as -> by (apply (i_wk _ Hinv); by rewrite Hwk).
  split.
  - eapply inv_wk; [cbn; by rewrite Hwk|done|]. apply inv_heap; [|done]. by apply alter_ids.
  - unfold finished, taken, busy, set_wk, set_heap. cbn. by rewrite length_alter, Hwk.
Qed.

Lemma retire_inv rq rq' :
  inv rq → retire rq = Some rq' →
  inv rq' ∧ wk rq = Handled (finished rq) ∧ wk rq' = Idle ∧
  heap rq' = alter close_done (finished rq) (heap rq) ∧ cap rq' = cap rq ∧
  taken rq' = taken rq ∧ finished rq' = S (finished rq).
Proof.
  intros Hinv. unfold retire. destruct (wk rq) as [|a|a|a] eqn:Hwk; try done.
  assert (a = finished rq) as -> by (apply (i_wk _ Hinv); by rewrite Hwk).
  destruct (heap rq !! finished rq) as [qr|] eqn:Hqr; [|done]. intros [= <-].
  destruct Hinv as [Hq Hl Hc Hw Hi Hr Ha Hg].
  assert (busy rq = 1%nat) as Hb by (unfold busy; by rewrite Hwk).
  set (rq' := mkR11nQueue _ _ _ _ _ _ _).
  assert (length (heap rq') = length (heap rq)) as Hlh by apply length_alter.
  assert (ids rq' = ids rq) as Hids by (by apply alter_ids).
  assert (taken rq' = taken rq) as Ht by (unfold taken; by rewrite Hlh).
  assert (1 ≤ taken rq)%nat as Ht1 by (unfold taken; lia).
  assert (finished rq' = S (finished rq)) as Hf by (unfold finished; rewrite Ht, Hb; cbn; lia).
  assert (ids rq !! finished rq = Some (qr_ID qr)) as Hid by (unfold ids; by rewrite list_lookup_fmap, Hqr).
  split; [|done].
  split; rewrite ?Hids, ?Hlh, ?Ht, ?Hf; unfold rq'; cbn; try done; try lia.
  intros id a. rewrite lookup_delete_Some, Hr. split.
  - intros (Hne&Hle&Hida). split; [|done]. assert (a ≠ finished rq) by (intros ->; congruence). lia.
  - intros [Hle Hida]. split_and!; [|lia|done]. intros <-.
    assert (a = finished rq) by (by eapply NoDup_lookup). lia.
Qed.

(** ** Runs keep the invariant *)

Lemma Push_cases id r rq rq' o :
  Push id r rq = Some (rq', o) →
  (length (queue rq) = cap rq ∧ rq' = rq ∧ o = None) ∨
  (length (queue rq) ≠ cap rq ∧ ∃ a, o = Some a ∧ internalPush id r rq = Some (rq', a)).
Proof.
  unfold Push. case_decide; [intros [= <- <-]; by left|].
  destruct (internalPush id r rq) as [[rq1 a]|]; [|done]. intros [= <- <-]. right. eauto.
Qed.

Lemma PushIfEmpty_cases id r rq rq' o :
  PushIfEmpty id r rq = Some (rq', o) →
  (refs rq ≠ ∅ ∧ rq' = rq ∧ o = None) ∨
  (refs rq = ∅ ∧ ∃ a, o = Some a ∧ internalPush id r rq = Some (rq', a)).
Proof.
  unfold PushIfEmpty. rewrite map_size_ne_0_iff || idtac.
  case_decide as Hsz.
  - intros [= <- <-]. left. split; [|done]. intros He. by rewrite He in Hsz.
  - destruct (internalPush id r rq) as [[rq1 a]|]; [|done]. intros [= <- <-]. right. split; [|eauto].
    apply map_size_empty_iff. destruct (decide (size (refs rq) = 0%nat)); [done|]. by exfalso.
Qed.

(** A pushing event either leaves the queue or pushes. *)
Lemma push_event ev id rq rq' :
  event_id ev = Some id → step ev rq = Some rq' →
  rq' = rq ∨ ∃ r a, (ev = EvPush id r ∨ ev = EvPushIfEmpty id r) ∧
                    internalPush id r rq = Some (rq', a).
Proof.
  destruct ev as [i r|i r| | | |]; intros [= ->] Hs; simpl in Hs; apply fmap_Some in Hs as ([q o]&Hp&->).
  - apply Push_cases in Hp as [(_&->&_)|(_&a&_&Hp)]; eauto 8.
  - apply PushIfEmpty_cases in Hp as [(_&->&_)|(_&a&_&Hp)]; eauto 8.
Qed.

Lemma step_inv ev rq rq' :
  inv rq → (∀ id, event_id ev = Some id → id ∉ ids rq) → step ev rq = Some rq' → inv rq'.
Proof.
  intros Hi Hfresh Hs. destruct (event_id ev) as [id|] eqn:Hev.
  - destruct (push_event ev id rq rq' Hev Hs) as [->|(r&a&_&Hp)]; [done|].
    by eapply internalPush_inv in Hp as [? _]; [|done|by apply Hfresh].
  - destruct ev; try done; simpl in Hs.
    + by eapply receive_inv in Hs as [? _].
    + by eapply popped_inv in Hs as [? _].
    + by eapply handle_inv in Hs as [? _].
    + by eapply retire_inv in Hs as [? _].
Qed.

(** The IDs in the heap are among those the run drew. *)
Lemma step_ids ev rq rq' id :
  inv rq → (∀ id, event_id ev = Some id → id ∉ ids rq) → step ev rq = Some rq' →
  id ∈ ids rq' → id ∈ ids rq ∨ event_id ev = Some id.
Proof.
  intros Hi Hfresh Hs. destruct (event_id ev) as [i|] eqn:Hev.
  - destruct (push_event ev i rq rq' Hev Hs) as [->|(r&a&_&Hp)]; [auto|].
    eapply internalPush_inv in Hp as (_&_&Hh&_); [|done|by apply Hfresh].
    unfold ids. rewrite Hh, fmap_app, elem_of_app. simpl. rewrite list_elem_of_singleton. naive_solver.
  - destruct ev; try done; simpl in Hs.
    + eapply receive_inv in Hs as (_&_&_&Hh&_); [|done]. unfold ids. rewrite Hh. auto.
    + eapply popped_inv in Hs as (_&_&_&Hh&_); [|done]. unfold ids. rewrite Hh, handlePopped_ids. auto.
    + eapply handle_inv in Hs as (_&_&_&Hh&_); [|done]. unfold ids. rewrite Hh, alter_ids by done. auto.
    + eapply retire_inv in Hs as (_&_&_&Hh&_); [|done]. unfold ids. rewrite Hh, alter_ids by done. auto.
Qed.

Lemma run_app evs1 evs2 rq : run (evs1 ++ evs2) rq = run evs1 rq ≫= run evs2.
Proof.
  unfold run. rewrite foldl_app. destruct (foldl _ _ evs1); [done|]. by induction evs2.
Qed.

(** Rule induction on runs: what holds at the start and is kept by each step with
    a fresh ID holds at the end, together with the invariant. *)
Lemma run_ind (P : list event → R11nQueue → Prop) cap :
  P [] (NewR11nQueue cap) →
  (∀ evs ev rq rq', inv rq → P evs rq → (∀ id, event_id ev = Some id → id ∉ ids rq) →
     step ev rq = Some rq' → inv rq' → P (evs ++ [ev]) rq') →
  ∀ evs rq, fresh_ids evs → run evs (NewR11nQueue cap) = Some rq → inv rq ∧ P evs rq.
Proof.
  intros H0 Hstep evs.
  enough (∀ rq, fresh_ids evs → run evs (NewR11nQueue cap) = Some rq →
    inv rq ∧ P evs rq ∧ ∀ id, id ∈ ids rq → id ∈ omap event_id evs) as H by naive_solver.
  induction evs as [|ev evs IH] using rev_ind; intros rq Hf.
  { intros [= <-]. split_and!; [apply inv_init|done|set_solver]. }
  rewrite run_app. intros Hr. apply bind_Some in Hr as (rq1&Hr1&Hs).
  unfold fresh_ids in Hf. rewrite omap_app in Hf. apply NoDup_app in Hf as (Hf&Hdis&_).
  destruct (IH rq1 Hf Hr1) as (Hi&HP&Hids). cbn in Hs.
  assert (∀ id, event_id ev = Some id → id ∉ ids rq1) as Hfresh.
  { intros id Hid Hin. apply (Hdis id); [by apply Hids|]. simpl. rewrite Hid. set_solver. }
  assert (inv rq) as Hi' by (by eapply step_inv).
  split_and!; [done|exact (Hstep evs ev rq1 rq Hi HP Hfresh Hs Hi')|]. intros id Hin. rewrite omap_app, elem_of_app.
  destruct (step_ids ev rq1 rq id Hi Hfresh Hs Hin) as [?|Hid]; [left; auto|right].
  simpl. rewrite Hid. set_solver.
Qed.

(** ** Results, and what [handlePopped] does *)

(** An item whose address is in the map is decremented, once; others are not. *)
Lemma handlePopped_lookup (all : gmap R11nID addr) h a qr :
  (∀ i j b, all !! i = Some b → all !! j = Some b → i = j) →
  h !! a = Some qr →
  ((∃ id, all !! id = Some a) → handlePopped all h !! a = Some (dec_Pos qr)) ∧
  ((∀ id, all !! id ≠ Some a) → handlePopped all h !! a = Some qr).
Proof.
  intros Hinj Ha. unfold handlePopped. revert Hinj.
  apply (map_fold_weak_ind (λ h' all, (∀ i j b, all !! i = Some b → all !! j = Some b → i = j) →
    ((∃ id, all !! id = Some a) → h' !! a = Some (dec_Pos qr)) ∧
    ((∀ id, all !! id ≠ Some a) → h' !! a = Some qr))).
  { intros _. split; [|done]. intros [id Hid]. by rewrite lookup_empty in Hid. }
  intros k b m r Hk IH Hinj. destruct IH as [IH1 IH2].
  { intros i j c Hi Hj. eapply Hinj; rewrite lookup_insert_ne; try done; intros ->; congruence. }
  destruct (decide (b = a)) as [->|Hne].
  - rewrite list_lookup_alter_eq. assert (∀ id, m !! id ≠ Some a) as Hno.
    { intros id Hid. assert (id = k) as ->; [|congruence]. eapply Hinj; [|apply lookup_insert_eq].
      rewrite lookup_insert_ne; [done|]. intros ->. congruence. }
    rewrite IH2 by done. split; [done|]. intros Hn. exfalso. apply (Hn k), lookup_insert_eq.
  - rewrite list_lookup_alter_ne by done. split.
    + intros [id Hid]. apply IH1. apply lookup_insert_Some in Hid as [[_ ?]|[_ Hid]]; [done|eauto].
    + intros Hn. apply IH2. intros id Hid. apply (Hn id).
      rewrite lookup_insert_ne; [done|]. intros ->. congruence.
Qed.

Lemma all_inj rq : inv rq → ∀ i j b, allRefs rq !! i = Some b → allRefs rq !! j = Some b → i = j.
Proof. intros Hi i j b [_ H1]%(i_all _ Hi) [_ H2]%(i_all _ Hi). congruence. Qed.

(** Items keep what is not their position. *)
Lemma handlePopped_keeps (all : gmap R11nID addr) h a qr :
  handlePopped all h !! a = Some qr →
  ∃ qr0, h !! a = Some qr0 ∧ qr_Rectification qr = qr_Rectification qr0 ∧ closed qr = closed qr0.
Proof.
  unfold handlePopped. revert qr.
  apply (map_fold_weak_ind (λ h' _, ∀ qr, h' !! a = Some qr → ∃ qr0, h !! a = Some qr0 ∧
    qr_Rectification qr = qr_Rectification qr0 ∧ closed qr = closed qr0)); [eauto|].
  intros k b m r _ IH qr. destruct (decide (b = a)) as [->|Hne].
  - rewrite list_lookup_alter_eq. intros (q&Hq&->)%fmap_Some. exact (IH q Hq).
  - rewrite list_lookup_alter_ne by done. apply IH.
Qed.

Lemma alter_lookup_cases {A} (f : A → A) (a b : addr) (h : list A) x :
  alter f a h !! b = Some x →
  (a = b ∧ ∃ y, h !! b = Some y ∧ x = f y) ∨ (a ≠ b ∧ h !! b = Some x).
Proof.
  destruct (decide (a = b)) as [->|Hne].
  - rewrite list_lookup_alter_eq. intros (y&Hy&->)%fmap_Some. left. eauto.
  - rewrite list_lookup_alter_ne by done. auto.
Qed.

(** How many items went through the handler. *)
Definition handled (rq : R11nQueue) : nat :=
  finished rq + match wk rq with Handled _ => 1 | _ => 0 end.

(** The resolutions handed out are in the items, in order; exactly the retired
    items are closed. *)
Record results (evs : list event) (rq : R11nQueue) : Prop := {
  res_len : length (omap event_resolution evs) = handled rq;
  res_item : ∀ a qr, heap rq !! a = Some qr →
    closed qr = bool_decide (a < finished rq)%nat ∧
    ∀ dr, omap event_resolution evs !! a = Some dr → r_Resolution (qr_Rectification qr) = dr
}.

Lemma event_id_resolution ev id : event_id ev = Some id → event_resolution ev = None.
Proof. by destruct ev. Qed.

Lemma results_step evs ev rq rq' :
  inv rq → results evs rq → (∀ id, event_id ev = Some id → id ∉ ids rq) →
  step ev rq = Some rq' → results (evs ++ [ev]) rq'.
Proof.
  intros Hi [Hlen Hit] Hfresh Hs.
  assert (event_resolution ev = None → omap event_resolution (evs ++ [ev]) = omap event_resolution evs)
    as Hsame by (intros He; rewrite omap_app; simpl; by rewrite He, app_nil_r).
  destruct (event_id ev) as [id|] eqn:Hev.
  - specialize (Hsame (event_id_resolution _ _ Hev)).
    destruct (push_event ev id rq rq' Hev Hs) as [->|(r&b&_&Hp)]; [by split; rewrite ?Hsame|].
    eapply internalPush_inv in Hp as (_&->&Hh&Ht&Hf&Hw&_); [|done|by apply Hfresh].
    split; rewrite Hsame; unfold handled; rewrite ?Hf, ?Hw; [done|].
    intros a qr. rewrite Hh, lookup_snoc_Some. intros [[_ Ha]|[-> <-]]; [by apply Hit|].
    simpl. split.
    + symmetry. apply bool_decide_eq_false_2. unfold finished, taken. lia.
    + intros dr Hdr%lookup_lt_Some. rewrite Hlen in Hdr. pose proof (i_len _ Hi) as Hl.
      unfold handled, finished, taken, busy in *. destruct (wk rq); lia.
  - destruct ev as [| | | |dr|]; try done; simpl in Hs.
    + eapply receive_inv in Hs as (_&Hw&Hw'&Hh&_&_&Hf&_); [|done]. specialize (Hsame eq_refl).
      split; rewrite Hsame; unfold handled in *; rewrite ?Hf, ?Hw', ?Hh, ?Hw in *; [done|apply Hit].
    + eapply popped_inv in Hs as (_&Hw&Hw'&Hh&_&_&Hf); [|done]. specialize (Hsame eq_refl).
      split; rewrite Hsame; unfold handled in *; rewrite ?Hf, ?Hw', ?Hh, ?Hw in *; [done|].
      intros a qr (q0&Hq0&Hr&Hc)%handlePopped_keeps. rewrite Hr, Hc. by apply Hit.
    + eapply handle_inv in Hs as (_&Hw&Hw'&Hh&_&_&Hf); [|done].
      unfold handled in *. rewrite Hw in Hlen.
      split; rewrite omap_app; cbn [omap list_omap event_resolution].
      { unfold handled. rewrite Hw', Hf, length_app, Hlen. simpl. lia. }
      intros a qr. rewrite Hh, Hf.
      intros [[<- (y&Hy&->)]|[Hne Ha]]%alter_lookup_cases; simpl.
      * destruct (Hit _ _ Hy) as [-> _]. split; [done|]. intros dr'.
        rewrite lookup_snoc_Some, Hlen. intros [[? _]|[_ ->]]; [lia|done].
      * destruct (Hit _ _ Ha) as [-> Hr]. split; [done|]. intros dr'.
        rewrite lookup_snoc_Some, Hlen. intros [[_ ?]|[? _]]; [auto|lia].
    + eapply retire_inv in Hs as (_&Hw&Hw'&Hh&_&_&Hf); [|done]. specialize (Hsame eq_refl).
      split; rewrite Hsame; unfold handled in *; rewrite ?Hf, ?Hw', ?Hw in *; [lia|].
      intros a qr. rewrite Hh. intros [[<- (y&Hy&->)]|[Hne Ha]]%alter_lookup_cases; simpl.
      * split; [by rewrite bool_decide_eq_true_2 by lia|]. by apply Hit.
      * destruct (Hit _ _ Ha) as [-> Hr]. split; [apply bool_decide_ext; lia|done].
Qed.

Lemma run_results cap evs rq :
  fresh_ids evs → run evs (NewR11nQueue cap) = Some rq → inv rq ∧ results evs rq.
Proof.
  apply (run_ind results).
  - split; [done|]. intros a qr. simpl. by rewrite lookup_nil.
  - intros evs' ev q q' Hi HP Hf Hs _. by eapply results_step.
Qed.

(** ** Positions *)

Definition pending (rq : R11nQueue) : Z := match wk rq with Received _ => 1 | _ => 0 end.

(** A waiting item's position is its place in the channel, or one less; it is off
    by one when it was pushed between a receive and its critical section. *)
Definition positions (rq : R11nQueue) : Prop :=
  (cap rq < MaxRefsPerR11nQueue)%nat → ∀ a qr, heap rq !! a = Some qr →
    ((taken rq ≤ a)%nat →
       Z.of_nat (a - taken rq) - 1 + pending rq ≤ Pos qr ≤ Z.of_nat (a - taken rq) + pending rq) ∧
    ((finished rq ≤ a < taken rq)%nat → Pos qr ≤ pending rq - 1).

Lemma positions_step ev rq rq' :
  inv rq → positions rq → (∀ id, event_id ev = Some id → id ∉ ids rq) →
  step ev rq = Some rq' → positions rq'.
Proof.
  intros Hi HP Hfresh Hs. destruct (event_id ev) as [id|] eqn:Hev.
  - destruct (push_event ev id rq rq' Hev Hs) as [->|(r&b&_&Hp)]; [done|].
    eapply internalPush_inv in Hp as (_&->&Hh&Ht&Hf&Hw&Hc); [|done|by apply Hfresh].
    unfold positions. rewrite Hc, Ht, Hf, Hh. unfold pending. rewrite Hw. fold (pending rq).
    intros Hcap a qr. rewrite lookup_snoc_Some. intros [[_ Ha]|[-> <-]]; [by apply HP|]. simpl.
    pose proof (i_len _ Hi). unfold pending, taken in *. destruct (wk rq); lia.
  - destruct ev as [| | | |dr|]; try done; simpl in Hs; intros Hcap a qr.
    + eapply receive_inv in Hs as (_&Hw&Hw'&Hh&Hc&Ht&Hf&_); [|done].
      rewrite Hh, Ht, Hf. rewrite Hc in Hcap. unfold pending. rewrite Hw'. intros Ha.
      destruct (HP Hcap a qr Ha) as [H1 H2]. unfold pending in H1, H2. rewrite Hw in H1, H2.
      unfold finished, busy in *. rewrite Hw in *. split; [lia|]. intros Hfa.
      assert (a = taken rq) as -> by lia. lia.
    + eapply popped_inv in Hs as (Hi'&Hw&Hw'&Hh&Hc&Ht&Hf); [|done].
      rewrite Hh, Ht, Hf. rewrite Hc in Hcap. unfold pending. rewrite Hw'. intros Ha.
      assert (length (handlePopped (allRefs rq) (heap rq)) = length (heap rq)) as Hlen
        by (by rewrite <-(length_fmap qr_ID), handlePopped_ids, length_fmap).
      destruct (lookup_lt_is_Some_2 (heap rq) a) as [q0 Hq0].
      { rewrite <-Hlen. by eapply lookup_lt_Some. }
      destruct (HP Hcap a q0 Hq0) as [H1 H2]. unfold pending in H1, H2. rewrite Hw in H1, H2.
      destruct (decide (finished rq ≤ a)%nat) as [Hfa|]; [|unfold finished in *; lia].
      destruct (handlePopped_lookup (allRefs rq) _ _ _ (all_inj _ Hi) Hq0) as [Hd _].
      rewrite Hd in Ha.
      * injection Ha as <-. simpl. lia.
      * exists (qr_ID q0). apply (i_all _ Hi). unfold ids. rewrite list_lookup_fmap, Hq0. split; [|done].
        pose proof (i_cap _ Hi). pose proof (i_len _ Hi). unfold finished, taken, busy in *.
        rewrite Hw in *. lia.
    + eapply handle_inv in Hs as (_&Hw&Hw'&Hh&Hc&Ht&Hf); [|done].
      rewrite Hh, Ht, Hf. rewrite Hc in Hcap. unfold pending. rewrite Hw'.
      unfold positions, pending in HP. rewrite Hw in HP.
      intros [[<- (y&Hy&->)]|[Hne Ha]]%alter_lookup_cases; [exact (HP Hcap _ _ Hy)|exact (HP Hcap _ _ Ha)].
    + eapply retire_inv in Hs as (_&Hw&Hw'&Hh&Hc&Ht&Hf); [|done].
      rewrite Hh, Ht, Hf. rewrite Hc in Hcap. unfold pending. rewrite Hw'.
      unfold positions, pending in HP. rewrite Hw in HP.
      intros [[<- (y&Hy&->)]|[Hne Ha]]%alter_lookup_cases; simpl.
      * destruct (HP Hcap _ _ Hy). split; [done|lia].
      * destruct (HP Hcap _ _ Ha). split; [done|]. intros ?. lia.
Qed.

Lemma step_cap ev rq rq' :
  inv rq → (∀ id, event_id ev = Some id → id ∉ ids rq) → step ev rq = Some rq' → cap rq' = cap rq.
Proof.
  intros Hi Hf Hs. destruct (event_id ev) as [id|] eqn:Hev.
  - destruct (push_event ev id rq rq' Hev Hs) as [->|(r&b&_&Hp)]; [done|].
    eapply internalPush_inv in Hp as (_&_&_&_&_&_&Hc); [done|done|by apply Hf].
  - destruct ev; try done; simpl in Hs.
    + by eapply receive_inv in Hs as (_&_&_&_&Hc&_).
    + by eapply popped_inv in Hs as (_&_&_&_&Hc&_).
    + by eapply handle_inv in Hs as (_&_&_&_&Hc&_).
    + by eapply retire_inv in Hs as (_&_&_&_&Hc&_).
Qed.

Lemma run_facts c evs rq :
  fresh_ids evs → run evs (NewR11nQueue c) = Some rq →
  inv rq ∧ cap rq = c ∧ (∀ i, i ∈ ids rq → i ∈ omap event_id evs) ∧ positions rq.
Proof.
  apply (run_ind (λ evs q, cap q = c ∧ (∀ i, i ∈ ids q → i ∈ omap event_id evs) ∧ positions q)).
  - split_and!; [done| |].
    + unfold ids. simpl. intros i Hin. by apply elem_of_nil in Hin.
    + intros _ a qr. simpl. by rewrite lookup_nil.
  - intros evs' ev q q' Hi (Hcap&Hids&HP) Hf Hs Hi'. split_and!.
    + rewrite <-Hcap. exact (step_cap ev q q' Hi Hf Hs).
    + intros i Hin. rewrite omap_app, elem_of_app.
      destruct (step_ids ev q q' i Hi Hf Hs Hin) as [?|He]; [left; auto|right].
      simpl. rewrite He. set_solver.
    + exact (positions_step ev q q' Hi HP Hf Hs).
Qed.

(** What was retired has a negative position. *)
Definition retired_negative (rq : R11nQueue) : Prop :=
  ∀ a qr, heap rq !! a = Some qr → (a < finished rq)%nat → Pos qr ≤ -1.

Lemma retired_negative_step ev rq rq' :
  inv rq → (cap rq < MaxRefsPerR11nQueue)%nat → positions rq → retired_negative rq →
  (∀ id, event_id ev = Some id → id ∉ ids rq) → step ev rq = Some rq' → retired_negative rq'.
Proof.
  intros Hi Hcap HP HN Hfresh Hs. destruct (event_id ev) as [id|] eqn:Hev.
  - destruct (push_event ev id rq rq' Hev Hs) as [->|(r&b&_&Hp)]; [done|].
    eapply internalPush_inv in Hp as (_&->&Hh&Ht&Hf&_); [|done|by apply Hfresh].
    intros a qr. rewrite Hh, Hf, lookup_snoc_Some. intros [[_ Ha]|[-> _]]; [by apply HN|].
    intros Hlt. unfold finished, taken in Hlt. lia.
  - destruct ev as [| | | |dr|]; try done; simpl in Hs; intros a qr.
    + eapply receive_inv in Hs as (_&_&_&Hh&_&_&Hf&_); [|done]. rewrite Hh, Hf. apply HN.
    + eapply popped_inv in Hs as (_&_&_&Hh&_&_&Hf); [|done]. rewrite Hh, Hf. intros Ha Hlt.
      assert (length (handlePopped (allRefs rq) (heap rq)) = length (heap rq)) as Hlen
        by (by rewrite <-(length_fmap qr_ID), handlePopped_ids, length_fmap).
      destruct (lookup_lt_is_Some_2 (heap rq) a) as [q0 Hq0].
      { rewrite <-Hlen. by eapply lookup_lt_Some. }
      specialize (HN a q0 Hq0 Hlt).
      destruct (handlePopped_lookup (allRefs rq) _ _ _ (all_inj _ Hi) Hq0) as [Hin Hout].
      destruct (decide (a ∈ (map_to_list (allRefs rq)).*2)) as [Hex|Hno].
      * apply list_elem_of_fmap in Hex as ([id b]&->&Hid%elem_of_map_to_list).
        rewrite Hin in Ha by eauto. injection Ha as <-. simpl. simpl in HN. lia.
      * rewrite Hout in Ha; [by simplify_eq|]. intros id Hid. apply Hno, list_elem_of_fmap.
        exists (id, a). split; [done|]. by apply elem_of_map_to_list.
    + eapply handle_inv in Hs as (_&_&_&Hh&_&_&Hf); [|done]. rewrite Hh, Hf.
      intros [[<- (y&Hy&->)]|[_ Ha]]%alter_lookup_cases; simpl; eauto.
    + eapply retire_inv in Hs as (_&Hw&_&Hh&_&Ht&Hf); [|done]. rewrite Hh, Hf.
      intros Ha Hlt. assert (∃ y, heap rq !! a = Some y ∧ Pos qr = Pos y) as (y&Hy&->).
      { apply alter_lookup_cases in Ha as [[<- (y&Hy&->)]|[_ Ha]]; eauto. }
      destruct (decide (a < finished rq)%nat); [by apply (HN a)|].
      destruct (HP Hcap a y Hy) as [_ H2]. unfold pending in H2. rewrite Hw in H2.
      apply H2. unfold finished, busy in *. rewrite Hw in *. lia.
Qed.

Lemma run_retired_negative c evs rq :
  (c < MaxRefsPerR11nQueue)%nat → fresh_ids evs → run evs (NewR11nQueue c) = Some rq → retired_negative rq.
Proof.
  intros Hc Hf Hr. enough (inv rq ∧ cap rq = c ∧ positions rq ∧ retired_negative rq) by naive_solver.
  revert Hf Hr. apply (run_ind (λ _ q, cap q = c ∧ positions q ∧ retired_negative q)).
  - split_and!; [done|by intros _ a qr; simpl; rewrite lookup_nil|by intros a qr; simpl; rewrite lookup_nil].
  - intros evs' ev q q' Hi (Hcap&HP&HN) Hf Hs _. split_and!.
    + rewrite <-Hcap. exact (step_cap ev q q' Hi Hf Hs).
    + exact (positions_step ev q q' Hi HP Hf Hs).
    + apply (retired_negative_step ev q q'); [done|by rewrite Hcap|done..].
Qed.

(** Items stay where they are, and stay retired. *)
Lemma step_mono ev rq rq' :
  inv rq → (∀ id, event_id ev = Some id → id ∉ ids rq) → step ev rq = Some rq' →
  (finished rq ≤ finished rq')%nat ∧ ids rq `prefix_of` ids rq'.
Proof.
  intros Hi Hfresh Hs. destruct (event_id ev) as [id|] eqn:Hev.
  - destruct (push_event ev id rq rq' Hev Hs) as [->|(r&b&_&Hp)]; [done|].
    eapply internalPush_inv in Hp as (_&_&Hh&_&Hf&_); [|done|by apply Hfresh].
    split; [lia|]. unfold ids. rewrite Hh, fmap_app. by apply prefix_app_r.
  - unfold ids. destruct ev as [| | | |dr|]; try done; simpl in Hs.
    + eapply receive_inv in Hs as (_&_&_&Hh&_&_&Hf&_); [|done]. by rewrite Hh, Hf.
    + eapply popped_inv in Hs as (_&_&_&Hh&_&_&Hf); [|done]. by rewrite Hh, Hf, handlePopped_ids.
    + eapply handle_inv in Hs as (_&_&_&Hh&_&_&Hf); [|done]. by rewrite Hh, Hf, alter_ids.
    + eapply retire_inv in Hs as (_&_&_&Hh&_&_&Hf); [|done]. rewrite Hh, alter_ids by done. split; [lia|done].
Qed.

Lemma run_mono c evs evs' rq rq' :
  fresh_ids (evs ++ evs') → run evs (NewR11nQueue c) = Some rq → run (evs ++ evs') (NewR11nQueue c) = Some rq' →
  (finished rq ≤ finished rq')%nat ∧ ids rq `prefix_of` ids rq'.
Proof.
  intros Hf Hr. revert rq' Hf. induction evs' as [|ev evs' IH] using rev_ind; intros rq' Hf Hr'.
  { rewrite app_nil_r in Hr'. by simplify_eq. }
  rewrite app_assoc in Hf, Hr'. rewrite run_app in Hr'. apply bind_Some in Hr' as (rq1&Hr1&Hs). cbn in Hs.
  unfold fresh_ids in Hf. rewrite omap_app in Hf. apply NoDup_app in Hf as (Hf1&Hdis&_).
  destruct (IH rq1 Hf1 Hr1) as [Hfin Hpre]. destruct (run_facts c _ _ Hf1 Hr1) as (Hi&_&Hids&_).
  destruct (step_mono ev rq1 rq' Hi) as [? ?]; [|done|split; [lia|by etrans]].
  intros id Hid Hin. apply (Hdis id); [by apply Hids|]. simpl. rewrite Hid. set_solver.
Qed.

(** ** Occupancy, snapshots, draining *)

Lemma inv_bounds rq :
  inv rq → (finished rq ≤ taken rq ≤ length (heap rq))%nat ∧
           (taken rq = finished rq + busy rq)%nat ∧ (busy rq ≤ 1)%nat.
Proof.
  intros Hi. pose proof (i_len _ Hi). unfold finished, taken.
  assert (busy rq ≤ 1)%nat by (unfold busy; destruct (wk rq); lia). lia.
Qed.

Lemma refs_empty rq : inv rq → refs rq = ∅ ↔ finished rq = length (heap rq).
Proof.
  intros Hi. pose proof (inv_bounds _ Hi) as [Hb _]. split.
  - intros He. destruct (decide (finished rq = length (heap rq))) as [|Hne]; [done|exfalso].
    destruct (lookup_lt_is_Some_2 (ids rq) (finished rq)) as [id Hid]; [rewrite ids_length; lia|].
    assert (refs rq !! id = Some (finished rq)) as Hr by (apply (i_refs _ Hi); auto).
    by rewrite He, lookup_empty in Hr.
  - intros Hf. apply map_eq. intros id. rewrite lookup_empty. destruct (refs rq !! id) as [a|] eqn:Ha; [|done].
    apply (i_refs _ Hi) in Ha as [Hle Ha%lookup_lt_Some]. rewrite ids_length in Ha. lia.
Qed.

(** What is referenced is what was pushed and not retired. *)
Lemma refs_addrs rq :
  inv rq → (map_to_list (refs rq)).*2 ≡ₚ seq (finished rq) (length (heap rq) - finished rq).
Proof.
  intros Hi. apply NoDup_Permutation.
  - apply NoDup_fmap_2_strong; [|apply NoDup_map_to_list].
    intros [i a] [j b] Ha%elem_of_map_to_list Hb%elem_of_map_to_list Heq. simpl in Heq. subst b.
    apply (i_refs _ Hi) in Ha as [_ Ha]. apply (i_refs _ Hi) in Hb as [_ Hb]. congruence.
  - apply NoDup_seq.
  - intros a. rewrite elem_of_seq, list_elem_of_fmap. split.
    + intros ([id b]&->&Hb%elem_of_map_to_list). simpl. apply (i_refs _ Hi) in Hb as [Hle Hb].
      apply lookup_lt_Some in Hb. rewrite ids_length in Hb. lia.
    + intros Ha. destruct (lookup_lt_is_Some_2 (ids rq) a) as [id Hid]; [rewrite ids_length; lia|].
      exists (id, a). split; [done|]. apply elem_of_map_to_list, (i_refs _ Hi). split; [lia|done].
Qed.

Lemma omap_seq {A} (h : list A) k f : omap (λ a, h !! a) (seq f k) = take k (drop f h).
Proof.
  revert f. induction k as [|k IH]; intros f; [done|]. cbn [seq omap list_omap].
  destruct (h !! f) as [x|] eqn:Hx.
  - rewrite (drop_S h x f Hx). cbn [take]. f_equal. apply IH.
  - apply lookup_ge_None in Hx. rewrite (drop_ge h f) by lia. cbn [take].
    change (list_omap ?g ?l) with (omap g l). rewrite IH, drop_ge by lia. apply take_nil.
Qed.

(** The unfinished items in the order they were pushed. *)
Definition unfinished (rq : R11nQueue) : list QueuedR11n := drop (finished rq) (heap rq).

Lemma unfinished_perm rq :
  inv rq → unfinished rq ≡ₚ omap (λ a, heap rq !! a) (map_to_list (refs rq)).*2.
Proof.
  intros Hi. rewrite (refs_addrs rq Hi), omap_seq. unfold unfinished.
  by rewrite take_ge by (rewrite length_drop; lia).
Qed.

(** A list sorted by a bound on each place is strongly sorted. *)
Lemma sorted_by_index (l : list QueuedR11n) :
  (∀ i j a b, (i < j)%nat → l !! i = Some a → l !! j = Some b → Pos a ≤ Pos b) →
  StronglySorted (λ a b, Pos a ≤ Pos b) l.
Proof.
  induction l as [|x l IH]; intros H; constructor.
  - apply IH. intros i j a b Hij Ha Hb. apply (H (S i) (S j)); [lia|done|done].
  - apply Forall_lookup. intros j b Hb. apply (H 0%nat (S j)); [lia|done|done].
Qed.

Lemma unfinished_sorted rq :
  inv rq → positions rq → (cap rq < MaxRefsPerR11nQueue)%nat →
  StronglySorted (λ a b, Pos a ≤ Pos b) (unfinished rq).
Proof.
  intros Hi HP Hc. apply sorted_by_index. intros i j a b Hij Ha Hb. unfold unfinished in *.
  rewrite lookup_drop in Ha, Hb.
  pose proof (inv_bounds _ Hi) as (Hb1&Hb2&Hb3).
  destruct (HP Hc _ _ Ha) as [H1 H2], (HP Hc _ _ Hb) as [H3 _]. lia.
Qed.

Definition quiet (evs : list event) : Prop := Forall (λ ev, event_id ev = None) evs.

(** A worker with something to do retires it, whatever the handler returns. *)
Lemma worker_progress rq dr :
  inv rq → (finished rq < length (heap rq))%nat → wk rq = Idle →
  ∃ rq', run [EvReceive; EvPopped; EvHandle dr; EvRetire] rq = Some rq' ∧ inv rq' ∧ wk rq' = Idle ∧
    length (heap rq') = length (heap rq) ∧ finished rq' = S (finished rq).
Proof.
  intros Hi Hlt Hw. unfold run. cbn [foldl mbind option_bind step].
  assert (∃ q1, receive rq = Some q1) as [q1 H1].
  { unfold receive. rewrite Hw. destruct (queue rq) eqn:Hq; [|by eexists].
    unfold finished, taken, busy in Hlt. rewrite Hq, Hw in Hlt. simpl in Hlt. lia. }
  rewrite H1. cbn. apply (receive_inv _ _ Hi) in H1 as (Hi1&_&Hw1&Hh1&_&_&Hf1&_).
  assert (∃ q2, popped q1 = Some q2) as [q2 H2] by (unfold popped; rewrite Hw1; by eexists).
  rewrite H2. cbn. apply (popped_inv _ _ Hi1) in H2 as (Hi2&_&Hw2&Hh2&_&_&Hf2).
  assert (∃ q3, handle dr q2 = Some q3) as [q3 H3] by (unfold handle; rewrite Hw2; by eexists).
  rewrite H3. cbn. apply (handle_inv _ _ _ Hi2) in H3 as (Hi3&_&Hw3&Hh3&_&_&Hf3).
  assert (length (heap q3) = length (heap rq)) as Hl3.
  { rewrite Hh3, length_alter, Hh2, <-(length_fmap qr_ID), handlePopped_ids, length_fmap. by rewrite Hh1. }
  assert (∃ q4, retire q3 = Some q4) as [q4 H4].
  { unfold retire. rewrite Hw3.
    destruct (lookup_lt_is_Some_2 (heap q3) (finished q2)) as [x ->]; [lia|by eexists]. }
  rewrite H4. apply (retire_inv _ _ Hi3) in H4 as (Hi4&_&Hw4&Hh4&_&_&Hf4).
  exists q4. split_and!; [done|done|done| |lia]. by rewrite Hh4, length_alter.
Qed.

Lemma worker_drains drs rq :
  inv rq → wk rq = Idle → length drs = (length (heap rq) - finished rq)%nat →
  ∃ evs rq', quiet evs ∧ omap event_resolution evs = drs ∧ run evs rq = Some rq' ∧ inv rq' ∧
    length (heap rq') = length (heap rq) ∧ finished rq' = length (heap rq).
Proof.
  revert rq. induction drs as [|dr drs IH]; intros rq Hi Hw Hlen; simpl in Hlen.
  { exists [], rq. split_and!; try done; [constructor|]. pose proof (inv_bounds _ Hi). lia. }
  destruct (worker_progress rq dr Hi) as (q&Hq&Hiq&Hwq&Hlq&Hfq); [lia|done|].
  destruct (IH q Hiq Hwq) as (evs&rq'&Hqu&Hdr&Hr&Hi'&Hl'&Hf'); [lia|].
  exists ([EvReceive; EvPopped; EvHandle dr; EvRetire] ++ evs), rq'. split_and!.
  - apply Forall_app. split; [|done]. by repeat constructor.
  - by rewrite omap_app, Hdr.
  - by rewrite run_app, Hq.
  - done.
  - lia.
  - lia.
Qed.

(** ** Properties *)

(** A run: the first of two rectifications was handled, the second waits. *)
Definition sample_r11n : Rectification :=
  NewRectification (mkDeployablePair None None sample_did NoData None).
Definition sample_resolution : DiffResolution := mkDiffResolution sample_did "updated" None None "".
Definition sample_run : list event :=
  [EvPushIfEmpty "a" sample_r11n; EvReceive; EvPush "b" sample_r11n; EvPopped;
   EvHandle sample_resolution; EvRetire].

Lemma sample_run_fresh : fresh_ids sample_run.
Proof. apply (bool_decide_unpack _). vm_compute. exact I. Qed.

(** C4.  One rectification per deployment: [PushIfEmpty] never blocks, and accepts
    exactly when everything pushed before was handled and retired; [Push] never
    blocks, and refuses exactly when the channel is full. *)
Theorem Push_occupancy (c : nat) (evs : list event) (rq : R11nQueue) (id : R11nID) (r : Rectification) :
  (0 < c)%nat → fresh_ids evs → run evs (NewR11nQueue c) = Some rq → id ∉ omap event_id evs →
  (finished rq = length (heap rq) →
     ∃ rq', PushIfEmpty id r rq = Some (rq', Some (length (heap rq))) ∧ ByID id rq' ≠ None) ∧
  (finished rq ≠ length (heap rq) → PushIfEmpty id r rq = Some (rq, None)) ∧
  (length (queue rq) = c → Push id r rq = Some (rq, None)) ∧
  (length (queue rq) ≠ c →
     ∃ rq', Push id r rq = Some (rq', Some (length (heap rq))) ∧ ByID id rq' ≠ None).
Proof.
  intros Hc Hf Hr Hid.
  destruct (run_facts c evs rq Hf Hr) as (Hi&Hcap&Hids&_).
  assert (id ∉ ids rq) as Hfresh by auto.
  assert ((length (queue rq) < c)%nat → ∃ rq',
    internalPush id r rq = Some (rq', length (heap rq)) ∧ ByID id rq' ≠ None) as Hpush.
  { intros Hlt. destruct (internalPush id r rq) as [[rq' a]|] eqn:Hp.
    2: { exfalso. unfold internalPush in Hp. rewrite Hcap in Hp. by rewrite decide_True in Hp. }
    apply internalPush_inv in Hp as (Hi'&->&Hh&_); [|done|done]. exists rq'. split; [done|].
    unfold ByID. assert (allRefs rq' !! id = Some (length (heap rq))) as ->.
    { apply (i_all _ Hi'). unfold ids. rewrite Hh, length_app, fmap_app. simpl.
      split; [unfold MaxRefsPerR11nQueue; lia|]. apply lookup_snoc_Some. right. by rewrite length_fmap. }
    simpl. rewrite Hh. by rewrite lookup_app_r, Nat.sub_diag by lia. }
  pose proof (i_cap _ Hi) as Hq. rewrite Hcap in Hq. pose proof (inv_bounds _ Hi) as Hb.
  split_and!.
  - intros Hfin. apply (refs_empty _ Hi) in Hfin as He. destruct Hpush as (rq'&Hp&Hby).
    { unfold finished, taken in *. destruct (length (queue rq)) eqn:Hlq; [lia|].
      pose proof (i_len _ Hi). lia. }
    exists rq'. split; [|done]. unfold PushIfEmpty. rewrite He, map_size_empty, Hp.
    by rewrite decide_False by naive_solver.
  - intros Hfin. unfold PushIfEmpty. rewrite decide_True; [done|]. intros Hz.
    apply map_size_empty_iff, (refs_empty _ Hi) in Hz. done.
  - intros Hfull. unfold Push. by rewrite decide_True by congruence.
  - intros Hnf. destruct Hpush as (rq'&Hp&Hby); [lia|]. exists rq'. split; [|done].
    unfold Push. rewrite decide_False by congruence. by rewrite Hp.
Qed.

Lemma Push_occupancy_witness :
  ∃ rq, run sample_run (NewR11nQueue 10) = Some rq ∧
    PushIfEmpty "c" sample_r11n rq = Some (rq, None) ∧
    ∃ rq', Push "c" sample_r11n rq = Some (rq', Some 2%nat) ∧ ByID "c" rq' ≠ None.
Proof.
  eexists. split; [vm_compute; reflexivity|].
  edestruct (Push_occupancy 10 sample_run) with (id := "c") (r := sample_r11n) as (_&Hif&_&Hpush).
  - lia.
  - apply sample_run_fresh.
  - vm_compute. reflexivity.
  - apply (bool_decide_unpack _). vm_compute. exact I.
  - split; [apply Hif; by vm_compute|]. apply Hpush. by vm_compute.
Defined.


(** C5.  Rectifications are handled once each, in the order they were pushed, and
    [Wait] hands out exactly their results: for one of the last
    [MaxRefsPerR11nQueue] pushes it returns the resolution of its own handling
    once that was retired, and blocks before; an older one it no longer knows. *)
Theorem Wait_spec (c : nat) (evs : list event) (rq : R11nQueue) (a : addr) (id : R11nID) :
  fresh_ids evs → run evs (NewR11nQueue c) = Some rq → ids rq !! a = Some id →
  ((length (heap rq) ≤ a + MaxRefsPerR11nQueue)%nat → (a < finished rq)%nat →
     ∃ dr, omap event_resolution evs !! a = Some dr ∧ Wait id rq = Some (dr, true)) ∧
  ((length (heap rq) ≤ a + MaxRefsPerR11nQueue)%nat → (finished rq ≤ a)%nat → Wait id rq = None) ∧
  ((a + MaxRefsPerR11nQueue < length (heap rq))%nat → Wait id rq = Some (zeroResolution, false)).
Proof.
  intros Hf Hr Hid. destruct (run_results c evs rq Hf Hr) as [Hi [Hlen Hit]].
  unfold ids in Hid. apply list_lookup_fmap_Some in Hid as (qr&Hid&Hqr). subst id.
  destruct (Hit _ _ Hqr) as [Hc Hdr].
  assert ((length (heap rq) ≤ a + MaxRefsPerR11nQueue)%nat → ByID (qr_ID qr) rq = Some qr) as Hby.
  { intros Hle. unfold ByID. assert (allRefs rq !! qr_ID qr = Some a) as ->; [|done].
    apply (i_all _ Hi). split; [done|]. unfold ids. by rewrite list_lookup_fmap, Hqr. }
  unfold Wait. split_and!.
  - intros Hle Hlt. rewrite Hby, Hc, bool_decide_eq_true_2 by done.
    destruct (lookup_lt_is_Some_2 (omap event_resolution evs) a) as [dr Hd].
    { rewrite Hlen. unfold handled. lia. }
    exists dr. split; [done|]. by rewrite (Hdr _ Hd).
  - intros Hle Hge. by rewrite Hby, Hc, bool_decide_eq_false_2 by (done || lia).
  - intros Hold. unfold ByID. destruct (allRefs rq !! qr_ID qr) as [b|] eqn:Hb; [exfalso|done].
    apply (i_all _ Hi) in Hb as [Hle Hb].
    assert (b = a); [|lia]. eapply inv_ids_inj; [done|done|].
    unfold ids. by rewrite list_lookup_fmap, Hqr.
Qed.

Lemma Wait_spec_witness :
  ∃ rq, run sample_run (NewR11nQueue 10) = Some rq ∧
    (∃ dr, [sample_resolution] !! 0%nat = Some dr ∧ Wait "a" rq = Some (dr, true)) ∧ Wait "b" rq = None.
Proof.
  eexists. split; [vm_compute; reflexivity|]. split.
  - refine (proj1 (Wait_spec 10 sample_run _ 0%nat "a" sample_run_fresh _ _) _ _);
      [vm_compute; reflexivity|reflexivity|cbn; unfold MaxRefsPerR11nQueue; lia|cbn; lia].
  - refine (proj1 (proj2 (Wait_spec 10 sample_run _ 1%nat "b" sample_run_fresh _ _)) _ _);
      [vm_compute; reflexivity|reflexivity|cbn; unfold MaxRefsPerR11nQueue; lia|cbn; lia].
Defined.


(** The unfinished rectifications in the order they were pushed are a
    [Snapshot] of the queue, in every reachable state; a waiting one's position
    is its place in the channel or, while its predecessor is being taken, up to
    one off. *)
Theorem Snapshot_in_push_order (c : nat) (evs : list event) (rq : R11nQueue) :
  (c < MaxRefsPerR11nQueue)%nat → fresh_ids evs → run evs (NewR11nQueue c) = Some rq →
  is_Snapshot rq (unfinished rq) ∧
  ∀ k a qr, queue rq !! k = Some a → heap rq !! a = Some qr →
    Z.of_nat k - 1 ≤ Pos qr ≤ Z.of_nat k + 1.
Proof.
  intros Hc Hf Hr.
  destruct (run_facts c evs rq Hf Hr) as (Hi&Hcap&_&HP).
  split.
  - split; [by apply unfinished_perm|]. apply unfinished_sorted; [done|done|by rewrite Hcap].
  - intros k a qr Hk Ha. rewrite (i_queue _ Hi), lookup_seq in Hk. destruct Hk as [-> Hk].
    destruct (HP ltac:(by rewrite Hcap) _ _ Ha) as [H1 _]. specialize (H1 ltac:(lia)).
    unfold pending in H1. destruct (wk rq); lia.
Qed.

Lemma Snapshot_in_push_order_witness :
  ∃ rq, run sample_run (NewR11nQueue 10) = Some rq ∧ is_Snapshot rq (unfinished rq) ∧
    qr_ID <$> unfinished rq = ["b"].
Proof.
  eexists. split; [vm_compute; reflexivity|]. split; [|reflexivity].
  refine (proj1 (Snapshot_in_push_order 10 sample_run _ _ sample_run_fresh _)).
  - unfold MaxRefsPerR11nQueue. lia.
  - vm_compute. reflexivity.
Defined.


(** The queue cannot always tell its order from the positions: an item pushed
    between the worker's receive and its critical section shares the position of
    the item being handled, so a snapshot may list it first. *)
Theorem Snapshot_race (r1 r2 : Rectification) :
  ∃ rq x y, run [EvPush "a" r1; EvReceive; EvPush "b" r2; EvPopped] (NewR11nQueue 10) = Some rq ∧
    unfinished rq = [x; y] ∧ wk rq = Handling 0%nat ∧ queue rq = [1%nat] ∧ Pos x = -1 ∧ Pos y = -1 ∧
    is_Snapshot rq [x; y] ∧ is_Snapshot rq [y; x].
Proof.
  eexists _, _, _. split; [vm_compute; reflexivity|]. split; [vm_compute; reflexivity|].
  split_and!; try reflexivity; (split; [|by repeat constructor]); vm_compute; [done|].
  apply Permutation_swap.
Qed.

(** C6.  Nothing pushed is stuck: from every reachable state with an idle worker,
    the worker alone can retire all that is unfinished, with whatever results the
    handler yields, and leaves the queue empty. *)
Theorem queue_drains (c : nat) (evs : list event) (rq : R11nQueue) (drs : list DiffResolution) :
  fresh_ids evs → run evs (NewR11nQueue c) = Some rq → wk rq = Idle →
  length drs = length (unfinished rq) →
  ∃ evs' rq', quiet evs' ∧ omap event_resolution evs' = drs ∧
    run (evs ++ evs') (NewR11nQueue c) = Some rq' ∧ refs rq' = ∅ ∧ queue rq' = [] ∧
    Forall (λ qr, closed qr = true) (heap rq').
Proof.
  intros Hf Hr Hw Hlen. destruct (run_results c evs rq Hf Hr) as [Hi _].
  unfold unfinished in Hlen. rewrite length_drop in Hlen.
  destruct (worker_drains drs rq Hi Hw Hlen) as (evs'&rq'&Hq&Hd&Hr'&Hi'&Hl&Hfin).
  exists evs', rq'.
  assert (run (evs ++ evs') (NewR11nQueue c) = Some rq') as Hrun by (by rewrite run_app, Hr).
  assert (fresh_ids (evs ++ evs')) as Hf'.
  { unfold fresh_ids. rewrite omap_app. assert (omap event_id evs' = []) as ->; [|by rewrite app_nil_r].
    clear -Hq. induction Hq as [|ev evs He _ IH]; [done|]. simpl. by rewrite He. }
  destruct (run_results c _ _ Hf' Hrun) as [_ [_ Hit]].
  split_and!; [done|done|done|apply refs_empty; [done|lia]| |].
  - pose proof (inv_bounds _ Hi') as Hb. apply length_zero_iff_nil. unfold finished, taken in *.
    pose proof (i_len _ Hi'). lia.
  - apply Forall_lookup. intros a qr Ha. destruct (Hit _ _ Ha) as [-> _].
    apply bool_decide_eq_true_2. apply lookup_lt_Some in Ha. lia.
Qed.

Lemma queue_drains_witness :
  ∃ evs' rq', quiet evs' ∧ omap event_resolution evs' = [zeroResolution] ∧
    run (sample_run ++ evs') (NewR11nQueue 10) = Some rq' ∧ refs rq' = ∅ ∧ queue rq' = [] ∧
    Forall (λ qr, closed qr = true) (heap rq').
Proof.
  eapply (queue_drains 10 sample_run _ [zeroResolution] sample_run_fresh).
  - vm_compute. reflexivity.
  - reflexivity.
  - reflexivity.
Defined.


(** ** Sets of queues *)

(** [opts] of the set fix the capacity; the handler is that of the events. *)
Record R11nQueueSet := mkR11nQueueSet { rqs_set : gmap DeploymentID R11nQueue; rqs_cap : nat }.

Definition NewR11nQueueSet (cap : nat) : R11nQueueSet := mkR11nQueueSet ∅ cap.

Definition queue_of (did : DeploymentID) (rqs : R11nQueueSet) : R11nQueue :=
  match rqs_set rqs !! did with Some q => q | None => NewR11nQueue (rqs_cap rqs) end.

Definition rqs_with (push : R11nQueue → option (R11nQueue * option addr)) (did : DeploymentID)
    (rqs : R11nQueueSet) : option (R11nQueueSet * option addr) :=
  '(q, o) ← push (queue_of did rqs);
  Some (mkR11nQueueSet (<[did := q]> (rqs_set rqs)) (rqs_cap rqs), o).

Definition rqs_PushIfEmpty (id : R11nID) (r : Rectification) (rqs : R11nQueueSet) :=
  rqs_with (PushIfEmpty id r) (pair_name (r_Pair r)) rqs.
Definition rqs_Push (id : R11nID) (r : Rectification) (rqs : R11nQueueSet) :=
  rqs_with (Push id r) (pair_name (r_Pair r)) rqs.

Definition rqs_Wait (did : DeploymentID) (id : R11nID) (rqs : R11nQueueSet) :
    option (DiffResolution * bool) :=
  match rqs_set rqs !! did with
  | None => Some (zeroResolution, false)
  | Some rq => Wait id rq
  end.

Definition Queues (rqs : R11nQueueSet) : gmap DeploymentID R11nQueue := rqs_set rqs.

(** An event of a set: a push, addressed by its pair, or a step of the worker of
    one of the queues. *)
Inductive set_event : Type :=
| SetPushIfEmpty (id : R11nID) (r : Rectification)
| SetPush (id : R11nID) (r : Rectification)
| SetWorker (did : DeploymentID) (ev : event).

Definition set_step (ev : set_event) (rqs : R11nQueueSet) : option R11nQueueSet :=
  match ev with
  | SetPushIfEmpty id r => fst <$> rqs_PushIfEmpty id r rqs
  | SetPush id r => fst <$> rqs_Push id r rqs
  | SetWorker did ev =>
      match event_id ev, rqs_set rqs !! did with
      | None, Some q =>
          q' ← step ev q; Some (mkR11nQueueSet (<[did := q']> (rqs_set rqs)) (rqs_cap rqs))
      | _, _ => None
      end
  end.

Definition set_run (evs : list set_event) (rqs : R11nQueueSet) : option R11nQueueSet :=
  foldl (λ q ev, q ← q; set_step ev q) (Some rqs) evs.

(** The events of one deployment's queue, among those of the set. *)
Definition event_of (did : DeploymentID) (ev : set_event) : option event :=
  match ev with
  | SetPushIfEmpty id r => if decide (pair_name (r_Pair r) = did) then Some (EvPushIfEmpty id r) else None
  | SetPush id r => if decide (pair_name (r_Pair r) = did) then Some (EvPush id r) else None
  | SetWorker d ev => if decide (d = did) then Some ev else None
  end.

Lemma set_step_queue ev rqs rqs' did :
  set_step ev rqs = Some rqs' →
  rqs_cap rqs' = rqs_cap rqs ∧
  match event_of did ev with
  | Some e => step e (queue_of did rqs) = Some (queue_of did rqs') ∧ is_Some (rqs_set rqs' !! did)
  | None => rqs_set rqs' !! did = rqs_set rqs !! did
  end.
Proof.
  assert (∀ push d q o, rqs_with push d rqs = Some (q, o) →
    rqs_cap q = rqs_cap rqs ∧
    (d = did → fst <$> push (queue_of did rqs) = Some (queue_of did q) ∧ is_Some (rqs_set q !! did)) ∧
    (d ≠ did → rqs_set q !! did = rqs_set rqs !! did)) as Hwith.
  { intros push d q o. unfold rqs_with. intros Hb. apply bind_Some in Hb as ([q1 o1]&Hp&[= <- <-]).
    split_and!; [done| |].
    - intros ->. rewrite Hp. unfold queue_of. cbn [fmap option_fmap option_map fst rqs_set].
      rewrite lookup_insert_eq. split; [reflexivity|by exists q1].
    - intros Hne. simpl. by rewrite lookup_insert_ne. }
  destruct ev as [id r|id r|d ev]; cbn [set_step event_of].
  - intros Hs. apply fmap_Some in Hs as ([q o]&Hp&->). destruct (Hwith _ _ _ _ Hp) as (H1&H2&H3).
    split; [done|]. case_decide; [by apply H2|by apply H3].
  - intros Hs. apply fmap_Some in Hs as ([q o]&Hp&->). destruct (Hwith _ _ _ _ Hp) as (H1&H2&H3).
    split; [done|]. case_decide; [by apply H2|by apply H3].
  - destruct (event_id ev); [done|]. destruct (rqs_set rqs !! d) as [q|] eqn:Hq; [|done].
    intros Hs. apply bind_Some in Hs as (q'&Hs&[= <-]). split; [done|]. case_decide as Hd.
    + subst d. unfold queue_of. rewrite Hq. cbn [rqs_set]. rewrite lookup_insert_eq. split; [done|by eexists].
    + cbn [rqs_set]. by rewrite lookup_insert_ne.
Qed.

(** C7.  A set of queues is one independent queue per deployment: whatever happens
    in the set, each deployment's queue is the one its own events, and no others,
    lead a new queue to, and it exists exactly when it had an event. *)
Theorem queue_set_independent (c : nat) (evs : list set_event) (rqs : R11nQueueSet)
    (did : DeploymentID) :
  set_run evs (NewR11nQueueSet c) = Some rqs →
  run (omap (event_of did) evs) (NewR11nQueue c) = Some (queue_of did rqs) ∧
  (is_Some (Queues rqs !! did) ↔ omap (event_of did) evs ≠ []).
Proof.
  enough (set_run evs (NewR11nQueueSet c) = Some rqs →
    rqs_cap rqs = c ∧ run (omap (event_of did) evs) (NewR11nQueue c) = Some (queue_of did rqs) ∧
    (is_Some (Queues rqs !! did) ↔ omap (event_of did) evs ≠ [])) by naive_solver.
  revert rqs. induction evs as [|ev evs IH] using rev_ind; intros rqs.
  { intros [= <-]. split_and!; [done|done|]. cbn. rewrite lookup_empty. split; [by intros []|done]. }
  unfold set_run. rewrite foldl_app. cbn [foldl]. intros Hs. apply bind_Some in Hs as (rqs1&Hr&Hs).
  destruct (IH rqs1 Hr) as (Hc&Hrun&Hex). destruct (set_step_queue _ _ _ did Hs) as [Hc' Hev].
  rewrite omap_app, run_app, Hrun. cbn [mbind option_bind omap list_omap]. split; [congruence|].
  destruct (event_of did ev) as [e|].
  - destruct Hev as [Hst Hsome]. split; [exact Hst|]. split; [|done].
    intros _ Hn. by apply app_nil in Hn as [_ ?].
  - split.
    + unfold run. cbn. unfold queue_of. by rewrite Hev, Hc'.
    + rewrite app_nil_r, <-Hex. unfold Queues. by rewrite Hev.
Qed.

Lemma queue_set_independent_witness :
  let evs := [SetPush "a" sample_r11n; SetWorker sample_did EvReceive; SetPushIfEmpty "b" sample_r11n] in
  ∃ rqs, set_run evs (NewR11nQueueSet 10) = Some rqs ∧
    run [EvPush "a" sample_r11n; EvReceive; EvPushIfEmpty "b" sample_r11n] (NewR11nQueue 10)
      = Some (queue_of sample_did rqs) ∧
    (is_Some (Queues rqs !! zeroDeploymentID) ↔ ([] : list event) ≠ []).
Proof.
  intros evs. assert (∃ rqs, set_run evs (NewR11nQueueSet 10) = Some rqs) as [rqs Hrun].
  { destruct (set_run evs (NewR11nQueueSet 10)) eqn:Hrun; [by eexists|].
    apply (f_equal (λ o, match o with Some _ => true | None => false end)) in Hrun.
    vm_compute in Hrun. done. }
  exists rqs. split; [exact Hrun|]. split.
  - exact (proj1 (queue_set_independent 10 evs rqs sample_did Hrun)).
  - exact (proj2 (queue_set_independent 10 evs rqs zeroDeploymentID Hrun)).
Defined.

