(* ===== verification/Poller.v ===== *)
(** * Polling for the outcome of a deployment (lib/resolvestate.go,
    status_poller.go, subpoller.go)

    A client polls the server of each cluster and folds what they report into
    one state.  A sub-poller turns one answer to [GET /status] into a state; the
    status poller keeps the last state of each cluster and decides when it is
    done. *)

From S2P Require Import Prelude GoStrings Flaw Semv Ids Startup DeployConfig CMap Deployment.
From S2P Require Import Samples State Differ ResolveFilter ResolveErrors.
#[local] Open Scope string_scope.
#[local] Open Scope Z_scope.
#[local] Open Scope list_scope.

(** ** States *)

Abbreviation ResolveState := Z.
Definition ResolveNotPolled : ResolveState := 0.
Definition ResolveNotStarted : ResolveState := 1.
Definition ResolveNotVersion : ResolveState := 2.
Definition ResolvePendingRequest : ResolveState := 3.
Definition ResolveInProgress : ResolveState := 4.
Definition ResolveTasksStarting : ResolveState := 5.
Definition ResolveErredHTTP : ResolveState := 6.
Definition ResolveErredRez : ResolveState := 7.
Definition ResolveNotIntended : ResolveState := 8.
Definition ResolveComplete : ResolveState := 9.
Definition ResolveFailed : ResolveState := 10.
Definition ResolveHTTPFailed : ResolveState := 11.
Definition ResolveMAX : ResolveState := 12.
Definition ResolveTERMINALS : ResolveState := ResolveNotIntended.

Definition ResolveState_String (rs : ResolveState) : string :=
  match rs with
  | 0 => "ResolveNotPolled"
  | 1 => "ResolveNotStarted"
  | 2 => "ResolveNotVersion"
  | 3 => "ResolvePendingRequest"
  | 4 => "ResolveInProgress"
  | 5 => "ResolveTasksStarting"
  | 6 => "ResolveErredHTTP"
  | 7 => "ResolveErredRez"
  | 8 => "ResolveNotIntended"
  | 9 => "ResolveComplete"
  | 10 => "ResolveFailed"
  | 11 => "ResolveHTTPFailed"
  | 12 => "resolve maximum marker - not a real state, received in error?"
  | _ => "unknown (oops)"
  end.

Definition Prose (rs : ResolveState) : text :=
  match rs with
  | 0 => Lit "waiting for data from Sous server"
  | 1 => Lit "waiting for Sous server to begin deployment"
  | 3 => Lit "queueing instructions to Singularity"
  | 2 => Lit "waiting for Sous server to acknowledge intended version"
  | 4 => Lit "waiting for Singularity to complete deployments"
  | 6 => Lit "receiving an unexpected HTTP response from Sous server"
  | 7 => Lit "re-trying after experiencing a transient error"
  | 5 => Lit "waiting for instances to start on Singularity"
  | 8 => Lit "not intending to perform this deployment (another request to deploy this may have been received)"
  | 10 => Lit "giving up because the deployment failed"
  | 11 => Lit "giving up because the HTTP connection to Sous server has failed"
  | 9 => Lit "finished deploying"
  | 12 => Lit "returning an impossible status (ResolveMAX), please report this issue"
  | _ => errorf "returning an impossible status (%d), please report this error" [AInt rs]
  end.

Definition minStatus (a b : ResolveState) : ResolveState := if a <? b then a else b.
Definition maxStatus (a b : ResolveState) : ResolveState := if a >? b then a else b.

(** ** Sub-pollers *)

Record statusData := mkStatusData {
  sd_Deployments : list Deployment;
  Completed : option ResolveStatus;
  InProgress : option ResolveStatus
}.

Record pollResult := mkPollResult {
  pr_url : string;
  pr_stat : ResolveState;
  pr_err : option err;
  pr_resolveID : string
}.

Record subPoller := mkSubPoller {
  sp_ClusterName : string;
  sp_URL : string;
  locationFilter : ResolveFilter;
  idFilter : ResolveFilter;
  httpErrorCount : Z
}.

Definition newSubPoller (clusterName serverURL : string) (base : ResolveFilter) : subPoller :=
  {| sp_ClusterName := clusterName; sp_URL := serverURL;
     locationFilter := mkResolveFilter (rf_Repo base) (rf_Offset base) None None (rf_Flavor base)
       None (rf_Status base);
     idFilter := mkResolveFilter (rf_Repo base) (rf_Offset base) (rf_Tag base) (rf_Revision base)
       (rf_Flavor base) None (rf_Status base);
     httpErrorCount := 0 |}.

Definition result_ (sub : subPoller) (rs : ResolveState) (data : statusData) (e : option err) :
    pollResult :=
  mkPollResult (sp_URL sub) rs e
    (match InProgress data with Some s => Started s | None => "<none in progress>" end).

Definition diffResolutionFor (rstat : option ResolveStatus) (rf : ResolveFilter) :
    option DiffResolution :=
  match rstat with
  | None => None
  | Some s => snd <$> list_find (λ rez, FilterManifestID rf (did_ManifestID (rez_DeploymentID rez)) = true)
                (Log s)
  end.

(** The loop of [serverIntent], with the deployment found so far. *)
Fixpoint serverIntent_loop (rf : ResolveFilter) (ds : list Deployment) (dep : option Deployment) :
    option Deployment :=
  match ds with
  | [] => dep
  | d :: ds' =>
      if FilterDeployment rf d
      then match dep with Some _ => None | None => serverIntent_loop rf ds' (Some d) end
      else serverIntent_loop rf ds' dep
  end.

Definition serverIntent (rstat : option ResolveStatus) (rf : ResolveFilter) : option Deployment :=
  match rstat with None => None | Some s => serverIntent_loop rf (Intended s) None end.

Definition computeState (sub : subPoller) (srvIntent : option Deployment)
    (current : option DiffResolution) : ResolveState * option err :=
  match srvIntent with
  | None => (ResolveNotStarted, None)
  | Some srvIntent =>
      if negb (FilterDeployment (idFilter sub) srvIntent) then (ResolveNotVersion, None)
      else match current with
           | None => (ResolvePendingRequest, None)
           | Some current =>
               match rez_Error current with
               | Some w =>
                   if IsTransientResolveError (EWrapper w) then (ResolveErredRez, Some (EWrapper w))
                   else (ResolveFailed, Some (EWrapper w))
               | None =>
                   if decide (rez_Desc current = StableDiff) then (ResolveComplete, None)
                   else if decide (rez_Desc current = ComingDiff) then (ResolveTasksStarting, None)
                   else (ResolveInProgress, None)
               end
           end
  end.

Definition stateFeatures (sub : subPoller) (rezState : option ResolveStatus) :
    option Deployment * option DiffResolution :=
  (serverIntent rezState (locationFilter sub), diffResolutionFor rezState (locationFilter sub)).

Definition computeFeatures (sub : subPoller) (rezState : option ResolveStatus) :
    ResolveState * option err :=
  let '(intent, current) := stateFeatures sub rezState in computeState sub intent current.

Definition set_httpErrorCount (n : Z) (sub : subPoller) : subPoller :=
  mkSubPoller (sp_ClusterName sub) (sp_URL sub) (locationFilter sub) (idFilter sub) n.

(** Old servers list the intended deployments beside the statuses. *)
Definition fill_Intended (ds : list Deployment) (s : ResolveStatus) : ResolveStatus :=
  if decide (length (Intended s) = 0%nat)
  then mkResolveStatus (Started s) (Finished s) (Phase s) ds (Log s) (Errs s) else s.

Definition not_begun (rs : ResolveState) : bool :=
  (rs =? ResolveNotStarted) || (rs =? ResolveNotVersion) || (rs =? ResolvePendingRequest).

(** [resp] is the answer to [GET /status]. *)
Definition pollOnce (resp : result err statusData) (sub : subPoller) : subPoller * pollResult :=
  match resp with
  | Err e =>
      let sub := set_httpErrorCount (httpErrorCount sub + 1) sub in
      let data := mkStatusData [] None None in
      if httpErrorCount sub >? 10
      then (sub, result_ sub ResolveHTTPFailed data
                   (Some (EErrorf "more than 10 HTTP errors, giving up; latest error: %s" e)))
      else (sub, result_ sub ResolveErredHTTP data (Some e))
  | Ok data =>
      let sub := set_httpErrorCount 0 sub in
      let data := mkStatusData (sd_Deployments data)
        (fill_Intended (sd_Deployments data) <$> Completed data)
        (fill_Intended (sd_Deployments data) <$> InProgress data) in
      let '(currentState, e) := computeFeatures sub (InProgress data) in
      if not_begun currentState
      then let '(state, e) := computeFeatures sub (Completed data) in (sub, result_ sub state data e)
      else (sub, result_ sub currentState data e)
  end.

(** What [start] sends on the results channel, for the answers it gets. *)
Fixpoint poll_all (resps : list (result err statusData)) (sub : subPoller) : list pollResult :=
  match resps with
  | [] => []
  | r :: rs => let '(sub', res) := pollOnce r sub in res :: poll_all rs sub'
  end.

Definition start (resps : list (result err statusData)) (sub : subPoller) : list pollResult :=
  mkPollResult (sp_URL sub) ResolveNotPolled None "" :: poll_all resps sub.

(** ** The status poller *)

Record pollerState := mkPollerState { LastResult : pollResult; LastCycle : bool }.

Record StatusPoller := mkStatusPoller {
  statePerCluster : gmap string pollerState;
  status : ResolveState;
  oldStatus : ResolveState
}.

Definition nextSubStatus (update : pollResult) (m : gmap string pollerState) :
    gmap string pollerState :=
  let s := match m !! pr_url update with
           | Some last =>
               if decide (pr_resolveID (LastResult last) ≠ "" ∧
                          pr_resolveID (LastResult last) ≠ pr_resolveID update)
               then mkPollerState (LastResult last) true else last
           | None => mkPollerState update false
           end in
  <[pr_url update := mkPollerState update (LastCycle s)]> m.

(** The running maxima and minima of [computeStatus]. *)
Record cycles := mkCycles {
  firstCycleMax : ResolveState; firstCycleMin : ResolveState;
  lastCycleMax : ResolveState; lastCycleMin : ResolveState
}.

(** The loop of [computeStatus]; [None] is its early return of [ResolveFailed]. *)
Fixpoint cycles_of (l : list pollerState) (c : cycles) : option cycles :=
  match l with
  | [] => Some c
  | s :: l' =>
      let st := pr_stat (LastResult s) in
      if LastCycle s
      then
        let c' := mkCycles (firstCycleMax c) (firstCycleMin c)
                    (maxStatus (lastCycleMax c) st) (minStatus (lastCycleMin c) st) in
        if st =? ResolveNotVersion then None
        else if st =? ResolveNotStarted then None
        else cycles_of l' c'
      else cycles_of l' (mkCycles (maxStatus (firstCycleMax c) st) (minStatus (firstCycleMin c) st)
                           (lastCycleMax c) (lastCycleMin c))
  end.

Definition cycles0 : cycles := mkCycles 0 ResolveMAX 0 ResolveMAX.

Definition status_of (c : cycles) : ResolveState :=
  if (firstCycleMax c =? ResolveComplete) && (firstCycleMin c =? ResolveComplete)
  then ResolveComplete
  else if (firstCycleMax c =? ResolveHTTPFailed) || (lastCycleMax c =? ResolveHTTPFailed)
  then ResolveHTTPFailed
  else if lastCycleMax c =? ResolveFailed then ResolveFailed
  else if (lastCycleMax c =? 0) && (lastCycleMin c =? ResolveMAX)
  then minStatus (firstCycleMax c) ResolveInProgress
  else if negb (firstCycleMax c =? 0) && negb (firstCycleMin c =? ResolveMAX)
  then ResolveInProgress
  else if (lastCycleMax c =? ResolveComplete) && (lastCycleMin c =? ResolveComplete)
  then ResolveComplete
  else maxStatus ResolveInProgress (lastCycleMin c).

(** [l] is the map's values in the order the loop meets them. *)
Definition compute_status_in (l : list pollerState) : ResolveState :=
  match cycles_of l cycles0 with None => ResolveFailed | Some c => status_of c end.

Definition computeStatus (m : gmap string pollerState) : ResolveState :=
  compute_status_in (map_to_list m).*2.

Definition updateStatus (sp : StatusPoller) : StatusPoller :=
  let s := computeStatus (statePerCluster sp) in mkStatusPoller (statePerCluster sp) s s.

Definition poll_finished (sp : StatusPoller) : bool := ResolveTERMINALS <=? status sp.

Definition poll_step (update : pollResult) (sp : StatusPoller) : StatusPoller :=
  updateStatus (mkStatusPoller (nextSubStatus update (statePerCluster sp)) (status sp) (oldStatus sp)).

(** [poll], on what the sub-pollers send; [None] is still polling. *)
Fixpoint poll_loop (updates : list pollResult) (sp : StatusPoller) : option ResolveState :=
  match updates with
  | [] => None
  | u :: us =>
      let sp := poll_step u sp in if poll_finished sp then Some (status sp) else poll_loop us sp
  end.

Definition poll (subs : list subPoller) (updates : list pollResult) : option ResolveState :=
  match subs with
  | [] => Some ResolveNotIntended
  | _ :: _ => poll_loop updates (mkStatusPoller ∅ 0 0)
  end.

(** The servers to poll: wanted, and with one deployment intended. *)
Definition subPollers (rf : ResolveFilter) (servers : list (string * string)) (deps : Deployments) :
    list subPoller :=
  omap (λ '(name, url),
    if negb (FilterClusterName rf name) then None
    else match Single (λ d, bool_decide (ClusterName d = name)) (Some deps) with
         | Some (Some _) => Some (newSubPoller name url rf)
         | _ => None
         end) servers.

(** [waitForever], on the answers to [GET /servers] and [GET /gdm] and on what the
    sub-pollers send. *)
Definition waitForever (rf : ResolveFilter) (servers : result err (list (string * string)))
    (gdm : result err (list Deployment)) (updates : list pollResult) :
    option (ResolveState * option err) :=
  match servers with
  | Err e => Some (ResolveFailed, Some e)
  | Ok servers =>
      match gdm with
      | Err e => Some (ResolveFailed, Some e)
      | Ok deployments =>
          m ← NewCMap deployments;
          deps ← Filter (Some (FilterDeployment rf)) m;
          deps ← Snapshot deps;
          if decide (size deps = 0%nat) then Some (ResolveNotIntended, None)
          else st ← poll (subPollers rf servers deps) updates; Some (st, None)
      end
  end.

(** ** Lemmas: the computed status *)

(** [m] is the largest of [x] and the members of [l]; [extreme] generically. *)
Record is_max (x : Z) (l : list Z) (m : Z) : Prop := {
  max_in : m = x ∨ m ∈ l; max_base : x ≤ m; max_ge : ∀ s, s ∈ l → s ≤ m
}.
Record is_min (x : Z) (l : list Z) (m : Z) : Prop := {
  min_in : m = x ∨ m ∈ l; min_base : m ≤ x; min_le : ∀ s, s ∈ l → m ≤ s
}.

Lemma maxStatus_max a b : maxStatus a b = Z.max a b.
Proof. unfold maxStatus. rewrite Z.gtb_ltb. destruct (Z.ltb_spec b a); lia. Qed.
Lemma minStatus_min a b : minStatus a b = Z.min a b.
Proof. unfold minStatus. destruct (Z.ltb_spec a b); lia. Qed.

Lemma is_max_cons x s l m : is_max (maxStatus x s) l m → is_max x (s :: l) m.
Proof.
  rewrite maxStatus_max. intros [Hin Hb Hge]. split; [|lia|].
  - destruct Hin as [->|?]; [|set_solver]. destruct (Z.max_spec x s) as [[_ ->]|[_ ->]]; set_solver.
  - intros t [->|Ht]%elem_of_cons; [lia|auto].
Qed.
Lemma is_min_cons x s l m : is_min (minStatus x s) l m → is_min x (s :: l) m.
Proof.
  rewrite minStatus_min. intros [Hin Hb Hle]. split; [|lia|].
  - destruct Hin as [->|?]; [|set_solver]. destruct (Z.min_spec x s) as [[_ ->]|[_ ->]]; set_solver.
  - intros t [->|Ht]%elem_of_cons; [lia|auto].
Qed.
Lemma is_max_nil x : is_max x [] x.
Proof. split; [by left|lia|set_solver]. Qed.
Lemma is_min_nil x : is_min x [] x.
Proof. split; [by left|lia|set_solver]. Qed.

(** The states of the clusters in their first, or in their last cycle. *)
Definition stats (last : bool) (l : list pollerState) : list ResolveState :=
  (λ s, pr_stat (LastResult s)) <$> filter (λ s, LastCycle s = last) l.

(** In its last cycle, a server that lost the intent, or has another version. *)
Definition stale (l : list pollerState) : Prop :=
  ∃ st, st ∈ stats true l ∧ (st = ResolveNotVersion ∨ st = ResolveNotStarted).

Lemma cycles_of_spec l c :
  match cycles_of l c with
  | None => stale l
  | Some c' =>
      ¬ stale l ∧
      is_max (firstCycleMax c) (stats false l) (firstCycleMax c') ∧
      is_min (firstCycleMin c) (stats false l) (firstCycleMin c') ∧
      is_max (lastCycleMax c) (stats true l) (lastCycleMax c') ∧
      is_min (lastCycleMin c) (stats true l) (lastCycleMin c')
  end.
Proof.
  revert c. induction l as [|s l IH]; intros c; simpl.
  { split_and!; auto using is_max_nil, is_min_nil. intros (st&Hst&_). set_solver. }
  unfold stale, stats in *. rewrite !filter_cons. destruct (LastCycle s) eqn:Hs; simpl.
  - destruct (Z.eqb_spec (pr_stat (LastResult s)) ResolveNotVersion) as [He|Hne1].
    { exists (pr_stat (LastResult s)). set_solver. }
    destruct (Z.eqb_spec (pr_stat (LastResult s)) ResolveNotStarted) as [He|Hne2].
    { exists (pr_stat (LastResult s)). set_solver. }
    specialize (IH (mkCycles (firstCycleMax c) (firstCycleMin c)
      (maxStatus (lastCycleMax c) (pr_stat (LastResult s)))
      (minStatus (lastCycleMin c) (pr_stat (LastResult s))))).
    destruct (cycles_of l _) as [c'|].
    + destruct IH as (Hst&H1&H2&H3&H4). split_and!; auto using is_max_cons, is_min_cons.
      intros (st&[->|Hin]%elem_of_cons&Hor); [by destruct Hor|]. apply Hst. eauto.
    + destruct IH as (st&Hin&Hor). exists st. set_solver.
  - specialize (IH (mkCycles (maxStatus (firstCycleMax c) (pr_stat (LastResult s)))
      (minStatus (firstCycleMin c) (pr_stat (LastResult s))) (lastCycleMax c) (lastCycleMin c))).
    destruct (cycles_of l _) as [c'|]; [|done].
    destruct IH as (Hst&H1&H2&H3&H4). split_and!; auto using is_max_cons, is_min_cons.
Qed.

Definition valid_states (l : list ResolveState) : Prop := ∀ s, s ∈ l → 0 ≤ s < ResolveMAX.

Section Extremes.
Context (l : list ResolveState) (mx mn : ResolveState).
Context (Hv : valid_states l) (Hmax : is_max 0 l mx) (Hmin : is_min ResolveMAX l mn).

Lemma extremes_empty : mx = 0 ∧ mn = ResolveMAX ↔ l = [].
Proof using Hv Hmax Hmin.
  destruct Hmax as [H1 _ H2], Hmin as [H3 _ H4]. split.
  - intros [-> ->]. destruct l as [|s l']; [done|exfalso].
    specialize (H4 s ltac:(set_solver)). specialize (Hv s ltac:(set_solver)). lia.
  - intros ->. split; [destruct H1|destruct H3]; set_solver.
Qed.

Lemma extremes_all k : k ≠ 0 → mx = k ∧ mn = k ↔ l ≠ [] ∧ ∀ s, s ∈ l → s = k.
Proof using Hv Hmax Hmin.
  intros Hk. destruct Hmax as [H1 _ H2], Hmin as [H3 H3' H4]. split.
  - intros [-> ->]. split.
    + intros ->. destruct H1; set_solver.
    + intros s Hs. specialize (H2 s Hs). specialize (H4 s Hs). lia.
  - intros [Hne Hall]. destruct l as [|s l']; [done|].
    assert (s = k) as -> by (apply Hall; set_solver).
    specialize (H2 k ltac:(set_solver)). specialize (H4 k ltac:(set_solver)).
    pose proof (Hv k ltac:(set_solver)). split.
    + destruct H1 as [?|H1]; [lia|auto].
    + destruct H3 as [?|H3]; [lia|auto].
Qed.

Lemma extremes_top k : 0 < k → (∀ s, s ∈ l → s ≤ k) → mx = k ↔ k ∈ l.
Proof using Hmax.
  intros Hk Hall. destruct Hmax as [H1 _ H2]. split.
  - intros ->. destruct H1; [lia|done].
  - intros Hin. specialize (H2 k Hin). destruct H1 as [?|H1]; [lia|]. specialize (Hall _ H1). lia.
Qed.

Lemma extremes_some : mx ≠ 0 ∧ mn ≠ ResolveMAX ↔ ∃ s, s ∈ l ∧ s ≠ 0.
Proof using Hv Hmax Hmin.
  destruct Hmax as [H1 H1' H2], Hmin as [H3 _ H4]. split.
  - intros [Hx Hn]. exists mx. split; [by destruct H1|done].
  - intros (s&Hs&Hne). specialize (Hv s Hs). specialize (H2 s Hs). specialize (H4 s Hs). lia.
Qed.

Lemma extremes_range : 0 ≤ mx < ResolveMAX ∧ (mn = ResolveMAX ∧ mx = 0 ∨ mn ≤ mx).
Proof using Hv Hmax Hmin.
  destruct Hmax as [H1 H1' H2], Hmin as [H3 _ H4]. split.
  - destruct H1 as [->|H1]; [done|by apply Hv].
  - destruct l as [|s l'].
    + left. split; [destruct H3|destruct H1]; set_solver.
    + right. specialize (H2 s ltac:(set_solver)). specialize (H4 s ltac:(set_solver)). lia.
Qed.

Lemma extremes_floor k : k < ResolveMAX → k ≤ mn ↔ ∀ s, s ∈ l → k ≤ s.
Proof using Hmin.
  intros Hk. destruct Hmin as [H3 _ H4]. split.
  - intros Hle s Hs. specialize (H4 s Hs). lia.
  - intros Hall. destruct H3 as [->|H3]; [lia|auto].
Qed.
End Extremes.

(** When the poller stops, by what each cluster last reported. *)
Definition all_are (k : ResolveState) (l : list ResolveState) : Prop :=
  l ≠ [] ∧ ∀ s, s ∈ l → s = k.

Definition stops (l : list pollerState) : Prop :=
  stale l ∨ all_are ResolveComplete (stats false l) ∨
  ResolveHTTPFailed ∈ stats false l ∨ ResolveHTTPFailed ∈ stats true l ∨
  ResolveFailed ∈ stats true l ∨
  (stats true l ≠ [] ∧ (∀ s, s ∈ stats false l → s = ResolveNotPolled) ∧
   ∀ s, s ∈ stats true l → ResolveTERMINALS ≤ s).

Definition completes (l : list pollerState) : Prop :=
  ¬ stale l ∧
  (all_are ResolveComplete (stats false l) ∨
   (all_are ResolveComplete (stats true l) ∧ ∀ s, s ∈ stats false l → s = ResolveNotPolled)).

Lemma compute_status_spec l :
  valid_states (stats false l) → valid_states (stats true l) →
  (ResolveTERMINALS ≤ compute_status_in l ↔ stops l) ∧
  (compute_status_in l = ResolveComplete ↔ completes l).
Proof.
  intros Hvf Hvl. unfold compute_status_in. pose proof (cycles_of_spec l cycles0) as Hc.
  destruct (cycles_of l cycles0) as [[fx fn lx ln]|].
  2: { split; [split; [intros _; by left|done]|]. split; [done|]. by intros [? _]. }
  destruct Hc as (Hst&Hfx&Hfn&Hlx&Hln). unfold cycles0 in *. simpl in *.
  pose proof (extremes_all _ fx fn Hvf Hfx Hfn ResolveComplete) as Fall.
  pose proof (extremes_all _ lx ln Hvl Hlx Hln ResolveComplete) as Lall.
  assert (∀ l, valid_states l → ∀ s, s ∈ l → s ≤ ResolveHTTPFailed) as Htop.
  { intros l' Hl' s Hs. specialize (Hl' s Hs). unfold ResolveMAX, ResolveHTTPFailed in *. lia. }
  pose proof (extremes_top _ fx Hfx ResolveHTTPFailed ltac:(done) (Htop _ Hvf)) as Fhttp.
  pose proof (extremes_top _ lx Hlx ResolveHTTPFailed ltac:(done) (Htop _ Hvl)) as Lhttp.
  pose proof (extremes_empty _ lx ln Hvl Hlx Hln) as Lempty.
  pose proof (extremes_some _ fx fn Hvf Hfx Hfn) as Fsome.
  pose proof (extremes_floor _ ln Hln ResolveTERMINALS ltac:(done)) as Lfloor.
  specialize (Fall ltac:(done)). specialize (Lall ltac:(done)).
  assert ((∀ s, s ∈ stats false l → s = ResolveNotPolled) ↔ ¬ (fx ≠ 0 ∧ fn ≠ ResolveMAX)) as Fnone.
  { rewrite Fsome. split; [intros Ha (s&Hs&Hne); by apply Hne, Ha|]. intros Hn s Hs.
    destruct (decide (s = 0)); [done|]. exfalso. eauto. }
  assert (stops l ↔ (fx = 9 ∧ fn = 9) ∨ fx = 11 ∨ lx = 11 ∨ ResolveFailed ∈ stats true l ∨
    (¬ (lx = 0 ∧ ln = 12) ∧ ¬ (fx ≠ 0 ∧ fn ≠ 12) ∧ 8 ≤ ln)) as ->.
  { unfold stops. rewrite <-Fhttp, <-Lhttp, Fnone, <-Lfloor.
    assert (all_are ResolveComplete (stats false l) ↔ fx = 9 ∧ fn = 9) as -> by (symmetry; exact Fall).
    assert (stats true l ≠ [] ↔ ¬ (lx = 0 ∧ ln = 12)) as -> by (by rewrite <-Lempty).
    assert (stale l ↔ False) as -> by (split; [exact Hst|done]).
    rewrite (left_id False or). done. }
  assert (completes l ↔ (fx = 9 ∧ fn = 9) ∨ (lx = 9 ∧ ln = 9 ∧ ¬ (fx ≠ 0 ∧ fn ≠ 12))) as ->.
  { unfold completes. rewrite Fnone.
    assert (all_are ResolveComplete (stats false l) ↔ fx = 9 ∧ fn = 9) as -> by (symmetry; exact Fall).
    assert (all_are ResolveComplete (stats true l) ↔ lx = 9 ∧ ln = 9) as -> by (symmetry; exact Lall).
    rewrite (assoc and). split; [by intros [_ ?]|done]. }
  assert (lx ≠ 11 → ResolveFailed ∈ stats true l ↔ lx = 10) as Hfail.
  { intros Hne. symmetry. apply (extremes_top _ lx Hlx); [done|]. intros s Hs.
    specialize (Htop _ Hvl s Hs). destruct (decide (s = 11)) as [->|]; [|unfold ResolveHTTPFailed, ResolveFailed in *; lia].
    exfalso. apply Hne. by apply Lhttp. }
  destruct (extremes_range _ lx ln Hvl Hlx Hln) as [Hlx1 Hlx2].
  destruct (extremes_range _ fx fn Hvf Hfx Hfn) as [Hfx1 Hfx2]. clear -Hfail Hlx1 Hlx2 Hfx1 Hfx2.
  unfold status_of. cbn [firstCycleMax firstCycleMin lastCycleMax lastCycleMin].
  rewrite minStatus_min, maxStatus_max.
  unfold ResolveComplete, ResolveHTTPFailed, ResolveFailed, ResolveMAX, ResolveInProgress,
    ResolveTERMINALS, ResolveNotIntended in *.
  destruct (_ && _) eqn:H1; [split; lia|].
  destruct (_ || _) eqn:H2; [split; lia|]. rewrite Hfail by lia.
  destruct (lx =? 10) eqn:H3; [split; lia|].
  destruct ((lx =? 0) && _) eqn:H4; [split; lia|].
  destruct (negb _ && _) eqn:H5; [split; lia|].
  destruct ((lx =? 9) && _) eqn:H6; split; lia.
Qed.

(** The order in which the loop meets the clusters does not matter. *)
Lemma is_max_unique x l1 l2 m1 m2 : l1 ≡ₚ l2 → is_max x l1 m1 → is_max x l2 m2 → m1 = m2.
Proof.
  intros Hp [I1 B1 G1] [I2 B2 G2]. setoid_rewrite <-Hp in G2. rewrite <-Hp in I2.
  destruct I1 as [->|I1], I2 as [->|I2]; try pose proof (G1 _ I2); try pose proof (G2 _ I1); lia.
Qed.
Lemma is_min_unique x l1 l2 m1 m2 : l1 ≡ₚ l2 → is_min x l1 m1 → is_min x l2 m2 → m1 = m2.
Proof.
  intros Hp [I1 B1 G1] [I2 B2 G2]. setoid_rewrite <-Hp in G2. rewrite <-Hp in I2.
  destruct I1 as [->|I1], I2 as [->|I2]; try pose proof (G1 _ I2); try pose proof (G2 _ I1); lia.
Qed.

Lemma stats_perm b l1 l2 : l1 ≡ₚ l2 → stats b l1 ≡ₚ stats b l2.
Proof. intros Hp. unfold stats. by rewrite Hp. Qed.

Lemma compute_status_perm l1 l2 : l1 ≡ₚ l2 → compute_status_in l1 = compute_status_in l2.
Proof.
  intros Hp. unfold compute_status_in.
  pose proof (cycles_of_spec l1 cycles0) as H1. pose proof (cycles_of_spec l2 cycles0) as H2.
  assert (stale l1 ↔ stale l2) as Hst.
  { unfold stale. by setoid_rewrite (stats_perm true _ _ Hp). }
  destruct (cycles_of l1 cycles0) as [[]|], (cycles_of l2 cycles0) as [[]|]; try tauto.
  destruct H1 as (_&A1&A2&A3&A4), H2 as (_&B1&B2&B3&B4). cbn in *.
  rewrite (is_max_unique _ _ _ _ _ (stats_perm false _ _ Hp) A1 B1).
  rewrite (is_min_unique _ _ _ _ _ (stats_perm false _ _ Hp) A2 B2).
  rewrite (is_max_unique _ _ _ _ _ (stats_perm true _ _ Hp) A3 B3).
  by rewrite (is_min_unique _ _ _ _ _ (stats_perm true _ _ Hp) A4 B4).
Qed.

(** ** Lemmas: sub-pollers *)

Lemma pollOnce_ok_sub data sub : (pollOnce (Ok data) sub).1 = set_httpErrorCount 0 sub.
Proof.
  unfold pollOnce. cbn zeta. by repeat case_match.
Qed.

Lemma pollOnce_err_stat e sub :
  pr_stat (pollOnce (Err e) sub).2 =
    if httpErrorCount sub + 1 >? 10 then ResolveHTTPFailed else ResolveErredHTTP.
Proof. unfold pollOnce. cbn zeta. cbn [httpErrorCount set_httpErrorCount]. by case_match. Qed.

(** What an intended deployment and a resolution say together. *)
Definition reports_complete (sub : subPoller) (s : option ResolveStatus) : Prop :=
  ∃ d rez, serverIntent s (locationFilter sub) = Some d ∧ FilterDeployment (idFilter sub) d = true ∧
    diffResolutionFor s (locationFilter sub) = Some rez ∧ rez_Error rez = None ∧
    rez_Desc rez = StableDiff.

Lemma computeFeatures_Complete sub s :
  (computeFeatures sub s).1 = ResolveComplete ↔ reports_complete sub s.
Proof.
  unfold computeFeatures, stateFeatures, computeState, reports_complete.
  destruct (serverIntent s (locationFilter sub)) as [d|]; [|split; [done|by intros (?&?&?&_)]].
  destruct (FilterDeployment (idFilter sub) d) eqn:Hd; simpl;
    [|split; [done|intros (?&?&?&?&_); congruence]].
  destruct (diffResolutionFor s (locationFilter sub)) as [rez|];
    [|split; [done|by intros (?&?&_&_&?&_)]].
  destruct (rez_Error rez) as [w|] eqn:Hw.
  { split; [by case_match|intros (?&?&_&_&?&?&_); congruence]. }
  destruct (decide (rez_Desc rez = StableDiff)) as [Hs|Hs].
  { split; [intros _; by exists d, rez|done]. }
  destruct (decide (rez_Desc rez = ComingDiff));
    (split; [done|intros (?&?&_&_&?&_&?); congruence]).
Qed.

Lemma computeFeatures_range sub s :
  (computeFeatures sub s).1 ∈
    [ResolveNotStarted; ResolveNotVersion; ResolvePendingRequest; ResolveErredRez; ResolveFailed;
     ResolveComplete; ResolveTasksStarting; ResolveInProgress].
Proof.
  unfold computeFeatures, stateFeatures, computeState. repeat case_match; set_solver.
Qed.

(** [serverIntent] finds a deployment when exactly one matches. *)
Lemma serverIntent_spec rf s :
  serverIntent (Some s) rf =
    match filter (λ d, FilterDeployment rf d = true) (Intended s) with [d] => Some d | _ => None end.
Proof.
  unfold serverIntent.
  enough (∀ dep, serverIntent_loop rf (Intended s) dep =
    match option_list dep ++ filter (λ d, FilterDeployment rf d = true) (Intended s) with
    | [d] => Some d | _ => None end) as H by apply (H None).
  induction (Intended s) as [|d ds IH]; intros dep; simpl; [by destruct dep|].
  rewrite filter_cons. destruct (FilterDeployment rf d); simpl; [|apply IH].
  destruct dep; simpl; [done|]. rewrite (IH (Some d)). simpl. by destruct (filter _ ds).
Qed.

(** ** Properties *)

(** In whatever order the clusters are visited, the poller stops exactly when
    a cluster in its last cycle lost the intent or has another version, or all
    those in their first cycle are complete, or one is unreachable, or one failed
    in its last cycle, or all that were heard from are in their last cycle and
    done; it then reports success exactly when those first-cycle clusters, or all
    last-cycle ones, are complete. *)
Theorem computeStatus_terminal (m : gmap string pollerState) (l : list pollerState) :
  l ≡ₚ (map_to_list m).*2 →
  (∀ url s, m !! url = Some s → 0 ≤ pr_stat (LastResult s) < ResolveMAX) →
  compute_status_in l = computeStatus m ∧
  (ResolveTERMINALS ≤ computeStatus m ↔ stops l) ∧
  (computeStatus m = ResolveComplete ↔ completes l).
Proof.
  intros Hl Hv. assert (compute_status_in l = computeStatus m) as Heq by (by apply compute_status_perm).
  rewrite <-Heq. split; [done|].
  assert (∀ b, valid_states (stats b l)) as Hvb; [|by apply compute_status_spec].
  intros b s. unfold stats. rewrite list_elem_of_fmap. intros (ps&->&Hps).
  apply list_elem_of_filter in Hps as [_ Hps]. rewrite Hl in Hps.
  apply list_elem_of_fmap in Hps as ([url ps']&->&Hps). apply elem_of_map_to_list in Hps. by eapply Hv.
Qed.

Lemma computeStatus_terminal_witness :
  let st url s last := mkPollerState (mkPollResult url s None "") last in
  let l := [st "one" ResolveNotPolled false; st "two" ResolveComplete true] in
  let m := <["one" := st "one" ResolveNotPolled false]> {["two" := st "two" ResolveComplete true]} in
  compute_status_in l = computeStatus m ∧
  (ResolveTERMINALS ≤ computeStatus m ↔ stops l) ∧ (computeStatus m = ResolveComplete ↔ completes l).
Proof.
  intros st l m. apply computeStatus_terminal.
  - unfold m. rewrite map_to_list_insert by (apply lookup_singleton_ne; done).
    rewrite map_to_list_singleton. reflexivity.
  - intros url s [[_ <-]|[_ [_ <-]%lookup_singleton_Some]]%lookup_insert_Some; cbn;
      unfold ResolveNotPolled, ResolveComplete, ResolveMAX; lia.
Defined.


(** A success in its first cycle hides every other cluster that is in its
    last one: with one cluster complete and another failed for good, or still in
    progress, the poller stops and reports success. *)
Theorem computeStatus_hides_last_cycle (url1 url2 id1 id2 : string) (e : option err)
    (st : ResolveState) :
  url1 ≠ url2 → st ≠ ResolveNotVersion → st ≠ ResolveNotStarted → 0 ≤ st < ResolveMAX →
  computeStatus
    (<[url1 := mkPollerState (mkPollResult url1 ResolveComplete None id1) false]>
       {[url2 := mkPollerState (mkPollResult url2 st e id2) true]}) = ResolveComplete.
Proof.
  intros Hne H1 H2 Hst. set (s1 := mkPollerState _ false). set (s2 := mkPollerState _ true).
  unfold computeStatus.
  rewrite (compute_status_perm _ [s1; s2]).
  2: { rewrite map_to_list_insert by (by rewrite lookup_singleton_ne).
       by rewrite map_to_list_singleton. }
  unfold compute_status_in. cbn [cycles_of LastCycle s1 s2].
  destruct (Z.eqb_spec (pr_stat (LastResult s2)) ResolveNotVersion) as [?|_]; [done|].
  destruct (Z.eqb_spec (pr_stat (LastResult s2)) ResolveNotStarted) as [?|_]; [done|]. done.
Qed.

(** One URL's updates, and whether their resolution ID ever changed. *)
Definition updates_of (url : string) (us : list pollResult) : list pollResult :=
  filter (λ u, pr_url u = url) us.

Fixpoint id_changed (us : list pollResult) : bool :=
  match us with
  | u :: ((u' :: _) as us') =>
      bool_decide (pr_resolveID u ≠ "" ∧ pr_resolveID u ≠ pr_resolveID u') || id_changed us'
  | _ => false
  end.

Lemma id_changed_snoc us u u' :
  id_changed (us ++ [u; u']) =
    id_changed (us ++ [u]) || bool_decide (pr_resolveID u ≠ "" ∧ pr_resolveID u ≠ pr_resolveID u').
Proof.
  induction us as [|x us IH]; simpl; [by rewrite orb_false_r|].
  destruct us as [|y us]; simpl in *; [by rewrite !orb_false_r|]. by rewrite IH, orb_assoc.
Qed.

(** The poller keeps, for each cluster, the last update it sent, and counts it
    as in its last cycle exactly when the resolution ID it reported has changed
    at some point, whatever the other clusters sent in between. *)
Theorem nextSubStatus_spec (us : list pollResult) (url : string) :
  foldl (λ m u, nextSubStatus u m) ∅ us !! url =
    (λ u, mkPollerState u (id_changed (updates_of url us))) <$> last (updates_of url us).
Proof.
  induction us as [|u us IH] using rev_ind; [done|].
  rewrite foldl_app. cbn [foldl]. unfold updates_of. rewrite filter_app, filter_cons. fold (updates_of url us).
  rewrite filter_nil. set (m := foldl _ _ us) in *. clearbody m. unfold nextSubStatus.
  destruct (decide (pr_url u = url)) as [He|Hne].
  2: { rewrite lookup_insert_ne, app_nil_r by done. exact IH. }
  rewrite He, lookup_insert_eq, last_snoc, IH. simpl. do 2 f_equal.
  destruct (last (updates_of url us)) as [x|] eqn:Hl; simpl.
  - apply last_Some in Hl as [l' Hl]. rewrite Hl, <-app_assoc. simpl. rewrite id_changed_snoc.
    case_decide; simpl; [by rewrite bool_decide_eq_true_2, orb_true_r|].
    by rewrite bool_decide_eq_false_2, orb_false_r.
  - apply last_None in Hl. by rewrite Hl.
Qed.

(** One answer is complete exactly when the resolution in progress says so, or
    it has not begun on the wanted version and the completed one says so. *)
Theorem pollOnce_Complete (sub : subPoller) (data : statusData) :
  let sub0 := set_httpErrorCount 0 sub in
  let inProgress := fill_Intended (sd_Deployments data) <$> InProgress data in
  let completed := fill_Intended (sd_Deployments data) <$> Completed data in
  let '(sub', res) := pollOnce (Ok data) sub in
  sub' = sub0 ∧ pr_url res = sp_URL sub ∧
  (pr_stat res = ResolveComplete ↔
     reports_complete sub inProgress ∨
     not_begun (computeFeatures sub inProgress).1 = true ∧ reports_complete sub completed).
Proof.
  cbn zeta. unfold pollOnce. cbn [InProgress Completed sd_Deployments].
  change (computeFeatures (set_httpErrorCount 0 sub)) with (computeFeatures sub).
  pose proof (computeFeatures_Complete sub (fill_Intended (sd_Deployments data) <$> InProgress data)) as H1.
  pose proof (computeFeatures_Complete sub (fill_Intended (sd_Deployments data) <$> Completed data)) as H2.
  destruct (computeFeatures sub _) as [st e]. simpl in *. destruct (not_begun st) eqn:Hn.
  - destruct (computeFeatures sub _) as [st' e']. simpl in *. split_and!; [done|done|].
    rewrite H2. split; [auto|]. intros [Hc|[_ ?]]; [|done]. apply H1 in Hc. by rewrite Hc in Hn.
  - simpl. split_and!; [done|done|]. rewrite H1. naive_solver.
Qed.

(** A server is given up on after more than ten failed requests in a row: the
    [k]-th consecutive one reports a passing HTTP error while [k <= 10], and a
    failure from the eleventh on; any answer starts the count again. *)
Theorem http_giveup (sub : subPoller) (resps : list (result err statusData)) (e : err) (k : nat)
    (errs : list (result err statusData)) :
  Forall (λ r, is_ok r = false) errs → length errs = k →
  (resps = [] ∧ httpErrorCount sub = 0 ∨ ∃ d resps', resps = resps' ++ [Ok d]) →
  ∃ res, last (poll_all (resps ++ errs ++ [Err e]) sub) = Some res ∧
    pr_stat res = if (k <? 10)%nat then ResolveErredHTTP else ResolveHTTPFailed.
Proof.
  intros Herrs Hk Hresps.
  set (after := foldl (λ s r, (pollOnce r s).1)).
  assert (∀ rs s r, poll_all (rs ++ [r]) s = poll_all rs s ++ [(pollOnce r (after s rs)).2]) as Hall.
  { induction rs as [|r' rs IH]; intros s r; simpl; [by destruct (pollOnce r s)|].
    destruct (pollOnce r' s) as [s' res] eqn:Hp. simpl. by rewrite IH. }
  assert (httpErrorCount (after sub resps) = 0) as H0.
  { destruct Hresps as [[-> ?]|(d&rs&->)]; [done|]. unfold after.
    rewrite foldl_app. cbn [foldl]. by rewrite pollOnce_ok_sub. }
  assert (httpErrorCount (after (after sub resps) errs) = Z.of_nat k) as Hcount.
  { rewrite <-Hk. revert H0. generalize (after sub resps) as s.
    enough (∀ s, httpErrorCount (after s errs) = httpErrorCount s + Z.of_nat (length errs)) as H.
    { intros s Hs. rewrite H. lia. }
    clear -Herrs. induction Herrs as [|r rs Hr _ IH]; intros s; [simpl; lia|].
    change (after s (r :: rs)) with (after (pollOnce r s).1 rs). rewrite IH.
    destruct r; [done|]. unfold pollOnce. cbn zeta. case_match; simpl; lia. }
  rewrite app_assoc, Hall, last_snoc. eexists. split; [done|].
  rewrite pollOnce_err_stat. unfold after at 1. rewrite foldl_app.
  change (foldl (λ s r, (pollOnce r s).1)) with after. rewrite Hcount, Z.gtb_ltb.
  destruct (Nat.ltb_spec k 10), (Z.ltb_spec 10 (Z.of_nat k + 1)); try lia; done.
Qed.

Lemma http_giveup_witness :
  let sub := newSubPoller "ci-sf" "http://sous.ci-sf"
    (mkResolveFilter None None None None None None DeployStatusAny) in
  let e := EOther "*url.Error" (Lit "no such host") in
  let answer := Ok (mkStatusData [] None None) in
  ∃ res, last (poll_all ([answer] ++ replicate 10 (Err e) ++ [Err e]) sub) = Some res ∧
    pr_stat res = ResolveHTTPFailed.
Proof.
  intros sub e answer.
  apply (http_giveup sub [answer] e 10 (replicate 10 (Err e))).
  - by repeat constructor.
  - reflexivity.
  - right. by exists (mkStatusData [] None None), [].
Defined.

