(* ===== verification/Resolver.v ===== *)
(** * The resolver (lib/registry.go, nameresolver.go, pipeline.go,
    deployable_chans.go, resolver.go)

    One resolution: compare what runs with what is intended, find the image of
    each deployment to create or change, and queue a rectification for each.  The
    registry and the deployer are interfaces, here classes. *)

From S2P Require Import Prelude GoStrings Flaw Semv Ids Startup DeployConfig CMap Deployment.
From S2P Require Import Samples State Differ ResolveFilter ResolveErrors R11nQueue.
#[local] Open Scope string_scope.
#[local] Open Scope Z_scope.
#[local] Open Scope list_scope.

(** ** Interfaces *)

(** [GetArtifact] may return a nil artifact without an error. *)
Class Registry := {
  GetArtifact : SourceID → result err (option BuildArtifact)
}.

Class Deployer := {
  RunningDeployments : Clusters → result err DeployStates
}.

(** ** Name resolution *)

Definition plain_error (msg : text) : err := EOther "*errors.errorString" msg.

(** The loop over the qualities of an artifact. *)
Fixpoint guard_qualities (d : Deployment) (qs : list Quality) : result err () :=
  match qs with
  | [] => Ok ()
  | q :: qs' =>
      if decide (q_Kind q ≠ "advisory" ∨ q_Name q = "") then guard_qualities d qs'
      else match d_Cluster d with
           | None => Err (plain_error (errorf "nil cluster on deployment %q"
                            [AStr (DeploymentID_String (Deployment_ID d))]))
           | Some c =>
               if decide (q_Name q ∈ AllowedAdvisories c) then guard_qualities d qs'
               else Err (EUnacceptableAdvisory q (d_SourceID d))
           end
  end.

Section Resolving.
Context `{Registry}.

(** [None] is the panic of reading the qualities of a nil artifact. *)
Definition guardImage (d : Deployment) : option (result err (option BuildArtifact)) :=
  if decide (NumInstances (d_DeployConfig d) = 0) then Some (Ok None)
  else match GetArtifact (d_SourceID d) with
       | Err e => Some (Err (EMissingImageName e))
       | Ok None => None
       | Ok (Some art) =>
           Some (match guard_qualities d (Qualities art) with
                 | Ok _ => Ok (Some art)
                 | Err e => Err e
                 end)
       end.

Definition set_BuildArtifact (art : option BuildArtifact) (d : Deployable) : Deployable :=
  mkDeployable (Status d) (dep_Deployment d) art.

Definition rez_error (did : DeploymentID) (desc : ResolutionType) (w : ErrorWrapper) : DiffResolution :=
  mkDiffResolution did desc (Some w) None "".

(** The deployable is updated in place: what is returned is what it becomes. *)
Definition resolveName (d : option Deployable) :
    option (option Deployable * option DiffResolution) :=
  match d with
  | None => Some (None, Some (rez_error zeroDeploymentID "" (wrap (plain_error (Lit "nil deployable")))))
  | Some d =>
      art ← guardImage (dep_Deployment d);
      Some (match art with
            | Err e => (Some d, Some (rez_error (Deployment_ID (dep_Deployment d)) "" (wrap e)))
            | Ok art => (Some (set_BuildArtifact art d), None)
            end)
  end.

(** The pair passed on is a new one, without the UUID. *)
Definition HandlePairs (dp : DeployablePair) :
    option (option DeployablePair * option DiffResolution) :=
  kind ← pair_Kind dp;
  let passed post := Some (mkDeployablePair (Prior dp) post (pair_name dp) (pair_ExecutorData dp) None) in
  match kind with
  | SameKind | RemovedKind => Some (passed (Post dp), None)
  | AddedKind | ModifiedKind =>
      '(newImageName, rez) ← resolveName (Post dp);
      Some (match rez, newImageName with
            | Some rez, _ => (None, Some rez)
            | None, None =>
                (None, Some (rez_error (pair_name dp) "not created"
                   (WrapResolveError (EOther "*errors.fundamental"
                      (Lit "Unable to create new deployment %q: no artifact for SourceID %q")))))
            | None, Some d => (passed (Some d), None)
            end)
  end.

(** ** Pipelines

    A stage of a pipeline: what it sends on its channel of pairs, and the errors
    of its own, each in order; the errors it sends are those and the upstream
    ones in some interleaving. *)

Definition stage (proc : DeployablePair → option (option DeployablePair * option DiffResolution))
    (pairs : list DeployablePair) : option (list DeployablePair * list DiffResolution) :=
  outs ← mapM proc pairs;
  Some (omap fst outs, omap snd outs).

Inductive interleave {A} : list A → list A → list A → Prop :=
| interleave_nil : interleave [] [] []
| interleave_left x l1 l2 l : interleave l1 l2 l → interleave (x :: l1) l2 (x :: l)
| interleave_right x l1 l2 l : interleave l1 l2 l → interleave l1 (x :: l2) (x :: l).

(** A run of [Pipeline]: the pairs out, the errors out, and what the resolution
    handler of the processor was called with: a stage's own errors when they
    arise, and again, with the upstream ones, when they are passed on. *)
Record pipeline_run := mkPipelineRun {
  out_Pairs : list DeployablePair;
  out_Errs : list DiffResolution;
  handled_here : list DiffResolution;
  handled_passing : list DiffResolution
}.

Definition is_pipeline_run
    (proc : DeployablePair → option (option DeployablePair * option DiffResolution))
    (pairs : list DeployablePair) (upstream : list DiffResolution) (p : pipeline_run) : Prop :=
  ∃ own, stage proc pairs = Some (out_Pairs p, own) ∧ interleave upstream own (out_Errs p) ∧
    handled_here p = own ∧ handled_passing p = out_Errs p.

Definition ResolveNames (pairs : list DeployablePair) : option (list DeployablePair * list DiffResolution) :=
  stage HandlePairs pairs.

(** ** Queueing *)

(** Is a rectification needed for a pair?  [None]: comparing its sides panics. *)
Definition wanted (p : DeployablePair) : option bool :=
  match Post p with
  | None => Some false
  | Some post =>
      kind ← pair_Kind p;
      let spec := Deployment_DeploySpec (dep_Deployment post) in
      Some (if decide (kind = SameKind) then false
            else if decide (kind = AddedKind ∧
                            (NumInstances (d_DeployConfig (dep_Deployment post)) = 0 ∨
                             Semv.String (spec_Version spec) = "0.0.0"))
            then false else true)
  end.

(** One iteration of [queueDiffs], with the ID drawn for the pair.  [None] also is
    a push that blocks. *)
Definition queue_diff '((p, id) : DeployablePair * R11nID)
    '((rqs, queued) : R11nQueueSet * list (DeployablePair * R11nID)) :
    option (R11nQueueSet * list (DeployablePair * R11nID)) :=
  w ← wanted p;
  if (w : bool)
  then '(rqs', o) ← rqs_PushIfEmpty id (NewRectification p) rqs;
       Some (rqs', match o with Some _ => queued ++ [(p, id)] | None => queued end)
  else Some (rqs, queued).

(** [queueDiffs]: the set of queues it leaves, and the pairs it queued, whose
    results it waits for. *)
Definition queueDiffs (ps : list (DeployablePair * R11nID)) (rqs : R11nQueueSet) :
    option (R11nQueueSet * list (DeployablePair * R11nID)) :=
  foldl (λ acc p, acc ← acc; queue_diff p acc) (Some (rqs, [])) ps.

(** [Resolver.Begin] up to the queueing: the phases in order. *)
Definition Begin `{Deployer} (rf : ResolveFilter) (range : ∀ V, gmap DeploymentID V → list (DeploymentID * V))
    (intended : Deployments) (clusters : Clusters) :
    result err (option (list DeployablePair * list DiffResolution)) :=
  let intended := filtered (FilterDeployment rf) intended in
  actual ← RunningDeployments (FilteredClusters rf clusters);
  let actual := filtered (FilterDeployStates rf) actual in
  Ok (ResolveNames (DeployStates_Diff range actual intended)).

(** ** Lemmas: images *)

(** What an artifact must satisfy to be deployed. *)
Definition advisories_allowed (d : Deployment) (art : BuildArtifact) : Prop :=
  ∀ q, q ∈ Qualities art → q_Kind q = "advisory" → q_Name q ≠ "" →
    ∃ c, d_Cluster d = Some c ∧ q_Name q ∈ AllowedAdvisories c.

Lemma guard_qualities_spec d qs :
  is_ok (guard_qualities d qs) = true ↔
    ∀ q, q ∈ qs → q_Kind q = "advisory" → q_Name q ≠ "" →
      ∃ c, d_Cluster d = Some c ∧ q_Name q ∈ AllowedAdvisories c.
Proof using.
  induction qs as [|q qs IH]; simpl; [split; [set_solver|done]|].
  assert ((∀ q', q' ∈ q :: qs → q_Kind q' = "advisory" → q_Name q' ≠ "" →
      ∃ c, d_Cluster d = Some c ∧ q_Name q' ∈ AllowedAdvisories c) ↔
    (q_Kind q = "advisory" → q_Name q ≠ "" →
      ∃ c, d_Cluster d = Some c ∧ q_Name q ∈ AllowedAdvisories c) ∧
    is_ok (guard_qualities d qs) = true) as ->.
  { rewrite IH. setoid_rewrite elem_of_cons. naive_solver. }
  case_decide as Hskip.
  { split; [|by intros [_ ?]]. intros Hok. split; [|done]. intros Hk Hn. by destruct Hskip. }
  apply Decidable.not_or in Hskip as [Hk Hn]. apply dec_stable in Hk.
  destruct (d_Cluster d) as [c|] eqn:Hc; simpl.
  2: { split; [done|]. intros [Ha _]. by destruct (Ha Hk Hn) as (?&?&_). }
  case_decide as Hin; simpl.
  - split; [|by intros [_ ?]]. intros Hok. split; [|done]. eauto.
  - split; [done|]. intros [Ha _]. by destruct (Ha Hk Hn) as (?&[= <-]&?).
Qed.

Lemma guardImage_ok d art :
  guardImage d = Some (Ok (Some art)) →
  NumInstances (d_DeployConfig d) ≠ 0 ∧ GetArtifact (d_SourceID d) = Ok (Some art) ∧
  advisories_allowed d art.
Proof using.
  unfold guardImage. case_decide; [done|].
  destruct (GetArtifact (d_SourceID d)) as [[a|]|]; [|done..].
  destruct (guard_qualities d (Qualities a)) eqn:Hg; [|done]. intros [= ->].
  split_and!; [done..|]. unfold advisories_allowed. apply guard_qualities_spec. by rewrite Hg.
Qed.

Lemma guardImage_complete d art :
  NumInstances (d_DeployConfig d) ≠ 0 → GetArtifact (d_SourceID d) = Ok (Some art) →
  advisories_allowed d art → guardImage d = Some (Ok (Some art)).
Proof using.
  intros Hn Hg Ha. unfold guardImage. rewrite decide_False, Hg by done.
  apply guard_qualities_spec in Ha. by destruct (guard_qualities d (Qualities art)).
Qed.

(** The artifact a deployment may be rectified with: none if it has no instances;
    else the registry's for its source, each of whose named advisories its cluster
    allows. *)
Definition deployable_with (d : Deployment) (art : option BuildArtifact) : Prop :=
  match art with
  | None => NumInstances (d_DeployConfig d) = 0
  | Some a =>
      NumInstances (d_DeployConfig d) ≠ 0 ∧ GetArtifact (d_SourceID d) = Ok (Some a) ∧
      advisories_allowed d a
  end.

(** Why it may not be: the registry's error; or the first named advisory that its
    cluster does not allow, or that there is no cluster to allow. *)
Inductive refused (d : Deployment) : err → Prop :=
| refused_missing e : NumInstances (d_DeployConfig d) ≠ 0 →
    GetArtifact (d_SourceID d) = Err e → refused d (EMissingImageName e)
| refused_advisory a c q pre post : NumInstances (d_DeployConfig d) ≠ 0 →
    GetArtifact (d_SourceID d) = Ok (Some a) → d_Cluster d = Some c →
    Qualities a = pre ++ q :: post →
    (∀ q', q' ∈ pre → q_Kind q' = "advisory" → q_Name q' ≠ "" → q_Name q' ∈ AllowedAdvisories c) →
    q_Kind q = "advisory" → q_Name q ≠ "" → q_Name q ∉ AllowedAdvisories c →
    refused d (EUnacceptableAdvisory q (d_SourceID d))
| refused_nowhere a q msg : NumInstances (d_DeployConfig d) ≠ 0 →
    GetArtifact (d_SourceID d) = Ok (Some a) → d_Cluster d = None →
    q ∈ Qualities a → q_Kind q = "advisory" → q_Name q ≠ "" →
    refused d (EOther "*errors.errorString" msg).

(** An artifact is deployed only where it may be: [guardImage] yields one
    exactly when the deployment has instances, the registry has the artifact, and
    each of its named advisories is allowed by the deployment's cluster. *)
Theorem guardImage_spec (d : Deployment) (art : option BuildArtifact) :
  guardImage d = Some (Ok art) ↔ deployable_with d art.
Proof using.
  destruct art as [art|]; simpl.
  - split; [apply guardImage_ok|]. intros (Hn&Hg&Ha). by apply guardImage_complete.
  - unfold guardImage. case_decide; [done|]. split; [|done].
    destruct (GetArtifact (d_SourceID d)) as [[a|]|]; [|done..].
    by destruct (guard_qualities d (Qualities a)).
Qed.

Lemma guard_qualities_refused d qs e :
  guard_qualities d qs = Err e →
  (∃ c q pre post, d_Cluster d = Some c ∧ qs = pre ++ q :: post ∧
     (∀ q', q' ∈ pre → q_Kind q' = "advisory" → q_Name q' ≠ "" → q_Name q' ∈ AllowedAdvisories c) ∧
     q_Kind q = "advisory" ∧ q_Name q ≠ "" ∧ q_Name q ∉ AllowedAdvisories c ∧
     e = EUnacceptableAdvisory q (d_SourceID d)) ∨
  (∃ q msg, d_Cluster d = None ∧ q ∈ qs ∧ q_Kind q = "advisory" ∧ q_Name q ≠ "" ∧
     e = EOther "*errors.errorString" msg).
Proof using.
  induction qs as [|q qs IH]; simpl; [done|]. case_decide as Hskip.
  - intros [(c&q0&pre&post&Hc&->&Hpre&Hrest)|(q0&msg&Hc&Hq&Hrest)]%IH; [left|right].
    + exists c, q0, (q :: pre), post. split; [done|]. split; [done|]. split; [|done].
      intros q' [->|Hq']%elem_of_cons Hk Hn; [by destruct Hskip|by apply Hpre].
    + exists q0, msg. split; [done|]. split; [by apply list_elem_of_further|done].
  - apply Decidable.not_or in Hskip as [Hk Hn]. apply dec_stable in Hk.
    destruct (d_Cluster d) as [c|] eqn:Hc.
    + case_decide as Hin.
      * intros [(c'&q0&pre&post&[= <-]&->&Hpre&Hrest)|(?&?&?&_)]%IH; [left|done].
        exists c, q0, (q :: pre), post. split; [done|]. split; [done|]. split; [|done].
        intros q' [->|Hq']%elem_of_cons ? ?; [done|by apply Hpre].
      * intros [= <-]. left. exists c, q, [], qs. split_and!; try done. intros q' Hq'. by apply elem_of_nil in Hq'.
    + intros [= <-]. right. eexists q, _. split_and!; try done. apply list_elem_of_here.
Qed.

Lemma guardImage_refused d e : guardImage d = Some (Err e) → refused d e.
Proof using.
  unfold guardImage. case_decide as Hn; [done|].
  destruct (GetArtifact (d_SourceID d)) as [[a|]|e0] eqn:Hg; [|done|].
  - destruct (guard_qualities d (Qualities a)) as [|e'] eqn:Hq; [done|]. intros [= <-].
    apply guard_qualities_refused in Hq as [(c&q&pre&post&Hc&Hqs&Hpre&Hk&Hnm&Hna&->)|(q&msg&Hc&Hqs&Hk&Hnm&->)].
    + by eapply refused_advisory.
    + by eapply refused_nowhere.
  - intros [= <-]. by apply refused_missing.
Qed.

(** No deployment is refused that may be rectified. *)
Lemma refused_not_deployable d e art : refused d e → ¬ deployable_with d art.
Proof using.
  intros Hr. destruct art as [a|]; simpl; [|by destruct Hr].
  intros (_&Hg&Ha). destruct Hr as [e _ He|a' c q pre post _ Hg' Hc Hqs _ Hk Hn Hna|a' q msg _ Hg' Hc Hq Hk Hn].
  - congruence.
  - assert (a' = a) as -> by congruence. destruct (Ha q) as (c'&Hc'&?); [|done|done|congruence].
    rewrite Hqs, elem_of_app, elem_of_cons. auto.
  - assert (a' = a) as -> by congruence. destruct (Ha q Hq Hk Hn) as (c'&Hc'&_). congruence.
Qed.

(** ** Lemmas: stages *)

(** What [HandlePairs] makes of a pair of a kind. *)
Definition stripped (p : DeployablePair) (post : option Deployable) : DeployablePair :=
  mkDeployablePair (Prior p) post (pair_name p) (pair_ExecutorData p) None.

Lemma HandlePairs_unchanged p k :
  pair_Kind p = Some k → k = SameKind ∨ k = RemovedKind →
  HandlePairs p = Some (Some (stripped p (Post p)), None).
Proof using. unfold HandlePairs. intros -> [-> | ->]; done. Qed.

Lemma HandlePairs_changed p k post :
  pair_Kind p = Some k → k = AddedKind ∨ k = ModifiedKind → Post p = Some post →
  (∀ sid, GetArtifact sid ≠ Ok None) →
  (∃ art, deployable_with (dep_Deployment post) art ∧
     HandlePairs p = Some (Some (stripped p (Some (set_BuildArtifact art post))), None)) ∨
  (∃ e, refused (dep_Deployment post) e ∧
     HandlePairs p = Some (None, Some (rez_error (Deployment_ID (dep_Deployment post)) "" (wrap e)))).
Proof using.
  intros Hk Hc Hp Hs. unfold HandlePairs. rewrite Hk, Hp. simpl.
  assert (∃ r, guardImage (dep_Deployment post) = Some r) as [r Hg].
  { unfold guardImage. case_decide; [by eexists|].
    destruct (GetArtifact (d_SourceID (dep_Deployment post))) as [[a|]|] eqn:Ha;
      [by eexists|by apply Hs in Ha|by eexists]. }
  rewrite Hg. simpl.
  destruct r as [art|e]; [apply guardImage_spec in Hg; left|apply guardImage_refused in Hg; right];
    eexists; (split; [done|]); by destruct Hc as [-> | ->].
Qed.

Lemma mapM_Some_elem {A B} (f : A → option B) l k :
  mapM f l = Some k → (∀ x, x ∈ l → ∃ y, f x = Some y ∧ y ∈ k) ∧ (∀ y, y ∈ k → ∃ x, x ∈ l ∧ f x = Some y).
Proof using.
  intros Hm%mapM_Some. induction Hm as [|x y l k Hxy _ [IH1 IH2]]; [set_solver|].
  split; intros z [->|Hz]%elem_of_cons; set_solver.
Qed.

Lemma mapM_total {A B} (f : A → option B) l :
  (∀ x, x ∈ l → is_Some (f x)) → ∃ k, mapM f l = Some k.
Proof using.
  intros Hl. assert (is_Some (mapM f l)) as [k Hk]; [|by exists k].
  apply mapM_is_Some, Forall_forall. auto.
Qed.

(** What holds of every item a stage makes of the pairs it is given. *)
Lemma stage_spec proc pairs :
  (∀ p, p ∈ pairs → is_Some (proc p)) →
  ∃ outs errs, stage proc pairs = Some (outs, errs) ∧
    (∀ p, p ∈ outs ↔ ∃ q o, q ∈ pairs ∧ proc q = Some o ∧ o.1 = Some p) ∧
    (∀ e, e ∈ errs ↔ ∃ q o, q ∈ pairs ∧ proc q = Some o ∧ o.2 = Some e).
Proof using.
  intros Hall. destruct (mapM_total proc pairs Hall) as [k Hk]. unfold stage. rewrite Hk. simpl.
  apply mapM_Some_elem in Hk as [Hk1 Hk2]. eexists _, _. split; [done|].
  split; intros x; rewrite list_elem_of_omap; split.
  - intros (o&Ho&Hx). destruct (Hk2 o Ho) as (q&Hq&Hqo). by exists q, o.
  - intros (q&o&Hq&Hqo&Hx). destruct (Hk1 q Hq) as (o'&Ho'&Hin). exists o.
    split; [congruence|done].
  - intros (o&Ho&Hx). destruct (Hk2 o Ho) as (q&Hq&Hqo). by exists q, o.
  - intros (q&o&Hq&Hqo&Hx). destruct (Hk1 q Hq) as (o'&Ho'&Hin). exists o.
    split; [congruence|done].
Qed.

(** ** One resolution *)

Section Beginning.
Context `{Deployer} (rf : ResolveFilter) (range : ∀ V, gmap DeploymentID V → list (DeploymentID * V)).
Context (range_perm : ∀ V (m : gmap DeploymentID V), range V m ≡ₚ map_to_list m).
Context (intended : Deployments) (clusters : Clusters) (actual : DeployStates).
Context (Hactual : RunningDeployments (FilteredClusters rf clusters) = Ok actual).
Context (Hsane : ∀ sid, GetArtifact sid ≠ Ok None).
Context (Hki : keyed intended) (Hka : keyed actual).
Context (Hvi : deployments_volumes_ok intended) (Hva : states_volumes_ok actual).

Abbreviation wanted_deps := (filtered (FilterDeployment rf) intended).
Abbreviation running := (filtered (FilterDeployStates rf) actual).

Lemma keyed_filtered {K V} `{Countable K, !Value K V} p (m : gmap K V) : keyed m → keyed (filtered p m).
Proof using. intros Hm. eapply keyed_subseteq; [apply filtered_subseteq|done]. Qed.

Lemma begin_pairs p :
  p ∈ DeployStates_Diff range running wanted_deps →
  ∃ k, pair_Kind p = Some k ∧ expected_kind running wanted_deps (pair_name p) k ∧
    p = pair_for running wanted_deps (pair_name p).
Proof using range_perm Hki Hka Hvi Hva.
  rewrite (DeployStates_Diff_perm range range_perm) by (by apply keyed_filtered).
  intros (id&->&Hid)%list_elem_of_fmap.
  destruct (pair_Kind_pair_for running wanted_deps id) as (k&Hk&He).
  - by apply keyed_filtered.
  - by apply keyed_filtered.
  - intros i v [Hv _]%filtered_lookup. by apply (Hva i).
  - intros i v [Hv _]%filtered_lookup. by apply (Hvi i).
  - by exists k.
Qed.

(** A pair to create or to change has a side to create or to change to. *)
Lemma changed_has_post id k :
  pair_Kind (pair_for running wanted_deps id) = Some k → k = AddedKind ∨ k = ModifiedKind →
  id ∈ dom running ∪ dom wanted_deps →
  ∃ o, wanted_deps !! id = Some o ∧ Post (pair_for running wanted_deps id) = Some (active o).
Proof using.
  intros Hk Hc Hid. destruct (wanted_deps !! id) as [o|] eqn:Ho.
  { exists o. split; [done|]. unfold pair_for. cbn [Post new_pair]. by rewrite Ho. }
  exfalso. rewrite elem_of_union, !elem_of_dom, Ho in Hid. destruct Hid as [[ds Hds]|[? ?]]; [|done].
  unfold pair_Kind, pair_for in Hk. cbn [Prior Post new_pair] in Hk. rewrite Hds, Ho in Hk.
  destruct Hc as [-> | ->]; done.
Qed.

Lemma begin_handled p :
  p ∈ DeployStates_Diff range running wanted_deps → is_Some (HandlePairs p).
Proof using range_perm Hki Hka Hvi Hva Hsane.
  intros Hp. destruct (begin_pairs p Hp) as (k&Hk&_&Heq).
  assert (pair_name p ∈ dom running ∪ dom wanted_deps) as Hid.
  { rewrite (DeployStates_Diff_perm range range_perm) in Hp by (by apply keyed_filtered).
    apply list_elem_of_fmap in Hp as (id&->&Hid). by apply elem_of_elements in Hid. }
  destruct (decide (k = SameKind ∨ k = RemovedKind)) as [Hu|Hu].
  { rewrite (HandlePairs_unchanged p k Hk Hu). by eexists. }
  assert (k = AddedKind ∨ k = ModifiedKind) as Hc by (destruct k; naive_solver).
  rewrite Heq in Hk. destruct (changed_has_post _ k Hk Hc Hid) as (o&_&Hpost).
  rewrite <-Heq in Hk, Hpost.
  destruct (HandlePairs_changed p k _ Hk Hc Hpost Hsane) as [(?&_&->)|(?&_&->)]; by eexists.
Qed.

(** C2.  A resolution acts on intentions only: it never panics; every pair it
    passes on to be rectified has the intended deployment as its new side, and if
    it is to be created or changed that has instances and the artifact the registry
    has for it, all of whose named advisories its cluster allows, or else neither
    instances nor artifact; and every intended deployment the filter selects is
    passed on, or reported under its own ID with the error of the registry or the
    first advisory that is not allowed. *)
Theorem Begin_spec :
  ∃ pairs errs, Begin rf range intended clusters = Ok (Some (pairs, errs)) ∧
    (∀ p post, p ∈ pairs → Post p = Some post →
       ∃ o k, intended !! pair_name p = Some o ∧ FilterDeployment rf o = true ∧
         dep_Deployment post = o ∧ Status post = DeployStatusActive ∧
         expected_kind running wanted_deps (pair_name p) k ∧
         (k = AddedKind ∨ k = ModifiedKind → deployable_with o (dep_BuildArtifact post))) ∧
    (∀ did o, intended !! did = Some o → FilterDeployment rf o = true →
       (∃ p, p ∈ pairs ∧ pair_name p = did) ∨
       (∃ rez e, rez ∈ errs ∧ rez_DeploymentID rez = did ∧ rez_Error rez = Some (wrap e) ∧ refused o e)).
Proof using range_perm Hactual Hki Hka Hvi Hva Hsane.
  unfold Begin. rewrite Hactual. cbn [mbind result_bind]. unfold ResolveNames.
  destruct (stage_spec HandlePairs (DeployStates_Diff range running wanted_deps) begin_handled)
    as (outs&errs&->&Ho&He).
  exists outs, errs. split; [done|]. split.
  - intros p post (q&o&Hq&Hqo&Hop)%Ho Hpost. destruct (begin_pairs q Hq) as (k&Hk&Hex&Heq).
    destruct (decide (k = SameKind ∨ k = RemovedKind)) as [Hu|Hu].
    + rewrite (HandlePairs_unchanged q k Hk Hu) in Hqo. injection Hqo as <-. injection Hop as <-.
      simpl in *. rewrite Heq in Hpost. cbn [pair_for Post new_pair] in Hpost.
      apply fmap_Some in Hpost as (d&Hd&->). pose proof Hd as [Hd1 Hd2]%filtered_lookup.
      exists d, k. split_and!; try done. intros Hc. by destruct k; naive_solver.
    + assert (k = AddedKind ∨ k = ModifiedKind) as Hc by (destruct k; naive_solver).
      destruct (Post q) as [post0|] eqn:Hp0.
      2: { exfalso. unfold HandlePairs in Hqo. rewrite Hk, Hp0 in Hqo. simpl in Hqo.
           destruct Hc as [-> | ->]; injection Hqo as <-; done. }
      destruct (HandlePairs_changed q k post0 Hk Hc Hp0 Hsane) as [(art&Hg&Hh)|(e&_&Hh)];
        rewrite Hh in Hqo; injection Hqo as <-; [|done]. injection Hop as <-. simpl in *.
      injection Hpost as <-. rewrite Heq in Hp0. cbn [pair_for Post new_pair] in Hp0.
      apply fmap_Some in Hp0 as (d&Hd&->). pose proof Hd as [Hd1 Hd2]%filtered_lookup.
      exists d, k. split_and!; done.
  - intros did o Hd Hf.
    assert (wanted_deps !! did = Some o) as Hw by (by apply filtered_lookup).
    set (q := pair_for running wanted_deps did).
    assert (q ∈ DeployStates_Diff range running wanted_deps) as Hq.
    { rewrite (DeployStates_Diff_perm range range_perm) by (by apply keyed_filtered).
      apply list_elem_of_fmap. exists did. split; [done|]. rewrite elem_of_elements, elem_of_union, !elem_of_dom.
      right. by eexists. }
    destruct (begin_pairs q Hq) as (k&Hk&_&_).
    destruct (decide (k = SameKind ∨ k = RemovedKind)) as [Hu|Hu].
    + left. exists (stripped q (Post q)). split; [|done]. apply Ho.
      eexists q, _. by rewrite (HandlePairs_unchanged q k Hk Hu).
    + assert (k = AddedKind ∨ k = ModifiedKind) as Hc by (destruct k; naive_solver).
      assert (Post q = Some (active o)) as Hpost.
      { unfold q, pair_for. cbn [Post new_pair]. by rewrite Hw. }
      destruct (HandlePairs_changed q k _ Hk Hc Hpost Hsane) as [(art&_&Hh)|(e&Hr&Hh)].
      * left. eexists. split; [apply Ho; eexists q, _; by rewrite Hh|done].
      * right. eexists _, e. split; [apply He; eexists q, _; by rewrite Hh|]. split; [|done].
        simpl. pose proof (Hki _ _ Hd) as Hid. exact Hid.
Qed.
End Beginning.
End Resolving.

(** ** Queueing *)

(** A queue that a rectification can be pushed on without blocking, if it is idle. *)
Definition open_queue (q : R11nQueue) : Prop := inv q ∧ (0 < cap q)%nat.

Lemma PushIfEmpty_total id r q :
  open_queue q →
  (refs q ≠ ∅ ∧ PushIfEmpty id r q = Some (q, None)) ∨
  (refs q = ∅ ∧ ∃ q' a, PushIfEmpty id r q = Some (q', Some a) ∧ internalPush id r q = Some (q', a)).
Proof.
  intros [Hi Hc]. destruct (PushIfEmpty id r q) as [[q' o]|] eqn:Hp.
  - destruct (PushIfEmpty_cases _ _ _ _ _ Hp) as [(Hr&->&->)|(Hr&a&->&Hpush)]; [by left|right].
    split; [done|]. by exists q', a.
  - exfalso. unfold PushIfEmpty in Hp. case_decide as Hsz; [done|].
    assert (refs q = ∅) as He by (apply map_size_empty_iff; lia).
    apply (refs_empty _ Hi) in He. pose proof (inv_bounds _ Hi) as Hb. pose proof (i_len _ Hi).
    unfold internalPush in Hp. rewrite decide_True in Hp; [done|].
    unfold finished, taken in *. lia.
Qed.

(** One pair, on a set whose queue for it is open. *)
Lemma queue_diff_cases p id rqs queued w :
  wanted p = Some w → open_queue (queue_of (pair_name p) rqs) →
  ∃ rqs', rqs_cap rqs' = rqs_cap rqs ∧
    (∀ did, did ≠ pair_name p → queue_of did rqs' = queue_of did rqs) ∧
    ((w = true ∧ refs (queue_of (pair_name p) rqs) = ∅ ∧
      (∃ a, internalPush id (NewRectification p) (queue_of (pair_name p) rqs)
              = Some (queue_of (pair_name p) rqs', a)) ∧
      queue_diff (p, id) (rqs, queued) = Some (rqs', queued ++ [(p, id)])) ∨
     ((w = false ∨ refs (queue_of (pair_name p) rqs) ≠ ∅) ∧
      queue_of (pair_name p) rqs' = queue_of (pair_name p) rqs ∧
      queue_diff (p, id) (rqs, queued) = Some (rqs', queued))).
Proof.
  intros Hw Ho. unfold queue_diff. rewrite Hw. cbn [mbind option_bind]. destruct w.
  2: { exists rqs. split_and!; [done|done|]. right. split_and!; [by left|done|done]. }
  unfold rqs_PushIfEmpty, rqs_with. cbn [r_Pair NewRectification].
  destruct (PushIfEmpty_total id (NewRectification p) _ Ho) as [[Hr ->]|[Hr (q'&a&->&Hp)]].
  - cbn [mbind option_bind].
    exists (mkR11nQueueSet (<[pair_name p := queue_of (pair_name p) rqs]> (rqs_set rqs)) (rqs_cap rqs)).
    split_and!; [done| |right; split_and!; [by right| |done]].
    + intros did Hne. unfold queue_of. simpl. by rewrite lookup_insert_ne.
    + unfold queue_of. simpl. by rewrite lookup_insert_eq.
  - cbn [mbind option_bind].
    exists (mkR11nQueueSet (<[pair_name p := q']> (rqs_set rqs)) (rqs_cap rqs)).
    split_and!; [done| |left; split_and!; [done|done| |done]].
    + intros did Hne. unfold queue_of. simpl. by rewrite lookup_insert_ne.
    + exists a. rewrite Hp. unfold queue_of. simpl. by rewrite lookup_insert_eq.
Qed.

(** C3.  [queueDiffs] queues exactly the pairs that need a rectification and whose
    deployment has none waiting or under way, each on its own deployment's queue;
    no other queue changes, nothing is ever queued for a deployment that is no
    longer intended, and no push blocks. *)
Theorem queueDiffs_spec (ps : list (DeployablePair * R11nID)) (rqs : R11nQueueSet) :
  NoDup ((λ x, pair_name x.1) <$> ps) → (∀ x, x ∈ ps → is_Some (wanted x.1)) →
  (∀ did, open_queue (queue_of did rqs)) →
  ∃ rqs' queued, queueDiffs ps rqs = Some (rqs', queued) ∧
    (∀ p id, (p, id) ∈ queued ↔
       (p, id) ∈ ps ∧ wanted p = Some true ∧ refs (queue_of (pair_name p) rqs) = ∅) ∧
    (∀ p id, (p, id) ∈ queued → is_Some (Post p) ∧
       ∃ a, internalPush id (NewRectification p) (queue_of (pair_name p) rqs)
              = Some (queue_of (pair_name p) rqs', a)) ∧
    (∀ did, did ∉ (λ x, pair_name x.1) <$> queued → queue_of did rqs' = queue_of did rqs).
Proof.
  intros Hnd Hw Ho. unfold queueDiffs. induction ps as [|[p id] ps IH] using rev_ind.
  { exists rqs, []. split_and!; [done| | |done].
    - intros p id. split; [by intros Hin%elem_of_nil|]. by intros [Hin%elem_of_nil _].
    - by intros p id Hin%elem_of_nil. }
  rewrite fmap_app in Hnd. apply NoDup_app in Hnd as (Hnd&Hnew&_).
  destruct IH as (r1&q1&Hr1&Hq1&Hp1&Hsame1); [done|set_solver|].
  rewrite foldl_app, Hr1. cbn [foldl mbind option_bind].
  assert (pair_name p ∉ (λ x, pair_name x.1) <$> q1) as Hpnew.
  { intros ([p' id']&Heq&Hin)%list_elem_of_fmap. apply Hq1 in Hin as [Hin _].
    apply (Hnew (pair_name p)); [|set_solver]. apply list_elem_of_fmap. by exists (p', id'). }
  destruct (Hw (p, id)) as [w Hwp]; [set_solver|]. simpl in Hwp.
  assert (queue_of (pair_name p) r1 = queue_of (pair_name p) rqs) as Hsamep by auto.
  destruct (queue_diff_cases p id r1 q1 w Hwp) as (r2&_&Hframe&Hcase); [by rewrite Hsamep|].
  assert (∀ p' id', (p', id') ∈ q1 → pair_name p' ≠ pair_name p) as Hother.
  { intros p' id' Hin Heq. apply Hpnew. rewrite <-Heq. apply list_elem_of_fmap. by exists (p', id'). }
  rewrite Hsamep in Hcase.
  destruct Hcase as [(->&Hre&(a&Ha)&->)|(Hno&Hq&->)]; eexists _, _; (split; [done|]); split_and!.
  - intros p' id'. rewrite !elem_of_app, !list_elem_of_singleton, Hq1. naive_solver.
  - intros p' id'. rewrite elem_of_app, list_elem_of_singleton. intros [Hin|[= -> ->]].
    + rewrite Hframe by eauto. by apply Hp1.
    + split; [|by exists a]. unfold wanted in Hwp. by destruct (Post p).
  - intros did Hdid. rewrite fmap_app in Hdid. rewrite Hframe by set_solver. apply Hsame1. set_solver.
  - intros p' id'. rewrite elem_of_app, list_elem_of_singleton, Hq1. split; [naive_solver|].
    intros ([Hin|[= -> ->]]&Hw'&Hr'); [done|]. rewrite Hwp in Hw'. destruct Hno; [congruence|done].
  - intros p' id' Hin. rewrite Hframe by eauto. by apply Hp1.
  - intros did Hdid. destruct (decide (did = pair_name p)) as [->|Hne]; [done|].
    rewrite Hframe by done. by apply Hsame1.
Qed.

(** ** Witnesses *)

Definition sample_artifact : BuildArtifact :=
  mkBuildArtifact "docker" "docker.example.com/wackadoo:1.2.3" [mkQuality "not_service" "advisory"].
Definition sample_registry : Registry := {| GetArtifact := λ _, Ok (Some sample_artifact) |}.
Definition sample_deployer : Deployer := {| RunningDeployments := λ _, Ok sample_states |}.
Definition everything : ResolveFilter := mkResolveFilter None None None None None None DeployStatusAny.

(** The advisory that [sample_cluster] allows does not keep the deployment from
    being passed on; one that it does not allow does. *)
Definition wary_registry : Registry := {| GetArtifact := λ _, Ok (Some
  (mkBuildArtifact "docker" "docker.example.com/wackadoo:1.2.3"
     [mkQuality "" "advisory"; mkQuality "not_service" "advisory"; mkQuality "dirty workspace" "advisory"])) |}.

Lemma Begin_spec_witness :
  let range := λ V : Type, @map_to_list DeploymentID V (gmap DeploymentID V) _ in
  (∃ pairs errs, @Begin sample_registry sample_deployer everything range sample_deployments ∅
      = Ok (Some (pairs, errs)) ∧ ∃ p, p ∈ pairs ∧ pair_name p = sample_did) ∧
  (∃ pairs errs, @Begin wary_registry sample_deployer everything range sample_deployments ∅
      = Ok (Some (pairs, errs)) ∧ ∃ rez e, rez ∈ errs ∧ rez_DeploymentID rez = sample_did ∧
    rez_Error rez = Some (wrap e) ∧ @refused wary_registry sample_deployment e).
Proof.
  intros range.
  assert (sample_deployments !! sample_did = Some sample_deployment) as Hd by apply lookup_singleton_eq.
  assert (FilterDeployment everything sample_deployment = true) as Hf by (vm_compute; reflexivity).
  split.
  - destruct (@Begin_spec sample_registry sample_deployer everything range (λ V m, reflexivity _)
      sample_deployments ∅ sample_states eq_refl (λ _ H, ltac:(discriminate H)) sample_keyed (proj1 sample_states_ok)
      sample_deployments_ok (proj2 sample_states_ok)) as (pairs&errs&Hb&_&Hall).
    exists pairs, errs. split; [exact Hb|]. destruct (Hall _ _ Hd Hf) as [Hp|(rez&e&_&_&_&Hr)]; [exact Hp|].
    destruct (refused_not_deployable _ _ (Some sample_artifact) Hr).
    split; [done|]. split; [done|]. intros q Hq _ _. apply list_elem_of_singleton in Hq as ->.
    exists sample_cluster. split; [done|]. apply (bool_decide_unpack _). vm_compute. exact I.
  - destruct (@Begin_spec wary_registry sample_deployer everything range (λ V m, reflexivity _)
      sample_deployments ∅ sample_states eq_refl (λ _ H, ltac:(discriminate H)) sample_keyed (proj1 sample_states_ok)
      sample_deployments_ok (proj2 sample_states_ok)) as (pairs&errs&Hb&_&Hall).
    exists pairs, errs. split; [exact Hb|]. destruct (Hall _ _ Hd Hf) as [(p&Hp&_)|Hr]; [|exact Hr].
    assert (match @Begin wary_registry sample_deployer everything range sample_deployments ∅ with
            | Ok (Some (ps, _)) => length ps | _ => 1%nat end = 0%nat) as He by (vm_compute; reflexivity).
    rewrite Hb in He. destruct pairs; [exact (match proj1 (elem_of_nil _) Hp with end)|discriminate He].
Defined.

Lemma queueDiffs_spec_witness :
  let p := pair_for sample_states sample_deployments sample_did in
  let rqs := NewR11nQueueSet 10 in
  ∃ rqs' queued, queueDiffs [(p, "a")] rqs = Some (rqs', queued) ∧
    ((p, "a") ∈ queued ↔ wanted p = Some true).
Proof.
  intros p rqs.
  destruct (queueDiffs_spec [(p, "a")] rqs) as (rqs'&queued&Hq&Hin&_).
  - apply NoDup_singleton.
  - intros x ->%list_elem_of_singleton.
    destruct (pair_Kind_pair_for sample_states sample_deployments sample_did) as (k&Hk&_);
      [apply sample_states_ok|apply sample_keyed|apply sample_states_ok|apply sample_deployments_ok|].
    assert (Post p = Some (active sample_deployment)) as Hp.
    { unfold p, pair_for, sample_deployments. cbn [Post new_pair].
      by rewrite lookup_singleton_eq. }
    unfold wanted. cbn [fst]. rewrite Hp. fold p in Hk. rewrite Hk. by eexists.
  - intros did. unfold queue_of, rqs. cbn [rqs_set rqs_cap NewR11nQueueSet]. rewrite lookup_empty.
    split; [apply inv_init|simpl; lia].
  - exists rqs', queued. split; [exact Hq|]. rewrite Hin.
    unfold queue_of, rqs. cbn [rqs_set rqs_cap NewR11nQueueSet]. rewrite lookup_empty.
    split; [intros (_&Hw&_); exact Hw|]. intros Hw. split; [apply list_elem_of_singleton; reflexivity|].
    split; [exact Hw|reflexivity].
Defined.
