(* ===== verification/DockerNames.v ===== *)
(** * Names and labels of Docker images (ext/docker/names.go, docker_labels.go)

    An image carries its source ID in labels, written when it is built and read
    back when a deployment is rebuilt from what a cluster runs; it is pushed
    under a tag for its version and a tag for its revision. *)

From S2P Require Import Prelude.
From S2P Require Import GoStrings.
From S2P Require Import GoPath.
From S2P Require Import Semv.
From S2P Require Import Ids.
#[local] Open Scope string_scope.
#[local] Open Scope Z_scope.

(** ** Labels *)

Definition DockerRepoLabel : string := "com.opentable.sous.repo_url".
Definition DockerPathLabel : string := "com.opentable.sous.repo_offset".
Definition DockerVersionLabel : string := "com.opentable.sous.version".
Definition DockerRevisionLabel : string := "com.opentable.sous.revision".

Inductive labels_error : Type :=
| MissingLabels (l : list string)
| LabelVersion (e : id_error).

(** The label, or its name as missing. *)
Definition label (labels : gomap string) (name : string) : string * list string :=
  match entries labels !! name with Some v => (v, []) | None => ("", [name]) end.

Definition SourceIDFromLabels (labels : gomap string) : result labels_error SourceID :=
  let '(repo, m1) := label labels DockerRepoLabel in
  let '(versionStr, m2) := label labels DockerVersionLabel in
  let '(revision, m3) := label labels DockerRevisionLabel in
  let '(path, m4) := label labels DockerPathLabel in
  let missingLabels := (m1 ++ m2 ++ m3 ++ m4)%list in
  if decide (missingLabels ≠ []) then Err (MissingLabels missingLabels)
  else
    id ← map_err LabelVersion (NewSourceID repo path versionStr);
    let v := sid_Version id in
    Ok (mkSourceID (Location id)
          (mkVersion (Major v) (Minor v) (Patch v) (Pre v) revision (DefaultFormat v))).

Definition tag_format : string := "M.m.p-?".

Definition Labels (sid : SourceID) : gmap string string :=
  <[DockerRepoLabel := Repo (Location sid)]>
    (<[DockerPathLabel := Dir (Location sid)]>
      (<[DockerRevisionLabel := RevID sid]>
        (<[DockerVersionLabel := Format (sid_Version sid) tag_format]> ∅))).

(** ** Names *)

(** The width in bytes of the rune a string starts with: what [.] matches.  An
    ill-formed sequence is read one byte at a time. *)
Definition between (lo hi : nat) (c : ascii) : bool :=
  ((lo <=? nat_of_ascii c) && (nat_of_ascii c <=? hi))%nat.

Definition rune_width (s : string) : nat :=
  match s with
  | "" => 0
  | String.String b0 s1 =>
      let tail := between 128 191 in
      match s1 with
      | "" => 1
      | String.String b1 s2 =>
          if between 194 223 b0 && tail b1 then 2
          else match s2 with
               | "" => 1
               | String.String b2 s3 =>
                   let second :=
                     if between 224 224 b0 then between 160 191 b1
                     else if between 237 237 b0 then between 128 159 b1
                     else between 225 239 b0 && tail b1 in
                   if second && tail b2 then 3
                   else match s3 with
                        | "" => 1
                        | String.String b3 _ =>
                            let second :=
                              if between 240 240 b0 then between 144 191 b1
                              else if between 244 244 b0 then between 128 143 b1
                              else between 241 243 b0 && tail b1 in
                            if second && tail b2 && tail b3 then 4 else 1
                        end
               end
      end
  end%nat.

Fixpoint drop_letters (s : string) : string :=
  match s with
  | String.String c s' => if is_letter c then drop_letters s' else s
  | "" => ""
  end.

(** What is left after the prefix [p], if [s] starts with it. *)
Definition after (p s : string) : option string :=
  if has_prefix s p then Some (str_drop (String.length p) s) else None.

(** [stripRE.ReplaceAllString(name, "")].  The expression is anchored and every
    group is optional and greedy, so each is taken when it matches: letters and
    [://]; [github], any rune but a newline, [com]; [/opentable]; [/]. *)
Definition strip (name : string) : string :=
  let s :=
    match after "://" (drop_letters name) with
    | Some s => if has_prefix name "://" then name else s
    | None => name
    end in
  match after "github" s with
  | None => s
  | Some s1 =>
      if decide (s1 = "" ∨ has_prefix s1 (String.String "010"%char "") = true) then s
      else match after "com" (str_drop (rune_width s1) s1) with
           | None => s
           | Some s2 =>
               match after "/opentable" s2 with
               | None => s2
               | Some s3 => default s3 (after "/" s3)
               end
           end
  end.

Definition imageRepoName (sl : SourceLocation) (kind : string) : string :=
  let name := strip (Repo sl) in
  let name := if decide (Dir sl ≠ "") then join "/" [name; Dir sl] else name in
  if decide (kind = "") then name else join "-" [name; kind].

Definition tagName (v : Version) : string := Format v tag_format.

Definition versionName (sid : SourceID) (kind : string) : string :=
  join ":" [imageRepoName (Location sid) kind; tagName (sid_Version sid)].

(** A time in UTC, to the second. *)
Record Stamp := mkStamp {
  year : Z; month : Z; day : Z; hour : Z; minute : Z; second : Z
}.

(** A number padded with zeros, as [time.Format] writes it. *)
Definition pad (width : nat) (z : Z) : string :=
  foldr (String.String) (itoa z) (replicate (width - String.length (itoa z)) "0"%char).

(** The layout "2006-01-02T15.04.05". *)
Definition stamp_string (t : Stamp) : string :=
  pad 4 (year t) +:+ "-" +:+ pad 2 (month t) +:+ "-" +:+ pad 2 (day t) +:+ "T" +:+
  pad 2 (hour t) +:+ "." +:+ pad 2 (minute t) +:+ "." +:+ pad 2 (second t).

(** The tag of [revisionName]: [labelStr]. *)
Definition labelStr (sid : SourceID) (t : Stamp) : string :=
  "z" +:+ RevID sid +:+ "-" +:+ stamp_string t.

Definition revisionName (sid : SourceID) (kind : string) (t : Stamp) : string :=
  join ":" [imageRepoName (Location sid) kind; labelStr sid t].

Definition fullRepoName (registryHost : string) (sl : SourceLocation) (kind : string) : string :=
  Join [registryHost; imageRepoName sl kind].
Definition versionTag (registryHost : string) (v : SourceID) (kind : string) : string :=
  Join [registryHost; versionName v kind].
Definition revisionTag (registryHost : string) (v : SourceID) (kind : string) (t : Stamp) : string :=
  Join [registryHost; revisionName v kind t].

Definition ex_sid : SourceID :=
  mkSourceID (mkSourceLocation "github.com/opentable/wackadoo" "nested/there")
    (mkVersion 1 2 3 "rc.1" "5b8e7a" "M.m.p-?+?").

Example versionTag_ex :
  versionTag "docker.otenv.com" ex_sid "" = "docker.otenv.com/wackadoo/nested/there:1.2.3-rc.1".
Proof. vm_compute. reflexivity. Qed.
Example versionTag_kind :
  versionTag "docker.otenv.com" ex_sid "builder" =
    "docker.otenv.com/wackadoo/nested/there-builder:1.2.3-rc.1".
Proof. vm_compute. reflexivity. Qed.
Example revisionTag_ex :
  revisionTag "docker.otenv.com" ex_sid "" (mkStamp 2017 3 9 4 5 59) =
    "docker.otenv.com/wackadoo/nested/there:z5b8e7a-2017-03-09T04.05.59".
Proof. vm_compute. reflexivity. Qed.
Example strip_ex1 : strip "https://github.com/user/x" = "/user/x". Proof. reflexivity. Qed.
Example strip_ex2 : strip "git.example.com/x" = "git.example.com/x". Proof. reflexivity. Qed.
Example strip_ex3 : strip "ssh://github-com/opentablexyz" = "xyz". Proof. reflexivity. Qed.

(** ** Lemmas *)

Lemma Labels_lookups sid :
  Labels sid !! DockerRepoLabel = Some (Repo (Location sid)) ∧
  Labels sid !! DockerPathLabel = Some (Dir (Location sid)) ∧
  Labels sid !! DockerRevisionLabel = Some (RevID sid) ∧
  Labels sid !! DockerVersionLabel = Some (Format (sid_Version sid) tag_format).
Proof.
  unfold Labels. split_and!; repeat (rewrite lookup_insert_ne by done); apply lookup_insert_eq.
Qed.

(** A version without its build metadata, as its tag spells it. *)
Definition untagged (v : Version) : Version :=
  mkVersion (Major v) (Minor v) (Patch v) (Pre v) ""
    (MajorMinorPatch +:+ (if decide (Pre v = "") then "" else "-?")).

Lemma untagged_wf v : wf v → wf (untagged v).
Proof.
  intros [? ? ? ? _ _]. split; try done.
  unfold canonical_format. simpl. by case_decide.
Qed.

Lemma Format_tag v : wf v → Format v tag_format = full_string (untagged v).
Proof.
  intros Hwf. change tag_format with (MajorMinorPatch +:+ ("-?" +:+ "")).
  rewrite Format_parts by auto. rewrite full_string_num. done.
Qed.

Lemma Parse_tag v : wf v → Parse (Format v tag_format) = Ok (untagged v).
Proof. intros Hwf. rewrite Format_tag by done. by apply Parse_full_string, untagged_wf. Qed.

(** What a source ID is after a trip through an image's labels: nothing is lost
    but the detail it is printed at, which leaves the build metadata out. *)
Definition relabelled (sid : SourceID) : SourceID :=
  let v := sid_Version sid in
  mkSourceID (Location sid)
    (mkVersion (Major v) (Minor v) (Patch v) (Pre v) (Meta v) (DefaultFormat (untagged v))).

Lemma SourceIDFromLabels_present labels repo path revision version v :
  labels !! DockerRepoLabel = Some repo → labels !! DockerPathLabel = Some path →
  labels !! DockerRevisionLabel = Some revision → labels !! DockerVersionLabel = Some version →
  Parse version = Ok v →
  SourceIDFromLabels (Some labels) = Ok (mkSourceID (mkSourceLocation repo path)
    (mkVersion (Major v) (Minor v) (Patch v) (Pre v) revision (DefaultFormat v))).
Proof.
  intros Hr Hp Hrev Hv HP. unfold SourceIDFromLabels, label, entries. simpl.
  rewrite Hr, Hp, Hrev, Hv. simpl. unfold NewSourceID. rewrite HP. done.
Qed.

Lemma SourceIDFromLabels_extend labels sid :
  Labels sid ⊆ labels → wf (sid_Version sid) →
  SourceIDFromLabels (Some labels) = Ok (relabelled sid).
Proof.
  intros Hsub Hwf. destruct (Labels_lookups sid) as (H1&H2&H3&H4).
  rewrite (SourceIDFromLabels_present labels _ _ _ _ (untagged (sid_Version sid))
    (lookup_weaken _ _ _ _ H1 Hsub) (lookup_weaken _ _ _ _ H2 Hsub)
    (lookup_weaken _ _ _ _ H3 Hsub) (lookup_weaken _ _ _ _ H4 Hsub)) by by apply Parse_tag.
  by destruct sid as [[] ?].
Qed.

Lemma relabelled_equiv sid : source_equiv (relabelled sid) sid.
Proof. by split. Qed.

Lemma relabelled_Equal sid : SourceID_Equal sid (relabelled sid) = true.
Proof.
  unfold SourceID_Equal. replace (Equals _ _) with (Equals (sid_Version sid) (sid_Version sid)) by done.
  rewrite Equals_refl. by apply bool_decide_eq_true.
Qed.

(** A padded number that fits its width: exactly that many digits. *)
Definition fits (width : nat) (s : string) : bool :=
  (String.length s =? width)%nat && forallb is_digit (bytes s).

Lemma pad_fits width bound z :
  forallb (λ n, fits width (pad width (Z.of_nat n))) (seq 0 bound) = true →
  0 ≤ z < Z.of_nat bound → fits width (pad width z) = true.
Proof.
  rewrite forallb_forall. intros Hall Hz. rewrite <-(Z2Nat.id z) by lia.
  apply Hall, list_elem_of_In, elem_of_seq. lia.
Qed.

Lemma pad2_fits z : 0 ≤ z < 100 → fits 2 (pad 2 z) = true.
Proof. apply (pad_fits 2 100). vm_compute. reflexivity. Qed.
Lemma pad4_fits z : 0 ≤ z < 10000 → fits 4 (pad 4 z) = true.
Proof.
  intros Hz. apply (pad_fits 4 (Z.to_nat 10000)); [|lia]. vm_compute. reflexivity.
Qed.

(** The bytes Docker allows in a tag. *)
Definition tag_char (c : ascii) : bool :=
  is_letter c || is_digit c || bool_decide (c = "_"%char ∨ c = "."%char ∨ c = "-"%char).

(** A legal tag: at most 128 bytes, starting with neither a period nor a dash. *)
Definition legal_tag (s : string) : bool :=
  (String.length s <=? 128)%nat && forallb tag_char (bytes s)
  && match s with
     | "" => false
     | String.String c _ => negb (bool_decide (c = "."%char ∨ c = "-"%char))
     end.

Lemma digit_tag_char c : is_digit c = true → tag_char c = true.
Proof. unfold tag_char. intros ->. by rewrite orb_true_r. Qed.

Lemma fits_tag n s : fits n s = true → String.length s = n ∧ forallb tag_char (bytes s) = true.
Proof.
  unfold fits. rewrite andb_true_iff, Nat.eqb_eq, !forallb_forall.
  intros [? Hd]. split; [done|]. intros c Hc. by apply digit_tag_char, Hd.
Qed.

Definition in_range (t : Stamp) : bool :=
  bool_decide (0 ≤ year t < 10000 ∧ 0 ≤ month t < 100 ∧ 0 ≤ day t < 100 ∧
               0 ≤ hour t < 100 ∧ 0 ≤ minute t < 100 ∧ 0 ≤ second t < 100).

Lemma stamp_string_tag t :
  in_range t = true →
  String.length (stamp_string t) = 19%nat ∧ forallb tag_char (bytes (stamp_string t)) = true.
Proof.
  unfold in_range. rewrite bool_decide_eq_true. intros (Hy&Hmo&Hd&Hh&Hmi&Hs).
  apply pad4_fits, fits_tag in Hy as [Ly Cy].
  apply pad2_fits, fits_tag in Hmo as [Lmo Cmo], Hd as [Ld Cd], Hh as [Lh Ch], Hmi as [Lmi Cmi],
    Hs as [Ls Cs].
  unfold stamp_string. rewrite !str_length_app, !bytes_app, !forallb_app.
  rewrite Ly, Lmo, Ld, Lh, Lmi, Ls, Cy, Cmo, Cd, Ch, Cmi, Cs. done.
Qed.

(** ** Properties *)

(** A source ID survives the labels of its image: whatever other labels the
    image has, reading it back succeeds with the same repository, offset,
    numbers, prerelease and revision, so it is equal to the ID the image was
    built for. *)
Theorem SourceIDFromLabels_Labels (sid : SourceID) (labels : gmap string string) :
  wf (sid_Version sid) → Labels sid ⊆ labels →
  ∃ sid', SourceIDFromLabels (Some labels) = Ok sid' ∧
    Location sid' = Location sid ∧ RevID sid' = RevID sid ∧
    SourceID_Equal sid sid' = true ∧ Labels sid' = Labels sid.
Proof.
  intros Hwf Hsub. exists (relabelled sid).
  rewrite (SourceIDFromLabels_extend labels sid) by done.
  split_and!; try done. apply relabelled_Equal.
Qed.

Lemma SourceIDFromLabels_Labels_witness :
  ∃ sid', SourceIDFromLabels (Some (Labels ex_sid)) = Ok sid' ∧
    RevID sid' = "5b8e7a" ∧ SourceID_Equal ex_sid sid' = true.
Proof.
  destruct (SourceIDFromLabels_Labels ex_sid (Labels ex_sid)) as (sid'&H1&_&H2&H3&_).
  - split; try done; apply (bool_decide_unpack _); vm_compute; exact I.
  - reflexivity.
  - exists sid'. split_and!; [exact H1|exact H2|exact H3].
Defined.

(** An image lacking any of the four labels has no source ID, and the error
    names every one that is missing. *)
Lemma SourceIDFromLabels_missing (labels : gomap string) :
  let names := [DockerRepoLabel; DockerVersionLabel; DockerRevisionLabel; DockerPathLabel] in
  let missing := filter (λ n, entries labels !! n = None) names in
  missing ≠ [] → SourceIDFromLabels labels = Err (MissingLabels missing).
Proof.
  intros names missing Hne.
  assert (missing = (snd (label labels DockerRepoLabel) ++ snd (label labels DockerVersionLabel) ++
    snd (label labels DockerRevisionLabel) ++ snd (label labels DockerPathLabel))%list) as Hm.
  { unfold missing, names, label. rewrite !filter_cons, filter_nil.
    repeat (destruct (entries labels !! _)); simpl; repeat case_decide; done. }
  unfold SourceIDFromLabels. rewrite Hm in *.
  destruct (label labels DockerRepoLabel), (label labels DockerVersionLabel),
    (label labels DockerRevisionLabel), (label labels DockerPathLabel).
  simpl in *. by rewrite decide_True.
Qed.

(** The tag of a revision is one Docker accepts, for revisions of up to 107
    bytes: a git hash takes 40. *)
Lemma revision_tag_legal (sid : SourceID) (t : Stamp) :
  (String.length (RevID sid) ≤ 107)%nat → forallb tag_char (bytes (RevID sid)) = true →
  in_range t = true → legal_tag (labelStr sid t) = true.
Proof.
  intros Hl Hc Ht. destruct (stamp_string_tag t Ht) as [Ls Cs].
  unfold legal_tag, labelStr.
  rewrite !str_length_app, !bytes_app, !forallb_app, Ls, Cs, Hc. simpl.
  rewrite !andb_true_iff. split_and!; [|done..]. apply Nat.leb_le. lia.
Qed.

(** Two repositories can share their image names: the host and the owner are
    dropped, and an offset reads as part of the repository. *)
Lemma imageRepoName_collides :
  imageRepoName (mkSourceLocation "github.com/opentable/a" "b") "" =
    imageRepoName (mkSourceLocation "github.com/opentable/a/b" "") "" ∧
  imageRepoName (mkSourceLocation "a" "") "" =
    imageRepoName (mkSourceLocation "https://github.com/opentable/a" "") "".
Proof. by split. Qed.
