(* ===== verification/Builds.v ===== *)
(** * Builds (lib/build_config.go, build_context.go, build_manager.go, buildpack.go,
    the offsets of lib/source_context.go; util/firsterr, util/shell/sh.go)

    What a user asks to be built, the context it is built in, the advisories
    that apply, and the sequence of a build.  Slices of advisories are shared
    between a context and its products, so they live in a store of arrays. *)

From S2P Require Import Prelude.
From S2P Require Import GoStrings.
From S2P Require Import GoPath.
From S2P Require Import GoSlice.
From S2P Require Import Flaw.
From S2P Require Import Semv.
From S2P Require Import Ids.
From S2P Require Import ResolveFilter.
#[local] Open Scope string_scope.
#[local] Open Scope Z_scope.
#[local] Open Scope list_scope.

(** ** The first error of a sequence (util/firsterr) *)

(** [Set] and [Returned] of [S]: each function in turn, up to the first that
    fails; [None] is a panic of one of them. *)
Fixpoint first_err {S E} (fs : list (S → option (S * option E))) (s : S) :
    option (S * option E) :=
  match fs with
  | [] => Some (s, None)
  | f :: fs' =>
      match f s with
      | Some (s', None) => first_err fs' s'
      | r => r
      end
  end.

Lemma first_err_app {S E} (fs gs : list (S → option (S * option E))) s :
  first_err (fs ++ gs) s =
    match first_err fs s with Some (s', None) => first_err gs s' | r => r end.
Proof.
  revert s. induction fs as [|f fs IH]; intros s; simpl; [done|].
  destruct (f s) as [[s' [e|]]|]; [done| |done]. apply IH.
Qed.

(** ** The shell's directory (util/shell/sh.go) *)

Record Sh := mkSh { Cwd : string }.

(** [CD] moves before it looks; [is_dir] is what [os.Stat] says: [None] an
    error. *)
Definition CD (is_dir : string → option bool) (dir : string) (s : Sh) : Sh * option text :=
  let dir := if IsAbs dir then dir else Clean (Join [Cwd s; dir]) in
  (mkSh dir,
   match is_dir dir with
   | None => Some (errorf "sh chdir" [])
   | Some false => Some (errorf "%s is not a directory" [AStr dir])
   | Some true => None
   end).

Definition Abs (s : Sh) (path : string) : string :=
  if IsAbs path then Clean path else Join [Cwd s; path].

(** ** Data *)

Record ScratchContext := mkScratch { scr_Cwd : string; scr_RootDir : string; scr_OffsetDir : string }.
Record Machine := mkMachine { Host : string; FullHost : string }.
Record User := mkUser { Uid : string; Gid : string; Username : string; u_Name : string; HomeDir : string }.
Record Changes := mkChanges {
  SousUpdated : list string; NewCommit : list string; NewTag : list string;
  ch_NewFiles : list string; ChangedFiles : list string
}.

Record BuildContext := mkBuildContext {
  bc_Sh : Sh;
  bc_Source : SourceContext;
  bc_Scratch : ScratchContext;
  bc_Machine : Machine;
  bc_User : User;
  bc_Changes : Changes;
  bc_Advisories : option Slice
}.

Definition bc_Version (bc : BuildContext) : SourceID := SourceContext_Version (bc_Source bc).

Record BuildConfig := mkBuildConfig {
  bcfg_Repo : string; bcfg_Offset : string; bcfg_Tag : string; bcfg_Revision : string;
  Strict : bool; ForceClone : bool; Dev : bool;
  Context_ : BuildContext
}.

Record BuildProduct := mkBuildProduct {
  bp_Source : SourceID; bp_Kind : string; bp_ID : string;
  bp_Advisories : option Slice;
  VersionName : string; RevisionName : string
}.

(** The time a build took is not kept. *)
Record BuildResult := mkBuildResult { Products : list BuildProduct }.

(** ** Advisories *)

Definition NotService : string := "support container".
Definition IsBuilder : string := "is a build image".
Definition UnknownRepo : string := "source workspace lacked repo".
Definition NoRepoAdv : string := "no repository".
Definition NotRequestedRevision : string := "requested revision not built".
Definition Unversioned : string := "no versioned tag".
Definition TagMismatch : string := "tag mismatch".
Definition TagNotHead : string := "tag not on built revision".
Definition EphemeralTag : string := "ephemeral tag".
Definition UnpushedRev : string := "unpushed revision".
Definition BogusRev : string := "bogus revision".
Definition DirtyWS : string := "dirty workspace".
Definition DeveloperBuild : string := "developer build".

Definition AllAdvisories : list string :=
  [NotService; IsBuilder; UnknownRepo; NoRepoAdv; NotRequestedRevision; Unversioned; TagMismatch;
   TagNotHead; EphemeralTag; UnpushedRev; BogusRev; DirtyWS; DeveloperBuild].

(** The advisories of a context with source [s], in the order they are found. *)
Definition Advisories (c : BuildConfig) (s : SourceContext) : list string :=
  let adv (b : bool) a := if b then [a] else [] in
  let knowsRepo := bool_decide (RemoteURL s ∈ RemoteURLs s) in
  let hasTag := existsb (λ t, bool_decide (tag_Name t = bcfg_Tag c)) (Tags s) in
  adv (negb knowsRepo) UnknownRepo
  ++ adv (bool_decide (RemoteURL s = "")) NoRepoAdv
  ++ adv (bool_decide (bcfg_Revision c ≠ "" ∧ bcfg_Revision c ≠ Revision s)) NotRequestedRevision
  ++ adv (bool_decide (Format (sid_Version (bc_Version (Context_ c))) "M.m.p" = "0.0.0")) Unversioned
  ++ (if decide (bcfg_Tag c ≠ "")
      then if negb hasTag then [EphemeralTag]
           else adv (bool_decide (NearestTagRevision s ≠ Revision s)) TagNotHead
      else [])
  ++ adv (DirtyWorkingTree s) DirtyWS
  ++ adv (RevisionUnpushed s) UnpushedRev
  ++ adv (Dev c) DeveloperBuild.

(** ** Configuration *)

Definition chooseRemoteURL (c : BuildConfig) : string :=
  if decide (bcfg_Repo c = "") then PrimaryRemoteURL (bc_Source (Context_ c)) else bcfg_Repo c.

Definition chooseTag (c : BuildConfig) : string :=
  if decide (bcfg_Tag c = "") then NearestTagName (bc_Source (Context_ c)) else bcfg_Tag c.

Definition chooseOffset (c : BuildConfig) : string :=
  if decide (bcfg_Offset c = "") then OffsetDir (bc_Source (Context_ c))
  else let clean := Clean (bcfg_Offset c) in
       if decide (clean = ".") then "" else clean.

Definition set_Tag (t : string) (c : BuildConfig) : BuildConfig :=
  mkBuildConfig (bcfg_Repo c) (bcfg_Offset c) t (bcfg_Revision c) (Strict c) (ForceClone c) (Dev c)
    (Context_ c).
Definition set_Offset (o : string) (c : BuildConfig) : BuildConfig :=
  mkBuildConfig (bcfg_Repo c) o (bcfg_Tag c) (bcfg_Revision c) (Strict c) (ForceClone c) (Dev c)
    (Context_ c).

Definition Resolve (c : BuildConfig) : BuildConfig := set_Tag (chooseTag c) c.

Definition Validate (c : BuildConfig) : option text :=
  match parseSemverTagWithOptionalPrefix (bcfg_Tag c) with
  | Err _ => Some (errorf "semver git tag required: invalid tag: %q" [AStr (bcfg_Tag c)])
  | Ok _ => None
  end.

Definition context_source (c : BuildConfig) : SourceContext :=
  let sc := bc_Source (Context_ c) in
  let tag := chooseTag c in
  mkSourceContext (RootDir sc) (chooseOffset c) (Branch sc) (Revision sc)
    (Files sc) (ModifiedFiles sc) (NewFiles sc) (Tags sc)
    (mkGitTag tag (NearestTagRevision sc)) tag (NearestTagRevision sc)
    (PrimaryRemoteURL sc) (chooseRemoteURL c) (RemoteURLs sc)
    (DirtyWorkingTree sc) (RevisionUnpushed sc) (Dev c).

Section Contexts.
Context `{Growth}.

(** A slice that starts as [[]string{}] and is appended to one by one. *)
Definition append_each (l : list string) (h : arrays) : arrays * option Slice :=
  foldl (λ '(h, s) x, append s [x] h) (make0 0 h) l.

Definition NewContext (is_dir : string → option bool) (c : BuildConfig) (h : arrays) :
    arrays * BuildContext :=
  let ctx := Context_ c in
  let '(sh, _) := CD is_dir (RootDir (bc_Source ctx)) (bc_Sh ctx) in
  let source := context_source c in
  let '(h', advs) := append_each (Advisories c source) h in
  (h', mkBuildContext sh source (bc_Scratch ctx) (bc_Machine ctx) (bc_User ctx) (bc_Changes ctx)
         advs).

Definition GuardStrict (c : BuildConfig) (bc : BuildContext) (h : arrays) : option text :=
  if negb (Strict c) then None
  else let as_ := contents h (bc_Advisories bc) in
       if decide (as_ ≠ [])
       then Some (errorf "Strict built encountered advisories:\n  %s" [AStr (join "  \n" as_)])
       else None.

Definition blocking (a : string) : bool :=
  bool_decide (a ∈ [DirtyWS; UnpushedRev; NoRepoAdv; NotRequestedRevision]).

Definition blockers (br : BuildResult) (h : arrays) : list string :=
  p ← Products br;
  (λ a, SourceID_String (bp_Source p) +:+ ": " +:+ a)
    <$> filter (λ a, blocking a = true) (contents h (bp_Advisories p)).

Definition GuardRegister (br : BuildResult) (h : arrays) : option text :=
  if decide (blockers br h ≠ [])
  then Some (errorf "build may not be deployable in all clusters due to advisories:\n  %s"
               [AStr (join "\n  " (blockers br h))])
  else None.

(** ** Results *)

Definition contextualize_product (c : BuildContext) (p : BuildProduct) (h : arrays) :
    arrays * BuildProduct :=
  let advs := contents h (bc_Advisories c) in
  let source :=
    if decide (Repo (Location (bp_Source p)) = "") then bc_Version c else bp_Source p in
  let '(h1, own) :=
    match bp_Advisories p with
    | None => make0 (length advs) h
    | Some s => (h, Some s)
    end in
  let '(h2, all) := append own advs h1 in
  (h2, mkBuildProduct source (bp_Kind p) (bp_ID p) all (VersionName p) (RevisionName p)).

Fixpoint contextualize_all (c : BuildContext) (ps : list BuildProduct) (h : arrays) :
    arrays * list BuildProduct :=
  match ps with
  | [] => (h, [])
  | p :: ps' =>
      let '(h1, p') := contextualize_product c p h in
      let '(h2, ps'') := contextualize_all c ps' h1 in (h2, p' :: ps'')
  end.

Definition Contextualize (c : BuildContext) (br : BuildResult) (h : arrays) :
    arrays * BuildResult :=
  let '(h', ps) := contextualize_all c (Products br) h in (h', mkBuildResult ps).
End Contexts.

(** ** The build manager *)

(** What a build does outside: [W] is the outside world with the store. *)
Record Outside (W : Type) := mkOutside { o_heap : arrays; o_world : W }.
Arguments mkOutside {W}.
Arguments o_heap {W}.
Arguments o_world {W}.

(** [Selector], [Buildpack], [Labeller] and [Registrar]; the first two may panic. *)
Class BuildSystem (W : Type) := {
  Buildpack : Type;
  SelectBuildpack : BuildContext → Outside W → option (Outside W * result text Buildpack);
  Buildpack_Build : Buildpack → BuildContext → Outside W →
                    option (Outside W * (option BuildResult * option text));
  ApplyMetadata : BuildResult → Outside W → Outside W * (BuildResult * option text);
  Register : BuildResult → Outside W → Outside W * option text
}.

Section Manager.
Context `{Growth} {W : Type} `{BuildSystem W} (is_dir : string → option bool).

(** The variables [Build] closes over. *)
Record building := mkBuilding {
  b_out : Outside W;
  b_bp : option Buildpack;
  b_bc : option BuildContext;
  b_br : option BuildResult
}.

(** A warning is logged and the image is registered all the same. *)
Definition RegisterAndWarnAdvisories (br : BuildResult) (o : Outside W) :
    Outside W * list text * option text :=
  let warnings := option_list (GuardRegister br (o_heap o)) in
  let '(o', e) := Register br o in (o', warnings, e).

Definition build_steps (c : BuildConfig) : list (building → option (building * option text)) :=
  [ (λ b, Some (b, Validate c));
    (λ b, let '(h, bc) := NewContext is_dir c (o_heap (b_out b)) in
          Some (mkBuilding (mkOutside h (o_world (b_out b))) (b_bp b) (Some bc) (b_br b), None));
    (λ b, bc ← b_bc b; Some (b, GuardStrict c bc (o_heap (b_out b))));
    (λ b, bc ← b_bc b;
          '(o, r) ← SelectBuildpack bc (b_out b);
          Some (match r with
                | Ok bp => (mkBuilding o (Some bp) (b_bc b) (b_br b), None)
                | Err e => (mkBuilding o None (b_bc b) (b_br b), Some e)
                end));
    (λ b, bc ← b_bc b; bp ← b_bp b;
          '(o, (br, e)) ← Buildpack_Build bp bc (b_out b);
          Some (mkBuilding o (b_bp b) (b_bc b) br, e));
    (λ b, bc ← b_bc b; br ← b_br b;
          let '(h, br') := Contextualize bc br (o_heap (b_out b)) in
          Some (mkBuilding (mkOutside h (o_world (b_out b))) (b_bp b) (b_bc b) (Some br'), None));
    (λ b, br ← b_br b;
          let '(o, (br', e)) := ApplyMetadata br (b_out b) in
          Some (mkBuilding o (b_bp b) (b_bc b) (Some br'), e));
    (λ b, br ← b_br b;
          let '(o, _, e) := RegisterAndWarnAdvisories br (b_out b) in
          Some (mkBuilding o (b_bp b) (b_bc b) (b_br b), e)) ].

(** [None] is a panic: a buildpack that returns neither a result nor an error. *)
Definition Build (c : BuildConfig) (o : Outside W) :
    option (Outside W * (option BuildResult * option text)) :=
  '(b, e) ← first_err (build_steps c) (mkBuilding o None None None);
  Some (b_out b, (b_br b, option_map (λ e, errorf "unable to build: %v" [AText e]) e)).
End Manager.

(** ** Offsets *)

Inductive offset_error : Type :=
| BothOffsets
| NotRelative
| OutsideRoot (offset : string).

Definition OffsetFromWorkdir (offset : string) (cfg : BuildConfig) :
    result offset_error BuildConfig :=
  if decide (bcfg_Offset cfg ≠ "") then Err BothOffsets
  else
    let sc := bc_Source (Context_ cfg) in
    let workAbs := Join [RootDir sc; OffsetDir sc] in
    let offset := if IsAbs offset then offset else Join [workAbs; offset] in
    match Rel (RootDir sc) offset with
    | None => Err NotRelative
    | Some offset =>
        if has_prefix offset ".." then Err (OutsideRoot offset)
        else Ok (set_Offset (if decide (offset = ".") then "" else offset) cfg)
    end.

Definition AbsDir (sc : SourceContext) : string := Join [RootDir sc; OffsetDir sc].

(** The loop of [NormalizedOffset] over the prefixes of [workdir]: the working
    directory seen from [root] through symbolic links. *)
Fixpoint through_links (EvalSymlinks : string → option string) (root : string)
    (parts rest : list string) (workdir : string) : string :=
  match rest with
  | [] => workdir
  | part :: rest' =>
      match EvalSymlinks ("/" +:+ Join (parts ++ [part])) with
      | None => workdir
      | Some prefix =>
          if has_prefix prefix root
          then Join (root :: str_drop (String.length root) prefix :: rest')
          else through_links EvalSymlinks root (parts ++ [part]) rest' workdir
      end
  end.

Definition NormalizedOffset (EvalSymlinks : string → option string) (root workdir : string) :
    option string :=
  let workdir := through_links EvalSymlinks root [] (split_on slash workdir) workdir in
  relDir ← Rel root workdir;
  relDir ← Rel root (Join [root; relDir]);
  Some (if decide (relDir = ".") then "" else relDir).

(** ** Examples *)

Definition ex_source : SourceContext :=
  mkSourceContext "/home/me/wackadoo" "nested" "master" "5b8e7a" [] [] []
    [mkGitTag "1.2.3" "5b8e7a"] (mkGitTag "1.2.3" "5b8e7a") "1.2.3" "5b8e7a"
    "github.com/opentable/wackadoo" "" ["github.com/opentable/wackadoo"] false false false.
Definition ex_context : BuildContext :=
  mkBuildContext (mkSh "/home/me") ex_source (mkScratch "/tmp/x" "/tmp/x" "")
    (mkMachine "laptop" "laptop.example.com") (mkUser "501" "20" "me" "Me" "/home/me")
    (mkChanges [] [] [] [] []) None.
Definition ex_config : BuildConfig :=
  mkBuildConfig "" "" "1.2.3" "" true false false ex_context.

Example ex_clean : Advisories ex_config (context_source ex_config) = [].
Proof. vm_compute. reflexivity. Qed.
Example ex_adhoc :
  let c := set_Tag "9.9.9" ex_config in
  Advisories c (context_source c) = [EphemeralTag].
Proof. vm_compute. reflexivity. Qed.
Example ex_offset :
  OffsetFromWorkdir "../other/dir" ex_config = Ok (set_Offset "other/dir" ex_config).
Proof. vm_compute. reflexivity. Qed.
Example ex_offset_hidden :
  OffsetFromWorkdir "..config" (set_Offset "" (mkBuildConfig "" "" "" "" false false false
    (mkBuildContext (mkSh "/") (mkSourceContext "/r" "" "" "" [] [] [] [] (mkGitTag "" "") "" "" "" ""
       [] false false false) (mkScratch "" "" "") (mkMachine "" "") (mkUser "" "" "" "" "")
       (mkChanges [] [] [] [] []) None))) = Err (OutsideRoot "..config").
Proof. vm_compute. reflexivity. Qed.

(** ** Advisories *)

(** The list that eight conditions make, [tag] being the one advisory a
    requested tag can cause. *)
Lemma advisory_list (b1 b2 b3 b4 b5 b6 b7 b8 b9 : bool) l :
  let adv (b : bool) (a : string) := if b then [a] else [] in
  l = adv b1 UnknownRepo ++ adv b2 NoRepoAdv ++ adv b3 NotRequestedRevision
    ++ adv b4 Unversioned ++ (if b5 then [EphemeralTag] else adv b6 TagNotHead)
    ++ adv b7 DirtyWS ++ adv b8 UnpushedRev ++ adv b9 DeveloperBuild →
  (bool_decide (NoDup l) && forallb (λ a, bool_decide (a ∈ AllAdvisories)) l &&
   forallb (λ '(a, b), Bool.eqb (bool_decide (a ∈ l)) b)
     [(UnknownRepo, b1); (NoRepoAdv, b2); (NotRequestedRevision, b3); (Unversioned, b4);
      (EphemeralTag, b5); (TagNotHead, negb b5 && b6); (DirtyWS, b7); (UnpushedRev, b8);
      (DeveloperBuild, b9)]) = true.
Proof. intros adv ->. destruct b1, b2, b3, b4, b5, b6, b7, b8, b9; vm_compute; reflexivity. Qed.

Definition requested_tag_known (c : BuildConfig) (s : SourceContext) : Prop :=
  ∃ t, t ∈ Tags s ∧ tag_Name t = bcfg_Tag c.

(** Each advisory is given exactly when its condition holds, and once. *)
Theorem Advisories_spec (c : BuildConfig) (s : SourceContext) :
  let l := Advisories c s in
  NoDup l ∧ (∀ a, a ∈ l → a ∈ AllAdvisories) ∧
  (UnknownRepo ∈ l ↔ RemoteURL s ∉ RemoteURLs s) ∧
  (NoRepoAdv ∈ l ↔ RemoteURL s = "") ∧
  (NotRequestedRevision ∈ l ↔ bcfg_Revision c ≠ "" ∧ bcfg_Revision c ≠ Revision s) ∧
  (Unversioned ∈ l ↔ Format (sid_Version (bc_Version (Context_ c))) "M.m.p" = "0.0.0") ∧
  (EphemeralTag ∈ l ↔ bcfg_Tag c ≠ "" ∧ ¬ requested_tag_known c s) ∧
  (TagNotHead ∈ l ↔ bcfg_Tag c ≠ "" ∧ requested_tag_known c s ∧ NearestTagRevision s ≠ Revision s) ∧
  (DirtyWS ∈ l ↔ DirtyWorkingTree s = true) ∧
  (UnpushedRev ∈ l ↔ RevisionUnpushed s = true) ∧
  (DeveloperBuild ∈ l ↔ Dev c = true).
Proof.
  intros l. set (known := existsb (λ t, bool_decide (tag_Name t = bcfg_Tag c)) (Tags s)).
  assert (known = true ↔ requested_tag_known c s) as Hknown.
  { unfold known, requested_tag_known. rewrite existsb_exists. setoid_rewrite bool_decide_eq_true.
    by setoid_rewrite list_elem_of_In. }
  set (t := bool_decide (bcfg_Tag c ≠ "")).
  assert (Hl := advisory_list (negb (bool_decide (RemoteURL s ∈ RemoteURLs s)))
    (bool_decide (RemoteURL s = "")) (bool_decide (bcfg_Revision c ≠ "" ∧ bcfg_Revision c ≠ Revision s))
    (bool_decide (Format (sid_Version (bc_Version (Context_ c))) "M.m.p" = "0.0.0"))
    (t && negb known) (t && bool_decide (NearestTagRevision s ≠ Revision s))
    (DirtyWorkingTree s) (RevisionUnpushed s) (Dev c) l). cbv zeta in Hl.
  lapply Hl; clear Hl.
  2: { unfold l, Advisories. fold known.
    assert ((if t && negb known then [EphemeralTag]
             else if t && bool_decide (NearestTagRevision s ≠ Revision s) then [TagNotHead] else []) =
            (if decide (bcfg_Tag c ≠ "") then if negb known then [EphemeralTag]
             else if bool_decide (NearestTagRevision s ≠ Revision s) then [TagNotHead] else []
             else [])) as ->; [|done].
    unfold t. destruct (decide (bcfg_Tag c ≠ "")) as [Ht|Ht];
      [by rewrite (bool_decide_eq_true_2 _ Ht)|by rewrite (bool_decide_eq_false_2 _ Ht)]. }
  intros Hl. cbn [forallb] in Hl. rewrite !andb_true_iff, !eqb_true_iff, bool_decide_eq_true, forallb_forall in Hl.
  destruct Hl as [[Hnd Hall] (H1&H2&H3&H4&H5&H6&H7&H8&H9&_)].
  assert (∀ (P : Prop) `{!Decision P} b, bool_decide P = b → (P ↔ b = true)) as E.
  { intros P ? b <-. by rewrite bool_decide_eq_true. }
  apply E in H1, H2, H3, H4, H5, H6, H7, H8, H9.
  split_and!; [done| |..].
  - intros a Ha. apply list_elem_of_In, Hall in Ha. by apply bool_decide_eq_true in Ha.
  - by rewrite H1, negb_true_iff, bool_decide_eq_false.
  - by rewrite H2, bool_decide_eq_true.
  - by rewrite H3, bool_decide_eq_true.
  - by rewrite H4, bool_decide_eq_true.
  - rewrite H5, andb_true_iff, negb_true_iff, <-Hknown. unfold t. rewrite bool_decide_eq_true.
    assert (known = false ↔ ¬ known = true) as -> by (by destruct known). done.
  - rewrite H6, <-Hknown. unfold t. clear.
    repeat case_bool_decide; destruct known; simpl; naive_solver.
  - done.
  - done.
  - done.
Qed.

Lemma Advisories_spec_examples :
  EphemeralTag ∈ Advisories (set_Tag "9.9.9" ex_config) ex_source ∧
  TagNotHead ∉ Advisories ex_config ex_source.
Proof. split; apply (bool_decide_unpack _); vm_compute; exact I. Qed.

Section ContextLemmas.
Context `{Growth}.

(** Slices of the store that a computation leaves as they were. *)
Definition keeps (h h' : arrays) : Prop :=
  ∀ t, valid h t → contents h' t = contents h t ∧ valid h' t.

Lemma keeps_trans h1 h2 h3 : keeps h1 h2 → keeps h2 h3 → keeps h1 h3.
Proof.
  intros K1 K2 t Ht. destruct (K1 t Ht) as [C1 V1]. destruct (K2 t V1) as [C2 V2].
  split; [congruence|done].
Qed.

Lemma keeps_new h ys : keeps h (h ++ [ys]).
Proof.
  intros [t|] Ht; [|done]. destruct Ht as (c&Hc&Hl). simpl.
  rewrite !lookup_app_l, Hc by (by eapply lookup_lt_Some). split; [done|by exists c].
Qed.

(** Appending to a slice whose array nobody else sees from further on. *)
Lemma append_keeps s xs h h' s' (h0 : arrays) :
  valid h s → append s xs h = (h', s') → keeps h0 h →
  (∀ a, s = Some a → (length h0 ≤ sl_array a)%nat) → keeps h0 h'.
Proof.
  intros Hv Ha K Hnew t Ht. destruct (K t Ht) as [C V]. rewrite <-C.
  apply (append_frame s xs h h' s' t Hv V Ha). intros a b -> -> Heq.
  specialize (Hnew a eq_refl). destruct Ht as (c&Hc&_). apply lookup_lt_Some in Hc. lia.
Qed.

Lemma append_array s xs h h' a' :
  append s xs h = (h', Some a') → s = Some a' ∨ (∃ a, s = Some a ∧ sl_array a' = sl_array a) ∨
    sl_array a' = length h.
Proof.
  unfold append. case_decide; [intros [= <- ->]; by left|].
  destruct s as [sl|]; [case_match|]; intros [= <- <-]; right; [left|right|right]; eauto.
Qed.

Lemma append_each_spec l h h' s :
  append_each l h = (h', s) → contents h' s = l ∧ valid h' s ∧ keeps h h' ∧
    ∀ a, s = Some a → (length h ≤ sl_array a)%nat.
Proof.
  unfold append_each.
  assert (∀ pre h1 s1, contents h1 s1 = pre → valid h1 s1 → keeps h h1 → (length h ≤ length h1)%nat →
    (∀ a, s1 = Some a → (length h ≤ sl_array a)%nat) →
    foldl (λ '(h, s) x, append s [x] h) (h1, s1) l = (h', s) →
    contents h' s = pre ++ l ∧ valid h' s ∧ keeps h h' ∧
      ∀ a, s = Some a → (length h ≤ sl_array a)%nat) as G.
  { induction l as [|x l IH]; intros pre h1 s1 C V K L A; cbn [foldl].
    { intros [= <- <-]. by rewrite app_nil_r. }
    destruct (append s1 [x] h1) as [h2 s2] eqn:Ha. intros Hf.
    destruct (append_contents _ _ _ _ _ V Ha) as [C2 V2].
    rewrite cons_middle, app_assoc. eapply IH; [by rewrite C2, C|done| | | |done].
    - exact (append_keeps s1 [x] h1 h2 s2 h V Ha K A).
    - pose proof (append_grows _ _ _ _ _ Ha). lia.
    - intros a ->. destruct (append_array _ _ _ _ _ Ha) as [->|[(b&->&Hb)|Hb]].
      + by apply A.
      + rewrite Hb. by apply A.
      + lia. }
  intros Hf. apply (G [] _ _) in Hf; [done|..]; simpl.
  - by rewrite list_lookup_middle by done.
  - eexists. rewrite list_lookup_middle by done. split; [done|lia].
  - apply keeps_new.
  - rewrite length_app. simpl. lia.
  - intros a [= <-]. simpl. lia.
Qed.

(** How far the array of such a slice has grown. *)
Fixpoint grown (n : nat) : nat :=
  match n with
  | O => 0
  | S m => if (S m <=? grown m)%nat then grown m else grow (grown m) (S m)
  end%nat.

Lemma append_each_capacity l h h' s :
  append_each l h = (h', s) → capacity h' s = grown (length l) ∧ sl_length s = length l.
Proof.
  revert h' s. induction l as [|x l IH] using rev_ind; intros h' s.
  { intros [= <- <-]. split; [|done]. unfold capacity. simpl.
    rewrite list_lookup_middle by done. done. }
  unfold append_each in *. rewrite foldl_snoc.
  destruct (foldl _ _ l) as [h1 s1] eqn:Hf. intros Ha.
  destruct (IH _ _ eq_refl) as [Hcap Hlen].
  destruct (append_each_spec l h h1 s1 Hf) as (_&Hv&_).
  assert ([x] ≠ []) as Hne by done.
  rewrite (append_new_capacity _ _ _ _ _ Hv Hne Ha), Hcap, Hlen, length_app, Nat.add_1_r.
  split.
  - cbn [grown length]. case_decide as Hd; destruct (Nat.leb_spec (S (length l)) (grown (length l)));
      [done| | |f_equal; lia].
    + destruct s1; simpl in *; [lia|done].
    + exfalso. apply Hd. destruct s1 as [a|]; simpl in *; [lia|].
      unfold capacity in Hcap. simpl in Hcap. lia.
  - pose proof (contents_length h1 s1 Hv) as H1.
    destruct (append_contents _ _ _ _ _ Hv Ha) as [HC HV].
    rewrite <-(contents_length _ _ HV), HC, length_app, H1, Hlen. simpl. lia.
Qed.

(** A new context reads its advisories, and disturbs no slice there was. *)
Lemma NewContext_spec is_dir c h h' bc :
  NewContext is_dir c h = (h', bc) →
  contents h' (bc_Advisories bc) = Advisories c (context_source c) ∧
  valid h' (bc_Advisories bc) ∧ keeps h h' ∧
  bc_Source bc = context_source c ∧ Cwd (bc_Sh bc) = Cwd (fst (CD is_dir
    (RootDir (bc_Source (Context_ c))) (bc_Sh (Context_ c)))).
Proof.
  unfold NewContext. destruct (CD _ _ _) as [sh e].
  destruct (append_each _ h) as [h1 s] eqn:Ha. intros [= <- <-].
  destruct (append_each_spec _ _ _ _ Ha) as (?&?&?&_). done.
Qed.

(** A strict build passes when there is nothing to advise, and only then. *)
Lemma GuardStrict_spec c bc h :
  GuardStrict c bc h = None ↔ Strict c = false ∨ contents h (bc_Advisories bc) = [].
Proof.
  unfold GuardStrict. destruct (Strict c); simpl; [|naive_solver].
  case_decide; naive_solver.
Qed.

(** The registration check passes when no product has a blocking advisory. *)
Lemma GuardRegister_spec br h :
  GuardRegister br h = None ↔
    ∀ p a, p ∈ Products br → a ∈ contents h (bp_Advisories p) →
           a ∉ [DirtyWS; UnpushedRev; NoRepoAdv; NotRequestedRevision].
Proof.
  unfold GuardRegister. assert (blockers br h = [] ↔ ∀ p a, p ∈ Products br →
    a ∈ contents h (bp_Advisories p) → blocking a = false) as Hb.
  { unfold blockers. split.
    - intros Hn p a Hp Ha. destruct (blocking a) eqn:Hba; [exfalso|done].
      assert (SourceID_String (bp_Source p) +:+ ": " +:+ a ∈ @nil string) as Hin; [|set_solver].
      rewrite <-Hn. apply list_elem_of_bind. exists p. split; [|done].
      apply list_elem_of_fmap. exists a. split; [done|]. by apply list_elem_of_filter.
    - intros Hall. apply elem_of_nil_inv. intros x (p&Hx&Hp)%list_elem_of_bind.
      apply list_elem_of_fmap in Hx as (a&_&(Hba&Ha)%list_elem_of_filter).
      rewrite (Hall p a Hp Ha) in Hba. done. }
  case_decide as Hd.
  - split; [done|]. intros Hall. exfalso. apply Hd, Hb. intros p a Hp Ha.
    apply bool_decide_eq_false. eauto.
  - split; [|done]. intros _ p a Hp Ha.
    pose proof (proj1 Hb Hd p a Hp Ha) as Hn. by apply bool_decide_eq_false in Hn.
Qed.
End ContextLemmas.

(** ** Contextualised products *)

Section Contextualized.
Context `{Growth} (c : BuildContext) (advs : list string).

(** What contextualising makes of a product. *)
Definition in_context (old : list string) (p p' : BuildProduct) (h' : arrays) : Prop :=
  contents h' (bp_Advisories p') = old ++ advs ∧
  bp_Source p' = (if decide (Repo (Location (bp_Source p)) = "") then bc_Version c else bp_Source p) ∧
  bp_Kind p' = bp_Kind p ∧ bp_ID p' = bp_ID p ∧
  VersionName p' = VersionName p ∧ RevisionName p' = RevisionName p.

(** One product: only slices in the array it writes in place can change. *)
Lemma contextualize_product_spec p h h' p' :
  contents h (bc_Advisories c) = advs → valid h (bp_Advisories p) →
  contextualize_product c p h = (h', p') →
  in_context (contents h (bp_Advisories p)) p p' h' ∧ valid h' (bp_Advisories p') ∧
  (∀ t, valid h t →
    (advs ≠ [] → fits h (bp_Advisories p) (length advs) → apart t (bp_Advisories p)) →
    undisturbed h h' t ∧ (advs ≠ [] → apart t (bp_Advisories p'))).
Proof.
  intros Hadv Hv. unfold contextualize_product. rewrite Hadv.
  destruct (bp_Advisories p) as [s|] eqn:Hs.
  - destruct (append (Some s) advs h) as [h2 all] eqn:Ha. intros [= <- <-]. simpl.
    destruct (append_contents _ _ _ _ _ Hv Ha) as [HC HV]. split; [|split; [done|]].
    { unfold in_context. simpl. by rewrite HC. }
    intros t Ht Hap. exact (append_undisturbed _ _ _ _ _ t Hv Ht Ha Hap).
  - destruct (make0 (length advs) h) as [h1 own] eqn:Hm.
    destruct (append own advs h1) as [h2 all] eqn:Ha. intros [= <- <-]. simpl.
    destruct (make0_spec _ _ _ _ Hm) as (Hc&Hv1&Hu&Hown).
    destruct (append_contents _ _ _ _ _ Hv1 Ha) as [HC HV]. split; [|split; [done|]].
    { unfold in_context. simpl. by rewrite HC, Hc. }
    intros t Ht _. destruct (Hu t Ht) as (C1&V1&P1).
    destruct (append_undisturbed own advs h1 h2 all t Hv1 V1 Ha) as [(C2&V2&P2) Hap].
    { intros _ _. by apply Hown. }
    split; [split_and!; [congruence|done|congruence]|done].
Qed.

(** All of them: provided a product whose array has room for the context's
    advisories is alone in it. *)
Lemma contextualize_all_spec ps h h' ps' (L : list (option Slice)) :
  contents h (bc_Advisories c) = advs → bc_Advisories c ∈ L → Forall (valid h) L →
  Forall (λ p, valid h (bp_Advisories p)) ps →
  (∀ p t, p ∈ ps → t ∈ L → advs ≠ [] → fits h (bp_Advisories p) (length advs) →
     apart t (bp_Advisories p)) →
  (∀ i j p q, i ≠ j → ps !! i = Some p → ps !! j = Some q → advs ≠ [] →
     fits h (bp_Advisories p) (length advs) → apart (bp_Advisories q) (bp_Advisories p)) →
  contextualize_all c ps h = (h', ps') →
  Forall2 (λ p p', in_context (contents h (bp_Advisories p)) p p' h') ps ps' ∧
  Forall (undisturbed h h') L.
Proof.
  revert h h' ps' L. induction ps as [|p ps IH]; intros h h' ps' L Hadv Hc HL Hps HexL Hex; simpl.
  { intros [= <- <-]. split; [constructor|]. apply Forall_forall. intros t Ht.
    rewrite Forall_forall in HL. by split_and!; auto. }
  destruct (contextualize_product c p h) as [h1 p'] eqn:Hp.
  destruct (contextualize_all c ps h1) as [h2 ps2] eqn:Hr. intros [= <- <-].
  apply Forall_cons in Hps as [Hvp Hps]. rewrite Forall_forall in HL. rewrite Forall_forall in Hps.
  destruct (contextualize_product_spec p h h1 p' Hadv Hvp Hp) as (Hctx&Hvp'&Hund).
  assert (∀ t, t ∈ L → undisturbed h h1 t ∧ (advs ≠ [] → apart t (bp_Advisories p'))) as HuL.
  { intros t Ht. apply Hund; [by apply HL|]. intros. apply HexL; set_solver. }
  assert (∀ q, q ∈ ps → undisturbed h h1 (bp_Advisories q) ∧
      (advs ≠ [] → apart (bp_Advisories q) (bp_Advisories p'))) as Huq.
  { intros q Hq. apply Hund; [by apply Hps|]. intros.
    apply list_elem_of_lookup in Hq as [j Hj]. by apply (Hex 0%nat (S j) p q). }
  assert (∀ q, q ∈ ps → fits h1 (bp_Advisories q) (length advs) →
      fits h (bp_Advisories q) (length advs)) as Hfits.
  { intros q Hq. destruct (Huq q Hq) as [(_&_&Hcap) _]. unfold fits.
    destruct (bp_Advisories q); [by rewrite Hcap|done]. }
  destruct (IH h1 h2 ps2 (bp_Advisories p' :: L)) as [HF HLu].
  - destruct (HuL _ Hc) as [(->&_) _]. done.
  - set_solver.
  - constructor; [done|]. apply Forall_forall. intros t Ht. by destruct (HuL t Ht) as [(_&?&_) _].
  - apply Forall_forall. intros q Hq. by destruct (Huq q Hq) as [(_&?&_) _].
  - intros q t Hq [->|Ht]%elem_of_cons Hne Hf.
    + destruct (Huq q Hq) as [_ Ha]. intros x y Hx Hy He. by apply (Ha Hne y x Hy Hx).
    + apply HexL; [set_solver|done..|by apply Hfits].
  - intros i j q r Hij Hi Hj Hne Hf. apply (Hex (S i) (S j) q r); [lia|done..|].
    apply Hfits; [|done]. by eapply list_elem_of_lookup_2.
  - done.
  - apply Forall_cons in HLu as [(Hcp&_&_) HLu]. split.
    + constructor.
      * destruct Hctx as [Hcon Hrest]. split; [by rewrite Hcp|done].
      * apply Forall2_same_length_lookup in HF as [Hlen HF].
        apply Forall2_same_length_lookup. split; [done|]. intros i q q' Hq Hq'.
        specialize (HF i q q' Hq Hq').
        destruct (Huq q) as [(Hcq&_&_) _]; [by eapply list_elem_of_lookup_2|].
        by rewrite <-Hcq.
    + apply Forall_forall. intros t Ht. rewrite Forall_forall in HLu.
      destruct (HuL t Ht) as [(C1&V1&P1) _]. destruct (HLu t Ht) as (C2&V2&P2).
      split_and!; [congruence|done|congruence].
Qed.
End Contextualized.

(** ** What a build does, in order *)

Section BuildLemmas.
Context `{Growth} {W : Type} `{BuildSystem W} (is_dir : string → option bool).

(** Nothing is run, built or registered for a configuration whose tag is no
    version, nor for a strict one with any advisory: the world is as it was, and
    the error says so. *)
Theorem Build_refuses (c : BuildConfig) (o : Outside W) :
  Validate c ≠ None ∨ (Strict c = true ∧ Advisories c (context_source c) ≠ []) →
  ∃ o' e, Build is_dir c o = Some (o', (None, Some e)) ∧ o_world o' = o_world o.
Proof.
  unfold Build, build_steps. intros Hbad. cbn [first_err b_out].
  destruct (Validate c) as [e|] eqn:Hv; [by eexists _, _|].
  destruct Hbad as [|[Hs Ha]]; [done|].
  destruct (NewContext is_dir c (o_heap o)) as [h bc] eqn:Hn.
  destruct (NewContext_spec _ _ _ _ _ Hn) as (Hc&_). cbn [b_bc b_br b_bp mbind option_bind b_out o_heap].
  destruct (GuardStrict c bc h) as [e|] eqn:Hg; [by eexists _, _|].
  apply GuardStrict_spec in Hg as [?|?]; congruence.
Qed.

(** A build that succeeds went through every step, and what it returns is what
    the registrar was given. *)
Lemma Build_success (c : BuildConfig) (o o' : Outside W) (br : option BuildResult) :
  Build is_dir c o = Some (o', (br, None)) →
  ∃ h1 bc o2 bp o3 br0 h4 br1 o5 br2,
    Validate c = None ∧
    NewContext is_dir c (o_heap o) = (h1, bc) ∧
    GuardStrict c bc h1 = None ∧
    SelectBuildpack bc (mkOutside h1 (o_world o)) = Some (o2, Ok bp) ∧
    Buildpack_Build bp bc o2 = Some (o3, (Some br0, None)) ∧
    Contextualize bc br0 (o_heap o3) = (h4, br1) ∧
    ApplyMetadata br1 (mkOutside h4 (o_world o3)) = (o5, (br2, None)) ∧
    Register br2 o5 = (o', None) ∧ br = Some br2.
Proof.
  unfold Build, build_steps. cbn [first_err b_out].
  destruct (Validate c) eqn:Hv; [done|].
  destruct (NewContext is_dir c (o_heap o)) as [h1 bc] eqn:Hn.
  cbn [b_bc b_br b_bp mbind option_bind b_out o_heap o_world].
  destruct (GuardStrict c bc h1) eqn:Hg; [done|].
  destruct (SelectBuildpack bc _) as [[o2 [bp|]]|] eqn:Hs; [|done..].
  cbn [b_bc b_br b_bp mbind option_bind b_out o_heap o_world].
  destruct (Buildpack_Build bp bc o2) as [[o3 [br0 [e|]]]|] eqn:Hb; [done| |done].
  cbn [b_bc b_br b_bp mbind option_bind b_out o_heap o_world].
  destruct br0 as [br0|]; [|done].
  cbn [b_bc b_br b_bp mbind option_bind b_out o_heap o_world].
  destruct (Contextualize bc br0 (o_heap o3)) as [h4 br1] eqn:Hc.
  cbn [b_bc b_br b_bp mbind option_bind b_out o_heap o_world].
  destruct (ApplyMetadata br1 (mkOutside h4 (o_world o3))) as [o5 [br2 [e|]]] eqn:Ha; [done|].
  cbn [b_bc b_br b_bp mbind option_bind b_out o_heap o_world].
  unfold RegisterAndWarnAdvisories. destruct (Register br2 o5) as [o6 [e|]] eqn:Hr; [done|].
  cbn. intros [= <- <-]. exists h1, bc, o2, bp, o3, br0, h4, br1, o5, br2. done.
Qed.

(** A product with a blocking advisory is registered like any other: the check
    only warns. *)
Lemma blocked_registered (br : BuildResult) (o : Outside W) :
  let '(o', _, e) := RegisterAndWarnAdvisories br o in Register br o = (o', e).
Proof. unfold RegisterAndWarnAdvisories. by destruct (Register br o). Qed.
End BuildLemmas.

(** ** Offsets stay in the project *)

(** The directory an argument of [sous build] names. *)
Definition named_dir (sc : SourceContext) (offset : string) : string :=
  if IsAbs offset then offset else Join [AbsDir sc; offset].

Lemma has_prefix_app_l (c : string) r p :
  has_prefix c p = true → has_prefix (c +:+ r) p = true.
Proof.
  revert c. induction p as [|a p IH]; intros [|b c]; simpl; try done.
  rewrite !andb_true_iff. intros [? ?]. split; [done|]. by apply IH.
Qed.

Lemma Rel_dots bs ts :
  bs ≠ [] → has_prefix (join "/" (((λ _ : string, "..") <$> bs) ++ ts)) ".." = true.
Proof.
  intros Hb. destruct bs as [|b bs]; [done|].
  destruct (join_head ".." (((λ _, "..") <$> bs) ++ ts)) as (r&Hr).
  rewrite fmap_cons, <-app_comm_cons, Hr. by apply has_prefix_app_l.
Qed.

(** In a project with an absolute root, an argument sets the offset exactly
    when the directory it names is the root or below it, under a name that does
    not begin with two dots; the offset is then the clean path from the root to
    it, so that joining them names the directory. *)
Theorem OffsetFromWorkdir_spec (cfg : BuildConfig) (offset : string) :
  let sc := bc_Source (Context_ cfg) in
  let root := abs_comps (RootDir sc) in
  let target := abs_comps (named_dir sc offset) in
  IsAbs (RootDir sc) = true → bcfg_Offset cfg = "" →
  match OffsetFromWorkdir offset cfg with
  | Ok cfg' =>
      ∃ rest, target = root ++ rest ∧ cfg' = set_Offset (join "/" rest) cfg ∧
        Join [RootDir sc; bcfg_Offset cfg'] = Clean (named_dir sc offset)
  | Err e =>
      (∃ o, e = OutsideRoot o) ∧
      ∀ rest, target = root ++ rest → has_prefix (join "/" rest) ".." = true
  end.
Proof.
  intros sc root target Hroot Hoff. unfold OffsetFromWorkdir. rewrite decide_False by congruence.
  fold sc. fold (AbsDir sc). fold (named_dir sc offset).
  assert (IsAbs (named_dir sc offset) = true) as Habs.
  { unfold named_dir. destruct (IsAbs offset) eqn:Ho; [done|]. by apply IsAbs_Join2, IsAbs_Join2. }
  rewrite Rel_abs by done. fold root target.
  pose proof (abs_comps_plain (named_dir sc offset)) as Hplain. fold target in Hplain.
  destruct (drop_common root target) as [bs ts] eqn:Hd.
  destruct (drop_common_app _ _ _ _ Hd) as (common&Hr&Ht).
  destruct (decide (bs = [])) as [->|Hbs].
  - rewrite app_nil_r in Hr. subst common. cbn [fmap list_fmap app].
    assert (Forall plain ts) as Hts by (rewrite Ht in Hplain; by apply Forall_app in Hplain as []).
    match goal with |- context [has_prefix ?x ".."] => set (o := x) end.
    assert (has_prefix o ".." = has_prefix (join "/" ts) "..") as Hdots.
    { unfold o. case_decide as Hc; [|done]. by destruct Hc as [_ ->]. }
    rewrite Hdots. destruct (has_prefix (join "/" ts) "..") eqn:Hp.
    + split; [by eexists|]. intros rest Hrest. rewrite Ht in Hrest. by apply app_inv_head in Hrest as <-.
    + exists ts. split; [done|].
      assert ((if decide (o = ".") then "" else o) = join "/" ts) as ->.
      { destruct (decide (ts = [])) as [->|Hne0]; [done|]. unfold o.
        rewrite (decide_False (P := [] = [] ∧ ts = [])) by tauto. rewrite decide_False; [done|].
        intros Hdot. destruct ts as [|t ts]; [done|]. inv Hts. destruct H1 as (Hne&Hn1&_&Hsl).
        destruct ts as [|t' ts]; [done|]. destruct (join_head t (t' :: ts)) as (r&Hj).
        simpl in Hdot. destruct t as [|c t]; [done|]. injection Hdot as -> Hdot. by destruct t. }
      split; [done|]. unfold set_Offset. cbn [bcfg_Offset].
      rewrite Join2_plain, Clean_abs by done. by fold root target; rewrite Ht.
  - rewrite decide_False by tauto. rewrite Rel_dots by done. split; [by eexists|].
    intros rest Hrest. exfalso. apply Hbs. rewrite Hrest in Hd.
    rewrite drop_common_prefix in Hd. congruence.
Qed.

Lemma OffsetFromWorkdir_spec_witness :
  ∃ cfg', OffsetFromWorkdir "../other" ex_config = Ok cfg' ∧ bcfg_Offset cfg' = "other" ∧
    Join ["/home/me/wackadoo"; bcfg_Offset cfg'] = "/home/me/wackadoo/other".
Proof.
  pose proof (OffsetFromWorkdir_spec ex_config "../other" eq_refl eq_refl) as Hs. cbv zeta in Hs.
  destruct (OffsetFromWorkdir "../other" ex_config) as [cfg'|e] eqn:He; [|vm_compute in He; discriminate].
  exists cfg'. split; [reflexivity|]. destruct Hs as (rest&_&_&Hj).
  split; [|exact Hj]. vm_compute in He. injection He as <-. reflexivity.
Defined.

(** The least of systems: it finds nothing to build with. *)
Definition no_system : BuildSystem nat := {|
  Buildpack := unit;
  SelectBuildpack bc o :=
    Some (mkOutside (o_heap o) (S (o_world o)), Err (errorf "no Dockerfile present" []));
  Buildpack_Build _ _ o := Some (o, (None, None));
  ApplyMetadata br o := (o, (br, None));
  Register br o := (o, None)
|}.

Lemma Build_refuses_witness :
  let c := set_Tag "9.9.9" ex_config in
  ∃ o' e, @Build go_growth nat no_system (λ _, Some true) c (mkOutside [] 0%nat) =
    Some (o', (None, Some e)) ∧ o_world o' = 0%nat.
Proof.
  intros c. apply (@Build_refuses go_growth nat no_system (λ _, Some true) c (mkOutside [] 0%nat)).
  right. split; [reflexivity|]. vm_compute. discriminate.
Defined.
