(* ===== verification/DockerDetect.v ===== *)
(** * What a Dockerfile asks for (ext/docker/splitcontainer_runspec.go,
    splitcontainer_detector.go, dockerfile_buildpack.go, selector.go)

    The specification a build container emits for the images to assemble from
    it, the search of a Dockerfile and of its base image for the path of that
    specification and for build arguments, and the choice of a buildpack.  The
    parser of Dockerfiles, the registry and the shell are the class [Docker]. *)

From S2P Require Import Prelude.
From S2P Require Import GoStrings.
From S2P Require Import GoPath.
From S2P Require Import Flaw.
From S2P Require Import Semv.
From S2P Require Import Ids.
From S2P Require Import ResolveFilter.
From S2P Require Import Builds.
#[local] Open Scope string_scope.
#[local] Open Scope Z_scope.
#[local] Open Scope list_scope.

(** ** Strings *)

Definition ascii_lower (c : ascii) : ascii :=
  if (65 <=? nat_of_ascii c)%nat && (nat_of_ascii c <=? 90)%nat
  then ascii_of_nat (nat_of_ascii c + 32) else c.
Fixpoint lower_bytes (s : string) : string :=
  match s with "" => "" | String.String c s' => String.String (ascii_lower c) (lower_bytes s') end.

(** [strings.ToLower(s) == t] for an ASCII word [t] without an i: of the other
    runes only the Kelvin sign has a lower case in ASCII. *)
Definition kelvin : string :=
  String.String (ascii_of_nat 226) (String.String (ascii_of_nat 132) (String.String (ascii_of_nat 170) "")).
Definition lowers_to (s t : string) : bool :=
  bool_decide (lower_bytes (replace_all s kelvin "k") = t).

(** [strings.Split] for a separator of several bytes. *)
Fixpoint split_from (skip : nat) (sep s : string) : list string :=
  match s with
  | "" => [""]
  | String.String c s' =>
      match skip with
      | S k => split_from k sep s'
      | O => if has_prefix s sep then "" :: split_from (String.length sep - 1) sep s'
             else match split_from 0 sep s' with
                  | w :: ws => String.String c w :: ws
                  | [] => [String.String c ""]
                  end
      end
  end.
Definition split_str (sep s : string) : list string := split_from 0 sep s.

(** [strings.Replace(s, old, "", 1)]. *)
Fixpoint remove_first (old s : string) : string :=
  if has_prefix s old then str_drop (String.length old) s
  else match s with
       | "" => ""
       | String.String c s' => String.String c (remove_first old s')
       end.

Definition quote : ascii := ascii_of_nat 34.
Definition quote_str : string := String.String quote "".

Definition is_word (c : ascii) : bool := is_letter c || is_digit c || bool_decide (c = "_"%char).

(** ** Run specs *)

Record sbmImage := mkImage { img_Type : string; img_From : string }.
Record sbmInstall := mkInstall { inst_Source : string; inst_Destination : string }.

Record SplitImageRunSpec := mkRunSpec {
  rs_Kind : string;
  rs_Offset : string;
  rs_Image : sbmImage;
  rs_Files : list sbmInstall;
  rs_Exec : list string
}.

Record MultiImageRunSpec := mkMultiRunSpec {
  ms_Single : option SplitImageRunSpec;
  ms_Images : list SplitImageRunSpec
}.

(** None of the flaws can be repaired, and contexts are discarded. *)
Definition RunSpec_Validate (rs : SplitImageRunSpec) : list (Flaw unit) :=
  let flaw (b : bool) f := if b then [f] else [] in
  flaw (negb (lowers_to (img_Type (rs_Image rs)) "docker"))
    (FatalFlaw "Only 'docker' is recognized currently as an image type, was %q" [AStr (img_Type (rs_Image rs))])
  ++ flaw (bool_decide (img_From (rs_Image rs) = ""))
    (FatalFlaw "Required image.from was empty or missing." [])
  ++ flaw (bool_decide (rs_Files rs = []))
    (FatalFlaw "Deploy image doesn't make sense with empty list of files." [])
  ++ flaw (bool_decide (rs_Exec rs = [])) (FatalFlaw "Need an exec list." []).

Definition MultiRunSpec_Validate (ms : MultiImageRunSpec) : list (Flaw unit) :=
  match ms_Single ms with
  | Some rs =>
      (if bool_decide (ms_Images ms = []) then []
       else [FatalFlaw "Uses both legacy fields and list of images!" []])
      ++ RunSpec_Validate rs
  | None =>
      if decide (ms_Images ms = [])
      then [FatalFlaw "No image was created, no images present in runspec.json" []]
      else ms_Images ms ≫= RunSpec_Validate
  end.

Definition Normalized (ms : MultiImageRunSpec) : MultiImageRunSpec :=
  match ms_Single ms with
  | None => ms
  | Some rs => mkMultiRunSpec None [rs]
  end.

(** ** Dockerfiles *)

(** [parser.Node], with the fields that are read. *)
Inductive Node := mkNode {
  node_Value : string;
  node_Next : option Node;
  node_Children : list Node
}.

Record detectData := mkDetectData {
  HasAppVersionArg : bool;
  HasAppRevisionArg : bool;
  RunImageSpecPath : string
}.

Record DetectResult := mkDetectResult {
  Compatible : bool;
  Data : option detectData
}.

(** What is read of the metadata of an image. *)
Record Metadata := mkMetadata {
  md_Registry : string;
  md_Labels : gomap string;
  md_Env : gomap string;
  md_Etag : string;
  md_CanonicalName : string;
  md_AllNames : list string;
  md_OnBuild : list string
}.

Inductive registry_error : Type :=
| NotModified
| RegistryError (t : text).

(** The outside of a build: the shell, the parser and the registry. *)
Class Docker (W : Type) := {
  sh_Exists : Sh → string → W → bool;
  (** A command in a directory, with its standard input. *)
  sh_Stdout : Sh → list string → string → W → W * result text string;
  parseDockerfile : string → W → result text Node;
  parseDocker : string → result text Node;
  GetImageMetadata : string → string → W → W * result registry_error Metadata
}.

Definition AppVersionBuildArg : string := "APP_VERSION".
Definition AppRevisionBuildArg : string := "APP_REVISION".
Definition SOUS_RUN_IMAGE_SPEC : string := "SOUS_RUN_IMAGE_SPEC".

(** ** The detector of split containers *)

Record splitDetector := mkDetector {
  versionArg : bool; revisionArg : bool;
  runspecPath : string;
  rootAst : Node;
  froms : list (option Node);
  envs : list (option Node)
}.

Definition set_runspecPath (p : string) (sd : splitDetector) : splitDetector :=
  mkDetector (versionArg sd) (revisionArg sd) p (rootAst sd) (froms sd) (envs sd).

(** One instruction; [None] is the panic of an [ARG] without a name. *)
Definition absorb_node (sd : splitDetector) (node : Node) : option splitDetector :=
  let '(mkDetector va ra path root fs es) := sd in
  if decide (node_Value node = "env") then Some (mkDetector va ra path root fs (es ++ [node_Next node]))
  else if decide (node_Value node = "from") then Some (mkDetector va ra path root (fs ++ [node_Next node]) es)
  else if decide (node_Value node = "arg") then
    next ← node_Next node;
    let name := fst (cut "="%char (node_Value next)) in
    Some (if decide (name = AppVersionBuildArg) then mkDetector true ra path root fs es
          else if decide (name = AppRevisionBuildArg) then mkDetector va true path root fs es
          else sd)
  else Some sd.

Definition absorbDocker (ast : Node) (sd : splitDetector) : option splitDetector :=
  foldl (λ acc node, sd ← acc; absorb_node sd node) (Some sd) (node_Children ast).

Definition absorbDockerfile (sd : splitDetector) : option splitDetector :=
  absorbDocker (rootAst sd) sd.

Section Detecting.
Context {W : Type} `{Docker W}.

(** The first base image the registry knows decides. *)
Fixpoint fetch_from (fs : list (option Node)) (sd : splitDetector) (w : W) :
    option (splitDetector * W * option text) :=
  match fs with
  | [] => Some (sd, w, None)
  | f :: fs' =>
      f ← f;
      match GetImageMetadata (node_Value f) "" w with
      | (w', Err _) => fetch_from fs' sd w'
      | (w', Ok md) =>
          let sd := match entries (md_Env md) !! SOUS_RUN_IMAGE_SPEC with
                    | Some path => set_runspecPath path sd
                    | None => sd
                    end in
          match parseDocker (join (String.String "010"%char "") (md_OnBuild md)) with
          | Err e => Some (sd, w', Some e)
          | Ok ast => sd ← absorbDocker ast sd; Some (sd, w', None)
          end
      end
  end.

Definition fetchFromRunSpec (sd : splitDetector) (w : W) : option (splitDetector * W * option text) :=
  fetch_from (froms sd) sd w.

(** Only the first pair of an [ENV] instruction is looked at. *)
Definition process_env (sd : splitDetector) (e : option Node) : option splitDetector :=
  e ← e;
  if decide (node_Value e = SOUS_RUN_IMAGE_SPEC)
  then v ← node_Next e; Some (set_runspecPath (node_Value v) sd)
  else Some sd.

Definition processEnv (sd : splitDetector) : option splitDetector :=
  foldl (λ acc e, sd ← acc; process_env sd e) (Some sd) (envs sd).

Definition detector_result (sd : splitDetector) : DetectResult :=
  if decide (runspecPath sd ≠ "")
  then mkDetectResult true (Some (mkDetectData (versionArg sd) (revisionArg sd) (runspecPath sd)))
  else mkDetectResult false None.

Definition inspectImage (sh : Sh) (imageName : string) (w : W) : W * string :=
  let '(w', r) := sh_Stdout sh ["docker"; "image"; "inspect";
    "--format={{printf " +:+ quote_str +:+ "%q %q" +:+ quote_str +:+ " .Config.OnBuild .Config.Env}}";
    imageName] "" w in
  (w', match r with Ok s => s | Err _ => "" end).

(** One quoted element of the output: a pair of [key=value] or [key value]. *)
Definition image_element (env : string) : option (string * string) :=
  let env := remove_first "ENV" env in
  let env := trim [quote; " "%char] env in
  match split_on "="%char env with
  | [key; val] => Some (key, val)
  | _ => match split_on " "%char env with
         | [key; val] => Some (key, val)
         | _ => None
         end
  end.

Definition parseImageOutput (input : string) : gmap string string :=
  let input := replace_all input "[" "" in
  let input := replace_all input "]" "" in
  foldl (λ m env, match image_element env with Some (k, v) => <[k := v]> m | None => m end) ∅
    (split_str (quote_str +:+ " " +:+ quote_str) input).

(** Each image replaces what the images before it said. *)
Definition checkLocalImage (sh : Sh) (sd : splitDetector) (w : W) : option (splitDetector * W) :=
  if decide (runspecPath sd = "")
  then foldl (λ acc f,
         '(sd, w) ← acc; f ← f;
         let '(w', out) := inspectImage sh (node_Value f) w in
         Some (set_runspecPath (default "" (parseImageOutput out !! SOUS_RUN_IMAGE_SPEC)) sd, w'))
       (Some (sd, w)) (froms sd)
  else Some (sd, w).

(** [Detect] of the split buildpack: the result it stores, and its error. *)
Definition Split_Detect (ctx : BuildContext) (w : W) :
    option (W * (option DetectResult * option text)) :=
  let dfPath := Join [OffsetDir (bc_Source ctx); "Dockerfile"] in
  if negb (sh_Exists (bc_Sh ctx) dfPath w)
  then Some (w, (None, Some (errorf "%s does not exist" [AStr dfPath])))
  else
    match parseDockerfile (Abs (bc_Sh ctx) dfPath) w with
    | Err e => Some (w, (None, Some e))
    | Ok ast =>
        let local (s : splitDetector * W) :=
          '(sd, w) ← checkLocalImage (bc_Sh ctx) (fst s) (snd s); Some (sd, w, None) in
        r ← first_err
              ([λ s : splitDetector * W, sd ← absorbDockerfile (fst s); Some (sd, snd s, None);
                λ s : splitDetector * W, fetchFromRunSpec (fst s) (snd s)]
               ++ (if DevBuild (bc_Source ctx) then [local] else [])
               ++ [λ s : splitDetector * W, sd ← processEnv (fst s); Some (sd, snd s, None)])
              (mkDetector false false "" ast [] [], w);
        let '(sd, w', e) := r in
        Some (w', (Some (detector_result sd), e))
    end.

(** ** The detector of Dockerfiles *)

(** [(?m)^ARG name\b] has a match. *)
Definition arg_line (name line : string) : bool :=
  let p := "ARG " +:+ name in
  has_prefix line p
  && match str_drop (String.length p) line with
     | String.String c _ => negb (is_word c)
     | "" => true
     end.
Definition has_arg (name df : string) : bool := existsb (arg_line name) (split_on newline df).

Definition Dockerfile_Detect (c : BuildContext) (w : W) : W * result text DetectResult :=
  let dfPath := Join [OffsetDir (bc_Source c); "Dockerfile"] in
  if negb (sh_Exists (bc_Sh c) dfPath w) then (w, Err (errorf "%s does not exist" [AStr dfPath]))
  else
    let '(w', r) := sh_Stdout (bc_Sh c) ["cat"; dfPath] "" w in
    (w', df ← r;
         Ok (mkDetectResult true (Some (mkDetectData (has_arg AppVersionBuildArg df)
               (has_arg AppRevisionBuildArg df) "")))).

(** ** The choice of a buildpack *)

Inductive docker_buildpack : Type :=
| SplitPack (detected : DetectResult)
| DockerfilePack (detected : DetectResult).

Definition select_dockerfile (ctx : BuildContext) (w : W) : W * result text docker_buildpack :=
  let '(w', r) := Dockerfile_Detect ctx w in
  (w', match r with
       | Ok dr => if Compatible dr then Ok (DockerfilePack dr)
                  else Err (errorf "no Dockerfile present" [])
       | Err _ => Err (errorf "no Dockerfile present" [])
       end).

Definition select_buildpack (ctx : BuildContext) (w : W) :
    option (W * result text docker_buildpack) :=
  '(w1, (dr, e)) ← Split_Detect ctx w;
  let split := match e with None => dr | Some _ => None end in
  Some (match split with
        | Some dr =>
            if Compatible dr then (w1, Ok (SplitPack dr)) else select_dockerfile ctx w1
        | None => select_dockerfile ctx w1
        end).
End Detecting.

(** ** Examples *)

Definition node (value : string) (args : list string) : Node :=
  mkNode value (foldr (λ a n, Some (mkNode a n [])) None args) [].
Definition dockerfile (l : list Node) : Node := mkNode "" None l.

Example has_arg_ex :
  has_arg AppVersionBuildArg ("FROM x" +:+ String.String newline "ARG APP_VERSION=0") = true ∧
  has_arg AppVersionBuildArg "ARG APP_VERSIONS" = false.
Proof. split; reflexivity. Qed.

Example parseImageOutput_ex :
  parseImageOutput ("[" +:+ quote_str +:+ "ENV SOUS_RUN_IMAGE_SPEC /spec.json" +:+ quote_str +:+ " "
    +:+ quote_str +:+ "ARG X" +:+ quote_str +:+ "] [" +:+ quote_str +:+ "PATH=/bin" +:+ quote_str +:+ "]")
    !! SOUS_RUN_IMAGE_SPEC = Some "/spec.json".
Proof. vm_compute. reflexivity. Qed.

(** An [ENV] that sets the path after another variable is not seen. *)
Example env_second_pair :
  runspecPath <$> (absorbDockerfile (mkDetector false false ""
    (dockerfile [node "env" ["A"; "1"; SOUS_RUN_IMAGE_SPEC; "/spec.json"]]) [] []) ≫= processEnv) = Some ""
  ∧ runspecPath <$> (absorbDockerfile (mkDetector false false ""
    (dockerfile [node "env" [SOUS_RUN_IMAGE_SPEC; "/spec.json"; "A"; "1"]]) [] []) ≫= processEnv)
    = Some "/spec.json".
Proof. split; vm_compute; reflexivity. Qed.

(** ** Run specs *)

Definition valid_spec (rs : SplitImageRunSpec) : Prop :=
  lowers_to (img_Type (rs_Image rs)) "docker" = true ∧ img_From (rs_Image rs) ≠ "" ∧
  rs_Files rs ≠ [] ∧ rs_Exec rs ≠ [].

Lemma RunSpec_Validate_spec rs : RunSpec_Validate rs = [] ↔ valid_spec rs.
Proof.
  unfold RunSpec_Validate, valid_spec. destruct (lowers_to _ _); simpl.
  - repeat case_bool_decide; simpl; naive_solver.
  - split; [done|by intros []].
Qed.

Lemma RunSpec_Validate_fatal rs : Forall fatal (RunSpec_Validate rs).
Proof.
  unfold RunSpec_Validate. repeat apply Forall_app_2; case_match; repeat constructor; auto with sous.
Qed.

(** A run spec is accepted exactly when it describes at least one image in
    one of its two forms, and every image is complete; its normal form lists
    exactly those images.  A flaw of a run spec cannot be repaired. *)
Theorem MultiRunSpec_Validate_spec (ms : MultiImageRunSpec) :
  let images := ms_Images (Normalized ms) in
  ms_Single (Normalized ms) = None ∧
  images = match ms_Single ms with Some rs => [rs] | None => ms_Images ms end ∧
  Normalized (Normalized ms) = Normalized ms ∧
  Forall fatal (MultiRunSpec_Validate ms) ∧
  (MultiRunSpec_Validate ms = [] ↔
     images ≠ [] ∧ Forall valid_spec images ∧ (ms_Single ms = None ∨ ms_Images ms = [])).
Proof.
  destruct ms as [single images]. unfold MultiRunSpec_Validate, Normalized; simpl.
  destruct single as [rs|]; simpl; (split_and!; [done..| |]).
  - apply Forall_app_2; [|apply RunSpec_Validate_fatal].
    case_bool_decide; repeat constructor; auto with sous.
  - rewrite Forall_singleton, <-RunSpec_Validate_spec.
    case_bool_decide; simpl; naive_solver.
  - case_decide; [repeat constructor; auto with sous|]. apply Forall_forall.
    intros f (rs&Hf&_)%list_elem_of_bind. revert f Hf. apply Forall_forall, RunSpec_Validate_fatal.
  - case_decide as Hne; [naive_solver|]. split.
    + intros Hnil. split_and!; [done| |by left]. apply Forall_forall. intros rs Hrs.
      apply RunSpec_Validate_spec, elem_of_nil_inv. intros f Hf.
      assert (f ∈ images ≫= RunSpec_Validate) as Hin by (apply list_elem_of_bind; eauto).
      rewrite Hnil in Hin. set_solver.
    + intros (_&Hall&_). apply elem_of_nil_inv. intros f (rs&Hf&Hrs)%list_elem_of_bind.
      rewrite Forall_forall in Hall. apply Hall, RunSpec_Validate_spec in Hrs.
      rewrite Hrs in Hf. set_solver.
Qed.

(** ** Detection *)

(** What a Dockerfile's instructions are to the detector. *)
Definition is_instr (i : string) (n : Node) : bool := bool_decide (node_Value n = i).
Definition names_arg (name : string) (n : Node) : bool :=
  is_instr "arg" n &&
  bool_decide ((λ next, fst (cut "="%char (node_Value next))) <$> node_Next n = Some name).
Definition arg_named (n : Node) : bool := negb (is_instr "arg" n) || bool_decide (is_Some (node_Next n)).
Definition instr (i : string) (l : list Node) : list (option Node) :=
  node_Next <$> filter (λ n, is_instr i n = true) l.

Lemma absorb_node_spec sd n :
  absorb_node sd n =
    if arg_named n then
      Some (mkDetector (versionArg sd || names_arg AppVersionBuildArg n)
              (revisionArg sd || names_arg AppRevisionBuildArg n)
              (runspecPath sd) (rootAst sd) (froms sd ++ instr "from" [n]) (envs sd ++ instr "env" [n]))
    else None.
Proof.
  destruct sd as [va ra path root fs es], n as [v next ch].
  unfold absorb_node, arg_named, names_arg, instr, is_instr. simpl.
  destruct (decide (v = "env")) as [->|He].
  { rewrite filter_cons_False, filter_cons_True by done. simpl. by rewrite !orb_false_r, app_nil_r. }
  destruct (decide (v = "from")) as [->|Hf].
  { rewrite filter_cons_True, filter_cons_False by done. simpl. by rewrite !orb_false_r, app_nil_r. }
  rewrite !filter_cons_False by (by rewrite bool_decide_eq_true). rewrite !filter_nil, !app_nil_r.
  destruct (decide (v = "arg")) as [->|Ha].
  2: { rewrite !(bool_decide_eq_false_2 (v = "arg")) by done. simpl. by rewrite !orb_false_r. }
  rewrite !(bool_decide_eq_true_2 ("arg" = "arg")) by done. simpl.
  destruct next as [next|]; [|done]. simpl.
  assert (∀ (x y : string), bool_decide (Some x = Some y) = bool_decide (x = y)) as Hsome
    by (intros; apply bool_decide_ext; naive_solver).
  rewrite !Hsome. generalize (fst (cut "="%char (node_Value next))) as name. intros name.
  destruct (decide (name = AppVersionBuildArg)) as [->|Hv].
  { by rewrite bool_decide_eq_true_2, bool_decide_eq_false_2, orb_true_r, orb_false_r by done. }
  rewrite (bool_decide_eq_false_2 _ Hv). destruct (decide (name = AppRevisionBuildArg)) as [->|Hr].
  { by rewrite bool_decide_eq_true_2, orb_true_r, orb_false_r by done. }
  by rewrite bool_decide_eq_false_2, !orb_false_r by done.
Qed.

Lemma absorbDocker_spec ast sd :
  absorbDocker ast sd =
    let l := node_Children ast in
    if forallb arg_named l then
      Some (mkDetector (versionArg sd || existsb (names_arg AppVersionBuildArg) l)
              (revisionArg sd || existsb (names_arg AppRevisionBuildArg) l)
              (runspecPath sd) (rootAst sd) (froms sd ++ instr "from" l) (envs sd ++ instr "env" l))
    else None.
Proof.
  unfold absorbDocker. cbv zeta. generalize (node_Children ast) as l. intros l. revert sd.
  induction l as [|n l IH]; intros sd; simpl.
  { destruct sd. simpl. unfold instr. simpl. by rewrite !orb_false_r, !app_nil_r. }
  rewrite absorb_node_spec. destruct (arg_named n); simpl.
  - rewrite IH. simpl. destruct (forallb arg_named l); [|done].
    do 2 f_equal; rewrite <-?orb_assoc, <-?app_assoc; try done;
      unfold instr; rewrite filter_cons, ?(filter_cons _ _ l); simpl;
      rewrite filter_nil; by case_decide.
  - clear IH. induction l; [done|]. by simpl.
Qed.

Lemma foldl_none {A B} (f : B → A → option B) l :
  foldl (λ acc x, acc ← acc; f acc x) None l = None.
Proof. by induction l. Qed.

(** The paths that [ENV] instructions give, in order; those that would panic. *)
Definition spec_path (e : option Node) : option string :=
  e ← e;
  if decide (node_Value e = SOUS_RUN_IMAGE_SPEC) then node_Value <$> node_Next e else None.
Definition env_valued (e : option Node) : bool :=
  match e with
  | None => false
  | Some e => negb (bool_decide (node_Value e = SOUS_RUN_IMAGE_SPEC)) || bool_decide (is_Some (node_Next e))
  end.

Lemma last_cons_default {A} (x y : A) l : default x (last (y :: l)) = default y (last l).
Proof. by destruct l as [|z l] using rev_ind; [|rewrite app_comm_cons, !last_snoc]. Qed.

(** The last of them wins over what was known before. *)
Lemma process_envs_spec l sd :
  foldl (λ acc e, sd ← acc; process_env sd e) (Some sd) l =
    if forallb env_valued l
    then Some (set_runspecPath (default (runspecPath sd) (last (omap spec_path l))) sd)
    else None.
Proof.
  revert sd. induction l as [|e l IH]; intros sd; simpl; [by destruct sd|].
  destruct e as [[v next ch]|]; simpl; [|apply foldl_none].
  unfold process_env, spec_path. simpl. destruct (decide (v = SOUS_RUN_IMAGE_SPEC)) as [->|Hv]; simpl.
  - destruct next as [n|]; simpl; [|apply foldl_none]. rewrite IH.
    destruct (forallb env_valued l); [|done]. f_equal.
    rewrite last_cons_default. by destruct sd.
  - rewrite bool_decide_eq_false_2 by done. apply IH.
Qed.

Section SplitDetect.
Context {W : Type} `{Docker W}.

(** Whether a project is built in two containers, with which run spec and
    which build arguments: the last [ENV] that sets the path, among those of the
    Dockerfile and then those its base image runs on build, wins over the
    environment of the base image; an argument counts wherever it is declared.
    Nothing else decides, outside of developer builds. *)
Theorem Split_Detect_spec (ctx : BuildContext) (w w' : W) (ast onbuild base : Node) (md : Metadata)
    (more : list (option Node)) :
  let l := node_Children ast ++ node_Children onbuild in
  let path := default (default "" (entries (md_Env md) !! SOUS_RUN_IMAGE_SPEC))
                (last (omap spec_path (instr "env" l))) in
  DevBuild (bc_Source ctx) = false →
  sh_Exists (bc_Sh ctx) (Join [OffsetDir (bc_Source ctx); "Dockerfile"]) w = true →
  parseDockerfile (Abs (bc_Sh ctx) (Join [OffsetDir (bc_Source ctx); "Dockerfile"])) w = Ok ast →
  instr "from" (node_Children ast) = Some base :: more →
  GetImageMetadata (node_Value base) "" w = (w', Ok md) →
  parseDocker (join (String.String newline "") (md_OnBuild md)) = Ok onbuild →
  forallb arg_named l = true → forallb env_valued (instr "env" l) = true →
  ∃ dr, Split_Detect ctx w = Some (w', (Some dr, None)) ∧
    Compatible dr = bool_decide (path ≠ "") ∧
    Data dr = (if decide (path ≠ "")
               then Some (mkDetectData (existsb (names_arg AppVersionBuildArg) l)
                            (existsb (names_arg AppRevisionBuildArg) l) path)
               else None).
Proof.
  intros l path Hdev Hex Hast Hbase Hmd Hob Hargs Henvs.
  unfold Split_Detect. rewrite Hex, Hast, Hdev. simpl.
  unfold l in Hargs. rewrite forallb_app, andb_true_iff in Hargs. destruct Hargs as [Ha1 Ha2].
  unfold absorbDockerfile. rewrite absorbDocker_spec. simpl. rewrite Ha1. simpl.
  unfold fetchFromRunSpec. simpl. rewrite Hbase. simpl. rewrite Hmd.
  change (String.String "010"%char "") with (String.String newline ""). rewrite Hob.
  set (sd := mkDetector _ _ _ _ _ _).
  set (sd2 := match entries (md_Env md) !! SOUS_RUN_IMAGE_SPEC with Some p => _ | None => _ end).
  assert (sd2 = set_runspecPath (default "" (entries (md_Env md) !! SOUS_RUN_IMAGE_SPEC)) sd) as ->
    by (unfold sd2; by case_match).
  rewrite absorbDocker_spec. simpl. rewrite Ha2. simpl.
  unfold processEnv. simpl. rewrite process_envs_spec. simpl.
  assert (∀ x y, instr "env" (x ++ y) = instr "env" x ++ instr "env" y) as Hinstr.
  { intros x y. unfold instr. by rewrite filter_app, fmap_app. }
  rewrite <-Hinstr. fold l. rewrite Henvs. simpl. eexists. split; [done|].
  unfold detector_result. simpl. fold path. rewrite <-!existsb_app. fold l.
  destruct (decide (path ≠ "")) as [Hp|Hp]; simpl.
  - by rewrite bool_decide_eq_true_2.
  - by rewrite bool_decide_eq_false_2.
Qed.
End SplitDetect.

(** A world of one project: its Dockerfile names a base image whose build
    triggers take the version. *)
Definition ex_docker : Docker unit := {|
  sh_Exists _ path _ := bool_decide (path = "nested/Dockerfile");
  sh_Stdout _ _ _ w := (w, Ok "");
  parseDockerfile _ _ := Ok (dockerfile [node "from" ["builder:1"]; node "arg" ["APP_REVISION=none"];
                                         node "env" [SOUS_RUN_IMAGE_SPEC; "/mine.json"]]);
  parseDocker s := if decide (s = "ARG APP_VERSION") then Ok (dockerfile [node "arg" ["APP_VERSION"]])
                   else Err (Lit "");
  GetImageMetadata name _ w :=
    if decide (name = "builder:1")
    then (w, Ok (mkMetadata "" None (Some {[SOUS_RUN_IMAGE_SPEC := "/theirs.json"]}) "" "" []
                   ["ARG APP_VERSION"]))
    else (w, Err NotModified)
|}.

Lemma Split_Detect_spec_witness :
  ∃ dr, @Split_Detect unit ex_docker ex_context tt = Some (tt, (Some dr, None)) ∧
    Compatible dr = true ∧ Data dr = Some (mkDetectData true true "/mine.json").
Proof.
  pose proof (@Split_Detect_spec unit ex_docker ex_context tt tt
    (dockerfile [node "from" ["builder:1"]; node "arg" ["APP_REVISION=none"];
                 node "env" [SOUS_RUN_IMAGE_SPEC; "/mine.json"]])
    (dockerfile [node "arg" ["APP_VERSION"]]) (mkNode "builder:1" None [])
    (mkMetadata "" None (Some {[SOUS_RUN_IMAGE_SPEC := "/theirs.json"]}) "" "" [] ["ARG APP_VERSION"])
    [] eq_refl eq_refl eq_refl eq_refl eq_refl eq_refl eq_refl eq_refl) as (dr&H1&H2&H3).
  exists dr. split; [exact H1|]. split; [exact H2|exact H3].
Defined.
