(* ===== verification/DockerBuild.v ===== *)
(** * Docker builds (ext/docker/dockerfile_buildpack.go, splitcontainer_buildpack.go,
    splitcontainer_splitbuilder.go, splitcontainer_runnablebuilder.go, builder.go)

    The two buildpacks and the builder that labels, pushes and records what they
    produce: the implementation of [BuildSystem] over the shell, the file system
    and the image mapper. *)

From S2P Require Import Prelude.
From S2P Require Import GoStrings.
From S2P Require Import GoPath.
From S2P Require Import GoSlice.
From S2P Require Import Flaw.
From S2P Require Import Semv.
From S2P Require Import Ids.
From S2P Require Import Differ.
From S2P Require Import ResolveFilter.
From S2P Require Import Builds.
From S2P Require Import DockerNames.
From S2P Require Import DockerDetect.
#[local] Open Scope string_scope.
#[local] Open Scope Z_scope.
#[local] Open Scope list_scope.

(** The rest of the outside: files, the clock and the image mapper.  Reading a
    run spec is opening the file and decoding its JSON. *)
Class DockerHost (W : Type) := {
  host_docker :: Docker W;
  TempDir : W → W * result text string;
  MkdirAll : string → W → W * option text;
  ReadRunSpec : string → W → result text MultiImageRunSpec;
  WriteFile : string → string → W → W * option text;
  Now : W → Stamp;
  Insert : SourceID → string → string → list Quality → W → W * option text
}.

(** ** Texts *)

(** [Successfully built (\w+)]: the first match. *)
Definition built : string := "Successfully built ".
Fixpoint take_word (s : string) : string :=
  match s with
  | String.String c s' => if is_word c then String.String c (take_word s') else ""
  | "" => ""
  end.
Fixpoint find_built (s : string) : option string :=
  match s with
  | "" => None
  | String.String _ s' =>
      let word := take_word (str_drop (String.length built) s) in
      if has_prefix s built && nonempty word then Some word else find_built s'
  end.

(** [html/template] escapes what it puts into text. *)
Definition html_char (c : ascii) : string :=
  if decide (c = "000"%char) then String.String (ascii_of_nat 239)
       (String.String (ascii_of_nat 191) (String.String (ascii_of_nat 189) ""))
  else if decide (c = quote) then "&#34;"
  else if decide (c = "&"%char) then "&amp;"
  else if decide (c = "'"%char) then "&#39;"
  else if decide (c = "+"%char) then "&#43;"
  else if decide (c = "<"%char) then "&lt;"
  else if decide (c = ">"%char) then "&gt;"
  else String.String c "".
Fixpoint html_escape (s : string) : string :=
  match s with "" => "" | String.String c s' => html_char c +:+ html_escape s' end.

Definition nl : string := String.String newline "".
Definition tab : string := String.String "009"%char "".

Fixpoint concat_strings (l : list string) : string :=
  match l with [] => "" | s :: l' => s +:+ concat_strings l' end.

(** The Dockerfile of a deploy container, as its template renders it. *)
Definition dockerfile_text (spec : SplitImageRunSpec) (versionConfig revisionConfig : string) : string :=
  nl +:+ tab +:+ "FROM " +:+ html_escape (img_From (rs_Image spec)) +:+ nl +:+ tab
  +:+ concat_strings ((λ f, let d := html_escape (inst_Destination f) in
        nl +:+ tab +:+ "COPY " +:+ d +:+ " " +:+ d +:+ nl +:+ tab) <$> rs_Files spec)
  +:+ nl +:+ tab +:+ "ENV " +:+ html_escape versionConfig +:+ " " +:+ html_escape revisionConfig
  +:+ nl +:+ tab +:+ "CMD ["
  +:+ join "," ((λ part, quote_str +:+ html_escape part +:+ quote_str) <$> rs_Exec spec)
  +:+ "]" +:+ nl +:+ tab.

(** The Dockerfile that adds labels to an image, which [text/template] does not
    escape; it ranges over the labels in the order of their names. *)
Definition advisories_label : string := "com.opentable.sous.advisories".
Definition label_names : list string :=
  [DockerPathLabel; DockerRepoLabel; DockerRevisionLabel; DockerVersionLabel].
Definition label_line (k v : string) : string :=
  " \" +:+ nl +:+ "  " +:+ k +:+ "=" +:+ quote_str +:+ v +:+ quote_str.
Definition metadataDockerfile (id : string) (sid : SourceID) (advisories : list string) : string :=
  "FROM " +:+ id +:+ nl +:+ "LABEL"
  +:+ concat_strings ((λ k, label_line k (default "" (Labels sid !! k))) <$> label_names)
  +:+ (if decide (advisories = []) then "" else label_line advisories_label (join "," advisories)).

Section Building.
Context `{Growth} {W : Type} `{DockerHost W}.

Definition world_step {A} (f : W → W * A) (o : Outside W) : Outside W * A :=
  let '(w, a) := f (o_world o) in (mkOutside (o_heap o) w, a).

Definition docker (sh : Sh) (args : list string) (o : Outside W) : Outside W * result text string :=
  world_step (sh_Stdout sh ("docker" :: args) "") o.

(** ** Arguments of a build *)

(** The version of the app is printed without its revision. *)
Definition app_version (c : BuildContext) : string :=
  let v := sid_Version (bc_Version c) in
  Semv.String (mkVersion (Major v) (Minor v) (Patch v) (Pre v) "" (DefaultFormat v)).
Definition app_revision (c : BuildContext) : string := RevID (bc_Version c).

Definition versionConfig (c : BuildContext) : string := AppVersionBuildArg +:+ "=" +:+ app_version c.
Definition revisionConfig (c : BuildContext) : string := AppRevisionBuildArg +:+ "=" +:+ app_revision c.

Definition build_command (c : BuildContext) (r : detectData) : list string :=
  let offset := OffsetDir (bc_Source c) in
  ["build"; "--pull"]
  ++ (if HasAppVersionArg r then ["--build-arg"; versionConfig c] else [])
  ++ (if HasAppRevisionArg r then ["--build-arg"; revisionConfig c] else [])
  ++ [if decide (offset = "") then "." else offset].

Definition built_image (output : result text string) : result text string :=
  out ← output;
  match find_built out with
  | Some id => Ok id
  | None => Err (errorf "Couldn't find container id in:\n%s" [AStr out])
  end.

(** ** The Dockerfile buildpack *)

Definition Dockerfile_Build (d : DetectResult) (c : BuildContext) (o : Outside W) :
    option (Outside W * (option BuildResult * option text)) :=
  r ← Data d;
  let '(o', out) := docker (bc_Sh c) (build_command c r) o in
  Some (o', match built_image out with
            | Ok id =>
                (Some (mkBuildResult
                   [mkBuildProduct (mkSourceID zeroLocation zeroVersion) "" id None "" ""]), None)
            | Err e => (None, Some e)
            end).

(** ** The split buildpack *)

Record runnableBuilder := mkRunnable { rb_RunSpec : SplitImageRunSpec; deployImageID : string }.

Record splitBuilder := mkSplit {
  sb_context : BuildContext;
  sb_detected : DetectResult;
  buildImageID : string;
  buildContainerID : string;
  tempDir : string;
  buildDir : string;
  sb_RunSpec : option MultiImageRunSpec;
  subBuilders : list runnableBuilder
}.

Definition split_state : Type := splitBuilder * Outside W.
Definition split_step : Type := split_state → option (split_state * option text).

Definition sb_docker (s : split_state) (args : list string) : Outside W * result text string :=
  docker (bc_Sh (sb_context (fst s))) args (snd s).

Definition set_buildImageID x '(mkSplit c d _ ci t b r s) := mkSplit c d x ci t b r s.
Definition set_buildContainerID x '(mkSplit c d bi _ t b r s) := mkSplit c d bi x t b r s.
Definition set_dirs x y '(mkSplit c d bi ci _ _ r s) := mkSplit c d bi ci x y r s.
Definition set_sb_RunSpec x '(mkSplit c d bi ci t b _ s) := mkSplit c d bi ci t b (Some x) s.
Definition set_subBuilders x '(mkSplit c d bi ci t b r _) := mkSplit c d bi ci t b r x.

Definition buildBuild : split_step := λ s,
  r ← Data (sb_detected (fst s));
  let '(o, out) := sb_docker s (build_command (sb_context (fst s)) r) in
  Some (match built_image out with
        | Ok id => (set_buildImageID id (fst s), o, None)
        | Err e => (fst s, o, Some e)
        end).

Definition setupTempdir : split_step := λ s,
  let '(o, dir) := world_step TempDir (snd s) in
  Some (match dir with
        | Err e => (fst s, o, Some e)
        | Ok dir =>
            let b := Join [dir; "build"] in
            let '(o', e) := world_step (MkdirAll b) o in (set_dirs dir b (fst s), o', e)
        end).

Definition createBuildContainer : split_step := λ s,
  let '(o, out) := sb_docker s ["create"; buildImageID (fst s)] in
  Some (match out with
        | Ok out => (set_buildContainerID (TrimSpace out) (fst s), o, None)
        | Err e => (fst s, o, Some e)
        end).

Definition extractRunSpec : split_step := λ s,
  r ← Data (sb_detected (fst s));
  let destPath := Join [tempDir (fst s); "runspec.json"] in
  let '(o, out) := sb_docker s ["cp"; buildContainerID (fst s) +:+ ":" +:+ RunImageSpecPath r; destPath] in
  Some (match out with
        | Err e => (fst s, o, Some e)
        | Ok _ => match ReadRunSpec destPath (o_world o) with
                  | Ok spec => (set_sb_RunSpec spec (fst s), o, None)
                  | Err e => (fst s, o, Some e)
                  end
        end).

Definition validateRunSpec : split_step := λ s,
  spec ← sb_RunSpec (fst s);
  let flaws := MultiRunSpec_Validate spec in
  Some (s, if decide (flaws = []) then None
           else Some (foldl (λ msg f, Cat msg (from_option id (Lit "") (snd (Repair f tt))))
                        (Lit "Deploy spec invalid:") flaws)).

Definition constructImageBuilders : split_step := λ s,
  spec ← sb_RunSpec (fst s);
  Some (set_subBuilders ((λ i, mkRunnable i "") <$> ms_Images (Normalized spec)) (fst s), snd s, None).

(** [eachBuilder]: the builders in turn, up to the first error. *)
Fixpoint each_builder (f : runnableBuilder → Outside W → Outside W * runnableBuilder * option text)
    (l : list runnableBuilder) (o : Outside W) : Outside W * list runnableBuilder * option text :=
  match l with
  | [] => (o, [], None)
  | rb :: l' =>
      let '(o1, rb', e) := f rb o in
      match e with
      | Some e => (o1, rb' :: l', Some e)
      | None => let '(o2, l'', e) := each_builder f l' o1 in (o2, rb' :: l'', e)
      end
  end.

Definition eachBuilder (f : splitBuilder → runnableBuilder → Outside W →
    Outside W * runnableBuilder * option text) : split_step := λ s,
  let '(o, l, e) := each_builder (f (fst s)) (subBuilders (fst s)) (snd s) in
  Some (set_subBuilders l (fst s), o, e).

Definition rb_buildDir (sb : splitBuilder) (rb : runnableBuilder) : string :=
  Join [buildDir sb; rs_Offset (rb_RunSpec rb)].

Fixpoint extract_files (sb : splitBuilder) (rb : runnableBuilder) (files : list sbmInstall)
    (o : Outside W) : Outside W * option text :=
  match files with
  | [] => (o, None)
  | inst :: files' =>
      let fromPath := buildContainerID sb +:+ ":" +:+ inst_Source inst in
      let toPath := Join [rb_buildDir sb rb; inst_Destination inst] in
      let '(o1, e) := world_step (MkdirAll (dirname toPath)) o in
      match e with
      | Some e => (o1, Some e)
      | None =>
          let '(o2, out) := docker (bc_Sh (sb_context sb)) ["cp"; fromPath; toPath] o1 in
          match out with
          | Err e => (o2, Some e)
          | Ok _ => extract_files sb rb files' o2
          end
      end
  end.

Definition rb_extractFiles (sb : splitBuilder) (rb : runnableBuilder) (o : Outside W) :
    Outside W * runnableBuilder * option text :=
  let '(o', e) := extract_files sb rb (rs_Files (rb_RunSpec rb)) o in (o', rb, e).

Definition teardownBuildContainer : split_step := λ s,
  let '(o, out) := sb_docker s ["rm"; buildContainerID (fst s)] in
  Some (fst s, o, match out with Ok _ => None | Err e => Some e end).

Definition rb_templateDockerfile (sb : splitBuilder) (rb : runnableBuilder) (o : Outside W) :
    Outside W * runnableBuilder * option text :=
  let '(o', e) := world_step (WriteFile (Join [rb_buildDir sb rb; "Dockerfile"])
    (dockerfile_text (rb_RunSpec rb) (versionConfig (sb_context sb)) (revisionConfig (sb_context sb)))) o in
  (o', rb, e).

Definition rb_build (sb : splitBuilder) (rb : runnableBuilder) (o : Outside W) :
    Outside W * runnableBuilder * option text :=
  let '(sh, _) := CD (λ _, None) (rb_buildDir sb rb) (bc_Sh (sb_context sb)) in
  let '(o', out) := docker sh ["build"; "."] o in
  match built_image out with
  | Ok id => (o', mkRunnable (rb_RunSpec rb) id, None)
  | Err e => (o', rb, Some e)
  end.

(** A product shares the context's advisories, or appends to them. *)
Definition rb_product (sb : splitBuilder) (rb : runnableBuilder) (h : arrays) : arrays * BuildProduct :=
  let c := sb_context sb in
  let spec := rb_RunSpec rb in
  let '(h', advisories) :=
    if decide (rs_Kind spec ≠ "") then append (bc_Advisories c) [NotService] h
    else (h, bc_Advisories c) in
  let sid := bc_Version c in
  (h', mkBuildProduct
         (mkSourceID (mkSourceLocation (Repo (Location sid)) (rs_Offset spec)) (sid_Version sid))
         (rs_Kind spec) (deployImageID rb) advisories (app_version c) (app_revision c)).

Fixpoint sb_products (sb : splitBuilder) (l : list runnableBuilder) (h : arrays) :
    arrays * list BuildProduct :=
  match l with
  | [] => (h, [])
  | rb :: l' =>
      let '(h1, p) := rb_product sb rb h in
      let '(h2, ps) := sb_products sb l' h1 in (h2, p :: ps)
  end.

Definition sb_result (sb : splitBuilder) (h : arrays) : arrays * BuildResult :=
  let '(h1, ps) := sb_products sb (subBuilders sb) h in
  let '(h2, advisories) := append (bc_Advisories (sb_context sb)) [IsBuilder; NotService] h1 in
  (h2, mkBuildResult (ps ++ [mkBuildProduct (mkSourceID zeroLocation zeroVersion) "builder"
                               (buildImageID sb) advisories "" ""])).

Definition split_steps : list split_step :=
  [buildBuild; setupTempdir; createBuildContainer; extractRunSpec; validateRunSpec;
   constructImageBuilders; eachBuilder rb_extractFiles; teardownBuildContainer;
   eachBuilder rb_templateDockerfile; eachBuilder rb_build].

(** There is a result even when there is an error. *)
Definition Split_Build (d : DetectResult) (c : BuildContext) (o : Outside W) :
    option (Outside W * (option BuildResult * option text)) :=
  '(s, e) ← first_err split_steps (mkSplit c d "" "" "" "" None [], o);
  let '(h, br) := sb_result (fst s) (o_heap (snd s)) in
  Some (mkOutside h (o_world (snd s)), (Some br, e)).

(** ** Labels, pushes and records (builder.go) *)

Record Builder := mkBuilder { DockerRegistryHost : string; SourceShell : Sh }.

Definition applyMetadata (b : Builder) (bp : BuildProduct) (o : Outside W) :
    Outside W * BuildProduct * option text :=
  let ver := versionTag (DockerRegistryHost b) (bp_Source bp) (bp_Kind bp) in
  let rev := revisionTag (DockerRegistryHost b) (bp_Source bp) (bp_Kind bp) (Now (o_world o)) in
  let bp' := mkBuildProduct (bp_Source bp) (bp_Kind bp) (bp_ID bp) (bp_Advisories bp) ver rev in
  let stdin := metadataDockerfile (bp_ID bp) (bp_Source bp) (contents (o_heap o) (bp_Advisories bp)) in
  let '(o', out) := world_step
    (sh_Stdout (SourceShell b) ["docker"; "build"; "-t"; ver; "-t"; rev; "-"] stdin) o in
  (o', bp', match out with Ok _ => None | Err e => Some e end).

Fixpoint apply_all (b : Builder) (ps : list BuildProduct) (o : Outside W) :
    Outside W * list BuildProduct * option text :=
  match ps with
  | [] => (o, [], None)
  | p :: ps' =>
      let '(o1, p', e) := applyMetadata b p o in
      match e with
      | Some e => (o1, p' :: ps', Some e)
      | None => let '(o2, ps'', e) := apply_all b ps' o1 in (o2, p' :: ps'', e)
      end
  end.

Definition Builder_ApplyMetadata (b : Builder) (br : BuildResult) (o : Outside W) :
    Outside W * (BuildResult * option text) :=
  let '(o', ps, e) := apply_all b (Products br) o in (o', (mkBuildResult ps, e)).

(** Both tags are pushed; the error of the first is the one returned. *)
Definition pushToRegistry (b : Builder) (bp : BuildProduct) (o : Outside W) :
    Outside W * option text :=
  let '(o1, verr) := docker (SourceShell b) ["push"; VersionName bp] o in
  let '(o2, rerr) := docker (SourceShell b) ["push"; RevisionName bp] o1 in
  (o2, match verr, rerr with
       | Err e, _ => Some e
       | Ok _, Err e => Some e
       | Ok _, Ok _ => None
       end).

Definition advisory (a : string) : Quality := mkQuality a "advisory".

Definition recordName (b : Builder) (bp : BuildProduct) (o : Outside W) : Outside W * option text :=
  world_step (Insert (bp_Source bp) (VersionName bp) ""
                (advisory <$> contents (o_heap o) (bp_Advisories bp))) o.

Fixpoint register_all (b : Builder) (ps : list BuildProduct) (o : Outside W) :
    Outside W * option text :=
  match ps with
  | [] => (o, None)
  | p :: ps' =>
      let '(o1, e) := pushToRegistry b p o in
      match e with
      | Some e => (o1, Some e)
      | None =>
          let '(o2, e) := recordName b p o1 in
          match e with
          | Some e => (o2, Some e)
          | None => register_all b ps' o2
          end
      end
  end.

Definition Builder_Register (b : Builder) (br : BuildResult) (o : Outside W) :
    Outside W * option text := register_all b (Products br) o.

Definition docker_select (ctx : BuildContext) (o : Outside W) :
    option (Outside W * result text docker_buildpack) :=
  '(w, r) ← select_buildpack ctx (o_world o); Some (mkOutside (o_heap o) w, r).

Definition docker_build (bp : docker_buildpack) (c : BuildContext) (o : Outside W) :
    option (Outside W * (option BuildResult * option text)) :=
  match bp with
  | SplitPack d => Split_Build d c o
  | DockerfilePack d => Dockerfile_Build d c o
  end.

(** The build system that the build manager is given. *)
Definition docker_system (b : Builder) : BuildSystem W := {|
  Buildpack := docker_buildpack;
  SelectBuildpack := docker_select;
  Buildpack_Build := docker_build;
  ApplyMetadata := Builder_ApplyMetadata b;
  Register := Builder_Register b
|}.
End Building.

(** ** Shared advisories *)

(** An array of [cap] cells that begins with [l]. *)
Definition holds (h : arrays) (i cap : nat) (l : list string) : Prop :=
  ∃ cells, h !! i = Some cells ∧ length cells = cap ∧ take (length l) cells = l.

Lemma append_holds h i cap l xs :
  holds h i cap l → xs ≠ [] → (length l + length xs ≤ cap)%nat →
  ∃ h', append (Some (mkSlice i (length l))) xs h = (h', Some (mkSlice i (length l + length xs))) ∧
    holds h' i cap (l ++ xs).
Proof.
  intros (cells&Hi&Hc&Ht) Hne Hle. unfold append. rewrite decide_False by done.
  simpl. rewrite Hi. simpl. rewrite (proj2 (Nat.leb_le _ _)) by lia. eexists. split; [done|].
  eexists. split; [by rewrite list_lookup_insert_eq by (by eapply lookup_lt_Some)|].
  rewrite Ht, app_assoc. split.
  - rewrite !length_app, length_drop. lia.
  - rewrite length_app. apply take_app_length'. by rewrite length_app.
Qed.

Lemma holds_prefix h i cap l xs : holds h i cap (l ++ xs) → holds h i cap l.
Proof.
  intros (cells&Hi&Hc&Ht). exists cells. split_and!; [done..|].
  pose proof (take_app_length l xs) as Hl. rewrite <-Ht, take_take, length_app in Hl.
  by rewrite Nat.min_l in Hl by lia.
Qed.

Lemma holds_contents h i cap l : holds h i cap l → contents h (Some (mkSlice i (length l))) = l.
Proof. intros (cells&Hi&_&Ht). simpl. by rewrite Hi. Qed.

(** The slice of a product: the context's, or the context's and one more cell of
    the same array. *)
Definition shared_slice (i n : nat) (rb : runnableBuilder) : option Slice :=
  Some (mkSlice i (if decide (rs_Kind (rb_RunSpec rb) = "") then n else n + 1)).

Lemma sb_products_shared sb i cap l rbs h h' ps :
  bc_Advisories (sb_context sb) = Some (mkSlice i (length l)) → holds h i cap l →
  (length l < cap)%nat → sb_products sb rbs h = (h', ps) →
  holds h' i cap l ∧
  Forall2 (λ rb p, bp_Advisories p = shared_slice i (length l) rb ∧
                   bp_Kind p = rs_Kind (rb_RunSpec rb)) rbs ps.
Proof.
  intros Hadv Hh Hcap. revert h h' ps Hh. induction rbs as [|rb rbs IH]; intros h h' ps Hh; simpl.
  { intros [= <- <-]. by split. }
  unfold rb_product, shared_slice. rewrite Hadv.
  destruct (decide (rs_Kind (rb_RunSpec rb) = "")) as [Hk|Hk].
  - rewrite (decide_False (P := _ ≠ _)) by tauto.
    destruct (sb_products sb rbs h) as [h2 ps2] eqn:Hr. intros [= <- <-].
    destruct (IH _ _ _ Hh Hr) as [? ?]. split; [done|]. constructor; [|done].
    simpl. by rewrite decide_True.
  - rewrite (decide_True (P := _ ≠ _)) by done.
    destruct (append_holds h i cap l [NotService] Hh) as (h1&->&Hh1); [done|simpl; lia|].
    apply holds_prefix in Hh1. destruct (sb_products sb rbs h1) as [h2 ps2] eqn:Hr. intros [= <- <-].
    destruct (IH _ _ _ Hh1 Hr) as [? ?]. split; [done|]. constructor; [|done].
    simpl. by rewrite decide_False.
Qed.

(** Slices of advisories overwrite one another: when the context has five or
    six advisories, the array they are in has room for two more, the result of a
    split build writes the two advisories of the build image there, and every
    product that is not a service, whose own advisory was in the first of those
    cells, ends up called a build image and no longer a support container. *)
Theorem split_products_mislabelled (l : list string) (h0 h h' : arrays) (advs : option Slice)
    (sb : splitBuilder) (br : BuildResult) :
  length l = 5%nat ∨ length l = 6%nat →
  append_each l h0 = (h, advs) → bc_Advisories (sb_context sb) = advs →
  sb_result sb h = (h', br) →
  ∃ ps b, Products br = ps ++ [b] ∧
    contents h' (bp_Advisories b) = l ++ [IsBuilder; NotService] ∧
    Forall2 (λ rb p, contents h' (bp_Advisories p) =
      if decide (rs_Kind (rb_RunSpec rb) = "") then l else l ++ [IsBuilder]) (subBuilders sb) ps.
Proof.
  intros Hl Ha Hadv. destruct (append_each_spec l h0 h advs Ha) as (HC&HV&_).
  destruct (append_each_capacity l h0 h advs Ha) as [Hcap Hlen].
  assert (grown (length l) = 8%nat) as Hg by by destruct Hl as [-> | ->].
  rewrite Hg in Hcap. clear Ha Hg. destruct advs as [[i n]|]; [|simpl in Hlen; lia].
  simpl in Hlen. subst n. destruct HV as (cells&Hi&_). simpl in Hi, Hcap, HC.
  unfold capacity in Hcap. simpl in Hcap. rewrite Hi in Hcap, HC. simpl in Hcap, HC.
  assert (holds h i 8 l) as Hh by by exists cells.
  unfold sb_result. destruct (sb_products sb (subBuilders sb) h) as [h1 ps] eqn:Hp.
  assert (length l < 8)%nat as Hlt by lia.
  destruct (sb_products_shared sb i 8 l _ _ _ _ Hadv Hh Hlt Hp) as [Hh1 HF]. rewrite Hadv.
  destruct (append_holds h1 i 8 l [IsBuilder; NotService] Hh1) as (h2&->&Hh2); [done|simpl; lia|].
  intros [= <- <-]. eexists _, _. split; [reflexivity|]. cbn [bp_Advisories]. split.
  - rewrite <-(holds_contents h2 i 8 (l ++ [IsBuilder; NotService]) Hh2).
    by rewrite length_app.
  - apply (Forall2_impl _ _ _ _ HF). intros rb p [Hp1 _]. rewrite Hp1. unfold shared_slice.
    assert (holds h2 i 8 (l ++ [IsBuilder])) as Hh3.
    { apply (holds_prefix _ _ _ _ [NotService]). by rewrite <-app_assoc. }
    case_decide.
    + by apply (holds_contents h2 i 8 l), (holds_prefix _ _ _ _ [IsBuilder]).
    + rewrite <-(holds_contents h2 i 8 (l ++ [IsBuilder]) Hh3). by rewrite length_app.
Qed.

Definition ex_spec (kind : string) : SplitImageRunSpec :=
  mkRunSpec kind "nested" (mkImage "docker" "scratch") [mkInstall "/out" "/srv"]
    ["sh"; "-c"; "run && wait"].

(** Five advisories: a service and a test image. *)
Definition five_advisories : list string :=
  [UnknownRepo; Unversioned; EphemeralTag; DirtyWS; UnpushedRev].
Definition ex_split (advs : option Slice) : splitBuilder :=
  mkSplit (mkBuildContext (mkSh "/") ex_source (mkScratch "" "" "") (mkMachine "" "")
             (mkUser "" "" "" "" "") (mkChanges [] [] [] [] []) advs)
    (mkDetectResult true None) "b" "c" "/t" "/t/build" None
    [mkRunnable (ex_spec "") "i1"; mkRunnable (ex_spec "test") "i2"].

Lemma split_products_mislabelled_witness :
  let '(h, advs) := append_each five_advisories [] in
  let '(h', br) := sb_result (ex_split advs) h in
  ∃ ps b, Products br = ps ++ [b] ∧
    contents h' (bp_Advisories b) = five_advisories ++ [IsBuilder; NotService] ∧
    Forall2 (λ rb p, contents h' (bp_Advisories p) =
      if decide (rs_Kind (rb_RunSpec rb) = "") then five_advisories else five_advisories ++ [IsBuilder])
      (subBuilders (ex_split advs)) ps.
Proof.
  destruct (append_each five_advisories []) as [h advs] eqn:Ha.
  destruct (sb_result (ex_split advs) h) as [h' br] eqn:Hr.
  apply (split_products_mislabelled five_advisories [] h h' advs (ex_split advs) br).
  - left. reflexivity.
  - exact Ha.
  - reflexivity.
  - exact Hr.
Defined.

(** With four advisories there is no room, and each product keeps its own. *)
Example four_advisories_kept :
  let '(h, advs) := append_each (take 4 five_advisories) [] in
  let '(h', br) := sb_result (ex_split advs) h in
  (contents h' ∘ bp_Advisories) <$> Products br =
    [take 4 five_advisories; take 4 five_advisories ++ [NotService];
     take 4 five_advisories ++ [IsBuilder; NotService]].
Proof. vm_compute. reflexivity. Qed.

(** The command of an image is mangled by the template of its Dockerfile. *)
Example exec_escaped : html_escape "run && wait" = "run &amp;&amp; wait".
Proof. reflexivity. Qed.

(** ** Nothing is pushed before everything is built and labelled *)

Section Quiet.
Context `{Growth} {W : Type} `{DockerHost W} (P : W → Prop).

(** A property of the world that only pushing and recording can change. *)
Record quiet : Prop := {
  q_cmd sh args stdin w : take 2 args ≠ ["docker"; "push"] → P w → P (fst (sh_Stdout sh args stdin w));
  q_metadata name etag w : P w → P (fst (GetImageMetadata name etag w));
  q_temp w : P w → P (fst (TempDir w));
  q_mkdir d w : P w → P (fst (MkdirAll d w));
  q_write f t w : P w → P (fst (WriteFile f t w))
}.

Context (Hq : quiet).

(** The state of a step is what [get] reads the world from. *)
Definition keeps_world {S E} (get : S → W) (f : S → option (S * option E)) : Prop :=
  ∀ s s' e, f s = Some (s', e) → P (get s) → P (get s').

Lemma first_err_keeps {S E} (get : S → W) (fs : list (S → option (S * option E))) :
  Forall (keeps_world get) fs → keeps_world get (first_err fs).
Proof.
  induction 1 as [|f fs Hf Hfs IH]; intros s s' e; simpl; [by intros [= <- <-]|].
  destruct (f s) as [[s1 [e1|]]|] eqn:Hs; [| |done].
  - intros [= <- <-]. by eapply Hf.
  - intros Hr Hp. eapply IH; [exact Hr|]. by eapply Hf.
Qed.

Lemma docker_keeps sh args o o' r :
  docker sh args o = (o', r) → take 1 args ≠ ["push"] → P (o_world o) → P (o_world o').
Proof using Hq.
  unfold docker, world_step. intros Hd Hne Hp.
  destruct (sh_Stdout sh ("docker" :: args) "" (o_world o)) as [w a] eqn:Hs. injection Hd as <- <-.
  simpl. change w with (fst (w, a)). rewrite <-Hs. apply Hq; [|done].
  simpl. destruct args as [|x args]; [done|]. simpl in *. congruence.
Qed.

Lemma world_step_keeps {A} (f : W → W * A) o o' a :
  world_step f o = (o', a) → (∀ w, P w → P (fst (f w))) → P (o_world o) → P (o_world o').
Proof.
  unfold world_step. intros Hw Hf Hp. specialize (Hf _ Hp).
  destruct (f (o_world o)). by injection Hw as <- <-.
Qed.

Lemma fetch_from_keeps fs sd w sd' w' e :
  fetch_from fs sd w = Some (sd', w', e) → P w → P w'.
Proof using Hq.
  revert w. induction fs as [|f fs IH]; intros w; simpl; [by intros [= <- <- <-]|].
  destruct f as [f|]; simpl; [|done]. intros Hf Hp.
  pose proof (q_metadata Hq (node_Value f) "" w Hp) as Hp1.
  destruct (GetImageMetadata (node_Value f) "" w) as [w1 [md|e1]]; [|by eapply IH].
  simpl in Hp1. destruct (parseDocker _) as [ast|]; [|by injection Hf as <- <- <-].
  destruct (absorbDocker ast _); [|done]. by injection Hf as <- <- <-.
Qed.

Lemma inspect_keeps sh name w : P w → P (fst (inspectImage sh name w)).
Proof using Hq.
  intros Hp. unfold inspectImage.
  pose proof (q_cmd Hq sh ["docker"; "image"; "inspect";
    "--format={{printf " +:+ quote_str +:+ "%q %q" +:+ quote_str +:+ " .Config.OnBuild .Config.Env}}";
    name] "" w ltac:(done) Hp) as Hp1.
  by destruct (sh_Stdout sh _ "" w).
Qed.

Lemma local_keeps sh sd w sd' w' :
  checkLocalImage sh sd w = Some (sd', w') → P w → P w'.
Proof using Hq.
  unfold checkLocalImage. case_decide as Hsd; [clear Hsd|by intros [= <- <-]].
  generalize (froms sd) as fs. intros fs. revert sd w. induction fs as [|f fs IH]; intros sd w; simpl.
  { by intros [= <- <-]. }
  destruct f as [f|]; simpl; [|by rewrite foldl_none]. intros Hf Hp.
  pose proof (inspect_keeps sh (node_Value f) w Hp) as Hp1.
  destruct (inspectImage sh (node_Value f) w) as [w1 out]. by eapply IH.
Qed.

Lemma select_keeps ctx o o' r : docker_select ctx o = Some (o', r) → P (o_world o) → P (o_world o').
Proof using Hq.
  intros Hs Hp. unfold docker_select in Hs.
  destruct (select_buildpack ctx (o_world o)) as [[w r']|] eqn:Hsel; [|done].
  injection Hs as <- <-. simpl. unfold select_buildpack in Hsel.
  destruct (Split_Detect ctx (o_world o)) as [[w1 [dr e]]|] eqn:Hd; [|done]. simpl in Hsel.
  assert (P w1) as Hp1.
  { revert Hd. unfold Split_Detect. destruct (negb _); [intros; by simplify_eq|].
    destruct (parseDockerfile _ _) as [ast|]; [|intros; by simplify_eq].
    match goal with |- context [first_err ?fs ?s] => set (steps := fs); set (start := s) end.
    assert (keeps_world (λ s : splitDetector * W, snd s) (first_err steps)) as Hk.
    { apply first_err_keeps. unfold steps. repeat apply Forall_app_2; repeat constructor.
      - intros [sd w0] s' e' Hs Hp0. simpl in Hs. destruct (absorbDockerfile sd); [|done].
        by injection Hs as <- <-.
      - intros [sd w0] [sd' w'] e' Hs Hp0. by eapply fetch_from_keeps.
      - destruct (DevBuild _); [|constructor]. apply Forall_singleton.
        intros [sd w0] s' e' Hs Hp0. simpl in Hs.
        destruct (checkLocalImage _ sd w0) as [[sd1 w2]|] eqn:Hl; [|done].
        injection Hs as <- <-. by eapply local_keeps.
      - intros [sd w0] s' e' Hs Hp0. simpl in Hs. destruct (processEnv sd); [|done].
        by injection Hs as <- <-. }
    destruct (first_err steps start) as [[[sd w2] e']|] eqn:Hf; [|done]. simpl.
    intros; simplify_eq. by apply (Hk _ _ _ Hf). }
  assert (∀ w2 r2, select_dockerfile ctx w1 = (w2, r2) → P w2) as Hdf.
  { intros w2 r2. unfold select_dockerfile, Dockerfile_Detect. destruct (negb _); [intros; by simplify_eq|].
    pose proof (q_cmd Hq (bc_Sh ctx) ["cat"; Join [OffsetDir (bc_Source ctx); "Dockerfile"]] "" w1
      ltac:(done) Hp1) as Hp2.
    destruct (sh_Stdout _ _ _ _) as [w3 out]. intros; by simplify_eq. }
  destruct e, dr as [dr|]; [| |destruct (Compatible dr)|]; simpl in Hsel;
    (injection Hsel as Hsel; by eapply Hdf) || by simplify_eq.
Qed.

(** One lemma for the steps of a split build: each is a few commands. *)
Ltac keep_commands Hp :=
  unfold sb_docker;
  match goal with
  | |- context [docker ?sh ?args ?o] =>
      let o' := fresh "o" in let out := fresh "out" in let Hd := fresh "Hd" in
      destruct (docker sh args o) as [o' out] eqn:Hd;
      apply docker_keeps in Hd; [|done|exact Hp]; clear Hp; rename Hd into Hp
  | |- context [world_step ?f ?o] =>
      let o' := fresh "o" in let a := fresh "a" in let Hd := fresh "Hd" in
      destruct (world_step f o) as [o' a] eqn:Hd;
      apply world_step_keeps in Hd; [|intros; by apply Hq|exact Hp]; clear Hp; rename Hd into Hp
  end.

Lemma each_builder_keeps f l o o' l' e :
  (∀ rb o o' rb' e, f rb o = (o', rb', e) → P (o_world o) → P (o_world o')) →
  each_builder f l o = (o', l', e) → P (o_world o) → P (o_world o').
Proof using Type.
  intros Hf. revert o o' l' e. induction l as [|rb l IH]; intros o o' l' e; simpl.
  { by intros [= <- <- <-]. }
  destruct (f rb o) as [[o1 rb'] e1] eqn:Hr. intros He Hp. specialize (Hf _ _ _ _ _ Hr Hp).
  destruct e1; [by injection He as <- <- <-|].
  destruct (each_builder f l o1) as [[o2 l2] e2] eqn:Hl. injection He as <- <- <-. by eapply IH.
Qed.

Lemma extract_files_keeps sb rb files o o' e :
  extract_files sb rb files o = (o', e) → P (o_world o) → P (o_world o').
Proof using Hq.
  revert o. induction files as [|inst files IH]; intros o He Hp; simpl in He.
  { by injection He as <- <-. }
  revert He. keep_commands Hp. destruct a as [t|]; [by intros [= <- <-]|].
  keep_commands Hp. destruct out; [by intros; eapply IH|by intros [= <- <-]].
Qed.

Lemma split_steps_keep : Forall (keeps_world (λ s : split_state, o_world (snd s))) split_steps.
Proof using Hq.
  unfold split_steps. repeat constructor; intros [sb o] [sb' o'] e; unfold eachBuilder; simpl; intros He Hp;
    revert He.
  - unfold buildBuild. simpl. destruct (Data _); simpl; [|done]. keep_commands Hp.
    case_match; by intros [= _ <- _].
  - unfold setupTempdir. simpl. keep_commands Hp. destruct a; [keep_commands Hp|]; by intros [= _ <- _].
  - unfold createBuildContainer. simpl. keep_commands Hp. case_match; by intros [= _ <- _].
  - unfold extractRunSpec. simpl. destruct (Data _); simpl; [|done]. keep_commands Hp.
    repeat case_match; by intros [= _ <- _].
  - unfold validateRunSpec. simpl. destruct (sb_RunSpec sb); simpl; [|done]. by intros [= _ <- _].
  - unfold constructImageBuilders. simpl. destruct (sb_RunSpec sb); simpl; [|done]. by intros [= _ <- _].
  - destruct (each_builder _ _ _) as [[o1 l1] e1] eqn:Hl. intros [= _ <- _].
    eapply each_builder_keeps; [|exact Hl|done]. intros rb o2 o3 rb' e2. unfold rb_extractFiles.
    destruct (extract_files _ _ _ _) eqn:Hx. intros [= <- _ _]. by eapply extract_files_keeps.
  - unfold teardownBuildContainer. simpl. keep_commands Hp. by intros [= _ <- _].
  - destruct (each_builder _ _ _) as [[o1 l1] e1] eqn:Hl. intros [= _ <- _].
    eapply each_builder_keeps; [|exact Hl|done]. intros rb o2 o3 rb' e2 He2 Hp2. revert He2.
    unfold rb_templateDockerfile. keep_commands Hp2. by intros [= <- _ _].
  - destruct (each_builder _ _ _) as [[o1 l1] e1] eqn:Hl. intros [= _ <- _].
    eapply each_builder_keeps; [|exact Hl|done]. intros rb o2 o3 rb' e2 He2 Hp2. revert He2.
    unfold rb_build. destruct (CD _ _ _). keep_commands Hp2. case_match; by intros [= <- _ _].
Qed.

Lemma build_keeps bp c o o' r : docker_build bp c o = Some (o', r) → P (o_world o) → P (o_world o').
Proof using Hq.
  intros Hb Hp. destruct bp as [d|d]; simpl in Hb.
  - unfold Split_Build in Hb. destruct (first_err split_steps _) as [[[sb o1] e]|] eqn:Hf; [|done].
    simpl in Hb. pose proof (first_err_keeps _ _ split_steps_keep _ _ _ Hf Hp) as Hp1.
    destruct (sb_result sb (o_heap o1)). by injection Hb as <- <-.
  - revert Hb. unfold Dockerfile_Build. destruct (Data d); simpl; [|done]. keep_commands Hp.
    by intros [= <- _].
Qed.

Lemma apply_all_keeps b ps o o' ps' e : apply_all b ps o = (o', ps', e) → P (o_world o) → P (o_world o').
Proof using Hq.
  revert o o' ps' e. induction ps as [|p ps IH]; intros o o' ps' e; simpl; [by intros [= <- _ _]|].
  unfold applyMetadata. intros He Hp. revert He.
  match goal with |- context [world_step ?f ?o] => destruct (world_step f o) as [o1 out] eqn:Hd end.
  apply world_step_keeps in Hd; [|intros w Hw; by apply Hq|exact Hp].
  destruct out as [out|e1]; [|by intros [= <- _ _]].
  destruct (apply_all b ps o1) as [[o2 ps2] e2] eqn:Hr. intros [= <- _ _]. by eapply IH.
Qed.

(** The steps of a build before its registration. *)
Lemma before_registration_keep b is_dir c :
  Forall (keeps_world (λ s : @building W (docker_system b), o_world (b_out s)))
    (take 7 (@build_steps _ W (docker_system b) is_dir c)).
Proof using Hq.
  simpl. repeat constructor; intros s s' e; simpl.
  - by intros [= <- _].
  - destruct (NewContext _ _ _). by intros [= <- _].
  - destruct (b_bc s); simpl; [|done]. by intros [= <- _].
  - destruct (b_bc s); simpl; [|done]. destruct (docker_select _ _) as [[o1 r]|] eqn:Hs; [|done].
    simpl. intros Hr Hp. apply select_keeps in Hs; [|done]. by destruct r; injection Hr as <- _.
  - destruct (b_bc s), (b_bp s); simpl; try done.
    destruct (docker_build _ _ _) as [[o1 [br e1]]|] eqn:Hb; [|done]. simpl.
    intros [= <- _] Hp. by apply build_keeps in Hb.
  - destruct (b_bc s), (b_br s); simpl; try done. destruct (Contextualize _ _ _). by intros [= <- _].
  - destruct (b_br s) as [br|]; simpl; [|done]. unfold Builder_ApplyMetadata.
    destruct (apply_all _ _ _) as [[o1 ps] e1] eqn:Ha. intros [= <- _] Hp. by eapply apply_all_keeps.
Qed.

(** Nothing is pushed to the registry or recorded under a name before every
    product of the build is built and labelled: whatever holds of the world until
    a push or a record holds when a build ends, unless it got to registering its
    result, and then it holds when the registration starts. *)
Theorem Build_registers_last (b : Builder) (is_dir : string → option bool) (c : BuildConfig)
    (o o' : Outside W) (br : option BuildResult) (e : option text) :
  @Build _ W (docker_system b) is_dir c o = Some (o', (br, e)) → P (o_world o) →
  P (o_world o') ∨
  ∃ res o1 e1, br = Some res ∧ P (o_world o1) ∧ Builder_Register b res o1 = (o', e1) ∧
    (e = None ↔ e1 = None).
Proof using Hq.
  intros Hb Hp. unfold Build in Hb.
  rewrite <-(take_drop 7 (build_steps _ _)), first_err_app in Hb.
  pose proof (first_err_keeps _ _ (before_registration_keep b is_dir c)) as Hk.
  destruct (first_err (take 7 _) _) as [[s [e1|]]|] eqn:Hf; [| |done]; specialize (Hk _ _ _ Hf Hp).
  { left. simpl in Hb. by injection Hb as <- _ _. }
  simpl in Hb. destruct (b_br s) as [res|] eqn:Hbr; [|done]. simpl in Hb.
  unfold RegisterAndWarnAdvisories in Hb. simpl in Hb.
  destruct (Builder_Register b res (b_out s)) as [o1 e1] eqn:Hr.
  right. exists res, (b_out s), e1. destruct e1; simpl in Hb; injection Hb as <- <- <-; done.
Qed.
End Quiet.

(** What a successful registration did: each product's tags were pushed and its
    version tag recorded for its source, with its advisories. *)
Lemma Register_records `{DockerHost W} b br (o o' : Outside W) p :
  Builder_Register b br o = (o', None) → p ∈ Products br →
  ∃ w1 w2 w3 w4 out1 out2,
    sh_Stdout (SourceShell b) ["docker"; "push"; VersionName p] "" w1 = (w2, Ok out1) ∧
    sh_Stdout (SourceShell b) ["docker"; "push"; RevisionName p] "" w2 = (w3, Ok out2) ∧
    Insert (bp_Source p) (VersionName p) "" (advisory <$> contents (o_heap o) (bp_Advisories p)) w3
      = (w4, None).
Proof.
  unfold Builder_Register. revert o. induction (Products br) as [|q ps IH]; intros o; [set_solver|].
  simpl. unfold pushToRegistry, docker, recordName, world_step. simpl.
  destruct (sh_Stdout _ _ "" (o_world o)) as [w2 out1] eqn:H1. simpl.
  destruct (sh_Stdout _ _ "" w2) as [w3 out2] eqn:H2. simpl.
  destruct out1 as [out1|], out2 as [out2|]; try done. simpl.
  destruct (Insert _ _ _ _ w3) as [w4 [e|]] eqn:H3; [done|].
  intros Hr [->|Hp]%elem_of_cons.
  - by exists (o_world o), w2, w3, w4, out1, out2.
  - destruct (IH _ Hr Hp) as (w1'&w2'&w3'&w4'&a&b'&?&?&?). by exists w1', w2', w3', w4', a, b'.
Qed.

(** A world that counts pushes and records, of a project with a Dockerfile that
    takes the version of the app. *)
Definition counting_docker : Docker nat := {|
  sh_Exists _ path _ := bool_decide (path = "nested/Dockerfile");
  sh_Stdout _ args _ w :=
    (if decide (take 2 args = ["docker"; "push"]) then S w else w,
     if decide (take 1 args = ["cat"]) then Ok ("FROM x" +:+ nl +:+ "ARG APP_VERSION")
     else Ok ("Step 1" +:+ nl +:+ "Successfully built 0a1b2c" +:+ nl));
  parseDockerfile _ _ := Ok (dockerfile [node "from" ["x"]]);
  parseDocker _ := Ok (dockerfile []);
  GetImageMetadata _ _ w := (w, Err NotModified)
|}.
Definition counting_host : DockerHost nat := {|
  host_docker := counting_docker;
  TempDir w := (w, Ok "/tmp/sous-split-build1");
  MkdirAll _ w := (w, None);
  ReadRunSpec _ _ := Err (Lit "");
  WriteFile _ _ w := (w, None);
  Now _ := mkStamp 2017 3 9 4 5 59;
  Insert _ _ _ _ w := (S w, None)
|}.

Lemma counting_quiet : @quiet nat counting_host (λ w, w = 0%nat).
Proof. split; simpl; try done. intros sh args _ w Hne ->. by rewrite decide_False. Qed.

Definition ex_builder : Builder := mkBuilder "docker.otenv.com" (mkSh "/home/me/wackadoo").
#[local] Abbreviation ex_build :=
  (@Build _ nat (docker_system (H0 := counting_host) ex_builder) (λ _, Some true) ex_config
     (mkOutside [] 0%nat)).

(** The build of the example: one image, pushed under two tags and recorded. *)
Example ex_build_result :
  match ex_build with
  | Some (o', (Some br, None)) => (o_world o', (λ p, (bp_ID p, VersionName p)) <$> Products br)
  | _ => (0%nat, [])
  end = (3%nat, [("0a1b2c", "docker.otenv.com/wackadoo/nested:1.2.3")]).
Proof. vm_compute. reflexivity. Qed.

Lemma Build_registers_last_witness :
  match ex_build with
  | Some (o', (br, e)) =>
      o_world o' = 0%nat ∨
      ∃ res o1 e1, br = Some res ∧ o_world o1 = 0%nat ∧
        Builder_Register (H0 := counting_host) ex_builder res o1 = (o', e1) ∧ (e = None ↔ e1 = None)
  | None => False
  end.
Proof.
  destruct ex_build as [[o' [br e]]|] eqn:Hb.
  - exact (@Build_registers_last go_growth nat counting_host (λ w, w = 0%nat) counting_quiet
      ex_builder (λ _, Some true) ex_config (mkOutside [] 0%nat) o' br e Hb eq_refl).
  - pose proof ex_build_result as Hr. rewrite Hb in Hr. discriminate Hr.
Defined.
