(* ===== verification/NameCache.v ===== *)
(** * The name cache (ext/docker/image_mapping.go)

    The database that maps source IDs to the names of images and back, and the
    registry behind it: what is recorded when an image is built, what is looked
    up before a deployment, and how a missing name is sought in the registry.

    The tables are lists of rows, and each SQL statement of the code is given its
    relational meaning: unique constraints, [insert or replace], [insert or
    ignore], natural joins.  Of the database driver the class [Database] leaves
    open the order rows come in, whether the deletions of a statement cascade
    (foreign keys are enforced only on the connection that created the schema, and
    each statement may be run on another one of the pool), which statement fails,
    and after how many rows. *)

From S2P Require Import Prelude.
From S2P Require Import GoStrings.
From S2P Require Import GoPath.
From S2P Require Import Flaw.
From S2P Require Import Semv.
From S2P Require Import Ids.
From S2P Require Import Differ.
From S2P Require Import DockerNames.
From S2P Require Import DockerDetect.
#[local] Open Scope string_scope.
#[local] Open Scope Z_scope.
#[local] Open Scope list_scope.

(** ** Tables *)

Record repo_row := mkRepo { repo_id : nat; repo_name : string }.
Record location_row := mkLocation { loc_id : nat; loc_repo : string; loc_offset : string }.
Record metadata_row := mkMeta {
  meta_id : nat; meta_loc : nat; meta_etag : string; canonicalName : string; meta_version : string
}.
Record name_row := mkName { name_id : nat; name_meta : nat; name_name : string }.
Record quality_row := mkQualityRow { qual_meta : nat; quality : string; kind : string }.
#[export] Instance quality_row_eq_dec : EqDecision quality_row.
Proof. solve_decision. Defined.
#[export] Instance metadata_row_eq_dec : EqDecision metadata_row.
Proof. solve_decision. Defined.

(** One counter draws the IDs of all the tables; they are never used again. *)
Record DB := mkDB {
  docker_repo_name : list repo_row;
  docker_search_location : list location_row;
  repo_through_location : list (nat * nat);
  docker_search_metadata : list metadata_row;
  docker_search_name : list name_row;
  docker_image_qualities : list quality_row;
  next_id : nat
}.

Definition empty_db : DB := mkDB [] [] [] [] [] [] 1.

(** ** The outside *)

Class Database := {
  scan : ∀ A, list A → list A;
  scan_perm A (l : list A) : scan A l ≡ₚ l;
  (** Whether the n-th statement run deletes what references the rows it deletes,
      its error, and the error that ends its rows, after so many. *)
  cascade : nat → bool;
  fault : nat → option text;
  row_fault : nat → option (nat * text)
}.

(** References of github.com/docker/distribution/reference, by name: [None] is an
    error of the parser. *)
Class References := {
  ParseNamed : string → option string;
  WithTag : string → string → option string;
  Digested : string → bool
}.

Class RegistryClient (W : Type) := {
  ImageMetadata : string → string → W → W * result registry_error Metadata;
  AllTags : string → W → W * result text (list string)
}.

Inductive nc_error : Type :=
| NoImageNameFound (sid : SourceID)
| NoSourceIDFound (name : string)
| NoRows
| DBError (t : text)
| BadReference (name : string)
| FromRegistry (e : registry_error)
| FromTags (t : text)
| FromLabels (e : labels_error)
| FromID (e : id_error)
| FetchedOther (fetched : SourceID) (name : string) (wanted : SourceID)
| Wrapped (msg : text) (e : nc_error).

(** [errors.Cause]. *)
Fixpoint Cause (e : nc_error) : nc_error :=
  match e with Wrapped _ e => Cause e | e => e end.

(** ** Statements *)

(** The cache with its database, the count of statements run and the world. *)
Record NameCache (W : Type) := mkNameCache { nc_db : DB; nc_count : nat; nc_world : W }.
Arguments mkNameCache {W}.
Arguments nc_db {W}.
Arguments nc_count {W}.
Arguments nc_world {W}.

Definition set_repos r (d : DB) := mkDB r (docker_search_location d) (repo_through_location d)
  (docker_search_metadata d) (docker_search_name d) (docker_image_qualities d) (S (next_id d)).
Definition set_locations r (d : DB) := mkDB (docker_repo_name d) r (repo_through_location d)
  (docker_search_metadata d) (docker_search_name d) (docker_image_qualities d) (S (next_id d)).
Definition set_through r (d : DB) := mkDB (docker_repo_name d) (docker_search_location d) r
  (docker_search_metadata d) (docker_search_name d) (docker_image_qualities d) (next_id d).
Definition set_metadata r n q (d : DB) := mkDB (docker_repo_name d) (docker_search_location d)
  (repo_through_location d) r n q (S (next_id d)).
Definition set_names n (d : DB) := mkDB (docker_repo_name d) (docker_search_location d)
  (repo_through_location d) (docker_search_metadata d) n (docker_image_qualities d) (S (next_id d)).
Definition set_qualities q (d : DB) := mkDB (docker_repo_name d) (docker_search_location d)
  (repo_through_location d) (docker_search_metadata d) (docker_search_name d) q (next_id d).

Definition insert_repo (name : string) (d : DB) : DB :=
  set_repos (docker_repo_name d ++ [mkRepo (next_id d) name]) d.
Definition insert_location (repo offset : string) (d : DB) : DB :=
  set_locations (docker_search_location d ++ [mkLocation (next_id d) repo offset]) d.
Definition insert_or_ignore_through (nid lid : nat) (d : DB) : DB :=
  if decide ((nid, lid) ∈ repo_through_location d) then d
  else set_through (repo_through_location d ++ [(nid, lid)]) d.

(** [insert or replace]: the rows that violate a unique constraint go first, and
    what references them with them if deletions cascade. *)
Definition meta_conflicts (canonical version : string) (loc : nat) (m : metadata_row) : Prop :=
  canonicalName m = canonical ∨ (meta_loc m = loc ∧ meta_version m = version).
#[export] Instance meta_conflicts_dec c v l m : Decision (meta_conflicts c v l m).
Proof. unfold meta_conflicts. apply _. Defined.

Definition insert_or_replace_metadata (canonical : string) (loc : nat) (etag version : string)
    (cascades : bool) (d : DB) : DB :=
  let ms := docker_search_metadata d in
  let gone := meta_id <$> filter (meta_conflicts canonical version loc) ms in
  let kept := filter (λ m, ¬ meta_conflicts canonical version loc m) ms in
  set_metadata (kept ++ [mkMeta (next_id d) loc etag canonical version])
    (if cascades then filter (λ n, name_meta n ∉ gone) (docker_search_name d) else docker_search_name d)
    (if cascades then filter (λ q, qual_meta q ∉ gone) (docker_image_qualities d)
     else docker_image_qualities d) d.

Definition insert_or_replace_name (meta : nat) (name : string) (d : DB) : DB :=
  set_names (filter (λ n, name_name n ≠ name) (docker_search_name d) ++ [mkName (next_id d) meta name]) d.

(** The unique constraint on qualities says [on conflict ignore]. *)
Definition insert_quality (q : quality_row) (d : DB) : DB :=
  if decide (q ∈ docker_image_qualities d) then d
  else set_qualities (docker_image_qualities d ++ [q]) d.

(** ** A monad of statements *)

Definition M (W A : Type) : Type := NameCache W → NameCache W * result nc_error A.

#[export] Instance M_ret {W} : MRet (M W) := λ A a nc, (nc, Ok a).
#[export] Instance M_bind {W} : MBind (M W) := λ A B f m nc,
  match m nc with
  | (nc', Ok a) => f a nc'
  | (nc', Err e) => (nc', Err e)
  end.

Section Cache.
Context {W : Type} `{Database} `{References} `{RegistryClient W}.

Definition throw {A} (e : nc_error) : M W A := λ nc, (nc, Err e).
(** The error of [m] as a value. *)
Definition try_ {A} (m : M W A) : M W (result nc_error A) := λ nc, let '(nc', r) := m nc in (nc', Ok r).
Definition wrapping {A} (msg : text) (m : M W A) : M W A := λ nc,
  let '(nc', r) := m nc in (nc', map_err (Wrapped msg) r).

(** A statement is told its number. *)
Definition statement {A} (f : nat → DB → DB * A) : M W A := λ nc,
  match fault (nc_count nc) with
  | Some t => (mkNameCache (nc_db nc) (S (nc_count nc)) (nc_world nc), Err (DBError t))
  | None =>
      let '(d, a) := f (nc_count nc) (nc_db nc) in (mkNameCache d (S (nc_count nc)) (nc_world nc), Ok a)
  end.
Definition query {A} (f : DB → list A) : M W (list A) := statement (λ _ d, (d, scan A (f d))).
Definition exec (f : DB → DB) : M W () := statement (λ _ d, (f d, ())).

(** The rows that a loop over [rows.Next] reads, and [rows.Err] after it: [g] is what
    the database makes of the rows it finds, until it fails. *)
Definition query_rows {A B} (f : DB → list A) (g : list A → list B * option nc_error) :
    M W (list B * option nc_error) :=
  statement (λ n d,
    let '(l, e) := g (scan A (f d)) in
    (d, match row_fault n with
        | Some (k, t) => if (k <=? length l)%nat then (take k l, Some (DBError t)) else (l, e)
        | None => (l, e)
        end)).
Definition as_they_are {A} (l : list A) : list A * option nc_error := (l, None).

Definition fetch (name etag : string) : M W (result registry_error Metadata) := λ nc,
  let '(w, r) := ImageMetadata name etag (nc_world nc) in
  (mkNameCache (nc_db nc) (nc_count nc) w, Ok r).

(** ** Inserting *)

Definition ensureInDB (sel : DB → list nat) (ins : bool → DB → DB) : M W nat :=
  ids ← wrapping (errorf "getting id with %q %v" []) (query sel);
  match ids with
  | id :: _ => mret id
  | [] => wrapping (errorf "inserting new value: %q %v" []) (statement (λ n d, (ins (cascade n) d, next_id d)))
  end.

Definition parse_name (name : string) : M W string :=
  match ParseNamed name with Some n => mret n | None => throw (BadReference name) end.

Fixpoint add_each (id : nat) (ins : list string) : M W () :=
  match ins with
  | [] => mret ()
  | n :: ins' =>
      wrapping (errorf "adding name: %s" [AStr n]) (exec (insert_or_replace_name id n));;
      add_each id ins'
  end.

(** The statement is prepared first. *)
Definition dbAddNamesForID (id : nat) (ins : list string) : M W () :=
  wrapping (Lit "adding names") (exec (λ d, d));;
  add_each id ins.

(** The errors of inserting qualities are dropped. *)
Fixpoint insert_qualities (id : nat) (qs : list Quality) : M W () :=
  match qs with
  | [] => mret ()
  | q :: qs' =>
      (if decide (q_Kind q = "advisory" ∧ q_Name q = "") then mret ()
       else try_ (exec (insert_quality (mkQualityRow id (q_Name q) (q_Kind q))));; mret ());;
      insert_qualities id qs'
  end.

Definition dbInsert (sid : SourceID) (in_ etag : string) (quals : list Quality) : M W () :=
  ref ← parse_name in_;
  nid ← ensureInDB (λ d, repo_id <$> filter (λ r, repo_name r = ref) (docker_repo_name d))
          (λ _, insert_repo ref);
  let '(mkSourceLocation repo dir) := Location sid in
  lid ← ensureInDB (λ d, loc_id <$> filter (λ l, loc_repo l = repo ∧ loc_offset l = dir)
                           (docker_search_location d))
          (λ _, insert_location repo dir);
  wrapping (errorf "inserting (%d, %d) into repo_through_location" [])
    (exec (insert_or_ignore_through nid lid));;
  let versionString := Format (sid_Version sid) Complete in
  id ← ensureInDB (λ d, meta_id <$> filter (λ m, canonicalName m = in_) (docker_search_metadata d))
         (insert_or_replace_metadata in_ lid etag versionString);
  insert_qualities id quals;;
  dbAddNamesForID id [in_].

Definition dbAddNames (cn : string) (ins : list string) : M W () :=
  ids ← query (λ d, meta_id <$> filter (λ m, canonicalName m = cn) (docker_search_metadata d));
  match ids with
  | [] => throw NoRows
  | id :: _ => dbAddNamesForID id ins
  end.

(** [Insert] puts a pair into the cache after a build. *)
Definition nc_Insert (sid : SourceID) (in_ etag : string) (qs : list Quality) : M W () :=
  dbInsert sid in_ etag qs.

(** ** Querying *)

(** [docker_search_name natural join docker_search_metadata natural join
    docker_search_location]. *)
Definition joined (d : DB) : list (name_row * metadata_row * location_row) :=
  n ← docker_search_name d;
  m ← filter (λ m, meta_id m = name_meta n) (docker_search_metadata d);
  l ← filter (λ l, loc_id l = meta_loc m) (docker_search_location d);
  [(n, m, l)].

Definition dbQueryOnName (in_ : string) : M W (metadata_row * location_row) :=
  rows ← query (λ d, filter (λ r : name_row * metadata_row * location_row, name_name (fst (fst r)) = in_)
                       (joined d));
  match rows with
  | (_, m, l) :: _ => mret (m, l)
  | [] => throw (NoSourceIDFound in_)
  end.

(** The error of a failure to read all rows is replaced when there was no row. *)
Definition dbQueryOnSL (sl : SourceLocation) : M W (list string) :=
  '(rs, err) ← query_rows (λ d,
    r ← docker_repo_name d;
    t ← filter (λ t : nat * nat, fst t = repo_id r) (repo_through_location d);
    l ← filter (λ l, loc_id l = snd t ∧ loc_repo l = Repo sl ∧ loc_offset l = Dir sl)
          (docker_search_location d);
    [repo_name r]) as_they_are;
  if decide (rs = []) then throw (DBError (errorf "no repos found for %+v" []))
  else match err with Some e => throw e | None => mret rs end.

Definition dbQueryAllSourceIds : M W (list (string * string * string) * option nc_error) :=
  query_rows (λ d, l ← docker_search_location d;
                   m ← filter (λ m, meta_loc m = loc_id l) (docker_search_metadata d);
                   [(loc_repo l, loc_offset l, meta_version m)]) as_they_are.

(** [MustParse] panics on a version that does not parse, as soon as it is read. *)
Definition ListSourceIDs (nc : NameCache W) : option (NameCache W * result nc_error (list SourceID)) :=
  match dbQueryAllSourceIds nc with
  | (nc', Err e) => Some (nc', Err e)
  | (nc', Ok (rows, err)) =>
      ids ← mapM (λ r : string * string * string,
        match Parse (snd r) with
        | Ok v => Some (mkSourceID (mkSourceLocation (fst (fst r)) (snd (fst r))) v)
        | Err _ => None
        end) rows;
      Some (nc', match err with Some e => Err e | None => Ok ids end)
  end.

(** The function the driver registers for SQL: [None] is an error. *)
Definition semverEqual (a b : string) : option bool :=
  if decide (a = b) then Some true
  else match Parse a, Parse b with
       | Ok va, Ok vb => Some (Equals va vb)
       | _, _ => None
       end.

(** The rows of a source location. *)
Definition rows_of (sid : SourceID) (d : DB) : list (name_row * metadata_row * location_row) :=
  filter (λ r : name_row * metadata_row * location_row,
            loc_repo (snd r) = Repo (Location sid) ∧ loc_offset (snd r) = Dir (Location sid)) (joined d).

(** The canonical names of those of a version, until the comparison fails on one. *)
Fixpoint of_version (version : string) (rows : list (name_row * metadata_row * location_row)) :
    list string * option nc_error :=
  match rows with
  | [] => ([], None)
  | (_, m, _) :: rows =>
      match semverEqual (meta_version m) version with
      | None => ([], Some (DBError (Lit "semverEqual")))
      | Some equal =>
          let '(cns, e) := of_version version rows in
          (if (equal : bool) then canonicalName m :: cns else cns, e)
      end
  end.

(** Whatever ended the rows, that there was none says that there is no image. *)
Definition dbQueryCNameforSourceID (sid : SourceID) : M W string :=
  '(cns, err) ← query_rows (rows_of sid) (of_version (Semv.String (sid_Version sid)));
  match last cns, err with
  | None, _ => throw (Wrapped (Lit "") (NoImageNameFound sid))
  | Some _, Some e => throw e
  | Some cn, None => mret cn
  end.

Definition dbQueryQualsForCName (cn : string) : M W (list Quality) :=
  '(quals, err) ← query_rows
    (λ d, m ← filter (λ m, canonicalName m = cn) (docker_search_metadata d);
          q ← filter (λ q, qual_meta q = meta_id m) (docker_image_qualities d);
          [mkQuality (quality q) (kind q)]) as_they_are;
  match err with Some e => throw e | None => mret quals end.

Definition getImageNameFromCache (sid : SourceID) : M W (string * list Quality) :=
  cn ← dbQueryCNameforSourceID sid;
  quals ← dbQueryQualsForCName cn;
  mret (cn, quals).

Definition GetCanonicalName (in_ : string) : M W string :=
  '(m, _) ← dbQueryOnName in_; mret (canonicalName m).

(** ** Asking the registry *)

Context (DockerRegistryHost : string).

Definition qualitiesFromLabels (lm : gomap string) : list Quality :=
  match entries lm !! "com.opentable.sous.advisories" with
  | None => []
  | Some advs => (λ adv, mkQuality adv "advisory") <$> split_on ","%char advs
  end.

(** Is [host/name] an image of the preferred registry?  Not modified is yes. *)
Definition on_host (fullCanon etag : string) : M W bool :=
  r ← fetch fullCanon etag;
  mret (match r with Ok _ | Err NotModified => true | Err _ => false end).

Definition record_metadata (newSID : SourceID) (md : Metadata) : M W SourceID :=
  let qualities := qualitiesFromLabels (md_Labels md) in
  let mirrored := bool_decide (md_Registry md ≠ DockerRegistryHost) in
  let here := DockerRegistryHost +:+ "/" +:+ md_CanonicalName md in
  let there := md_Registry md +:+ "/" +:+ md_CanonicalName md in
  found ← (if mirrored then on_host here (md_Etag md) else mret true);
  let fullCanon := if (found : bool) then here else there in
  dbInsert newSID fullCanon (md_Etag md) qualities;;
  let names := (λ n, DockerRegistryHost +:+ "/" +:+ n) <$> md_AllNames md in
  r ← try_ (dbAddNames here names);
  match r with
  | Ok _ => mret newSID
  | Err e => if mirrored then dbAddNames there names;; mret newSID else throw e
  end.

Definition GetSourceID (in_ : string) : M W SourceID :=
  r ← try_ (dbQueryOnName in_);
  known ← match r with
          | Ok (m, l) =>
              match NewSourceID (loc_repo l) (loc_offset l) (meta_version m) with
              | Err e => throw (FromID e)
              | Ok sid => mret (Some (sid, meta_etag m))
              end
          | Err (NoSourceIDFound _) => mret None
          | Err e => throw e
          end;
  match known with
  | Some (sid, _) => if Digested in_ then mret sid else
      md ← fetch in_ (default "" (snd <$> known));
      match md with
      | Err NotModified => mret sid
      | Err e => throw (FromRegistry e)
      | Ok md =>
          match SourceIDFromLabels (md_Labels md) with
          | Err e => throw (FromLabels e)
          | Ok newSID => record_metadata newSID md
          end
      end
  | None =>
      md ← fetch in_ "";
      match md with
      | Err NotModified => mret (mkSourceID zeroLocation zeroVersion)
      | Err e => throw (FromRegistry e)
      | Ok md =>
          match SourceIDFromLabels (md_Labels md) with
          | Err e => throw (FromLabels e)
          | Ok newSID => record_metadata newSID md
          end
      end
  end.

(** ** Warming up *)

Fixpoint warm_tags (r : string) (ts : list string) : M W () :=
  match ts with
  | [] => mret ()
  | t :: ts' =>
      match WithTag r t with
      | Some in_ => try_ (GetSourceID in_);; warm_tags r ts'
      | None => warm_tags r ts'
      end
  end.

Definition Warmup (r : string) : M W () :=
  match ParseNamed r with
  | None => throw (BadReference r)
  | Some _ => λ nc,
      let '(w, ts) := AllTags r (nc_world nc) in
      let nc := mkNameCache (nc_db nc) (nc_count nc) w in
      match ts with
      | Err e => (nc, Err (Wrapped (errorf "warming up %q" [AStr r]) (FromTags e)))
      | Ok ts => warm_tags r ts nc
      end
  end.

Definition warmupSingle (sid : SourceID) : M W () :=
  let in_ := versionTag DockerRegistryHost sid "" in
  r ← try_ (GetSourceID in_);
  match r with
  | Err _ => mret ()
  | Ok gsid => if SourceID_Equal sid gsid then mret () else throw (FetchedOther gsid in_ sid)
  end.

Fixpoint warm_all (rs : list string) : M W () :=
  match rs with
  | [] => mret ()
  | r :: rs' => Warmup r;; warm_all rs'
  end.

Definition harvest (sl : SourceLocation) : M W () :=
  r ← try_ (dbQueryOnSL sl);
  let repos := match r with Ok rs => rs | Err _ => [] end in
  let guessed := fullRepoName DockerRegistryHost sl "" in
  warm_all repos;;
  if decide (guessed ∈ repos) then mret () else Warmup guessed.

Definition getImageNameAfterHarvest (sid : SourceID) : M W (string * list Quality) :=
  r ← try_ (warmupSingle sid);
  match r with
  | Ok _ => getImageNameFromCache sid
  | Err _ => harvest (Location sid);; getImageNameFromCache sid
  end.

Definition getImageName (sid : SourceID) : M W (string * list Quality) :=
  r ← try_ (getImageNameFromCache sid);
  match r with
  | Ok res => mret res
  | Err e =>
      match Cause e with
      | NoImageNameFound _ =>
          wrapping (errorf "getting image from cache after harvest from %s" [AStr DockerRegistryHost])
            (getImageNameAfterHarvest sid)
      | _ => throw (Wrapped (errorf "getting name from cache of %s" [AStr DockerRegistryHost]) e)
      end
  end.

Definition NewBuildArtifact (imageName : string) (qs : list Quality) : BuildArtifact :=
  mkBuildArtifact imageName "docker" qs.

Definition nc_GetArtifact (sid : SourceID) : M W BuildArtifact :=
  '(name, qls) ← getImageName sid; mret (NewBuildArtifact name qls).

Definition ImageLabels (in_ : string) : M W (gmap string string) :=
  sv ← wrapping (errorf "Image name: %s" [AStr in_]) (GetSourceID in_);
  mret (Labels sv).

(** ** Grooming *)

(** [captureRepos] drops every error, and keeps what was read. *)
Definition captureRepos : M W (list string) :=
  r ← try_ (query_rows (λ d, repo_name <$> docker_repo_name d) as_they_are);
  mret (match r with Ok (repos, _) => repos | Err _ => [] end).

(** The four statements of [clobber], whose errors are dropped: the schema cannot be
    deleted unless it was made writable.  The result is whether it is gone. *)
Definition clobber : M W bool :=
  writable ← try_ (exec (λ d, d));
  gone ← try_ (match writable with
               | Ok _ => exec (λ _, empty_db)
               | Err e => exec (λ d, d);; throw e
               end);
  try_ (exec (λ d, d));;
  try_ (exec (λ d, d));;
  mret (is_ok gone).

(** [n] statements, none of which may fail. *)
Fixpoint statements (n : nat) : M W () :=
  match n with O => mret () | S n => exec (λ d, d);; statements n end.

(** A schema that is not the current one is thrown away, the pragma and the seven
    tables of the current one are made, its fingerprint is stored, and the
    repositories that the old one knew are harvested again.  A table that is still
    there cannot be made.  [current] is the comparison of fingerprints, and [tables]
    whether there is a schema at all. *)
Definition GroomDatabase (current tables : bool) : M W () :=
  if current then mret ()
  else
    repos ← captureRepos;
    gone ← clobber;
    wrapping (errorf "groom DB: %v" [])
      (exec (λ d, d);;
       (if tables && negb gone
        then exec (λ d, d);; throw (DBError (Lit "Error: %s in SQL: %s"))
        else statements 7;; exec (λ d, d));;
       warm_all repos).
End Cache.

(** ** What computations keep *)

Section Keeping.
Context {W : Type} `{Database} `{References} `{RegistryClient W} (P : DB → Prop).

Definition preserves {A} (m : M W A) : Prop :=
  ∀ nc nc' r, m nc = (nc', r) → P (nc_db nc) → P (nc_db nc').

Lemma preserves_ret {A} (a : A) : preserves (mret a).
Proof. by intros nc nc' r [= <- _]. Qed.
Lemma preserves_throw {A} e : preserves (throw (A := A) e).
Proof. by intros nc nc' r [= <- _]. Qed.
Lemma preserves_bind {A B} (m : M W A) (f : A → M W B) :
  preserves m → (∀ a, preserves (f a)) → preserves (m ≫= f).
Proof.
  intros Hm Hf nc nc' r. cbv [mbind M_bind]. destruct (m nc) as [nc1 [a|e]] eqn:Hm1; intros Hr Hp.
  - eapply Hf; [done|]. by eapply Hm.
  - injection Hr as <- _. by eapply Hm.
Qed.
Lemma preserves_try {A} (m : M W A) : preserves m → preserves (try_ m).
Proof.
  intros Hm nc nc' r. unfold try_. destruct (m nc) as [nc1 r1] eqn:Hm1. intros [= <- _]. by eapply Hm.
Qed.
Lemma preserves_wrapping {A} msg (m : M W A) : preserves m → preserves (wrapping msg m).
Proof.
  intros Hm nc nc' r. unfold wrapping. destruct (m nc) as [nc1 r1] eqn:Hm1. intros [= <- _]. by eapply Hm.
Qed.
Lemma preserves_statement {A} (f : nat → DB → DB * A) :
  (∀ n d, P d → P (fst (f n d))) → preserves (statement f).
Proof.
  intros Hf nc nc' r. unfold statement. destruct (fault (nc_count nc)); [by intros [= <- _]|].
  destruct (f (nc_count nc) (nc_db nc)) as [d a] eqn:Hd. intros [= <- _] Hp. simpl.
  specialize (Hf (nc_count nc) _ Hp). by rewrite Hd in Hf.
Qed.
Lemma preserves_query {A} (f : DB → list A) : preserves (query f).
Proof. by apply preserves_statement. Qed.
Lemma preserves_query_rows {A B} (f : DB → list A) (g : list A → list B * option nc_error) :
  preserves (query_rows f g).
Proof. apply preserves_statement. intros n d. by destruct (g _). Qed.
Lemma preserves_exec (f : DB → DB) : (∀ d, P d → P (f d)) → preserves (exec f).
Proof. intros Hf. apply preserves_statement. intros _. exact Hf. Qed.
Lemma preserves_nothing : preserves (exec (λ d, d)).
Proof. by apply preserves_exec. Qed.
Lemma preserves_fetch name etag : preserves (fetch name etag).
Proof.
  intros nc nc' r. unfold fetch. destruct (ImageMetadata _ _ _) as [w md]. by intros [= <- _].
Qed.
End Keeping.

Create HintDb keeps discriminated.
#[export] Hint Resolve preserves_ret preserves_throw preserves_bind preserves_try preserves_wrapping
  preserves_query preserves_query_rows preserves_nothing preserves_fetch : keeps.

(** ** The constraints of the schema *)

Record wf_db (d : DB) : Prop := {
  repo_ids : NoDup (repo_id <$> docker_repo_name d);
  repo_names : NoDup (repo_name <$> docker_repo_name d);
  repo_below : Forall (λ r, repo_id r < next_id d)%nat (docker_repo_name d);
  loc_ids : NoDup (loc_id <$> docker_search_location d);
  loc_names : NoDup ((λ l, (loc_repo l, loc_offset l)) <$> docker_search_location d);
  loc_below : Forall (λ l, loc_id l < next_id d)%nat (docker_search_location d);
  through_keys : NoDup (repo_through_location d);
  meta_ids : NoDup (meta_id <$> docker_search_metadata d);
  meta_names : NoDup (canonicalName <$> docker_search_metadata d);
  meta_versions : NoDup ((λ m, (meta_loc m, meta_version m)) <$> docker_search_metadata d);
  meta_below : Forall (λ m, meta_id m < next_id d)%nat (docker_search_metadata d);
  meta_located : Forall (λ m, meta_loc m ∈ (loc_id <$> docker_search_location d))
                   (docker_search_metadata d);
  search_names : NoDup (name_name <$> docker_search_name d);
  quality_keys : NoDup (docker_image_qualities d)
}.

Lemma empty_db_wf : wf_db empty_db.
Proof. split; simpl; constructor. Qed.

Lemma below_weaken {A} (f : A → nat) n l : Forall (λ x, f x < n)%nat l → Forall (λ x, f x < S n)%nat l.
Proof. intros Hl. eapply Forall_impl; [exact Hl|]. simpl. lia. Qed.

Lemma below_fresh {A} (f : A → nat) n l : Forall (λ x, f x < n)%nat l → n ∉ (f <$> l).
Proof. intros Hl (x&->&Hx)%list_elem_of_fmap. rewrite Forall_forall in Hl. specialize (Hl x Hx). lia. Qed.

Lemma NoDup_snoc {A B} (f : A → B) l x : NoDup (f <$> l) → f x ∉ (f <$> l) → NoDup (f <$> (l ++ [x])).
Proof.
  intros Hl Hx. rewrite fmap_app. apply NoDup_app. split_and!; [done| |apply NoDup_singleton].
  intros y Hy Hs. simpl in Hs. apply list_elem_of_singleton in Hs as ->. done.
Qed.

Lemma NoDup_fmap_filter {A B} (f : A → B) (Q : A → Prop) `{!∀ x, Decision (Q x)} l :
  NoDup (f <$> l) → NoDup (f <$> filter Q l).
Proof.
  induction l as [|x l IH]; [done|]. rewrite fmap_cons, NoDup_cons. intros [Hx Hl].
  rewrite filter_cons. case_decide; [|by apply IH]. rewrite fmap_cons, NoDup_cons.
  split; [|by apply IH]. intros (y&Hy&Hin)%list_elem_of_fmap. apply Hx.
  apply list_elem_of_filter in Hin as [_ Hin]. apply list_elem_of_fmap. eauto.
Qed.

Lemma filter_empty {A B} (f : A → nat) (Q : A → Prop) `{!∀ x, Decision (Q x)} (g : A → B) b l :
  (∀ x, Q x ↔ g x = b) → f <$> filter Q l = [] → b ∉ (g <$> l).
Proof.
  intros HQ Hf (x&->&Hx)%list_elem_of_fmap. apply fmap_nil_inv in Hf.
  assert (x ∈ filter Q l) as Hin by (apply list_elem_of_filter; split; [by apply HQ|done]).
  rewrite Hf in Hin. set_solver.
Qed.

Lemma Forall_filtered {A} (Q R : A → Prop) `{!∀ x, Decision (R x)} l : Forall Q l → Forall Q (filter R l).
Proof.
  rewrite !Forall_forall. intros HQ x [_ Hx]%list_elem_of_filter. auto.
Qed.

Lemma Forall_snoc_2 {A} (Q : A → Prop) l x : Forall Q l → Q x → Forall Q (l ++ [x]).
Proof. intros. apply Forall_app. auto. Qed.

Lemma insert_repo_wf name d :
  wf_db d → repo_id <$> filter (λ r, repo_name r = name) (docker_repo_name d) = [] →
  wf_db (insert_repo name d).
Proof.
  intros [] Hsel. split; simpl; try done; auto using below_weaken.
  - apply NoDup_snoc; [done|]. by apply below_fresh.
  - apply NoDup_snoc; [done|]. eapply filter_empty; [|exact Hsel]. done.
  - apply Forall_snoc_2; [by apply below_weaken|simpl; lia].
Qed.

Lemma insert_location_wf repo offset d :
  wf_db d →
  loc_id <$> filter (λ l, loc_repo l = repo ∧ loc_offset l = offset) (docker_search_location d) = [] →
  wf_db (insert_location repo offset d).
Proof.
  intros [] Hsel. split; simpl; try done; auto using below_weaken.
  - apply NoDup_snoc; [done|]. by apply below_fresh.
  - apply NoDup_snoc; [done|]. eapply filter_empty; [|exact Hsel]. intros l. simpl. naive_solver.
  - apply Forall_snoc_2; [by apply below_weaken|simpl; lia].
  - eapply Forall_impl; [done|]. intros m. rewrite fmap_app. set_solver.
Qed.

Lemma insert_through_wf nid lid d : wf_db d → wf_db (insert_or_ignore_through nid lid d).
Proof.
  intros []. unfold insert_or_ignore_through. case_decide; [done|]. split; simpl; try done.
  apply NoDup_app. split_and!; [done| |apply NoDup_singleton]. set_solver.
Qed.

Lemma insert_metadata_wf cn loc etag version cascades d :
  wf_db d → loc ∈ (loc_id <$> docker_search_location d) →
  wf_db (insert_or_replace_metadata cn loc etag version cascades d).
Proof.
  intros [] Hloc. split; simpl; try done; auto using below_weaken.
  - apply NoDup_snoc; [by apply NoDup_fmap_filter|]. by apply below_fresh, Forall_filtered.
  - apply NoDup_snoc; [by apply NoDup_fmap_filter|]. simpl.
    intros (m&->&[Hm _]%list_elem_of_filter)%list_elem_of_fmap. apply Hm. by left.
  - apply NoDup_snoc; [by apply NoDup_fmap_filter|]. simpl.
    intros (m&Heq&[Hm _]%list_elem_of_filter)%list_elem_of_fmap. apply Hm. right. by simplify_eq.
  - apply Forall_snoc_2; [by apply below_weaken, Forall_filtered|simpl; lia].
  - apply Forall_snoc_2; [by apply Forall_filtered|done].
  - case_match; [by apply NoDup_fmap_filter|done].
  - case_match; [by apply NoDup_filter|done].
Qed.

Lemma insert_name_wf meta name d : wf_db d → wf_db (insert_or_replace_name meta name d).
Proof.
  intros []. split; simpl; try done; auto using below_weaken.
  apply NoDup_snoc; [by apply NoDup_fmap_filter|]. simpl.
  intros (n&->&[Hn _]%list_elem_of_filter)%list_elem_of_fmap. done.
Qed.

Lemma insert_quality_wf q d : wf_db d → wf_db (insert_quality q d).
Proof.
  intros []. unfold insert_quality. case_decide; [done|]. split; simpl; try done.
  apply NoDup_app. split_and!; [done| |apply NoDup_singleton]. set_solver.
Qed.

(** *** What the rows say *)

(** [K]: what is known of an image by its name, of the location and the version it
    is recorded for; [Q]: of each of its qualities.  (A quality of an image yet to
    come could be any image's.) *)
Record told_db (K : string → string → string → string → Prop) (Q : string → string → string → Prop)
    (d : DB) : Prop := {
  told_wf : wf_db d;
  told_images m l : m ∈ docker_search_metadata d → l ∈ docker_search_location d → loc_id l = meta_loc m →
    K (canonicalName m) (loc_repo l) (loc_offset l) (meta_version m);
  told_qualities r m : r ∈ docker_image_qualities d → m ∈ docker_search_metadata d →
    meta_id m = qual_meta r → Q (canonicalName m) (quality r) (kind r);
  told_later r : r ∈ docker_image_qualities d → (next_id d <= qual_meta r)%nat →
    ∀ name, Q name (quality r) (kind r)
}.

Lemma fmap_key_inj {A B} (f : A → B) l x y : NoDup (f <$> l) → x ∈ l → y ∈ l → f x = f y → x = y.
Proof.
  intros Hnd Hx Hy Hf. apply list_elem_of_lookup in Hx as [i Hi], Hy as [j Hj].
  assert (i = j) as ->; [|congruence].
  apply (NoDup_lookup (f <$> l) i j (f x) Hnd); rewrite list_lookup_fmap; [by rewrite Hi|].
  rewrite Hj. simpl. by rewrite Hf.
Qed.

Section Told.
Context (K : string → string → string → string → Prop) (Q : string → string → string → Prop).
Abbreviation told := (told_db K Q).

Lemma empty_db_told : told empty_db.
Proof using. split; [apply empty_db_wf|set_solver..]. Qed.

Lemma insert_repo_told name d :
  told d → repo_id <$> filter (λ r, repo_name r = name) (docker_repo_name d) = [] →
  told (insert_repo name d).
Proof using.
  intros [Hwf Hi Hq Hl] Hsel. split; simpl; auto using insert_repo_wf.
  intros r Hr Hid. apply Hl; [done|lia].
Qed.

Lemma insert_location_told repo offset d :
  told d →
  loc_id <$> filter (λ l, loc_repo l = repo ∧ loc_offset l = offset) (docker_search_location d) = [] →
  told (insert_location repo offset d).
Proof using.
  intros [Hwf Hi Hq Hl] Hsel. split; simpl; auto using insert_location_wf.
  - intros m l Hm [Hin|Hin]%elem_of_app; [by apply Hi|]. apply list_elem_of_singleton in Hin as ->.
    simpl. intros Hid. exfalso.
    pose proof (proj1 (Forall_forall _ _) (meta_located d Hwf) m Hm) as Hin. simpl in Hin.
    rewrite <-Hid in Hin. by apply (below_fresh _ _ _ (loc_below d Hwf)) in Hin.
  - intros r Hr Hid. apply Hl; [done|lia].
Qed.

Lemma insert_through_told nid lid d : told d → told (insert_or_ignore_through nid lid d).
Proof using.
  intros [Hwf Hi Hq Hl]. split; [by apply insert_through_wf|..];
    unfold insert_or_ignore_through; case_decide; done.
Qed.

Lemma insert_name_told meta name d : told d → told (insert_or_replace_name meta name d).
Proof using.
  intros [Hwf Hi Hq Hl]. split; simpl; auto using insert_name_wf.
  intros r Hr Hid. apply Hl; [done|lia].
Qed.

Lemma insert_metadata_told cn lid etag version cascades l d :
  told d → l ∈ docker_search_location d → loc_id l = lid → K cn (loc_repo l) (loc_offset l) version →
  told (insert_or_replace_metadata cn lid etag version cascades d).
Proof using.
  intros [Hwf Hi Hq Hlt] Hl <- HK.
  assert (∀ r, r ∈ docker_image_qualities (insert_or_replace_metadata cn (loc_id l) etag version cascades d) →
    r ∈ docker_image_qualities d) as Hqs.
  { intros r. simpl. destruct cascades; [|done]. by intros [_ ?]%list_elem_of_filter. }
  split.
  - apply insert_metadata_wf; [done|]. apply list_elem_of_fmap. eauto.
  - simpl. intros m l' [Hm|Hm]%elem_of_app Hl' Hid.
    + apply list_elem_of_filter in Hm as [_ Hm]. auto.
    + apply list_elem_of_singleton in Hm as ->. simpl in *.
      by rewrite (fmap_key_inj loc_id _ l' l (loc_ids d Hwf) Hl' Hl Hid).
  - intros r m Hr%Hqs. simpl. intros [Hm|Hm]%elem_of_app Hid.
    + apply list_elem_of_filter in Hm as [_ Hm]. auto.
    + apply list_elem_of_singleton in Hm as ->. simpl in *. apply Hlt; [done|lia].
  - intros r Hr%Hqs. simpl. intros Hid. apply Hlt; [done|lia].
Qed.

(** The row of an image's metadata, while its qualities are inserted. *)
Definition row_id (cn : string) (id : nat) (d : DB) : Prop :=
  (id < next_id d)%nat ∧ ∀ m, m ∈ docker_search_metadata d → meta_id m = id → canonicalName m = cn.

Lemma insert_quality_told cn id name k d :
  told d ∧ row_id cn id d → Q cn name k → told (insert_quality (mkQualityRow id name k) d) ∧
  row_id cn id (insert_quality (mkQualityRow id name k) d).
Proof using.
  intros [[Hwf Hi Hq Hl] [Hlt Hrow]] HQ. pose proof (insert_quality_wf (mkQualityRow id name k) d Hwf) as Hwf'.
  unfold insert_quality in *. case_decide; [done|]. split; [|done]. split; simpl; auto.
  - intros r m [Hr|Hr]%elem_of_app; [by apply Hq|]. apply list_elem_of_singleton in Hr as ->. simpl.
    intros Hm Hid. by rewrite (Hrow m Hm Hid).
  - intros r [Hr|Hr]%elem_of_app; [by apply Hl|]. apply list_elem_of_singleton in Hr as ->. simpl. lia.
Qed.
End Told.

Lemma told_db_mono (K K' : string → string → string → string → Prop) (Q Q' : string → string → string → Prop) d :
  (∀ n repo dir v, K n repo dir v → K' n repo dir v) → (∀ n q k, Q n q k → Q' n q k) →
  told_db K Q d → told_db K' Q' d.
Proof. intros HK HQ [Hwf Hi Hq Hl]. by split; auto. Qed.

Lemma wf_told d : wf_db d ↔ told_db (λ _ _ _ _, True) (λ _ _ _, True) d.
Proof. split; [by split|by intros []]. Qed.

Section Invariant.
Context {W : Type} `{Database} `{References} `{RegistryClient W}.
Context (K : string → string → string → string → Prop) (Q : string → string → string → Prop).
Abbreviation told := (told_db K Q).

(** What an insertion of an image has to say. *)
Definition tellable (sid : SourceID) (name : string) (qs : list Quality) : Prop :=
  K name (Repo (Location sid)) (Dir (Location sid)) (Format (sid_Version sid) Complete) ∧
  ∀ q, q ∈ qs → Q name (q_Name q) (q_Kind q).

Lemma scan_nil {A} (l : list A) : scan A l = [] → l = [].
Proof using. intros Hs. apply Permutation_nil. rewrite <-Hs. apply scan_perm. Qed.

(** What an [ensureInDB] leaves: its row was there, or was inserted. *)
Lemma ensure_cases (sel : DB → list nat) (ins : bool → DB → DB) (nc nc' : NameCache W) r :
  ensureInDB sel ins nc = (nc', r) →
  (nc_db nc' = nc_db nc ∧ ∀ id, r = Ok id → id ∈ sel (nc_db nc)) ∨
  (sel (nc_db nc) = [] ∧ (∃ b, nc_db nc' = ins b (nc_db nc)) ∧ r = Ok (next_id (nc_db nc))).
Proof using.
  unfold ensureInDB. cbv [mbind M_bind mret M_ret wrapping query statement].
  destruct (fault (nc_count nc)); [intros [= <- <-]; by left|]. simpl.
  destruct (scan nat (sel (nc_db nc))) as [|id l] eqn:Hs; simpl.
  - apply scan_nil in Hs. destruct (fault (S (nc_count nc))); intros [= <- <-]; [by left|right; eauto].
  - intros [= <- <-]. left. split; [done|]. intros id' [= <-].
    rewrite <-(scan_perm _ (sel (nc_db nc))), Hs. set_solver.
Qed.

Lemma preserves_ensure sel ins :
  (∀ b d, told d → sel d = [] → told (ins b d)) → preserves (W := W) told (ensureInDB sel ins).
Proof using.
  intros Hi nc nc' r Hr Hp. destruct (ensure_cases _ _ _ _ _ Hr) as [[-> _]|(Hs&[b ->]&_)]; auto.
Qed.

Lemma add_each_told id ins : preserves (W := W) told (add_each id ins).
Proof using.
  induction ins as [|n ins IH]; simpl; [apply preserves_ret|].
  apply preserves_bind; [|intros _; apply IH].
  apply preserves_wrapping, preserves_exec, insert_name_told.
Qed.

Lemma add_names_told id ins : preserves (W := W) told (dbAddNamesForID id ins).
Proof using.
  apply preserves_bind; [apply preserves_wrapping, preserves_nothing|intros _; apply add_each_told].
Qed.

Lemma qualities_told cn id qs :
  (∀ q, q ∈ qs → Q cn (q_Name q) (q_Kind q)) →
  preserves (W := W) (λ d, told d ∧ row_id cn id d) (insert_qualities id qs).
Proof using.
  induction qs as [|q qs IH]; simpl; intros HQ; [apply preserves_ret|].
  apply preserves_bind; [|intros _; apply IH; set_solver]. case_decide; [apply preserves_ret|].
  apply preserves_bind; [|intros _; apply preserves_ret].
  apply preserves_try, preserves_exec. intros d Hd. apply insert_quality_told; [done|]. set_solver.
Qed.

(** The location an image is recorded for exists when its metadata is inserted. *)
Lemma location_ensured repo dir nc nc' r id :
  ensureInDB (W := W) (λ d, loc_id <$> filter (λ l, loc_repo l = repo ∧ loc_offset l = dir)
                             (docker_search_location d)) (λ _, insert_location repo dir) nc = (nc', r) →
  r = Ok id →
  ∃ l, l ∈ docker_search_location (nc_db nc') ∧ loc_id l = id ∧ loc_repo l = repo ∧ loc_offset l = dir.
Proof using.
  intros Hr ->. destruct (ensure_cases _ _ _ _ _ Hr) as [[-> Hin]|(_&[_ ->]&[= ->])].
  - specialize (Hin id eq_refl). apply list_elem_of_fmap in Hin as (l&->&[[??] Hl]%list_elem_of_filter). eauto.
  - exists (mkLocation (next_id (nc_db nc)) repo dir). split; [|done]. apply elem_of_app. right. apply list_elem_of_here.
Qed.

Lemma metadata_told cn lid etag version l nc nc' r :
  ensureInDB (W := W) (λ d, meta_id <$> filter (λ m, canonicalName m = cn) (docker_search_metadata d))
    (insert_or_replace_metadata cn lid etag version) nc = (nc', r) →
  told (nc_db nc) → l ∈ docker_search_location (nc_db nc) → loc_id l = lid →
  K cn (loc_repo l) (loc_offset l) version →
  told (nc_db nc') ∧ ∀ id, r = Ok id → row_id cn id (nc_db nc').
Proof using.
  intros Hr Ht Hl Hid HK. pose proof (told_wf _ _ _ Ht) as Hwf.
  destruct (ensure_cases _ _ _ _ _ Hr) as [[-> Hin]|(Hs&[b ->]&->)].
  - split; [done|]. intros id Hok. specialize (Hin id Hok).
    apply list_elem_of_fmap in Hin as (m&->&[Hc Hm]%list_elem_of_filter). split.
    + by apply (proj1 (Forall_forall _ _) (meta_below _ Hwf) m Hm).
    + intros m' Hm' Heq. by rewrite (fmap_key_inj meta_id _ m' m (meta_ids _ Hwf) Hm' Hm Heq).
  - pose proof (insert_metadata_told K Q cn lid etag version b l _ Ht Hl Hid HK) as Ht'.
    split; [done|]. intros id [= <-]. split; [simpl; lia|]. intros m Hm Hmid.
    set (m0 := mkMeta (next_id (nc_db nc)) lid etag cn version).
    rewrite (fmap_key_inj meta_id _ m m0 (meta_ids _ (told_wf _ _ _ Ht')) Hm); [done| |done].
    simpl. set_solver.
Qed.

Lemma dbInsert_told sid in_ etag qs :
  tellable sid in_ qs → preserves (W := W) told (dbInsert sid in_ etag qs).
Proof using.
  intros [HK HQ]. unfold dbInsert. apply preserves_bind.
  { unfold parse_name. case_match; [apply preserves_ret|apply preserves_throw]. }
  intros ref. apply preserves_bind; [apply preserves_ensure; intros; by apply insert_repo_told|].
  intros nid. destruct (Location sid) as [repo dir]. simpl in HK.
  intros nc nc' r Hr Ht. cbv [mbind M_bind] in Hr.
  destruct (ensureInDB _ (λ _, insert_location repo dir) nc) as [nc1 r1] eqn:Hloc.
  assert (told (nc_db nc1)) as Ht1.
  { eapply (preserves_ensure _ (λ _, insert_location repo dir)); [|exact Hloc|done].
    intros. by apply insert_location_told. }
  destruct r1 as [lid|e]; [|by simplify_eq/=].
  destruct (location_ensured _ _ _ _ _ _ Hloc eq_refl) as (l&Hl&Hlid&HR&HD).
  unfold wrapping, exec, statement in Hr. destruct (fault (nc_count nc1)); [by simplify_eq/=|].
  simpl in Hr.
  match type of Hr with context [ensureInDB ?s ?i ?n] => set (nc2 := n) in *; destruct (ensureInDB s i nc2) as [nc3 r3] eqn:H3 end.
  destruct (metadata_told _ _ _ _ l _ _ _ H3) as [Ht3 Hrow].
  { by apply insert_through_told. }
  { simpl. unfold insert_or_ignore_through. by case_decide. }
  { done. }
  { by rewrite HR, HD. }
  destruct r3 as [id|e]; [|by simplify_eq/=].
  destruct (insert_qualities id qs nc3) as [nc4 r4] eqn:H4.
  destruct (qualities_told in_ id qs HQ _ _ _ H4) as [Ht4 _]; [auto|]. destruct r4; [|by simplify_eq/=].
  by apply (add_names_told id [in_] _ _ _ Hr).
Qed.

Lemma dbAddNames_told cn ins : preserves (W := W) told (dbAddNames cn ins).
Proof using.
  apply preserves_bind; [apply preserves_query|].
  intros [|id ids]; [apply preserves_throw|apply add_names_told].
Qed.

Context (host : string).

(** What the registry says of an image is recorded under its name on one host or
    the other. *)
Context (registry_told : ∀ name etag w w' md sid here,
  ImageMetadata name etag w = (w', Ok md) → SourceIDFromLabels (md_Labels md) = Ok sid →
  here = host ∨ here = md_Registry md →
  tellable sid (here +:+ "/" +:+ md_CanonicalName md) (qualitiesFromLabels (md_Labels md))).

Lemma record_told name etag w w' md sid :
  ImageMetadata name etag w = (w', Ok md) → SourceIDFromLabels (md_Labels md) = Ok sid →
  preserves (W := W) told (record_metadata host sid md).
Proof using registry_told.
  intros Hmd Hsid. apply preserves_bind.
  { case_match; [|apply preserves_ret].
    apply preserves_bind; [apply preserves_fetch|intros; apply preserves_ret]. }
  intros found. apply preserves_bind; [apply dbInsert_told; destruct found; eauto|]. intros _.
  apply preserves_bind; [apply preserves_try, dbAddNames_told|]. intros [|]; [apply preserves_ret|].
  case_match; [|apply preserves_throw].
  apply preserves_bind; [apply dbAddNames_told|intros; apply preserves_ret].
Qed.

Lemma preserves_fetch_bind {A} (P : DB → Prop) name etag (f : result registry_error Metadata → M W A) :
  (∀ w w' r, ImageMetadata name etag w = (w', r) → preserves P (f r)) → preserves P (fetch name etag ≫= f).
Proof using.
  intros Hf nc nc' r. cbv [mbind M_bind]. unfold fetch.
  destruct (ImageMetadata name etag (nc_world nc)) as [w r1] eqn:Hr1. intros Hr Hp.
  by eapply (Hf _ _ _ Hr1); [exact Hr|].
Qed.

Lemma GetSourceID_told in_ : preserves (W := W) told (GetSourceID host in_).
Proof using registry_told.
  apply preserves_bind.
  { apply preserves_try, preserves_bind; [apply preserves_query|]. intros [|[[? ?] ?] ?]; auto with keeps. }
  intros r. apply preserves_bind.
  { destruct r as [[m l]|[]]; auto with keeps. case_match; auto with keeps. }
  intros [[sid etag]|]; [case_match; [apply preserves_ret|]|];
    (apply preserves_fetch_bind; intros w w' [md|[]] Hmd); auto with keeps;
    case_match; auto with keeps; by eapply record_told.
Qed.

Lemma Warmup_told r : preserves (W := W) told (Warmup host r).
Proof using registry_told.
  unfold Warmup. destruct (ParseNamed r); [|apply preserves_throw].
  intros nc nc' res. destruct (AllTags r (nc_world nc)) as [w [ts|e]]; [|by intros [= <- _]].
  assert (preserves (W := W) told (warm_tags host r ts)) as Ht.
  { induction ts as [|t ts IH]; simpl; [apply preserves_ret|]. destruct (WithTag r t); [|done].
    apply preserves_bind; [apply preserves_try, GetSourceID_told|done]. }
  intros Hr Hp. by apply (Ht _ _ _ Hr).
Qed.

Lemma warm_all_told rs : preserves (W := W) told (warm_all host rs).
Proof using registry_told.
  induction rs as [|r rs IH]; simpl; [apply preserves_ret|].
  apply preserves_bind; [apply Warmup_told|done].
Qed.

Lemma cache_lookup_keeps (P : DB → Prop) sid : preserves (W := W) P (getImageNameFromCache sid).
Proof using.
  apply preserves_bind; [|intros cn; apply preserves_bind].
  - apply preserves_bind; [apply preserves_query_rows|]. intros [cns err].
    destruct (last cns), err; auto with keeps.
  - apply preserves_bind; [apply preserves_query_rows|]. intros [quals []]; auto with keeps.
  - intros; apply preserves_ret.
Qed.

Lemma after_harvest_told sid : preserves (W := W) told (getImageNameAfterHarvest host sid).
Proof using registry_told.
  apply preserves_bind.
  { apply preserves_try, preserves_bind; [apply preserves_try, GetSourceID_told|].
    intros []; [case_match|]; auto with keeps. }
  intros []; [apply cache_lookup_keeps|]. apply preserves_bind; [|intros _; apply cache_lookup_keeps].
  apply preserves_bind.
  { apply preserves_try, preserves_bind; [apply preserves_query_rows|]. intros [rs err].
    case_decide; [|destruct err]; auto with keeps. }
  intros r. apply preserves_bind; [apply warm_all_told|]. intros _.
  case_match; [apply preserves_ret|apply Warmup_told].
Qed.

Lemma GetArtifact_told sid : preserves (W := W) told (nc_GetArtifact host sid).
Proof using registry_told.
  apply preserves_bind; [|intros []; apply preserves_ret].
  apply preserves_bind; [apply preserves_try, cache_lookup_keeps|].
  intros [|e]; [apply preserves_ret|]. destruct (Cause e); try apply preserves_throw.
  apply preserves_wrapping, after_harvest_told.
Qed.

Lemma statements_keeps (P : DB → Prop) n : preserves (W := W) P (statements n).
Proof using.
  induction n; simpl; [apply preserves_ret|]. apply preserves_bind; [apply preserves_nothing|done].
Qed.

Lemma GroomDatabase_told current tables : preserves (W := W) told (GroomDatabase host current tables).
Proof using registry_told.
  unfold GroomDatabase. destruct current; [apply preserves_ret|].
  apply preserves_bind.
  { apply preserves_bind; [apply preserves_try, preserves_query_rows|]. intros; apply preserves_ret. }
  intros repos. apply preserves_bind.
  { apply preserves_bind; [auto with keeps|]. intros writable.
    apply preserves_bind; [|intros; auto 7 with keeps].
    apply preserves_try. destruct writable; [|auto with keeps].
    apply preserves_exec. intros _ _. apply empty_db_told. }
  intros gone. apply preserves_wrapping, preserves_bind; [apply preserves_nothing|]. intros _.
  apply preserves_bind; [|intros _; apply warm_all_told].
  case_match; [auto with keeps|]. apply preserves_bind; [apply statements_keeps|auto with keeps].
Qed.
End Invariant.

(** ** Lookups *)

Section Lookups.
Context {W : Type} `{Database} `{References} `{RegistryClient W}.

Lemma elem_of_scan {A} (x : A) l : x ∈ scan A l ↔ x ∈ l.
Proof. by rewrite scan_perm. Qed.

Lemma query_run {A} (f : DB → list A) (nc nc' : NameCache W) r :
  query f nc = (nc', r) → nc_db nc' = nc_db nc ∧ nc_world nc' = nc_world nc ∧
    (∀ l, r = Ok l → l = scan A (f (nc_db nc))) ∧
    (fault (nc_count nc) = None → r = Ok (scan A (f (nc_db nc)))).
Proof.
  unfold query, statement. destruct (fault (nc_count nc)); intros [= <- <-]; simpl; split_and!; naive_solver.
Qed.

Lemma joined_spec d n m l :
  (n, m, l) ∈ joined d ↔ n ∈ docker_search_name d ∧ m ∈ docker_search_metadata d ∧
    l ∈ docker_search_location d ∧ meta_id m = name_meta n ∧ loc_id l = meta_loc m.
Proof.
  unfold joined. rewrite list_elem_of_bind. setoid_rewrite list_elem_of_bind.
  setoid_rewrite list_elem_of_bind. setoid_rewrite list_elem_of_filter.
  setoid_rewrite list_elem_of_singleton. naive_solver.
Qed.

(** What is recorded of an image: its metadata and the location it is built from. *)
Definition recorded (d : DB) (sid : SourceID) (name : string) : Prop :=
  ∃ m l, m ∈ docker_search_metadata d ∧ l ∈ docker_search_location d ∧ loc_id l = meta_loc m ∧
    canonicalName m = name ∧ mkSourceLocation (loc_repo l) (loc_offset l) = Location sid ∧
    semverEqual (meta_version m) (Semv.String (sid_Version sid)) = Some true.

Definition qualities_of (d : DB) (name : string) (q : Quality) : Prop :=
  ∃ m r, m ∈ docker_search_metadata d ∧ canonicalName m = name ∧ r ∈ docker_image_qualities d ∧
    qual_meta r = meta_id m ∧ q = mkQuality (quality r) (kind r).

Lemma query_rows_run {A B} (f : DB → list A) (g : list A → list B * option nc_error) (nc nc' : NameCache W) r :
  query_rows f g nc = (nc', r) → nc_db nc' = nc_db nc ∧ nc_world nc' = nc_world nc ∧
    ∀ l, r = Ok (l, None) → g (scan A (f (nc_db nc))) = (l, None).
Proof.
  unfold query_rows, statement. destruct (fault (nc_count nc)).
  { intros [= <- <-]. by split_and!. }
  destruct (g _) as [l e]. intros [= <- <-]. split_and!; [done..|]. intros l' Heq.
  destruct (row_fault (nc_count nc)) as [[k t]|]; [case_match|]; by simplify_eq.
Qed.

Lemma of_version_elem version rows cn :
  cn ∈ fst (of_version version rows) → ∃ n m l, (n, m, l) ∈ rows ∧ canonicalName m = cn ∧
    semverEqual (meta_version m) version = Some true.
Proof.
  induction rows as [|[[n m] l] rows IH]; simpl; [by intros ?%elem_of_nil|].
  destruct (semverEqual (meta_version m) version) as [equal|] eqn:Heq; [|by intros ?%elem_of_nil].
  destruct (of_version version rows) as [cns e] eqn:Hrec. simpl in *. intros Hin.
  assert (cn ∈ cns → ∃ n' m' l', (n', m', l') ∈ (n, m, l) :: rows ∧ canonicalName m' = cn ∧
    semverEqual (meta_version m') version = Some true) as Hlater.
  { intros Hcn. destruct (IH Hcn) as (n'&m'&l'&?&?&?). exists n', m', l'. by split; [right|]. }
  destruct equal; [|by apply Hlater]. apply elem_of_cons in Hin as [-> |Hin]; [|by apply Hlater].
  exists n, m, l. split_and!; [left|done..].
Qed.

Lemma cache_lookup_sound sid (nc nc' : NameCache W) name quals :
  getImageNameFromCache sid nc = (nc', Ok (name, quals)) →
  nc_db nc' = nc_db nc ∧ recorded (nc_db nc) sid name ∧
  (∀ q, q ∈ quals ↔ qualities_of (nc_db nc) name q).
Proof.
  unfold getImageNameFromCache, dbQueryCNameforSourceID. cbv [mbind M_bind mret M_ret].
  destruct (query_rows (rows_of sid) _ nc) as [nc1 r1] eqn:Hq1.
  destruct (query_rows_run _ _ _ _ _ Hq1) as (Hd1&_&Hr1). destruct r1 as [[cns err]|]; [|done].
  destruct (last cns) as [cn|] eqn:Hlast, err; try done. specialize (Hr1 cns eq_refl).
  assert (cn ∈ fst (of_version (Semv.String (sid_Version sid)) (scan _ (rows_of sid (nc_db nc))))) as Hcn.
  { rewrite Hr1. simpl. apply last_Some in Hlast as [l' ->]. set_solver. }
  apply of_version_elem in Hcn as (n&m&l&Hin&Hc&Heq). rewrite elem_of_scan in Hin.
  unfold rows_of in Hin. apply list_elem_of_filter in Hin as [[HR HD] Hin].
  apply joined_spec in Hin as (_&Hm&Hl&_&Hml). unfold dbQueryQualsForCName. cbv [mbind M_bind mret M_ret].
  destruct (query_rows _ as_they_are nc1) as [nc2 r2] eqn:Hq2.
  destruct (query_rows_run _ _ _ _ _ Hq2) as (Hd2&_&Hr2). destruct r2 as [[qs [e|]]|]; [done| |done].
  intros [= <- <- <-]. specialize (Hr2 qs eq_refl). rewrite Hd1 in *. split_and!; [done| |].
  - exists m, l. split_and!; try done. simpl in HR, HD. by rewrite HR, HD; destruct (Location sid).
  - intros q. injection Hr2 as <-. rewrite elem_of_scan, list_elem_of_bind. setoid_rewrite list_elem_of_bind.
    setoid_rewrite list_elem_of_filter. setoid_rewrite list_elem_of_singleton. unfold qualities_of.
    naive_solver.
Qed.

Context (host : string).

(** An artifact is what the tables have for the source ID, however it was looked for. *)
Lemma GetArtifact_recorded sid (nc nc' : NameCache W) art :
  nc_GetArtifact host sid nc = (nc', Ok art) →
  recorded (nc_db nc') sid (ba_Name art) ∧ ba_Type art = "docker" ∧
  (∀ q, q ∈ Qualities art ↔ qualities_of (nc_db nc') (ba_Name art) q).
Proof.
  unfold nc_GetArtifact, getImageName. cbv [mbind M_bind mret M_ret].
  assert (∀ (nc0 nc1 : NameCache W) name quals, getImageNameFromCache sid nc0 = (nc1, Ok (name, quals)) →
    recorded (nc_db nc1) sid name ∧ ∀ q, q ∈ quals ↔ qualities_of (nc_db nc1) name q) as Hlook.
  { intros nc0 nc1 name quals Hl. destruct (cache_lookup_sound _ _ _ _ _ Hl) as (->&?&?). done. }
  unfold try_. destruct (getImageNameFromCache sid nc) as [nc1 [[name quals]|e]] eqn:E1.
  { intros [= <- <-]. destruct (Hlook _ _ _ _ E1). done. }
  destruct (Cause e); try done. unfold wrapping.
  destruct (getImageNameAfterHarvest host sid nc1) as [nc2 [[name quals]|e2]] eqn:E2; [|done].
  intros [= <- <-]. cbn [ba_Name ba_Type Qualities NewBuildArtifact].
  enough (∃ nc0, getImageNameFromCache sid nc0 = (nc2, Ok (name, quals))) as (nc0&Hl).
  { destruct (Hlook _ _ _ _ Hl). done. }
  revert E2. unfold getImageNameAfterHarvest. cbv [mbind M_bind].
  destruct (try_ (warmupSingle host sid) nc1) as [nc3 [[|]|]]; [eauto| |done].
  destruct (harvest host (Location sid) nc3) as [nc4 [|]]; [eauto|done].
Qed.

(** When the image of a source ID is not in the cache and cannot be had under
    the name it should have, its repository is not searched: the failure to
    fetch it counts as success, and the cache is asked again.  A harvest starts
    only when that name has an image of some other source. *)
Theorem harvest_only_on_mismatch (sid : SourceID) (nc : NameCache W) :
  let '(nc1, r) := GetSourceID host (versionTag host sid "") nc in
  getImageNameAfterHarvest host sid nc =
    match r with
    | Ok gsid =>
        if SourceID_Equal sid gsid then getImageNameFromCache sid nc1
        else (harvest host (Location sid);; getImageNameFromCache sid) nc1
    | Err _ => getImageNameFromCache sid nc1
    end.
Proof.
  unfold getImageNameAfterHarvest, warmupSingle, try_. cbv [mbind M_bind mret M_ret].
  destruct (GetSourceID host (versionTag host sid "") nc) as [nc1 [gsid|e]]; [|done].
  by destruct (SourceID_Equal sid gsid).
Qed.

(** What is asked of a cache besides insertions, whatever is answered to it. *)
Inductive nc_ask (nc nc' : NameCache W) : Prop :=
| ask_artifact sid r : nc_GetArtifact host sid nc = (nc', r) → nc_ask nc nc'
| ask_source name r : GetSourceID host name nc = (nc', r) → nc_ask nc nc'
| ask_labels name r : ImageLabels host name nc = (nc', r) → nc_ask nc nc'
| ask_warmup name r : Warmup host name nc = (nc', r) → nc_ask nc nc'
| ask_canonical name r : GetCanonicalName name nc = (nc', r) → nc_ask nc nc'
| ask_list r : ListSourceIDs nc = Some (nc', r) → nc_ask nc nc'
| ask_groom current tables r : GroomDatabase host current tables nc = (nc', r) → nc_ask nc nc'.

(** The states a cache goes through. *)
Inductive nc_step (nc nc' : NameCache W) : Prop :=
| step_insert sid name etag qs r : nc_Insert sid name etag qs nc = (nc', r) → nc_step nc nc'
| step_ask : nc_ask nc nc' → nc_step nc nc'.

(** The same with what it was told on the way, the last first. *)
Inductive nc_run : list (SourceID * string * list Quality) → NameCache W → NameCache W → Prop :=
| run_nil nc : nc_run [] nc nc
| run_insert told sid name etag qs nc nc1 nc2 r : nc_run told nc nc1 →
    nc_Insert sid name etag qs nc1 = (nc2, r) → nc_run ((sid, name, qs) :: told) nc nc2
| run_ask told nc nc1 nc2 : nc_run told nc nc1 → nc_ask nc1 nc2 → nc_run told nc nc2.

(** What an image was said to be: by an insertion, or by the labels the registry has
    for it under its name on one host or the other. *)
Inductive claimed (told : list (SourceID * string * list Quality)) : string → SourceID → Prop :=
| claimed_told sid name qs : (sid, name, qs) ∈ told → claimed told name sid
| claimed_registry asked etag w w' md sid here :
    ImageMetadata asked etag w = (w', Ok md) → SourceIDFromLabels (md_Labels md) = Ok sid →
    here = host ∨ here = md_Registry md → claimed told (here +:+ "/" +:+ md_CanonicalName md) sid.

(** What an image was said to have. *)
Inductive advised (told : list (SourceID * string * list Quality)) : string → Quality → Prop :=
| advised_told sid name qs q : (sid, name, qs) ∈ told → q ∈ qs → advised told name q
| advised_registry asked etag w w' md advs adv here :
    ImageMetadata asked etag w = (w', Ok md) →
    entries (md_Labels md) !! "com.opentable.sous.advisories" = Some advs → adv ∈ split_on ","%char advs →
    here = host ∨ here = md_Registry md →
    advised told (here +:+ "/" +:+ md_CanonicalName md) (mkQuality adv "advisory").

(** Texts that are the same, or of versions of the same precedence. *)
Definition same_version (a b : string) : Prop :=
  a = b ∨ ∃ v w, Parse a = Ok v ∧ Parse b = Ok w ∧ same_precedence v w.

Lemma semverEqual_spec a b : semverEqual a b = Some true ↔ same_version a b.
Proof.
  unfold semverEqual, same_version. case_decide as Hab; [naive_solver|].
  destruct (Parse a) as [v|], (Parse b) as [w|]; [|naive_solver..]. split.
  - intros [= Heq]. right. exists v, w. by rewrite <-Equals_spec.
  - intros [|(?&?&[= <-]&[= <-]&Heq)]; [done|]. by apply Equals_spec in Heq as ->.
Qed.

Lemma same_version_wf v w :
  wf v → wf w → same_version (Format v Complete) (Semv.String w) → same_precedence v w.
Proof.
  unfold same_version. intros Hv Hw [Heq|(v'&w'&Hpv&Hpw&Hp)].
  - pose proof (Parse_Format_Complete v Hv) as Hpv. rewrite Heq, Parse_String in Hpv by done.
    injection Hpv as ->. by apply Equals_spec, Equals_refl.
  - rewrite Parse_Format_Complete in Hpv by done. rewrite Parse_String in Hpw by done. by simplify_eq.
Qed.

(** What the tables can say after [told]. *)
Definition K_of told (name repo dir version : string) : Prop :=
  ∃ sid, claimed told name sid ∧ Location sid = mkSourceLocation repo dir ∧
    version = Format (sid_Version sid) Complete.
Definition Q_of told (name quality kind : string) : Prop := advised told name (mkQuality quality kind).

Lemma ask_told (K : string → string → string → string → Prop) (Q : string → string → string → Prop)
    (nc nc' : NameCache W) :
  (∀ name etag w w' md sid here,
    ImageMetadata name etag w = (w', Ok md) → SourceIDFromLabels (md_Labels md) = Ok sid →
    here = host ∨ here = md_Registry md →
    tellable K Q sid (here +:+ "/" +:+ md_CanonicalName md) (qualitiesFromLabels (md_Labels md))) →
  nc_ask nc nc' → told_db K Q (nc_db nc) → told_db K Q (nc_db nc').
Proof.
  intros Hreg Hask Ht.
  assert (∀ A (m : M W A) r, preserves (told_db K Q) m → m nc = (nc', r) → told_db K Q (nc_db nc')) as Huse.
  { intros A m r Hm Hr. by eapply Hm. }
  destruct Hask as [sid r Hr|name r Hr|name r Hr|name r Hr|name r Hr|r Hr|current tables r Hr].
  - eapply Huse; [by apply GetArtifact_told|exact Hr].
  - eapply Huse; [by apply GetSourceID_told|exact Hr].
  - eapply Huse; [|exact Hr].
    apply preserves_bind; [by apply preserves_wrapping, GetSourceID_told|intros; apply preserves_ret].
  - eapply Huse; [by apply Warmup_told|exact Hr].
  - eapply Huse; [|exact Hr]. apply preserves_bind; [|intros []; apply preserves_ret].
    apply preserves_bind; [apply preserves_query|]. intros [|[[? ?] ?] ?]; auto with keeps.
  - revert Hr. unfold ListSourceIDs, dbQueryAllSourceIds.
    destruct (query_rows _ as_they_are nc) as [nc2 r2] eqn:Hq.
    destruct (query_rows_run _ _ _ _ _ Hq) as (Hd&_).
    destruct r2 as [[rows err]|]; [destruct (mapM _ rows); [|done]|]; intros [= <- _]; by rewrite Hd.
  - eapply Huse; [by apply GroomDatabase_told|exact Hr].
Qed.

Lemma run_told told (nc nc' : NameCache W) :
  nc_run told nc nc' → nc_db nc = empty_db → told_db (K_of told) (Q_of told) (nc_db nc').
Proof.
  intros Hrun Hempty. induction Hrun as [nc|told sid name etag qs nc nc1 nc2 r _ IH Hins|told nc nc1 nc2 _ IH Hask].
  - rewrite Hempty. apply empty_db_told.
  - eapply dbInsert_told; [|exact Hins|].
    + split; [exists sid; split_and!; [econstructor; left|by destruct (Location sid)|done]|].
      intros q Hq. econstructor; [left|]. by destruct q.
    + eapply told_db_mono; [| |by apply IH].
      * intros n repo dir v (sid0&Hc&?&?). exists sid0. split_and!; [|done..].
        destruct Hc; [econstructor; by right|by econstructor].
      * intros n q k Hc. unfold Q_of in *. inv Hc; [econstructor; [by right|done]|by econstructor].
  - eapply ask_told; [|exact Hask|by apply IH]. intros asked etag w w' md sid here Hmd Hsid Hhere. split.
    + exists sid. split_and!; [by econstructor|by destruct (Location sid)|done].
    + intros q Hq. unfold qualitiesFromLabels in Hq.
      destruct (entries _ !! _) as [advs|] eqn:Hadv; [|by apply elem_of_nil in Hq].
      apply list_elem_of_fmap in Hq as (adv&->&Hin). by econstructor.
Qed.

(** C35.  The name cache never confuses images: however the tables were filled
    since they were made, and whatever the registry and the database answer on the
    way, the artifact returned for a source ID names an image that was inserted
    for, or is labelled in the registry with, a source ID of the same repository
    and offset and an equal version; and each of its qualities was given with an
    insertion of that name or is an advisory in the labels of that image.  No image
    of another source is returned, nor an advisory of another image.  (The comparison of versions is
    asked of the rows of the location; SQLite may ask it of others too, which adds
    errors of the kind [row_fault] has.) *)
Theorem GetArtifact_sound (told : list (SourceID * string * list Quality)) (sid : SourceID)
    (nc0 nc nc' : NameCache W) (art : BuildArtifact) :
  nc_db nc0 = empty_db → nc_run told nc0 nc → nc_GetArtifact host sid nc = (nc', Ok art) →
  (∃ sid0, claimed told (ba_Name art) sid0 ∧ Location sid0 = Location sid ∧
     same_version (Format (sid_Version sid0) Complete) (Semv.String (sid_Version sid)) ∧
     (wf (sid_Version sid0) → wf (sid_Version sid) → source_equiv sid0 sid)) ∧
  ba_Type art = "docker" ∧
  (∀ q, q ∈ Qualities art → advised told (ba_Name art) q) ∧
  (∀ q, q ∈ Qualities art ↔ qualities_of (nc_db nc') (ba_Name art) q).
Proof.
  intros Hempty Hrun Hart.
  destruct (GetArtifact_recorded _ _ _ _ Hart) as ((m&l&Hm&Hl&Hml&Hname&Hloc&Hver)&Htype&Hquals).
  destruct (run_told told nc0 nc' (run_ask _ _ _ _ Hrun (ask_artifact _ _ _ _ Hart)) Hempty)
    as [_ Himages Hqualities _].
  apply semverEqual_spec in Hver.
  destruct (Himages m l Hm Hl Hml) as (sid0&Hc&Hl0&Hv0). rewrite Hname in Hc. rewrite Hv0 in Hver.
  split; [|split; [done|split; [|done]]].
  - exists sid0. rewrite Hl0, Hloc. split_and!; [done..|]. intros Hwf0 Hwf.
    split; [by rewrite Hl0, Hloc|by apply same_version_wf].
  - intros q Hq. apply Hquals in Hq as (m'&r&Hm'&Hc'&Hr&Hid&->). rewrite <-Hc'.
    by apply (Hqualities r m').
Qed.

(** C36.  The tables always satisfy the constraints of the schema, and every
    image's location exists: keys are unique, a name belongs to one image, a
    location has one image of each version.  This holds however statements
    fail, in every state that a cache with such tables can reach. *)
Theorem name_cache_wf (nc nc' : NameCache W) :
  wf_db (nc_db nc) → rtc nc_step nc nc' → wf_db (nc_db nc').
Proof.
  rewrite !wf_told. intros Ht Hs. induction Hs as [nc|nc nc1 nc' Hstep _ IH]; [done|]. apply IH. clear IH.
  destruct Hstep as [sid name etag qs r Hr|Hask].
  - eapply dbInsert_told; [|exact Hr|done]. done.
  - by eapply ask_told; [|exact Hask|].
Qed.
End Lookups.

(** ** A build that is recorded is found *)

Section Recording.
Context {W : Type} `{Database} `{References} `{RegistryClient W}.
Context (no_fault : ∀ n, fault n = None).

Lemma statement_ok {A} (f : nat → DB → DB * A) (nc : NameCache W) :
  statement f nc = (mkNameCache (fst (f (nc_count nc) (nc_db nc))) (S (nc_count nc)) (nc_world nc),
                    Ok (snd (f (nc_count nc) (nc_db nc)))).
Proof using no_fault. unfold statement. rewrite no_fault. by destruct (f _ (nc_db nc)). Qed.

Lemma ensure_ok (sel : DB → list nat) (ins : bool → DB → DB) (nc : NameCache W) :
  ∃ n d id, ensureInDB sel ins nc = (mkNameCache d n (nc_world nc), Ok id) ∧
    ((d = nc_db nc ∧ id ∈ sel (nc_db nc)) ∨
     (sel (nc_db nc) = [] ∧ (∃ b, d = ins b (nc_db nc)) ∧ id = next_id (nc_db nc))).
Proof using no_fault.
  unfold ensureInDB, query. cbv [mbind M_bind mret M_ret wrapping]. rewrite statement_ok. simpl.
  destruct (scan nat (sel (nc_db nc))) as [|id l] eqn:Hs; simpl.
  - rewrite statement_ok. simpl. do 3 eexists. split; [done|]. right.
    apply scan_nil in Hs. eauto.
  - do 3 eexists. split; [done|]. left. split; [done|].
    rewrite <-(scan_perm _ (sel (nc_db nc))), Hs. set_solver.
Qed.

(** Tables equal but for the qualities. *)
Definition same_but_qualities (d d' : DB) : Prop :=
  docker_repo_name d' = docker_repo_name d ∧ docker_search_location d' = docker_search_location d ∧
  docker_search_metadata d' = docker_search_metadata d ∧ docker_search_name d' = docker_search_name d.

Lemma qualities_ok id qs (nc : NameCache W) :
  ∃ n d, insert_qualities id qs nc = (mkNameCache d n (nc_world nc), Ok ()) ∧
    same_but_qualities (nc_db nc) d ∧
    ∀ r, r ∈ docker_image_qualities d ↔ r ∈ docker_image_qualities (nc_db nc) ∨
      ∃ q, q ∈ qs ∧ ¬ (q_Kind q = "advisory" ∧ q_Name q = "") ∧ r = mkQualityRow id (q_Name q) (q_Kind q).
Proof using no_fault.
  revert nc. induction qs as [|q qs IH]; intros nc; cbn [insert_qualities].
  { exists (nc_count nc), (nc_db nc). split; [by destruct nc|]. split; [by split_and!|]. set_solver. }
  cbv [mbind M_bind mret M_ret]. case_decide as Hq.
  - destruct (IH nc) as (n&d&->&Hs&Hr). eexists _, _. split; [done|]. split; [done|].
    intros r. rewrite Hr. setoid_rewrite elem_of_cons. naive_solver.
  - unfold try_, exec. rewrite statement_ok. simpl.
    match goal with |- context [insert_qualities id qs ?x] => destruct (IH x) as (n&d&->&Hs&Hr) end.
    eexists _, _. split; [done|]. simpl in Hs, Hr.
    set (row := mkQualityRow id (q_Name q) (q_Kind q)) in *.
    assert (same_but_qualities (nc_db nc) (insert_quality row (nc_db nc)) ∧
      ∀ r, r ∈ docker_image_qualities (insert_quality row (nc_db nc)) ↔
        r ∈ docker_image_qualities (nc_db nc) ∨ r = row) as [Hs1 Hr1].
    { unfold insert_quality. case_decide; [split; [by split_and!|naive_solver]|].
      split; [by split_and!|]. intros r. simpl. rewrite elem_of_app, list_elem_of_singleton. done. }
    split.
    + unfold same_but_qualities in *. destruct Hs as (->&->&->&->). done.
    + intros r. rewrite Hr, Hr1. setoid_rewrite elem_of_cons. naive_solver.
Qed.

(** What is left after an insertion under a name the cache did not have. *)
Lemma dbInsert_fresh sid in_ etag qs (nc : NameCache W) :
  is_Some (ParseNamed in_) → in_ ∉ (canonicalName <$> docker_search_metadata (nc_db nc)) →
  ∃ n d m l row, dbInsert sid in_ etag qs nc = (mkNameCache d n (nc_world nc), Ok ()) ∧
    l ∈ docker_search_location d ∧ m ∈ docker_search_metadata d ∧ row ∈ docker_search_name d ∧
    loc_id l = meta_loc m ∧ meta_id m = name_meta row ∧ name_name row = in_ ∧
    mkSourceLocation (loc_repo l) (loc_offset l) = Location sid ∧
    canonicalName m = in_ ∧ meta_etag m = etag ∧ meta_version m = Format (sid_Version sid) Complete ∧
    (∀ m', m' ∈ docker_search_metadata d → m' = m ∨ m' ∈ docker_search_metadata (nc_db nc)) ∧
    ∀ q, q ∈ qs → ¬ (q_Kind q = "advisory" ∧ q_Name q = "") →
      mkQualityRow (meta_id m) (q_Name q) (q_Kind q) ∈ docker_image_qualities d.
Proof using no_fault.
  intros [ref Href] Hfresh. unfold dbInsert, parse_name. rewrite Href. cbv [mbind M_bind mret M_ret].
  match goal with |- context [ensureInDB ?s ?i nc] =>
    destruct (ensure_ok s i nc) as (n1&d1&nid&->&Hd1) end.
  destruct (Location sid) as [repo dir] eqn:Hloc.
  match goal with |- context [ensureInDB ?s (λ _, insert_location repo dir) ?x] =>
    destruct (ensure_ok s (λ _, insert_location repo dir) x) as (n2&d2&lid&->&Hd2) end. simpl in Hd2.
  assert (docker_search_metadata d2 = docker_search_metadata (nc_db nc)) as Hmeta.
  { destruct Hd1 as [[-> _]|(_&[_ ->]&_)], Hd2 as [[-> _]|(_&[_ ->]&_)]; done. }
  assert (∃ l, l ∈ docker_search_location d2 ∧ loc_id l = lid ∧ loc_repo l = repo ∧ loc_offset l = dir)
    as (l&Hl&Hlid&HR&HD).
  { destruct Hd2 as [[-> Hin]|(_&[_ ->]&->)].
    - apply list_elem_of_fmap in Hin as (l&->&[[??] ?]%list_elem_of_filter). eauto.
    - exists (mkLocation (next_id d1) repo dir). split_and!; try done. simpl. set_solver. }
  unfold wrapping, exec. rewrite statement_ok. simpl.
  set (d3 := insert_or_ignore_through nid lid d2).
  assert (docker_search_metadata d3 = docker_search_metadata (nc_db nc) ∧
          docker_search_location d3 = docker_search_location d2) as [Hm3 Hl3].
  { unfold d3, insert_or_ignore_through. by case_decide. }
  match goal with |- context [ensureInDB ?s ?i ?x] =>
    destruct (ensure_ok s i x) as (n4&d4&id&->&Hd4) end. simpl in Hd4.
  destruct Hd4 as [[_ Hin]|(_&[b Hd4]&Hid)].
  { exfalso. apply Hfresh. rewrite Hm3 in Hin.
    apply list_elem_of_fmap in Hin as (m&_&[Hc Hm]%list_elem_of_filter). apply list_elem_of_fmap. eauto. }
  match goal with |- context [insert_qualities id qs ?x] =>
    destruct (qualities_ok id qs x) as (n5&d5&->&(_&Hl5&Hm5&_)&Hq5) end.
  simpl in Hl5, Hm5, Hq5. unfold dbAddNamesForID. cbn [add_each]. cbv [mbind M_bind mret M_ret wrapping exec].
  rewrite !statement_ok. simpl.
  eexists _, _, (mkMeta id lid etag in_ (Format (sid_Version sid) Complete)), l, (mkName (next_id d5) id in_).
  split; [done|]. simpl. rewrite Hl5, Hm5, Hd4. simpl. rewrite Hl3, Hm3.
  split_and!; try done.
  - rewrite Hid. apply elem_of_app. right. by apply list_elem_of_singleton.
  - apply elem_of_app. right. by apply list_elem_of_singleton.
  - by rewrite HR, HD.
  - intros m' [Hm'|Hm']%elem_of_app; [right|left].
    + by apply list_elem_of_filter in Hm' as [_ ?].
    + apply list_elem_of_singleton in Hm'. by rewrite Hm', Hid.
  - intros q Hq Hk. apply Hq5. right. eauto.
Qed.

(** Recording a name again does not replace what it stands for: the cache
    keeps the version, revision and location first recorded, and the qualities
    of the new image are added to those of the old, so that an image rebuilt
    cleanly under its version tag keeps the advisories of the dirty build. *)
Theorem known_name_accumulates (sid : SourceID) (in_ etag : string) (qs : list Quality) (nc : NameCache W) :
  is_Some (ParseNamed in_) → in_ ∈ (canonicalName <$> docker_search_metadata (nc_db nc)) →
  ∃ nc', nc_Insert sid in_ etag qs nc = (nc', Ok ()) ∧
    docker_search_metadata (nc_db nc') = docker_search_metadata (nc_db nc) ∧
    ∀ q, qualities_of (nc_db nc) in_ q → qualities_of (nc_db nc') in_ q.
Proof using no_fault.
  intros [ref Href] Hknown. unfold nc_Insert, dbInsert, parse_name. rewrite Href.
  cbv [mbind M_bind mret M_ret].
  match goal with |- context [ensureInDB ?s ?i nc] =>
    destruct (ensure_ok s i nc) as (n1&d1&nid&->&Hd1) end.
  destruct (Location sid) as [repo dir].
  match goal with |- context [ensureInDB ?s (λ _, insert_location repo dir) ?x] =>
    destruct (ensure_ok s (λ _, insert_location repo dir) x) as (n2&d2&lid&->&Hd2) end. simpl in Hd2.
  assert (docker_search_metadata d2 = docker_search_metadata (nc_db nc) ∧
          docker_image_qualities d2 = docker_image_qualities (nc_db nc)) as [Hmeta Hqual].
  { destruct Hd1 as [[-> _]|(_&[_ ->]&_)], Hd2 as [[-> _]|(_&[_ ->]&_)]; done. }
  unfold wrapping, exec. rewrite statement_ok. simpl.
  set (d3 := insert_or_ignore_through nid lid d2).
  assert (docker_search_metadata d3 = docker_search_metadata (nc_db nc) ∧
          docker_image_qualities d3 = docker_image_qualities (nc_db nc)) as [Hm3 Hq3].
  { unfold d3, insert_or_ignore_through. by case_decide. }
  match goal with |- context [ensureInDB ?s ?i ?x] =>
    destruct (ensure_ok s i x) as (n4&d4&id&->&Hd4) end. simpl in Hd4.
  destruct Hd4 as [[-> _]|(Hnone&_&_)].
  2: { exfalso. rewrite Hm3 in Hnone. apply list_elem_of_fmap in Hknown as (m&->&Hm).
       apply fmap_nil_inv in Hnone.
       assert (m ∈ filter (λ m', canonicalName m' = canonicalName m) (docker_search_metadata (nc_db nc)))
         as Hin by (by apply list_elem_of_filter).
       rewrite Hnone in Hin. set_solver. }
  match goal with |- context [insert_qualities id qs ?x] =>
    destruct (qualities_ok id qs x) as (n5&d5&->&(_&_&Hm5&_)&Hq5) end.
  simpl in Hm5, Hq5. unfold dbAddNamesForID. cbn [add_each]. cbv [mbind M_bind mret M_ret wrapping exec].
  rewrite !statement_ok. simpl. eexists. split; [done|]. simpl.
  split; [by rewrite Hm5, Hm3|]. intros q (m&r&Hm&Hc&Hr&Hid&->). exists m, r.
  unfold insert_or_replace_name. simpl. rewrite Hm5, Hm3, Hq5, Hq3. by split_and!; auto.
Qed.

Context (no_row_fault : ∀ n, row_fault n = None) (host : string).

Lemma query_rows_ok {A B} (f : DB → list A) (g : list A → list B * option nc_error) (nc : NameCache W) :
  query_rows f g nc = (mkNameCache (nc_db nc) (S (nc_count nc)) (nc_world nc), Ok (g (scan A (f (nc_db nc))))).
Proof using no_fault no_row_fault.
  unfold query_rows. rewrite statement_ok. simpl. destruct (g _) as [l e]. simpl. by rewrite no_row_fault.
Qed.

Lemma semverEqual_parsed a b :
  is_ok (Parse b) = true → is_ok (Parse a) = true → semverEqual a b ≠ None.
Proof using. unfold semverEqual. case_decide; [done|]. by destruct (Parse a), (Parse b). Qed.

Lemma of_version_all version rows n m l :
  (∀ n m l, (n, m, l) ∈ rows → semverEqual (meta_version m) version ≠ None) →
  (n, m, l) ∈ rows → semverEqual (meta_version m) version = Some true →
  ∃ cns, of_version version rows = (cns, None) ∧ canonicalName m ∈ cns.
Proof using.
  induction rows as [|[[n' m'] l'] rows IH]; intros Hall Hin Hm; [by apply elem_of_nil in Hin|]. simpl.
  assert (∃ cns, of_version version rows = (cns, None)) as [cns Hcns].
  { clear -Hall. assert (∀ n m l, (n, m, l) ∈ rows → semverEqual (meta_version m) version ≠ None) as Hrows.
    { intros n0 m0 l0 Hr0. apply (Hall n0 m0 l0). by right. }
    clear Hall. induction rows as [|[[n0 m0] l0] rows IH]; simpl; [eauto|].
    destruct (semverEqual (meta_version m0) version) eqn:He; [|by destruct (Hrows n0 m0 l0 (list_elem_of_here _ _))].
    destruct IH as [cns ->]; [|eauto]. intros n1 m1 l1 Hr1. apply (Hrows n1 m1 l1). by right. }
  apply elem_of_cons in Hin as [[= <- <- <-]|Hin].
  - rewrite Hm, Hcns. eexists. split; [done|left].
  - destruct (semverEqual (meta_version m') version) as [equal|] eqn:He;
      [|by destruct (Hall n' m' l' (list_elem_of_here _ _))].
    destruct IH as (cns'&Hof&Hin'); [|done..|].
    { intros n0 m0 l0 Hr0. apply (Hall n0 m0 l0). by right. }
    rewrite Hof. eexists. split; [done|]. destruct equal; [by right|done].
Qed.

(** A build that is recorded is found again, without asking the registry:
    after an insertion under a new name the source ID has an artifact, the name
    is recorded for it with the advisories given, and is its own canonical name. *)
Theorem Insert_then_found (sid : SourceID) (in_ etag : string) (qs : list Quality) (nc : NameCache W) :
  wf_db (nc_db nc) → wf (sid_Version sid) → is_Some (ParseNamed in_) →
  in_ ∉ (canonicalName <$> docker_search_metadata (nc_db nc)) →
  (∀ m, m ∈ docker_search_metadata (nc_db nc) → is_ok (Parse (meta_version m)) = true) →
  ∃ nc', nc_Insert sid in_ etag qs nc = (nc', Ok ()) ∧ recorded (nc_db nc') sid in_ ∧
    (∀ q, q ∈ qs → ¬ (q_Kind q = "advisory" ∧ q_Name q = "") → qualities_of (nc_db nc') in_ q) ∧
    snd (GetCanonicalName in_ nc') = Ok in_ ∧
    ∃ nc'' art, nc_GetArtifact host sid nc' = (nc'', Ok art) ∧ nc_world nc'' = nc_world nc.
Proof using no_fault no_row_fault.
  intros Hwf Hv Hp Hfresh Hparse.
  destruct (dbInsert_fresh sid in_ etag qs nc Hp Hfresh)
    as (n&d&m&l&row&Hins&Hl&Hm&Hrow&Hlm&Hmr&Hrn&Hsl&Hcn&_&Hver&Hmeta&Hqs).
  unfold nc_Insert. rewrite Hins. eexists. split; [done|]. simpl.
  pose proof (proj1 (wf_told _) Hwf) as Ht.
  apply (dbInsert_told _ _ sid in_ etag qs (conj I (λ _ _, I)) _ _ _ Hins) in Ht. apply wf_told in Ht as [_ _ _ Hlids _ _ _ Hmids _ _ _ _ Hnames _].
  simpl in Hlids, Hmids, Hnames.
  assert (semverEqual (meta_version m) (Semv.String (sid_Version sid)) = Some true) as Hse.
  { unfold semverEqual. rewrite Hver, Semv_String_full, Format_spec, decide_True by auto. done. }
  split_and!.
  - exists m, l. done.
  - intros q Hq Hk. exists m, (mkQualityRow (meta_id m) (q_Name q) (q_Kind q)).
    split_and!; auto. by destruct q.
  - unfold GetCanonicalName, dbQueryOnName, query. cbv [mbind M_bind mret M_ret].
    rewrite statement_ok. simpl.
    match goal with |- context [scan _ ?rows] => set (rs := rows) end.
    assert (∀ r, r ∈ rs ↔ r = (row, m, l)) as Hrs.
    { intros [[n' m'] l']. unfold rs. rewrite list_elem_of_filter, joined_spec. simpl. split.
      - intros (Hn'&Hin&Hm'&Hl'&H1'&H2').
        assert (n' = row) as -> by (eapply fmap_key_inj; [exact Hnames|done..|congruence]).
        assert (m' = m) as -> by (eapply fmap_key_inj; [exact Hmids|done..|congruence]).
        assert (l' = l) as -> by (eapply fmap_key_inj; [exact Hlids|done..|congruence]). done.
      - intros [= -> -> ->]. done. }
    destruct (scan _ rs) as [|[[n' m'] l'] rest] eqn:Hsc.
    + apply scan_nil in Hsc. exfalso. specialize (proj2 (Hrs (row, m, l)) eq_refl). rewrite Hsc. set_solver.
    + assert ((n', m', l') ∈ rs) as [= -> -> ->]%Hrs by (rewrite <-(elem_of_scan _ rs), Hsc; set_solver).
      simpl. by rewrite Hcn.
  - assert (∃ cns, of_version (Semv.String (sid_Version sid)) (scan _ (rows_of sid d)) = (cns, None) ∧ in_ ∈ cns)
      as (cns&Hof&Hcns).
    { rewrite <-Hcn. apply (of_version_all _ _ row m l); [| |exact Hse].
      - intros n' m' l'. rewrite elem_of_scan. unfold rows_of.
        intros [_ (_&Hm'&_)%joined_spec]%list_elem_of_filter. apply semverEqual_parsed.
        + rewrite Parse_String by done. done.
        + destruct (Hmeta m' Hm') as [-> |Hold]; [by rewrite Hver, Parse_Format_Complete|by apply Hparse].
      - rewrite elem_of_scan. unfold rows_of. rewrite list_elem_of_filter, joined_spec. simpl.
        by rewrite <-Hsl. }
    unfold nc_GetArtifact, getImageName, getImageNameFromCache, dbQueryCNameforSourceID, try_.
    cbv [mbind M_bind mret M_ret]. rewrite query_rows_ok. simpl. rewrite Hof.
    destruct (last cns) as [cn|] eqn:Hlast.
    + unfold dbQueryQualsForCName. cbv [mbind M_bind mret M_ret]. rewrite query_rows_ok. simpl. eauto.
    + apply last_None in Hlast as ->. by apply elem_of_nil in Hcns.
Qed.
End Recording.

(** ** An example *)

(** A database in order that never fails, references that are all well-formed,
    and a registry with one image. *)
#[local] Instance plain_database : Database :=
  {| scan := λ A l, l; scan_perm := λ A l, reflexivity l; cascade := λ _, false; fault := λ _, None;
     row_fault := λ _, None |}.
#[local] Instance plain_references : References :=
  {| ParseNamed := λ s, Some s; WithTag := λ r t, Some (r +:+ ":" +:+ t); Digested := λ _, false |}.
Definition ex_metadata : Metadata :=
  mkMetadata "docker.otenv.com" (Some (<["com.opentable.sous.advisories" := "dirty workspace"]> (Labels ex_sid)))
    None "sha256:0a1b" "wackadoo/nested/there@sha256:0a1b" ["wackadoo/nested/there:1.2.3-rc.1"] [].
#[local] Instance ex_registry : RegistryClient unit := {|
  ImageMetadata name _ w :=
    (w, if decide (name = "docker.otenv.com/wackadoo/nested/there:1.2.3-rc.1") then Ok ex_metadata
        else Err (RegistryError (Lit "not found")));
  AllTags _ w := (w, Ok [])
|}.
Definition ex_cache : NameCache unit := mkNameCache empty_db 0 tt.
Definition ex_host : string := "docker.otenv.com".

#[local] Abbreviation ex_artifact := (nc_GetArtifact ex_host ex_sid ex_cache).

(** A name that is not in the cache is found in the registry, under the name of
    its digest, with the advisories of its labels. *)
Example ex_artifact_found :
  match snd ex_artifact with
  | Ok art => (ba_Name art, q_Name <$> Qualities art)
  | Err _ => ("", [])
  end = ("docker.otenv.com/wackadoo/nested/there@sha256:0a1b", ["dirty workspace"]).
Proof. vm_compute. reflexivity. Qed.

(** Another version is inserted, and this one is found in the registry. *)
Definition other_sid : SourceID := mkSourceID (Location ex_sid) (mkVersion 1 2 2 "" "" "M.m.p").
Definition other_name : string := "docker.otenv.com/wackadoo/nested/there:1.2.2".
Definition other_cache : NameCache unit := fst (nc_Insert other_sid other_name "" [] ex_cache).
#[local] Abbreviation ex_artifact_after := (nc_GetArtifact ex_host ex_sid other_cache).

Example ex_artifact_after_found :
  match snd ex_artifact_after with
  | Ok art => (ba_Name art, q_Name <$> Qualities art)
  | Err _ => ("", [])
  end = ("docker.otenv.com/wackadoo/nested/there@sha256:0a1b", ["dirty workspace"]).
Proof. vm_compute. reflexivity. Qed.

Lemma GetArtifact_sound_witness :
  match snd ex_artifact_after with
  | Ok art =>
      ba_Name art ≠ other_name ∧
      (∃ sid0, claimed ex_host [(other_sid, other_name, [])] (ba_Name art) sid0 ∧ Location sid0 = Location ex_sid) ∧
      advised ex_host [(other_sid, other_name, [])] (ba_Name art) (mkQuality "dirty workspace" "advisory")
  | Err _ => False
  end.
Proof.
  pose proof ex_artifact_after_found as Hf.
  destruct ex_artifact_after as [nc' r] eqn:Hr. cbn [snd] in *. destruct r as [art|e]; [|discriminate Hf].
  destruct (GetArtifact_sound ex_host [(other_sid, other_name, [])] ex_sid ex_cache other_cache nc' art)
    as ((sid0&Hc&Hl&_)&_&Hq&_).
  - reflexivity.
  - apply (run_insert ex_host [] other_sid other_name "" [] ex_cache ex_cache other_cache
      (snd (nc_Insert other_sid other_name "" [] ex_cache))); [apply run_nil|]. vm_compute. reflexivity.
  - exact Hr.
  - injection Hf as Hn Hadv. split; [|split].
    + rewrite Hn. discriminate.
    + exists sid0. split; [exact Hc|exact Hl].
    + destruct art as [name t [|[q k] [|]]]; try discriminate Hadv. apply Hq.
      injection Hadv as ->. vm_compute in Hr. injection Hr as _ _ _ <-. left.
Defined.

Lemma name_cache_wf_witness : wf_db (nc_db (fst ex_artifact)).
Proof.
  apply (name_cache_wf ex_host ex_cache (fst ex_artifact)).
  - apply empty_db_wf.
  - apply rtc_once, step_ask, (ask_artifact ex_host _ _ ex_sid (snd ex_artifact)). by destruct ex_artifact.
Defined.

Lemma ex_sid_wf : wf (sid_Version ex_sid).
Proof. split; try done; apply (bool_decide_unpack _); vm_compute; exact I. Qed.

Lemma Insert_then_found_witness :
  let name := "docker.otenv.com/wackadoo/nested/there:1.2.3-rc.1" in
  ∃ nc', nc_Insert ex_sid name "" [mkQuality "dirty workspace" "advisory"] ex_cache = (nc', Ok ()) ∧
    snd (GetCanonicalName name nc') = Ok name ∧
    ∃ nc'' art, nc_GetArtifact ex_host ex_sid nc' = (nc'', Ok art) ∧ nc_world nc'' = tt.
Proof.
  intros name. destruct (@Insert_then_found unit plain_database plain_references ex_registry (λ _, eq_refl) (λ _, eq_refl) ex_host ex_sid name ""
    [mkQuality "dirty workspace" "advisory"] ex_cache) as (nc'&H1&_&_&H2&H3).
  - apply empty_db_wf.
  - exact ex_sid_wf.
  - by eexists.
  - simpl. intros Hin. by apply elem_of_nil in Hin.
  - simpl. intros m Hin. by apply elem_of_nil in Hin.
  - exists nc'. split; [exact H1|]. split; [exact H2|exact H3].
Defined.

(** A dirty build and then a clean one of the same version: the advisory stays. *)
Definition dirty_cache : NameCache unit :=
  fst (nc_Insert ex_sid "docker.otenv.com/wackadoo:1.2.3" "" [mkQuality "dirty workspace" "advisory"] ex_cache).

Lemma known_name_accumulates_witness :
  let name := "docker.otenv.com/wackadoo:1.2.3" in
  ∃ nc', nc_Insert ex_sid name "" [] dirty_cache = (nc', Ok ()) ∧
    qualities_of (nc_db nc') name (mkQuality "dirty workspace" "advisory").
Proof.
  intros name. destruct (@known_name_accumulates unit plain_database plain_references (λ _, eq_refl) ex_sid name "" [] dirty_cache)
    as (nc'&H1&_&H2).
  - by eexists.
  - apply (bool_decide_unpack _). vm_compute. exact I.
  - exists nc'. split; [exact H1|]. apply H2.
    exists (mkMeta 3 2 "" name "1.2.3-rc.1+5b8e7a"), (mkQualityRow 3 "dirty workspace" "advisory").
    split_and!; try reflexivity; apply (bool_decide_unpack _); vm_compute; exact I.
Defined.

(** A revision label that is not the metadata of a version poisons the cache: the
    version recorded does not parse, and listing the source IDs panics. *)
Example poisoned_list :
  let sid := mkSourceID (mkSourceLocation "github.com/user/x" "") (mkVersion 1 0 0 "" "not_semver" "") in
  ListSourceIDs (fst (nc_Insert sid "docker.otenv.com/x:1.0.0" "" [] ex_cache)) = None.
Proof. vm_compute. reflexivity. Qed.
