(* ===== verification/SingIds.v ===== *)
(** * Names in Singularity (ext/singularity/recti-agent.go, deployer.go;
    lib/deploymentid.go)

    The request ID of a deployment and the deploy ID of one of its versions:
    sanitised, and cut to the lengths Singularity allows. *)

From S2P Require Import Prelude GoStrings Md5 Semv Ids.
#[local] Open Scope string_scope.
#[local] Open Scope nat_scope.
#[local] Open Scope list_scope.

(** ** Bytes in hexadecimal, and runes *)

Definition hex_digit (n : nat) : ascii :=
  ascii_of_nat (if n <? 10 then 48 + n else 87 + n).

Fixpoint hex (bs : list ascii) : string :=
  match bs with
  | [] => ""
  | b :: bs' =>
      let n := nat_of_ascii b in
      String.String (hex_digit (n / 16)) (String.String (hex_digit (n mod 16)) (hex bs'))
  end.

Definition in_range (lo hi : nat) (o : option ascii) : bool :=
  match o with Some c => (lo <=? nat_of_ascii c) && (nat_of_ascii c <=? hi) | None => false end.
Definition nth_byte (n : nat) (s : string) : option ascii := String.get n s.

(** How many bytes the first rune of a non-empty string takes: a malformed
    sequence is one rune for each byte. *)
Definition rune_width (s : string) : nat :=
  match s with
  | "" => 0
  | String.String c r =>
      let b := nat_of_ascii c in
      let cont n := in_range 128 191 (nth_byte n r) in
      if b <? 128 then 1
      else if (194 <=? b) && (b <=? 223) then (if cont 0 then 2 else 1)
      else if (224 <=? b) && (b <=? 239) then
        (let lo := if b =? 224 then 160 else 128 in
         let hi := if b =? 237 then 159 else 191 in
         if in_range lo hi (nth_byte 0 r) && cont 1 then 3 else 1)
      else if (240 <=? b) && (b <=? 244) then
        (let lo := if b =? 240 then 144 else 128 in
         let hi := if b =? 244 then 143 else 191 in
         if in_range lo hi (nth_byte 0 r) && cont 1 && cont 2 then 4 else 1)
      else 1
  end.

(** [illegalDeployIDChars], the complement of [a-zA-Z0-9_]. *)
Definition legal_deploy_char (c : ascii) : bool :=
  is_letter c || is_digit c || bool_decide (c = "_"%char).

(** [illegalDeployIDChars.ReplaceAllString(in, repl)]; [skip] bytes of a replaced
    rune are still to be passed over. *)
Fixpoint replace_illegal (repl : string) (skip : nat) (s : string) : string :=
  match s with
  | "" => ""
  | String.String c s' =>
      match skip with
      | S k => replace_illegal repl k s'
      | 0 =>
          if legal_deploy_char c then String.String c (replace_illegal repl 0 s')
          else repl +:+ replace_illegal repl (rune_width s - 1) s'
      end
  end.

Definition SanitizeDeployID (s : string) : string := replace_illegal "_" 0 s.
Definition StripDeployID (s : string) : string := replace_illegal "" 0 s.

Definition stripMetadata (s : string) : string := default "" (head (split_on "+"%char s)).

Definition maxDeployIDLen : nat := 49.
Definition maxRequestIDLen : nat := 99.
Definition maxVersionLen : nat := 31.

(** ** UUIDs: sixteen bytes *)

Abbreviation UUID := (list ascii).

Definition UUID_String (u : UUID) : string :=
  hex (take 4 u) +:+ "-" +:+ hex (take 2 (drop 4 u)) +:+ "-" +:+ hex (take 2 (drop 6 u))
  +:+ "-" +:+ hex (take 2 (drop 8 u)) +:+ "-" +:+ hex (drop 10 u).

(** ** The IDs *)

Definition nul : string := String.String "000"%char "".

Definition Digest (did : DeploymentID) : list ascii :=
  Hash.md5 (SourceLocation_String (Source (did_ManifestID did)) +:+ nul
       +:+ mid_Flavor (did_ManifestID did) +:+ nul +:+ did_Cluster did).

(** The part of a request ID before the digest. *)
Definition request_base (did : DeploymentID) (shortName : string) : string :=
  SanitizeDeployID shortName +:+ "-" +:+ SanitizeDeployID (Dir (Source (did_ManifestID did)))
  +:+ "-" +:+ SanitizeDeployID (mid_Flavor (did_ManifestID did))
  +:+ "-" +:+ SanitizeDeployID (did_Cluster did) +:+ "-".

Definition MakeRequestID (depID : DeploymentID) : result id_error string :=
  sn ← ShortName (Source (did_ManifestID depID));
  let reqBase := request_base depID sn +:+ hex (Digest depID) in
  Ok (if maxRequestIDLen <? String.length reqBase then str_take maxRequestIDLen reqBase else reqBase).

Definition computeDeployIDFromUUID (v : Version) (uid : UUID) : string :=
  let uuidEntire := StripDeployID (UUID_String uid) in
  let versionSansMeta := stripMetadata (Semv.String v) in
  let versionEntire := SanitizeDeployID versionSansMeta in
  let versionTrunc := if maxVersionLen <? String.length versionEntire
                      then str_take maxVersionLen versionEntire else versionEntire in
  let depBase := join "_" [versionTrunc; uuidEntire] in
  if maxDeployIDLen <? String.length depBase then str_take maxDeployIDLen depBase else depBase.

(** ** Lemmas *)

Definition all_bytes (p : ascii → bool) (s : string) : Prop := Forall (λ c, p c = true) (bytes s).

Lemma all_bytes_app p s t : all_bytes p (s +:+ t) ↔ all_bytes p s ∧ all_bytes p t.
Proof. unfold all_bytes. by rewrite bytes_app, Forall_app. Qed.

Lemma all_bytes_take p n s : all_bytes p s → all_bytes p (str_take n s).
Proof.
  unfold all_bytes. revert n. induction s as [|c s IH]; intros [|n] Hs; simpl; try constructor;
    inv Hs; auto.
Qed.

Lemma all_bytes_impl p q s : (∀ c, p c = true → q c = true) → all_bytes p s → all_bytes q s.
Proof. intros Hpq Hs. eapply Forall_impl; [exact Hs|]. auto. Qed.

Lemma replace_illegal_legal repl skip s :
  all_bytes legal_deploy_char repl → all_bytes legal_deploy_char (replace_illegal repl skip s).
Proof.
  intros Hr. revert skip. induction s as [|c s IH]; intros [|skip]; simpl; [constructor..| |apply IH].
  destruct (legal_deploy_char c) eqn:Hc.
  - constructor; [done|apply IH].
  - apply all_bytes_app. split; [done|apply IH].
Qed.

Lemma replace_illegal_id repl s : all_bytes legal_deploy_char s → replace_illegal repl 0 s = s.
Proof.
  unfold all_bytes. induction s as [|c s IH]; simpl; [done|]. intros Hs. inv Hs. rewrite H1.
  f_equal. by apply IH.
Qed.

Lemma replace_illegal_app repl s c t :
  all_bytes legal_deploy_char s → legal_deploy_char c = false → nat_of_ascii c < 128 →
  replace_illegal repl 0 (s +:+ String.String c t) = s +:+ (repl +:+ replace_illegal repl 0 t).
Proof.
  intros Hs Hc Hlt. unfold all_bytes in Hs. induction s as [|d s IH]; simpl.
  - rewrite Hc. apply Nat.ltb_lt in Hlt. cbn [rune_width]. by rewrite Hlt.
  - simpl in Hs. inv Hs. rewrite H1. simpl. f_equal. by apply IH.
Qed.

Lemma hex_digit_legal n : n < 16 → legal_deploy_char (hex_digit n) = true.
Proof. intros Hn. do 16 (destruct n as [|n]; [done|]). lia. Qed.

Lemma hex_digit_inj n m : n < 16 → m < 16 → hex_digit n = hex_digit m → n = m.
Proof.
  intros Hn Hm. do 16 (destruct n as [|n]; [do 16 (destruct m as [|m]; [done|]); lia|]). lia.
Qed.

Lemma nibbles b : nat_of_ascii b / 16 < 16 ∧ nat_of_ascii b mod 16 < 16.
Proof.
  pose proof (nat_ascii_bounded b). split; [by apply Nat.Div0.div_lt_upper_bound|].
  by apply Nat.mod_upper_bound.
Qed.

Lemma hex_legal bs : all_bytes legal_deploy_char (hex bs).
Proof.
  induction bs as [|b bs IH]; cbn [hex]; [constructor|]. destruct (nibbles b).
  unfold all_bytes. cbn [bytes].
  constructor; [|constructor; [|done]]; by apply hex_digit_legal.
Qed.

Lemma hex_length bs : String.length (hex bs) = 2 * length bs.
Proof. induction bs; simpl; lia. Qed.

Lemma hex_app bs1 bs2 : hex (bs1 ++ bs2) = hex bs1 +:+ hex bs2.
Proof. induction bs1 as [|b bs1 IH]; simpl; [done|]. by rewrite IH. Qed.

Lemma hex_inj bs1 bs2 : hex bs1 = hex bs2 → bs1 = bs2.
Proof.
  revert bs2. induction bs1 as [|b bs1 IH]; intros [|c bs2]; try done. cbn [hex].
  intros Heq. assert (hex_digit (nat_of_ascii b / 16) = hex_digit (nat_of_ascii c / 16) ∧
    hex_digit (nat_of_ascii b mod 16) = hex_digit (nat_of_ascii c mod 16) ∧ hex bs1 = hex bs2)
    as (H1&H2&H3) by (by injection Heq).
  destruct (nibbles b), (nibbles c).
  apply hex_digit_inj in H1; [|done..]. apply hex_digit_inj in H2; [|done..].
  f_equal; [|by apply IH]. rewrite <-(ascii_nat_embedding b), <-(ascii_nat_embedding c). f_equal.
  pose proof (Nat.div_mod_eq (nat_of_ascii b) 16). pose proof (Nat.div_mod_eq (nat_of_ascii c) 16). lia.
Qed.

(** Stripping a UUID leaves its digits. *)
Lemma StripDeployID_UUID u : StripDeployID (UUID_String u) = hex u.
Proof.
  unfold StripDeployID.
  change (UUID_String u) with
    (hex (take 4 u) +:+ String.String "-"%char (hex (take 2 (drop 4 u))
      +:+ String.String "-"%char (hex (take 2 (drop 6 u))
      +:+ String.String "-"%char (hex (take 2 (drop 8 u))
      +:+ String.String "-"%char (hex (drop 10 u)))))).
  rewrite !replace_illegal_app by (apply hex_legal || done || (vm_compute; lia)).
  rewrite replace_illegal_id by apply hex_legal. cbn [String.append].
  rewrite <-!hex_app. f_equal.
  assert (∀ n m, take m (drop n u) ++ drop (n + m) u = drop n u) as H
    by (intros n m; rewrite <-drop_drop; apply take_drop).
  rewrite (H 8 2 : take 2 (drop 8 u) ++ drop 10 u = drop 8 u),
    (H 6 2 : take 2 (drop 6 u) ++ drop 8 u = drop 6 u),
    (H 4 2 : take 2 (drop 4 u) ++ drop 6 u = drop 4 u).
  apply take_drop.
Qed.

(** *** Cutting strings *)

Lemma str_take_app n s t :
  str_take n (s +:+ t) = str_take n s +:+ str_take (n - String.length s) t.
Proof.
  revert n. induction s as [|c s IH]; intros n; simpl; [by rewrite Nat.sub_0_r; destruct n|].
  destruct n; simpl; [done|]. by rewrite IH.
Qed.

Lemma str_take_ge n s : String.length s ≤ n → str_take n s = s.
Proof.
  revert n. induction s as [|c s IH]; intros [|n] Hn; simpl in *; try done; [lia|].
  f_equal. apply IH. lia.
Qed.

Lemma cut_to n s : (if n <? String.length s then str_take n s else s) = str_take n s.
Proof. destruct (Nat.ltb_spec n (String.length s)); [done|]. by rewrite str_take_ge. Qed.

Lemma str_append_inj s1 t1 s2 t2 :
  String.length t1 = String.length t2 → s1 +:+ t1 = s2 +:+ t2 → t1 = t2.
Proof.
  intros Hlen Heq. assert (String.length s1 = String.length s2) as Hl.
  { apply (f_equal String.length) in Heq. rewrite !str_length_app in Heq. lia. }
  clear Hlen. revert s2 Heq Hl. induction s1 as [|c s1 IH]; intros [|d s2]; simpl; try done.
  intros [= _ Heq] [= Hl]. by eapply IH.
Qed.

(** ** Properties *)

Definition legal_request_char (c : ascii) : bool :=
  legal_deploy_char c || bool_decide (c = "-"%char).

Lemma request_base_legal did sn : all_bytes legal_request_char (request_base did sn).
Proof.
  assert (∀ s, all_bytes legal_request_char (SanitizeDeployID s)) as Hs.
  { intros s. apply (all_bytes_impl legal_deploy_char).
    - unfold legal_request_char. by intros c ->.
    - apply replace_illegal_legal. by repeat constructor. }
  assert (all_bytes legal_request_char "-") as Hd by by repeat constructor.
  unfold request_base. by rewrite !all_bytes_app.
Qed.

(** C40.  A request ID is one Singularity accepts: at most 99 letters, digits,
    underscores and hyphens, for every deployment of a repository with an owner
    and a host.  Deployments whose digests differ get different IDs as long as
    the names leave room for the digest. *)
Theorem MakeRequestID_spec (did : DeploymentID) (sn : string) :
  ShortName (Source (did_ManifestID did)) = Ok sn →
  ∃ id, MakeRequestID did = Ok id ∧ String.length id ≤ maxRequestIDLen ∧
    all_bytes legal_request_char id ∧
    (String.length (request_base did sn) ≤ maxRequestIDLen - 32 →
     ∀ did' sn', ShortName (Source (did_ManifestID did')) = Ok sn' →
       String.length (request_base did' sn') ≤ maxRequestIDLen - 32 →
       MakeRequestID did' = Ok id → Digest did' = Digest did).
Proof.
  intros Hsn. unfold MakeRequestID. rewrite Hsn. cbn [mbind result_bind]. rewrite cut_to.
  eexists. split; [done|]. split_and!.
  - rewrite str_take_length. unfold maxRequestIDLen. lia.
  - apply all_bytes_take, all_bytes_app. split; [apply request_base_legal|].
    apply (all_bytes_impl legal_deploy_char); [|apply hex_legal].
    unfold legal_request_char. by intros c ->.
  - intros Hshort did' sn' Hsn' Hshort'. rewrite Hsn'. cbn [mbind result_bind]. rewrite cut_to.
    assert (∀ d, String.length (hex (Digest d)) = 32) as Hd
      by (intros d; rewrite hex_length; unfold Digest; by rewrite Hash.md5_length).
    rewrite !str_take_ge by (rewrite str_length_app, Hd; unfold maxRequestIDLen in *; lia).
    intros [= Heq]. apply hex_inj. eapply str_append_inj; [|exact Heq]. by rewrite !Hd.
Qed.

(** Beyond that room the digest is cut off, and with it what tells
    deployments apart: two whose short names, offsets, flavors and clusters read
    the same, and are long, share a request, whatever their repositories. *)
Theorem MakeRequestID_collides (did did' : DeploymentID) (sn : string) :
  ShortName (Source (did_ManifestID did)) = Ok sn →
  ShortName (Source (did_ManifestID did')) = Ok sn →
  Dir (Source (did_ManifestID did)) = Dir (Source (did_ManifestID did')) →
  mid_Flavor (did_ManifestID did) = mid_Flavor (did_ManifestID did') →
  did_Cluster did = did_Cluster did' →
  maxRequestIDLen ≤ String.length (request_base did sn) →
  MakeRequestID did = MakeRequestID did'.
Proof.
  intros Hsn Hsn' Hdir Hfl Hcl Hlong. unfold MakeRequestID. rewrite Hsn, Hsn'.
  cbn [mbind result_bind]. rewrite !cut_to, !str_take_app.
  assert (request_base did' sn = request_base did sn) as ->
    by (unfold request_base; by rewrite Hdir, Hfl, Hcl).
  by replace (maxRequestIDLen - String.length (request_base did sn)) with 0 by lia.
Qed.

(** A deploy ID is one Singularity accepts: at most 49 letters, digits and
    underscores; and it keeps at least the first seventeen digits of the UUID, so
    that deploys of one version whose UUIDs differ there get different IDs. *)
Theorem computeDeployID_spec (v : Version) (u u' : UUID) :
  length u = 16 → length u' = 16 →
  String.length (computeDeployIDFromUUID v u) ≤ maxDeployIDLen ∧
  all_bytes legal_deploy_char (computeDeployIDFromUUID v u) ∧
  (computeDeployIDFromUUID v u = computeDeployIDFromUUID v u' →
     str_take 17 (hex u) = str_take 17 (hex u')).
Proof.
  intros Hu Hu'. unfold computeDeployIDFromUUID. rewrite !StripDeployID_UUID, !cut_to. cbn [join].
  set (ver := str_take maxVersionLen _).
  assert (String.length ver ≤ maxVersionLen) as Hver
    by (unfold ver; rewrite str_take_length; lia).
  assert (all_bytes legal_deploy_char ver) as Hlegal.
  { apply all_bytes_take, replace_illegal_legal. by repeat constructor. }
  split_and!.
  - rewrite str_take_length. lia.
  - apply all_bytes_take. rewrite !all_bytes_app. split_and!; [done| |apply hex_legal].
    by repeat constructor.
  - rewrite !(str_take_app _ ver). rewrite (str_take_ge _ ver) by (unfold maxDeployIDLen, maxVersionLen in *; lia).
    set (n := maxDeployIDLen - String.length ver). assert (18 ≤ n) as Hn
      by (unfold n, maxDeployIDLen, maxVersionLen in *; lia).
    rewrite !(str_take_app n "_"), (str_take_ge n "_") by (simpl; lia). cbn [String.length].
    rewrite <-!str_app_assoc. intros Heq. apply str_append_inj in Heq.
    2: { by rewrite !str_take_length, !hex_length, Hu, Hu'. }
    assert (∀ s, str_take 17 (str_take (n - 1) s) = str_take 17 s) as Htt.
    { clear -Hn. assert (17 ≤ n - 1) as H by lia. revert H. generalize (n - 1), 17. clear.
      intros m k Hk s. revert m k Hk. induction s as [|c s IH]; intros [|m] [|k] Hk; simpl; try done; [lia|].
      f_equal. apply IH. lia. }
    rewrite <-(Htt (hex u)), <-(Htt (hex u')). by rewrite Heq.
Qed.

(** ** Witnesses *)

Definition named (repo cluster : string) : DeploymentID :=
  mkDeploymentID (mkManifestID (mkSourceLocation repo "offset") "neat") cluster.

Lemma MakeRequestID_spec_witness :
  ∃ id, MakeRequestID (named "github.com/opentable/sous" "ci-sf") = Ok id ∧
    String.length id ≤ maxRequestIDLen ∧ all_bytes legal_request_char id ∧
    (MakeRequestID (named "github.com/opentable/sous" "pp-sf") = Ok id →
     Digest (named "github.com/opentable/sous" "pp-sf") =
     Digest (named "github.com/opentable/sous" "ci-sf")).
Proof.
  destruct (MakeRequestID_spec (named "github.com/opentable/sous" "ci-sf")
    "sous" eq_refl) as (id&Hid&Hlen&Hlegal&Hinj).
  exists id. split; [exact Hid|]. split; [exact Hlen|]. split; [exact Hlegal|].
  apply (Hinj ltac:(vm_compute; lia) (named "github.com/opentable/sous" "pp-sf") "sous" eq_refl).
  vm_compute. lia.
Defined.

Definition long_cluster : string :=
  "a-cluster-whose-name-is-so-long-that-the-digest-of-the-deployment-does-not-fit-in-the-request-at-all".

Lemma MakeRequestID_collides_witness :
  MakeRequestID (named "github.com/opentable/sous" long_cluster) =
  MakeRequestID (named "github.com/example/sous" long_cluster).
Proof.
  apply (MakeRequestID_collides _ _ "sous"); try reflexivity. vm_compute. lia.
Defined.

Lemma computeDeployID_spec_witness :
  let v := Semv.mkVersion 1 2 3 "beta.1" "5b8e7a" "M.m.p-?+?" in
  let u := replicate 16 "a"%char in
  let u' := replicate 16 "b"%char in
  all_bytes legal_deploy_char (computeDeployIDFromUUID v u) ∧
  computeDeployIDFromUUID v u ≠ computeDeployIDFromUUID v u'.
Proof.
  intros v u u'. destruct (computeDeployID_spec v u u' eq_refl eq_refl) as (_&Hlegal&Hinj).
  split; [exact Hlegal|]. intros Heq%Hinj. vm_compute in Heq. discriminate Heq.
Defined.
