(* ===== verification/StateManagers.v ===== *)
(** * State managers (lib/state_manager.go, cluster_manager.go,
    deployment_manager.go, dispatchstatemanager.go, user.go)

    A state manager reads and writes the whole state; a cluster manager the
    deployments of a cluster.  Either is a record of operations on the world [W]
    that the state is kept in; a state that is read is the reader's own.  The one
    wraps the other, and a dispatcher sends each cluster to its manager. *)

From S2P Require Import Prelude GoStrings Flaw Semv Ids Startup DeployConfig CMap.
From S2P Require Import Deployment Samples State.
#[local] Open Scope string_scope.
#[local] Open Scope Z_scope.
#[local] Open Scope list_scope.

(** ** Users (user.go) *)

Record SousUser := mkSousUser { su_Name : string; su_Email : string }.

Definition User_String (u : SousUser) : string :=
  join " " ((if decide (su_Name u = "") then [] else [su_Name u]) ++
            (if decide (su_Email u = "") then [] else ["<" +:+ su_Email u +:+ ">"])).

Definition Complete (u : SousUser) : bool :=
  bool_decide (su_Name u ≠ "") && bool_decide (su_Email u ≠ "").

Definition HTTPHeaders (u : SousUser) : gmap string string :=
  <["Sous-User-Name" := su_Name u]> {["Sous-User-Email" := su_Email u]}.

(** ** Interfaces *)

(** Errors of the state, of a manager's world, and the managers' own; the last
    wraps an error with a message. *)
Inductive manager_error : Type :=
| OfState (e : state_error)
| OfWorld (t : text)
| NoDeployment (did : DeploymentID)
| NoClusterManager (clusterName : string)
| InContext (msg : string) (e : manager_error).

Record StateManager (W : Type) := mkStateManager {
  ReadState : W → W * result manager_error State;
  WriteState : State → SousUser → W → W * option manager_error
}.
Arguments mkStateManager {W}.
Arguments ReadState {W}.
Arguments WriteState {W}.

Record ClusterManager (W : Type) := mkClusterManager {
  ReadCluster : string → W → W * result manager_error Deployments;
  WriteCluster : string → Deployments → SousUser → W → W * option manager_error
}.
Arguments mkClusterManager {W}.
Arguments ReadCluster {W}.
Arguments WriteCluster {W}.

Record DeploymentManager (W : Type) := mkDeploymentManager {
  ReadDeployment : DeploymentID → W → W * result manager_error Deployment;
  WriteDeployment : Deployment → SousUser → W → W * option manager_error
}.
Arguments mkDeploymentManager {W}.
Arguments ReadDeployment {W}.
Arguments WriteDeployment {W}.

Definition in_cluster (clusterName : string) (d : Deployment) : bool :=
  bool_decide (ClusterName d = clusterName).

Section Managers.
Context {W : Type}.
(** The orders in which maps are ranged over. *)
Context (perm : Deployments → order).

(** Reading the state and its deployments, as each operation begins. *)
Definition with_deployments {A} (sm : StateManager W) (w : W)
    (k : State → Deployments → W → A) (fail : W → manager_error → A) : A :=
  let '(w, r) := ReadState sm w in
  match r with
  | Err e => fail w e
  | Ok state =>
      match State_Deployments state with
      | Err e => fail w (OfState e)
      | Ok deps => k state deps w
      end
  end.

(** *** A state manager as a cluster manager (cluster_manager.go) *)

Definition deco_ReadCluster (sm : StateManager W) (clusterName : string) (w : W) :
    W * result manager_error Deployments :=
  with_deployments sm w
    (λ _ deps w, (w, Ok (filtered (in_cluster clusterName) deps)))
    (λ w e, (w, Err e)).

Definition deco_WriteCluster (sm : StateManager W) (clusterName : string) (wds : Deployments)
    (user : SousUser) (w : W) : W * option manager_error :=
  with_deployments sm w
    (λ state deps w,
      let deps := filtered (λ d, negb (in_cluster clusterName d)) deps in
      let ds := (perm (from_maps [deps; wds])).*2 in
      match UpdateDeployments perm state ds with
      | Err e => (w, Some (OfState e))
      | Ok state => WriteState sm state user w
      end)
    (λ w e, (w, Some e)).

Definition MakeClusterManager (sm : StateManager W) : ClusterManager W :=
  mkClusterManager (deco_ReadCluster sm) (deco_WriteCluster sm).

(** *** A state manager as a deployment manager (deployment_manager.go) *)

Definition deco_ReadDeployment (sm : StateManager W) (did : DeploymentID) (w : W) :
    W * result manager_error Deployment :=
  with_deployments sm w
    (λ _ deps w, (w, match deps !! did with Some d => Ok d | None => Err (NoDeployment did) end))
    (λ w e, (w, Err e)).

(** The deployment is set in the map that was made of the state, not in the
    state. *)
Definition deco_WriteDeployment (sm : StateManager W) (dep : Deployment) (user : SousUser) (w : W) :
    W * option manager_error :=
  with_deployments sm w
    (λ state deps w,
      let deps := <[Deployment_ID dep := dep]> deps in
      WriteState sm state user w)
    (λ w e, (w, Some e)).

Definition MakeDeploymentManager (sm : StateManager W) : DeploymentManager W :=
  mkDeploymentManager (deco_ReadDeployment sm) (deco_WriteDeployment sm).

(** *** Dispatching (dispatchstatemanager.go) *)

Record DispatchStateManager := mkDispatch {
  local : StateManager W;
  clusters : gmap string (ClusterManager W)
}.

(** [as_cluster] is the local manager, if it is a cluster manager too. *)
Definition NewDispatchStateManager (localCluster : string) (names : list string)
    (local : StateManager W) (as_cluster : option (ClusterManager W)) (remote : ClusterManager W) :
    DispatchStateManager :=
  let cms := foldl (λ cms n, <[n := remote]> cms) ∅ names in
  mkDispatch local (<[localCluster := default (MakeClusterManager local) as_cluster]> cms).

(** [cms] are the clusters, in the order of the range. *)
Fixpoint dsm_read (cms : list (string * ClusterManager W)) (baseState : State) (w : W) :
    W * result manager_error State :=
  match cms with
  | [] => (w, Ok baseState)
  | (cn, cm) :: cms =>
      let '(w, r) := ReadCluster cm cn w in
      match r with
      | Err e => (w, Err (InContext cn e))
      | Ok c =>
          match UpdateDeployments perm baseState (perm c).*2 with
          | Err e => (w, Err (InContext cn (OfState e)))
          | Ok baseState => dsm_read cms baseState w
          end
      end
  end.

Definition dsm_ReadState (cms : list (string * ClusterManager W)) (dsm : DispatchStateManager) (w : W) :
    W * result manager_error State :=
  let '(w, r) := ReadState (local dsm) w in
  match r with
  | Err e => (w, Err (InContext "base state" e))
  | Ok baseState => dsm_read cms baseState w
  end.

Fixpoint dsm_write (cms : list (string * ClusterManager W)) (deps : Deployments) (user : SousUser) (w : W) :
    W * option manager_error :=
  match cms with
  | [] => (w, None)
  | (cn, cm) :: cms =>
      let cds := filtered (in_cluster cn) deps in
      let '(w, e) := WriteCluster cm cn cds user w in
      match e with
      | Some e => (w, Some (InContext cn e))
      | None => dsm_write cms deps user w
      end
  end.

Definition dsm_WriteState (cms : list (string * ClusterManager W)) (dsm : DispatchStateManager)
    (state : State) (user : SousUser) (w : W) : W * option manager_error :=
  match State_Deployments state with
  | Err e => (w, Some (OfState e))
  | Ok deps => dsm_write cms deps user w
  end.

Definition dsm_ReadCluster (dsm : DispatchStateManager) (clusterName : string) (w : W) :
    W * result manager_error Deployments :=
  match clusters dsm !! clusterName with
  | None => (w, Err (NoClusterManager clusterName))
  | Some cm => ReadCluster cm clusterName w
  end.

Definition dsm_WriteCluster (dsm : DispatchStateManager) (clusterName : string) (deps : Deployments)
    (user : SousUser) (w : W) : W * option manager_error :=
  match clusters dsm !! clusterName with
  | None => (w, Some (NoClusterManager clusterName))
  | Some cm => WriteCluster cm clusterName deps user w
  end.
End Managers.

(** ** Lemmas *)

Lemma insert_all_values (l : list (DeploymentID * Deployment)) (deps : Deployments) :
  (∀ did d, (did, d) ∈ l → Deployment_ID d = did) →
  foldl (λ acc d, <[Deployment_ID d := d]> acc) deps l.*2 = foldl (λ acc kv, <[kv.1 := kv.2]> acc) deps l.
Proof.
  revert deps. induction l as [|[did d] l IH]; intros deps Hl; simpl; [done|].
  rewrite (Hl did d) by set_solver. apply IH. set_solver.
Qed.

Lemma insert_entries_union (l : list (DeploymentID * Deployment)) (m deps : Deployments) :
  l ≡ₚ map_to_list m → foldl (λ acc kv, <[kv.1 := kv.2]> acc) deps l = m ∪ deps.
Proof.
  intros Hl. assert (NoDup l.*1) as Hnd by (rewrite Hl; apply NoDup_fst_map_to_list).
  assert (m = list_to_map l) as ->.
  { rewrite <-(list_to_map_to_list m). symmetry. by apply list_to_map_proper. }
  clear Hl. revert deps. induction l as [|[k x] l IH]; intros deps; simpl; [by rewrite (left_id_L ∅ (∪))|].
  simpl in Hnd. apply NoDup_cons in Hnd as [Hk Hnd]. rewrite (IH Hnd).
  rewrite <-insert_union_l. rewrite insert_union_r; [done|].
  by apply not_elem_of_list_to_map_1.
Qed.

Lemma foldl_insert_const {A} (x y : A) (ks : list string) (m : gmap string A) k :
  foldl (λ m k, <[k := x]> m) m ks !! k = Some y → y = x ∨ m !! k = Some y.
Proof.
  revert m. induction ks as [|k' ks IH]; intros m; simpl; [by right|]. intros [?|Hl]%IH; [by left|].
  apply lookup_insert_Some in Hl as [[_ ->]|[_ ?]]; [by left|by right].
Qed.

(** What is merged into the deployments of a state is put over them. *)
Lemma UpdateDeployments_merge (perm : Deployments → order) (s : State) (deps wds : Deployments) :
  (∀ ds, perm ds ≡ₚ map_to_list ds) → State_Deployments s = Ok deps → keyed wds →
  UpdateDeployments perm s (perm wds).*2 =
    (ms ← PutbackManifests (st_Defs s) (st_Manifests s) (perm (wds ∪ deps));
     Ok (mkState (st_Defs s) ms (etag s))).
Proof.
  intros Hperm Hdeps Hk. unfold UpdateDeployments. rewrite Hdeps. cbn [mbind result_bind].
  rewrite insert_all_values, (insert_entries_union _ wds) by
    (try apply Hperm; intros did d Hd; rewrite Hperm in Hd; apply elem_of_map_to_list in Hd; by apply Hk).
  done.
Qed.

(** ** Lemmas: states that hold a round trip *)

Definition norm_state (s : State) : State :=
  mkState (st_Defs s) (norm_manifest <$> st_Manifests s) (etag s).

Record canonical_state (s : State) : Prop := {
  cst_keyed : keyed (st_Manifests s);
  cst_manifests : map_Forall (λ _, canonical (st_Defs s)) (st_Manifests s)
}.

Lemma with_maps_idem dc : with_maps (with_maps dc) = with_maps dc.
Proof. done. Qed.

Lemma BuildDeployment_norm m cn cluster spec :
  BuildDeployment (norm_manifest m) cn cluster (norm_spec spec) [] = BuildDeployment m cn cluster spec [].
Proof.
  unfold BuildDeployment. cbn zeta. by rewrite !flatten_specs_single.
Qed.

Lemma described_norm defs m cn d : described defs (norm_manifest m) cn d ↔ described defs m cn d.
Proof.
  unfold described. cbn [norm_manifest m_Deployments]. split.
  - intros (spec&cluster&Hs&Hc&->). apply lookup_fmap_Some in Hs as (spec0&<-&Hs).
    exists spec0, cluster. split_and!; [done|done|]. apply BuildDeployment_norm.
  - intros (spec&cluster&Hs&Hc&->). exists (norm_spec spec), cluster.
    rewrite lookup_fmap, Hs. split_and!; [done|done|]. symmetry. apply BuildDeployment_norm.
Qed.

Lemma canonical_norm defs m : canonical defs m → canonical defs (norm_manifest m).
Proof.
  intros [Hd Ho Hn Hc]. split; cbn [norm_manifest m_Deployments m_Owners].
  - intros He. by apply fmap_empty_iff in He.
  - done.
  - by rewrite lookup_fmap, Hn.
  - intros cn spec Hs. apply lookup_fmap_Some in Hs as (spec0&<-&Hs). by apply (Hc _ _ Hs).
Qed.

Lemma canonical_state_norm s : canonical_state s → canonical_state (norm_state s).
Proof.
  intros [Hk Hm]. split; cbn [norm_state st_Manifests st_Defs].
  - intros mid m Hl. apply lookup_fmap_Some in Hl as (m0&<-&Hl). by apply (Hk _ _ Hl).
  - intros mid m Hl. apply lookup_fmap_Some in Hl as (m0&<-&Hl). apply canonical_norm. by apply (Hm _ _ Hl).
Qed.

Lemma canonical_deployments s :
  canonical_state s → ∃ deps, State_Deployments s = Ok deps ∧ keyed deps ∧
    all_described (st_Defs s) (st_Manifests s) deps.
Proof.
  intros [Hk Hm]. destruct (Manifests_Deployments_ok (st_Defs s) (st_Manifests s) Hk) as [deps Hdeps].
  { intros mid m Hl. by apply (Hm mid). }
  pose proof (Manifests_Deployments_spec _ _ _ Hk Hdeps) as Hall.
  exists deps. split_and!; [done| |done]. intros did d Hd. apply Hall in Hd as (m&Hl&spec&cluster&_&_&->).
  change (ID ?x) with (Deployment_ID x). rewrite BuildDeployment_ID.
  pose proof (Hk _ _ Hl : Manifest_ID m = _) as Hid. rewrite Hid. by destruct did.
Qed.

(** Normalising the manifests changes no deployment. *)
Lemma State_Deployments_norm s deps :
  canonical_state s → State_Deployments s = Ok deps → State_Deployments (norm_state s) = Ok deps.
Proof.
  intros Hs Hdeps. destruct (canonical_deployments _ Hs) as (deps1&H1&_&Hall1).
  rewrite Hdeps in H1. injection H1 as <-.
  destruct (canonical_deployments _ (canonical_state_norm _ Hs)) as (deps2&H2&_&Hall2).
  rewrite H2. f_equal. apply map_eq. intros did. apply option_eq. intros d.
  rewrite (Hall1 did d), (Hall2 did d). cbn [norm_state st_Manifests st_Defs]. split.
  - intros (m&Hl&Hd). apply lookup_fmap_Some in Hl as (m0&<-&Hl). exists m0. split; [done|].
    by rewrite described_norm in Hd.
  - intros (m&Hl&Hd). exists (norm_manifest m). rewrite lookup_fmap, Hl. split; [done|].
    by rewrite described_norm.
Qed.

Lemma norm_manifest_idem m : norm_manifest (norm_manifest m) = norm_manifest m.
Proof. unfold norm_manifest. cbn [m_Deployments m_Source m_Flavor m_Owners m_Kind]. by rewrite <-map_fmap_compose. Qed.

Lemma norm_state_idem s : norm_state (norm_state s) = norm_state s.
Proof.
  unfold norm_state. cbn [st_Manifests st_Defs etag]. f_equal. rewrite <-map_fmap_compose.
  apply map_fmap_ext. intros mid m _. apply norm_manifest_idem.
Qed.

Section Overlay.
Context (perm : Deployments → order) (Hperm : ∀ ds, perm ds ≡ₚ map_to_list ds).

(** Deployments that are there already change nothing. *)
Lemma UpdateDeployments_same s deps wds :
  canonical_state s → State_Deployments s = Ok deps → wds ⊆ deps →
  UpdateDeployments perm s (perm wds).*2 = Ok (norm_state s).
Proof using Hperm.
  intros Hs Hdeps Hsub. destruct (canonical_deployments _ Hs) as (deps'&Hd&Hk&Hall).
  rewrite Hdeps in Hd. injection Hd as <-.
  rewrite (UpdateDeployments_merge _ _ _ _ Hperm Hdeps) by by eapply keyed_subseteq.
  rewrite (map_subseteq_union _ _ Hsub). destruct Hs as [Hkm Hcan].
  rewrite (putback_expected (st_Defs s) (st_Manifests s) deps Hkm Hcan Hall (perm deps) (Hperm deps)). done.
Qed.
End Overlay.

(** ** Properties *)

Section Properties.
Context {W : Type} (perm : Deployments → order) (Hperm : ∀ ds, perm ds ≡ₚ map_to_list ds).
Context (sm : StateManager W).

Lemma with_deployments_ok {A} w w' s deps (k : State → Deployments → W → A) fail :
  ReadState sm w = (w', Ok s) → State_Deployments s = Ok deps →
  with_deployments sm w k fail = k s deps w'.
Proof. intros Hr Hd. unfold with_deployments. by rewrite Hr, Hd. Qed.

Lemma overlay_union cn (deps wds : Deployments) :
  from_maps [filtered (λ d, negb (in_cluster cn d)) deps; wds] ∪ deps = wds ∪ deps.
Proof.
  rewrite from_maps_pair, <-(assoc_L (∪)). f_equal. apply map_subseteq_union, filtered_subseteq.
Qed.

(** What is written of a cluster is put over all the deployments of the state:
    those of other clusters are kept, and so are those of the cluster that are
    not written.  The manifests are made of the result, whatever the order of
    the maps, and nothing is written when that cannot be done. *)
Theorem WriteCluster_overlays (cn : string) (wds deps : Deployments) (user : SousUser) (s : State) (w w' : W) :
  ReadState sm w = (w', Ok s) → State_Deployments s = Ok deps → keyed deps → keyed wds →
  WriteCluster (MakeClusterManager perm sm) cn wds user w =
    match PutbackManifests (st_Defs s) (st_Manifests s) (perm (wds ∪ deps)) with
    | Ok ms => WriteState sm (mkState (st_Defs s) ms (etag s)) user w'
    | Err e => (w', Some (OfState e))
    end.
Proof using Hperm.
  intros Hr Hd Hkd Hkw. cbn [WriteCluster MakeClusterManager]. unfold deco_WriteCluster.
  rewrite (with_deployments_ok _ _ _ _ _ _ Hr Hd).
  assert (keyed (from_maps [filtered (λ d, negb (in_cluster cn d)) deps; wds])) as Hk.
  { rewrite from_maps_pair. apply keyed_union; [done|]. eapply keyed_subseteq; [apply filtered_subseteq|done]. }
  rewrite (UpdateDeployments_merge _ _ _ _ Hperm Hd Hk), overlay_union.
  by destruct (PutbackManifests _ _ _).
Qed.

(** Nothing can be removed through a cluster manager: when what is written are
    deployments that the state has, all of those of the cluster or fewer, even
    none, the state that is written is the one that was read (with nil maps made
    empty).  So what is read of a cluster can be written back, and what was left
    out of it stays. *)
Theorem WriteCluster_cannot_remove (cn : string) (wds : Deployments) (user : SousUser) (s : State) (w w' : W) :
  ReadState sm w = (w', Ok s) → canonical_state s →
  ∃ deps, ReadCluster (MakeClusterManager perm sm) cn w = (w', Ok (filtered (in_cluster cn) deps)) ∧
    State_Deployments s = Ok deps ∧
    (wds ⊆ deps →
     WriteCluster (MakeClusterManager perm sm) cn wds user w = WriteState sm (norm_state s) user w').
Proof using Hperm.
  intros Hr Hs. destruct (canonical_deployments s Hs) as (deps&Hd&Hk&Hall). exists deps.
  cbn [ReadCluster WriteCluster MakeClusterManager]. unfold deco_ReadCluster, deco_WriteCluster.
  rewrite !(with_deployments_ok _ _ _ _ _ _ Hr Hd). split_and!; [done..|]. intros Hsub.
  rewrite (UpdateDeployments_same perm Hperm s deps); [done..|].
  rewrite from_maps_pair. by apply map_union_least, filtered_subseteq.
Qed.

(** A deployment that is written through a deployment manager is lost: the
    state that was read is written, whatever the deployment. *)
Theorem WriteDeployment_lost (dep : Deployment) (user : SousUser) (s : State) (deps : Deployments) (w w' : W) :
  ReadState sm w = (w', Ok s) → State_Deployments s = Ok deps →
  WriteDeployment (MakeDeploymentManager sm) dep user w = WriteState sm s user w'.
Proof.
  intros Hr Hd. cbn [WriteDeployment MakeDeploymentManager]. unfold deco_WriteDeployment.
  by rewrite (with_deployments_ok _ _ _ _ _ _ Hr Hd).
Qed.

(** A dispatcher whose clusters are all on the local manager is that manager:
    in whatever order it asks the clusters, it reads the local state (with nil
    maps made empty, once there is a cluster). *)
Theorem dispatch_local_transparent (names : list string) (order : list (string * ClusterManager W))
    (localCluster : string) (s : State) (w : W) :
  let dsm := NewDispatchStateManager perm localCluster names sm None (MakeClusterManager perm sm) in
  order ≡ₚ map_to_list (clusters dsm) →
  ReadState sm w = (w, Ok s) → canonical_state s →
  dsm_ReadState perm order dsm w = (w, Ok (norm_state s)).
Proof using Hperm.
  intros dsm Horder Hr Hs. destruct (canonical_deployments s Hs) as (deps&Hd&Hk&_).
  assert (∀ cn cm, (cn, cm) ∈ order → cm = MakeClusterManager perm sm) as Hall.
  { intros cn cm Hin. rewrite Horder in Hin. apply elem_of_map_to_list in Hin.
    unfold dsm, NewDispatchStateManager in Hin. cbn [clusters default] in Hin.
    apply lookup_insert_Some in Hin as [[_ <-]|[_ Hin]]; [done|].
    apply foldl_insert_const in Hin as [?|Hin]; done. }
  assert (order ≠ []) as Hne.
  { intros ->. apply Permutation_nil_l in Horder. symmetry in Horder.
    apply map_to_list_empty_iff in Horder. unfold dsm, NewDispatchStateManager in Horder.
    cbn [clusters] in Horder. by apply insert_non_empty in Horder. }
  unfold dsm_ReadState. cbn [local dsm NewDispatchStateManager]. rewrite Hr.
  assert (∀ base, base = s ∨ base = norm_state s → ∀ l, (∀ cn cm, (cn, cm) ∈ l → cm = MakeClusterManager perm sm) →
    dsm_read perm l base w = (w, Ok (if decide (l = []) then base else norm_state s))) as Hread.
  { intros base Hb l. revert base Hb. induction l as [|[cn cm] l IH]; intros base Hb Hl; [done|].
    cbn [dsm_read]. rewrite (Hl cn cm) by set_solver. cbn [ReadCluster MakeClusterManager]. unfold deco_ReadCluster.
    rewrite (with_deployments_ok _ _ _ _ _ _ Hr Hd).
    assert (UpdateDeployments perm base (perm (filtered (in_cluster cn) deps)).*2 = Ok (norm_state s)) as ->.
    { destruct Hb as [->| ->].
      - apply (UpdateDeployments_same perm Hperm s deps); [done|done|apply filtered_subseteq].
      - rewrite (UpdateDeployments_same perm Hperm _ deps); [by rewrite norm_state_idem|by apply canonical_state_norm| |apply filtered_subseteq].
        by apply State_Deployments_norm. }
    rewrite IH; [by destruct (decide (l = []))|by right|]. set_solver. }
  rewrite (Hread s (or_introl eq_refl) order Hall). by rewrite decide_False.
Qed.
End Properties.

(** ** Witnesses *)

Definition sample_state : State := mkState sample_defs {[sample_mid := sample_manifest]} (Some "etag-1").

(** A world that is the state itself. *)
Definition in_memory : StateManager State :=
  mkStateManager (λ w, (w, Ok w)) (λ s _ _, (s, None)).

Lemma sample_state_canonical : canonical_state sample_state.
Proof.
  split; [apply sample_manifests_keyed|]. apply map_Forall_singleton. split; [done| |reflexivity|].
  - split; [apply (bool_decide_unpack _); vm_compute; exact I|]. repeat constructor.
  - apply sample_clusters_defined.
Qed.

Lemma WriteCluster_overlays_witness :
  ∃ deps, State_Deployments sample_state = Ok deps ∧
    (WriteCluster (MakeClusterManager map_to_list in_memory) "ci-sf" ∅ (mkSousUser "a" "b") sample_state).2 = None.
Proof.
  destruct (canonical_deployments _ sample_state_canonical) as (deps&Hd&Hk&Hall).
  exists deps. split; [done|].
  rewrite (WriteCluster_overlays map_to_list (λ _, Permutation_refl _) in_memory "ci-sf" ∅ deps
    (mkSousUser "a" "b") sample_state sample_state sample_state eq_refl Hd Hk); [|done].
  rewrite (left_id_L ∅ (∪)). destruct sample_state_canonical as [Hkm Hcan].
  by rewrite (putback_expected (st_Defs sample_state) (st_Manifests sample_state) deps Hkm Hcan Hall
    (map_to_list deps) (Permutation_refl _)).
Defined.

Lemma WriteCluster_cannot_remove_witness :
  let cm := MakeClusterManager map_to_list in_memory in
  (WriteCluster cm "ci-sf" ∅ (mkSousUser "a" "b") sample_state).1 = norm_state sample_state ∧
  is_Some (st_Manifests (norm_state sample_state) !! sample_mid).
Proof.
  intros cm. split; [|by eexists].
  destruct (WriteCluster_cannot_remove map_to_list (λ _, Permutation_refl _) in_memory "ci-sf" ∅
    (mkSousUser "a" "b") sample_state sample_state sample_state eq_refl sample_state_canonical)
    as (deps&_&_&Hw).
  unfold cm. rewrite Hw; [done|]. apply map_empty_subseteq.
Defined.

Lemma WriteDeployment_lost_witness :
  ∃ deps, State_Deployments sample_state = Ok deps ∧ ∀ d,
    WriteDeployment (MakeDeploymentManager in_memory) d (mkSousUser "a" "b") sample_state = (sample_state, None).
Proof.
  destruct (canonical_deployments _ sample_state_canonical) as (deps&Hd&_). exists deps. split; [done|].
  intros d. by rewrite (WriteDeployment_lost in_memory d (mkSousUser "a" "b") sample_state deps
    sample_state sample_state eq_refl Hd).
Defined.

Lemma dispatch_local_transparent_witness :
  let dsm := NewDispatchStateManager map_to_list "ci-sf" ["ci-ny"] in_memory None
               (MakeClusterManager map_to_list in_memory) in
  dsm_ReadState map_to_list (map_to_list (clusters dsm)) dsm sample_state =
    (sample_state, Ok (norm_state sample_state)).
Proof.
  intros dsm. apply (dispatch_local_transparent map_to_list (λ _, Permutation_refl _) in_memory
    ["ci-ny"] (map_to_list (clusters dsm)) "ci-sf" sample_state sample_state);
    [done|reflexivity|apply sample_state_canonical].
Defined.
