(* ===== verification/GoQuote.v ===== *)
(** * Quoted strings (strconv.Quote, the verb %q)

    The runes of a string that are printable stand for themselves; the others, the
    bytes that are not part of a rune, the quote and the backslash are escaped.
    Which runes past ASCII are printable is a table of the package unicode, which
    is a parameter here. *)

From S2P Require Import Prelude GoStrings DockerNames.
#[local] Open Scope string_scope.
#[local] Open Scope Z_scope.

(** [unicode.IsPrint] past ASCII. *)
Class UnicodeTables := { IsPrint : Z → bool }.

Definition hex_digit (n : Z) : ascii :=
  ascii_of_nat (Z.to_nat (if n <? 10 then 48 + n else 87 + n)).

(** The last [n] hexadecimal digits of [r]. *)
Fixpoint hex (n : nat) (r : Z) : string :=
  match n with
  | O => ""
  | S n => hex n (r / 16) +:+ String.String (hex_digit (r mod 16)) ""
  end.

Fixpoint bytes_of (s : string) : list Z :=
  match s with "" => [] | String.String c s => Z.of_nat (nat_of_ascii c) :: bytes_of s end.

(** The rune that a well-formed sequence of bytes encodes. *)
Definition rune_of (s : string) : Z :=
  match bytes_of s with
  | [b0] => b0
  | [b0; b1] => (b0 - 192) * 64 + (b1 - 128)
  | [b0; b1; b2] => ((b0 - 224) * 64 + (b1 - 128)) * 64 + (b2 - 128)
  | [b0; b1; b2; b3] => (((b0 - 240) * 64 + (b1 - 128)) * 64 + (b2 - 128)) * 64 + (b3 - 128)
  | _ => 65533
  end.

Section Quote.
Context `{UnicodeTables}.

Definition backslash : string := String.String "092"%char "".
Definition double_quote : string := String.String "034"%char "".

Definition escaped_control (r : Z) : string :=
  if r =? 7 then "a" else if r =? 8 then "b" else if r =? 12 then "f"
  else if r =? 10 then "n" else if r =? 13 then "r" else if r =? 9 then "t"
  else if r =? 11 then "v"
  else if r <? 32 then "x" +:+ hex 2 r
  else if r <? 65536 then "u" +:+ hex 4 r
  else "U" +:+ hex 8 r.

(** [appendEscapedRune], of the rune that the bytes [s] encode. *)
Definition escaped_rune (s : string) : string :=
  let r := rune_of s in
  if (r =? 34) || (r =? 92) then backslash +:+ s
  else if (if r <? 128 then (32 <=? r) && (r <? 127) else IsPrint r) then s
  else backslash +:+ escaped_control r.

(** A byte past ASCII that is a rune of its own is ill-formed. *)
Fixpoint quoted (fuel : nat) (s : string) : string :=
  match fuel, s with
  | S fuel, String.String c s' =>
      let w := rune_width s in
      let b := Z.of_nat (nat_of_ascii c) in
      (if bool_decide (w = 1%nat) && (128 <=? b) then backslash +:+ "x" +:+ hex 2 b
       else escaped_rune (str_take w s)) +:+ quoted fuel (str_drop w s)
  | _, _ => ""
  end.

(** Each step takes a byte or more. *)
Definition Quote (s : string) : string :=
  double_quote +:+ quoted (String.length s) s +:+ double_quote.
End Quote.

Example quote_plain `{UnicodeTables} :
  Quote ("task " +:+ double_quote +:+ "x" +:+ double_quote +:+ String.String "010"%char "failed") =
  double_quote +:+ "task \" +:+ double_quote +:+ "x\" +:+ double_quote +:+ "\nfailed" +:+ double_quote.
Proof. vm_compute. reflexivity. Qed.

Example quote_ill_formed `{UnicodeTables} :
  Quote (String.String "255"%char (String.String "127"%char "")) =
  double_quote +:+ "\xff\u007f" +:+ double_quote.
Proof. vm_compute. reflexivity. Qed.
