(* ===== verification/SingDtos.v ===== *)
(** * Data transfer objects of Singularity

    The types of github.com/opentable/go-singularity/dtos that the program fills
    and reads, with the fields it does; a pointer is an [option].  The strings
    stand for the string types of the objects.  The integers that are sent are
    32 bits wide, those of the program 64. *)

From S2P Require Import Prelude GoStrings GoFloat.
#[local] Open Scope string_scope.
#[local] Open Scope Z_scope.

Definition SERVICE : string := "SERVICE".
Definition WORKER : string := "WORKER".
Definition SCHEDULED : string := "SCHEDULED".
Definition ON_DEMAND : string := "ON_DEMAND".
Definition RUN_ONCE : string := "RUN_ONCE".

Definition CRON : string := "CRON".
Definition DOCKER : string := "DOCKER".
Definition BRIDGE : string := "BRIDGE".
Definition ACTIVE : string := "ACTIVE".
Definition DEPLOYING_TO_UNPAUSE : string := "DEPLOYING_TO_UNPAUSE".
Definition SUCCEEDED : string := "SUCCEEDED".

Record SingularityRequest := mkSingularityRequest {
  req_Id : string;
  RequestType : string;
  Instances : Z;
  req_Owners : list string;
  req_Schedule : string;
  ScheduleType : string
}.

Record HealthcheckOptions := mkHealthcheckOptions {
  StartupDelaySeconds : Z;
  StartupTimeoutSeconds : Z;
  StartupIntervalSeconds : Z;
  FailureStatusCodes : list Z;
  Protocol : string;
  Uri : string;
  PortIndex : Z;
  ResponseTimeoutSeconds : Z;
  IntervalSeconds : Z;
  MaxRetries : Z
}.

Record SingularityResources := mkSingularityResources {
  rez_Cpus : float64;
  rez_MemoryMb : float64;
  rez_NumPorts : Z
}.

Record SingularityVolume := mkSingularityVolume {
  ContainerPath : string;
  HostPath : string;
  sv_Mode : string
}.

Record SingularityDockerInfo := mkSingularityDockerInfo {
  Image : string;
  Network : string
}.

Record SingularityContainerInfo := mkSingularityContainerInfo {
  ci_Type : string;
  ci_Docker : option SingularityDockerInfo;
  ci_Volumes : list (option SingularityVolume)
}.

Record SingularityDeploy := mkSingularityDeploy {
  dep_Id : string;
  dep_RequestId : string;
  dep_Resources : option SingularityResources;
  ContainerInfo : option SingularityContainerInfo;
  dep_Env : gomap string;
  dep_Metadata : gomap string;
  Healthcheck : option HealthcheckOptions
}.

Record SingularityDeployRequest := mkSingularityDeployRequest {
  dreq_Deploy : option SingularityDeploy
}.

Record SingularityDeployMarker := mkSingularityDeployMarker {
  marker_RequestId : string;
  marker_DeployId : string
}.

Record SingularityRequestDeployState := mkSingularityRequestDeployState {
  rds_ActiveDeploy : option SingularityDeployMarker;
  rds_PendingDeploy : option SingularityDeployMarker
}.

Record SingularityRequestParent := mkSingularityRequestParent {
  rp_Request : option SingularityRequest;
  rp_PendingDeploy : option SingularityDeploy;
  rp_ActiveDeploy : option SingularityDeploy;
  rp_State : string;
  RequestDeployState : option SingularityRequestDeployState
}.

Record SingularityDeployFailure := mkSingularityDeployFailure {
  fail_Message : string
}.

Record SingularityDeployResult := mkSingularityDeployResult {
  res_DeployState : string;
  res_Message : string;
  DeployFailures : list (option SingularityDeployFailure)
}.

Record SingularityDeployHistory := mkSingularityDeployHistory {
  dh_DeployResult : option SingularityDeployResult;
  dh_DeployMarker : option SingularityDeployMarker;
  dh_Deploy : option SingularityDeploy
}.

(** lib/constants.go *)
Definition ClusterNameLabel : string := "com.opentable.sous.clustername".
Definition FlavorLabel : string := "com.opentable.sous.flavor".

(** ** Widths *)

(** The conversion [int32(x)]. *)
Definition int32 (z : Z) : Z := (z + 2 ^ 31) mod 2 ^ 32 - 2 ^ 31.

Definition fits32 (z : Z) : Prop := - 2 ^ 31 ≤ z < 2 ^ 31.

Lemma int32_id z : fits32 z → int32 z = z.
Proof. intros Hz. unfold fits32 in Hz. unfold int32. rewrite Z.mod_small; lia. Qed.

Lemma int32_fits z : fits32 (int32 z).
Proof.
  unfold fits32, int32. pose proof (Z.mod_pos_bound (z + 2 ^ 31) (2 ^ 32)). lia.
Qed.

Lemma int32_list l : Forall fits32 l → int32 <$> l = l.
Proof. induction 1 as [|z l Hz _ IH]; [done|]. cbn. by rewrite int32_id, IH. Qed.

(** What an integer of the program becomes on the way is decided by its low 32
    bits. *)
Lemma int32_wraps a b : int32 a = int32 b ↔ a mod 2 ^ 32 = b mod 2 ^ 32.
Proof.
  unfold int32. split; intros H.
  - assert ((a + 2 ^ 31) mod 2 ^ 32 = (b + 2 ^ 31) mod 2 ^ 32) as H' by lia.
    apply (f_equal (λ z, (z - 2 ^ 31) mod 2 ^ 32)) in H'.
    rewrite !Zminus_mod_idemp_l in H'.
    by replace (a + 2 ^ 31 - 2 ^ 31) with a in H' by lia;
      replace (b + 2 ^ 31 - 2 ^ 31) with b in H' by lia.
  - rewrite <-(Zplus_mod_idemp_l a), <-(Zplus_mod_idemp_l b). by rewrite H.
Qed.
