(* ===== verification/Singularity.v ===== *)
(** * The Singularity deployer (ext/singularity/deployer.go)

    What is asked of Singularity to create or change a deployment, and when.  The
    client that turns it into requests is an interface; [RectiAgent] implements
    it. *)

From S2P Require Import Prelude GoStrings Flaw GoFloat Semv Ids Startup DeployConfig CMap.
From S2P Require Import Deployment Samples State Differ ResolveErrors Resolver SingIds.
#[local] Open Scope string_scope.
#[local] Open Scope Z_scope.
#[local] Open Scope list_scope.

(** ** Rectifying *)

(** What is sent to Singularity. *)
Inductive action : Type :=
| PostRequest (d : Deployable) (reqID : string)
| Deploy (d : Deployable) (reqID depID : string).

(** The client: [None] is success.  [req_status] is the HTTP status of an error
    that is a [*swaggering.ReqError]. *)
Class Client := {
  send : action → option err;
  req_status : err → option Z
}.

Definition changesReq (prior post : Deployable) : bool :=
  let p := dep_Deployment prior in
  let o := dep_Deployment post in
  (bool_decide (Kind p = ManifestKindScheduled) &&
   negb (bool_decide (Schedule (d_DeployConfig p) = Schedule (d_DeployConfig o))))
  || negb (bool_decide (Kind p = Kind o))
  || negb (NumInstances (d_DeployConfig p) =? NumInstances (d_DeployConfig o))
  || negb (OwnerSet_Equal (Owners p) (Owners o)).

(** Comparing volumes can panic; the conditions before can make it moot. *)
Definition changesDep (prior post : Deployable) : option bool :=
  let p := dep_Deployment prior in
  let o := dep_Deployment post in
  if decide (Status post = DeployStatusFailed) then Some true
  else if decide (Status prior = DeployStatusFailed) then Some true
  else if negb (SourceID_Equal (d_SourceID p) (d_SourceID o)) then Some true
  else if negb (Resources_Equal (dc_Resources (d_DeployConfig p)) (dc_Resources (d_DeployConfig o)))
  then Some true
  else if negb (Env_Equal (dc_Env (d_DeployConfig p)) (dc_Env (d_DeployConfig o))) then Some true
  else v ← Volumes_Equal (dc_Volumes (d_DeployConfig p)) (dc_Volumes (d_DeployConfig o));
       if negb v then Some true
       else Some (negb (Equal (dc_Startup (d_DeployConfig p)) (dc_Startup (d_DeployConfig o)))).

Definition panicked : err := EOther "*errors.fundamental" (Lit "Panicked: %s; stack trace:
%s").

Section Rectifying.
Context `{Client}.

(** The one error of [ShortName], and so of [MakeRequestID]. *)
Definition did_error (e : id_error) : err :=
  EOther "*errors.errorString"
    (match e with
     | NotARepo repo => errorf "string %q does not represent a repo" [AStr repo]
     | _ => Lit "" (* of the parsers, not of [ShortName] *)
     end).

(** The actions taken, and the error, if any; a panic becomes an error. *)
Definition RectifySingleCreate (post : option Deployable) (uid : list ascii) : list action * option err :=
  match post with
  | None => ([], Some panicked)
  | Some d =>
      match MakeRequestID (Deployment_ID (dep_Deployment d)) with
      | Err e => ([], Some (did_error e))
      | Ok reqID =>
          let a := PostRequest d reqID in
          match send a with
          | Some e => ([a], Some e)
          | None =>
              let b := Deploy d reqID
                (computeDeployIDFromUUID (sid_Version (d_SourceID (dep_Deployment d))) uid) in
              ([a; b], send b)
          end
      end
  end.

Definition RectifySingleDelete (data : ExecutorData) : list action * option err :=
  match data with
  | SingularityTaskData _ => ([], None)
  | _ => ([], Some (EOther "*errors.fundamental"
                      (Lit "Delete record %#v doesn't contain Singularity compatible data: was %T")))
  end.

(** The comparison before the deferred recovery: [None] is a panic that nothing
    recovers from. *)
Definition RectifySingleModification (prior post : Deployable) (data : ExecutorData) (uid : list ascii) :
    option (list action * option err) :=
  _ ← Deployment_Diff (dep_Deployment post) (dep_Deployment prior);
  Some (match data with
  | SingularityTaskData reqID =>
      let a := PostRequest post reqID in
      let '(acts, e) := if changesReq prior post then ([a], send a) else ([], None) in
      match e with
      | Some e => (acts, Some e)
      | None =>
          match changesDep prior post with
          | None => (acts, Some panicked)
          | Some false => (acts, None)
          | Some true =>
              let b := Deploy post reqID
                (computeDeployIDFromUUID (sid_Version (d_SourceID (dep_Deployment post))) uid) in
              (acts ++ [b], send b)
          end
      end
  | _ => ([], Some (EOther "*errors.fundamental"
                      (Lit "Modification record %#v doesn't contain Singularity compatible data: was %T")))
  end).

Definition rez_of (dp : DeployablePair) (desc : ResolutionType) (e : option ErrorWrapper) :
    DiffResolution := mkDiffResolution (pair_name dp) desc e None "".

(** [fresh] is the UUID drawn for a pair that has none. *)
Definition Rectify (pair : DeployablePair) (fresh : list ascii) :
    option (list action * DiffResolution) :=
  let uid := default fresh (Differ.UUID pair) in
  k ← pair_Kind pair;
  match k with
  | SameKind =>
      resolution ← SameResolution pair;
      post ← Post pair;
      Some ([], if decide (Status post = DeployStatusFailed)
                then mkDiffResolution (rez_DeploymentID resolution) (rez_Desc resolution)
                       (Some (WrapResolveError EFailedStatus)) None ""
                else resolution)
  | AddedKind =>
      let '(acts, e) := RectifySingleCreate (Post pair) uid in
      match e with
      | None => Some (acts, rez_of pair CreateDiff None)
      | Some e =>
          post ← Post pair;
          let created := WrapResolveError (ECreate (Some (Deployment_Clone (dep_Deployment post))) (Some e)) in
          Some (acts, rez_of pair "not created" (Some (match req_status e with
            | Some s => if s =? 400 then WrapResolveError e else created
            | None => created
            end)))
      end
  | RemovedKind =>
      let '(acts, e) := RectifySingleDelete (pair_ExecutorData pair) in
      match e with
      | None => Some (acts, rez_of pair DeleteDiff None)
      | Some e =>
          prior ← Prior pair;
          Some (acts, rez_of pair "not deleted" (Some (WrapResolveError
            (EDelete (Some (Deployment_Clone (dep_Deployment prior))) (Some e)))))
      end
  | ModifiedKind =>
      prior ← Prior pair; post ← Post pair;
      '(acts, e) ← RectifySingleModification prior post (pair_ExecutorData pair) uid;
      Some (acts, match e with
        | Some e =>
            rez_of pair "not updated" (Some (WrapResolveError (EChange
              (Some (mkDeploymentPair zeroDeploymentID
                       (Some (Deployment_Clone (dep_Deployment prior)))
                       (Some (Deployment_Clone (dep_Deployment post))) DeployStatusAny)) (Some e))))
        | None =>
            rez_of pair ModifyDiff
              (if decide (Status prior = DeployStatusFailed ∨ Status post = DeployStatusFailed)
               then Some (WrapResolveError EFailedStatus) else None)
        end)
  end.
End Rectifying.

(** ** Lemmas: what changes *)

(** The part of a configuration that Singularity is told about. *)
Record config_sent_equiv (dc o : DeployConfig) : Prop := {
  cs_instances : NumInstances dc = NumInstances o;
  cs_env : entries (dc_Env dc) = entries (dc_Env o);
  cs_resources : resources_equiv (dc_Resources dc) (dc_Resources o);
  cs_volumes : dc_Volumes dc ≡ₚ dc_Volumes o;
  cs_startup : equiv (dc_Startup dc) (dc_Startup o)
}.

Record deployment_sent_equiv (d o : Deployment) : Prop := {
  ds_source : source_equiv (d_SourceID d) (d_SourceID o);
  ds_kind : Kind d = Kind o;
  ds_sched : Kind d = ManifestKindScheduled →
    Schedule (d_DeployConfig d) = Schedule (d_DeployConfig o);
  ds_owners : Owners d = Owners o;
  ds_config : config_sent_equiv (d_DeployConfig d) (d_DeployConfig o)
}.

(** Equivalence is that, and equal metadata. *)
Lemma deployment_equiv_sent d o :
  deployment_equiv d o ↔
    Deployment_ID d = Deployment_ID o ∧ deployment_sent_equiv d o ∧
    entries (dc_Metadata (d_DeployConfig d)) = entries (dc_Metadata (d_DeployConfig o)).
Proof.
  split.
  - intros [Hid Hs Hk Hsch Ho [? ? ? ? ? ?]]. split_and!; [done| |done]. by split.
  - intros (Hid&[Hs Hk Hsch Ho [? ? ? ? ?]]&Hm). by split.
Qed.

Lemma changesReq_spec prior post :
  let p := dep_Deployment prior in let o := dep_Deployment post in
  changesReq prior post = false ↔
    (Kind p = ManifestKindScheduled → Schedule (d_DeployConfig p) = Schedule (d_DeployConfig o)) ∧
    Kind p = Kind o ∧ NumInstances (d_DeployConfig p) = NumInstances (d_DeployConfig o) ∧
    Owners p = Owners o.
Proof.
  cbn zeta. unfold changesReq. rewrite !orb_false_iff, andb_false_iff, !negb_false_iff, OwnerSet_Equal_spec,
    Z.eqb_eq, !bool_decide_eq_true, bool_decide_eq_false.
  destruct (decide (Kind (dep_Deployment prior) = ManifestKindScheduled)); naive_solver.
Qed.

Lemma changesDep_ok prior post :
  let p := dep_Deployment prior in let o := dep_Deployment post in
  d_volumes_ok p → d_volumes_ok o →
  ∃ b, changesDep prior post = Some b ∧
    (b = false ↔ Status post ≠ DeployStatusFailed ∧ Status prior ≠ DeployStatusFailed ∧
       source_equiv (d_SourceID p) (d_SourceID o) ∧
       resources_equiv (dc_Resources (d_DeployConfig p)) (dc_Resources (d_DeployConfig o)) ∧
       entries (dc_Env (d_DeployConfig p)) = entries (dc_Env (d_DeployConfig o)) ∧
       dc_Volumes (d_DeployConfig p) ≡ₚ dc_Volumes (d_DeployConfig o) ∧
       equiv (dc_Startup (d_DeployConfig p)) (dc_Startup (d_DeployConfig o))).
Proof.
  cbn zeta. intros Hp Ho. setoid_rewrite <-SourceID_Equal_spec. setoid_rewrite <-Resources_Equal_iff.
  unfold changesDep. rewrite Volumes_Equal_ok by done.
  pose proof (Env_Equal_spec (dc_Env (d_DeployConfig (dep_Deployment prior)))
    (dc_Env (d_DeployConfig (dep_Deployment post)))) as He.
  pose proof (Equal_iff (dc_Startup (d_DeployConfig (dep_Deployment prior)))
    (dc_Startup (d_DeployConfig (dep_Deployment post)))) as Hs.
  case_decide; [eexists; split; [done|naive_solver]|].
  case_decide; [eexists; split; [done|naive_solver]|].
  destruct (SourceID_Equal _ _); simpl; [|eexists; split; [done|naive_solver]].
  destruct (Resources_Equal _ _); simpl; [|eexists; split; [done|naive_solver]].
  destruct (Env_Equal _ _); simpl; [|eexists; split; [done|naive_solver]].
  case_bool_decide; simpl; [|eexists; split; [done|naive_solver]].
  eexists. split; [done|]. rewrite negb_false_iff. naive_solver.
Qed.

(** Nothing to send: what Singularity is told is the same, and neither failed. *)
Lemma nothing_to_send prior post :
  d_volumes_ok (dep_Deployment prior) → d_volumes_ok (dep_Deployment post) →
  (changesReq prior post = false ∧ changesDep prior post = Some false) ↔
  (deployment_sent_equiv (dep_Deployment prior) (dep_Deployment post) ∧
   Status prior ≠ DeployStatusFailed ∧ Status post ≠ DeployStatusFailed).
Proof.
  intros Hp Ho. rewrite changesReq_spec. destruct (changesDep_ok prior post Hp Ho) as (b&->&Hb).
  assert (Some b = Some false ↔ b = false) as -> by naive_solver. rewrite Hb. split.
  - intros ((?&?&?&?)&?&?&?&?&?&?&?). split_and!; [|done|done]. by split.
  - intros ([? ? ? ? [? ? ? ? ?]]&?&?). by split_and!.
Qed.

(** ** Properties: rectifying *)

Section RectifyProperties.
Context `{Client}.

Lemma if_neither {A} (P Q : Prop) `{Decision P, Decision Q} (x : A) :
  (if decide (P ∨ Q) then Some x else None) = None ↔ ¬ P ∧ ¬ Q.
Proof. case_decide; split; try done; tauto. Qed.

(** C8.  A modification sends the request exactly when the kind, the schedule of a
    scheduled job, the number of instances or the owners change, then a deploy
    exactly when something failed or the version, resources, environment, volumes
    or startup change; both to the request the running deployment has, and the
    deploy under an ID made of the intended version.  When the client accepts
    everything the pair is resolved as updated, even if nothing had to be sent
    (which is when nothing failed and the two agree on all that Singularity is
    told), and with an error exactly when one of the two had failed. *)
Theorem Rectify_Modified (pair : DeployablePair) (prior post : Deployable) (reqID : string)
    (fresh : list ascii) :
  let p := dep_Deployment prior in let o := dep_Deployment post in
  Prior pair = Some prior → Post pair = Some post →
  pair_ExecutorData pair = SingularityTaskData reqID →
  Deployment_ID o = Deployment_ID p → d_volumes_ok p → d_volumes_ok o →
  pair_Kind pair = Some ModifiedKind → (∀ a, send a = None) →
  ∃ acts rez (rq dp : bool), Rectify pair fresh = Some (acts, rez) ∧
    acts = (if rq then [PostRequest post reqID] else []) ++
           (if dp then [Deploy post reqID (computeDeployIDFromUUID
                (sid_Version (d_SourceID o)) (default fresh (Differ.UUID pair)))]
            else []) ∧
    (rq = false ↔
       (Kind p = ManifestKindScheduled →
          Schedule (d_DeployConfig p) = Schedule (d_DeployConfig o)) ∧
       Kind p = Kind o ∧ NumInstances (d_DeployConfig p) = NumInstances (d_DeployConfig o) ∧
       Owners p = Owners o) ∧
    (dp = false ↔
       Status post ≠ DeployStatusFailed ∧ Status prior ≠ DeployStatusFailed ∧
       source_equiv (d_SourceID p) (d_SourceID o) ∧
       resources_equiv (dc_Resources (d_DeployConfig p)) (dc_Resources (d_DeployConfig o)) ∧
       entries (dc_Env (d_DeployConfig p)) = entries (dc_Env (d_DeployConfig o)) ∧
       dc_Volumes (d_DeployConfig p) ≡ₚ dc_Volumes (d_DeployConfig o) ∧
       equiv (dc_Startup (d_DeployConfig p)) (dc_Startup (d_DeployConfig o))) ∧
    rez_DeploymentID rez = pair_name pair ∧ rez_Desc rez = ModifyDiff ∧
    (rez_Error rez = None ↔ Status prior ≠ DeployStatusFailed ∧ Status post ≠ DeployStatusFailed) ∧
    (acts = [] ↔
       deployment_sent_equiv p o ∧ Status prior ≠ DeployStatusFailed ∧ Status post ≠ DeployStatusFailed).
Proof.
  cbn zeta. intros Hpr Hpo Hdata Hid Hvp Hvo Hk Hsend.
  destruct (Deployment_Diff_ok (dep_Deployment post) (dep_Deployment prior) Hid Hvo Hvp) as (diffs&Hd&_).
  pose proof (nothing_to_send prior post Hvp Hvo) as Hnone.
  destruct (changesDep_ok prior post Hvp Hvo) as (b&Hb&Hdep).
  pose proof (changesReq_spec prior post) as Hreq. cbn zeta in Hreq, Hdep.
  rewrite Hb in Hnone. unfold Rectify. rewrite Hk, Hpr, Hpo. cbn [mbind option_bind]. unfold RectifySingleModification.
  rewrite Hd, Hdata, Hb. cbn [mbind option_bind].
  destruct (changesReq prior post), b; rewrite ?Hsend;
    [eexists _, _, true, true|eexists _, _, true, false|eexists _, _, false, true|eexists _, _, false, false];
    rewrite <-Hnone, <-Hdep, <-Hreq; (split; [reflexivity|]);
    (split; [done|]); (split; [done|]); (split; [done|]); (split; [done|]); (split; [done|]);
    (split; [apply if_neither|]); (split; [intros Hnil; by split|by intros [? ?]]).
Qed.

(** A creation posts the request first and deploys only when that was
    accepted; the IDs are those of the intended deployment; and its resolution is
    an error exactly when the client refused one of the two or the deployment has
    no request ID. *)
Theorem Rectify_Added (pair : DeployablePair) (post : Deployable) (fresh : list ascii) :
  Prior pair = None → Post pair = Some post →
  ∃ acts rez, Rectify pair fresh = Some (acts, rez) ∧ rez_DeploymentID rez = pair_name pair ∧
    match MakeRequestID (Deployment_ID (dep_Deployment post)) with
    | Err _ => acts = [] ∧ rez_Error rez ≠ None
    | Ok reqID =>
        let depID := computeDeployIDFromUUID (sid_Version (d_SourceID (dep_Deployment post)))
                       (default fresh (Differ.UUID pair)) in
        (acts = [PostRequest post reqID] ∧ send (PostRequest post reqID) ≠ None ∧ rez_Error rez ≠ None) ∨
        (acts = [PostRequest post reqID; Deploy post reqID depID] ∧
         send (PostRequest post reqID) = None ∧
         (rez_Error rez = None ↔ send (Deploy post reqID depID) = None) ∧
         (rez_Error rez = None ↔ rez_Desc rez = CreateDiff))
    end.
Proof.
  intros Hpr Hpo. unfold Rectify, pair_Kind. rewrite Hpr, Hpo. cbn [mbind option_bind].
  unfold RectifySingleCreate. destruct (MakeRequestID _) as [reqID|e].
  2: { eexists _, _. split; [reflexivity|]. split; [done|]. split; [done|]. by simpl. }
  destruct (send (PostRequest post reqID)) as [e|] eqn:Hs1.
  - eexists _, _. split; [reflexivity|]. split; [done|]. left. split_and!; [done|done|by simpl].
  - destruct (send (Deploy post reqID _)) as [e|] eqn:Hs2;
      (eexists _, _; split; [reflexivity|]; split; [done|]; right; split_and!; [done|done|..]);
      simpl; rewrite ?Hs2; naive_solver.
Qed.
End RectifyProperties.

(** ** Witnesses *)

Definition willing_client : Client := {| send := λ _, None; req_status := λ _, None |}.

Definition sample_prior : Deployable := of_state sample_state.
Definition sample_post : Deployable := active sample_deployment.

(** Only the number of instances differs: the request is sent, and no deploy. *)
Lemma Rectify_Modified_witness :
  let pair := new_pair (Some sample_prior) (Some sample_post) sample_did (SingularityTaskData "req") in
  ∃ rez, @Rectify willing_client pair (replicate 16 "000"%char) = Some ([PostRequest sample_post "req"], rez) ∧
    rez_DeploymentID rez = sample_did ∧ rez_Desc rez = ModifyDiff ∧ rez_Error rez = None.
Proof.
  intros pair.
  destruct (@Rectify_Modified willing_client pair sample_prior sample_post "req"
    (replicate 16 "000"%char) eq_refl eq_refl eq_refl eq_refl (sample_volumes_ok 2)
    (sample_volumes_ok 3)) as (acts&rez&rq&dp&Hr&Hacts&Hrq&Hdp&Hid&Hdesc&Herr&_).
  - unfold pair_Kind. cbn. vm_compute. reflexivity.
  - reflexivity.
  - exists rez. rewrite Hr, Hacts. clear Hr Hacts. destruct rq, dp; try (split_and!; [reflexivity|done|done|apply Herr; by split]).
    all: exfalso.
    + discriminate (proj2 Hdp ltac:(split_and!; [done|done|apply source_equiv_refl|by apply resources_equiv_refl_entries|reflexivity|reflexivity|reflexivity])).
    + destruct (proj1 Hrq eq_refl) as (_&_&Hn&_). vm_compute in Hn. discriminate Hn.
    + destruct (proj1 Hrq eq_refl) as (_&_&Hn&_). vm_compute in Hn. discriminate Hn.
Defined.

Lemma Rectify_Added_witness :
  let pair := new_pair None (Some sample_post) sample_did NoData in
  ∃ acts rez, @Rectify willing_client pair (replicate 16 "000"%char) = Some (acts, rez) ∧
    rez_DeploymentID rez = sample_did.
Proof.
  intros pair.
  destruct (@Rectify_Added willing_client pair sample_post (replicate 16 "000"%char)
    eq_refl eq_refl) as (acts&rez&Hr&Hid&_).
  exists acts, rez. auto.
Defined.
