(* ===== verification/RectiAgent.v ===== *)
(** * The client of Singularity (ext/singularity/recti-agent.go)

    The requests and deploys that the deployer asks for, as the data transfer
    objects that are sent.  The registry that knows the labels of an image is the
    class [ImageLabeller]; the HTTP client of a server is the class
    [SingularityAPI], whose answers are functions of what it is sent.  The agent
    is the deployer's [Client]. *)

From S2P Require Import Prelude GoStrings Flaw GoFloat Semv Ids Startup DeployConfig CMap.
From S2P Require Import Deployment Samples State Differ ResolveErrors Resolver SingIds SingDtos Singularity.
#[local] Open Scope string_scope.
#[local] Open Scope Z_scope.
#[local] Open Scope list_scope.

(** ** Interfaces *)

Class ImageLabeller := {
  ImageLabels : string → result err (gomap string)
}.

(** [client] is a [*singularity.Client]; [NewClient] makes one of a URL.  [None] is
    success. *)
Class SingularityAPI (client : Type) := {
  NewClient : string → client;
  api_Deploy : client → SingularityDeployRequest → option err;
  api_PostRequest : client → SingularityRequest → option err;
  api_DeleteRequest : client → string → string → option err;
  api_Scale : client → string → string → Z → string → bool → option err;
  api_status : err → option Z
}.

(** ** Requests *)

Definition determineRequestType (kind : string) : result err string :=
  if decide (kind = ManifestKindService) then Ok SERVICE
  else if decide (kind = ManifestKindWorker) then Ok WORKER
  else if decide (kind = ManifestKindOnDemand) then Ok ON_DEMAND
  else if decide (kind = ManifestKindScheduled) then Ok SCHEDULED
  else if decide (kind = ManifestKindOnce) then Ok RUN_ONCE
  else Err (plain_error (errorf "Unrecognized Sous manifest kind: %v" [AStr kind])).

(** [None] is the panic on a deployment without a cluster. *)
Definition singRequestFromDeployment (dep : Deployment) (reqID : string) :
    option (result err (string * SingularityRequest)) :=
  cluster ← d_Cluster dep;
  Some (reqType ← determineRequestType (Kind dep);
        Ok (BaseURL cluster,
            {| req_Id := reqID; RequestType := reqType;
               Instances := int32 (NumInstances (d_DeployConfig dep));
               req_Owners := Slice (Owners dep);
               req_Schedule := if decide (reqType = SCHEDULED)
                               then Schedule (d_DeployConfig dep) else "";
               ScheduleType := if decide (reqType = SCHEDULED) then CRON else "" |})).

(** ** Deploys *)

Definition mapResources (r : Resources) : SingularityResources :=
  {| rez_Cpus := Cpus r; rez_MemoryMb := Memory r; rez_NumPorts := int32 (Ports r) |}.

Definition MapStartupIntoHealthcheckOptions (startup : Startup) : option HealthcheckOptions :=
  if SkipCheck startup then None
  else Some {|
    StartupDelaySeconds := int32 (ConnectDelay startup);
    StartupTimeoutSeconds := int32 (Timeout startup);
    StartupIntervalSeconds := int32 (ConnectInterval startup);
    FailureStatusCodes := int32 <$> CheckReadyFailureStatuses startup;
    Protocol := CheckReadyProtocol startup;
    Uri := CheckReadyURIPath startup;
    PortIndex := int32 (CheckReadyPortIndex startup);
    ResponseTimeoutSeconds := int32 (CheckReadyURITimeout startup);
    IntervalSeconds := int32 (CheckReadyInterval startup);
    MaxRetries := int32 (CheckReadyRetries startup) |}.

Definition sing_volume (v : Volume) : SingularityVolume :=
  {| ContainerPath := Container v; HostPath := Host v; sv_Mode := Mode v |}.

(** [None] is a panic: no artifact, or a nil map of labels, which is written to.
    Nil volumes are skipped. *)
Definition buildDeployRequest (d : Deployable) (reqID depID : string) (metadata : gomap string) :
    option SingularityDeployRequest :=
  artifact ← dep_BuildArtifact d;
  let dockerImage := ba_Name artifact in
  let dc := d_DeployConfig (dep_Deployment d) in
  md ← metadata;
  let md := <[ClusterNameLabel := ClusterName (dep_Deployment d)]> md in
  let md := <[FlavorLabel := Flavor (dep_Deployment d)]> md in
  let dockerInfo := {| Image := dockerImage; Network := BRIDGE |} in
  let vs := Some ∘ sing_volume <$> omap id (dc_Volumes dc) in
  let ci := {| ci_Type := DOCKER; ci_Docker := Some dockerInfo; ci_Volumes := vs |} in
  Some {| dreq_Deploy := Some {|
    dep_Id := depID; dep_RequestId := reqID;
    dep_Resources := Some (mapResources (dc_Resources dc));
    ContainerInfo := Some ci;
    dep_Env := dc_Env dc;
    dep_Metadata := Some md;
    Healthcheck := MapStartupIntoHealthcheckOptions (dc_Startup dc) |} |}.

(** ** The agent *)

(** The clients of the servers spoken to so far. *)
Record RectiAgent (client : Type) := mkRectiAgent {
  singClients : gmap string client
}.
Arguments mkRectiAgent {client}.
Arguments singClients {client}.

Definition NewRectiAgent {client} : RectiAgent client := mkRectiAgent ∅.

Section Agent.
Context `{ImageLabeller} `{SingularityAPI client}.

Definition singularityClient (url : string) (ra : RectiAgent client) : RectiAgent client * client :=
  match singClients ra !! url with
  | Some cl => (ra, cl)
  | None => let cl := NewClient url in (mkRectiAgent (<[url := cl]> (singClients ra)), cl)
  end.

(** [None] is a panic, which the deployer recovers from. *)
Definition ra_Deploy (d : Deployable) (reqID depID : string) (ra : RectiAgent client) :
    option (RectiAgent client * option err) :=
  match dep_BuildArtifact d with
  | None => Some (ra, Some (EMissingImageName (plain_error (Lit "Missing BuildArtifact on Deployable"))))
  | Some artifact =>
      cluster ← d_Cluster (dep_Deployment d);
      match ImageLabels (ba_Name artifact) with
      | Err e => Some (ra, Some e)
      | Ok labels =>
          depReq ← buildDeployRequest d reqID depID labels;
          let '(ra, cl) := singularityClient (BaseURL cluster) ra in
          Some (ra, api_Deploy cl depReq)
      end
  end.

Definition ra_PostRequest (d : Deployable) (reqID : string) (ra : RectiAgent client) :
    option (RectiAgent client * option err) :=
  r ← singRequestFromDeployment (dep_Deployment d) reqID;
  match r with
  | Err e => Some (ra, Some e)
  | Ok (cluster, req) =>
      let '(ra, cl) := singularityClient cluster ra in
      Some (ra, api_PostRequest cl req)
  end.

Definition ra_DeleteRequest (cluster reqID message : string) (ra : RectiAgent client) :
    RectiAgent client * option err :=
  let '(ra, cl) := singularityClient cluster ra in
  (ra, api_DeleteRequest cl reqID ("Sous: " +:+ message)).

(** [fresh] is the UUID drawn. *)
Definition ra_Scale (cluster reqID : string) (instanceCount : Z) (message : string)
    (fresh : list ascii) (ra : RectiAgent client) : RectiAgent client * option err :=
  let '(ra, cl) := singularityClient cluster ra in
  (ra, api_Scale cl reqID ("SOUS_RECTIFY_" +:+ StripDeployID (UUID_String fresh))
         (int32 instanceCount) ("Sous" +:+ message) false).

(** The agent as the client of the deployer: what it answers does not depend on
    the clients it has made. *)
Definition ra_send (a : action) (ra : RectiAgent client) : option (RectiAgent client * option err) :=
  match a with
  | PostRequest d reqID => ra_PostRequest d reqID ra
  | Deploy d reqID depID => ra_Deploy d reqID depID ra
  end.

Definition made_of_urls (ra : RectiAgent client) : Prop :=
  map_Forall (λ url cl, cl = NewClient url) (singClients ra).

Lemma singularityClient_spec url ra :
  made_of_urls ra →
  (singularityClient url ra).2 = NewClient url ∧ made_of_urls (singularityClient url ra).1.
Proof.
  intros Hra. unfold singularityClient. destruct (singClients ra !! url) as [cl|] eqn:Hu.
  - split; [exact (Hra _ _ Hu)|done].
  - split; [done|]. by apply map_Forall_insert_2.
Qed.

(** The request or deploy that an action sends to the server at [url]; an error
    when nothing is. *)
Definition sent (a : action) : option (result err (string * (SingularityRequest + SingularityDeployRequest))) :=
  match a with
  | PostRequest d reqID =>
      r ← singRequestFromDeployment (dep_Deployment d) reqID;
      Some ('(url, req) ← r; Ok (url, inl req))
  | Deploy d reqID depID =>
      match dep_BuildArtifact d with
      | None => Some (Err (EMissingImageName (plain_error (Lit "Missing BuildArtifact on Deployable"))))
      | Some artifact =>
          cluster ← d_Cluster (dep_Deployment d);
          match ImageLabels (ba_Name artifact) with
          | Err e => Some (Err e)
          | Ok labels =>
              depReq ← buildDeployRequest d reqID depID labels;
              Some (Ok (BaseURL cluster, inr depReq))
          end
      end
  end.

Definition answer (r : result err (string * (SingularityRequest + SingularityDeployRequest))) : option err :=
  match r with
  | Err e => Some e
  | Ok (url, inl req) => api_PostRequest (NewClient url) req
  | Ok (url, inr dep) => api_Deploy (NewClient url) dep
  end.

(** The agent sends an action to the server of its cluster, whatever it sent
    before, and answers what the server does. *)
Lemma ra_send_spec a ra :
  made_of_urls ra →
  match sent a with
  | None => ra_send a ra = None
  | Some r => ∃ ra', ra_send a ra = Some (ra', answer r) ∧ made_of_urls ra'
  end.
Proof.
  intros Hra. destruct a as [d reqID|d reqID depID]; cbn [sent ra_send].
  - unfold ra_PostRequest. destruct (singRequestFromDeployment _ _) as [[[url req]|e]|]; cbn; [| |done].
    + destruct (singularityClient_spec url ra Hra) as [Hc Hm].
      destruct (singularityClient url ra) as [ra' cl]. cbn in Hc. subst cl. by exists ra'.
    + by exists ra.
  - unfold ra_Deploy. destruct (dep_BuildArtifact d) as [art|] eqn:Hart; [|by exists ra].
    destruct (d_Cluster (dep_Deployment d)) as [cluster|]; [|done]. cbn.
    destruct (ImageLabels (ba_Name art)) as [labels|e]; [|by exists ra].
    destruct (buildDeployRequest d reqID depID labels) as [dep|]; [|done]. cbn.
    destruct (singularityClient_spec (BaseURL cluster) ra Hra) as [Hc Hm].
    destruct (singularityClient (BaseURL cluster) ra) as [ra' cl]. cbn in Hc. subst cl. by exists ra'.
Qed.

(** A panic is recovered from by the deployer and becomes its error. *)
#[export] Instance agent_client : Client := {|
  send a := match sent a with Some r => answer r | None => Some panicked end;
  req_status := api_status
|}.
End Agent.

(** ** Lemmas *)

Lemma determineRequestType_total kind :
  is_ok (determineRequestType kind) = true ↔
    kind ∈ [ManifestKindService; ManifestKindWorker; ManifestKindOnDemand; ManifestKindScheduled;
            ManifestKindOnce].
Proof.
  unfold determineRequestType. split.
  - repeat case_decide; subst; simpl; intros; try done; set_solver.
  - intros Hk. rewrite !elem_of_cons in Hk.
    destruct Hk as [->|[->|[->|[->|[->|Hk]]]]]; [reflexivity..|]. by apply not_elem_of_nil in Hk.
Qed.

(** What a deploy says of a deployable. *)
Lemma buildDeployRequest_spec d reqID depID labels art :
  dep_BuildArtifact d = Some art →
  ∃ dep ci, buildDeployRequest d reqID depID (Some labels) = Some {| dreq_Deploy := Some dep |} ∧
    dep_Id dep = depID ∧ dep_RequestId dep = reqID ∧
    dep_Metadata dep = Some (<[FlavorLabel := Flavor (dep_Deployment d)]>
      (<[ClusterNameLabel := ClusterName (dep_Deployment d)]> labels)) ∧
    dep_Env dep = dc_Env (d_DeployConfig (dep_Deployment d)) ∧
    dep_Resources dep = Some (mapResources (dc_Resources (d_DeployConfig (dep_Deployment d)))) ∧
    Healthcheck dep = MapStartupIntoHealthcheckOptions (dc_Startup (d_DeployConfig (dep_Deployment d))) ∧
    ContainerInfo dep = Some ci ∧ ci_Type ci = DOCKER ∧
    ci_Docker ci = Some {| Image := ba_Name art; Network := BRIDGE |} ∧
    ci_Volumes ci = Some ∘ sing_volume <$> omap id (dc_Volumes (d_DeployConfig (dep_Deployment d))).
Proof.
  intros Hart. unfold buildDeployRequest. rewrite Hart. cbn. eexists _, _. by split_and!.
Qed.
