(* ===== verification/SingBuilder.v ===== *)
(** * Rebuilding deployments (ext/singularity/deployment_builder.go,
    requeststate.go)

    What a request to Singularity says about a deployment: which deploy counts,
    its status, and the deployment that was asked for.  Each step of the builder
    is a function on its state; an error ends the sequence and is wrapped; [None]
    is a panic, which the callers recover from. *)

From S2P Require Import Prelude GoStrings Flaw GoFloat Semv Ids Startup DeployConfig CMap.
From S2P Require Import Deployment Samples State Differ ResolveErrors Resolver DockerNames Builds.
From S2P Require Import GoQuote SingIds SingDtos Singularity RectiAgent.
#[local] Open Scope string_scope.
#[local] Open Scope Z_scope.
#[local] Open Scope list_scope.

(** ** The client (singclient.go) *)

(** Pointers may be nil in an answer without an error. *)
Record singClient := mkSingClient {
  GetRequest : string → bool → result err (option SingularityRequestParent);
  GetRequests : bool → result err (list (option SingularityRequestParent));
  GetDeploy : string → string → result err (option SingularityDeployHistory);
  GetDeploys : string → Z → Z → result err (list (option SingularityDeployHistory))
}.

(** A request, with the server it is from. *)
Record SingReq := mkSingReq {
  SourceURL : string;
  Sing : singClient;
  ReqParent : option SingularityRequestParent
}.

(** ** Errors *)

(** [BErr] is an error that is not of this file, or one of its small types, which
    [type_name] tells apart. *)
Inductive build_error : Type :=
| BErr (e : err)
| BWrap (msg : text) (e : build_error)
| canRetryRequest (cause : build_error) (req : SingReq).

Definition malformedResponse (message : text) : build_error :=
  BErr (EOther "singularity.malformedResponse" message).
Definition nonSousError : build_error :=
  BErr (EOther "singularity.nonSousError" (Lit "Not a Sous SingularityDeploy.")).
Definition notThisClusterError (found : string) (responsible : list string) : build_error :=
  BErr (EOther "singularity.notThisClusterError"
    (errorf "%s does not belong to this Sous server %#v." (AStr <$> found :: responsible))).

Fixpoint BCause (e : build_error) : build_error :=
  match e with
  | BErr e => BErr (Cause e)
  | BWrap _ e => BCause e
  | canRetryRequest _ _ => e
  end.

(** [%T] of the cause. *)
Definition cause_type (e : build_error) : string :=
  match BCause e with
  | BErr e => type_name e
  | _ => "*singularity.canRetryRequest"
  end.

Definition ignorableDeploy (e : build_error) : bool :=
  bool_decide (cause_type e ∈ ["singularity.nonSousError"; "singularity.notThisClusterError"]).

Definition isMalformed (e : build_error) : bool :=
  bool_decide (cause_type e ∈ ["singularity.malformedResponse"; "*json.UnmarshalTypeError";
                               "*json.UnsupportedTypeError"; "*json.UnsupportedValueError"]).

(** [reqID] never panics. *)
Definition reqID (rp : option SingularityRequestParent) : string :=
  match rp with
  | None => "<null RequestParent>"
  | Some rp => match rp_Request rp with None => "<null Request>" | Some r => req_Id r end
  end.

(** The name that retries are counted under. *)
Definition req_name (r : SingReq) : string := SourceURL r +:+ ":" +:+ reqID (ReqParent r).

(** ** The builder *)

Record deploymentBuilder := mkBuilder {
  clusters : Clusters;
  Target : DeployState;
  imageName : string;
  depMarker : option SingularityDeployMarker;
  history : option SingularityDeployHistory;
  deploy : option SingularityDeploy;
  request : option SingularityRequest;
  req : SingReq;
  db_reqID : string
}.

Definition zeroTarget : DeployState :=
  mkDeployState (mkDeployment zeroConfig "" None (mkSourceID zeroLocation zeroVersion) "" ∅ "")
    DeployStatusAny "" NoData "".

(** Updates of a field. *)
Definition on_Target (f : DeployState → DeployState) (db : deploymentBuilder) : deploymentBuilder :=
  mkBuilder (clusters db) (f (Target db)) (imageName db) (depMarker db) (history db) (deploy db)
    (request db) (req db) (db_reqID db).
Definition set_imageName (s : string) (db : deploymentBuilder) : deploymentBuilder :=
  mkBuilder (clusters db) (Target db) s (depMarker db) (history db) (deploy db)
    (request db) (req db) (db_reqID db).
Definition set_depMarker (m : option SingularityDeployMarker) (db : deploymentBuilder) : deploymentBuilder :=
  mkBuilder (clusters db) (Target db) (imageName db) m (history db) (deploy db)
    (request db) (req db) (db_reqID db).
Definition set_history (h : option SingularityDeployHistory) (db : deploymentBuilder) : deploymentBuilder :=
  mkBuilder (clusters db) (Target db) (imageName db) (depMarker db) h (deploy db)
    (request db) (req db) (db_reqID db).
Definition set_deploy (d : option SingularityDeploy) (db : deploymentBuilder) : deploymentBuilder :=
  mkBuilder (clusters db) (Target db) (imageName db) (depMarker db) (history db) d
    (request db) (req db) (db_reqID db).
Definition set_request (r : option SingularityRequest) (id : string) (db : deploymentBuilder) : deploymentBuilder :=
  mkBuilder (clusters db) (Target db) (imageName db) (depMarker db) (history db) (deploy db)
    r (req db) id.
Definition set_ReqParent (rp : option SingularityRequestParent) (db : deploymentBuilder) : deploymentBuilder :=
  mkBuilder (clusters db) (Target db) (imageName db) (depMarker db) (history db) (deploy db)
    (request db) (mkSingReq (SourceURL (req db)) (Sing (req db)) rp) (db_reqID db).

Definition set_Status (s : DeployStatus) (t : DeployState) : DeployState :=
  mkDeployState (ds_Deployment t) s (ExecutorMessage t) (ds_ExecutorData t) (ds_SchedulerURL t).
Definition set_Message (m : string) (t : DeployState) : DeployState :=
  mkDeployState (ds_Deployment t) (ds_Status t) m (ds_ExecutorData t) (ds_SchedulerURL t).
Definition set_Data (x : ExecutorData) (t : DeployState) : DeployState :=
  mkDeployState (ds_Deployment t) (ds_Status t) (ExecutorMessage t) x (ds_SchedulerURL t).
Definition set_URL (u : string) (t : DeployState) : DeployState :=
  mkDeployState (ds_Deployment t) (ds_Status t) (ExecutorMessage t) (ds_ExecutorData t) u.
Definition on_Deployment (f : Deployment → Deployment) (t : DeployState) : DeployState :=
  mkDeployState (f (ds_Deployment t)) (ds_Status t) (ExecutorMessage t) (ds_ExecutorData t)
    (ds_SchedulerURL t).
Definition set_Cluster (c : Cluster) (d : Deployment) : Deployment :=
  mkDeployment (d_DeployConfig d) (ClusterName d) (Some c) (d_SourceID d) (Flavor d) (Owners d) (Kind d).
Definition set_SourceID (sid : SourceID) (d : Deployment) : Deployment :=
  mkDeployment (d_DeployConfig d) (ClusterName d) (d_Cluster d) sid (Flavor d) (Owners d) (Kind d).
Definition set_names (cluster flavor : string) (d : Deployment) : Deployment :=
  mkDeployment (d_DeployConfig d) cluster (d_Cluster d) (d_SourceID d) flavor (Owners d) (Kind d).
Definition set_Owners (os : OwnerSet) (d : Deployment) : Deployment :=
  mkDeployment (d_DeployConfig d) (ClusterName d) (d_Cluster d) (d_SourceID d) (Flavor d) os (Kind d).

Abbreviation step := (deploymentBuilder → option (deploymentBuilder * option build_error)).
Definition done (db : deploymentBuilder) : option (deploymentBuilder * option build_error) := Some (db, None).
Definition failed (db : deploymentBuilder) (e : build_error) : option (deploymentBuilder * option build_error) :=
  Some (db, Some e).

Definition wrapError (fn : step) (msgStr : string) : step := λ db,
  '(db', e) ← fn db; Some (db', option_map (BWrap (Lit msgStr)) e).

Definition basics : step := λ db,
  let db := on_Target (on_Deployment (set_Cluster
              (mkCluster "" "" (SourceURL (req db)) None zeroStartup []))) db in
  let db := on_Target (set_Data (SingularityTaskData (reqID (ReqParent (req db))))) db in
  rp ← ReqParent (req db);
  done (set_request (rp_Request rp) (reqID (Some rp)) db).

Definition getFullRequestParent : step := λ db,
  rp ← ReqParent (req db);
  if decide (rp_ActiveDeploy rp ≠ None ∨ rp_PendingDeploy rp ≠ None) then done db
  else match GetRequest (Sing (req db)) (db_reqID db) false with
       | Err e => failed db (BErr e)
       | Ok rp => done (set_ReqParent rp db)
       end.

Definition determineDeployStatus : step := λ db,
  match ReqParent (req db) with
  | None => failed db (malformedResponse (Lit "Singularity response didn't include a request parent. %v"))
  | Some rp =>
      match RequestDeployState rp with
      | None => failed db (malformedResponse
                  (errorf "Singularity response didn't include a deploy state. ReqId: %s"
                     [AStr (reqID (Some rp))]))
      | Some rds =>
          if decide (rp_State rp ≠ ACTIVE ∧ rp_State rp ≠ DEPLOYING_TO_UNPAUSE)
          then done (on_Target (set_Status DeployStatusAny) db)
          else match rds_PendingDeploy rds with
               | Some m =>
                   done (set_deploy (rp_PendingDeploy rp) (set_depMarker (Some m)
                           (on_Target (set_Status DeployStatusPending) db)))
               | None => done (on_Target (set_Status DeployStatusAny) db)
               end
      end
  end.

Definition retrieveLiveDeploy : step := λ db,
  if decide (deploy db ≠ None) then done db
  else m ← depMarker db;
       match GetDeploy (Sing (req db)) (marker_RequestId m) (marker_DeployId m) with
       | Err e => failed db (BWrap (errorf "%q %#v" [AStr (db_reqID db); AStr (marker_RequestId m);
                                                     AStr (marker_DeployId m)]) (BErr e))
       | Ok dh => done (set_history dh db)
       end.

Definition retrieveHistoricDeploy : step := λ db,
  match request db with
  | None => failed db (malformedResponse (Lit "Singularity request parent had no request."))
  | Some r =>
      match GetDeploys (Sing (req db)) (req_Id r) 1 1 with
      | Err e => failed db (BWrap (Lit "GetDeploys") (BErr e))
      | Ok [] => failed db (malformedResponse (Lit "Singularity deploy history list was empty."))
      | Ok (None :: _) => None
      | Ok (Some partialHistory :: _) =>
          match dh_DeployMarker partialHistory with
          | None => failed db (malformedResponse (Lit "Singularity deploy history had no deploy marker."))
          | Some m => retrieveLiveDeploy (set_depMarker (Some m) db)
          end
      end
  end.

Definition retrieveDeployHistory : step := λ db,
  match depMarker db with
  | None => retrieveHistoricDeploy db
  | Some _ => retrieveLiveDeploy db
  end.

Definition extractDeployFromDeployHistory : step := λ db,
  if decide (deploy db ≠ None) then done db
  else h ← history db;
       let db := set_deploy (dh_Deploy h) db in
       match dh_Deploy h with
       | None => failed db (malformedResponse (Lit "Singularity deploy history included no deploy"))
       | Some _ => done db
       end.

Definition sousDeployCheck : step := λ db,
  d ← deploy db;
  match entries (dep_Metadata d) !! ClusterNameLabel with
  | Some cnl =>
      if decide (cnl ∈ Names (clusters db)) then done db
      else failed db (notThisClusterError cnl (Names (clusters db)))
  | None => failed db nonSousError
  end.

Fixpoint failure_messages (l : list (option SingularityDeployFailure)) : option (list string) :=
  match l with
  | [] => Some []
  | f :: l => f ← f; ms ← failure_messages l; Some (fail_Message f :: ms)
  end.

Section Builder.
Context `{UnicodeTables} `{ImageLabeller}.
(** The text of an error. *)
Context (sprintf : string → list shown → string).

Definition determineStatus : step := λ db,
  if decide (ds_Status (Target db) ≠ DeployStatusAny) then done db
  else
    h ← history db;
    match dh_DeployResult h with
    | None => done (on_Target (set_Status DeployStatusPending) db)
    | Some r =>
        if decide (res_DeployState r = SUCCEEDED) then done (on_Target (set_Status DeployStatusActive) db)
        else
          msgs ← failure_messages (DeployFailures r);
          let msg := if decide (DeployFailures r = []) then res_Message r else join ", " msgs in
          d ← dh_Deploy h;
          let message := "Deploy failure: " +:+ Quote msg +:+ " " +:+ SourceURL (req db) +:+ "/request/"
                         +:+ dep_RequestId d +:+ "/deploy/" +:+ dep_Id d in
          done (on_Target (set_Status DeployStatusFailed) (on_Target (set_Message message) db))
    end.

Definition extractArtifactName : step := λ db,
  d ← deploy db;
  match ContainerInfo d with
  | None => failed db (malformedResponse (Lit "Blank container info"))
  | Some ci =>
      if decide (ci_Type ci ≠ DOCKER)
      then failed db (malformedResponse (Lit "Singularity container isn't a docker container"))
      else match ci_Docker ci with
           | None => failed db (malformedResponse (Lit "Singularity deploy didn't include a docker info"))
           | Some dkr => done (set_imageName (Image dkr) db)
           end
  end.

Definition labels_text (e : labels_error) : text :=
  match e with
  | MissingLabels l => errorf "Missing labels: %v" (AStr <$> l)
  | LabelVersion _ => Lit "the error of semv.Parse"
  end.

(** What [SourceIDFromLabels] returns with an error. *)
Definition label_remains (labels : gomap string) (e : labels_error) : SourceID :=
  match e with
  | MissingLabels _ => mkSourceID zeroLocation zeroVersion
  | LabelVersion _ =>
      mkSourceID zeroLocation (mkVersion 0 0 0 "" (default "" (entries labels !! DockerRevisionLabel)) "")
  end.

Definition retrieveImageLabels : step := λ db,
  match ImageLabels (imageName db) with
  | Err e => failed db (malformedResponse (Lit (Error sprintf e)))
  | Ok labels =>
      match SourceIDFromLabels labels with
      | Err e =>
          failed (on_Target (on_Deployment (set_SourceID (label_remains labels e))) db)
            (BWrap (errorf "For reqID: %s" [AStr (reqID (ReqParent (req db)))])
               (malformedResponse (labels_text e)))
      | Ok sid => done (on_Target (on_Deployment (set_SourceID sid)) db)
      end
  end.

Definition getMetadataField (field : string) (md : gomap string) : result build_error string :=
  match entries md !! field with
  | Some v => Ok v
  | None => Err (malformedResponse (errorf "Deploy Metadata did not include a %s" [AStr field]))
  end.

Definition restoreFromMetadata : step := λ db,
  d ← deploy db;
  match getMetadataField ClusterNameLabel (dep_Metadata d) with
  | Err e => failed db e
  | Ok clusterName =>
      let flavor := match getMetadataField FlavorLabel (dep_Metadata d) with Ok f => f | Err _ => "" end in
      done (on_Target (on_Deployment (set_names clusterName flavor)) db)
  end.

Definition unpackResources (r : SingularityResources) : Resources :=
  Some (<["ports" := itoa (rez_NumPorts r)]>
         (<["memory" := format_f (rez_MemoryMb r)]> {["cpus" := format_f (rez_Cpus r)]})).

Definition unpack_volume (v : SingularityVolume) : Volume :=
  mkVolume (HostPath v) (ContainerPath v) (sv_Mode v).

(** A nil volume is a panic. *)
Fixpoint unpack_volumes (l : list (option SingularityVolume)) : option Volumes :=
  match l with
  | [] => Some []
  | v :: l => v ← v; vs ← unpack_volumes l; Some (Some (unpack_volume v) :: vs)
  end.

Definition unpackStartup (hc : option HealthcheckOptions) : Startup :=
  match hc with
  | Some hc =>
      {| SkipCheck := false;
         ConnectDelay := StartupDelaySeconds hc; Timeout := StartupTimeoutSeconds hc;
         ConnectInterval := StartupIntervalSeconds hc; CheckReadyProtocol := Protocol hc;
         CheckReadyURIPath := Uri hc; CheckReadyPortIndex := PortIndex hc;
         CheckReadyFailureStatuses := FailureStatusCodes hc;
         CheckReadyURITimeout := ResponseTimeoutSeconds hc;
         CheckReadyInterval := IntervalSeconds hc; CheckReadyRetries := MaxRetries hc |}
  | None => mkStartup true 0 0 0 "" "" 0 [] 0 0 0
  end.

(** The configuration of a new target is empty: the environment is set first, and
    kept when the resources are missing. *)
Definition unpackDeployConfig : step := λ db,
  d ← deploy db;
  let env : gomap string := Some (entries (dep_Env d)) in
  match dep_Resources d with
  | None =>
      failed (on_Target (on_Deployment (set_DeployConfig
                (mkDeployConfig None None env 0 [] zeroStartup ""))) db)
        (malformedResponse (Lit "Deploy object lacks resources field"))
  | Some singRez =>
      r ← request db;
      ci ← ContainerInfo d;
      vs ← unpack_volumes (ci_Volumes ci);
      let dc := mkDeployConfig (unpackResources singRez) None env (Instances r) vs
                  (unpackStartup (Healthcheck d)) "" in
      done (on_Target (on_Deployment (λ t, set_Owners (NewOwnerSet (req_Owners r)) (set_DeployConfig dc t))) db)
  end.

Definition kind_of_type (t : string) : option string :=
  if decide (t = SERVICE) then Some ManifestKindService
  else if decide (t = WORKER) then Some ManifestKindWorker
  else if decide (t = ON_DEMAND) then Some ManifestKindOnDemand
  else if decide (t = SCHEDULED) then Some ManifestKindScheduled
  else if decide (t = RUN_ONCE) then Some ManifestKindOnce
  else None.

Definition determineManifestKind : step := λ db,
  r ← request db;
  match kind_of_type (RequestType r) with
  | None => failed db (BErr (plain_error
              (errorf "Unrecognized request type returned by Singularity: %v" [AStr (RequestType r)])))
  | Some k => done (on_Target (on_Deployment (set_Kind k)) db)
  end.

Definition set_Schedule (s : string) (dc : DeployConfig) : DeployConfig :=
  mkDeployConfig (dc_Resources dc) (dc_Metadata dc) (dc_Env dc) (NumInstances dc) (dc_Volumes dc)
    (dc_Startup dc) s.

Definition extractSchedule : step := λ db,
  if decide (Kind (ds_Deployment (Target db)) = ManifestKindScheduled) then
    match request db with
    | None => failed db (BErr (plain_error (Lit "request is nil")))
    | Some r =>
        done (on_Target (on_Deployment (λ d, set_DeployConfig
                (set_Schedule (req_Schedule r) (d_DeployConfig d)) d)) db)
    end
  else done db.

Definition completeConstruction : step :=
  first_err [
    wrapError basics "Failed to extract basic information from original request.";
    wrapError getFullRequestParent "Failed to retrieve full RequestParent DTO.";
    wrapError determineDeployStatus "Failed to determine deploy status.";
    wrapError retrieveDeployHistory "Failed to retrieve SingularityDeployHistory from SingularityRequestParent.";
    wrapError extractDeployFromDeployHistory "Failed to extract SingularityDeploy from SingularityDeployHistory.";
    wrapError sousDeployCheck "Could not determine if the SingularityDeploy is controlled by Sous";
    wrapError determineStatus "Could not determine current status of SingularityDeploy";
    wrapError extractArtifactName "Could not extract ArtifactName (Docker image name) from SingularityDeploy.";
    wrapError retrieveImageLabels "Could not retrieve ImageLabels (Docker image labels) from sous.Registry.";
    wrapError restoreFromMetadata "Could not determine cluster name based on SingularityDeploy Metadata.";
    wrapError unpackDeployConfig "Could not convert data from a SingularityDeploy to a sous.Deployment.";
    wrapError determineManifestKind "Could not determine SingularityRequestType.";
    wrapError extractSchedule "Could not determine Singularity schedule." ].

Definition isRetryable (db : deploymentBuilder) (e : build_error) : bool :=
  negb (isMalformed e) && negb (ignorableDeploy e) &&
  negb (bool_decide (SourceURL (req db) = "")) &&
  match ReqParent (req db) with
  | Some rp => match rp_Request rp with
               | Some r => negb (bool_decide (req_Id r = ""))
               | None => false
               end
  | None => false
  end.

Definition canRetry (db : deploymentBuilder) (e : option build_error) : option build_error :=
  e ← e; Some (if isRetryable db e then canRetryRequest e (req db) else e).

(** The target is returned as the steps leave it, also with an error. *)
Definition BuildDeployment (cs : Clusters) (r : SingReq) : option (DeployState * option build_error) :=
  '(db, e) ← completeConstruction (mkBuilder cs zeroTarget "" None None None None r "");
  Some (Target db, canRetry db e).

(** ** The status of one deployment (requeststate.go) *)

(** [buildSingClient] of the deployer. *)
Context (buildSingClient : string → singClient).

(** A failure to find the request or its ID or cluster has no state.  [None] is a
    panic: no intended deployable, or one of the builder. *)
Definition deployer_Status (cs : Clusters) (pair : DeployablePair) :
    option (option DeployState * option build_error) :=
  post ← Post pair;
  match MakeRequestID (Deployment_ID (dep_Deployment post)) with
  | Err e => Some (None, Some (BErr (did_error e)))
  | Ok rid =>
      let clusterName := ClusterName (dep_Deployment post) in
      match cs !! clusterName with
      | None => Some (None, Some (BErr (EOther "*errors.fundamental"
                  (errorf "No cluster found for %q. Known are: %q." (AStr <$> clusterName :: Names cs)))))
      | Some cluster =>
          let url := BaseURL cluster in
          let client := buildSingClient url in
          match GetRequest client rid false with
          | Err e => Some (None, Some (BWrap (Lit "getting request") (BErr e)))
          | Ok reqParent =>
              '(tgt, e) ← BuildDeployment cs (mkSingReq url client reqParent);
              let tgt := set_URL ("http://" +:+ url +:+ "/request/" +:+ rid) tgt in
              Some (Some tgt, option_map (BWrap (Lit "getting request state")) e)
          end
      end
  end.
End Builder.

(** ** Lemmas: errors *)

Lemma isMalformed_wrap msg e : isMalformed (BWrap msg e) = isMalformed e.
Proof. done. Qed.
Lemma ignorable_wrap msg e : ignorableDeploy (BWrap msg e) = ignorableDeploy e.
Proof. done. Qed.

(** ** Lemmas: what the answers of Singularity locate *)

Definition history_status (h : SingularityDeployHistory) : DeployStatus :=
  match dh_DeployResult h with
  | None => DeployStatusPending
  | Some r => if decide (res_DeployState r = SUCCEEDED) then DeployStatusActive else DeployStatusFailed
  end.

Definition no_nil_failures (h : SingularityDeployHistory) : Prop :=
  match dh_DeployResult h with Some r => Forall is_Some (DeployFailures r) | None => True end.

(** A request parent that holds no deploy is asked for again. *)
Definition full_parent (r : SingReq) (rp : SingularityRequestParent) : Prop :=
  ∃ rp0, ReqParent r = Some rp0 ∧
    if decide (rp_ActiveDeploy rp0 ≠ None ∨ rp_PendingDeploy rp0 ≠ None) then rp = rp0
    else GetRequest (Sing r) (reqID (Some rp0)) false = Ok (Some rp).

(** [located r sreq dep st]: of the request [sreq] of [r], the deploy that counts
    is [dep], with status [st]: the pending one of a request that is active, or
    being unpaused; else the last of the history, with the status of its
    result. *)
Inductive located (r : SingReq) (sreq : SingularityRequest) (dep : SingularityDeploy) :
    DeployStatus → Prop :=
| located_pending rp0 rp rds m :
    ReqParent r = Some rp0 → rp_Request rp0 = Some sreq → full_parent r rp →
    RequestDeployState rp = Some rds →
    rp_State rp = ACTIVE ∨ rp_State rp = DEPLOYING_TO_UNPAUSE → rds_PendingDeploy rds = Some m →
    match rp_PendingDeploy rp with
    | Some d => d = dep
    | None => ∃ h, GetDeploy (Sing r) (marker_RequestId m) (marker_DeployId m) = Ok (Some h) ∧
                dh_Deploy h = Some dep
    end →
    located r sreq dep DeployStatusPending
| located_history rp0 rp rds ph l m h :
    ReqParent r = Some rp0 → rp_Request rp0 = Some sreq → full_parent r rp →
    RequestDeployState rp = Some rds →
    (rp_State rp ≠ ACTIVE ∧ rp_State rp ≠ DEPLOYING_TO_UNPAUSE) ∨ rds_PendingDeploy rds = None →
    GetDeploys (Sing r) (req_Id sreq) 1 1 = Ok (Some ph :: l) → dh_DeployMarker ph = Some m →
    GetDeploy (Sing r) (marker_RequestId m) (marker_DeployId m) = Ok (Some h) →
    dh_Deploy h = Some dep → no_nil_failures h →
    located r sreq dep (history_status h).

Section BuilderLemmas.
Context `{UnicodeTables} `{ImageLabeller}.
Context (sprintf : string → list shown → string).

(** The steps up to the status, and those after it. *)
Definition locating : list step := [
  wrapError basics "Failed to extract basic information from original request.";
  wrapError getFullRequestParent "Failed to retrieve full RequestParent DTO.";
  wrapError determineDeployStatus "Failed to determine deploy status.";
  wrapError retrieveDeployHistory "Failed to retrieve SingularityDeployHistory from SingularityRequestParent.";
  wrapError extractDeployFromDeployHistory "Failed to extract SingularityDeploy from SingularityDeployHistory.";
  wrapError sousDeployCheck "Could not determine if the SingularityDeploy is controlled by Sous";
  wrapError determineStatus "Could not determine current status of SingularityDeploy" ].

Definition describing : list step := [
  wrapError extractArtifactName "Could not extract ArtifactName (Docker image name) from SingularityDeploy.";
  wrapError (retrieveImageLabels sprintf) "Could not retrieve ImageLabels (Docker image labels) from sous.Registry.";
  wrapError restoreFromMetadata "Could not determine cluster name based on SingularityDeploy Metadata.";
  wrapError unpackDeployConfig "Could not convert data from a SingularityDeploy to a sous.Deployment.";
  wrapError determineManifestKind "Could not determine SingularityRequestType.";
  wrapError extractSchedule "Could not determine Singularity schedule." ].

Lemma completeConstruction_split db :
  completeConstruction sprintf db =
    match first_err locating db with Some (db', None) => first_err describing db' | x => x end.
Proof. exact (first_err_app locating describing db). Qed.

Lemma first_err_wrap fn msg fs db db' :
  fn db = Some (db', None) → first_err (wrapError fn msg :: fs) db = first_err fs db'.
Proof. intros Hfn. simpl. unfold wrapError. by rewrite Hfn. Qed.

(** A builder that has been told of a request. *)
Definition begun (cs : Clusters) (r : SingReq) (st : DeployStatus) (m : option SingularityDeployMarker)
    (h : option SingularityDeployHistory) (d : option SingularityDeploy) (sreq : option SingularityRequest)
    (rp0 rp : SingularityRequestParent) : deploymentBuilder :=
  mkBuilder cs
    (set_Status st (set_Data (SingularityTaskData (reqID (Some rp0)))
       (on_Deployment (set_Cluster (mkCluster "" "" (SourceURL r) None zeroStartup [])) zeroTarget)))
    "" m h d sreq (mkSingReq (SourceURL r) (Sing r) (Some rp)) (reqID (Some rp0)).

Definition fresh_builder (cs : Clusters) (r : SingReq) : deploymentBuilder :=
  mkBuilder cs zeroTarget "" None None None None r "".

Lemma first_steps cs r rp0 rp fs :
  ReqParent r = Some rp0 → full_parent r rp →
  first_err (wrapError basics "Failed to extract basic information from original request." ::
    wrapError getFullRequestParent "Failed to retrieve full RequestParent DTO." :: fs) (fresh_builder cs r) =
  first_err fs (begun cs r DeployStatusAny None None None (rp_Request rp0) rp0 rp).
Proof.
  intros Hr (rp0'&Hr'&Hf). rewrite Hr in Hr'. injection Hr' as <-.
  destruct r as [url sing prt]; cbn in Hr; subst prt.
  rewrite (first_err_wrap _ _ _ _ (begun cs (mkSingReq url sing (Some rp0)) DeployStatusAny None None None
    (rp_Request rp0) rp0 rp0)) by done.
  apply first_err_wrap. unfold getFullRequestParent. cbn [ReqParent req begun mbind option_bind].
  destruct (decide (rp_ActiveDeploy rp0 ≠ None ∨ rp_PendingDeploy rp0 ≠ None)); [by subst|].
  cbn [Sing] in Hf. cbn [Sing db_reqID req begun]. by rewrite Hf.
Qed.

(** The builder once its deploy is found, with its status. *)
Definition found (cs : Clusters) (r : SingReq) (sreq : SingularityRequest) (dep : SingularityDeploy)
    (st : DeployStatus) (db : deploymentBuilder) : Prop :=
  clusters db = cs ∧ deploy db = Some dep ∧ request db = Some sreq ∧
  ds_Status (Target db) = st ∧ ds_ExecutorData (Target db) = SingularityTaskData (req_Id sreq) ∧
  ds_Deployment (Target db) =
    set_Cluster (mkCluster "" "" (SourceURL r) None zeroStartup []) (ds_Deployment zeroTarget).

Lemma check_passes db dep cn :
  deploy db = Some dep → entries (dep_Metadata dep) !! ClusterNameLabel = Some cn →
  cn ∈ Names (clusters db) → sousDeployCheck db = Some (db, None).
Proof.
  intros Hd Hcn Hin. unfold sousDeployCheck. rewrite Hd. cbn [mbind option_bind]. rewrite Hcn.
  by rewrite decide_True.
Qed.

Lemma failure_messages_Some l : Forall is_Some l → is_Some (failure_messages l).
Proof.
  induction 1 as [|? ? [f ->] _ [ms IH]]; [by eexists|]. cbn. rewrite IH. by eexists.
Qed.

(** The status is that of the history, when it was not set before. *)
Lemma determineStatus_history db h dep :
  ds_Status (Target db) = DeployStatusAny → history db = Some h → dh_Deploy h = Some dep →
  no_nil_failures h →
  ∃ msg, determineStatus db =
    Some (on_Target (λ t, set_Status (history_status h) (set_Message msg t)) db, None).
Proof.
  intros Hs Hh Hd Hf. unfold determineStatus, history_status. rewrite Hs, Hh. cbn [mbind option_bind].
  rewrite decide_False by auto. unfold no_nil_failures in Hf.
  destruct (dh_DeployResult h) as [res|].
  2: { exists (ExecutorMessage (Target db)). by destruct db as [? [] ? ? ? ? ? ? ?]. }
  destruct (decide (res_DeployState res = SUCCEEDED)).
  { exists (ExecutorMessage (Target db)). by destruct db as [? [] ? ? ? ? ? ? ?]. }
  destruct (failure_messages_Some _ Hf) as [ms ->]. rewrite Hd. cbn [mbind option_bind]. by eexists.
Qed.

(** The steps that find the deploy. *)
Definition finding : list step := [
  wrapError basics "Failed to extract basic information from original request.";
  wrapError getFullRequestParent "Failed to retrieve full RequestParent DTO.";
  wrapError determineDeployStatus "Failed to determine deploy status.";
  wrapError retrieveDeployHistory "Failed to retrieve SingularityDeployHistory from SingularityRequestParent.";
  wrapError extractDeployFromDeployHistory "Failed to extract SingularityDeploy from SingularityDeployHistory." ].

(** Their builder: its status is known, or to be read off the history. *)
Lemma finding_located cs r sreq dep st :
  located r sreq dep st →
  ∃ db, first_err finding (fresh_builder cs r) = Some (db, None) ∧
    found cs r sreq dep (ds_Status (Target db)) db ∧
    (ds_Status (Target db) = st ∧ st ≠ DeployStatusAny ∨
     ∃ h, ds_Status (Target db) = DeployStatusAny ∧ history db = Some h ∧ dh_Deploy h = Some dep ∧
       no_nil_failures h ∧ st = history_status h).
Proof.
  intros Hloc. unfold finding.
  destruct Hloc as [rp0 rp rds m Hr Hreq Hfull Hrds Hact Hpend Hdep
                   |rp0 rp rds ph l m h Hr Hreq Hfull Hrds Hnot Hdeps Hm Hget Hdep Hnil];
    rewrite (first_steps cs r rp0 rp) by done; rewrite Hreq.
  - rewrite (first_err_wrap _ _ _ _ (begun cs r DeployStatusPending (Some m) None (rp_PendingDeploy rp)
      (Some sreq) rp0 rp)).
    2: { unfold determineDeployStatus. cbn [ReqParent req begun]. rewrite Hrds, Hpend.
         by rewrite decide_False by (destruct Hact; naive_solver). }
    assert (reqID (Some rp0) = req_Id sreq) as Hid by (unfold reqID; by rewrite Hreq).
    destruct (rp_PendingDeploy rp) as [d|].
    + subst d. set (db := begun _ _ _ _ _ _ _ _ _).
      do 2 rewrite (first_err_wrap _ _ _ db db) by done.
      exists db. split; [done|]. split; [|by left]. repeat split. cbn. by rewrite <-Hid.
    + destruct Hdep as (h&Hget&Hdep).
      rewrite (first_err_wrap _ _ _ _ (begun cs r DeployStatusPending (Some m) (Some h) None
        (Some sreq) rp0 rp)).
      2: { unfold retrieveDeployHistory, retrieveLiveDeploy. cbn [depMarker deploy begun mbind option_bind req Sing].
           rewrite decide_False by auto. by rewrite Hget. }
      set (db := begun cs r DeployStatusPending (Some m) (Some h) (Some dep) (Some sreq) rp0 rp).
      rewrite (first_err_wrap _ _ _ _ db).
      2: { unfold extractDeployFromDeployHistory. cbn [deploy history begun mbind option_bind].
           rewrite decide_False by auto. by rewrite Hdep. }
      exists db. split; [done|]. split; [|by left]. repeat split. cbn. by rewrite <-Hid.
  - rewrite (first_err_wrap _ _ _ _ (begun cs r DeployStatusAny None None None (Some sreq) rp0 rp)).
    2: { unfold determineDeployStatus. cbn [ReqParent req begun]. rewrite Hrds.
         destruct Hnot as [Hs|Hp]; [by rewrite decide_True|rewrite Hp].
         by destruct (decide (rp_State rp ≠ ACTIVE ∧ rp_State rp ≠ DEPLOYING_TO_UNPAUSE)). }
    rewrite (first_err_wrap _ _ _ _ (begun cs r DeployStatusAny (Some m) (Some h) None (Some sreq) rp0 rp)).
    2: { unfold retrieveDeployHistory, retrieveHistoricDeploy. cbn [depMarker request begun req Sing].
         rewrite Hdeps, Hm. unfold retrieveLiveDeploy.
         cbn [set_depMarker begun deploy depMarker mbind option_bind req Sing].
         rewrite decide_False by auto. by rewrite Hget. }
    set (db := begun cs r DeployStatusAny (Some m) (Some h) (Some dep) (Some sreq) rp0 rp).
    rewrite (first_err_wrap _ _ _ _ db).
    2: { unfold extractDeployFromDeployHistory. cbn [deploy history begun mbind option_bind].
         rewrite decide_False by auto. by rewrite Hdep. }
    exists db. split; [done|]. split; [repeat split; cbn; unfold reqID; by rewrite Hreq|].
    right. by exists h.
Qed.

Lemma first_err_finding rest db db' :
  first_err finding db = Some (db', None) →
  first_err (finding ++ rest)%list db = first_err rest db'.
Proof. intros Hf. by rewrite first_err_app, Hf. Qed.

Lemma locating_located cs r sreq dep st cn :
  located r sreq dep st → entries (dep_Metadata dep) !! ClusterNameLabel = Some cn → cn ∈ Names cs →
  ∃ db, first_err locating (fresh_builder cs r) = Some (db, None) ∧ found cs r sreq dep st db.
Proof.
  intros Hloc Hcn Hin. destruct (finding_located cs r sreq dep st Hloc) as (db&Hdb&Hfound&Hst).
  change locating with (finding ++ [wrapError sousDeployCheck "Could not determine if the SingularityDeploy is controlled by Sous";
    wrapError determineStatus "Could not determine current status of SingularityDeploy"])%list.
  rewrite (first_err_finding _ _ _ Hdb). pose proof Hfound as (Hcs&Hdep&Hreq&_&Hdata&Hd).
  rewrite (first_err_wrap _ _ _ db db) by (apply (check_passes _ dep cn); [done|done|by rewrite Hcs]).
  destruct Hst as [[Hst Hany]|(h&Hany&Hh&Hhd&Hnil&->)].
  - rewrite (first_err_wrap _ _ _ db db) by (unfold determineStatus; by rewrite decide_True by congruence).
    exists db. split; [done|]. by rewrite Hst in Hfound.
  - destruct (determineStatus_history db h dep Hany Hh Hhd Hnil) as [msg Hmsg].
    rewrite (first_err_wrap _ _ _ _ _ Hmsg). eexists. split; [done|]. by repeat split.
Qed.

(** A deploy of no cluster, or of another server's. *)
Lemma construction_foreign cs r sreq dep st :
  located r sreq dep st →
  match entries (dep_Metadata dep) !! ClusterNameLabel with
  | None => ∃ db, completeConstruction sprintf (fresh_builder cs r) = Some (db, Some
      (BWrap (Lit "Could not determine if the SingularityDeploy is controlled by Sous") nonSousError))
  | Some cn => cn ∉ Names cs → ∃ db, completeConstruction sprintf (fresh_builder cs r) = Some (db, Some
      (BWrap (Lit "Could not determine if the SingularityDeploy is controlled by Sous")
         (notThisClusterError cn (Names cs))))
  end.
Proof.
  intros Hloc. destruct (finding_located cs r sreq dep st Hloc) as (db&Hdb&(Hcs&Hdep&_)&_).
  assert (∀ e, sousDeployCheck db = Some (db, Some e) →
    completeConstruction sprintf (fresh_builder cs r) = Some (db, Some
      (BWrap (Lit "Could not determine if the SingularityDeploy is controlled by Sous") e))) as Hfail.
  { intros e He. unfold completeConstruction.
    etrans; [apply (first_err_finding _ _ _ Hdb)|]. cbn [first_err]. unfold wrapError at 1. by rewrite He. }
  unfold sousDeployCheck in Hfail. rewrite Hdep in Hfail. cbn [mbind option_bind] in Hfail.
  destruct (entries (dep_Metadata dep) !! ClusterNameLabel) as [cn|]; [|exists db; by apply Hfail].
  intros Hn. exists db. rewrite Hcs, decide_False in Hfail by done. by apply Hfail.
Qed.
End BuilderLemmas.

(** ** Lemmas: reading back what was sent *)

(** The integers of a configuration that cross the wire as 32-bit ones. *)
Record ints_fit (dc : DeployConfig) : Prop := {
  fit_instances : fits32 (NumInstances dc);
  fit_startup : let s := dc_Startup dc in
    Forall fits32 [ConnectDelay s; Timeout s; ConnectInterval s; CheckReadyPortIndex s;
                   CheckReadyURITimeout s; CheckReadyInterval s; CheckReadyRetries s];
  fit_statuses : Forall fits32 (CheckReadyFailureStatuses (dc_Startup dc))
}.

Lemma unpackStartup_Map s :
  Forall fits32 [ConnectDelay s; Timeout s; ConnectInterval s; CheckReadyPortIndex s;
                 CheckReadyURITimeout s; CheckReadyInterval s; CheckReadyRetries s] →
  Forall fits32 (CheckReadyFailureStatuses s) →
  equiv (unpackStartup (MapStartupIntoHealthcheckOptions s)) s.
Proof.
  intros Hf Hst. unfold MapStartupIntoHealthcheckOptions.
  destruct (SkipCheck s) eqn:Hs; [by split; simpl|].
  rewrite !Forall_cons in Hf. destruct Hf as (?&?&?&?&?&?&?&_).
  split; [done|]. intros _. simpl. rewrite !int32_id by done.
  split_and!; try done. by rewrite int32_list.
Qed.

Lemma kind_of_RequestType kind t :
  determineRequestType kind = Ok t → kind_of_type t = Some kind.
Proof.
  unfold determineRequestType. repeat case_decide; intros [= <-]; subst; reflexivity.
Qed.

(** A value reads back as itself, up to the precision resources are compared in. *)
Definition reads_back (x : float64) : Prop :=
  ∃ y, ParseFloat (format_f x) = Some y ∧ apart y x = false.

Lemma Ports_range r : fits32 (Ports r).
Proof.
  unfold Ports. destruct (parse_int 32 (resource r "ports")) as [p|] eqn:Hp; [|by split].
  by apply parse_int_range in Hp.
Qed.

Lemma unpack_mapped r :
  reads_back (Cpus r) → reads_back (Memory r) →
  resources_equiv (unpackResources (mapResources r)) r ↔ mlen r = 3%nat.
Proof.
  rewrite <-Resources_Equal_iff.
  intros (x&Hx&Hax) (y&Hy&Hay). set (r' := unpackResources (mapResources r)).
  assert (Cpus r' = x) as Hc.
  { unfold Cpus. replace (resource r' "cpus") with (format_f (Cpus r)); [by rewrite Hx|done]. }
  assert (Memory r' = y) as Hm.
  { unfold Memory. replace (resource r' "memory") with (format_f (Memory r)); [by rewrite Hy|done]. }
  assert (Ports r' = Ports r) as Hp.
  { unfold Ports at 1. replace (resource r' "ports") with (itoa (int32 (Ports r))) by done.
    pose proof (Ports_range r) as Hr. rewrite int32_id by done. by rewrite parse_int_itoa_signed. }
  assert (mlen r' = 3%nat) as Hlen by reflexivity.
  clearbody r'. unfold Resources_Equal. rewrite Hlen, Hc, Hm, Hp, Hax, Hay, Z.eqb_refl.
  destruct (decide (mlen r = 3%nat)) as [Hl|Hl].
  - by rewrite Hl.
  - rewrite bool_decide_eq_false_2 by congruence. by split.
Qed.

Lemma unpack_sent_volumes vs :
  unpack_volumes (Some ∘ sing_volume <$> omap id vs) = Some (Some <$> omap id vs).
Proof.
  induction vs as [|[v|] vs IH]; [done| |exact IH]. cbn. cbn in IH. rewrite IH. by destruct v.
Qed.

Lemma kept_volumes (dc : DeployConfig) :
  volumes_ok (dc_Volumes dc) → Some <$> omap id (dc_Volumes dc) = dc_Volumes dc.
Proof.
  intros Hv. destruct (proj1 (volumes_ok_Some _) Hv) as [l ->].
  induction l as [|v l IH]; [done|]. cbn. by f_equal.
Qed.

(** The configuration that is read back from the one that was sent. *)
Definition config_back (dc : DeployConfig) (sched : string) : DeployConfig :=
  mkDeployConfig (unpackResources (mapResources (dc_Resources dc))) None (Some (entries (dc_Env dc)))
    (int32 (NumInstances dc)) (Some <$> omap id (dc_Volumes dc))
    (unpackStartup (MapStartupIntoHealthcheckOptions (dc_Startup dc))) sched.

Definition deployment_back (url : string) (sid : SourceID) (d : Deployment) : Deployment :=
  mkDeployment (config_back (d_DeployConfig d)
      (if decide (Kind d = ManifestKindScheduled) then Schedule (d_DeployConfig d) else ""))
    (ClusterName d) (Some (mkCluster "" "" url None zeroStartup [])) sid (Flavor d)
    (NewOwnerSet (Slice (Owners d))) (Kind d).

Section Describing.
Context `{UnicodeTables} `{ImageLabeller}.
Context (sprintf : string → list shown → string).

(** What was sent of [d] is described as [deployment_back]. *)
Lemma describing_sent cs r (d : Deployable) art reqID0 depID0 labels sid url sreq dep st db :
  dep_BuildArtifact d = Some art → ImageLabels (ba_Name art) = Ok (Some labels) →
  SourceIDFromLabels (Some labels) = Ok sid →
  singRequestFromDeployment (dep_Deployment d) reqID0 = Some (Ok (url, sreq)) →
  buildDeployRequest d reqID0 depID0 (Some labels) = Some {| dreq_Deploy := Some dep |} →
  found cs r sreq dep st db →
  ∃ db', first_err (describing sprintf) db = Some (db', None) ∧
    ds_Status (Target db') = st ∧ ds_ExecutorData (Target db') = SingularityTaskData reqID0 ∧
    ds_Deployment (Target db') = deployment_back (SourceURL r) sid (dep_Deployment d).
Proof.
  intros Hart Hlabels Hsid Hreq Hdep (Hcs&Hd&Hr&Hst&Hdata&Htgt).
  unfold singRequestFromDeployment in Hreq. apply bind_Some in Hreq as (c&_&[= Hreq]).
  destruct (determineRequestType (Kind (dep_Deployment d))) as [t|] eqn:Ht; [|done].
  cbn in Hreq. injection Hreq as _ <-.
  unfold buildDeployRequest in Hdep. rewrite Hart in Hdep. cbn in Hdep. injection Hdep as <-.
  destruct db as [dcs [tdep tst tmsg tdata turl] img m h dd rr rq rid].
  cbn in Hcs, Hd, Hr, Hst, Hdata, Htgt. subst.
  unfold describing.
  erewrite first_err_wrap by reflexivity.
  erewrite first_err_wrap.
  2: { unfold retrieveImageLabels. cbn [imageName set_imageName Image]. rewrite Hlabels, Hsid. reflexivity. }
  erewrite first_err_wrap.
  2: { unfold restoreFromMetadata. cbn [deploy on_Target set_imageName mbind option_bind dep_Metadata].
       unfold getMetadataField, entries. cbn [dep_Metadata default]. unfold id. rewrite lookup_insert_ne by (vm_compute; discriminate).
       rewrite !lookup_insert_eq. reflexivity. }
  erewrite first_err_wrap.
  2: { unfold unpackDeployConfig.
       cbn [deploy on_Target set_imageName mbind option_bind dep_Resources request ContainerInfo ci_Volumes].
       rewrite unpack_sent_volumes. reflexivity. }
  erewrite first_err_wrap.
  2: { unfold determineManifestKind. cbn [request on_Target set_imageName mbind option_bind RequestType].
       rewrite (kind_of_RequestType _ _ Ht). reflexivity. }
  simpl. unfold wrapError, extractSchedule. simpl.
  destruct (decide (Kind (dep_Deployment d) = ManifestKindScheduled)) as [Hk|Hk]; simpl;
    (eexists; split; [reflexivity|]; split; [done|]; split; [done|]);
    unfold deployment_back; simpl.
  - assert (t = SCHEDULED) as ->.
    { rewrite Hk in Ht. by injection Ht as <-. }
    by rewrite !decide_True by done.
  - by rewrite decide_False.
Qed.
End Describing.

(** ** Lemmas: the deployment that is read back *)

Lemma elem_of_Names cn (cs : Clusters) : cn ∈ Names cs ↔ is_Some (cs !! cn).
Proof.
  unfold Names. rewrite (sort_strings_perm _), list_elem_of_fmap. split.
  - intros ((k&c)&->&Hc%elem_of_map_to_list). by eexists.
  - intros [c Hc]. exists (cn, c). split; [done|]. by apply elem_of_map_to_list.
Qed.

Section ReadBack.
Context (d : Deployment).
Abbreviation dc := (d_DeployConfig d).
Context (Hvols : d_volumes_ok d) (Hfit : ints_fit dc).
Context (Hcpus : reads_back (Cpus (dc_Resources dc))).
Context (Hmem : reads_back (Memory (dc_Resources dc))).

(** It has the ID of the one that was sent, and is equivalent to it as far as
    Singularity was told exactly when that has the three resources. *)
Lemma deployment_back_equiv url :
  let d' := deployment_back url (relabelled (d_SourceID d)) d in
  Deployment_ID d' = Deployment_ID d ∧
  (deployment_sent_equiv d' d ↔ mlen (dc_Resources dc) = 3%nat) ∧
  (deployment_equiv d' d ↔ mlen (dc_Resources dc) = 3%nat ∧ entries (dc_Metadata dc) = ∅).
Proof using Hvols Hfit Hcpus Hmem.
  intros d'. destruct Hfit as [Hn Hst Hss].
  pose proof (kept_volumes dc Hvols) as Hv.
  pose proof (unpackStartup_Map _ Hst Hss) as Hs.
  destruct (unpack_mapped (dc_Resources dc) Hcpus Hmem) as [Hr1 Hr2].
  assert (deployment_sent_equiv d' d ↔ mlen (dc_Resources dc) = 3%nat) as Hsent.
  { split.
    - intros [_ _ _ _ [_ _ Hres _ _]]. apply Hr1. exact Hres.
    - intros Hlen. split.
      + apply relabelled_equiv.
      + done.
      + intros Hk. cbn [d' deployment_back d_DeployConfig config_back Schedule]. by rewrite decide_True.
      + apply NewOwnerSet_Slice.
      + split; cbn [d' deployment_back d_DeployConfig config_back NumInstances dc_Env dc_Resources
          dc_Volumes dc_Startup entries default]; [by rewrite int32_id|done|by apply Hr2|by rewrite Hv|done]. }
  assert (Deployment_ID d' = Deployment_ID d) as Hid.
  { unfold Deployment_ID, Deployment_ManifestID. by destruct d as [? ? ? [] ? ? ?]. }
  split; [done|]. split; [done|]. rewrite deployment_equiv_sent, Hsent.
  change (entries (dc_Metadata (d_DeployConfig d'))) with (∅ : gmap string string).
  split; [intros (_&?&?)|intros [? ?]]; auto.
Qed.
End ReadBack.

(** ** Lemmas: what a successful build says *)

(** [follows P fn Q]: from [P], [fn] leads to [Q] when it succeeds. *)
Definition follows (P : deploymentBuilder → Prop) (fn : step) (Q : deploymentBuilder → Prop) : Prop :=
  ∀ db db', P db → fn db = Some (db', None) → Q db'.

Lemma follows_cons P Q fn msg fs db db' :
  follows P fn Q → P db → first_err (wrapError fn msg :: fs) db = Some (db', None) →
  ∃ db1, Q db1 ∧ first_err fs db1 = Some (db', None).
Proof.
  intros Hf HP. simpl. unfold wrapError. destruct (fn db) as [[db1 [e|]]|] eqn:Hfn; simpl; [done| |done].
  intros Hr. exists db1. split; [by eapply Hf|done].
Qed.

(** The cluster that a deploy names is one of the server's. *)
Definition ours (cs : Clusters) (db : deploymentBuilder) : Prop :=
  clusters db = cs ∧ ∃ d cn, deploy db = Some d ∧ entries (dep_Metadata d) !! ClusterNameLabel = Some cn ∧
    is_Some (cs !! cn).
Definition settled (cs : Clusters) (db : deploymentBuilder) : Prop :=
  ours cs db ∧ ds_Status (Target db) ≠ DeployStatusAny.
Definition named (cs : Clusters) (db : deploymentBuilder) : Prop :=
  ds_Status (Target db) ≠ DeployStatusAny ∧ is_Some (cs !! ClusterName (ds_Deployment (Target db))).

(** Takes a step that is a cascade of matches apart. *)
Ltac run_step H :=
  repeat (match type of H with
          | context [match ?x with _ => _ end] => destruct x eqn:?; simpl in H
          end; try discriminate H).

Section Successful.
Context `{UnicodeTables} `{ImageLabeller}.
Context (sprintf : string → list shown → string).

Lemma basics_keeps cs : follows (λ db, clusters db = cs) basics (λ db, clusters db = cs).
Proof. intros db db' Hc. unfold basics. simpl. destruct (ReqParent (req db)); [|done]. by intros [= <-]. Qed.

Lemma parent_keeps cs : follows (λ db, clusters db = cs) getFullRequestParent (λ db, clusters db = cs).
Proof.
  intros db db' Hc. unfold getFullRequestParent. destruct (ReqParent (req db)); [|done]. simpl.
  destruct (decide _); [by intros [= <-]|]. destruct (GetRequest _ _ _); [|done]. by intros [= <-].
Qed.

Lemma deploy_status_keeps cs : follows (λ db, clusters db = cs) determineDeployStatus (λ db, clusters db = cs).
Proof.
  intros db db' Hc. unfold determineDeployStatus. destruct (ReqParent (req db)) as [rp|]; [|done].
  destruct (RequestDeployState rp) as [rds|]; [|done]. destruct (decide _); [by intros [= <-]|].
  destruct (rds_PendingDeploy rds); by intros [= <-].
Qed.

Lemma live_keeps cs : follows (λ db, clusters db = cs) retrieveLiveDeploy (λ db, clusters db = cs).
Proof.
  intros db db' Hc. unfold retrieveLiveDeploy. destruct (decide _); [by intros [= <-]|].
  destruct (depMarker db); [|done]. simpl. destruct (GetDeploy _ _ _); [|done]. by intros [= <-].
Qed.

Lemma history_keeps cs : follows (λ db, clusters db = cs) retrieveDeployHistory (λ db, clusters db = cs).
Proof.
  intros db db' Hc. unfold retrieveDeployHistory. destruct (depMarker db); [by apply live_keeps|].
  unfold retrieveHistoricDeploy. destruct (request db); [|done].
  destruct (GetDeploys _ _ _) as [[|[ph|] l]|]; [done| |done|done].
  destruct (dh_DeployMarker ph); [|done]. by apply live_keeps.
Qed.

Lemma extract_keeps cs : follows (λ db, clusters db = cs) extractDeployFromDeployHistory (λ db, clusters db = cs).
Proof.
  intros db db' Hc. unfold extractDeployFromDeployHistory. destruct (decide _); [by intros [= <-]|].
  destruct (history db) as [h|]; [|done]. simpl. destruct (dh_Deploy h); [|done]. by intros [= <-].
Qed.

Lemma check_ours cs : follows (λ db, clusters db = cs) sousDeployCheck (ours cs).
Proof.
  intros db db' Hc. unfold sousDeployCheck. destruct (deploy db) as [d|] eqn:Hd; [|done]. simpl.
  destruct (entries (dep_Metadata d) !! ClusterNameLabel) as [cn|] eqn:Hcn; [|done].
  destruct (decide (cn ∈ Names (clusters db))) as [Hin|]; [|done]. intros [= <-].
  split; [done|]. exists d, cn. split_and!; [done..|]. rewrite <-Hc. by apply elem_of_Names.
Qed.

Lemma status_settled cs : follows (ours cs) determineStatus (settled cs).
Proof.
  intros db db' Ho. unfold determineStatus. destruct (decide _) as [Hs|_]; [by intros [= <-]|].
  destruct (history db) as [h|]; [|done]. simpl. destruct (dh_DeployResult h) as [res|]; [|by intros [= <-]].
  destruct (decide _); [by intros [= <-]|].
  destruct (failure_messages _); [|done]. simpl. destruct (dh_Deploy h); [|done]. by intros [= <-].
Qed.

Lemma artifact_settled cs : follows (settled cs) extractArtifactName (settled cs).
Proof.
  intros db db' Hs. unfold extractArtifactName. destruct (deploy db) as [d|] eqn:Hd; [|done]. simpl.
  destruct (ContainerInfo d) as [ci|]; [|done]. destruct (decide _); [done|].
  destruct (ci_Docker ci); [|done]. by intros [= <-].
Qed.

Lemma labels_settled cs : follows (settled cs) (retrieveImageLabels sprintf) (settled cs).
Proof.
  intros db db' Hs. unfold retrieveImageLabels. destruct (ImageLabels _); [|done].
  destruct (SourceIDFromLabels _); [|done]. by intros [= <-].
Qed.

Lemma metadata_named cs : follows (settled cs) restoreFromMetadata (named cs).
Proof.
  intros db db' [(_&d&cn&Hd&Hcn&Hin) Hs]. unfold restoreFromMetadata, getMetadataField.
  rewrite Hd. simpl. rewrite Hcn. by intros [= <-].
Qed.

Lemma config_named cs : follows (named cs) unpackDeployConfig (named cs).
Proof.
  intros db db' [Hs Hn]. unfold unpackDeployConfig. destruct (deploy db) as [d|]; [|done]. simpl.
  destruct (dep_Resources d); [|done]. destruct (request db); [|done]. simpl.
  destruct (ContainerInfo d); [|done]. simpl. destruct (unpack_volumes _); [|done]. by intros [= <-].
Qed.

Lemma kind_named cs : follows (named cs) determineManifestKind (named cs).
Proof.
  intros db db' [Hs Hn]. unfold determineManifestKind. destruct (request db) as [r|]; [|done]. simpl.
  destruct (kind_of_type _); [|done]. by intros [= <-].
Qed.

Lemma schedule_named cs : follows (named cs) extractSchedule (named cs).
Proof.
  intros db db' [Hs Hn]. unfold extractSchedule. destruct (decide _); [|by intros [= <-]].
  destruct (request db); [|done]. by intros [= <-].
Qed.

Lemma construction_named cs r db :
  completeConstruction sprintf (fresh_builder cs r) = Some (db, None) → named cs db.
Proof.
  unfold completeConstruction. intros Hr.
  eapply follows_cons in Hr as (?&?&Hr); [|apply (basics_keeps cs)|done].
  eapply follows_cons in Hr as (?&?&Hr); [|apply (parent_keeps cs)|done].
  eapply follows_cons in Hr as (?&?&Hr); [|apply (deploy_status_keeps cs)|done].
  eapply follows_cons in Hr as (?&?&Hr); [|apply (history_keeps cs)|done].
  eapply follows_cons in Hr as (?&?&Hr); [|apply (extract_keeps cs)|done].
  eapply follows_cons in Hr as (?&?&Hr); [|apply (check_ours cs)|done].
  eapply follows_cons in Hr as (?&?&Hr); [|apply (status_settled cs)|done].
  eapply follows_cons in Hr as (?&?&Hr); [|apply (artifact_settled cs)|done].
  eapply follows_cons in Hr as (?&?&Hr); [|apply (labels_settled cs)|done].
  eapply follows_cons in Hr as (?&?&Hr); [|apply (metadata_named cs)|done].
  eapply follows_cons in Hr as (?&?&Hr); [|apply (config_named cs)|done].
  eapply follows_cons in Hr as (?&?&Hr); [|apply (kind_named cs)|done].
  eapply follows_cons in Hr as (?&?&Hr); [|apply (schedule_named cs)|done].
  by injection Hr as <-.
Qed.

(** An error that is not to be tried again. *)
Definition final_error (e : build_error) : Prop :=
  match BCause e with canRetryRequest _ _ => False | BErr _ | BWrap _ _ => True end.

(** An error of the construction is wrapped by the message of its step; [P] is
    kept, also by a step that fails. *)
Definition wrapped (e : option build_error) : Prop :=
  ∀ x, e = Some x → ∃ msg cause, x = BWrap msg cause ∧ final_error cause.

Definition keeps (P : deploymentBuilder → Prop) (fn : step) : Prop := ∀ db db' e,
  P db → fn db = Some (db', e) → P db' ∧ wrapped e.

Lemma construction_keeps P fs db db' e :
  Forall (keeps P) fs → P db → first_err fs db = Some (db', e) → P db' ∧ wrapped e.
Proof.
  intros Hfs. revert db. induction Hfs as [|fn fs Hfn _ IH]; intros db Hdb; simpl.
  - by intros [= <- <-].
  - destruct (fn db) as [[db1 [e1|]]|] eqn:H1; [| |done].
    + intros [= <- <-]. by apply (Hfn db).
    + intros Hr. apply Hfn in H1 as [H1 _]; [|done]. by apply (IH db1).
Qed.

Lemma keeps_wrap P fn msg :
  (∀ db db' e, P db → fn db = Some (db', e) → P db' ∧ ∀ x, e = Some x → final_error x) →
  keeps P (wrapError fn msg).
Proof.
  intros Hfn db db' e Hs. unfold wrapError. destruct (fn db) as [[db1 e1]|] eqn:H1; [|done].
  intros [= <- <-]. destruct (Hfn _ _ _ Hs H1) as [HP He]. split; [done|].
  intros x. destruct e1 as [e1|]; [|done]. intros [= <-]. eauto.
Qed.

Ltac unfold_head t H :=
  match t with ?f _ => unfold_head f H | _ => unfold t in H end.

(** Solves that a step keeps what it does not touch: every branch leaves the
    request, or replaces its parent only. *)
Ltac keeps_step :=
  apply keeps_wrap; let b := fresh "b" in let b2 := fresh "b" in let x := fresh "x" in
  let Hs := fresh "Hs" in let Hfn := fresh "Hfn" in intros b b2 x Hs Hfn;
  match type of Hfn with ?t = _ => unfold_head t Hfn end;
  unfold retrieveHistoricDeploy, retrieveLiveDeploy, getMetadataField, done, failed, mbind, option_bind in Hfn;
  simpl in Hfn; run_step Hfn; simplify_eq; (split; [exact Hs|]); intros ? [=]; subst;
  try done; repeat case_match; by simplify_eq.

(** The server a builder asks does not change. *)
Definition same_server (r : SingReq) (db : deploymentBuilder) : Prop :=
  SourceURL (req db) = SourceURL r ∧ Sing (req db) = Sing r.

Lemma construction_server cs r db e :
  completeConstruction sprintf (fresh_builder cs r) = Some (db, e) →
  same_server r db ∧ wrapped e.
Proof.
  unfold completeConstruction. apply construction_keeps; [|done].
  repeat (apply Forall_cons; split; [keeps_step|]). by apply Forall_nil.
Qed.

(** A client that answers for the request it is asked for. *)
Definition honest (sing : singClient) : Prop :=
  ∀ id rp q, GetRequest sing id false = Ok (Some rp) → rp_Request rp = Some q → req_Id q = id.

(** What is known of the request names the one the build began with. *)
Definition same_name (id : string) (sing : singClient) (db : deploymentBuilder) : Prop :=
  db_reqID db = id ∧ Sing (req db) = sing ∧
  ∀ rp q, ReqParent (req db) = Some rp → rp_Request rp = Some q → req_Id q = id.

Lemma construction_name cs r db e :
  honest (Sing r) → completeConstruction sprintf (fresh_builder cs r) = Some (db, e) →
  ∀ rp q, ReqParent (req db) = Some rp → rp_Request rp = Some q → req_Id q = reqID (ReqParent r).
Proof.
  intros Hh Hc. destruct (ReqParent r) as [rp0|] eqn:Hrp0.
  2: { revert Hc. unfold completeConstruction, fresh_builder. simpl. unfold wrapError at 1, basics.
       simpl. by rewrite Hrp0. }
  enough (same_name (reqID (Some rp0)) (Sing r) db) as (_&_&Hname) by exact Hname.
  revert Hc. unfold completeConstruction.
  rewrite (first_err_wrap _ _ _ _ (begun cs r DeployStatusAny None None None (rp_Request rp0) rp0 rp0)).
  2: { unfold basics, fresh_builder. simpl. by destruct r; simpl in *; subst. }
  intros Hc. eapply construction_keeps in Hc as [Hn _]; [exact Hn| |].
  2: { split_and!; [done|done|]. simpl. intros rp q [= <-] Hq. unfold reqID. by rewrite Hq. }
  apply Forall_cons. split.
  { apply keeps_wrap. intros b b' x Hn. unfold getFullRequestParent.
    destruct (ReqParent (req b)) as [rp|] eqn:Hrp; [|done]. simpl.
    destruct (decide _); [by intros [= <- <-]|].
    destruct (GetRequest _ _ _) as [rp1|] eqn:Hg; intros [= <- <-].
    2: { split; [done|]. by intros ? [= <-]. }
    split; [|done]. destruct Hn as (Hid&Hsing&Hn). split_and!; [done|done|]. simpl. intros rp2 q -> Hq.
    rewrite Hid, Hsing in Hg. by apply (Hh _ _ _ Hg). }
  repeat (apply Forall_cons; split; [keeps_step|]). by apply Forall_nil.
Qed.
End Successful.

(** ** Properties *)

Section Properties.
Context `{UnicodeTables} `{ImageLabeller}.
Context (sprintf : string → list shown → string).

(** C13.  What Singularity is told of a deployment reads back as that deployment.
    Whether Singularity answers that the deploy is pending, or has it in its
    history with a result, and asked for the image by the labels it was built
    with, the builder finds the deployment that the two requests were made of:
    with its ID, the request it is under and the status of the deploy; and
    equivalent to it exactly when it has no metadata, which is not sent, and
    names exactly the three resources that are.  So a deployment with metadata,
    once deployed, differs from itself for ever. *)
Theorem BuildDeployment_sent (cs : Clusters) (r : SingReq) (x : Deployable) (art : BuildArtifact)
    (reqID0 depID0 url url' : string) (labels : gmap string string) (sreq : SingularityRequest)
    (dep : SingularityDeploy) (st : DeployStatus) :
  let d := dep_Deployment x in let dc := d_DeployConfig d in
  d_volumes_ok d → ints_fit dc → reads_back (Cpus (dc_Resources dc)) →
  reads_back (Memory (dc_Resources dc)) → wf (sid_Version (d_SourceID d)) →
  dep_BuildArtifact x = Some art → ImageLabels (ba_Name art) = Ok (Some labels) →
  Labels (d_SourceID d) ⊆ labels →
  singRequestFromDeployment d reqID0 = Some (Ok (url, sreq)) →
  buildDeployRequest x reqID0 depID0 (Some labels) = Some {| dreq_Deploy := Some dep |} →
  located r sreq dep st → is_Some (cs !! ClusterName d) →
  ∃ t, BuildDeployment sprintf cs r = Some (t, None) ∧
    ds_Status t = st ∧ ds_ExecutorData t = SingularityTaskData reqID0 ∧
    DeployState_ID t = Deployment_ID d ∧
    (deployment_sent_equiv (ds_Deployment t) d ↔ mlen (dc_Resources dc) = 3%nat) ∧
    (deployment_equiv (ds_Deployment t) d ↔ mlen (dc_Resources dc) = 3%nat ∧ entries (dc_Metadata dc) = ∅).
Proof.
  intros d dc Hv Hfit Hc Hm Hwf Hart Hlabels Hsub Hreq Hdep Hloc Hin.
  destruct (buildDeployRequest_spec x reqID0 depID0 labels art Hart)
    as (dep'&ci&Hdep'&_&_&Hmd&_). rewrite Hdep in Hdep'. injection Hdep' as <-.
  assert (entries (dep_Metadata dep) !! ClusterNameLabel = Some (ClusterName d)) as Hcn.
  { rewrite Hmd. cbn. rewrite lookup_insert_ne by (vm_compute; discriminate). apply lookup_insert_eq. }
  destruct (locating_located cs r sreq dep st _ Hloc Hcn) as (db&Hdb&Hfound).
  { by apply elem_of_Names. }
  destruct (describing_sent sprintf cs r x art reqID0 depID0 labels (relabelled (d_SourceID d)) url sreq dep st db
    Hart Hlabels (SourceIDFromLabels_extend labels _ Hsub Hwf) Hreq Hdep Hfound) as (db'&Hdb'&Hst&Hdata&Hd).
  exists (Target db'). unfold BuildDeployment. rewrite completeConstruction_split.
  change (mkBuilder _ _ _ _ _ _ _ _ _) with (fresh_builder cs r). rewrite Hdb, Hdb'.
  split; [done|]. split; [done|]. split; [done|]. unfold DeployState_ID. rewrite Hd.
  apply (deployment_back_equiv d Hv Hfit Hc Hm (SourceURL r)).
Qed.

(** C17.  A build gives a deployment of one of the clusters of this server, with a
    status that is known, or an error.  That is returned as it is when its cause
    is one that trying again does not help: an answer that says too little or that
    is not the JSON that is expected, a deploy without a cluster's name, or with a
    cluster's that is not of this server (which is what becomes of a deploy that
    is found and has none of, or another, label).  Any other is made retryable,
    with the request to try again, exactly when that names a server and a
    request. *)
Theorem BuildDeployment_verdict (cs : Clusters) (r : SingReq) (t : DeployState) (e : option build_error) :
  let given_up_on := ["singularity.malformedResponse"; "*json.UnmarshalTypeError";
                      "*json.UnsupportedTypeError"; "*json.UnsupportedValueError";
                      "singularity.nonSousError"; "singularity.notThisClusterError"] in
  BuildDeployment sprintf cs r = Some (t, e) →
  match e with
  | None => ds_Status t ≠ DeployStatusAny ∧ is_Some (cs !! ClusterName (ds_Deployment t))
  | Some (canRetryRequest cause again) =>
      cause_type cause ∉ given_up_on ∧
      SourceURL again = SourceURL r ∧ Sing again = Sing r ∧ SourceURL r ≠ "" ∧
      ∃ rp sreq, ReqParent again = Some rp ∧ rp_Request rp = Some sreq ∧ req_Id sreq ≠ ""
  | Some e =>
      cause_type e ∈ given_up_on ∨ SourceURL r = "" ∨
      ∃ db, completeConstruction sprintf (fresh_builder cs r) = Some (db, Some e) ∧
        (ReqParent (req db) = None ∨
         ∃ rp, ReqParent (req db) = Some rp ∧ ∀ sreq, rp_Request rp = Some sreq → req_Id sreq = "")
  end ∧
  (∀ sreq dep st, located r sreq dep st →
     let found_in := entries (dep_Metadata dep) !! "com.opentable.sous.clustername" in
     (∀ cn, found_in = Some cn → is_Some (cs !! cn)) ∨
     ∃ type text, e = Some (BWrap (Lit "Could not determine if the SingularityDeploy is controlled by Sous")
                        (BErr (EOther type text))) ∧
       type = match found_in with
              | None => "singularity.nonSousError"
              | Some _ => "singularity.notThisClusterError"
              end).
Proof.
  cbn zeta. unfold BuildDeployment. change (mkBuilder _ _ _ _ _ _ _ _ _) with (fresh_builder cs r).
  destruct (completeConstruction sprintf (fresh_builder cs r)) as [[db e0]|] eqn:Hc; [|done].
  cbn [mbind option_bind]. intros [= <- <-].
  destruct (construction_server _ _ _ _ _ Hc) as [[Hurl Hsing] Hwrap].
  split.
  - destruct e0 as [e0|]; [|by apply construction_named in Hc as [? ?]].
    destruct (Hwrap e0 eq_refl) as (msg&cause&->&_).
    cbn [canRetry mbind option_bind]. destruct (isRetryable db _) eqn:Hre;
      unfold isRetryable, isMalformed, ignorableDeploy in Hre.
    + rewrite !andb_true_iff, !negb_true_iff, !bool_decide_eq_false in Hre.
      destruct Hre as [[[Hm Hi] Hu] Hrp]. rewrite Hurl in Hu.
      split; [intros Hin; apply (elem_of_app [_; _; _; _] [_; _]) in Hin as [?|?]; tauto|].
      split_and!; [done..|].
      destruct (ReqParent (req db)) as [rp|]; [|done]. exists rp.
      destruct (rp_Request rp) as [sreq|]; [|done]. exists sreq. split_and!; [done..|].
      by apply negb_true_iff, bool_decide_eq_false in Hrp.
    + rewrite !andb_false_iff, !negb_false_iff, !bool_decide_eq_true in Hre. rewrite Hurl in Hre.
      destruct Hre as [[[Hm|Hi]|?]|Hrp]; [left; apply (elem_of_app [_; _; _; _] [_; _]); by auto..|by auto|].
      do 2 right. exists db. split; [done|].
      destruct (ReqParent (req db)) as [rp|]; [right; exists rp; split; [done|]|by left].
      intros sreq Hsreq. rewrite Hsreq in Hrp. by apply negb_false_iff, bool_decide_eq_true in Hrp.
  - intros sreq dep st Hloc. pose proof (construction_foreign sprintf cs r sreq dep st Hloc) as Hf.
    change "com.opentable.sous.clustername" with ClusterNameLabel.
    destruct (entries (dep_Metadata dep) !! ClusterNameLabel) as [cn|].
    + destruct (cs !! cn) eqn:Hcn; [left; intros ? [= <-]; by rewrite Hcn|right].
      destruct Hf as [db' Hf]; [rewrite elem_of_Names, Hcn; by intros []|].
      rewrite Hc in Hf. injection Hf as -> ->. eexists _, _. split; [|done].
      cbn [canRetry mbind option_bind]. unfold isRetryable.
      by rewrite ignorable_wrap, andb_false_r.
    + right. destruct Hf as [db' Hf]. rewrite Hc in Hf. injection Hf as -> ->.
      eexists _, _. split; [|done]. cbn [canRetry mbind option_bind]. unfold isRetryable.
      by rewrite ignorable_wrap, andb_false_r.
Qed.
End Properties.

(** ** Witnesses *)

Definition sample_tables : UnicodeTables := {| IsPrint := λ _, true |}.
Definition sample_labeller : ImageLabeller := {| ImageLabels := λ _, Ok (Some (Labels sample_sid)) |}.
Definition sample_image : BuildArtifact := mkBuildArtifact "docker.example.com/wackadoo:1.2.3" "docker" [].
Definition sample_deployable : Deployable := mkDeployable DeployStatusActive sample_deployment (Some sample_image).
Definition sample_clusters : Clusters := {["ci-sf" := sample_cluster]}.

Definition silent_client : singClient :=
  mkSingClient (λ _ _, Ok None) (λ _, Ok []) (λ _ _, Ok None) (λ _ _ _, Ok []).

Abbreviation sent_request := (mkSingularityRequest "req" SERVICE 3 (Slice (Owners sample_deployment)) "" "").
Abbreviation sent_deploy :=
  (mkSingularityDeploy "dep" "req" (Some (mapResources sample_resources))
    (Some (mkSingularityContainerInfo DOCKER
      (Some (mkSingularityDockerInfo (ba_Name sample_image) BRIDGE)) [Some (sing_volume sample_volume)]))
    (dc_Env (d_DeployConfig sample_deployment))
    (Some (<[FlavorLabel := "neat"]> (<[ClusterNameLabel := "ci-sf"]> (Labels sample_sid))))
    (MapStartupIntoHealthcheckOptions sample_startup)).

(** The deploy is pending. *)
Abbreviation pending_parent :=
  (mkSingularityRequestParent (Some sent_request) (Some sent_deploy) None ACTIVE
    (Some (mkSingularityRequestDeployState None (Some (mkSingularityDeployMarker "req" "dep"))))).
Abbreviation pending_req := (mkSingReq "http://singularity.ci-sf" silent_client (Some pending_parent)).

Lemma BuildDeployment_sent_witness :
  ∃ t, @BuildDeployment sample_tables sample_labeller (λ _ _, "") sample_clusters pending_req = Some (t, None) ∧
    ds_Status t = DeployStatusPending ∧ DeployState_ID t = sample_did ∧
    deployment_equiv (ds_Deployment t) sample_deployment.
Proof.
  destruct (@BuildDeployment_sent sample_tables sample_labeller (λ _ _, "") sample_clusters pending_req
    sample_deployable sample_image "req" "dep" "http://singularity.ci-sf" "http://singularity.ci-sf"
    (Labels sample_sid) sent_request sent_deploy DeployStatusPending)
    as (t&Ht&Hst&_&Hid&_&Heq).
  - exact (sample_volumes_ok 3).
  - split; [by vm_compute|repeat constructor; by vm_compute|repeat constructor; by vm_compute].
  - eexists. split; vm_compute; reflexivity.
  - eexists. split; vm_compute; reflexivity.
  - split; try done; apply (bool_decide_unpack _); vm_compute; exact I.
  - reflexivity.
  - reflexivity.
  - reflexivity.
  - reflexivity.
  - reflexivity.
  - apply (located_pending _ _ _ pending_parent pending_parent
      (mkSingularityRequestDeployState None (Some (mkSingularityDeployMarker "req" "dep")))
      (mkSingularityDeployMarker "req" "dep")); try reflexivity; [|by left].
    exists pending_parent. split; reflexivity.
  - by exists sample_cluster.
  - exists t. split; [exact Ht|]. split; [exact Hst|]. split; [exact Hid|].
    apply Heq. split; [vm_compute; reflexivity|reflexivity].
Defined.

(** A server that answers no more. *)
Definition down_client : singClient :=
  mkSingClient (λ _ _, Err (EOther "*net.OpError" (Lit "connection refused"))) (λ _, Ok [])
    (λ _ _, Ok None) (λ _ _ _, Ok []).
Abbreviation down_req :=
  (mkSingReq "http://singularity.ci-sf" down_client
    (Some (mkSingularityRequestParent (Some sent_request) None None ACTIVE None))).

(** [pending_req] is found, at a server that has no cluster of its name; that of
    [down_req] is asked again. *)
Lemma BuildDeployment_verdict_witness :
  (∃ t text, @BuildDeployment sample_tables sample_labeller (λ _ _, "") ∅ pending_req =
     Some (t, Some (BWrap (Lit "Could not determine if the SingularityDeploy is controlled by Sous")
       (BErr (EOther "singularity.notThisClusterError" text))))) ∧
  ∃ t cause again, @BuildDeployment sample_tables sample_labeller (λ _ _, "") sample_clusters down_req =
     Some (t, Some (canRetryRequest cause again)) ∧ SourceURL again = "http://singularity.ci-sf" ∧
     ∃ rp sreq, ReqParent again = Some rp ∧ rp_Request rp = Some sreq ∧ req_Id sreq ≠ "".
Proof.
  split.
  - destruct (@BuildDeployment sample_tables sample_labeller (λ _ _, "") ∅ pending_req)
      as [[t e]|] eqn:Hb; [|vm_compute in Hb; discriminate Hb].
    destruct (@BuildDeployment_verdict sample_tables sample_labeller (λ _ _, "") ∅ pending_req t e Hb) as [_ Hloc].
    destruct (Hloc sent_request sent_deploy DeployStatusPending) as [Hno|(type&text&->&->)].
    + apply (located_pending _ _ _ pending_parent pending_parent
        (mkSingularityRequestDeployState None (Some (mkSingularityDeployMarker "req" "dep")))
        (mkSingularityDeployMarker "req" "dep")); try reflexivity; [|by left].
      exists pending_parent. split; reflexivity.
    + destruct (Hno "ci-sf" eq_refl) as [c Hc]. discriminate Hc.
    + exists t, text. reflexivity.
  - destruct (@BuildDeployment sample_tables sample_labeller (λ _ _, "") sample_clusters down_req)
      as [[t [[e|msg e|cause again]|]]|] eqn:Hb; try (vm_compute in Hb; discriminate Hb).
    exists t, cause, again. split; [reflexivity|].
    destruct (@BuildDeployment_verdict sample_tables sample_labeller (λ _ _, "") sample_clusters down_req
      t (Some (canRetryRequest cause again)) Hb) as [(_&Hu&_&_&Hr) _].
    split; [exact Hu|exact Hr].
Defined.
