(* ===== verification/Running.v ===== *)
(** * The set of running deployments (ext/singularity/actual_deployment_set.go)

    The servers of all clusters are asked for their requests; each request is
    assembled into a deploy state by a goroutine of its own; the main loop
    collects the states, drops the errors that are malformed or ignorable, has the
    others tried again a few times, and gives up on the first that cannot be.

    The goroutines are a transition system.  A goroutine that is blocked on a send
    is as good as its value in the channel, so that channels are lists of what was
    sent and not received, whatever their capacity.  What Singularity answers may
    change from one request to the next. *)

From S2P Require Import Prelude GoStrings Flaw Semv Ids Startup DeployConfig CMap.
From S2P Require Import Deployment Samples State Differ ResolveErrors Resolver.
From S2P Require Import GoQuote SingDtos Singularity RectiAgent SingBuilder.
From Stdlib Require Import Permutation Wellfounded.
#[local] Open Scope string_scope.
#[local] Open Scope Z_scope.
#[local] Open Scope list_scope.

(** ** Retries *)

Abbreviation retryCounter := (gmap string nat).

Definition retryLimit : nat := 3.

(** The counters, and the request that is sent again. *)
Definition maybe (e : build_error) (rc : retryCounter) : option (retryCounter * SingReq) :=
  match BCause e with
  | canRetryRequest _ again =>
      let count := default 0%nat (rc !! req_name again) in
      if decide (retryLimit < count)%nat then None
      else Some (<[req_name again := S count]> rc, again)
  | _ => None
  end.

(** ** Assembling *)

(** What [catchAndSend] sends of a panic. *)
Definition panic_error (from : string) : build_error :=
  BWrap (Lit from) (BErr (EOther "runtime.Error" (Lit "invalid memory address or nil pointer dereference"))).

Definition closed_channel (from : string) : build_error :=
  BWrap (Lit from) (BErr (EOther "runtime.plainError" (Lit "send on closed channel"))).

Section Assembling.
Context `{UnicodeTables} `{ImageLabeller}.
Context (sprintf : string → list shown → string).

Definition assembleDeployState (cs : Clusters) (r : SingReq) : option (result build_error DeployState) :=
  '(tgt, e) ← BuildDeployment sprintf cs r;
  Some (match e with
        | None => Ok tgt
        | Some e => Err (BWrap (Lit "Building deployment") e)
        end).

(** The goroutine of one request, its recovery from panics included. *)
Definition assembly (cs : Clusters) (r : SingReq) : result build_error DeployState :=
  match assembleDeployState cs r with
  | Some (Ok t) => Ok t
  | Some (Err e) => Err (BWrap (Lit "assembly problem") e)
  | None => Err (panic_error ("dep from req " +:+ SourceURL r))
  end.

(** [assembles cs r o]: with some answers of Singularity, which names the request
    it is asked for. *)
Definition assembles (cs : Clusters) (r : SingReq) (o : result build_error DeployState) : Prop :=
  ∃ sing, honest sing ∧ assembly cs (mkSingReq (SourceURL r) sing (ReqParent r)) = o.
End Assembling.

(** ** The goroutines *)

(** [singPipeline] of a server: before its list is there, sending the requests of
    it, or blocked on an error. *)
Inductive poller : Type :=
| Asking (url : string)
| Sending (url : string) (rs : list SingReq)
| PReporting (e : build_error).

Inductive assembler : Type :=
| Working (r : SingReq)
| AReporting (r : SingReq) (e : build_error).

(** What the goroutine that closes the channels waits for. *)
Inductive phase : Type := WaitSing | WaitDep | WaitAss | Closed.
#[export] Instance phase_eq_dec : EqDecision phase.
Proof. solve_decision. Defined.

(** The main loop's end; [Crashed] is a panic that nothing recovers from. *)
Inductive ending : Type :=
| Returned (ds : DeployStates) (e : option build_error)
| Crashed.

Record mainloop := mkMain {
  deps : DeployStates;
  retries : retryCounter;
  ended : option ending
}.

(** Of the run so far: the requests that were waited for, by name, what they gave,
    which were dropped, and the lists that were. *)
Record record := mkRecord {
  listed : list string;
  accepted : list (string * DeployState);
  ignored : list string;
  bad_lists : list build_error
}.

Record world := mkWorld {
  pollers : list poller;
  reqCh : list SingReq;
  sleepers : list SingReq;
  assemblers : list assembler;
  depCh : list (SingReq * DeployState);
  singWait : Z;
  depWait : Z;
  closer : phase;
  loop : mainloop;
  log : record
}.

Definition asm_req (a : assembler) : SingReq :=
  match a with Working r | AReporting r _ => r end.

Definition see_url (sings : list string) (c : Cluster) : list string :=
  if decide (BaseURL c ∈ sings) then sings else sings ++ [BaseURL c].

(** The set [sings] of the loop over the clusters, as the list of its URLs. *)
Definition distinct_urls (cs : Clusters) : list string :=
  foldl see_url [] (map_to_list cs).*2.

(** A cluster on a server that is asked already is done at once. *)
Definition start (cs : Clusters) : world :=
  let n := Z.of_nat (length (map_to_list cs)) in
  let twice := n - Z.of_nat (length (distinct_urls cs)) in
  mkWorld (Asking <$> distinct_urls cs) [] [] [] [] (n - twice) 0 WaitSing
    (mkMain ∅ ∅ None) (mkRecord [] [] [] []).

Definition convertSingularityRequestParentsToSingReqs (url : string) (client : singClient)
    (srp : list (option SingularityRequestParent)) : list SingReq :=
  mkSingReq url client <$> srp.

(** The log of each request reads its instances: a nil pointer panics. *)
Definition has_request (r : SingReq) : bool :=
  match ReqParent r with
  | Some rp => match rp_Request rp with Some _ => true | None => false end
  | None => false
  end.

(** ** The main loop *)

(** [depWait.Done()], which panics below zero. *)
Definition Done (w : world) : world :=
  let m := loop w in
  if depWait w - 1 <? 0
  then mkWorld (pollers w) (reqCh w) (sleepers w) (assemblers w) (depCh w) (singWait w) (depWait w - 1)
         (closer w) (mkMain (deps m) (retries m) (Some Crashed)) (log w)
  else mkWorld (pollers w) (reqCh w) (sleepers w) (assemblers w) (depCh w) (singWait w) (depWait w - 1)
         (closer w) m (log w).

(** [case dep := <-depCh] *)
Definition take_dep (r : SingReq) (t : DeployState) (w : world) : world :=
  let m := loop w in let l := log w in
  Done (mkWorld (pollers w) (reqCh w) (sleepers w) (assemblers w) (depCh w) (singWait w) (depWait w)
          (closer w) (mkMain (add t (deps m)).1 (retries m) (ended m))
          (mkRecord (listed l) (accepted l ++ [(req_name r, t)]) (ignored l) (bad_lists l))).

(** [case err := <-errCh]; [from] is the request that the error is of, if any. *)
Definition take_err (from : option SingReq) (e : build_error) (w : world) : world :=
  let m := loop w in let l := log w in
  if isMalformed e || ignorableDeploy e then
    Done (mkWorld (pollers w) (reqCh w) (sleepers w) (assemblers w) (depCh w) (singWait w) (depWait w)
            (closer w) m
            (match from with
             | Some r => mkRecord (listed l) (accepted l) (ignored l ++ [req_name r]) (bad_lists l)
             | None => mkRecord (listed l) (accepted l) (ignored l) (bad_lists l ++ [e])
             end))
  else
    match maybe e (retries m) with
    | Some (rc, again) =>
        mkWorld (pollers w) (reqCh w) (sleepers w ++ [again]) (assemblers w) (depCh w) (singWait w)
          (depWait w) (closer w) (mkMain (deps m) rc (ended m)) l
    | None =>
        mkWorld (pollers w) (reqCh w) (sleepers w) (assemblers w) (depCh w) (singWait w) (depWait w)
          (closer w) (mkMain (deps m) (retries m) (Some (Returned (deps m) (Some e)))) l
    end.

Definition alive (m : mainloop) : Prop := ended m ≠ Some Crashed.
Definition running (m : mainloop) : Prop := ended m = None.

(** ** Steps *)

Section Steps.
Context `{UnicodeTables} `{ImageLabeller}.
Context (sprintf : string → list shown → string).
Context (buildSingClient : string → singClient).
Context (cs : Clusters).

Inductive step : world → world → Prop :=
(* a server answers with its requests, or does not *)
| step_list ps1 url ps2 srp rq sl am dc sw dw ph m l :
    alive m →
    step (mkWorld (ps1 ++ Asking url :: ps2) rq sl am dc sw dw ph m l)
      (mkWorld (ps1 ++ Sending url (convertSingularityRequestParentsToSingReqs url (buildSingClient url) srp) :: ps2)
         rq sl am dc sw dw ph m l)
| step_list_error ps1 url ps2 e rq sl am dc sw dw ph m l :
    alive m →
    step (mkWorld (ps1 ++ Asking url :: ps2) rq sl am dc sw dw ph m l)
      (mkWorld (ps1 ++ PReporting (BWrap (Lit "getting request list") (BWrap (Lit "getting request") (BErr e))) :: ps2)
         rq sl am dc sw dw ph m l)
(* a request is counted and sent; or has nil pointers *)
| step_send ps1 url r rs ps2 rq sl am dc sw dw ph m l :
    alive m → has_request r = true →
    step (mkWorld (ps1 ++ Sending url (r :: rs) :: ps2) rq sl am dc sw dw ph m l)
      (mkWorld (ps1 ++ Sending url rs :: ps2) (rq ++ [r]) sl am dc sw (dw + 1) ph m
         (mkRecord (listed l ++ [req_name r]) (accepted l) (ignored l) (bad_lists l)))
| step_send_nil ps1 url r rs ps2 rq sl am dc sw dw ph m l :
    alive m → has_request r = false →
    step (mkWorld (ps1 ++ Sending url (r :: rs) :: ps2) rq sl am dc sw dw ph m l)
      (mkWorld (ps1 ++ PReporting (panic_error ("get requests: " +:+ url)) :: ps2) rq sl am dc sw dw ph m l)
| step_sent ps1 url ps2 rq sl am dc sw dw ph m l :
    alive m →
    step (mkWorld (ps1 ++ Sending url [] :: ps2) rq sl am dc sw dw ph m l)
      (mkWorld (ps1 ++ ps2) rq sl am dc (sw - 1) dw ph m l)
(* depPipeline starts an assembler *)
| step_start ps r rq sl am dc sw dw ph m l :
    alive m →
    step (mkWorld ps (r :: rq) sl am dc sw dw ph m l)
      (mkWorld ps rq sl (am ++ [Working r]) dc sw dw ph m l)
(* which sends a state, unless the main loop has closed the channel, or an error *)
| step_assemble ps rq sl am1 r am2 dc sw dw ph m l t :
    running m → assembles sprintf cs r (Ok t) →
    step (mkWorld ps rq sl (am1 ++ Working r :: am2) dc sw dw ph m l)
      (mkWorld ps rq sl (am1 ++ am2) (dc ++ [(r, t)]) sw dw ph m l)
| step_assemble_late ps rq sl am1 r am2 dc sw dw ph m l t :
    alive m → ¬ running m → assembles sprintf cs r (Ok t) →
    step (mkWorld ps rq sl (am1 ++ Working r :: am2) dc sw dw ph m l)
      (mkWorld ps rq sl (am1 ++ AReporting r (closed_channel ("dep from req " +:+ SourceURL r)) :: am2)
         dc sw dw ph m l)
| step_assemble_error ps rq sl am1 r am2 dc sw dw ph m l e :
    alive m → assembles sprintf cs r (Err e) →
    step (mkWorld ps rq sl (am1 ++ Working r :: am2) dc sw dw ph m l)
      (mkWorld ps rq sl (am1 ++ AReporting r e :: am2) dc sw dw ph m l)
(* a retry, after its sleep; a panic if the channel is closed, recovered from *)
| step_retry ps rq sl1 r sl2 am dc sw dw ph m l :
    alive m →
    step (mkWorld ps rq (sl1 ++ r :: sl2) am dc sw dw ph m l)
      (mkWorld ps (if decide (ph = Closed) then rq else rq ++ [r]) (sl1 ++ sl2) am dc sw dw ph m l)
(* the main loop receives *)
| step_dep ps rq sl am r t dc sw dw ph m l :
    running m →
    step (mkWorld ps rq sl am ((r, t) :: dc) sw dw ph m l)
      (take_dep r t (mkWorld ps rq sl am dc sw dw ph m l))
| step_poll_error ps1 e ps2 rq sl am dc sw dw ph m l :
    running m → ph ≠ Closed →
    step (mkWorld (ps1 ++ PReporting e :: ps2) rq sl am dc sw dw ph m l)
      (take_err None e (mkWorld (ps1 ++ ps2) rq sl am dc (sw - 1) dw ph m l))
| step_error ps rq sl am1 r e am2 dc sw dw ph m l :
    running m → ph ≠ Closed →
    step (mkWorld ps rq sl (am1 ++ AReporting r e :: am2) dc sw dw ph m l)
      (take_err (Some r) e (mkWorld ps rq sl (am1 ++ am2) dc sw dw ph m l))
(* an error that finds its channel closed is dropped *)
| step_drop ps rq sl am1 r e am2 dc sw dw m l :
    alive m →
    step (mkWorld ps rq sl (am1 ++ AReporting r e :: am2) dc sw dw Closed m l)
      (mkWorld ps rq sl (am1 ++ am2) dc sw dw Closed m l)
(* the channels are closed once everything is done *)
| step_all_polled ps rq sl am dc dw m l :
    alive m →
    step (mkWorld ps rq sl am dc 0 dw WaitSing m l) (mkWorld ps rq sl am dc 0 dw WaitDep m l)
| step_all_processed ps rq sl am dc sw m l :
    alive m →
    step (mkWorld ps rq sl am dc sw 0 WaitDep m l) (mkWorld ps rq sl am dc sw 0 WaitAss m l)
| step_all_assembled ps rq sl dc sw dw m l :
    alive m →
    step (mkWorld ps rq sl [] dc sw dw WaitAss m l) (mkWorld ps rq sl [] dc sw dw Closed m l)
| step_finish ps rq sl am dc sw dw m l :
    running m →
    step (mkWorld ps rq sl am dc sw dw Closed m l)
      (mkWorld ps rq sl am dc sw dw Closed
         (mkMain (deps m) (retries m) (Some (Returned (deps m) None))) l).

Definition reachable (w : world) : Prop := rtc step (start cs) w.
End Steps.

(** ** Lemmas: counting names *)

Definition cnt (n : string) (l : list string) : nat := count_occ String.string_dec l n.
Definition one (n x : string) : nat := if String.string_dec x n then 1 else 0.

Arguments cnt : simpl never.

Lemma cnt_nil n : cnt n [] = 0%nat.
Proof. done. Qed.
Lemma cnt_cons n x l : cnt n (x :: l) = (one n x + cnt n l)%nat.
Proof. unfold cnt, one. simpl. by destruct (String.string_dec x n). Qed.
Lemma cnt_app n l1 l2 : cnt n (l1 ++ l2) = (cnt n l1 + cnt n l2)%nat.
Proof. unfold cnt. apply count_occ_app. Qed.
Lemma cnt_perm l1 l2 : l1 ≡ₚ l2 ↔ ∀ n, cnt n l1 = cnt n l2.
Proof. apply (Permutation_count_occ String.string_dec). Qed.

(** ** Lemmas: retries *)

(** A request can be tried again four times: the fifth error is final. *)
Lemma maybe_spec e rc cause again :
  BCause e = canRetryRequest cause again →
  let count := default 0%nat (rc !! req_name again) in
  maybe e rc = if decide (count < 4)%nat then Some (<[req_name again := S count]> rc, again) else None.
Proof.
  intros He count. unfold maybe. rewrite He. fold count. unfold retryLimit.
  destruct (decide (3 < count)%nat), (decide (count < 4)%nat); done || lia.
Qed.

Lemma maybe_Some e rc rc' again :
  maybe e rc = Some (rc', again) →
  ∃ cause count, BCause e = canRetryRequest cause again ∧ count = default 0%nat (rc !! req_name again) ∧
    (count < 4)%nat ∧ rc' = <[req_name again := S count]> rc.
Proof.
  unfold maybe. destruct (BCause e) as [?|? ?|cause again'] eqn:He; [done..|].
  destruct (decide _) as [|Hlt]; [done|]. intros [= <- <-].
  eexists cause, _. unfold retryLimit in Hlt. split_and!; [done|done|lia|done].
Qed.

(** The name a retry is counted under is that of the request it is of. *)
Definition keeps_name (r : SingReq) (e : build_error) : Prop :=
  ∀ cause again, BCause e = canRetryRequest cause again → req_name again = req_name r.

Section RunningLemmas.
Context `{UnicodeTables} `{ImageLabeller}.
Context (sprintf : string → list shown → string).
Context (buildSingClient : string → singClient).
Context (cs : Clusters).

Abbreviation step := (step sprintf buildSingClient cs).

Lemma assembly_keeps_name r sing :
  honest sing → ∀ e, assembly sprintf cs (mkSingReq (SourceURL r) sing (ReqParent r)) = Err e → keeps_name r e.
Proof.
  intros Hh e. unfold assembly, assembleDeployState, BuildDeployment. set (r' := mkSingReq _ _ _).
  change (mkBuilder _ _ _ _ _ _ _ _ _) with (fresh_builder cs r').
  destruct (completeConstruction sprintf (fresh_builder cs r')) as [[db e0]|] eqn:Hc; simpl.
  2: { by intros [= <-]. }
  destruct (construction_server _ _ _ _ _ Hc) as [[Hurl _] Hw].
  pose proof (construction_name sprintf cs r' db e0 Hh Hc) as Hn.
  destruct e0 as [e0|]; simpl; [|done]. destruct (Hw e0 eq_refl) as (msg&e1&->&Hfin).
  destruct (isRetryable db (BWrap msg e1)) eqn:Hre; intros [= <-] cause again; simpl.
  - intros [= <- <-]. unfold isRetryable in Hre. rewrite !andb_true_iff in Hre. destruct Hre as [_ Hrp].
    unfold req_name. rewrite Hurl. f_equal. f_equal.
    destruct (ReqParent (req db)) as [rp|] eqn:Hrp'; [|done].
    destruct (rp_Request rp) as [q|] eqn:Hq; [|done]. simpl. rewrite Hq. by eapply Hn.
  - intros He. unfold final_error in Hfin. by rewrite He in Hfin.
Qed.
End RunningLemmas.

(** ** The invariant of a run *)

(** The requests that are neither accepted nor dropped yet, by name. *)
Definition outstanding (w : world) : list string :=
  req_name <$> (reqCh w ++ sleepers w ++ (asm_req <$> assemblers w) ++ (fst <$> depCh w)).

Definition poller_ok (p : poller) : Prop :=
  match p with PReporting e => final_error e | _ => True end.
Definition assembler_ok (a : assembler) : Prop :=
  match a with AReporting r e => keeps_name r e | Working _ => True end.

Definition accounted (l : record) (out : list string) : Prop :=
  listed l ≡ₚ (accepted l).*1 ++ ignored l ++ out.

Definition collected (l : record) : DeployStates :=
  foldl (λ ds t, (add t ds).1) ∅ (accepted l).*2.

Record inv (w : world) : Prop := {
  inv_pollers : Forall poller_ok (pollers w);
  inv_assemblers : Forall assembler_ok (assemblers w);
  inv_sing : singWait w = Z.of_nat (length (pollers w));
  inv_phase : closer w ≠ WaitSing → pollers w = [];
  inv_dep : alive (loop w) → 0 ≤ depWait w;
  inv_names : running (loop w) → closer w ≠ Closed ∨ bad_lists (log w) = [] →
    accounted (log w) (outstanding w);
  inv_count : running (loop w) → closer w ≠ Closed →
    depWait w = Z.of_nat (length (outstanding w)) - Z.of_nat (length (bad_lists (log w)));
  inv_done : running (loop w) → closer w = WaitAss ∨ closer w = Closed → bad_lists (log w) = [] →
    outstanding w = [];
  inv_deps : deps (loop w) = collected (log w);
  inv_ended : ∀ ds, ended (loop w) = Some (Returned ds None) → ds = deps (loop w) ∧ closer w = Closed ∧
    (bad_lists (log w) = [] → accounted (log w) [])
}.

Lemma start_inv cs : inv (start cs).
Proof.
  split; simpl; try done.
  - apply Forall_fmap, Forall_forall. done.
  - rewrite length_fmap. lia.
  - intros _ _. apply Permutation_refl.
Qed.

(** The effect of [Done] on the invariant: one request less is waited for. *)
Lemma Done_fields w :
  pollers (Done w) = pollers w ∧ reqCh (Done w) = reqCh w ∧ sleepers (Done w) = sleepers w ∧
  assemblers (Done w) = assemblers w ∧ depCh (Done w) = depCh w ∧ singWait (Done w) = singWait w ∧
  depWait (Done w) = depWait w - 1 ∧ closer (Done w) = closer w ∧ log (Done w) = log w ∧
  deps (loop (Done w)) = deps (loop w) ∧
  ended (loop (Done w)) = (if decide (depWait w ≤ 0) then Some Crashed else ended (loop w)).
Proof.
  unfold Done. destruct (Z.ltb_spec (depWait w - 1) 0); split_and!; simpl; try done;
    case_decide; done || lia.
Qed.

Lemma outstanding_Done w : outstanding (Done w) = outstanding w.
Proof. unfold outstanding. by destruct (Done_fields w) as (_&->&->&->&->&_). Qed.

Lemma inv_Done w :
  running (loop w) →
  Forall poller_ok (pollers w) → Forall assembler_ok (assemblers w) →
  singWait w = Z.of_nat (length (pollers w)) → (closer w ≠ WaitSing → pollers w = []) →
  (closer w ≠ Closed ∨ bad_lists (log w) = [] → accounted (log w) (outstanding w)) →
  (closer w ≠ Closed →
    depWait w - 1 = Z.of_nat (length (outstanding w)) - Z.of_nat (length (bad_lists (log w)))) →
  (closer w = WaitAss ∨ closer w = Closed → bad_lists (log w) = [] → outstanding w = []) →
  deps (loop w) = collected (log w) → inv (Done w).
Proof.
  intros Hrun H1 H2 H3 H4 H5 H6 H7 H8.
  destruct (Done_fields w) as (E1&E2&E3&E4&E5&E6&E7&E8&E9&E10&E11).
  split; rewrite ?outstanding_Done, ?E1, ?E4, ?E6, ?E7, ?E8, ?E9, ?E10; try done.
  - unfold alive. rewrite E11. destruct (decide (depWait w ≤ 0)); [done|lia].
  - intros ds. rewrite E11, Hrun. by destruct (decide _).
Qed.

Ltac fields :=
  cbn [pollers reqCh sleepers assemblers depCh singWait depWait closer loop log
       listed accepted ignored bad_lists asm_req fst snd] in *.

(** Solves that what is listed is still accounted for, by counting each name. *)
Ltac expand_names H :=
  unfold accounted, outstanding in *; rewrite cnt_perm in *; fields;
  let n := fresh "n" in intros n; specialize (H n);
  repeat (rewrite ?fmap_app, ?fmap_cons, ?fmap_nil, ?cnt_app, ?cnt_cons, ?cnt_nil in H; fields);
  repeat (rewrite ?fmap_app, ?fmap_cons, ?fmap_nil, ?cnt_app, ?cnt_cons, ?cnt_nil; fields).
Ltac count_names H := expand_names H; lia.

(** Solves how many are left, by adding lengths. *)
Ltac count_lengths H :=
  unfold outstanding in *; fields;
  repeat (rewrite ?length_fmap, ?length_app, ?length_cons in H; fields);
  repeat (rewrite ?length_fmap, ?length_app, ?length_cons; fields);
  change (length (@nil SingReq)) with 0%nat in *; lia.

Lemma outstanding_nil w :
  outstanding w = [] ↔ reqCh w = [] ∧ sleepers w = [] ∧ assemblers w = [] ∧ depCh w = [].
Proof.
  unfold outstanding. split.
  - intros Ho%fmap_nil_inv. rewrite !app_nil in Ho. destruct Ho as (?&?&?%fmap_nil_inv&?%fmap_nil_inv). done.
  - by intros (->&->&->&->).
Qed.

Lemma Forall_mid {A} (P : A → Prop) l1 x l2 : Forall P (l1 ++ x :: l2) ↔ P x ∧ Forall P (l1 ++ l2).
Proof. rewrite !Forall_app, Forall_cons. naive_solver. Qed.

(** A step that moves requests between the goroutines, and touches neither the
    main loop nor what was recorded. *)
Lemma inv_move w w' :
  inv w → loop w' = loop w → log w' = log w → closer w' = closer w → depWait w' = depWait w →
  Forall poller_ok (pollers w') → Forall assembler_ok (assemblers w') →
  singWait w' = Z.of_nat (length (pollers w')) → (closer w ≠ WaitSing → pollers w' = []) →
  (running (loop w) → closer w ≠ Closed ∨ bad_lists (log w) = [] → outstanding w' ≡ₚ outstanding w) →
  inv w'.
Proof.
  intros [? ? ? ? Hd Hn Hc Hdone Hdeps He] El Eg Ec Ed H1 H2 H3 H4 Hperm.
  split; rewrite ?El, ?Eg, ?Ec, ?Ed; try done.
  - intros Hr Hor. unfold accounted. rewrite (Hperm Hr Hor). by apply Hn.
  - intros Hr Hne. rewrite (Hperm Hr (or_introl Hne)). by apply Hc.
  - intros Hr Hor Hbad. pose proof (Hperm Hr (or_intror Hbad)) as Hp.
    rewrite (Hdone Hr Hor Hbad) in Hp. by apply Permutation_nil_r in Hp.
Qed.

Lemma phase_of_mid (ph : phase) (ps1 ps2 : list poller) p :
  (ph ≠ WaitSing → ps1 ++ p :: ps2 = []) → ph = WaitSing.
Proof.
  intros Hph. destruct (decide (ph = WaitSing)) as [|Hne]; [done|].
  specialize (Hph Hne). by destruct ps1.
Qed.

(** A poller that goes on. *)
Lemma inv_poller ps1 p p' ps2 rq sl am dc sw dw ph m l :
  poller_ok p' → inv (mkWorld (ps1 ++ p :: ps2) rq sl am dc sw dw ph m l) →
  inv (mkWorld (ps1 ++ p' :: ps2) rq sl am dc sw dw ph m l).
Proof.
  intros Hp' Hi. pose proof Hi as [Hp Ha Hsing Hph _ _ _ _ _ _]. simpl in *.
  apply (inv_move _ _ Hi); simpl; try done.
  - rewrite Forall_mid in *. tauto.
  - rewrite Hsing, !length_app. simpl. lia.
  - intros Hne. by rewrite (phase_of_mid _ _ _ _ Hph) in Hne.
Qed.

(** An assembler that goes on. *)
Lemma inv_assembler ps rq sl am1 a a' am2 dc sw dw ph m l :
  assembler_ok a' → asm_req a' = asm_req a → inv (mkWorld ps rq sl (am1 ++ a :: am2) dc sw dw ph m l) →
  inv (mkWorld ps rq sl (am1 ++ a' :: am2) dc sw dw ph m l).
Proof.
  intros Ha' Hr Hi. pose proof Hi as [Hp Ha Hsing Hph _ _ _ _ _ _]. simpl in *.
  apply (inv_move _ _ Hi); simpl; try done.
  - rewrite Forall_mid in *. tauto.
  - intros _ _. unfold outstanding. simpl. rewrite !(fmap_app asm_req), !fmap_cons, Hr. done.
Qed.

Lemma inv_send ps1 url r rs ps2 rq sl am dc sw dw ph m l :
  inv (mkWorld (ps1 ++ Sending url (r :: rs) :: ps2) rq sl am dc sw dw ph m l) →
  inv (mkWorld (ps1 ++ Sending url rs :: ps2) (rq ++ [r]) sl am dc sw (dw + 1) ph m
    (mkRecord (listed l ++ [req_name r]) (accepted l) (ignored l) (bad_lists l))).
Proof.
  intros [Hp Ha Hsing Hph Hd Hn Hc Hdone Hdeps He]. simpl in *.
  pose proof (phase_of_mid _ _ _ _ Hph) as ->.
  split; simpl; try done.
  - rewrite Forall_mid in *. tauto.
  - rewrite Hsing, !length_app. done.
  - intros Hal. specialize (Hd Hal). lia.
  - intros Hr Hor. specialize (Hn Hr Hor). count_names Hn.
  - intros Hr Hne. specialize (Hc Hr Hne). count_lengths Hc.
  - intros _ [?|?]; done.
  - intros ds Hds. by destruct (He ds Hds) as (_&?&_).
Qed.

Lemma inv_retry ps rq sl1 r sl2 am dc sw dw ph m l :
  inv (mkWorld ps rq (sl1 ++ r :: sl2) am dc sw dw ph m l) →
  inv (mkWorld ps (if decide (ph = Closed) then rq else rq ++ [r]) (sl1 ++ sl2) am dc sw dw ph m l).
Proof.
  intros Hi. pose proof Hi as [Hp Ha Hsing Hph _ _ _ Hdone _ _]. simpl in *.
  apply (inv_move _ _ Hi); simpl; try done. intros Hr Hor.
  destruct (decide (ph = Closed)) as [->|Hne].
  - destruct Hor as [?|Hbad]; [done|].
    pose proof (Hdone Hr (or_intror eq_refl) Hbad) as Ho. apply outstanding_nil in Ho as (_&Ho&_).
    simpl in Ho. by destruct sl1.
  - apply cnt_perm. intros n. unfold outstanding. simpl.
    repeat (rewrite ?fmap_app, ?fmap_cons, ?fmap_nil, ?cnt_app, ?cnt_cons, ?cnt_nil). lia.
Qed.

Lemma inv_dep_taken ps rq sl am r t dc sw dw ph m l :
  running m → inv (mkWorld ps rq sl am ((r, t) :: dc) sw dw ph m l) →
  inv (take_dep r t (mkWorld ps rq sl am dc sw dw ph m l)).
Proof.
  intros Hrun [Hp Ha Hsing Hph Hd Hn Hc Hdone Hdeps He]. simpl in *.
  apply inv_Done; simpl; try done.
  - intros Hor. specialize (Hn Hrun Hor). count_names Hn.
  - intros Hne. specialize (Hc Hrun Hne). count_lengths Hc.
  - intros Hor Hbad. specialize (Hdone Hrun Hor Hbad). apply outstanding_nil in Hdone as (_&_&_&Ho). done.
  - rewrite Hdeps. unfold collected. simpl. by rewrite fmap_app, foldl_app.
Qed.

(** The main loop gives up. *)
Lemma inv_given_up ps rq sl am dc sw dw ph m l e :
  Forall poller_ok ps → Forall assembler_ok am → sw = Z.of_nat (length ps) →
  (ph ≠ WaitSing → ps = []) → 0 ≤ dw → deps m = collected l →
  inv (mkWorld ps rq sl am dc sw dw ph (mkMain (deps m) (retries m) (Some (Returned (deps m) (Some e)))) l).
Proof. intros. by split. Qed.

Lemma inv_poll_error ps1 e ps2 rq sl am dc sw dw ph m l :
  running m → inv (mkWorld (ps1 ++ PReporting e :: ps2) rq sl am dc sw dw ph m l) →
  inv (take_err None e (mkWorld (ps1 ++ ps2) rq sl am dc (sw - 1) dw ph m l)).
Proof.
  intros Hrun [Hp Ha Hsing Hph Hd Hn Hc Hdone Hdeps He]. simpl in *.
  pose proof (phase_of_mid _ _ _ _ Hph) as ->. apply Forall_mid in Hp as [Hfin Hp].
  assert (sw - 1 = Z.of_nat (length (ps1 ++ ps2))) as Hs.
  { rewrite length_app in *. simpl in *. lia. }
  unfold take_err. destruct (isMalformed e || ignorableDeploy e).
  - apply inv_Done; simpl; try done.
    + intros Hor. unfold accounted. simpl. apply (Hn Hrun). by left.
    + intros Hne. specialize (Hc Hrun Hne). rewrite length_app. simpl. unfold outstanding in *. simpl in *. lia.
    + by intros [?|?].
  - assert (maybe e (retries (loop (mkWorld (ps1 ++ ps2) rq sl am dc (sw - 1) dw WaitSing m l))) = None) as ->.
    { unfold maybe. simpl in Hfin. unfold final_error in Hfin. by destruct (BCause e). }
    apply inv_given_up; try done. apply Hd. unfold alive. by rewrite Hrun.
Qed.

Lemma inv_error ps rq sl am1 r e am2 dc sw dw ph m l :
  running m → ph ≠ Closed → inv (mkWorld ps rq sl (am1 ++ AReporting r e :: am2) dc sw dw ph m l) →
  inv (take_err (Some r) e (mkWorld ps rq sl (am1 ++ am2) dc sw dw ph m l)).
Proof.
  intros Hrun Hnc [Hp Ha Hsing Hph Hd Hn Hc Hdone Hdeps He]. simpl in *.
  apply Forall_mid in Ha as [Hname Ha]. specialize (Hn Hrun (or_introl Hnc)). specialize (Hc Hrun Hnc).
  assert (ph = WaitAss ∨ ph = Closed → bad_lists l = [] → False) as Hnot.
  { intros Hor Hbad. specialize (Hdone Hrun Hor Hbad). apply outstanding_nil in Hdone as (_&_&Ho&_).
    simpl in Ho. by destruct am1. }
  assert (0 ≤ dw) as Hdw by (apply Hd; unfold alive; by rewrite Hrun).
  unfold take_err. destruct (isMalformed e || ignorableDeploy e).
  - apply inv_Done; simpl; try done.
    + intros _. count_names Hn.
    + intros _. count_lengths Hc.
    + intros Hor Hbad. by destruct (Hnot Hor Hbad).
  - destruct (maybe e _) as [[rc again]|] eqn:Hm; [|by apply inv_given_up].
    apply maybe_Some in Hm as (cause&count&Hcause&_). pose proof (Hname _ _ Hcause) as Hag.
    split; simpl; try done.
    + intros _ _. expand_names Hn. rewrite Hag. lia.
    + intros _ _. count_lengths Hc.
    + intros _ Hor Hbad. by destruct (Hnot Hor Hbad).
Qed.

(** ** Lemmas: the set that is collected *)

Lemma first_added_from (l : list DeployState) (ds : DeployStates) did t :
  foldl (λ ds t, (add t ds).1) ds l !! did = Some t ↔
    ds !! did = Some t ∨ ds !! did = None ∧
      ∃ before after, l = before ++ t :: after ∧ DeployState_ID t = did ∧
        did ∉ DeployState_ID <$> before.
Proof.
  revert ds. induction l as [|x l IH]; intros ds; simpl.
  { split; [by left|]. intros [?|(_&before&after&Heq&_)]; [done|]. by destruct before. }
  rewrite IH. unfold add. change (ID x) with (DeployState_ID x).
  destruct (ds !! DeployState_ID x) as [y|] eqn:Hx; simpl.
  - split; intros [?|(Hn&before&after&Heq&Hid&Hnot)]; try (by left); right; (split; [done|]).
    + exists (x :: before), after. subst l. split_and!; [done|done|]. simpl.
      rewrite not_elem_of_cons. split; [|done]. intros ->. by rewrite Hx in Hn.
    + destruct before as [|z before]; injection Heq as -> ->.
      * by rewrite Hid, Hn in Hx.
      * exists before, after. split_and!; [done|done|]. simpl in Hnot. rewrite not_elem_of_cons in Hnot. tauto.
  - destruct (decide (DeployState_ID x = did)) as [<-|Hne].
    + rewrite lookup_insert_eq. split.
      * intros [[= ->]|[? _]]; [|done]. right. split; [done|]. exists [], l. split_and!; [done|done|].
        apply not_elem_of_nil.
      * intros [?|(_&before&after&Heq&Hid&Hnot)]; [congruence|]. left.
        destruct before as [|z before]; injection Heq as -> Heq; [done|].
        simpl in Hnot. rewrite not_elem_of_cons in Hnot. tauto.
    + rewrite lookup_insert_ne by done. split; (intros [?|(Hn&before&after&Heq&Hid&Hnot)]; [by left|right]);
        (split; [done|]).
      * exists (x :: before), after. subst l. split_and!; [done|done|]. simpl. rewrite not_elem_of_cons. auto.
      * destruct before as [|z before]; injection Heq as -> ->; [done|].
        exists before, after. split_and!; [done|done|]. simpl in Hnot. rewrite not_elem_of_cons in Hnot. tauto.
Qed.

Lemma first_added (l : list DeployState) did t :
  foldl (λ ds t, (add t ds).1) (∅ : DeployStates) l !! did = Some t ↔
    ∃ before after, l = before ++ t :: after ∧ DeployState_ID t = did ∧
      did ∉ DeployState_ID <$> before.
Proof. rewrite first_added_from, lookup_empty. naive_solver. Qed.

Lemma see_url_nonempty sings c : see_url sings c ≠ [].
Proof.
  unfold see_url. destruct (decide (BaseURL c ∈ sings)) as [Hin|].
  - intros ->. by apply not_elem_of_nil in Hin.
  - by destruct sings.
Qed.

Lemma distinct_urls_nonempty (cs : Clusters) : cs ≠ ∅ → distinct_urls cs ≠ [].
Proof.
  intros Hne. change (foldl see_url [] (map_to_list cs).*2 ≠ []).
  destruct (map_to_list cs).*2 as [|c l] eqn:Hl.
  { apply fmap_nil_inv, map_to_list_empty_iff in Hl. done. }
  simpl. generalize (see_url_nonempty [] c). generalize (see_url [] c). clear.
  induction l as [|c l IH]; intros sings Hs; simpl; [done|]. apply IH, see_url_nonempty.
Qed.

Section Runs.
Context `{UnicodeTables} `{ImageLabeller}.
Context (sprintf : string → list shown → string).
Context (buildSingClient : string → singClient).
Context (cs : Clusters).

Abbreviation step := (step sprintf buildSingClient cs).

Lemma running_step_inv w w' : step w w' → inv w → inv w'.
Proof.
  intros Hs. destruct Hs as [| | | |ps1 url ps2 rq sl am dc sw dw ph m l Hal| | | | | | | | |ps rq sl am1 r e am2 dc sw dw m l Hal|
    |ps rq sl am dc sw m l Hal| |]; intros Hi.
  - by apply (inv_poller _ (Asking url)).
  - by apply (inv_poller _ (Asking url)).
  - by apply (inv_send _ _ _ _ _ rq).
  - by apply (inv_poller _ (Sending url (r :: rs))).
  - pose proof Hi as [Hp Ha Hsing Hph _ _ _ _ _ _]. simpl in *.
    apply (inv_move _ _ Hi); simpl; try done.
    + by apply Forall_mid in Hp as [_ ?].
    + rewrite Hsing, !length_app. simpl. lia.
    + intros Hne. by rewrite (phase_of_mid _ _ _ _ Hph) in Hne.
  - pose proof Hi as [Hp Ha Hsing Hph _ _ _ _ _ _]. simpl in *.
    apply (inv_move _ _ Hi); simpl; try done.
    + apply Forall_app. split; [done|]. by apply Forall_singleton.
    + intros _ _. apply cnt_perm. intros n. unfold outstanding. fields.
      repeat (rewrite ?fmap_app, ?fmap_cons, ?fmap_nil, ?cnt_app, ?cnt_cons, ?cnt_nil; fields). lia.
  - pose proof Hi as [Hp Ha Hsing Hph _ _ _ _ _ _]. simpl in *.
    apply (inv_move _ _ Hi); simpl; try done.
    + by apply Forall_mid in Ha as [_ ?].
    + intros _ _. apply cnt_perm. intros n. unfold outstanding. fields.
      repeat (rewrite ?fmap_app, ?fmap_cons, ?fmap_nil, ?cnt_app, ?cnt_cons, ?cnt_nil; fields). lia.
  - by apply (inv_assembler _ _ _ _ (Working r)).
  - apply (inv_assembler _ _ _ _ (Working r)); [|done..].
    match goal with Ha : assembles _ _ _ _ |- _ => destruct Ha as (sing&Hh&Ha) end.
    by apply (assembly_keeps_name sprintf cs r sing).
  - by apply inv_retry.
  - by apply inv_dep_taken.
  - by apply inv_poll_error.
  - by apply inv_error.
  - pose proof Hi as [Hp Ha Hsing Hph _ _ _ Hdone _ _]. simpl in *.
    apply (inv_move _ _ Hi); simpl; try done.
    + by apply Forall_mid in Ha as [_ ?].
    + intros Hrun [?|Hbad]; [done|]. pose proof (Hdone Hrun (or_intror eq_refl) Hbad) as Ho.
      apply outstanding_nil in Ho as (_&_&Ho&_). simpl in Ho. by destruct am1.
  - destruct Hi as [? ? Hsing ? ? Hn Hc Hdone ? He]. simpl in *. split; simpl; try done.
    + intros _. destruct ps; [done|]. simpl in Hsing. lia.
    + intros Hrun _. apply Hn; [done|by left].
    + intros Hrun _. by apply Hc.
    + by intros _ [?|?].
    + intros ds Hds. by destruct (He ds Hds) as (_&?&_).
  - destruct Hi as [? ? Hsing Hph ? Hn Hc Hdone ? He]. simpl in *. split; simpl; try done.
    + intros _. by apply Hph.
    + intros Hrun _. apply Hn; [done|by left].
    + intros Hrun _. by apply Hc.
    + intros Hrun _ Hbad. assert (WaitDep ≠ Closed) as Hne by done. specialize (Hc Hrun Hne).
      rewrite Hbad in Hc. simpl in Hc. change (outstanding _ = []) with
        (outstanding (mkWorld ps rq sl am dc sw 0 WaitDep m l) = []).
      destruct (outstanding _); [done|]. simpl in Hc. lia.
    + intros ds Hds. by destruct (He ds Hds) as (_&?&_).
  - destruct Hi as [? ? Hsing Hph ? Hn Hc Hdone ? He]. simpl in *. split; simpl; try done.
    + intros _. by apply Hph.
    + intros Hrun _. apply Hn; [done|by left].
    + intros Hrun _ Hbad. apply (Hdone Hrun); [by left|done].
    + intros ds Hds. by destruct (He ds Hds) as (_&?&_).
  - match goal with Hr : running m |- _ => rename Hr into Hrun end.
    destruct Hi as [? ? Hsing Hph Hd Hn Hc Hdone ? He]. simpl in *. split; simpl; try done.
    { intros _. apply Hd. unfold alive. by rewrite Hrun. }
    intros ds [= <-]. split; [done|]. split; [done|]. intros Hbad.
    specialize (Hn Hrun (or_intror Hbad)). rewrite (Hdone Hrun (or_intror eq_refl) Hbad) in Hn. exact Hn.
Qed.

Lemma reachable_inv w : rtc step (start cs) w → inv w.
Proof.
  intros Hr. apply (rtc_ind_r (R := step) inv (start cs)); [apply start_inv| |done].
  intros y z _ Hyz Hy. by eapply running_step_inv.
Qed.

(** ** What is left to do *)

Definition asks (p : poller) : nat := match p with Asking _ => 1 | _ => 0 end.
Definition asking (w : world) : nat := sum_list_with asks (pollers w).

Definition to_send (p : poller) : list SingReq := match p with Sending _ rs => rs | _ => [] end.

(** The requests that may still fail, and how often they may be tried again. *)
Definition pending (w : world) : list SingReq :=
  (pollers w ≫= to_send) ++ reqCh w ++ sleepers w ++ (asm_req <$> assemblers w).
Definition tries_left (rc : retryCounter) (r : SingReq) : nat := 4 - default 0%nat (rc !! req_name r).
Definition budget (w : world) : nat := sum_list_with (tries_left (retries (loop w))) (pending w).

Definition poller_work (p : poller) : nat :=
  match p with Asking _ => 0 | Sending _ rs => 2 + 6 * length rs | PReporting _ => 1 end.
Definition assembler_work (a : assembler) : nat :=
  match a with Working _ => 4 | AReporting _ _ => 2 end.
Definition phase_work (ph : phase) : nat :=
  match ph with WaitSing => 3 | WaitDep => 2 | WaitAss => 1 | Closed => 0 end.
Definition ended_work (m : mainloop) : nat := match ended m with None => 1 | Some _ => 0 end.

Definition work (w : world) : nat :=
  sum_list_with poller_work (pollers w) + 5 * length (reqCh w) + 6 * length (sleepers w) +
  sum_list_with assembler_work (assemblers w) + length (depCh w) + phase_work (closer w) +
  ended_work (loop w).

Definition fuel (w : world) : nat := 10 * budget w + work w.

Definition smaller (w' w : world) : Prop :=
  (asking w' < asking w)%nat ∨ asking w' = asking w ∧ (fuel w' < fuel w)%nat.

Lemma sum_left_le rc1 rc2 l :
  (∀ r, tries_left rc1 r ≤ tries_left rc2 r)%nat → (sum_list_with (tries_left rc1) l ≤ sum_list_with (tries_left rc2) l)%nat.
Proof. intros Hle. induction l as [|r l IH]; simpl; [lia|]. specialize (Hle r). lia. Qed.

Lemma left_insert rc again r :
  let count := default 0%nat (rc !! req_name again) in
  (tries_left (<[req_name again := S count]> rc) r ≤ tries_left rc r)%nat.
Proof.
  intros count. unfold tries_left. destruct (decide (req_name r = req_name again)) as [->|Hne].
  - rewrite lookup_insert_eq. simpl. unfold count. lia.
  - by rewrite lookup_insert_ne by done.
Qed.

Lemma left_retry rc again :
  let count := default 0%nat (rc !! req_name again) in
  (count < 4)%nat → (tries_left (<[req_name again := S count]> rc) again < tries_left rc again)%nat.
Proof.
  intros count Hc. unfold tries_left. rewrite lookup_insert_eq. simpl. fold count. lia.
Qed.

Ltac sums :=
  unfold smaller, fuel, work, budget, pending, asking, ended_work; fields;
  rewrite ?bind_app, ?bind_cons, ?fmap_app, ?fmap_cons, ?sum_list_with_app, ?length_app; cbn; 
  rewrite ?bind_app, ?sum_list_with_app, ?length_app; cbn; try lia.

Lemma Done_smaller w0 w :
  asking w = asking w0 → (fuel w < fuel w0)%nat → running (loop w) → smaller (Done w) w0.
Proof.
  intros Ha Hf Hr. destruct (Done_fields w) as (E1&E2&E3&E4&E5&_&_&E8&_&_&E11).
  assert (retries (loop (Done w)) = retries (loop w)) as E12 by (unfold Done; by destruct (_ <? _)).
  right. unfold asking, fuel, budget, pending, work in *. rewrite E1, E2, E3, E4, E5, E8, E12.
  split; [done|]. unfold ended_work in *. rewrite E11. rewrite Hr in *. destruct (decide _); lia.
Qed.

Lemma take_err_smaller from e w w0 :
  running (loop w) → asking w = asking w0 →
  (∀ cause again, BCause e = canRetryRequest cause again →
     (sum_list_with (tries_left (retries (loop w))) (pending w) +
        tries_left (retries (loop w)) again ≤ budget w0)%nat ∧
     (work w ≤ work w0)%nat) →
  (fuel w < fuel w0)%nat → smaller (take_err from e w) w0.
Proof.
  intros Hrun Ha Hretry Hf. unfold take_err. destruct (isMalformed e || ignorableDeploy e).
  - apply Done_smaller; done.
  - destruct (maybe e (retries (loop w))) as [[rc again]|] eqn:Hm.
    + apply maybe_Some in Hm as (cause&count&Hcause&->&Hlt&->).
      destruct (Hretry _ _ Hcause) as [Hb Hw].
      pose proof (left_retry _ _ Hlt) as Hl.
      pose proof (sum_left_le _ _ (pending w) (left_insert (retries (loop w)) again)) as Hs.
      right. split; [done|]. unfold fuel in *. revert Hs Hl Hb Hw Hf.
      unfold budget, work, pending, ended_work. fields. rewrite !sum_list_with_app, length_app. cbn. lia.
    + right. split; [done|]. unfold fuel, work, budget, pending, ended_work in *. fields.
      rewrite Hrun in *. cbn. lia.
Qed.

Lemma step_smaller w w' : inv w → step w w' → smaller w' w.
Proof.
  intros Hi Hs. destruct Hs as [| | | | | | | | |ps rq sl1 r sl2 am dc sw dw ph m l Hal|
    |ps1 e ps2 rq sl am dc sw dw ph m l Hrun Hph|ps rq sl am1 r e am2 dc sw dw ph m l Hrun Hph| | | | |].
  1-2: left; unfold asking; simpl; rewrite !sum_list_with_app; simpl; lia.
  1-7: right; sums.
  - destruct (decide (ph = Closed)); right; sums.
  - apply Done_smaller; [sums..|done].
  - apply take_err_smaller; [done|sums| |sums].
    intros cause again He. apply inv_pollers in Hi. apply Forall_mid in Hi as [Hfin _]. simpl in Hfin.
    unfold final_error in Hfin. by rewrite He in Hfin.
  - apply take_err_smaller; [done|sums| |sums].
    intros cause again He. apply inv_assemblers in Hi. apply Forall_mid in Hi as [Hname _].
    assert (tries_left (retries m) again = tries_left (retries m) r) as Hr.
    { unfold tries_left. by rewrite (Hname _ _ He). }
    fields. rewrite Hr. split; sums.
  - right; sums.
  - right; sums.
  - right; sums.
  - right; sums.
  - match goal with Hr : running m |- _ => rename Hr into Hrun end. right.
    unfold fuel, work, ended_work. fields. rewrite Hrun. split; [done|].
    unfold budget, pending. fields. simpl. lia.
Qed.

Lemma assembles_something r : ∃ o, assembles sprintf cs r o.
Proof. by exists (assembly sprintf cs (mkSingReq (SourceURL r) silent_client (ReqParent r))), silent_client. Qed.

(** A goroutine that is left can go on, as long as the main loop runs. *)
Lemma busy_steps ps rq sl am dc sw dw ph m l :
  running m → (ph ≠ WaitSing → ps = []) →
  ¬ (ps = [] ∧ rq = [] ∧ sl = [] ∧ am = [] ∧ dc = []) →
  ∃ w', step (mkWorld ps rq sl am dc sw dw ph m l) w'.
Proof.
  intros Hrun Hph Hbusy. assert (alive m) as Hal by (unfold alive; by rewrite Hrun).
  destruct ps as [|[url|url [|r rs]|e] ps].
  2: { eexists. by apply (step_list _ _ _ [] url ps []). }
  2: { eexists. by apply (step_sent _ _ _ []). }
  2: { destruct (has_request r) eqn:Hr; eexists;
       [by apply (step_send _ _ _ [])|by apply (step_send_nil _ _ _ [])]. }
  2: { eexists. apply (step_poll_error _ _ _ []); [done|]. intros ->. by discriminate Hph. }
  destruct rq as [|r rq]; [|eexists; by apply step_start].
  destruct sl as [|r sl]; [|eexists; by apply (step_retry _ _ _ _ _ [])].
  destruct am as [|[r|r e] am].
  2: { destruct (assembles_something r) as [[t|e] Ho]; eexists;
       [by apply (step_assemble _ _ _ _ _ _ [])|by apply (step_assemble_error _ _ _ _ _ _ [])]. }
  2: { destruct (decide (ph = Closed)) as [->|]; eexists;
       [by apply (step_drop _ _ _ _ _ _ [])|by apply (step_error _ _ _ _ _ _ [])]. }
  destruct dc as [|[r t] dc]; [|eexists; by apply step_dep].
  by destruct Hbusy.
Qed.

Lemma running_steps w : inv w → running (loop w) → ∃ w', step w w'.
Proof.
  intros Hi Hrun. pose proof Hi as [_ _ Hsing Hph Hd _ Hc _ _ _].
  destruct w as [ps rq sl am dc sw dw ph m l]; simpl in *.
  assert (alive m) as Hal by (unfold alive; by rewrite Hrun).
  destruct (decide (length ps + length rq + length sl + length am + length dc = 0)%nat) as [H0'|Hbusy].
  2: { apply busy_steps; [done..|]. intros (->&->&->&->&->). by apply Hbusy. }
  destruct ps; [|discriminate H0']. destruct rq; [|discriminate H0']. destruct sl; [|discriminate H0'].
  destruct am; [|discriminate H0']. destruct dc; [|discriminate H0'].
  simpl in Hsing. subst sw. destruct (decide (ph = Closed)) as [->|Hnc]; [eexists; by apply step_finish|].
  specialize (Hc Hrun Hnc). specialize (Hd Hal). change (length (outstanding _)) with 0%nat in Hc.
  assert (dw = 0) as -> by lia.
  destruct ph; [|..|done]; eexists; [by apply step_all_polled|by apply step_all_processed|by apply step_all_assembled].
Qed.

Lemma inv_acc n : ∀ k w, (asking w < n)%nat → (fuel w < k)%nat → inv w → Acc (λ w' w, step w w') w.
Proof.
  induction n as [|n IHn]; [lia|]. induction k as [|k IHk]; intros w Ha Hf Hi; [lia|].
  constructor. intros w' Hs. pose proof (running_step_inv _ _ Hs Hi) as Hi'.
  destruct (step_smaller _ _ Hi Hs) as [Hlt|[Heq Hlt]].
  - apply (IHn (S (fuel w'))); [lia|lia|done].
  - apply IHk; [lia|lia|done].
Qed.

(** ** Properties *)

(** C15.  The collection ends: whatever the servers answer, as long as each answers
    for the request it is asked for, there is no endless run, because a request is
    tried again at most four times, and no run stops before the main loop has
    returned or crashed. *)
Theorem RunningDeployments_ends (w : world) :
  rtc step (start cs) w →
  Acc (λ w' w, step w w') w ∧ (running (loop w) → ∃ w', step w w').
Proof.
  intros Hr%reachable_inv. split; [by apply (inv_acc (S (asking w)) (S (fuel w))); [lia..|]|].
  by apply running_steps.
Qed.

(** C16.  When the main loop returns a set without an error, and no list of requests
    was dropped, then every request of every list was assembled into a deploy
    state, or dropped for an answer that is malformed or not Sous's; and the set
    has exactly those states, the first one when two have the same ID. *)
Theorem RunningDeployments_complete (w : world) (ds : DeployStates) :
  rtc step (start cs) w → ended (loop w) = Some (Returned ds None) → bad_lists (log w) = [] →
  listed (log w) ≡ₚ (accepted (log w)).*1 ++ ignored (log w) ∧
  ∀ did t, ds !! did = Some t ↔
    ∃ before after, (accepted (log w)).*2 = before ++ t :: after ∧ DeployState_ID t = did ∧
      did ∉ DeployState_ID <$> before.
Proof.
  intros Hr%reachable_inv He Hbad. destruct (inv_ended w Hr ds He) as (->&_&Hacc).
  split.
  { specialize (Hacc Hbad). unfold accounted in Hacc. by rewrite app_nil_r in Hacc. }
  intros did t. rewrite (inv_deps w Hr). unfold collected. apply first_added.
Qed.

(** A list of requests that is malformed is treated as a request that is: the
    count of those waited for goes below zero when there are none, and the
    process crashes. *)
Theorem malformed_list_crashes (e : err) :
  cs ≠ ∅ → isMalformed (BErr e) = true →
  ∃ w, rtc step (start cs) w ∧ ended (loop w) = Some Crashed.
Proof.
  intros Hne Hmal. destruct (distinct_urls cs) as [|url urls] eqn:Hu.
  { destruct (distinct_urls_nonempty cs Hne Hu). }
  unfold start. rewrite Hu. change (Asking <$> url :: urls) with ([] ++ Asking url :: (Asking <$> urls)).
  eexists. split.
  - eapply rtc_l; [apply step_list_error with (e := e); by unfold alive|].
    apply rtc_once, step_poll_error; done.
  - unfold take_err. replace (isMalformed _) with true by (symmetry; exact Hmal). done.
Qed.
End Runs.

(** ** Witnesses *)

Lemma RunningDeployments_ends_witness :
  Acc (λ w' w, @step sample_tables sample_labeller (λ _ _, "") (λ _, silent_client) sample_clusters w w')
    (start sample_clusters) ∧
  ∃ w', @step sample_tables sample_labeller (λ _ _, "") (λ _, silent_client) sample_clusters
          (start sample_clusters) w'.
Proof.
  destruct (@RunningDeployments_ends sample_tables sample_labeller (λ _ _, "") (λ _, silent_client)
    sample_clusters (start sample_clusters) (rtc_refl _ _)) as [Hacc Hstep].
  split; [exact Hacc|]. apply Hstep. reflexivity.
Defined.

(** A server without requests. *)
Lemma RunningDeployments_complete_witness :
  ∃ w ds, rtc (@step sample_tables sample_labeller (λ _ _, "") (λ _, silent_client) sample_clusters)
      (start sample_clusters) w ∧
    ended (loop w) = Some (Returned ds None) ∧
    listed (log w) ≡ₚ (accepted (log w)).*1 ++ ignored (log w).
Proof.
  assert (rtc (@step sample_tables sample_labeller (λ _ _, "") (λ _, silent_client) sample_clusters)
    (start sample_clusters)
    (mkWorld [] [] [] [] [] 0 0 Closed (mkMain ∅ ∅ (Some (Returned ∅ None))) (mkRecord [] [] [] []))) as Hrun.
  { replace (start sample_clusters) with
      (mkWorld ([] ++ Asking "http://singularity.ci-sf" :: []) [] [] [] [] 1 0 WaitSing (mkMain ∅ ∅ None)
         (mkRecord [] [] [] [])) by (vm_compute; reflexivity).
    eapply rtc_l; [apply step_list with (srp := []); unfold alive; discriminate|].
    eapply rtc_l; [apply step_sent; unfold alive; discriminate|].
    eapply rtc_l; [apply step_all_polled; unfold alive; discriminate|].
    eapply rtc_l; [apply step_all_processed; unfold alive; discriminate|].
    eapply rtc_l; [apply step_all_assembled; unfold alive; discriminate|].
    apply rtc_once, step_finish. reflexivity. }
  eexists _, _. split; [exact Hrun|]. split; [reflexivity|].
  exact (proj1 (@RunningDeployments_complete sample_tables sample_labeller (λ _ _, "") (λ _, silent_client)
    sample_clusters _ _ Hrun eq_refl eq_refl)).
Defined.

Lemma malformed_list_crashes_witness :
  ∃ w, rtc (@step sample_tables sample_labeller (λ _ _, "") (λ _, silent_client) sample_clusters)
      (start sample_clusters) w ∧ ended (loop w) = Some Crashed.
Proof.
  apply (@malformed_list_crashes sample_tables sample_labeller (λ _ _, "") (λ _, silent_client)
    sample_clusters (EOther "*json.UnmarshalTypeError" (Lit "json: cannot unmarshal"))).
  - apply insert_non_empty.
  - reflexivity.
Defined.
