(* ===== verification/GoUrl.v ===== *)
(** * Escaped URLs (net/url)

    [QueryEscape], [PathEscape], [QueryUnescape], [Values.Encode] and
    [ParseQuery], as the server's links are made with and its requests are read
    with: what is encoded is what is parsed. *)

From S2P Require Import Prelude GoStrings.
#[local] Open Scope string_scope.
#[local] Open Scope Z_scope.
#[local] Open Scope list_scope.

(** ** Escaping *)

Inductive encoding : Type := PathSegment | QueryComponent.

Definition code_of (c : ascii) : Z := Z.of_nat (nat_of_ascii c).

Definition unreserved (c : ascii) : bool :=
  let n := code_of c in
  ((97 <=? n) && (n <=? 122)) || ((65 <=? n) && (n <=? 90)) || ((48 <=? n) && (n <=? 57))
  || (n =? 45) || (n =? 95) || (n =? 46) || (n =? 126).

Definition shouldEscape (mode : encoding) (c : ascii) : bool :=
  if unreserved c then false
  else if bool_decide (c ∈ bytes "$&+,/:;=?@")
  then match mode with
       | PathSegment => bool_decide (c ∈ bytes "/;,?")
       | QueryComponent => true
       end
  else true.

Definition upper_hex (n : Z) : ascii := ascii_of_nat (Z.to_nat (if n <? 10 then 48 + n else 55 + n)).

Definition escape_byte (mode : encoding) (c : ascii) : string :=
  if shouldEscape mode c then
    match mode with
    | QueryComponent =>
        if bool_decide (c = " "%char) then "+"
        else String "%" (String (upper_hex (code_of c / 16)) (String (upper_hex (code_of c mod 16)) ""))
    | PathSegment => String "%" (String (upper_hex (code_of c / 16)) (String (upper_hex (code_of c mod 16)) ""))
    end
  else String c "".

Fixpoint escape (mode : encoding) (s : string) : string :=
  match s with
  | "" => ""
  | String c s => escape_byte mode c +:+ escape mode s
  end.

Definition QueryEscape : string → string := escape QueryComponent.
Definition PathEscape : string → string := escape PathSegment.

Definition unhex (c : ascii) : option Z :=
  let n := code_of c in
  if (48 <=? n) && (n <=? 57) then Some (n - 48)
  else if (97 <=? n) && (n <=? 102) then Some (n - 87)
  else if (65 <=? n) && (n <=? 70) then Some (n - 55)
  else None.

(** [None] is an [EscapeError]. *)
Fixpoint QueryUnescape (s : string) : option string :=
  match s with
  | "" => Some ""
  | String c s1 =>
      if bool_decide (c = "%"%char) then
        match s1 with
        | String h (String l s2) =>
            a ← unhex h; b ← unhex l; r ← QueryUnescape s2;
            Some (String (ascii_of_nat (Z.to_nat (16 * a + b))) r)
        | _ => None
        end
      else
        r ← QueryUnescape s1; Some (String (if bool_decide (c = "+"%char) then " "%char else c) r)
  end.

(** ** Query strings *)

Abbreviation Values := (gmap string (list string)).

Definition values_Add (k v : string) (m : Values) : Values :=
  <[k := default [] (m !! k) ++ [v]]> m.

(** [Get]: the first value, if any. *)
Definition values_Get (k : string) (m : Values) : string :=
  default "" (m !! k ≫= head).

Definition encode_pair (k v : string) : string := QueryEscape k +:+ "=" +:+ QueryEscape v.

Definition encode_pairs (m : Values) : list string :=
  k ← sort_strings (map_to_list m).*1; encode_pair k <$> default [] (m !! k).

Definition Encode (m : Values) : string := join "&" (encode_pairs m).

(** One piece of a query; the flag is whether there was an error so far. *)
Definition parse_piece (acc : Values * bool) (piece : string) : Values * bool :=
  if bool_decide (piece = "") then acc
  else
    let '(k, v) := cut "=" piece in
    match QueryUnescape k with
    | None => (acc.1, true)
    | Some k =>
        match QueryUnescape (default "" v) with
        | None => (acc.1, true)
        | Some v => (values_Add k v acc.1, acc.2)
        end
    end.

(** Ampersands and semicolons separate the pieces. *)
Definition ParseQuery (query : string) : Values * bool :=
  foldl parse_piece (∅, false) (split_on "&" (replace_all query ";" "&")).

(** [URL.Query] drops what cannot be parsed. *)
Definition Query (rawQuery : string) : Values := (ParseQuery rawQuery).1.

(** ** Escaping loses nothing *)

Lemma unescape_byte (c : ascii) (s : string) :
  QueryUnescape (escape_byte QueryComponent c +:+ s) = (r ← QueryUnescape s; Some (String c r)).
Proof. destruct c as [[] [] [] [] [] [] [] []]; reflexivity. Qed.

Lemma QueryUnescape_Escape (s : string) : QueryUnescape (QueryEscape s) = Some s.
Proof.
  unfold QueryEscape. induction s as [|c s IH]; [done|]. cbn [escape].
  by rewrite unescape_byte, IH.
Qed.

Lemma escape_byte_lacks (c x : ascii) :
  x ∈ ["&"; ";"; "="; "?"; "#"]%char → lacks x (escape_byte QueryComponent c) = true.
Proof.
  intros Hx. assert (forallb (λ x, lacks x (escape_byte QueryComponent c)) ["&"; ";"; "="; "?"; "#"]%char = true) as Hall
    by (destruct c as [[] [] [] [] [] [] [] []]; reflexivity).
  rewrite forallb_forall in Hall. apply Hall. by apply list_elem_of_In.
Qed.

Lemma QueryEscape_lacks (x : ascii) (s : string) :
  x ∈ ["&"; ";"; "="; "?"; "#"]%char → lacks x (QueryEscape s) = true.
Proof.
  intros Hx. unfold QueryEscape. induction s as [|c s IH]; [done|]. cbn [escape].
  by rewrite lacks_app, escape_byte_lacks, IH.
Qed.

(** ** What is encoded is what is parsed *)

Lemma encode_pair_lacks (x : ascii) (k v : string) :
  x ∈ ["&"; ";"; "?"; "#"]%char → lacks x (encode_pair k v) = true.
Proof.
  intros Hx. unfold encode_pair. rewrite !lacks_app.
  rewrite !QueryEscape_lacks by set_solver. rewrite andb_true_r. simpl.
  apply lacks_spec. simpl. rewrite elem_of_cons in Hx. set_solver.
Qed.

Lemma parse_encoded_pair (acc : Values * bool) (k v : string) :
  parse_piece acc (encode_pair k v) = (values_Add k v acc.1, acc.2).
Proof.
  unfold parse_piece. rewrite bool_decide_eq_false_2.
  - unfold encode_pair. change ("=" +:+ QueryEscape v) with (String "=" (QueryEscape v)).
    rewrite cut_app by (by apply QueryEscape_lacks; set_solver).
    rewrite QueryUnescape_Escape. simpl. by rewrite QueryUnescape_Escape.
  - unfold encode_pair. by destruct (QueryEscape k).
Qed.

Lemma values_Add_all (k : string) (vs : list string) (m : Values) :
  vs ≠ [] → foldl (λ m v, values_Add k v m) m vs = <[k := default [] (m !! k) ++ vs]> m.
Proof.
  revert m. induction vs as [|v vs IH]; intros m; [done|]. intros _. simpl.
  destruct vs as [|v' vs]; [done|]. rewrite IH by done. unfold values_Add.
  rewrite lookup_insert_eq, insert_insert_eq. simpl. by rewrite <-(assoc_L (++)).
Qed.

Lemma parse_all (m acc : Values) (e : bool) (ks : list string) :
  NoDup ks → (∀ k, k ∈ ks → acc !! k = None ∧ default [] (m !! k) ≠ []) →
  foldl parse_piece (acc, e) (k ← ks; encode_pair k <$> default [] (m !! k)) =
    (list_to_map ((λ k, (k, default [] (m !! k))) <$> ks) ∪ acc, e).
Proof.
  revert acc. induction ks as [|k ks IH]; intros acc Hnd Hks; simpl.
  { by rewrite (left_id_L ∅ (∪)). }
  apply NoDup_cons in Hnd as [Hk Hnd]. destruct (Hks k) as [Hacc Hvs]; [set_solver|].
  rewrite foldl_app.
  assert (∀ vs acc, foldl parse_piece (acc, e) (encode_pair k <$> vs) = (foldl (λ m v, values_Add k v m) acc vs, e)) as Hone.
  { intros vs. induction vs as [|v vs IHv]; intros a; [done|]. cbn [fmap list_fmap foldl].
    rewrite parse_encoded_pair. apply IHv. }
  rewrite Hone, values_Add_all, Hacc by done. simpl. rewrite IH; [|done|].
  - f_equal. rewrite <-insert_union_l, insert_union_r; [done|].
    apply not_elem_of_list_to_map_1. rewrite <-list_fmap_compose. unfold compose. simpl. by rewrite list_fmap_id.
  - intros k' Hk'. rewrite lookup_insert_ne by (intros ->; done). apply Hks. set_solver.
Qed.

Lemma ParseQuery_pairs (l : list string) :
  Forall (λ s, lacks "&" s = true ∧ lacks ";" s = true) l →
  ParseQuery (join "&" l) = foldl parse_piece (∅, false) l.
Proof.
  intros Hl. unfold ParseQuery.
  assert (lacks ";" (join "&" l) = true) as Hlacks.
  { induction Hl as [|s l [_ Hs] Hl IH]; [done|]. destruct l as [|s' l]; [done|].
    change (join "&" (s :: s' :: l)) with (s +:+ "&" +:+ join "&" (s' :: l)).
    by rewrite !lacks_app, Hs, IH. }
  rewrite (replace_all_lacks ";" _ ";") by (done || byte_in). destruct l as [|s l]; [done|].
  rewrite split_on_join; [done|done|]. by eapply Forall_impl; [exact Hl|intros ? []].
Qed.

Lemma encode_pairs_lacks (m : Values) :
  Forall (λ s, lacks "&" s = true ∧ lacks ";" s = true ∧ lacks "?" s = true) (encode_pairs m).
Proof.
  apply Forall_forall. intros s Hs. apply list_elem_of_bind in Hs as (k&Hs&_).
  apply list_elem_of_fmap in Hs as (v&->&_). split_and!; apply encode_pair_lacks; set_solver.
Qed.

Definition valued (m : Values) : Prop := map_Forall (λ _ vs, vs ≠ []) m.

(** The values that are encoded in a query are the values that are parsed from
    it, keys and values being any strings. *)
Lemma ParseQuery_Encode (m : Values) : valued m → ParseQuery (Encode m) = (m, false).
Proof.
  intros Hm. unfold Encode. rewrite ParseQuery_pairs.
  2: { eapply Forall_impl; [apply encode_pairs_lacks|]. naive_solver. }
  set (ks := sort_strings (map_to_list m).*1).
  assert (ks ≡ₚ (map_to_list m).*1) as Hks by apply sort_strings_perm.
  assert (∀ k, k ∈ ks ↔ is_Some (m !! k)) as Hin.
  { intros k. rewrite Hks, list_elem_of_fmap. split.
    - intros ([k' vs]&->&Hk%elem_of_map_to_list). by exists vs.
    - intros [vs Hk]. exists (k, vs). split; [done|]. by apply elem_of_map_to_list. }
  unfold encode_pairs. fold ks. rewrite parse_all.
  - f_equal. rewrite (right_id_L ∅ (∪)). apply map_eq. intros k. destruct (m !! k) as [vs|] eqn:Hk.
    + apply elem_of_list_to_map.
      * rewrite <-list_fmap_compose. unfold compose. simpl. rewrite list_fmap_id, Hks.
        apply NoDup_fst_map_to_list.
      * apply list_elem_of_fmap. exists k. rewrite Hk. split; [done|]. by apply Hin.
    + apply not_elem_of_list_to_map. rewrite <-list_fmap_compose. unfold compose. simpl.
      rewrite list_fmap_id, Hin, Hk. by intros [].
  - rewrite Hks. apply NoDup_fst_map_to_list.
  - intros k [vs Hk]%Hin. rewrite lookup_empty, Hk. split; [done|]. by apply (Hm k).
Qed.
