(* ===== verification/PutBack.v ===== *)
(** * JSON trees, and changes put back into them (util/restful/putbackjson.go)

    A client that knows only some fields of what it received serialises what it
    received and what it changed, and puts the difference back into the original.
    The trees are those [encoding/json] decodes into an [interface{}]; maps are
    mutated in place in the code and rebuilt here. *)

From S2P Require Import Prelude GoStrings GoFloat.
From Stdlib Require Import SpecFloat.
#[local] Open Scope string_scope.
#[local] Open Scope Z_scope.
#[local] Open Scope list_scope.

(** ** JSON trees *)

Inductive json : Type :=
| JNull
| JBool (b : bool)
| JNumber (x : float64)
| JString (s : string)
| JArray (l : list json)
| JObject (m : gmap string json).

Fixpoint json_size (j : json) : nat :=
  match j with
  | JArray l => S (foldr (λ x n, json_size x + n)%nat 0%nat l)
  | JObject m => S (map_fold (λ _ x n, json_size x + n)%nat 0%nat m)
  | _ => 1%nat
  end.

(** ** Operations *)

(** Two values of different types are not equal.  The second loop over objects
    compares the pairs that the first one compared, if the keys are there. *)
Fixpoint same (left right : json) : bool :=
  match left, right with
  | JNull, JNull => true
  | JBool a, JBool b => bool_decide (a = b)
  | JNumber a, JNumber b => SFeqb a b
  | JString a, JString b => bool_decide (a = b)
  | JArray l, JArray r =>
      (fix each l r :=
         match l, r with
         | [], [] => true
         | x :: l, y :: r => same x y && each l r
         | _, _ => false
         end) l r
  | JObject l, JObject r =>
      map_fold (λ k v acc, acc && match r !! k with Some rv => same v rv | None => false end) true l
      && bool_decide (dom r ⊆ dom l)
  | _, _ => false
  end.

(** [target[k] = x], unless there is nothing to set. *)
Definition set_field (k : string) (x : option json) (target : gmap string json) : gmap string json :=
  match x with Some x => <[k := x]> target | None => target end.

(** The loop that deletes what is left of [base]. *)
Definition delete_rest (base changed target : gmap string json) : gmap string json :=
  filter (λ kv, kv.1 ∉ dom base ∖ dom changed) target.

(** What is at a key of [target] once [v] was put there, given what is in
    [base]; [None] is a panic, of a cast. *)
Fixpoint put_field (v : json) (b t : option json) : option (option json) :=
  match v with
  | JObject m =>
      match b with
      | None | Some JNull => Some (Some v)
      | Some (JObject bm) =>
          tsub ← match t with None | Some JNull => Some ∅ | Some (JObject tm) => Some tm | _ => None end;
          newMap ← map_fold (λ k v acc, target ← acc; x ← put_field v (bm !! k) (target !! k); Some (set_field k x target))
                     (Some tsub) m;
          Some (Some (JObject (delete_rest bm m newMap)))
      | Some _ => None
      end
  | _ =>
      match b with
      | None => Some (Some v)
      | Some b => Some (if same b v then t else Some v)
      end
  end.

(** [target] is not nil. *)
Definition applyChanges (base changed target : gmap string json) : option (gmap string json) :=
  target ← map_fold (λ k v acc, target ← acc; x ← put_field v (base !! k) (target !! k); Some (set_field k x target))
    (Some target) changed;
  Some (delete_rest base changed target).

(** What [mapDecode] makes of a document: [None] is an error, a null leaves the
    map nil. *)
Definition mapDecode (doc : option json) : option (gomap json) :=
  match doc with
  | Some (JObject m) => Some (Some m)
  | Some JNull => Some None
  | _ => None
  end.

(** A document that was not parsed is [None]; of the results, [None] is a panic
    and [Some None] an error. *)
Definition putbackJSON (original base changed : option json) : option (option json) :=
  match mapDecode original, mapDecode base, mapDecode changed with
  | Some (Some original), Some base, Some changed =>
      r ← applyChanges (entries base) (entries changed) original; Some (Some (JObject r))
  | Some None, Some _, Some _ => None
  | _, _, _ => Some None
  end.

(** ** Folds over the fields of an object *)

(** The conjunction of a check of each field. *)
Definition all_fields (f : string → json → bool) (m : gmap string json) : bool :=
  map_fold (λ k v acc, acc && f k v) true m.

Lemma all_fields_spec (f : string → json → bool) (m : gmap string json) :
  all_fields f m = true ↔ map_Forall (λ k v, f k v = true) m.
Proof.
  unfold all_fields. apply (map_fold_weak_ind (λ acc m, acc = true ↔ map_Forall (λ k v, f k v = true) m)).
  - split; [intros _; apply map_Forall_empty|done].
  - intros k v m' acc Hk IH. rewrite map_Forall_insert by done. rewrite andb_true_iff, IH. tauto.
Qed.

Lemma json_size_field (m : gmap string json) k v :
  m !! k = Some v → (json_size v < json_size (JObject m))%nat.
Proof.
  intros Hk. cbn [json_size]. rewrite map_fold_delete_L with (i := k) (x := v); [lia| |done].
  intros. lia.
Qed.

Lemma json_size_item (l : list json) v : v ∈ l → (json_size v < json_size (JArray l))%nat.
Proof. cbn [json_size]. induction l as [|x l IH]; [set_solver|]. simpl. set_unfold. intros [->|Hv]; [lia|]. apply IH in Hv. lia. Qed.

(** Induction on trees. *)
Lemma json_nested_ind (P : json → Prop) :
  P JNull → (∀ b, P (JBool b)) → (∀ x, P (JNumber x)) → (∀ s, P (JString s)) →
  (∀ l, Forall P l → P (JArray l)) → (∀ m, map_Forall (λ _, P) m → P (JObject m)) →
  ∀ j, P j.
Proof.
  intros Hn Hb Hx Hs Hl Hm j. induction (Nat.lt_wf_0_projected json_size j) as [j _ IH].
  destruct j as [|b|x|s|l|m]; [done|apply Hb|apply Hx|apply Hs|apply Hl|apply Hm].
  - apply Forall_forall. intros v Hv. by apply IH, json_size_item.
  - intros k v Hk. by apply IH, (json_size_field m k).
Qed.

(** *** Equality *)

Lemma same_object (l r : gmap string json) :
  same (JObject l) (JObject r) = true ↔
  dom l = dom r ∧ ∀ k a b, l !! k = Some a → r !! k = Some b → same a b = true.
Proof.
  change (same (JObject l) (JObject r)) with
    (all_fields (λ k v, match r !! k with Some rv => same v rv | None => false end) l && bool_decide (dom r ⊆ dom l)).
  rewrite andb_true_iff, all_fields_spec, bool_decide_eq_true. split.
  - intros [Hl Hd]. split.
    + apply set_eq. intros k. split; [|apply Hd]. rewrite !elem_of_dom. intros [v Hv].
      specialize (Hl k v Hv). simpl in Hl. destruct (r !! k); [by eexists|done].
    + intros k a b Ha Hb. specialize (Hl k a Ha). simpl in Hl. by rewrite Hb in Hl.
  - intros [Hd Hs]. split; [|by rewrite Hd]. intros k v Hv.
    assert (k ∈ dom r) as Hk by (rewrite <-Hd; apply elem_of_dom; by eexists).
    apply elem_of_dom in Hk as [rv Hrv]. rewrite Hrv. by apply (Hs k).
Qed.

(** Numbers in documents are not NaN. *)
Fixpoint no_nan (j : json) : bool :=
  match j with
  | JNumber x => SFeqb x x
  | JArray l => forallb no_nan l
  | JObject m => map_fold (λ k v acc, acc && no_nan v) true m
  | _ => true
  end.

Lemma no_nan_object (m : gmap string json) :
  no_nan (JObject m) = true ↔ map_Forall (λ _ v, no_nan v = true) m.
Proof. apply (all_fields_spec (λ _ v, no_nan v)). Qed.

Lemma same_refl (j : json) : no_nan j = true → same j j = true.
Proof.
  induction j as [|b|x|s|l IH|m IH] using json_nested_ind; intros Hj; [done|by destruct b|done|..].
  - simpl. by rewrite bool_decide_eq_true_2.
  - induction IH as [|v l Hv _ IHl]; [done|]. cbn [no_nan forallb] in Hj.
    apply andb_true_iff in Hj as [Hnv Hnl]. cbn [same]. rewrite Hv by done. simpl. by apply IHl.
  - apply same_object. split; [done|]. intros k a b Ha Hb. simplify_eq.
    apply (IH k a Ha). by apply (proj1 (no_nan_object m) Hj k a).
Qed.

(** *** The loop over what changed *)

Definition put_fields (f : string → json → option json → option (option json))
    (changed target : gmap string json) : option (gmap string json) :=
  map_fold (λ k v acc, target ← acc; x ← f k v (target !! k); Some (set_field k x target)) (Some target) changed.

Lemma put_fields_spec f changed target r :
  (∀ k v t, f k v t = Some None → t = None) →
  put_fields f changed target = Some r ↔
  ∀ k, match changed !! k with
       | Some v => f k v (target !! k) = Some (r !! k)
       | None => r !! k = target !! k
       end.
Proof.
  intros Hf. unfold put_fields. revert r.
  apply (map_fold_weak_ind (λ acc m, ∀ r, acc = Some r ↔
    ∀ k, match m !! k with Some v => f k v (target !! k) = Some (r !! k) | None => r !! k = target !! k end)).
  { intros r. split; [intros [= <-] k; by rewrite lookup_empty|].
    intros Hr. f_equal. apply map_eq. intros k. specialize (Hr k). by rewrite lookup_empty in Hr. }
  intros i v m acc Hi IH r. split.
  - intros Hb. apply bind_Some in Hb as (t&Hacc&Hb). apply bind_Some in Hb as (x&Hx&[= <-]).
    pose proof (proj1 (IH t) Hacc) as Ht. pose proof (Ht i) as Hti. rewrite Hi in Hti. rewrite Hti in Hx.
    intros k. destruct (decide (k = i)) as [->|Hne].
    + rewrite lookup_insert_eq, Hx. f_equal. destruct x as [x|]; simpl; [by rewrite lookup_insert_eq|].
      rewrite Hti. by rewrite (Hf i v _ Hx).
    + specialize (Ht k). rewrite lookup_insert_ne by done.
      assert (set_field i x t !! k = t !! k) as -> by (destruct x; simpl; by rewrite ?lookup_insert_ne).
      done.
  - intros Hr. pose proof (Hr i) as Hri. rewrite lookup_insert_eq in Hri.
    set (t := partial_alter (λ _, target !! i) i r).
    assert (acc = Some t) as ->.
    { apply IH. intros k. unfold t. destruct (decide (k = i)) as [->|Hne].
      - by rewrite Hi, lookup_partial_alter_eq.
      - rewrite lookup_partial_alter_ne by done. specialize (Hr k). by rewrite lookup_insert_ne in Hr. }
    assert (t !! i = target !! i) as Hti by (unfold t; by rewrite lookup_partial_alter_eq).
    cbn [mbind option_bind]. rewrite Hti, Hri. cbn [mbind option_bind]. f_equal.
    apply map_eq. intros k. unfold t. destruct (decide (k = i)) as [->|Hne].
    + destruct (r !! i) as [x|] eqn:Hx; simpl; [by rewrite lookup_insert_eq|].
      rewrite lookup_partial_alter_eq. by apply (Hf i v).
    + destruct (r !! i) as [x|]; simpl; rewrite ?lookup_insert_ne by done; by rewrite lookup_partial_alter_ne.
Qed.

Lemma put_field_none v b t : put_field v b t = Some None → t = None.
Proof.
  destruct v as [| | | | |m]; simpl; try (destruct b as [b|]; [|done]; by (case_match; intros [= ->])).
  destruct b as [[| | | | |bm]|]; try done. intros Hb. apply bind_Some in Hb as (?&_&Hb).
  by apply bind_Some in Hb as (?&_&?).
Qed.

Lemma delete_rest_lookup base changed target k :
  delete_rest base changed target !! k =
    match changed !! k, base !! k with None, Some _ => None | _, _ => target !! k end.
Proof.
  unfold delete_rest. destruct (decide (k ∈ dom base ∖ dom changed)) as [Hk|Hk].
  - rewrite map_lookup_filter_None_2 by (right; intros x _; simpl; by intros []).
    apply elem_of_difference in Hk as [[b ->]%elem_of_dom ->%not_elem_of_dom]. done.
  - rewrite map_lookup_filter. transitivity (target !! k).
    { destruct (target !! k) as [x|]; [|done]. simpl. by rewrite option_guard_True. }
    destruct (changed !! k) eqn:Hc; [done|]. destruct (base !! k) eqn:Hb; [|done].
    exfalso. apply Hk, elem_of_difference. split; [by apply elem_of_dom|by apply not_elem_of_dom].
Qed.

Lemma put_field_object m bm tm :
  put_field (JObject m) (Some (JObject bm)) (Some (JObject tm)) =
    (r ← applyChanges bm m tm; Some (Some (JObject r))).
Proof.
  unfold applyChanges. cbn [put_field mbind option_bind]. by destruct (map_fold _ _ _).
Qed.

Lemma applyChanges_fields base changed target r :
  applyChanges base changed target = Some r ↔
  ∃ t, r = delete_rest base changed t ∧
    ∀ k, match changed !! k with
         | Some v => put_field v (base !! k) (target !! k) = Some (t !! k)
         | None => t !! k = target !! k
         end.
Proof.
  unfold applyChanges.
  change (map_fold _ (Some target) changed) with (put_fields (λ k v t, put_field v (base !! k) t) changed target).
  pose proof (λ t, put_fields_spec (λ k v t, put_field v (base !! k) t) changed target t
    (λ k v t, put_field_none v (base !! k) t)) as Hspec.
  split.
  - intros Hb. apply bind_Some in Hb as (t&Ht&[= <-]). exists t. split; [done|]. by apply Hspec.
  - intros (t&->&Ht). apply Hspec in Ht. by rewrite Ht.
Qed.

(** Where changed fields are objects, what they were is an object too, a null or
    nothing; [covered v t]: [t] has an object wherever [v] has one. *)
Fixpoint compatible (v b : json) : bool :=
  match v with
  | JObject m =>
      match b with
      | JNull => true
      | JObject bm =>
          map_fold (λ k x acc, acc && match bm !! k with Some y => compatible x y | None => true end) true m
      | _ => false
      end
  | _ => true
  end.

Fixpoint covered (v t : json) : bool :=
  match v with
  | JObject m =>
      match t with
      | JObject tm =>
          map_fold (λ k x acc, acc && match tm !! k with
                                      | Some y => covered x y
                                      | None => match x with JObject _ => false | _ => true end
                                      end) true m
      | _ => false
      end
  | _ => true
  end.

(** The three-way merge: a field that is in neither version of the client is
    left as the server sent it, one that the client deleted is deleted, and one
    that the client has is put by itself; it fails only where a field cannot be. *)
Lemma applyChanges_spec (base changed target r : gmap string json) :
  applyChanges base changed target = Some r ↔
  ∀ k, match changed !! k, base !! k with
       | None, None => r !! k = target !! k
       | None, Some _ => r !! k = None
       | Some v, b => put_field v b (target !! k) = Some (r !! k)
       end.
Proof.
  rewrite applyChanges_fields. split.
  - intros (t&->&Ht) k. specialize (Ht k). rewrite delete_rest_lookup.
    destruct (changed !! k); [done|]. by destruct (base !! k).
  - intros Hr. set (t := filter (λ kv, kv.1 ∈ dom base ∖ dom changed) target ∪ r).
    assert (∀ k, t !! k = match changed !! k, base !! k with None, Some _ => target !! k | _, _ => r !! k end) as Ht.
    { intros k. unfold t. specialize (Hr k).
      destruct (decide (k ∈ dom base ∖ dom changed)) as [Hk|Hk].
      - pose proof Hk as [[b Hb]%elem_of_dom Hc%not_elem_of_dom]%elem_of_difference. rewrite Hb, Hc in *.
        rewrite lookup_union, map_lookup_filter, Hr.
        destruct (target !! k) as [x|]; simpl; [by rewrite option_guard_True|done].
      - rewrite lookup_union_r by (apply map_lookup_filter_None_2; right; by intros x _).
        destruct (changed !! k) eqn:Hc; [done|]. destruct (base !! k) eqn:Hb; [|done].
        exfalso. apply Hk, elem_of_difference. split; [by apply elem_of_dom|by apply not_elem_of_dom]. }
    exists t. split.
    + apply map_eq. intros k. rewrite delete_rest_lookup, Ht. specialize (Hr k).
      destruct (changed !! k), (base !! k); done.
    + intros k. specialize (Hr k). rewrite Ht. destruct (changed !! k); [done|]. by destruct (base !! k).
Qed.

(** ** Properties *)

(** A value put over what it was made of is there after. *)
Lemma put_field_own v b :
  no_nan v = true → compatible v b = true →
  ∃ r, put_field v (Some b) (Some b) = Some (Some r) ∧ same r v = true.
Proof.
  revert b. induction v as [|bo|x|s|l IH|m IH] using json_nested_ind; intros b Hn Hc;
    try (cbn [put_field]; match goal with |- context [same b ?v] => destruct (same b v) eqn:Hs end;
         [by exists b|eexists; split; [done|by apply same_refl]]).
  destruct b as [| | | | |bm]; try done.
  { cbn [put_field]. eexists. split; [done|by apply same_refl]. }
  rewrite put_field_object.
  change (all_fields (λ k x, match bm !! k with Some y => compatible x y | None => true end) m = true) in Hc.
  rewrite all_fields_spec in Hc. rewrite no_nan_object in Hn.
  assert (∀ k v, m !! k = Some v → ∃ r, put_field v (bm !! k) (bm !! k) = Some (Some r) ∧ same r v = true) as Hk.
  { intros k v Hk. specialize (Hc k v Hk). simpl in Hc. specialize (Hn k v Hk). simpl in Hn.
    destruct (bm !! k) as [b|]; [by apply (IH k v Hk)|]. exists v. split; [by destruct v|by apply same_refl]. }
  set (r := map_imap (λ k v, default None (put_field v (bm !! k) (bm !! k))) m).
  assert (∀ k, r !! k = m !! k ≫= λ v, default None (put_field v (bm !! k) (bm !! k))) as Hr
    by (intros k; apply map_lookup_imap).
  exists (JObject r). split.
  - rewrite (proj2 (applyChanges_spec bm m bm r)); [done|]. intros k. rewrite Hr.
    destruct (m !! k) as [v|] eqn:Hmk; simpl; [|by destruct (bm !! k)].
    destruct (Hk k v Hmk) as (x&->&_). done.
  - apply same_object. split.
    + apply set_eq. intros k. rewrite !elem_of_dom, Hr. destruct (m !! k) as [v|] eqn:Hmk; simpl; [|done].
      destruct (Hk k v Hmk) as (x&->&_). simpl. split; by eexists.
    + intros k a v Ha Hv. destruct (Hk k v Hv) as (x&Hx&Hs). rewrite Hr, Hv in Ha. simpl in Ha.
      rewrite Hx in Ha. simpl in Ha. by simplify_eq.
Qed.

(** C12.  Put back into what the client itself received, the changes give what the
    client has now (numbers compared as numbers): nothing changed is lost, and
    nothing deleted stays. *)
Theorem applyChanges_own (base changed : gmap string json) :
  no_nan (JObject changed) = true → compatible (JObject changed) (JObject base) = true →
  ∃ r, applyChanges base changed base = Some r ∧ same (JObject r) (JObject changed) = true.
Proof.
  intros Hn Hc. destruct (put_field_own _ _ Hn Hc) as (r&Hr&Hs). rewrite put_field_object in Hr.
  apply bind_Some in Hr as (m&Hm&[= <-]). by exists m.
Qed.

Lemma applyChanges_own_witness :
  let base : gmap string json := <["a" := JString "x"]> {["b" := JObject {["c" := JNull]}]} in
  let changed : gmap string json := {["b" := JObject {["c" := JBool true]}]} in
  ∃ r, applyChanges base changed base = Some r ∧ same (JObject r) (JObject changed) = true.
Proof. intros base changed. by apply applyChanges_own. Defined.

(** A client that changed nothing puts back what it received: fields it does
    not know, at any depth, and values newer than its own are kept. *)
Theorem applyChanges_unchanged (base target : gmap string json) :
  no_nan (JObject base) = true → covered (JObject base) (JObject target) = true →
  applyChanges base base target = Some target.
Proof.
  enough (∀ v t, no_nan v = true → covered v t = true → put_field v (Some v) (Some t) = Some (Some t)) as Hput.
  { intros Hn Hc. specialize (Hput _ _ Hn Hc). rewrite put_field_object in Hput.
    apply bind_Some in Hput as (m&->&[= ->]). done. }
  intros v. induction v as [|bo|x|s|l IH|m IH] using json_nested_ind; intros t Hn Hc;
    try (cbn [put_field]; by rewrite same_refl).
  destruct t as [| | | | |tm]; try done. rewrite put_field_object.
  change (all_fields (λ k x, match tm !! k with
    | Some y => covered x y | None => match x with JObject _ => false | _ => true end end) m = true) in Hc.
  rewrite all_fields_spec in Hc. rewrite no_nan_object in Hn.
  rewrite (proj2 (applyChanges_spec m m tm tm)); [done|]. intros k.
  destruct (m !! k) as [v|] eqn:Hmk; [|done]. specialize (Hc k v Hmk). simpl in Hc.
  specialize (Hn k v Hmk). simpl in Hn. destruct (tm !! k) as [y|]; [by apply (IH k v Hmk)|].
  destruct v; try done; cbn [put_field]; by rewrite same_refl.
Qed.

Lemma applyChanges_unchanged_witness :
  let base : gmap string json := {["b" := JObject {["c" := JNull]}]} in
  let target : gmap string json := <["new" := JArray []]> {["b" := JObject (<["d" := JBool true]> {["c" := JString "y"]})]} in
  applyChanges base base target = Some target.
Proof. intros base target. by apply applyChanges_unchanged. Defined.
