(* ===== verification/Restful.v ===== *)
(** * The REST library (util/restful/queryvalues.go, routemap.go, canaryattr.go,
    router.go, client.go)

    What a server does around the exchange of a resource: the conditions on a PUT,
    the ETag and the canary of a response; and the client that reads a resource
    and puts changes back into it.  Bodies are JSON trees, or text that is none;
    a world [W] is what exchanges read and write.  How a tree is digested to an
    ETag is a parameter. *)

From S2P Require Import Prelude GoStrings Flaw GoQuote GoUrl PutBack.
#[local] Open Scope string_scope.
#[local] Open Scope Z_scope.
#[local] Open Scope list_scope.

(** ** Query values (queryvalues.go) *)

Inductive query_error : Type :=
| NotGiven (field : string)
| MultiplesGiven (field : string).

(** [ParseQuery] of a [QueryParser]: nothing, if anything is malformed. *)
Definition QueryParser_ParseQuery (rawQuery : string) : Values :=
  let '(v, err) := ParseQuery rawQuery in if err then ∅ else v.

(** [None]: a field without values, which a parsed query does not have. *)
Definition Single (qv : Values) (field : string) (def : option string) : option (result query_error string) :=
  match qv !! field with
  | None => Some (match def with None => Err (NotGiven field) | Some d => Ok d end)
  | Some [] => None
  | Some [v] => Some (Ok v)
  | Some _ => Some (Err (MultiplesGiven field))
  end.

(** Continue with a result, unless there was a panic or an error. *)
Definition andthen {E A B} (m : option (result E A)) (f : A → option (result E B)) : option (result E B) :=
  r ← m; match r with Ok a => f a | Err e => Some (Err e) end.

(** ** Routes (routemap.go) *)

Record routeEntry := mkRouteEntry { re_Name : string; re_Path : string }.
Abbreviation RouteMap := (list routeEntry).

Definition byName (name : string) (rm : RouteMap) : option routeEntry :=
  head (filter (λ e, re_Name e = name) rm).

Inductive route_error : Type :=
| NoRouteNamed (name : string)
| NoPathParam (part : string).

(** Fill in the parts that start with a colon; [None] is the panic on an empty
    part. *)
Fixpoint fill_parts (pathParams : gmap string string) (parts : list string) :
    option (result route_error (list string)) :=
  match parts with
  | [] => Some (Ok [])
  | "" :: _ => None
  | String c part :: parts =>
      if bool_decide (c = ":"%char) then
        match pathParams !! part with
        | None => Some (Err (NoPathParam part))
        | Some value => andthen (fill_parts pathParams parts) (λ ps, Some (Ok (PathEscape value :: ps)))
        end
      else andthen (fill_parts pathParams parts) (λ ps, Some (Ok (String c part :: ps)))
  end.

(** The path of a route is one that a URL parser leaves as it is. *)
Definition URIFor (rm : RouteMap) (name : string) (pathParams : gmap string string)
    (kvs : list (string * string)) : option (result route_error string) :=
  match byName name rm with
  | None => Some (Err (NoRouteNamed name))
  | Some r =>
      let params := foldl (λ m kv, values_Add kv.1 kv.2 m) ∅ kvs in
      let query := if bool_decide (params = ∅) then "" else "?" +:+ Encode params in
      if bool_decide (re_Path r = "/") then Some (Ok (re_Path r +:+ query))
      else andthen (fill_parts pathParams (tail (split_on "/" (re_Path r))))
             (λ parts, Some (Ok ("/" +:+ join "/" parts +:+ query)))
  end.

Definition FullURIFor (rm : RouteMap) (hostName name : string) (pathParams : gmap string string)
    (kvs : list (string * string)) : option (result route_error string) :=
  andthen (URIFor rm name pathParams kvs) (λ uri, Some (Ok (hostName +:+ uri))).

(** ** Canaries in JSON text (canaryattr.go) *)

Definition canarySuffix : string :=
  double_quote +:+ ": " +:+ double_quote +:+ "canary" +:+ double_quote +:+ ",".

Definition calcContentLength (buf etag : string) : Z :=
  Z.of_nat (String.length buf) + Z.of_nat (String.length etag) + Z.of_nat (String.length canarySuffix) + 1.

(** [None]: there is no brace, which is a panic. *)
Definition InjectCanaryAttr (json attrName : string) : option string :=
  match cut "{" json with
  | (_, None) => None
  | (_, Some rest) => Some ("{" +:+ double_quote +:+ attrName +:+ canarySuffix +:+ rest)
  end.

(** ** Requests and responses *)

(** [rq_path] is relative to the server; [rq_body] is [None] when it is no JSON. *)
Record request := mkRequest {
  rq_method : string;
  rq_path : string;
  rq_RawQuery : string;
  rq_Host : string;
  rq_Header : Values;
  rq_body : option json
}.

(** A body of JSON, text, or one cut off while it was written. *)
Inductive response_body : Type :=
| BodyJSON (j : json)
| BodyText
| BodyBroken.

Record response := mkResponse {
  rz_code : Z;
  rz_Header : Values;
  rz_body : response_body
}.

(** What an exchange returns: [x_data] is the JSON of the data, [None] for nil or
    for the data of a status that is not rendered; [x_headers] are the headers
    that were added. *)
Record exchanged := mkExchanged {
  x_data : option json;
  x_status : Z;
  x_headers : list (string * string)
}.

Definition headers_of (l : list (string * string)) : Values :=
  foldl (λ m kv, values_Add kv.1 kv.2 m) ∅ l.

(** ** Handling (router.go) *)

Section Server.
Context {W : Type} (digest : json → string).

(** An exchange; [None] is a panic. *)
Definition Exchange : Type := request → W → W * option exchanged.

Record Resource := mkResource {
  Getable : option Exchange;
  Putable : option Exchange;
  Deleteable : option Exchange
}.

Definition canary (etag : string) (m : gmap string json) : json :=
  JObject (m ∪ {[etag := JString "canary"]}).

(** [HandlePanic]. *)
Definition panicked : response := mkResponse 500 ∅ BodyText.

Definition status_only (status : Z) (h : Values) : response := mkResponse status h BodyText.

(** The body of anything but an object with fields is broken by the canary, once
    the header is sent. *)
Definition renderData (status : Z) (h : Values) (data : option json) : response :=
  match data with
  | None => status_only status h
  | Some j =>
      if 300 <=? status then status_only status h
      else
        let etag := match h !! "Etag" with None => digest j | Some _ => values_Get "Etag" h end in
        let h := match h !! "Etag" with None => values_Add "Etag" etag h | Some _ => h end in
        let h := match h !! "Content-Type" with None => values_Add "Content-Type" "application/json" h | Some _ => h end in
        match j with
        | JObject m => mkResponse status h (if decide (m = ∅) then BodyBroken else BodyJSON (canary etag m))
        | _ => mkResponse status h BodyBroken
        end
  end.

Definition GetHandling (get : Exchange) (r : request) (w : W) : W * response :=
  let '(w, x) := get r w in
  match x with
  | None => (w, panicked)
  | Some x =>
      (w, renderData (x_status x) (values_Add "Access-Control-Allow-Origin" "*" (headers_of (x_headers x))) (x_data x))
  end.

Definition HeadHandling (get : Exchange) (r : request) (w : W) : W * response :=
  let '(w, x) := get r w in
  match x with
  | None => (w, panicked)
  | Some x => (w, status_only (x_status x) (headers_of (x_headers x)))
  end.

Definition DeleteHandling (del : Exchange) (r : request) (w : W) : W * response :=
  let '(w, x) := del r w in
  match x with
  | None => (w, panicked)
  | Some x => (w, status_only (x_status x) (headers_of (x_headers x)))
  end.

(** [copyRequest], with the method changed. *)
Definition get_of (r : request) : request :=
  mkRequest "GET" (rq_path r) (rq_RawQuery r) (rq_Host r) (rq_Header r) None.

(** [synthResponse]: the router has no handler for a GET of a resource that is
    not [Getable]. *)
Definition synthResponse (res : Resource) (r : request) (w : W) : W * response :=
  match Getable res with
  | Some get => GetHandling get r w
  | None => (w, status_only 405 ∅)
  end.

(** [None]: the body has the canary. *)
Definition validCanaryAttr (r : request) (etag : string) : option Z :=
  match rq_body r with
  | Some (JObject dump) =>
      match dump !! etag with
      | Some (JString c) => if bool_decide (c = "canary") then None else Some 400
      | _ => Some 400
      end
  | _ => Some 400
  end.

(** Whether the conditions of a PUT hold, given the response to a GET: [None], or
    the status that says which does not. *)
Definition precondition (r : request) (grez : response) : option Z :=
  if bool_decide (values_Get "If-None-Match" (rq_Header r) = "*")
     && negb (rz_code grez =? 404) && negb (rz_code grez =? 405)
  then Some 412
  else
    let etag := values_Get "If-Match" (rq_Header r) in
    if bool_decide (etag = "") then None
    else if bool_decide (values_Get "Etag" (rz_Header grez) = etag) then validCanaryAttr r etag
    else Some 412.

(** [PutHandling] as far as the Exchange: the response that ends it, if any. *)
Definition PutChecks (res : Resource) (r : request) (w : W) : W * option response :=
  if bool_decide (values_Get "If-Match" (rq_Header r) = "")
     && bool_decide (values_Get "If-None-Match" (rq_Header r) = "")
  then (w, Some (status_only 428 ∅))
  else
    let '(w, grez) := synthResponse res (get_of r) w in
    match precondition r grez with
    | Some status => (w, Some (status_only status ∅))
    | None => (w, None)
    end.

(** The Exchange and the rendering. *)
Definition PutExchange (put : Exchange) (r : request) (w : W) : W * response :=
  let '(w, x) := put r w in
  match x with
  | None => (w, panicked)
  | Some x => (w, renderData (x_status x) (headers_of (x_headers x)) (x_data x))
  end.

(** Requests are handled in goroutines of their own, and the router takes no lock:
    [between] is what the others do to the world after the checks and before the
    Exchange. *)
Definition PutHandling (between : W → W) (res : Resource) (put : Exchange) (r : request) (w : W) : W * response :=
  let '(w, refused) := PutChecks res r w in
  match refused with
  | Some rz => (w, rz)
  | None => PutExchange put r (between w)
  end.

(** [BuildRouter], for the requests of one resource; OPTIONS requests, which reach
    no exchange of Sous's, are left out. *)
Definition serve_during (between : W → W) (res : Resource) (r : request) (w : W) : W * response :=
  if bool_decide (rq_method r = "GET") then synthResponse res r w
  else if bool_decide (rq_method r = "HEAD") then
    match Getable res with Some get => HeadHandling get r w | None => (w, status_only 405 ∅) end
  else if bool_decide (rq_method r = "PUT") then
    match Putable res with Some put => PutHandling between res put r w | None => (w, status_only 405 ∅) end
  else if bool_decide (rq_method r = "DELETE") then
    match Deleteable res with Some del => DeleteHandling del r w | None => (w, status_only 405 ∅) end
  else (w, status_only 405 ∅).

(** A request that no other one interrupts. *)
Definition serve : Resource → request → W → W * response := serve_during id.
End Server.

(** ** The client (client.go) *)

Inductive client_error : Type :=
| Unreachable (t : text)
| BadStatus (code : Z)
| RetryableStatus (code : Z)
| BadOriginal
| BadBody (t : text).

(** [Retryable]. *)
Definition Retryable (e : client_error) : bool :=
  match e with RetryableStatus _ => true | _ => false end.

(** The bodies, as documents, are [None] when they are no JSON. *)
Record resourceState := mkResourceState {
  rs_path : string;
  rs_qparms : option (gmap string string);
  rs_etag : string;
  rs_headers : Values;
  rs_body : option json;
  rs_resourceJSON : option json
}.

Definition Location (rs : resourceState) : string := values_Get "Location" (rs_headers rs).

Definition response_json (rz : response) : option json :=
  match rz_body rz with BodyJSON j => Some j | _ => None end.

Definition addNoMatchStar (headers : gmap string string) : gmap string string :=
  match headers !! "If-None-Match" with None => <["If-None-Match" := "*"]> headers | Some _ => headers end.

Definition addIfMatch (headers : gmap string string) (etag : string) : gmap string string :=
  <["If-Match" := etag]> headers.

(** [buildURL]: the query; parameters are sent once each. *)
Definition raw_query (qParms : option (gmap string string)) : string :=
  match qParms with None => "" | Some q => Encode ((λ v, [v]) <$> q) end.

(** [updateHeaders], on a new request; the names are canonical. *)
Definition updateHeaders (common : Values) (headers : gmap string string) : Values :=
  ((λ v, [v]) <$> headers) ∪ common.

Section Client.
Context {W : Type}.
(** What comes back for a request that is sent. *)
Context (transport : request → W → W * result text response).
Context (commonHeaders : Values) (serverHost : string).

(** The body of a request; [None] is a panic. *)
Definition request_body (resource : option resourceState) (rqBody : option json) :
    option (result client_error (option json)) :=
  match rqBody with
  | None => Some (Ok None)
  | Some j =>
      match resource with
      | None => Some (Ok (Some j))
      | Some rs =>
          b ← putbackJSON (rs_body rs) (rs_resourceJSON rs) (Some j);
          Some (match b with Some b => Ok (Some b) | None => Err BadOriginal end)
      end
  end.

Definition buildRequest (method path : string) (qParms : option (gmap string string))
    (headers : gmap string string) (resource : option resourceState) (rqBody : option json) :
    option (result client_error request) :=
  andthen (request_body resource rqBody)
    (λ body, Some (Ok (mkRequest method path (raw_query qParms) serverHost (updateHeaders commonHeaders headers) body))).

(** [receive] unmarshals the body into the receiver and marshals that again;
    without a receiver it is null.  (When it fails the code returns a state beside
    the error, which no caller uses.) *)
Definition extractBody {A} (receive : option json → A * json * option text) (path : string)
    (qParms : option (gmap string string)) (rz : response) : A * result client_error resourceState :=
  let '(v, rzJSON, err) := receive (response_json rz) in
  (v, if (rz_code rz <? 200) || (300 <=? rz_code rz) then Err (BadStatus (rz_code rz))
      else if rz_code rz =? 409 then Err (RetryableStatus (rz_code rz))
      else match err with
           | Some t => Err (BadBody t)
           | None => Ok (mkResourceState path qParms (values_Get "Etag" (rz_Header rz)) (rz_Header rz)
                           (response_json rz) (Some rzJSON))
           end).

(** Send a request, if it was built, and extract the body of the response. *)
Definition exchange {A} (zero : A) (receive : option json → A * json * option text) (path : string)
    (qParms : option (gmap string string)) (rq : option (result client_error request)) (w : W) :
    W * option (A * result client_error resourceState) :=
  match rq with
  | None => (w, None)
  | Some (Err e) => (w, Some (zero, Err e))
  | Some (Ok rq) =>
      let '(w, rz) := transport rq w in
      match rz with
      | Err t => (w, Some (zero, Err (Unreachable t)))
      | Ok rz => (w, Some (extractBody receive path qParms rz))
      end
  end.

Definition no_receiver (j : option json) : () * json * option text := ((), JNull, None).

Definition Retrieve {A} (zero : A) (receive : option json → A * json * option text) (path : string)
    (qParms : option (gmap string string)) (headers : gmap string string) (w : W) :=
  exchange zero receive path qParms (buildRequest "GET" path qParms headers None None) w.

Definition Create (path : string) (qParms : option (gmap string string)) (qBody : json)
    (headers : gmap string string) (w : W) : W * option (() * result client_error resourceState) :=
  exchange () no_receiver path qParms (buildRequest "PUT" path qParms (addNoMatchStar headers) None (Some qBody)) w.

Definition Update (rs : resourceState) (qBody : json) (headers : gmap string string) (w : W) :
    W * option (() * result client_error resourceState) :=
  exchange () no_receiver (rs_path rs) (rs_qparms rs)
    (buildRequest "PUT" (rs_path rs) (rs_qparms rs) (addIfMatch headers (rs_etag rs)) (Some rs) (Some qBody)) w.

Definition Delete (rs : resourceState) (headers : gmap string string) (w : W) :
    W * option (() * result client_error resourceState) :=
  exchange () no_receiver (rs_path rs) (rs_qparms rs)
    (buildRequest "DELETE" (rs_path rs) (rs_qparms rs) (addIfMatch headers (rs_etag rs)) None None) w.
End Client.

(** ** Lemmas *)

Lemma headers_single (k v : string) (common : Values) (h : gmap string string) :
  values_Get k (updateHeaders common (<[k := v]> h)) = v.
Proof.
  unfold values_Get, updateHeaders. rewrite lookup_union, lookup_fmap, lookup_insert_eq. simpl.
  by destruct (common !! k).
Qed.

Lemma headers_absent (k k' v : string) (common : Values) (h : gmap string string) :
  k ≠ k' → h !! k = None → common !! k = None → values_Get k (updateHeaders common (<[k' := v]> h)) = "".
Proof.
  intros Hk Hh Hc. unfold values_Get, updateHeaders. rewrite lookup_union, lookup_fmap.
  by rewrite lookup_insert_ne, Hh, Hc.
Qed.

Lemma renderData_code (digest : json → string) (status : Z) (h : Values) (d : option json) :
  rz_code (renderData digest status h d) = status.
Proof. unfold renderData. destruct d as [j|]; [|done]. destruct (300 <=? status); [done|]. by destruct j. Qed.

(** The ETag of an object that is rendered, and the body that has it for a canary. *)
Definition rendered_etag (digest : json → string) (h : Values) (m : gmap string json) : string :=
  match h !! "Etag" with None => digest (JObject m) | Some _ => values_Get "Etag" h end.

Lemma renderData_object (digest : json → string) (status : Z) (h : Values) (m : gmap string json) :
  status < 300 → m ≠ ∅ →
  ∃ h', renderData digest status h (Some (JObject m)) =
      mkResponse status h' (BodyJSON (canary (rendered_etag digest h m) m)) ∧
    values_Get "Etag" h' = rendered_etag digest h m.
Proof.
  intros Hs Hm. unfold renderData. rewrite (proj2 (Z.leb_gt _ _)) by done. rewrite decide_False by done.
  fold (rendered_etag digest h m). eexists. split; [reflexivity|].
  set (h1 := match h !! "Etag" with None => _ | Some _ => _ end).
  assert (values_Get "Etag" h1 = rendered_etag digest h m) as Hh1.
  { unfold h1, rendered_etag at 2. destruct (h !! "Etag") eqn:He; [done|].
    unfold values_Get, values_Add. rewrite lookup_insert_eq, He. unfold rendered_etag. by rewrite He. }
  destruct (h1 !! "Content-Type"); [done|]. unfold values_Get, values_Add. by rewrite lookup_insert_ne.
Qed.

(** A response keeps the ETag that its data set. *)
Lemma renderData_etag (digest : json → string) (status : Z) (h : Values) (j : json) (e : string) :
  status < 300 → h !! "Etag" = Some [e] →
  ∃ h' b, renderData digest status h (Some j) = mkResponse status h' b ∧ values_Get "Etag" h' = e.
Proof.
  intros Hs Hh. unfold renderData. rewrite (proj2 (Z.leb_gt _ _)) by done. rewrite !Hh.
  set (h' := match h !! "Content-Type" with None => _ | Some _ => _ end).
  assert (values_Get "Etag" h' = e) as Hh'.
  { unfold h', values_Get. destruct (h !! "Content-Type"); [by rewrite Hh|].
    unfold values_Add. by rewrite lookup_insert_ne, Hh. }
  destruct j; eauto.
Qed.

(** ** Properties *)

(** The length announced for a response is the length of what is written, when
    the JSON starts with its object; it is too long by all that comes before the
    first brace, which is lost. *)
Theorem calcContentLength_spec (pre rest etag : string) :
  lacks "{" pre = true →
  ∃ out, InjectCanaryAttr (pre +:+ "{" +:+ rest) etag = Some out ∧
    calcContentLength (pre +:+ "{" +:+ rest) etag = Z.of_nat (String.length out + String.length pre).
Proof.
  intros Hpre. unfold InjectCanaryAttr. change ("{" +:+ rest) with (String "{" rest).
  rewrite cut_app by done. eexists. split; [done|]. unfold calcContentLength.
  change (String "{" rest) with ("{" +:+ rest). rewrite !str_length_app. simpl String.length. lia.
Qed.

Lemma calcContentLength_spec_witness :
  ∃ out, InjectCanaryAttr "{}" "e" = Some out ∧ calcContentLength "{}" "e" = Z.of_nat (String.length out + 0).
Proof. apply (calcContentLength_spec "" "}" "e"). reflexivity. Defined.

(** What an exchange with a server ends in, short of a panic. *)
Lemma exchange_not_retryable {W A} (transport : request → W → W * result text response) (zero v : A)
    (receive : option json → A * json * option text) (path : string)
    (q : option (gmap string string)) (rq : option (result client_error request)) (e : client_error) (w w' : W) :
  (∀ e', rq = Some (Err e') → Retryable e' = false) →
  exchange transport zero receive path q rq w = (w', Some (v, Err e)) → Retryable e = false.
Proof.
  intros Hrq Hx. unfold exchange in Hx. destruct rq as [[rq|e']|]; [|injection Hx as <- <- <-; by apply Hrq|done].
  destruct (transport rq w) as [w1 [rz|t]]; [|by injection Hx as <- <- <-].
  unfold extractBody in Hx. destruct (receive (response_json rz)) as [[v1 j] err].
  destruct ((rz_code rz <? 200) || (300 <=? rz_code rz)) eqn:Hcode; [by injection Hx as <- <- <-|].
  apply orb_false_iff in Hcode as [H200 H300]. apply Z.ltb_ge in H200. apply Z.leb_gt in H300.
  destruct (rz_code rz =? 409) eqn:H409; [apply Z.eqb_eq in H409; lia|].
  by destruct err; simplify_eq.
Qed.

Lemma buildRequest_not_retryable common host method path q headers resource rqBody e :
  buildRequest common host method path q headers resource rqBody = Some (Err e) → Retryable e = false.
Proof.
  unfold buildRequest, andthen, request_body. destruct rqBody as [j|]; [|done].
  destruct resource as [rs|]; [|done]. destruct (putbackJSON _ _ _) as [[b|]|]; simpl; [done| |done].
  by intros [= <-].
Qed.

(** No error of the client is retryable, a conflict neither: its status is one
    of those that are tested for before it. *)
Theorem Update_not_retryable {W} (transport : request → W → W * result text response) (common : Values)
    (host : string) (rs : resourceState) (qBody : json) (headers : gmap string string) (e : client_error) (w w' : W) :
  Update transport common host rs qBody headers w = (w', Some ((), Err e)) → Retryable e = false.
Proof. apply exchange_not_retryable. intros e'. apply buildRequest_not_retryable. Qed.

Lemma Update_not_retryable_witness :
  let rs := mkResourceState "./gdm" None "e" ∅ (Some (JObject ∅)) (Some (JObject ∅)) in
  ∃ e, Update (λ _ w, (w, Ok (mkResponse 409 ∅ BodyText))) ∅ "h" rs (JObject ∅) ∅ () = ((), Some ((), Err e)) ∧
    Retryable e = false.
Proof.
  intros rs. eexists. split; [vm_compute; reflexivity|].
  eapply (Update_not_retryable (λ _ w, (w, Ok (mkResponse 409 ∅ BodyText))) ∅ "h" rs (JObject ∅) ∅ _ () ()).
  vm_compute. reflexivity.
Defined.

(** *** A resource that is read, changed and written *)

Section Conditional.
Context {W : Type} (digest : json → string) (res : Resource (W := W)).
(** What a GET shows in the worlds that are [readable], and the ETag that the data
    sets itself, if any. *)
Context (readable : W → Prop) (view : W → gmap string json) (tag : W → option string).
Context (path : string) (q : option (gmap string string)).

(** A GET shows the view, and changes nothing. *)
Definition shows : Prop :=
  ∃ get, Getable res = Some get ∧
    ∀ r w, readable w → rq_path r = path → rq_RawQuery r = raw_query q →
      get r w = (w, Some (mkExchanged (Some (JObject (view w))) 200
                            match tag w with Some e => [("Etag", e)] | None => [] end)).

(** A client's server, whose other clients do [between] during a PUT; or that has
    none at the time. *)
Definition to_server_during (between : W → W) (rq : request) (w : W) : W * result text response :=
  let '(w, rz) := serve_during digest between res rq w in (w, Ok rz).

Definition to_server (rq : request) (w : W) : W * result text response :=
  let '(w, rz) := serve digest res rq w in (w, Ok rz).

Definition etag_of (w : W) : string := default (digest (JObject (view w))) (tag w).

Lemma synthResponse_view (r : request) (w : W) :
  shows → readable w → rq_path r = path → rq_RawQuery r = raw_query q → view w ≠ ∅ →
  ∃ h, synthResponse digest res r w = (w, mkResponse 200 h (BodyJSON (canary (etag_of w) (view w)))) ∧
    values_Get "Etag" h = etag_of w.
Proof.
  intros (get&Hres&Hget) Hok Hp Hq Hv. unfold synthResponse, GetHandling. rewrite Hres, Hget by done.
  cbn [x_data x_status x_headers].
  set (h0 := values_Add "Access-Control-Allow-Origin" "*" _).
  assert (h0 !! "Etag" = (λ e, [e]) <$> tag w) as He.
  { unfold h0, values_Add. destruct (tag w); cbn [headers_of foldl fst snd]; unfold values_Add; by simplify_map_eq. }
  destruct (renderData_object digest 200 h0 (view w)) as (h&->&Hh); [done|done|].
  assert (rendered_etag digest h0 (view w) = etag_of w) as Hr.
  { unfold rendered_etag, etag_of, values_Get. rewrite He. by destruct (tag w). }
  exists h. by rewrite Hh, Hr.
Qed.

(** The request of an update, and what a server makes of it. *)
Definition update_request (common : Values) (host : string) (headers : gmap string string) (etag : string)
    (body : gmap string json) : request :=
  mkRequest "PUT" path (raw_query q) host (updateHeaders common (addIfMatch headers etag)) (Some (JObject body)).

Definition put_response (x : option exchanged) : response :=
  match x with
  | None => panicked
  | Some x => renderData digest (x_status x) (headers_of (x_headers x)) (x_data x)
  end.

Lemma Update_sent_during {A} (put : Exchange (W := W)) (common : Values) (host : string) (zero v : A)
    (receive : option json → A * json * option text) (base changed r : gmap string json)
    (headers headers' : gmap string string) (w0 : W) :
  shows → Putable res = Some put → readable w0 → etag_of w0 ≠ "" → view w0 ≠ ∅ → view w0 !! etag_of w0 = None →
  receive (Some (canary (etag_of w0) (view w0))) = (v, JObject base, None) →
  base !! etag_of w0 = None → changed !! etag_of w0 = None →
  applyChanges base changed (view w0 ∪ {[etag_of w0 := JString "canary"]}) = Some r →
  headers' !! "If-None-Match" = None → common !! "If-None-Match" = None →
  ∃ rs, Retrieve to_server common host zero receive path q headers w0 = (w0, Some (v, Ok rs)) ∧
    ∀ between w1, readable w1 → view w1 ≠ ∅ →
      Update (to_server_during between) common host rs (JObject changed) headers' w1 =
        if decide (etag_of w1 = etag_of w0)
        then let '(w2, x) := put (update_request common host headers' (etag_of w0) r) (between w1) in
             (w2, Some (extractBody no_receiver path q (put_response x)))
        else (w1, Some ((), Err (BadStatus 412))).
Proof.
  intros Hshow Hput Hok Hne Hv Hfresh Hrec Hbase Hchg Happ Hhdr Hcom.
  set (etag := etag_of w0) in *.
  set (rq0 := mkRequest "GET" path (raw_query q) host (updateHeaders common headers) None).
  destruct (synthResponse_view rq0 w0 Hshow Hok eq_refl eq_refl Hv) as (h&Hget&Hetag). fold etag in Hget, Hetag.
  exists (mkResourceState path q etag h (Some (canary etag (view w0))) (Some (JObject base))). split.
  { unfold Retrieve, exchange. cbn [buildRequest request_body andthen mbind option_bind]. fold rq0.
    unfold to_server, serve, serve_during. rewrite bool_decide_eq_true_2 by done. rewrite Hget.
    unfold extractBody. cbn [response_json rz_body rz_code rz_Header]. rewrite Hrec. cbn.
    by rewrite Hetag. }
  intros between w1 Hok1 Hv1.
  assert (r !! etag = Some (JString "canary")) as Hcan.
  { pose proof (proj1 (applyChanges_spec _ _ _ _) Happ etag) as Hr. rewrite Hbase, Hchg in Hr. rewrite Hr.
    by rewrite lookup_union, Hfresh, lookup_singleton_eq. }
  set (rq1 := update_request common host headers' etag r).
  destruct (synthResponse_view (get_of rq1) w1 Hshow Hok1 eq_refl eq_refl Hv1) as (h1&Hget1&Hetag1).
  assert (∀ w, Update (to_server_during between) common host (mkResourceState path q etag h (Some (canary etag (view w0)))
      (Some (JObject base))) (JObject changed) headers' w =
    exchange (to_server_during between) () no_receiver path q (Some (Ok rq1)) w) as Hupd.
  { intros w. unfold Update. cbn [rs_path rs_qparms rs_etag]. unfold buildRequest, request_body.
    cbn [rs_body rs_resourceJSON]. unfold canary, putbackJSON. cbn [mapDecode].
    unfold entries. cbn [from_option id]. by rewrite Happ. }
  assert (values_Get "If-Match" (rq_Header rq1) = etag) as Him by apply headers_single.
  assert (values_Get "If-None-Match" (rq_Header rq1) = "") as Hinm by (by apply headers_absent).
  assert (∀ w2 rz, PutHandling digest between res put rq1 w1 = (w2, rz) →
    exchange (to_server_during between) () no_receiver path q (Some (Ok rq1)) w1 = (w2, Some (extractBody no_receiver path q rz))) as Hx.
  { intros w2 rz Hp. unfold exchange, to_server_during, serve_during. cbn [rq_method rq1 update_request].
    rewrite !bool_decide_eq_false_2, bool_decide_eq_true_2 by done. by rewrite Hput, Hp. }
  unfold PutHandling, PutChecks, PutExchange in Hx. rewrite Him, Hinm, Hget1 in Hx.
  rewrite (bool_decide_eq_false_2 (etag = "")) in Hx by done. cbn [andb] in Hx.
  unfold precondition in Hx. rewrite Him, Hinm in Hx. cbn [rz_Header rz_code] in Hx. rewrite Hetag1 in Hx.
  rewrite (bool_decide_eq_false_2 ("" = "*")), (bool_decide_eq_false_2 (etag = "")) in Hx by done. cbn [andb] in Hx.
  rewrite Hupd. case_decide as Hsame.
  - rewrite bool_decide_eq_true_2 in Hx by done. unfold validCanaryAttr in Hx.
    cbn [rq_body rq1 update_request] in Hx. rewrite Hcan in Hx.
    rewrite (bool_decide_eq_true_2 ("canary" = "canary")) in Hx by done.
    destruct (put rq1 (between w1)) as [w2 [x|]]; by rewrite (Hx _ _ eq_refl).
  - rewrite bool_decide_eq_false_2 in Hx by done. rewrite (Hx _ _ eq_refl). done.
Qed.

(** The same of a server that no other client uses meanwhile. *)
Lemma Update_sent {A} (put : Exchange (W := W)) (common : Values) (host : string) (zero v : A)
    (receive : option json → A * json * option text) (base changed r : gmap string json)
    (headers headers' : gmap string string) (w0 : W) :
  shows → Putable res = Some put → readable w0 → etag_of w0 ≠ "" → view w0 ≠ ∅ → view w0 !! etag_of w0 = None →
  receive (Some (canary (etag_of w0) (view w0))) = (v, JObject base, None) →
  base !! etag_of w0 = None → changed !! etag_of w0 = None →
  applyChanges base changed (view w0 ∪ {[etag_of w0 := JString "canary"]}) = Some r →
  headers' !! "If-None-Match" = None → common !! "If-None-Match" = None →
  ∃ rs, Retrieve to_server common host zero receive path q headers w0 = (w0, Some (v, Ok rs)) ∧
    ∀ w1, readable w1 → view w1 ≠ ∅ →
      Update to_server common host rs (JObject changed) headers' w1 =
        if decide (etag_of w1 = etag_of w0)
        then let '(w2, x) := put (update_request common host headers' (etag_of w0) r) w1 in
             (w2, Some (extractBody no_receiver path q (put_response x)))
        else (w1, Some ((), Err (BadStatus 412))).
Proof.
  intros. edestruct (Update_sent_during put common host zero v receive base changed r headers headers' w0)
    as (rs&Hr&Hu); [done..|]. exists rs. split; [done|]. intros w1. exact (Hu id w1).
Qed.

(** C9.  An update is made of a resource that was still the one that was retrieved,
    as far as its ETag tells, when the server looked: it is refused, and changes
    nothing, when it was not.  What is put is what the changes make of the resource
    as it was sent, so that the canary, a field that no receiver knows, is in it,
    and its answer is the client's.  But it is put into the world that other
    requests have made by then: nothing looks again. *)
Theorem Update_conditional {A} (put : Exchange (W := W)) (common : Values) (host : string) (zero v : A)
    (receive : option json → A * json * option text) (base changed r : gmap string json)
    (headers headers' : gmap string string) (w0 : W) :
  shows → Putable res = Some put → readable w0 → etag_of w0 ≠ "" → view w0 ≠ ∅ → view w0 !! etag_of w0 = None →
  receive (Some (canary (etag_of w0) (view w0))) = (v, JObject base, None) →
  base !! etag_of w0 = None → changed !! etag_of w0 = None →
  applyChanges base changed (view w0 ∪ {[etag_of w0 := JString "canary"]}) = Some r →
  headers' !! "If-None-Match" = None → common !! "If-None-Match" = None →
  ∃ rs, Retrieve to_server common host zero receive path q headers w0 = (w0, Some (v, Ok rs)) ∧
    ∀ (between : W → W) w1, readable w1 → view w1 ≠ ∅ →
      let sent := mkRequest "PUT" path (raw_query q) host
                    (updateHeaders common (<["If-Match" := etag_of w0]> headers')) (Some (JObject r)) in
      let updated := Update (to_server_during between) common host rs (JObject changed) headers' w1 in
      (etag_of w1 ≠ etag_of w0 → updated = (w1, Some ((), Err (BadStatus 412)))) ∧
      (etag_of w1 = etag_of w0 →
       updated.1 = (put sent (between w1)).1 ∧
       (∀ x, (put sent (between w1)).2 = Some x →
          (x_status x < 200 ∨ 300 ≤ x_status x → updated.2 = Some ((), Err (BadStatus (x_status x)))) ∧
          (200 ≤ x_status x < 300 → ∃ rs', updated.2 = Some ((), Ok rs')))).
Proof.
  intros. edestruct (Update_sent_during put common host zero v receive base changed r headers headers' w0)
    as (rs&Hr&Hu); [done..|]. exists rs. split; [done|]. intros between w1 Hok Hv sent updated.
  unfold updated. rewrite Hu by done. split.
  - intros Hdiff. by rewrite decide_False.
  - intros Hsame. rewrite decide_True by done.
    change (update_request common host headers' (etag_of w0) r) with sent.
    destruct (put sent (between w1)) as [w2 o]. split; [done|]. intros x Ho. cbn in Ho. subst o.
    cbn [snd put_response]. unfold extractBody, no_receiver. rewrite renderData_code. split.
    + intros Hs. destruct ((x_status x <? 200) || (300 <=? x_status x)) eqn:Hc; [done|]. lia.
    + intros Hs. assert ((x_status x <? 200) || (300 <=? x_status x) = false) as -> by lia.
      destruct (Z.eqb_spec (x_status x) 409); [lia|]. by eexists.
Qed.
End Conditional.

(** A resource that is one string, of which two clients have the first value. *)
Definition one_string : Resource (W := string) := mkResource
  (Some (λ r w, (w, Some (mkExchanged (Some (JObject {["n" := JString w]})) 200 []))))
  (Some (λ r w,
     (match rq_body r with Some (JObject m) => match m !! "n" with Some (JString s) => s | _ => w end | _ => w end,
      Some (mkExchanged None 204 [])))) None.

Definition string_digest (j : json) : string :=
  match j with JObject m => match m !! "n" with Some (JString s) => s | _ => "-" end | _ => "-" end.

Definition receive_string (j : option json) : () * json * option text := ((), JObject {["n" := JString "a"]}, None).

(** The one who writes in time has the other refused; who writes between the other's
    checks and Exchange has not, and what it wrote is lost without a word. *)
Lemma Update_conditional_witness :
  let retrieve := Retrieve (to_server string_digest one_string) ∅ "h" () receive_string "./x" None ∅ "a" in
  let update between rs s w :=
    Update (to_server_during string_digest one_string between) ∅ "h" rs (JObject {["n" := JString s]}) ∅ w in
  ∃ rs, retrieve = ("a", Some ((), Ok rs)) ∧
    update id rs "z" "b" = ("b", Some ((), Err (BadStatus 412))) ∧
    (∃ ok, update id rs "y" "a" = ("y", Some ((), Ok ok))) ∧
    (∃ ok, update (λ w, (update id rs "y" w).1) rs "z" "a" = ("z", Some ((), Ok ok))).
Proof.
  intros retrieve update.
  assert (∀ s,
    applyChanges {["n" := JString "a"]} {["n" := JString s]} {["n" := JString "a"; "a" := JString "canary"]} =
      Some {["n" := JString s; "a" := JString "canary"]} →
    ∃ rs, retrieve = ("a", Some ((), Ok rs)) ∧
      update id rs s "b" = ("b", Some ((), Err (BadStatus 412))) ∧
      (∀ between, ∃ ok, update between rs s "a" = (s, Some ((), Ok ok)))) as Hall.
  { intros s Happ. destruct (Update_conditional string_digest one_string (λ _, True) (λ w, {["n" := JString w]})
      (λ _, None) "./x" None _ ∅ "h" () () receive_string
      {["n" := JString "a"]} {["n" := JString s]} _ ∅ ∅ "a"
      (ex_intro _ _ (conj eq_refl (λ _ _ _ _ _, eq_refl))) eq_refl I ltac:(done) ltac:(done) eq_refl eq_refl eq_refl
      eq_refl Happ eq_refl eq_refl) as (rs&Hr&Hu).
    exists rs. split; [exact Hr|]. split; [by apply (Hu id "b")|]. intros between.
    destruct (proj2 (Hu between "a" I ltac:(done)) eq_refl) as [H1 H2].
    destruct (proj2 (H2 _ eq_refl) ltac:(done)) as [ok Hok]. exists ok.
    unfold update. rewrite (surjective_pairing (Update _ _ _ _ _ _ _)), Hok. f_equal. exact H1. }
  destruct (Hall "y" eq_refl) as (rs&Hr&_&Hy). destruct (Hall "z" eq_refl) as (rs'&Hr'&Hz&Hz').
  rewrite Hr in Hr'. injection Hr' as <-. exists rs. split; [exact Hr|]. split; [exact Hz|].
  split; [exact (Hy id)|exact (Hz' _)].
Defined.
