(* ===== verification/Server.v ===== *)
(** * The server's resources (server/*.go, dto/)

    Each resource makes an exchanger of a request, which reads and writes the
    state, the queues, the list of servers.  What JSON makes of a body and of a
    response is a class, since the tags of every structure decide it. *)

From S2P Require Import Prelude GoStrings Flaw Semv Ids Startup DeployConfig CMap.
From S2P Require Import Deployment Samples State Differ ResolveFilter ResolveErrors R11nQueue SingIds.
From S2P Require Import StateManagers PutBack GoUrl Restful.
#[local] Open Scope string_scope.
#[local] Open Scope Z_scope.
#[local] Open Scope list_scope.

(** ** Identifiers in queries (queries.go, handle_artifact.go, handle_r11n.go) *)

Definition manifestIDFromValues (qv : Values) : option (result query_error ManifestID) :=
  andthen (Single qv "repo" None) (λ r,
  andthen (Single qv "offset" (Some "")) (λ o,
  andthen (Single qv "flavor" (Some "")) (λ f,
  Some (Ok (mkManifestID (mkSourceLocation r o) f))))).

Definition deploymentIDFromValues (qv : Values) : option (result query_error DeploymentID) :=
  andthen (Single qv "cluster" None) (λ cluster,
  andthen (manifestIDFromValues qv) (λ mid,
  Some (Ok (mkDeploymentID mid cluster)))).

(** [strconv.ParseBool]. *)
Definition ParseBool (s : string) : option bool :=
  if bool_decide (s ∈ ["1"; "t"; "T"; "TRUE"; "true"; "True"]) then Some true
  else if bool_decide (s ∈ ["0"; "f"; "F"; "FALSE"; "false"; "False"]) then Some false
  else None.

Inductive force_error : Type := ForceQuery (e : query_error) | ForceSyntax (s : string).

Definition forceFromValues (qv : Values) : option (result force_error bool) :=
  r ← Single qv "force" None;
  Some (match r with
        | Err e => Err (ForceQuery e)
        | Ok f => match ParseBool f with Some b => Ok b | None => Err (ForceSyntax f) end
        end).

Inductive source_error : Type := SourceQuery (e : query_error) | SourceVersion (e : parse_error).

(** The variable is returned beside the call that sets it: [late] is whether it
    is read after the call. *)
Definition sourceIDFromValues (late : bool) (qv : Values) : option (SourceID * option source_error) :=
  let zero := mkSourceID (mkSourceLocation "" "") zeroVersion in
  rv ← andthen (Single qv "repo" None) (λ r,
       andthen (Single qv "offset" (Some "")) (λ o,
       andthen (Single qv "version" (Some "")) (λ vs, Some (Ok (r, o, vs)))));
  Some (match rv with
        | Err e => (zero, Some (SourceQuery e))
        | Ok (r, o, vs) =>
            match Parse vs with
            | Err e => (zero, Some (SourceVersion e))
            | Ok v => (if late then mkSourceID (mkSourceLocation r o) v else zero, None)
            end
        end).

(** The query is unescaped once more; [None] is an error. *)
Definition r11nIDFromRoute (rawQuery : string) : option R11nID :=
  QueryUnescape (values_Get "action" (Query rawQuery)).

(** [GetUser]. *)
Definition GetUser (r : request) : SousUser :=
  mkSousUser (values_Get "Sous-User-Name" (rq_Header r)) (values_Get "Sous-User-Email" (rq_Header r)).

(** ** Bodies (data.go, dto/) *)

Record NameData := mkNameData { nd_ClusterName : string; nd_URL : string }.

Record QueueDesc := mkQueueDesc { qd_DeploymentID : DeploymentID; qd_Length : nat }.

(** What exchanges return: the text of an error, nil, or data. *)
Inductive payload : Type :=
| PText (t : text)
| PNil
| PError
| PManifest (m : Manifest)
| PGDM (ds : list Deployment)
| PDefs (d : Defs)
| PSingle (links : option string) (spec : DeploySpec)
| PQueues (qs : list (string * QueueDesc))
| PQueue (items : list R11nID)
| PR11n (queuePosition : Z) (resolution : option DiffResolution)
| PServers (l : list NameData)
| PHealth (version revision : string).

(** [encoding/json] on these types, with their tags and methods. *)
Class Codec := {
  decode_GDM : option json → list (option Deployment) * option text;
  decode_Manifest : option json → Manifest * option text;
  decode_Single : option json → option DeploySpec * option text;
  decode_Artifact : option json → (string * list Quality) * option text;
  decode_Servers : option json → list NameData * option text;
  encode : payload → option json;
  spec_json : DeploySpec → string;
  dep_String : Deployment → string;
  sha512_base64 : string → string
}.

Section Etags.
Context `{Codec}.

(** [SingleDeploymentBody.etag]. *)
Definition single_etag (spec : DeploySpec) : string := "w/" +:+ sha512_base64 (spec_json spec).

(** [copy(dst, src)]: as many elements as both have. *)
Definition copy {A} (dst src : list A) : list A :=
  take (length dst) src ++ drop (length src) dst.

(** [GDMWrapper.etag]: what is sorted and digested is the slice that the
    deployments were copied to. *)
Definition gdm_etag (ds : list Deployment) : string :=
  let deps := copy [] ds in
  let deps := merge_sort (λ a b, String.le (DeploymentID_String (Deployment_ID a)) (DeploymentID_String (Deployment_ID b))) deps in
  "w/" +:+ sha512_base64 (join "" (dep_String <$> deps)).

(** [AddHeaders], of the bodies that have it. *)
Definition AddHeaders (p : payload) : list (string * string) :=
  match p with
  | PSingle links spec =>
      ("Etag", single_etag spec) :: match links with Some url => [("Location", url)] | None => [] end
  | PGDM ds => [("Etag", gdm_etag ds)]
  | _ => []
  end.

(** [VariancesFrom] on lists of servers; the other is one too. *)
Definition ServerListData_VariancesFrom (ld ol : list NameData) : list string :=
  if negb (length ld =? length ol)%nat then ["server list lengths differ"]
  else
    match find (λ l, negb (existsb (λ r, bool_decide (nd_ClusterName l = nd_ClusterName r)
                                         && bool_decide (nd_URL l = nd_URL r)) ol)) ld with
    | Some l => ["No match found for " +:+ nd_ClusterName l]
    | None => []
    end.
End Etags.

(** ** Handlers *)

(** What the exchanges share: the store that the managers read and write, the
    queues, and the URLs of the other servers, in a map that may be nil. *)
Record server (W : Type) := mkServer {
  store : W;
  queue_set : R11nQueueSet;
  SiblingURLs : gomap string
}.
Arguments mkServer {W}.
Arguments store {W}.
Arguments queue_set {W}.
Arguments SiblingURLs {W}.

(** The data, the status and the headers set directly; [None] is a panic. *)
Abbreviation outcome := (option (payload * Z * list (string * string))).

Definition reply (p : payload) (status : Z) : outcome := Some (p, status, []).

Section Handlers.
Context `{Codec} {W : Type}.
Context (perm : Deployments → order).
(** The components ([ComponentLocator]). *)
Context (sm : StateManager W) (cm : ClusterManager W).
Context (Insert : SourceID → string → string → list Quality → W → W * option text).
(** Whether an error of reading says that there is no state ([os.IsNotExist],
    [storage.IsGSMError]). *)
Context (absent : manager_error → bool).

Definition set_store (w : W) (s : server W) : server W := mkServer w (queue_set s) (SiblingURLs s).
Definition set_queues (q : R11nQueueSet) (s : server W) : server W := mkServer (store s) q (SiblingURLs s).

(** [None] is the nil state. *)
Definition liveState (w : W) : W * option State :=
  let '(w, r) := ReadState sm w in
  (w, match r with Ok s => Some s | Err e => if absent e then Some NewState else None end).

(** *** The manifests (handle_manifest.go) *)

Definition GETManifest_Exchange (st : option State) (qv : Values) : outcome :=
  rmid ← manifestIDFromValues qv;
  match rmid with
  | Err _ => reply PError 404
  | Ok mid =>
      st ← st;
      match st_Manifests st !! mid with
      | None => reply PNil 404
      | Some m => reply (PManifest m) 200
      end
  end.

Definition GETManifest (r : request) (s : server W) : server W * outcome :=
  let '(w, st) := liveState (store s) in
  (set_store w s, GETManifest_Exchange st (QueryParser_ParseQuery (rq_RawQuery r))).

(** The manifests of the state that was read, once one was removed, go nowhere. *)
Definition DELETEManifest_Exchange (st : option State) (qv : Values) : option State * outcome :=
  match manifestIDFromValues qv with
  | None => (st, None)
  | Some (Err _) => (st, reply PError 404)
  | Some (Ok mid) =>
      match st with
      | None => (st, None)
      | Some state =>
          match st_Manifests state !! mid with
          | None => (st, reply PNil 404)
          | Some _ =>
              (Some (mkState (st_Defs state) (delete mid (st_Manifests state)) (etag state)), reply PNil 204)
          end
      end
  end.

Definition DELETEManifest (r : request) (s : server W) : server W * outcome :=
  let '(w, st) := liveState (store s) in
  let '(_, o) := DELETEManifest_Exchange st (QueryParser_ParseQuery (rq_RawQuery r)) in
  (set_store w s, o).

Definition PUTManifest_Exchange (st : option State) (r : request) (w : W) : W * outcome :=
  match manifestIDFromValues (QueryParser_ParseQuery (rq_RawQuery r)) with
  | None => (w, None)
  | Some (Err _) => (w, reply PError 404)
  | Some (Ok mid) =>
      let '(m, _) := decode_Manifest (rq_body r) in
      match Manifest_Validate m with
      | _ :: _ => (w, reply (PText (Lit "Invalid manifest")) 400)
      | [] =>
          match st with
          | None => (w, None)
          | Some st =>
              let '(w, e) := WriteState sm (mkState (st_Defs st) (<[mid := m]> (st_Manifests st)) (etag st)) (GetUser r) w in
              match e with
              | Some _ => (w, reply PError 409)
              | None => (w, reply (PManifest m) 200)
              end
          end
      end
  end.

Definition PUTManifest (r : request) (s : server W) : server W * outcome :=
  let '(w, st) := liveState (store s) in
  let '(w, o) := PUTManifest_Exchange st r w in
  (set_store w s, o).

(** *** The deploy manifest (handle_gdm.go) *)

Definition by_digest (a b : DeploymentID) : Prop :=
  String.le (Stdlib.Strings.String.string_of_list_ascii (Digest a)) (Stdlib.Strings.String.string_of_list_ascii (Digest b)).

Definition GETGDM_Exchange (st : option State) : outcome :=
  st ← st;
  match State_Deployments st with
  | Err _ => reply PError 500
  | Ok deps =>
      let keys := merge_sort by_digest (perm deps).*1 in
      reply (PGDM (omap (λ k, deps !! k) keys)) 200
  end.

Definition GETGDM (r : request) (s : server W) : server W * outcome :=
  let '(w, st) := liveState (store s) in (set_store w s, GETGDM_Exchange st).

(** [NewDeployments] panics on a nil deployment and on two of one ID. *)
Definition NewDeployments (ds : list (option Deployment)) : option Deployments :=
  ds ← mapM id ds; c ← NewCMap ds; c.

Definition PUTGDM_Exchange (r : request) (w : W) : W * outcome :=
  let '(data, _) := decode_GDM (rq_body r) in
  match NewDeployments data with
  | None => (w, None)
  | Some deps =>
      let '(w, rs) := ReadState sm w in
      match rs with
      | Err _ => (w, reply (PText (Lit "Error loading state from storage")) 500)
      | Ok state =>
          match PutbackManifests (st_Defs state) (st_Manifests state) (perm deps) with
          | Err _ => (w, reply (PText (Lit "Error getting state")) 409)
          | Ok ms =>
              let state := mkState (st_Defs state) ms (etag state) in
              match State_Validate state with
              | _ :: _ => (w, reply (PText (Lit "Invalid GDM")) 400)
              | [] =>
                  let state := match rq_Header r !! "Etag" with
                               | Some _ => SetEtag (values_Get "Etag" (rq_Header r)) state
                               | None => state
                               end in
                  let '(w, e) := WriteState sm state (GetUser r) w in
                  match e with
                  | Some _ => (w, reply (PText (Lit "Error committing state")) 500)
                  | None => (w, reply (PText (Lit "")) 204)
                  end
              end
          end
      end
  end.

(** The state is read twice; the first is only logged. *)
Definition PUTGDM (r : request) (s : server W) : server W * outcome :=
  let '(w, _) := liveState (store s) in
  let '(w, o) := PUTGDM_Exchange r w in
  (set_store w s, o).

(** *** The definitions (handle_state_defs.go) *)

Definition GETStateDefs (r : request) (s : server W) : server W * outcome :=
  let '(w, st) := liveState (store s) in
  (set_store w s, st ← st; reply (PDefs (st_Defs st)) 200).

(** *** The deployments of this server's cluster (handle_state_deployments.go) *)

Definition GETStateDeployments (rf : ResolveFilter) (r : request) (s : server W) : server W * outcome :=
  let '(w, rd) := ReadCluster cm (ValueOr (rf_Cluster rf) "no-cluster") (store s) in
  (set_store w s,
   match rd with
   | Err _ => reply PError 500
   | Ok deps => reply (PGDM (perm deps).*2) 200
   end).

Definition PUTStateDeployments (rf : ResolveFilter) (r : request) (s : server W) : server W * outcome :=
  let '(data, err) := decode_GDM (rq_body r) in
  match err with
  | Some _ => (s, reply PError 400)
  | None =>
      match NewDeployments data with
      | None => (s, None)
      | Some deps =>
          let '(w, e) := WriteCluster cm (ValueOr (rf_Cluster rf) "no-cluster") deps (GetUser r) (store s) in
          (set_store w s, match e with Some _ => reply PError 500 | None => reply PNil 202 end)
      end
  end.

(** *** Artifacts (handle_artifact.go) *)

Definition PUTArtifact (late : bool) (r : request) (s : server W) : server W * outcome :=
  let '((name, qualities), err) := decode_Artifact (rq_body r) in
  match err with
  | Some _ => (s, reply PError 406)
  | None =>
      match sourceIDFromValues late (QueryParser_ParseQuery (rq_RawQuery r)) with
      | None => (s, None)
      | Some (_, Some _) => (s, reply PError 406)
      | Some (sid, None) =>
          let '(w, e) := Insert sid name "" qualities (store s) in
          (set_store w s, match e with Some _ => reply PError 406 | None => reply (PText (Lit "")) 200 end)
      end
  end.

(** *** The servers (handle_servers.go) and the server's health *)

Definition GETServerList (order : gmap string string → list (string * string)) (r : request) (s : server W) :
    server W * outcome :=
  (s, reply (PServers ((λ kv, mkNameData kv.1 kv.2) <$> order (entries (SiblingURLs s)))) 200).

Definition PUTServerList (r : request) (s : server W) : server W * outcome :=
  let '(data, _) := decode_Servers (rq_body r) in
  let urls := foldl (λ m nd, <[nd_ClusterName nd := nd_URL nd]> m) (entries (SiblingURLs s)) data in
  (mkServer (store s) (queue_set s) (Some urls), reply (PServers data) 200).

Definition GETHealth (version : Version) (r : request) (s : server W) : server W * outcome :=
  (s, reply (PHealth (Format version "M.m.p-?") (Format version "+?")) 200).

(** *** Single deployments (handle_single_deployment.go) *)

Definition GETSingle_Exchange (st : option State) (qv : Values) : outcome :=
  rdid ← deploymentIDFromValues qv;
  match rdid with
  | Err _ => reply (PText (Lit "Cannot decode Deployment ID: %s.")) 400
  | Ok did =>
      st ← st;
      match st_Manifests st !! did_ManifestID did with
      | None => reply (PText (Lit "No manifest with ID %q")) 404
      | Some m =>
          match m_Deployments m !! did_Cluster did with
          | None => reply (PText (Lit "Manifest %q has no deployment for cluster %q.")) 404
          | Some dep => reply (PSingle None dep) 200
          end
      end
  end.

Definition GETSingle (r : request) (s : server W) : server W * outcome :=
  let '(w, st) := liveState (store s) in
  (set_store w s, GETSingle_Exchange st (Query (rq_RawQuery r))).

Definition set_spec (cluster : string) (spec : DeploySpec) (m : Manifest) : Manifest :=
  mkManifest (m_Source m) (m_Flavor m) (m_Owners m) (m_Kind m) (<[cluster := spec]> (m_Deployments m)).

(** The manifest is shared with the state, so setting the spec in the one is
    setting it in the other. *)
Definition update_spec (did : DeploymentID) (m : Manifest) (spec : DeploySpec) (st : State) : State :=
  mkState (st_Defs st) (<[did_ManifestID did := set_spec (did_Cluster did) spec m]> (st_Manifests st)) (etag st).

(** The rectification of a deployment, not compared with anything. *)
Definition single_r11n (did : DeploymentID) (d : Deployment) : Rectification :=
  NewRectification (mkDeployablePair None (Some (mkDeployable DeployStatusAny d None)) did NoData None).

Definition queue_kvs (did : DeploymentID) (id : R11nID) : list (string * string) :=
  [("action", id); ("cluster", did_Cluster did); ("repo", Repo (Source (did_ManifestID did)));
   ("offset", Dir (Source (did_ManifestID did))); ("flavor", mid_Flavor (did_ManifestID did))].

(** The part after the state was written; [id] is the ID that the queue draws. *)
Definition enqueue_single (rm : RouteMap) (id : R11nID) (did : DeploymentID) (spec : DeploySpec) (host : string)
    (st : State) (s : server W) : server W * outcome :=
  match State_Deployments st with
  | Err _ => (s, reply (PText (Lit "Failed to round-trip new deployment spec to GDM: %s")) 500)
  | Ok deployments =>
      match deployments !! did with
      | None => (s, reply (PText (Lit "Failed to round-trip new deployment spec to GDM.")) 500)
      | Some newDeployment =>
          match Deployment_Validate newDeployment with
          | _ :: _ => (s, reply (PText (Lit "Deployment invalid after round-trip to GDM: %v")) 400)
          | [] =>
              match rqs_Push id (single_r11n did newDeployment) (queue_set s) with
              | None => (s, None)
              | Some (q, None) => (set_queues q s, reply (PText (Lit "Queue full, please try again later.")) 409)
              | Some (q, Some _) =>
                  (set_queues q s,
                   ruri ← FullURIFor rm host "deploy-queue-item" ∅ (queue_kvs did id);
                   match ruri with
                   | Err _ => reply (PText (Lit "Determining queue item URL: %s")) 500
                   | Ok uri => Some (PSingle (Some uri) spec, 201, [("Location", uri)])
                   end)
              end
          end
      end
  end.

Definition PUTSingle_Exchange (rm : RouteMap) (id : R11nID) (gdm : option State) (r : request) (s : server W) :
    server W * outcome :=
  let qv := Query (rq_RawQuery r) in
  match deploymentIDFromValues qv with
  | None => (s, None)
  | Some (Err _) => (s, reply (PText (Lit "Cannot decode Deployment ID: %s.")) 400)
  | Some (Ok did) =>
      match forceFromValues qv with
      | None => (s, None)
      | Some (Err _) => (s, reply (PText (Lit "Cannot parse force from client: %s")) 400)
      | Some (Ok force) =>
          match decode_Single (rq_body r) with
          | (_, Some _) => (s, reply (PText (Lit "Error parsing body: %s.")) 400)
          | (None, None) => (s, reply (PText (Lit "Body.Deployment is nil.")) 400)
          | (Some spec, None) =>
              match gdm with
              | None => (s, None)
              | Some st =>
                  match st_Manifests st !! did_ManifestID did with
                  | None => (s, reply (PText (Lit "No manifest with ID %q.")) 404)
                  | Some m =>
                      match m_Deployments m !! did_Cluster did with
                      | None => (s, reply (PText (Lit "Manifest %q has no deployment for cluster %q.")) 404)
                      | Some original =>
                          if NumInstances (spec_DeployConfig spec) =? 0
                          then (s, reply (PText (Lit "Cannot deploy: NumInstances is 0 for this deployment. Please update your manifest to NumInstances > 0 to enable deploying.")) 400)
                          else
                            match DeploySpec_Diff spec original with
                            | None => (s, None)
                            | Some (different, _) =>
                                if negb different && negb force then (s, reply (PSingle None spec) 200)
                                else
                                  let st := update_spec did m spec st in
                                  let '(w, e) := WriteState sm st (GetUser r) (store s) in
                                  match e with
                                  | Some _ => (set_store w s, reply (PText (Lit "Failed to write state: %s.")) 500)
                                  | None => enqueue_single rm id did spec (rq_Host r) st (set_store w s)
                                  end
                            end
                      end
                  end
              end
          end
      end
  end.

Definition PUTSingle (rm : RouteMap) (id : R11nID) (r : request) (s : server W) : server W * outcome :=
  let '(w, gdm) := liveState (store s) in
  PUTSingle_Exchange rm id gdm r (set_store w s).

(** *** Queues (handle_alldeployqueues.go, handle_deployqueue.go, handle_r11n.go) *)

Definition GETAllDeployQueues (order : gmap DeploymentID R11nQueue → list (DeploymentID * R11nQueue))
    (r : request) (s : server W) : server W * outcome :=
  (s, reply (PQueues ((λ dq, (DeploymentID_String dq.1, mkQueueDesc dq.1 (Len dq.2))) <$> order (Queues (queue_set s)))) 200).

(** An array of as many zero elements as the channel has items is filled from the
    snapshot, in which the item being handled is too. *)
Definition fill_queue (n : nat) (snapshot : list QueuedR11n) : option (list R11nID) :=
  if decide (length snapshot ≤ n)%nat
  then Some ((qr_ID <$> snapshot) ++ replicate (n - length snapshot) "")
  else None.

(** [at_len] is the queue when its length is read, and [snapshot] what it yields
    after. *)
Definition GETDeployQueue_Exchange (did : result query_error DeploymentID) (queues : gmap DeploymentID R11nQueue)
    (snapshot : R11nQueue → list QueuedR11n) : outcome :=
  match did with
  | Err _ => reply PNil 404
  | Ok did =>
      match queues !! did with
      | None => reply (PQueue []) 404
      | Some queue => queued ← fill_queue (Len queue) (snapshot queue); reply (PQueue queued) 200
      end
  end.

Definition GETDeployQueue (snapshot : R11nQueue → list QueuedR11n) (r : request) (s : server W) : server W * outcome :=
  (s, did ← deploymentIDFromValues (Query (rq_RawQuery r));
      GETDeployQueue_Exchange did (Queues (queue_set s)) snapshot).

(** [waited] are the queues when [Wait] returns, [queues] those after; the outer
    [None] is a wait that goes on. *)
Definition GETR11n_Exchange (rawQuery : string) (waited queues : R11nQueueSet) : option outcome :=
  let qv := Query rawQuery in
  match deploymentIDFromValues qv with
  | None => Some None
  | Some (Err _) => Some (reply PNil 404)
  | Some (Ok did) =>
      let id := default "" (r11nIDFromRoute rawQuery) in
      let look :=
        match Queues queues !! did with
        | None => reply (PText (Lit "Nothing queued for %q.")) 404
        | Some queue =>
            match ByID id queue with
            | None => reply (PText (Lit "Deploy action %q not found in queue for %q.")) 404
            | Some qr =>
                reply (PR11n (Pos qr) (if 0 <=? Pos qr then None else Some (r_Resolution (qr_Rectification qr)))) 200
            end
        end in
      if bool_decide (values_Get "wait" qv = "true") then
        match rqs_Wait did id waited with
        | None => None
        | Some (_, false) => Some (reply (PText (Lit "Deploy action %q not found in queue for %q.")) 404)
        | Some (_, true) => Some look
        end
      else Some look
  end.
End Handlers.

(** ** Resources (server.go) *)

Section Resources.
Context `{Codec} {W : Type}.

(** An exchanger, as the router sees it. *)
Definition as_exchange (h : request → server W → server W * outcome) : Exchange (W := server W) := λ r s,
  let '(s, o) := h r s in
  (s, match o with
      | None => None
      | Some (p, status, hs) => Some (mkExchanged (encode p) status (hs ++ AddHeaders p))
      end).

Context (perm : Deployments → order) (sm : StateManager W) (cm : ClusterManager W).
Context (Insert : SourceID → string → string → list Quality → W → W * option text).
Context (absent : manager_error → bool).

Definition GDMResource : Resource (W := server W) :=
  mkResource (Some (as_exchange (GETGDM perm sm absent))) (Some (as_exchange (PUTGDM perm sm absent))) None.

Definition StateDefResource : Resource (W := server W) :=
  mkResource (Some (as_exchange (GETStateDefs sm absent))) None None.

Definition ManifestResource : Resource (W := server W) :=
  mkResource (Some (as_exchange (GETManifest sm absent))) (Some (as_exchange (PUTManifest sm absent)))
    (Some (as_exchange (DELETEManifest sm absent))).

Definition StateDeploymentResource (rf : ResolveFilter) : Resource (W := server W) :=
  mkResource (Some (as_exchange (GETStateDeployments perm cm rf))) (Some (as_exchange (PUTStateDeployments cm rf))) None.

Definition ArtifactResource (late : bool) : Resource (W := server W) :=
  mkResource None (Some (as_exchange (PUTArtifact Insert late))) None.

Definition SingleDeploymentResource (rm : RouteMap) (id : R11nID) : Resource (W := server W) :=
  mkResource (Some (as_exchange (GETSingle sm absent))) (Some (as_exchange (PUTSingle sm absent rm id))) None.
End Resources.

(** The router: resources by their paths.  A client gives a path relative to the
    server's URL, which has none. *)
Definition mux {W} (digest : json → string) (resources : list (string * Resource (W := W)))
    (rq : request) (s : W) : W * result text response :=
  match head (filter (λ pr, rq_path rq = "." +:+ pr.1) resources) with
  | Some (_, res) => to_server digest res rq s
  | None => (s, Ok (status_only 404 ∅))
  end.

(** The routes, in the order of the code. *)
Definition routemap : RouteMap :=
  [mkRouteEntry "gdm" "/gdm"; mkRouteEntry "defs" "/defs"; mkRouteEntry "manifest" "/manifest";
   mkRouteEntry "artifact" "/artifact"; mkRouteEntry "status" "/status"; mkRouteEntry "servers" "/servers";
   mkRouteEntry "health" "/health"; mkRouteEntry "state-deployments" "/state/deployments";
   mkRouteEntry "all-deploy-queues" "/all-deploy-queues"; mkRouteEntry "deploy-queue" "/deploy-queue";
   mkRouteEntry "deploy-queue-item" "/deploy-queue-item"; mkRouteEntry "single-deployment" "/single-deployment"].

(** ** Lemmas *)

Lemma mux_head {W} (digest : json → string) path (res : Resource (W := W)) resources rq s :
  rq_path rq = "." +:+ path → mux digest ((path, res) :: resources) rq s = to_server digest res rq s.
Proof. intros Hp. unfold mux. by rewrite filter_cons_True. Qed.

Lemma mux_tail {W} (digest : json → string) path (res : Resource (W := W)) resources rq s :
  rq_path rq ≠ "." +:+ path → mux digest ((path, res) :: resources) rq s = mux digest resources rq s.
Proof. intros Hp. unfold mux. by rewrite filter_cons_False. Qed.

Lemma gdm_etag_constant `{Codec} (a b : list Deployment) : gdm_etag a = gdm_etag b.
Proof. unfold gdm_etag, copy. by rewrite !drop_nil. Qed.

Lemma Single_one (qv : Values) (field v : string) (def : option string) :
  qv !! field = Some [v] → Single qv field def = Some (Ok v).
Proof. unfold Single. by intros ->. Qed.

(** Identifiers are read from the values they were put in. *)
Lemma deploymentIDFromValues_ok (qv : Values) (did : DeploymentID) :
  qv !! "cluster" = Some [did_Cluster did] → qv !! "repo" = Some [Repo (Source (did_ManifestID did))] →
  qv !! "offset" = Some [Dir (Source (did_ManifestID did))] → qv !! "flavor" = Some [mid_Flavor (did_ManifestID did)] →
  deploymentIDFromValues qv = Some (Ok did).
Proof.
  intros Hc Hr Ho Hf. unfold deploymentIDFromValues, manifestIDFromValues.
  rewrite (Single_one _ _ _ _ Hc), (Single_one _ _ _ _ Hr), (Single_one _ _ _ _ Ho), (Single_one _ _ _ _ Hf).
  by destruct did as [[[]]].
Qed.

(** The query of a link to an item of a queue. *)
Definition item_query (did : DeploymentID) (id : R11nID) : Values :=
  foldl (λ m kv, values_Add kv.1 kv.2 m) ∅ (queue_kvs did id).

Lemma item_query_lookup did id k :
  item_query did id !! k =
    match (list_to_map (queue_kvs did id) : gmap string string) !! k with Some v => Some [v] | None => (None : option (list string)) end.
Proof.
  unfold item_query, queue_kvs, values_Add. cbn [foldl fst snd list_to_map foldr uncurry].
  repeat (rewrite lookup_insert_ne by done). rewrite !lookup_empty. cbn [default from_option app].
  destruct (decide (k = "flavor")) as [->|]; [by simplify_map_eq|].
  destruct (decide (k = "offset")) as [->|]; [by simplify_map_eq|].
  destruct (decide (k = "repo")) as [->|]; [by simplify_map_eq|].
  destruct (decide (k = "cluster")) as [->|]; [by simplify_map_eq|].
  destruct (decide (k = "action")) as [->|]; [by simplify_map_eq|].
  by simplify_map_eq.
Qed.

Lemma item_query_parsed did id : Query (Encode (item_query did id)) = item_query did id.
Proof.
  unfold Query. rewrite ParseQuery_Encode; [done|]. intros k vs Hk. rewrite item_query_lookup in Hk.
  by case_match; simplify_eq.
Qed.

Lemma item_link did id host :
  FullURIFor routemap host "deploy-queue-item" ∅ (queue_kvs did id) =
    Some (Ok (host +:+ "/deploy-queue-item" +:+ "?" +:+ Encode (item_query did id))).
Proof.
  unfold FullURIFor, URIFor. change (foldl _ ∅ (queue_kvs did id)) with (item_query did id).
  assert (byName "deploy-queue-item" routemap = Some (mkRouteEntry "deploy-queue-item" "/deploy-queue-item")) as ->
    by reflexivity.
  rewrite (bool_decide_eq_false_2 (item_query did id = ∅)).
  2: { intros He. pose proof (item_query_lookup did id "flavor") as Hl. rewrite He in Hl. done. }
  cbn [re_Path]. rewrite bool_decide_eq_false_2 by done. reflexivity.
Qed.

Lemma QueryUnescape_plain (s : string) : lacks "%" s = true → lacks "+" s = true → QueryUnescape s = Some s.
Proof.
  induction s as [|c s IH]; [done|]. rewrite !lacks_cons, !andb_true_iff, !negb_true_iff, !bool_decide_eq_false.
  intros [Hp Hs] [Hq Hs']. cbn [QueryUnescape]. rewrite !bool_decide_eq_false_2 by congruence.
  by rewrite IH.
Qed.

(** A link to an item is read as the item it was made for. *)
Lemma item_query_ids did id :
  lacks "%" id = true → lacks "+" id = true →
  deploymentIDFromValues (Query (Encode (item_query did id))) = Some (Ok did) ∧
  r11nIDFromRoute (Encode (item_query did id)) = Some id ∧
  values_Get "wait" (Query (Encode (item_query did id))) = "".
Proof.
  intros Hp Hq. rewrite item_query_parsed. split_and!.
  - by apply deploymentIDFromValues_ok; rewrite item_query_lookup.
  - unfold r11nIDFromRoute. rewrite item_query_parsed. unfold values_Get. rewrite item_query_lookup.
    by apply QueryUnescape_plain.
  - unfold values_Get. by rewrite item_query_lookup.
Qed.

(** What a push leaves in the set. *)
Lemma rqs_Push_found (evs : list event) id r rqs q a :
  fresh_ids evs → id ∉ omap event_id evs →
  run evs (NewR11nQueue (rqs_cap rqs)) = Some (queue_of (pair_name (r_Pair r)) rqs) →
  rqs_Push id r rqs = Some (q, Some a) →
  ∃ rq, Queues q !! pair_name (r_Pair r) = Some rq ∧
    ByID id rq = Some (mkQueuedR11n id (Z.of_nat (Len (queue_of (pair_name (r_Pair r)) rqs))) r false) ∧
    heap rq = heap (queue_of (pair_name (r_Pair r)) rqs) ++ [mkQueuedR11n id (Z.of_nat (Len (queue_of (pair_name (r_Pair r)) rqs))) r false].
Proof.
  intros Hf Hid Hrun Hp. set (did := pair_name (r_Pair r)) in *.
  destruct (run_facts _ _ _ Hf Hrun) as (Hi&_&Hids&_).
  unfold rqs_Push, rqs_with in Hp. apply bind_Some in Hp as ([rq o]&Hp&[= <- ->]).
  fold did in Hp. unfold Push in Hp. case_decide; [done|].
  destruct (internalPush id r (queue_of did rqs)) as [[rq' a']|] eqn:Hpush; [|done]. injection Hp as -> ->.
  apply internalPush_inv in Hpush as (Hi'&->&Hh&_); [|done|auto].
  exists rq. cbn [Queues rqs_set]. unfold Queues. cbn [rqs_set]. rewrite lookup_insert_eq. split_and!; [done| |done].
  unfold ByID. assert (allRefs rq !! id = Some (length (heap (queue_of did rqs)))) as ->.
  { apply (i_all _ Hi'). unfold ids. rewrite Hh, length_app, fmap_app. simpl.
    split; [unfold MaxRefsPerR11nQueue; lia|]. apply lookup_snoc_Some. right. by rewrite length_fmap. }
  simpl. rewrite Hh. by rewrite lookup_app_r, Nat.sub_diag by lia.
Qed.

Lemma listed_values (deps : Deployments) (keys : list DeploymentID) :
  keys ≡ₚ (map_to_list deps).*1 → omap (λ k, deps !! k) keys ≡ₚ (map_to_list deps).*2.
Proof.
  intros ->. assert (∀ l : list (DeploymentID * Deployment), (∀ k d, (k, d) ∈ l → deps !! k = Some d) →
    omap (λ k, deps !! k) l.*1 = l.*2) as Hl.
  { intros l. induction l as [|[k d] l IH]; intros Hl; [done|]. cbn [fmap list_fmap omap list_omap fst].
    rewrite (Hl k d) by set_solver. simpl. f_equal. apply IH. set_solver. }
  rewrite Hl; [done|]. intros k d. apply elem_of_map_to_list.
Qed.

Lemma NewDeployments_values (deps : Deployments) (l : list Deployment) :
  keyed deps → l ≡ₚ (map_to_list deps).*2 → NewDeployments (Some <$> l) = Some deps.
Proof.
  intros Hk Hl. unfold NewDeployments.
  assert (mapM id (Some <$> l) = Some l) as ->.
  { clear Hl. induction l as [|d l IH]; [done|]. cbn [fmap list_fmap mapM id mbind option_bind].
    change (list_fmap _ _ Some l) with (Some <$> l). by rewrite IH. }
  cbn [mbind option_bind]. by rewrite (NewCMap_values deps).
Qed.

(** ** Properties *)

Section Properties.
Context `{Codec} {W : Type} (perm : Deployments → order) (sm : StateManager W) (absent : manager_error → bool).

Lemma liveState_ok w w' st : ReadState sm w = (w', Ok st) → liveState sm absent w = (w', Some st).
Proof. intros Hr. unfold liveState. by rewrite Hr. Qed.

(** The pieces of a PUT that got as far as the queue. *)
Lemma PUTSingle_reaches_queue rm id r s s' p hs :
  PUTSingle sm absent rm id r s = (s', Some (p, 201, hs)) →
  ∃ did spec m st w0 w1 d q a uri,
    liveState sm absent (store s) = (w0, Some st) ∧
    deploymentIDFromValues (Query (rq_RawQuery r)) = Some (Ok did) ∧
    st_Manifests st !! did_ManifestID did = Some m ∧
    decode_Single (rq_body r) = (Some spec, None) ∧
    WriteState sm (update_spec did m spec st) (GetUser r) w0 = (w1, None) ∧
    (∃ deps, State_Deployments (update_spec did m spec st) = Ok deps ∧ deps !! did = Some d) ∧
    Deployment_Validate d = [] ∧
    rqs_Push id (single_r11n did d) (queue_set s) = Some (q, Some a) ∧
    FullURIFor rm (rq_Host r) "deploy-queue-item" ∅ (queue_kvs did id) = Some (Ok uri) ∧
    s' = mkServer w1 q (SiblingURLs s) ∧ p = PSingle (Some uri) spec ∧ hs = [("Location", uri)].
Proof.
  unfold PUTSingle. destruct (liveState sm absent (store s)) as [w0 gdm]. unfold PUTSingle_Exchange.
  destruct (deploymentIDFromValues _) as [[did|]|]; try done.
  destruct (forceFromValues _) as [[force|]|]; try done.
  destruct (decode_Single (rq_body r)) as [[spec|] [?|]]; try done.
  destruct gdm as [st|]; [|done]. destruct (st_Manifests st !! _) as [m|] eqn:Hm; [|done].
  destruct (m_Deployments m !! _) as [original|]; [|done].
  destruct (NumInstances _ =? 0); [done|]. destruct (DeploySpec_Diff spec original) as [[different ?]|]; [|done].
  destruct (negb different && negb force); [done|]. cbn [store set_store].
  destruct (WriteState sm _ _ w0) as [w1 [e|]] eqn:Hw; [done|]. unfold enqueue_single.
  destruct (State_Deployments _) as [deps|] eqn:Hdeps; [|done].
  destruct (deps !! did) as [d|] eqn:Hd; [|done].
  destruct (Deployment_Validate d) eqn:Hv; [|done]. cbn [queue_set set_store].
  destruct (rqs_Push _ _ _) as [[q [a|]]|] eqn:Hp; try done.
  destruct (FullURIFor _ _ _ _ _) as [[uri|]|] eqn:Hu; try done.
  intros [= <- <- <-]. exists did, spec, m, st, w0, w1, d, q, a, uri. split_and!; try done. by exists deps.
Qed.

(** C10.  A single deployment that is accepted is recorded and under way: the
    manifests that were written have its spec, what they expand to at its ID is
    valid and is queued last of all, and the link that is sent leads to it. *)
Theorem PUTSingle_accepted (id : R11nID) (r : request) (s s' : server W) (p : payload) (hs : list (string * string)) :
  lacks "%" id = true → lacks "+" id = true →
  (∀ did, ∃ evs, fresh_ids evs ∧ id ∉ omap event_id evs ∧
    run evs (NewR11nQueue (rqs_cap (queue_set s))) = Some (queue_of did (queue_set s))) →
  PUTSingle sm absent routemap id r s = (s', Some (p, 201, hs)) →
  ∃ did spec m st w0 d rawQuery,
    deploymentIDFromValues (Query (rq_RawQuery r)) = Some (Ok did) ∧
    decode_Single (rq_body r) = (Some spec, None) ∧
    liveState sm absent (store s) = (w0, Some st) ∧ st_Manifests st !! did_ManifestID did = Some m ∧
    WriteState sm (update_spec did m spec st) (GetUser r) w0 = (store s', None) ∧
    (∃ deps, State_Deployments (update_spec did m spec st) = Ok deps ∧ deps !! did = Some d) ∧
    Deployment_Validate d = [] ∧
    r_Pair <$> (qr_Rectification <$> heap (queue_of did (queue_set s'))) =
      (r_Pair <$> (qr_Rectification <$> heap (queue_of did (queue_set s)))) ++ [r_Pair (single_r11n did d)] ∧
    hs = [("Location", rq_Host r +:+ "/deploy-queue-item" +:+ "?" +:+ rawQuery)] ∧
    GETR11n_Exchange rawQuery (queue_set s') (queue_set s') =
      Some (reply (PR11n (Z.of_nat (Len (queue_of did (queue_set s)))) None) 200).
Proof.
  intros Hp1 Hp2 Hruns Hput.
  apply PUTSingle_reaches_queue in Hput
    as (did&spec&m&st&w0&w1&d&q&a&uri&Hlive&Hdid&Hm&Hdec&Hw&Hdeps&Hv&Hpush&Huri&->&->&->).
  rewrite item_link in Huri. injection Huri as <-.
  destruct (Hruns did) as (evs&Hf&Hid&Hrun).
  destruct (rqs_Push_found evs id (single_r11n did d) _ q a Hf Hid Hrun Hpush) as (rq&Hq&Hby&Hheap).
  cbn [single_r11n NewRectification r_Pair pair_name] in Hq, Hby, Hheap.
  destruct (item_query_ids did id Hp1 Hp2) as (Hqd&Hqi&Hqw).
  exists did, spec, m, st, w0, d, (Encode (item_query did id)). cbn [store queue_set].
  split; [exact Hdid|]. split; [exact Hdec|]. split; [exact Hlive|]. split; [exact Hm|]. split; [exact Hw|].
  split; [exact Hdeps|]. split; [exact Hv|]. split_and!; [|reflexivity|].
  - unfold queue_of at 1. unfold Queues in Hq. rewrite Hq, Hheap, !fmap_app. reflexivity.
  - unfold GETR11n_Exchange. rewrite Hqd, Hqi, Hqw, Hq. cbn [from_option Datatypes.id].
    rewrite (bool_decide_eq_false_2 ("" = "true")) by discriminate. rewrite Hby. cbn [Pos].
    rewrite (proj2 (Z.leb_le 0 _)) by lia. reflexivity.
Qed.

(** The spec is written before what it expands to is validated: a deployment
    that is refused as invalid is in the deploy manifest from then on. *)
Theorem PUTSingle_writes_invalid (rm : RouteMap) (id : R11nID) (r : request) (s : server W) (did : DeploymentID)
    (spec original : DeploySpec) (m : Manifest) (st : State) (deps : Deployments) (d : Deployment) (w0 w1 : W) :
  deploymentIDFromValues (Query (rq_RawQuery r)) = Some (Ok did) →
  forceFromValues (Query (rq_RawQuery r)) = Some (Ok true) →
  decode_Single (rq_body r) = (Some spec, None) → ReadState sm (store s) = (w0, Ok st) →
  st_Manifests st !! did_ManifestID did = Some m → m_Deployments m !! did_Cluster did = Some original →
  NumInstances (spec_DeployConfig spec) ≠ 0 → DeploySpec_Diff spec original ≠ None →
  State_Deployments (update_spec did m spec st) = Ok deps → deps !! did = Some d → Deployment_Validate d ≠ [] →
  WriteState sm (update_spec did m spec st) (GetUser r) w0 = (w1, None) →
  PUTSingle sm absent rm id r s =
    (set_store w1 s, reply (PText (Lit "Deployment invalid after round-trip to GDM: %v")) 400).
Proof.
  intros Hdid Hforce Hdec Hread Hm Ho Hn Hdiff Hdeps Hd Hv Hw. unfold PUTSingle.
  rewrite (liveState_ok _ _ _ Hread). unfold PUTSingle_Exchange. rewrite Hdid, Hforce, Hdec, Hm, Ho.
  rewrite (proj2 (Z.eqb_neq _ _) Hn). destruct (DeploySpec_Diff spec original) as [[different ?]|]; [|done].
  rewrite andb_false_r. cbn [store set_store]. rewrite Hw. unfold enqueue_single. rewrite Hdeps, Hd.
  by destruct (Deployment_Validate d).
Qed.

(** A deploy manifest that cannot be parsed is taken for an empty one, and all
    manifests are removed. *)
Theorem PUTGDM_malformed (r : request) (s : server W) (e : text) (st : State) (w0 w1 w2 : W) (u := GetUser r) :
  decode_GDM (rq_body r) = ([], Some e) → (∀ ds, perm ds ≡ₚ map_to_list ds) →
  liveState sm absent (store s) = (w0, Some st) → ReadState sm w0 = (w1, Ok st) →
  rq_Header r !! "Etag" = None →
  WriteState sm (mkState (st_Defs st) ∅ (etag st)) u w1 = (w2, None) →
  PUTGDM perm sm absent r s = (set_store w2 s, reply (PText (Lit "")) 204).
Proof.
  intros Hdec Hperm Hlive Hread Hhdr Hw. unfold PUTGDM. rewrite Hlive. unfold PUTGDM_Exchange.
  rewrite Hdec. change (NewDeployments []) with (Some (∅ : Deployments)). cbn iota. rewrite Hread.
  assert (perm ∅ = []) as -> by (apply Permutation_nil_r; rewrite Hperm, map_to_list_empty; done).
  assert (State_Validate (mkState (st_Defs st) ∅ (etag st)) = []) as Hval.
  { unfold State_Validate, State_Deployments, Manifests_Deployments. cbn [st_Manifests]. by rewrite map_to_list_empty. }
  unfold PutbackManifests. cbn [rfold mbind result_bind]. rewrite restore_all_id, Hval, Hhdr. unfold u in Hw. by rewrite Hw.
Qed.

(** *** The deploy manifest *)

(** C38.  What is got of the deploy manifest can be put: the listing has each
    deployment once, and putting it back writes the manifests that were read (with
    nil maps made empty). *)
Theorem GDM_put_back (r r' : request) (s : server W) (st : State) :
  (∀ ds, perm ds ≡ₚ map_to_list ds) →
  ReadState sm (store s) = (store s, Ok st) → canonical_state st → State_Validate (norm_state st) = [] →
  ∃ l deps, State_Deployments st = Ok deps ∧ l ≡ₚ (map_to_list deps).*2 ∧
    GETGDM perm sm absent r s = (set_store (store s) s, reply (PGDM l) 200) ∧
    (decode_GDM (rq_body r') = (Some <$> l, None) → rq_Header r' !! "Etag" = None →
     ∀ w, WriteState sm (norm_state st) (GetUser r') (store s) = (w, None) →
     PUTGDM perm sm absent r' s = (set_store w s, reply (PText (Lit "")) 204)).
Proof.
  intros Hperm Hread Hcan Hval. destruct (canonical_deployments st Hcan) as (deps&Hdeps&Hk&Hall).
  set (keys := merge_sort by_digest (perm deps).*1).
  assert (keys ≡ₚ (map_to_list deps).*1) as Hkeys by (unfold keys; by rewrite merge_sort_Permutation, Hperm).
  exists (omap (λ k, deps !! k) keys), deps. split_and!; [done|by apply listed_values| |].
  - unfold GETGDM. rewrite (liveState_ok _ _ _ Hread). unfold GETGDM_Exchange. cbn [mbind option_bind].
    rewrite Hdeps. done.
  - intros Hdec Hhdr w Hw. unfold PUTGDM. rewrite (liveState_ok _ _ _ Hread). unfold PUTGDM_Exchange. rewrite Hdec.
    rewrite (NewDeployments_values deps) by (done || by apply listed_values).
    rewrite Hread. destruct Hcan as [Hkm Hcm].
    rewrite (putback_expected (st_Defs st) (st_Manifests st) deps Hkm Hcm Hall (perm deps) (Hperm deps)).
    change (mkState (st_Defs st) (norm_manifest <$> st_Manifests st) (etag st)) with (norm_state st).
    rewrite Hval, Hhdr, Hw. done.
Qed.

(** The digest of a deploy manifest is of an empty slice, whatever the
    deployments: the ETag of any earlier response matches the state of any later
    day, and a put of a stale manifest is carried out as if it were not. *)
Theorem GDM_never_stale (digest : json → string) (r : request) (s : server W) (st : State) (deps : Deployments)
    (old : list Deployment) (m : gmap string json) :
  ReadState sm (store s) = (store s, Ok st) → State_Deployments st = Ok deps →
  (∀ l, is_Some (encode (PGDM l))) →
  rq_method r = "PUT" → values_Get "If-None-Match" (rq_Header r) = "" →
  values_Get "If-Match" (rq_Header r) = gdm_etag old →
  rq_body r = Some (JObject m) → m !! gdm_etag old = Some (JString "canary") →
  (serve digest (GDMResource perm sm absent) r s).1 = (PUTGDM perm sm absent r s).1.
Proof.
  intros Hread Hdeps Henc Hmeth Hinm Him Hbody Hcanary.
  assert (gdm_etag old ≠ "") as Hne by done.
  unfold serve, serve_during. rewrite Hmeth, !bool_decide_eq_false_2, bool_decide_eq_true_2 by done.
  cbn [GDMResource Putable]. unfold PutHandling, PutChecks, PutExchange. rewrite Him, Hinm.
  rewrite (bool_decide_eq_false_2 (gdm_etag old = "")) by done. cbn [andb].
  unfold synthResponse. cbn [GDMResource Getable]. unfold GetHandling, as_exchange, GETGDM.
  rewrite (liveState_ok _ _ _ Hread). unfold GETGDM_Exchange. cbn [mbind option_bind]. rewrite Hdeps.
  unfold reply. cbn [x_status x_headers x_data app AddHeaders].
  set (l := omap _ _). destruct (Henc l) as [j Hj]. rewrite Hj.
  assert (set_store (store s) s = s) as -> by (by destruct s).
  rewrite (gdm_etag_constant l old).
  destruct (renderData_etag digest 200 (values_Add "Access-Control-Allow-Origin" "*" (headers_of [("Etag", gdm_etag old)]))
    j (gdm_etag old)) as (h&b&->&Hh); [done|by unfold values_Add; cbn [headers_of foldl]; simplify_map_eq|].
  unfold precondition. cbn [rz_Header rz_code]. rewrite Hinm, Him, Hh.
  rewrite (bool_decide_eq_false_2 ("" = "*")), (bool_decide_eq_false_2 (gdm_etag old = "")) by done.
  rewrite (bool_decide_eq_true_2 (gdm_etag old = gdm_etag old)) by done. cbn [andb].
  unfold validCanaryAttr, id. rewrite Hbody, Hcanary. rewrite (bool_decide_eq_true_2 ("canary" = "canary")) by done.
  destruct (PUTGDM perm sm absent r s) as [s2 [[[p status] hs]|]]; done.
Qed.

(** What the router needs to know of a GET of the deploy manifest. *)
Definition readable_GDM (s : server W) : Prop :=
  ∃ st deps, ReadState sm (store s) = (store s, Ok st) ∧ State_Deployments st = Ok deps.

Definition listed_GDM (s : server W) : list Deployment :=
  match (ReadState sm (store s)).2 with
  | Ok st => match State_Deployments st with
             | Ok deps => omap (λ k, deps !! k) (merge_sort by_digest (perm deps).*1)
             | Err _ => []
             end
  | Err _ => []
  end.

Lemma set_store_same (s : server W) : set_store (store s) s = s.
Proof. by destruct s. Qed.

Lemma GDM_shows (view : list Deployment → gmap string json) path q :
  (∀ l, encode (PGDM l) = Some (JObject (view l))) →
  shows (GDMResource perm sm absent) readable_GDM (λ s, view (listed_GDM s)) (λ _, Some (gdm_etag [])) path q.
Proof.
  intros Henc. eexists. split; [reflexivity|]. intros r s (st&deps&Hread&Hdeps) _ _.
  unfold as_exchange, GETGDM. rewrite (liveState_ok _ _ _ Hread). unfold GETGDM_Exchange. cbn [mbind option_bind].
  rewrite Hdeps, set_store_same. unfold reply. cbn [AddHeaders app]. rewrite Henc, (gdm_etag_constant _ []).
  unfold listed_GDM. cbn [snd]. rewrite Hread. cbn [snd]. by rewrite Hdeps.
Qed.

(** *** Manifests *)

(** A manifest that is put is got at the address it was put at, whatever its
    own source and flavor say, from a store that reads what was written; and
    deleting it has no effect: a delete that is answered with success leaves the
    manifest where it was. *)
Theorem PUTManifest_kept (r r' : request) (s s' : server W) (m : Manifest) (hs : list (string * string)) :
  (∀ st u w w', WriteState sm st u w = (w', None) → ReadState sm w' = (w', Ok st)) →
  PUTManifest sm absent r s = (s', Some (PManifest m, 200, hs)) → rq_RawQuery r' = rq_RawQuery r →
  GETManifest sm absent r' s' = (s', reply (PManifest m) 200) ∧
  DELETEManifest sm absent r' s' = (s', reply PNil 204).
Proof.
  intros Hstore Hput Hq. unfold PUTManifest in Hput.
  destruct (liveState sm absent (store s)) as [w0 st]. unfold PUTManifest_Exchange in Hput.
  destruct (manifestIDFromValues _) as [[mid|]|] eqn:Hmid; try done.
  destruct (decode_Manifest _) as [m0 e0]. destruct (Manifest_Validate m0); [|done].
  destruct st as [st|]; [|done]. destruct (WriteState _ _ _ _) as [w1 [e|]] eqn:Hw; [done|].
  injection Hput as <- <- <-. pose proof (Hstore _ _ _ _ Hw) as Hread.
  unfold GETManifest, DELETEManifest. cbn [store set_store].
  rewrite (liveState_ok _ _ _ Hread), Hq. unfold GETManifest_Exchange, DELETEManifest_Exchange. rewrite Hmid.
  cbn [mbind option_bind st_Manifests]. rewrite lookup_insert_eq. done.
Qed.

(** *** Queues *)

Lemma snapshot_length rq l : inv rq → is_Snapshot rq l → length l = (length (queue rq) + busy rq)%nat.
Proof.
  intros Hi [Hl _]. rewrite Hl, <-(unfinished_perm _ Hi). unfold unfinished. rewrite length_drop.
  pose proof (inv_bounds _ Hi). pose proof (i_len _ Hi). unfold finished, taken in *. lia.
Qed.

(** A queue can be listed only while nothing of it is under way: the listing has
    room for what waits, and is filled with what is being handled too, which is an
    index out of range. *)
Theorem GETDeployQueue_panics (c : nat) (evs : list event) (rq : R11nQueue) (did : DeploymentID)
    (queues : gmap DeploymentID R11nQueue) (snapshot : R11nQueue → list QueuedR11n) :
  fresh_ids evs → run evs (NewR11nQueue c) = Some rq → queues !! did = Some rq → is_Snapshot rq (snapshot rq) →
  GETDeployQueue_Exchange (Ok did) queues snapshot =
    match wk rq with
    | Idle => reply (PQueue (qr_ID <$> snapshot rq)) 200
    | _ => None
    end.
Proof.
  intros Hf Hr Hq Hs. destruct (run_facts c evs rq Hf Hr) as (Hi&_).
  pose proof (snapshot_length _ _ Hi Hs) as Hlen. unfold GETDeployQueue_Exchange. rewrite Hq.
  unfold fill_queue, R11nQueue.Len. unfold busy in Hlen.
  destruct (wk rq); [|by rewrite decide_False by lia..].
  rewrite decide_True by lia. rewrite Hlen, Nat.add_0_r, Nat.sub_diag. simpl. by rewrite app_nil_r.
Qed.

Lemma ByID_recent rq a qr :
  inv rq → heap rq !! a = Some qr → (length (heap rq) ≤ a + MaxRefsPerR11nQueue)%nat → ByID (qr_ID qr) rq = Some qr.
Proof.
  intros Hi Ha Hle. unfold ByID. assert (allRefs rq !! qr_ID qr = Some a) as ->; [|done].
  apply (i_all _ Hi). split; [done|]. unfold ids. by rewrite list_lookup_fmap, Ha.
Qed.

(** C37.  A client that waits for a rectification is answered when it was handled, with
    the resolution of its handling, as long as it is one of the last hundred
    pushed; until then the wait goes on. *)
Theorem GETR11n_waited (c : nat) (evs evs' : list event) (rq rq' : R11nQueue) (a : addr) (id : R11nID)
    (did : DeploymentID) (rawQuery : string) (waited queues : R11nQueueSet) :
  (c < MaxRefsPerR11nQueue)%nat → fresh_ids (evs ++ evs') →
  run evs (NewR11nQueue c) = Some rq → run (evs ++ evs') (NewR11nQueue c) = Some rq' →
  ids rq !! a = Some id → (length (heap rq) ≤ a + MaxRefsPerR11nQueue)%nat →
  (length (heap rq') ≤ a + MaxRefsPerR11nQueue)%nat →
  rqs_set waited !! did = Some rq → rqs_set queues !! did = Some rq' →
  deploymentIDFromValues (Query rawQuery) = Some (Ok did) → r11nIDFromRoute rawQuery = Some id →
  values_Get "wait" (Query rawQuery) = "true" →
  ((finished rq ≤ a)%nat → GETR11n_Exchange rawQuery waited queues = None) ∧
  ((a < finished rq)%nat →
   ∃ pos dr, omap event_resolution (evs ++ evs') !! a = Some dr ∧ pos < 0 ∧
     GETR11n_Exchange rawQuery waited queues = Some (reply (PR11n pos (Some dr)) 200)).
Proof.
  intros Hc Hf Hr Hr' Hid Hlen Hlen' Hw Hq Hdid Hrid Hwait.
  assert (fresh_ids evs) as Hf1 by (unfold fresh_ids in *; rewrite omap_app in Hf; by apply NoDup_app in Hf as [? _]).
  destruct (run_mono c _ _ _ _ Hf Hr Hr') as [Hmono Hpre].
  assert (ids rq' !! a = Some id) as Hid' by (by eapply prefix_lookup_Some).
  destruct (run_results c _ _ Hf1 Hr) as [Hi [_ Hit]], (run_results c _ _ Hf Hr') as [Hi' [Hn' Hit']].
  unfold ids in Hid, Hid'. apply list_lookup_fmap_Some in Hid as (qr&->&Hqr), Hid' as (qr'&Heq&Hqr').
  destruct (Hit _ _ Hqr) as [Hcl _], (Hit' _ _ Hqr') as [_ Hdr].
  unfold GETR11n_Exchange. rewrite Hdid, Hrid, Hwait. cbn [from_option Datatypes.id].
  rewrite bool_decide_eq_true_2 by done. unfold rqs_Wait, Queues. rewrite Hw, Hq. unfold Wait.
  rewrite (ByID_recent rq a qr) by done. rewrite Hcl. split.
  - intros Hge. by rewrite bool_decide_eq_false_2 by lia.
  - intros Hlt. rewrite bool_decide_eq_true_2 by lia.
    destruct (lookup_lt_is_Some_2 (omap event_resolution (evs ++ evs')) a) as [dr Hd].
    { rewrite Hn'. unfold handled. lia. }
    rewrite Heq, (ByID_recent rq' a qr') by done.
    pose proof (run_retired_negative c _ _ Hc Hf Hr' a qr' Hqr' ltac:(lia)) as Hneg.
    exists (Pos qr'), dr. split_and!; [done|lia|]. rewrite (proj2 (Z.leb_gt _ _)) by lia. by rewrite (Hdr _ Hd).
Qed.
End Properties.

(** ** Witnesses *)

(** A configuration without resources. *)
Definition sample_invalid_spec : DeploySpec :=
  mkDeploySpec (mkDeployConfig None None None 1 [] zeroStartup "") zeroVersion "".

(** What the sample state expands to. *)
Definition sample_expanded : list Deployment :=
  match State_Deployments sample_state with Ok ds => (map_to_list ds).*2 | Err _ => [] end.

(** Bodies that decode to the samples, whatever is in them; without a body there is
    an error. *)
Definition sample_codec (spec : DeploySpec) : Codec := {|
  decode_GDM b := match b with Some _ => (Some <$> sample_expanded, None) | None => ([], Some (Lit "EOF")) end;
  decode_Manifest _ := (sample_manifest, None);
  decode_Single _ := (Some spec, None);
  decode_Artifact _ := (("image", []), None);
  decode_Servers _ := ([], None);
  encode p := match p with PText _ => Some (JString "") | PNil => None | _ => Some (JObject {["x" := JNull]}) end;
  spec_json _ := "{}";
  dep_String _ := "";
  sha512_base64 s := s
|}.

Definition no_absent (e : manager_error) : bool := false.
Definition sample_server : server State := mkServer sample_state (NewR11nQueueSet 10) None.
Definition sample_request (method query : string) (body : option json) : request :=
  mkRequest method "/" query "sous.example.com" ∅ body.
Definition sample_query : string := Encode (item_query sample_did "") +:+ "&force=true".

(** As the router sees the body. *)
Definition sample_body : option json := Some (JObject {["w/" := JString "canary"]}).

Definition status_of (o : outcome) : option Z := match o with Some (_, c, _) => Some c | None => None end.

Lemma PUTSingle_accepted_witness :
  let C := sample_codec sample_spec in
  let r := sample_request "PUT" sample_query None in
  ∃ s' p hs rawQuery, PUTSingle in_memory no_absent routemap "r11n-1" r sample_server = (s', Some (p, 201, hs)) ∧
    GETR11n_Exchange rawQuery (queue_set s') (queue_set s') = Some (reply (PR11n 0 None) 200).
Proof.
  intros C r.
  assert (status_of (PUTSingle in_memory no_absent routemap "r11n-1" r sample_server).2 = Some 201) as Hstatus
    by (vm_compute; reflexivity).
  destruct (PUTSingle in_memory no_absent routemap "r11n-1" r sample_server) as [s' [[[p c] hs]|]] eqn:Hput; [|done].
  cbn [snd status_of] in Hstatus. injection Hstatus as ->.
  destruct (PUTSingle_accepted (H := C) in_memory no_absent "r11n-1" r sample_server s' p hs)
    as (did&spec&m&st&w0&d&rawQuery&_&_&_&_&_&_&_&_&_&Hget); [reflexivity|reflexivity| |exact Hput|].
  - intros did. exists []. split_and!; [apply NoDup_nil_2|apply not_elem_of_nil|].
    unfold queue_of. cbn [sample_server queue_set NewR11nQueueSet rqs_set]. by rewrite lookup_empty.
  - exists s', p, hs, rawQuery. split; [reflexivity|]. rewrite Hget. unfold queue_of.
    cbn [sample_server queue_set NewR11nQueueSet rqs_set]. by rewrite lookup_empty.
Defined.

Lemma PUTSingle_writes_invalid_witness :
  let C := sample_codec sample_invalid_spec in
  let r := sample_request "PUT" sample_query None in
  let st' := update_spec sample_did sample_manifest sample_invalid_spec sample_state in
  PUTSingle in_memory no_absent routemap "r11n-1" r sample_server =
    (set_store st' sample_server, reply (PText (Lit "Deployment invalid after round-trip to GDM: %v")) 400).
Proof.
  intros C r st'.
  assert (match State_Deployments st' with
          | Ok deps => match deps !! sample_did with Some d => bool_decide (Deployment_Validate d ≠ []) | None => false end
          | Err _ => false
          end = true) as Hinv by (vm_compute; reflexivity).
  destruct (State_Deployments st') as [deps|] eqn:Hdeps; [|done].
  destruct (deps !! sample_did) as [d|] eqn:Hd; [|done]. apply bool_decide_eq_true in Hinv.
  apply (PUTSingle_writes_invalid (H := C) in_memory no_absent routemap "r11n-1" r sample_server sample_did
    sample_invalid_spec sample_spec sample_manifest sample_state deps d sample_state st');
    [vm_compute; reflexivity|vm_compute; reflexivity|reflexivity|reflexivity|vm_compute; reflexivity
    |vm_compute; reflexivity|done|vm_compute; discriminate|exact Hdeps|exact Hd|exact Hinv|reflexivity].
Defined.

Lemma PUTGDM_malformed_witness :
  let C := sample_codec sample_spec in
  (PUTGDM map_to_list in_memory no_absent (sample_request "PUT" "" None) sample_server).1 =
    set_store (mkState sample_defs ∅ (Some "etag-1")) sample_server.
Proof.
  intros C. rewrite (PUTGDM_malformed (H := C) map_to_list in_memory no_absent (sample_request "PUT" "" None)
    sample_server (Lit "EOF") sample_state sample_state sample_state (mkState sample_defs ∅ (Some "etag-1")));
    reflexivity.
Defined.

Lemma GDM_put_back_witness :
  let C := sample_codec sample_spec in
  GETGDM map_to_list in_memory no_absent (sample_request "GET" "" None) sample_server =
    (sample_server, reply (PGDM sample_expanded) 200) ∧
  PUTGDM map_to_list in_memory no_absent (sample_request "PUT" "" sample_body) sample_server =
    (set_store (norm_state sample_state) sample_server, reply (PText (Lit "")) 204).
Proof.
  intros C.
  destruct (GDM_put_back (H := C) map_to_list in_memory no_absent (sample_request "GET" "" None)
    (sample_request "PUT" "" sample_body) sample_server sample_state) as (l&deps&Hdeps&Hl&Hget&Hput);
    [intros ds; apply Permutation_refl|reflexivity|apply sample_state_canonical|reflexivity|].
  assert (l = sample_expanded) as ->.
  { assert (sample_expanded = (map_to_list deps).*2) as He by (unfold sample_expanded; by rewrite Hdeps).
    assert (length sample_expanded = 1%nat) as Hlen by (vm_compute; reflexivity). rewrite <-He in Hl.
    destruct sample_expanded as [|d [|]]; [done| |done]. by apply Permutation_singleton_r. }
  split; [exact Hget|]. by apply Hput.
Defined.

Lemma GDM_never_stale_witness :
  let C := sample_codec sample_spec in
  let r := mkRequest "PUT" "/gdm" "" "" {["If-Match" := ["w/"]]} sample_body in
  (serve (λ _, "") (GDMResource map_to_list in_memory no_absent) r sample_server).1 =
    (PUTGDM map_to_list in_memory no_absent r sample_server).1.
Proof.
  intros C r.
  destruct (canonical_deployments _ sample_state_canonical) as (deps&Hd&_).
  apply (GDM_never_stale (H := C) map_to_list in_memory no_absent (λ _, "") r sample_server sample_state deps []
    {["w/" := JString "canary"]}); try reflexivity; [exact Hd|]. intros l. by eexists.
Defined.

Lemma PUTManifest_kept_witness :
  let C := sample_codec sample_spec in
  let r := sample_request "PUT" "repo=elsewhere" None in
  ∃ s', GETManifest in_memory no_absent r s' = (s', reply (PManifest sample_manifest) 200) ∧
    DELETEManifest in_memory no_absent r s' = (s', reply PNil 204).
Proof.
  intros C r.
  assert ((PUTManifest in_memory no_absent r sample_server).2 = Some (PManifest sample_manifest, 200, [])) as Ho
    by (vm_compute; reflexivity).
  destruct (PUTManifest in_memory no_absent r sample_server) as [s' o] eqn:Hput. exists s'.
  apply (PUTManifest_kept (H := C) in_memory no_absent r r sample_server s' sample_manifest []).
  - by intros st u w w' [= <-].
  - rewrite Hput. cbn [snd] in Ho. by rewrite Ho.
  - reflexivity.
Defined.

Lemma GETDeployQueue_panics_witness :
  let evs := [EvPush "a" sample_r11n; EvReceive] in
  ∃ rq, run evs (NewR11nQueue 10) = Some rq ∧
    GETDeployQueue_Exchange (Ok sample_did) {[sample_did := rq]} unfinished = None.
Proof.
  intros evs. assert (fresh_ids evs) as Hf by (apply (bool_decide_unpack _); vm_compute; exact I).
  destruct (run evs (NewR11nQueue 10)) as [rq|] eqn:Hr; [|vm_compute in Hr; discriminate].
  exists rq. split; [done|]. destruct (run_facts _ _ _ Hf Hr) as (Hi&Hcap&_&HP).
  rewrite (GETDeployQueue_panics 10 evs rq sample_did {[sample_did := rq]} unfinished Hf Hr).
  - vm_compute in Hr. injection Hr as <-. reflexivity.
  - apply lookup_singleton_eq.
  - split; [by apply unfinished_perm|]. apply unfinished_sorted; [done|done|].
    rewrite Hcap. unfold MaxRefsPerR11nQueue. lia.
Defined.

Lemma GETR11n_waited_witness :
  let evs := [EvPush "a" sample_r11n; EvReceive; EvPopped; EvHandle sample_resolution; EvRetire] in
  let rawQuery := Encode (item_query sample_did "a") +:+ "&wait=true" in
  ∃ rq pos, run evs (NewR11nQueue 10) = Some rq ∧ pos < 0 ∧
    let q := mkR11nQueueSet {[sample_did := rq]} 10 in
    GETR11n_Exchange rawQuery q q = Some (reply (PR11n pos (Some sample_resolution)) 200).
Proof.
  intros evs rawQuery. assert (fresh_ids evs) as Hf by (apply (bool_decide_unpack _); vm_compute; exact I).
  destruct (run evs (NewR11nQueue 10)) as [rq|] eqn:Hr; [|vm_compute in Hr; discriminate].
  pose (q := mkR11nQueueSet {[sample_did := rq]} 10).
  assert (ids rq = ["a"] ∧ length (heap rq) = 1%nat ∧ finished rq = 1%nat) as (Hids&Hlen&Hfin)
    by (vm_compute in Hr; injection Hr as <-; by vm_compute).
  destruct (GETR11n_waited 10 evs [] rq rq 0%nat "a" sample_did rawQuery q q) as [_ Hw]; try exact Hf; try exact Hr.
  - unfold MaxRefsPerR11nQueue. lia.
  - by rewrite Hids.
  - rewrite Hlen. unfold MaxRefsPerR11nQueue. lia.
  - rewrite Hlen. unfold MaxRefsPerR11nQueue. lia.
  - apply lookup_singleton_eq.
  - apply lookup_singleton_eq.
  - vm_compute. reflexivity.
  - vm_compute. reflexivity.
  - vm_compute. reflexivity.
  - destruct Hw as (pos&dr&Hdr&Hpos&Hget); [lia|]. exists rq, pos. split; [done|]. split; [done|].
    cbn in Hdr. injection Hdr as <-. exact Hget.
Defined.
