(* ===== verification/HttpState.v ===== *)
(** * State over HTTP (lib/http_state_manager.go, http_name_inserter.go)

    A state manager that reads and writes through the REST client, with the
    resources it retrieved kept for the updates to come; and the inserter that puts
    artifacts.  With the server's resources on the other end, what they do is
    followed from one end to the other. *)

From S2P Require Import Prelude GoStrings Flaw Semv Ids Startup DeployConfig CMap.
From S2P Require Import Deployment Samples State Differ StateManagers R11nQueue.
From S2P Require Import PutBack GoUrl Restful Server.
#[local] Open Scope string_scope.
#[local] Open Scope Z_scope.
#[local] Open Scope list_scope.

(** [encoding/json] on what is sent and received: unmarshalling into a receiver
    gives its value, the JSON it marshals to again, and an error. *)
Class ClientCodec := {
  receive_Defs : option json → Defs * json * option text;
  receive_GDM : option json → list (option Deployment) * json * option text;
  send_GDM : list Deployment → json;
  send_Artifact : string → list Quality → json
}.

Inductive hsm_error : Type :=
| HsmClient (e : client_error)
| HsmState (e : state_error)
| InvalidUpdate (flaws : list text)
| NoClusterByName (clusterName : string).

Section Manager.
Context `{ClientCodec} {W : Type}.
Context (perm : Deployments → order).

(** [LiveHTTPClient]. *)
Record HTTPClient := mkHTTPClient {
  transport : request → W → W * result text response;
  commonHeaders : Values;
  serverHost : string
}.

(** The state that was cached is only ever written. *)
Record HTTPStateManager := mkHSM {
  gdmState : option resourceState;
  hsm_client : HTTPClient;
  clusterClients : gmap string HTTPClient;
  clusterUpdaters : gmap string resourceState;
  hsm_User : SousUser
}.

Definition NewHTTPStateManager (client : HTTPClient) (clusterClients : gmap string HTTPClient) : HTTPStateManager :=
  mkHSM None client clusterClients ∅ (mkSousUser "" "").

Definition set_gdmState (rs : resourceState) (h : HTTPStateManager) : HTTPStateManager :=
  mkHSM (Some rs) (hsm_client h) (clusterClients h) (clusterUpdaters h) (hsm_User h).
Definition set_User (u : SousUser) (h : HTTPStateManager) : HTTPStateManager :=
  mkHSM (gdmState h) (hsm_client h) (clusterClients h) (clusterUpdaters h) u.
Definition set_updater (cn : string) (rs : resourceState) (h : HTTPStateManager) : HTTPStateManager :=
  mkHSM (gdmState h) (hsm_client h) (clusterClients h) (<[cn := rs]> (clusterUpdaters h)) (hsm_User h).

(** What an operation leaves and returns; [None] is a panic. *)
Abbreviation op A := (HTTPStateManager → W → HTTPStateManager * W * option (result hsm_error A)).

Definition retrieve {A} (c : HTTPClient) (zero : A) (receive : option json → A * json * option text) (path : string)
    (headers : gmap string string) (w : W) : W * option (A * result client_error resourceState) :=
  Retrieve (transport c) (commonHeaders c) (serverHost c) zero receive path None headers w.

Definition update (c : HTTPClient) (rs : resourceState) (body : json) (headers : gmap string string) (w : W) :
    W * option (() * result client_error resourceState) :=
  Update (transport c) (commonHeaders c) (serverHost c) rs body headers w.

Definition zeroDefs : Defs := mkDefs "" ∅ [] [] [].

Definition getDefs : op Defs := λ h w,
  let '(w, r) := retrieve (hsm_client h) zeroDefs receive_Defs "./defs" (HTTPHeaders (hsm_User h)) w in
  (h, w, '(ds, e) ← r; Some (match e with Err e => Err (HsmClient e) | Ok _ => Ok ds end)).

(** [manifests]: of deployments with one ID the first is kept; a nil one panics. *)
Definition gdm_manifests (defs : Defs) (ds : list (option Deployment)) : option (result hsm_error Manifests) :=
  ds ← mapM id ds;
  let deps := foldl (λ m d, (add d m).1) (∅ : Deployments) ds in
  Some (map_err HsmState (RawManifests defs (perm deps))).

Definition getManifests (defs : Defs) : op Manifests := λ h w,
  let '(w, r) := retrieve (hsm_client h) [] receive_GDM "./gdm" (HTTPHeaders (hsm_User h)) w in
  match r with
  | None => (h, w, None)
  | Some (_, Err e) => (h, w, Some (Err (HsmClient e)))
  | Some (ds, Ok state) => (set_gdmState state h, w, gdm_manifests defs ds)
  end.

Definition hsm_ReadState : op State := λ h w,
  let '(h, w, r) := getDefs h w in
  match r with
  | None => (h, w, None)
  | Some (Err e) => (h, w, Some (Err e))
  | Some (Ok defs) =>
      let '(h, w, r) := getManifests defs h w in
      (h, w, r ← r; Some (match r with Err e => Err e | Ok ms => Ok (State_Clone (mkState defs ms None)) end))
  end.

Definition wrapDeployments (ds : Deployments) : list Deployment := (perm ds).*2.

(** What the update returns, a newer state of the resource, is not kept. *)
Definition putDeployments (new : Deployments) : op () := λ h w,
  match gdmState h with
  | None => (h, w, None)
  | Some rs =>
      let '(w, r) := update (hsm_client h) rs (send_GDM (wrapDeployments new)) (HTTPHeaders (hsm_User h)) w in
      (h, w, '(_, e) ← r; Some (match e with Err e => Err (HsmClient e) | Ok _ => Ok () end))
  end.

Definition hsm_WriteState (s : State) (u : SousUser) : op () := λ h w,
  let h := set_User u h in
  match State_Validate s with
  | _ :: _ as flaws => (h, w, Some (Err (InvalidUpdate flaws)))
  | [] =>
      let '(h, w, r) := match gdmState h with
                        | None => hsm_ReadState h w
                        | Some _ => (h, w, Some (Ok s))
                        end in
      match r with
      | None => (h, w, None)
      | Some (Err e) => (h, w, Some (Err e))
      | Some (Ok _) =>
          match State_Deployments s with
          | Err e => (h, w, Some (Err (HsmState e)))
          | Ok wds => putDeployments wds h w
          end
      end
  end.

Definition hsm_ReadCluster (clusterName : string) : op Deployments := λ h w,
  match clusterClients h !! clusterName with
  | None => (h, w, Some (Err (NoClusterByName clusterName)))
  | Some client =>
      let '(w, r) := retrieve client [] receive_GDM "./state/deployments" ∅ w in
      match r with
      | None => (h, w, None)
      | Some (_, Err e) => (h, w, Some (Err (HsmClient e)))
      | Some (ds, Ok up) => (set_updater clusterName up h, w, deps ← NewDeployments ds; Some (Ok deps))
      end
  end.

(** The updater of the cluster, with the client that made it. *)
Definition with_updater (clusterName : string) (k : HTTPClient → resourceState → op ()) : op () := λ h w,
  match clusterClients h !! clusterName, clusterUpdaters h !! clusterName with
  | Some c, Some up => k c up h w
  | _, _ => (h, w, None)
  end.

Definition hsm_WriteCluster (clusterName : string) (deps : Deployments) (user : SousUser) : op () := λ h w,
  let put := with_updater clusterName (λ c up h w,
    let '(w, r) := update c up (send_GDM (wrapDeployments deps)) (HTTPHeaders user) w in
    match r with
    | None => (h, w, None)
    | Some (_, Err e) => (h, w, Some (Err (HsmClient e)))
    | Some (_, Ok up) => (set_updater clusterName up h, w, Some (Ok ()))
    end) in
  match clusterUpdaters h !! clusterName with
  | Some _ => put h w
  | None =>
      let '(h, w, r) := hsm_ReadCluster clusterName h w in
      match r with
      | None => (h, w, None)
      | Some (Err e) => (h, w, Some (Err e))
      | Some (Ok _) => put h w
      end
  end.

(** ** The inserter (http_name_inserter.go) *)

Definition SourceID_QueryValues (sid : SourceID) : Values :=
  <["version" := [Semv.String (sid_Version sid)]]>
    (<["offset" := [Dir (Ids.Location sid)]]> {["repo" := [Repo (Ids.Location sid)]]}).

(** The request has the headers that [http.NewRequest] gives it, none. *)
Definition HTTPNameInserter_Insert (send : request → W → W * result text response) (host : string)
    (sid : SourceID) (name etag : string) (qs : list Quality) (w : W) : W * option client_error :=
  let rq := mkRequest "PUT" "./artifact" (Encode (SourceID_QueryValues sid)) host ∅ (Some (send_Artifact name qs)) in
  let '(w, rz) := send rq w in
  (w, match rz with
      | Err t => Some (Unreachable t)
      | Ok rz => if (200 <=? rz_code rz) && (rz_code rz <? 300) then None else Some (BadStatus (rz_code rz))
      end).
End Manager.
Arguments HTTPClient : clear implicits.
Arguments HTTPStateManager : clear implicits.

(** ** Properties *)

(** *** The inserter against the server *)

(** The server refuses every insert of the inserter: it puts without saying what
    it expects to be there, and a put without a condition is not carried out. *)
Theorem HTTPNameInserter_refused `{ClientCodec, Codec} {W} (digest : json → string) (late : bool)
    (Insert : SourceID → string → string → list Quality → W → W * option text)
    (host : string) (sid : SourceID) (name etag : string) (qs : list Quality) (s : server W) :
  HTTPNameInserter_Insert (to_server digest (ArtifactResource Insert late)) host sid name etag qs s =
    (s, Some (BadStatus 428)).
Proof. reflexivity. Qed.

(** *** Clusters *)

Section Clusters.
Context `{ClientCodec} {W : Type} (perm : Deployments → order).

(** Puts that succeed are answered without a document, as the server answers those of
    deployments. *)
Definition answers_no_document (c : HTTPClient W) : Prop :=
  ∀ rq w w' rz, transport c rq w = (w', Ok rz) → rq_method rq = "PUT" → response_json rz = None.

(** The deployments of a cluster are written once: after a write that
    succeeded the manager holds the response to it, which is no document to put
    changes into, and each later write fails before anything is sent. *)
Theorem hsm_WriteCluster_once (h h' : HTTPStateManager W) (c : HTTPClient W) (clusterName : string)
    (deps deps' : Deployments) (u u' : SousUser) (w w' w2 : W) :
  clusterClients h !! clusterName = Some c → answers_no_document c →
  hsm_WriteCluster perm clusterName deps u h w = (h', w', Some (Ok ())) →
  hsm_WriteCluster perm clusterName deps' u' h' w2 = (h', w2, Some (Err (HsmClient BadOriginal))).
Proof.
  intros Hc Hno Hw.
  assert (∀ h w, clusterClients h !! clusterName = Some c →
    with_updater clusterName (λ c up h w,
      let '(w, r) := update c up (send_GDM (wrapDeployments perm deps)) (HTTPHeaders u) w in
      match r with
      | None => (h, w, None)
      | Some (_, Err e) => (h, w, Some (Err (HsmClient e)))
      | Some (_, Ok up) => (set_updater clusterName up h, w, Some (Ok ()))
      end) h w = (h', w', Some (Ok ())) →
    clusterClients h' !! clusterName = Some c ∧
    ∃ up, clusterUpdaters h' !! clusterName = Some up ∧ rs_body up = None) as Hput.
  { clear w h Hc Hw. intros h w Hc. unfold with_updater. rewrite Hc.
    destruct (clusterUpdaters h !! clusterName) as [up|]; [|done].
    destruct (update c up _ _ w) as [w1 [[[] [up'|]]|]] eqn:Hu; try done.
    intros [= <- <-]. cbn [set_updater clusterClients clusterUpdaters]. split; [done|].
    exists up'. rewrite lookup_insert_eq. split; [done|].
    unfold update, Update, exchange in Hu. destruct (buildRequest _ _ _ _ _ _ _ _) as [[rq|]|] eqn:Hb; try done.
    assert (rq_method rq = "PUT") as Hm.
    { unfold buildRequest, andthen in Hb. destruct (request_body _ _) as [[b|]|]; try done.
      cbn [mbind option_bind] in Hb. by injection Hb as <-. }
    destruct (transport c rq w) as [w2' [rz|]] eqn:Ht; [|done].
    pose proof (Hno _ _ _ _ Ht Hm) as Hj. unfold extractBody, no_receiver in Hu.
    destruct (_ || _) in Hu; [done|]. destruct (_ =? _) in Hu; [done|].
    injection Hu as _ <-. exact Hj. }
  assert (clusterClients h' !! clusterName = Some c ∧
    ∃ up, clusterUpdaters h' !! clusterName = Some up ∧ rs_body up = None) as (Hc'&up&Hup&Hbody).
  { unfold hsm_WriteCluster in Hw. destruct (clusterUpdaters h !! clusterName) as [up|]; [by apply (Hput h w)|].
    unfold hsm_ReadCluster in Hw. rewrite Hc in Hw.
    destruct (retrieve c [] receive_GDM _ _ w) as [w1 [[ds [up|]]|]]; try done.
    destruct (NewDeployments ds) as [d|]; [|done]. cbn [mbind option_bind] in Hw. by apply Hput in Hw. }
  unfold hsm_WriteCluster. rewrite Hup. unfold with_updater. rewrite Hc', Hup.
  unfold update, Update, exchange, buildRequest, request_body. rewrite Hbody. reflexivity.
Qed.

End Clusters.

(** The server does answer so. *)
Lemma state_deployments_no_document `{Codec} {W} (digest : json → string) (perm : Deployments → order)
    (cm : ClusterManager W) rf common host :
  encode PNil = None →
  answers_no_document (mkHTTPClient (to_server digest (StateDeploymentResource perm cm rf)) common host).
Proof.
  intros Hnil rq s s' rz Ht Hm. unfold to_server in Ht. cbn [transport] in Ht.
  destruct (serve digest _ rq s) as [s1 rz1] eqn:Hs. injection Ht as <- <-.
  unfold serve, serve_during in Hs. rewrite Hm, !bool_decide_eq_false_2, bool_decide_eq_true_2 in Hs by done.
  cbn [StateDeploymentResource Putable] in Hs. unfold PutHandling, PutChecks, PutExchange in Hs.
  destruct (_ && _); [by injection Hs as <- <-|]. destruct (synthResponse _ _ _ s) as [s2 grez].
  destruct (precondition rq grez); [by injection Hs as <- <-|]. unfold as_exchange, id in Hs.
  destruct (PUTStateDeployments cm rf rq s2) as [s3 o] eqn:Ho. unfold PUTStateDeployments in Ho.
  assert (o = None ∨ o = reply PError 400 ∨ o = reply PError 500 ∨ o = reply PNil 202) as Hcases.
  { destruct (decode_GDM _) as [ds [?|]]; [injection Ho as _ <-; auto|].
    destruct (NewDeployments ds); [|injection Ho as _ <-; auto].
    destruct (WriteCluster _ _ _ _ _) as [? [?|]]; injection Ho as _ <-; auto. }
  destruct Hcases as [->|[->|[->| ->]]]; cbn in Hs; injection Hs as <- <-; unfold renderData; cbn.
  - done.
  - by destruct (encode PError).
  - by destruct (encode PError).
  - by rewrite Hnil.
Qed.

(** *** From one end to the other *)

(** A transport matters only on the requests that are sent. *)
Lemma exchange_ext {W A} (t1 t2 : request → W → W * result text response) (zero : A) receive path q rq w :
  (∀ rq' w, rq = Some (Ok rq') → t1 rq' w = t2 rq' w) →
  exchange t1 zero receive path q rq w = exchange t2 zero receive path q rq w.
Proof. intros Ht. unfold exchange. destruct rq as [[rq|]|]; [|done..]. by rewrite Ht. Qed.

Lemma buildRequest_path common host method path q headers resource body rq :
  buildRequest common host method path q headers resource body = Some (Ok rq) → rq_path rq = path.
Proof.
  unfold buildRequest, andthen. destruct (request_body resource body) as [[b|]|]; try done.
  cbn [mbind option_bind]. by intros [= <-].
Qed.

Lemma exchange_path {W A} (t : request → W → W * result text response) (zero v : A) receive path q rq w w' rs :
  exchange t zero receive path q rq w = (w', Some (v, Ok rs)) → rs_path rs = path.
Proof.
  unfold exchange. destruct rq as [[rq|]|]; [|done..]. destruct (t rq w) as [w1 [rz|]]; [|done].
  unfold extractBody. destruct (receive _) as [[v1 j] err].
  destruct (_ || _); [done|]. destruct (_ =? _); [done|]. destruct err; [done|]. by intros [= _ _ <-].
Qed.

(** How deployments are written and read in JSON: an array in a field, of which equal
    trees are read alike; those that [fit] are read as they were written. *)
Record json_laws `{Codec, ClientCodec} (fit : list Deployment → Prop) (enc : list Deployment → json)
    (dec : option json → list (option Deployment) * option text) : Prop := {
  law_array : ∀ ds, ∃ l, enc ds = JArray l;
  law_encode : ∀ ds, encode (PGDM ds) = Some (JObject {["Deployments" := enc ds]});
  law_send : ∀ ds, send_GDM ds = JObject {["Deployments" := enc ds]};
  law_decode : ∀ m, decode_GDM (Some (JObject m)) = dec (m !! "Deployments");
  law_receive : ∀ m ds, fit ds → dec (m !! "Deployments") = (Some <$> ds, None) →
    receive_GDM (Some (JObject m)) = (Some <$> ds, JObject {["Deployments" := enc ds]}, None);
  law_roundtrip : ∀ ds, fit ds → dec (Some (enc ds)) = (Some <$> ds, None);
  law_same : ∀ a b, same a b = true → dec (Some a) = dec (Some b)
}.

(** The server reads the user that a client sends. *)
Lemma update_request_user path q common host u etag r :
  GetUser (update_request path q common host (HTTPHeaders u) etag r) = u.
Proof.
  unfold GetUser, update_request. cbn [rq_Header]. destruct u as [n e].
  unfold values_Get, updateHeaders, addIfMatch, HTTPHeaders. cbn [su_Name su_Email].
  rewrite !lookup_union, !lookup_fmap, !(lookup_insert_ne _ "If-Match"), lookup_insert_eq,
    lookup_insert_ne, lookup_singleton_eq by done.
  by destruct (common !! "Sous-User-Name"), (common !! "Sous-User-Email").
Qed.

Section EndToEnd.
Context `{!Codec, !ClientCodec} {W : Type} (perm : Deployments → order) (sm : StateManager W)
  (absent : manager_error → bool) (digest : json → string).
Context (fit : list Deployment → Prop) (enc : list Deployment → json) (dec : option json → list (option Deployment) * option text).
Context (Hlaws : json_laws fit enc dec) (Hperm : ∀ ds, perm ds ≡ₚ map_to_list ds).

Definition two_routes : list (string * Resource (W := server W)) :=
  [("/gdm", GDMResource perm sm absent); ("/defs", StateDefResource sm absent)].

(** What the server decodes of an update is what the client sent. *)
Lemma putback_decodes (l0 l : list Deployment) :
  fit l → ∃ r, applyChanges {["Deployments" := enc l0]} {["Deployments" := enc l]}
         ({["Deployments" := enc l0]} ∪ {[gdm_etag [] := JString "canary"]}) = Some r ∧
    decode_GDM (Some (JObject r)) = (Some <$> l, None).
Proof using Hlaws.
  intros Hfit. destruct (law_array _ _ _ Hlaws l) as [a Ha].
  set (x := if same (enc l0) (enc l) then enc l0 else enc l).
  set (target := {["Deployments" := enc l0]} ∪ {[gdm_etag [] := JString "canary"]}).
  exists (<["Deployments" := x]> target). split.
  - apply applyChanges_spec. intros k. destruct (decide (k = "Deployments")) as [->|Hk].
    + rewrite !lookup_singleton_eq, lookup_insert_eq.
      assert (target !! "Deployments" = Some (enc l0)) as -> by (unfold target; by rewrite lookup_union_l', lookup_singleton_eq by (rewrite lookup_singleton_eq; by eexists)).
      unfold x. rewrite Ha at 1. cbn [put_field]. rewrite <-Ha. by destruct (same _ _).
    + by rewrite !lookup_singleton_ne, lookup_insert_ne by done.
  - rewrite (law_decode _ _ _ Hlaws), lookup_insert_eq. unfold x.
    destruct (same (enc l0) (enc l)) eqn:Hs; [rewrite (law_same _ _ _ Hlaws _ _ Hs)|]; by apply (law_roundtrip _ _ _ Hlaws).
Qed.

Context (common : Values) (host : string).
Context (Hinm : common !! "If-None-Match" = None) (Hetag : common !! "Etag" = None).

Definition to_two_routes : HTTPClient (server W) := mkHTTPClient (mux digest two_routes) common host.

(** Reading the definitions leaves the server as it was. *)
Lemma getDefs_pure h s0 st h1 s1 r :
  ReadState sm (store s0) = (store s0, Ok st) → hsm_client h = to_two_routes →
  getDefs h s0 = (h1, s1, r) → h1 = h ∧ s1 = s0.
Proof using Type.
  intros Hread Hc. unfold getDefs, retrieve. rewrite Hc. cbn [to_two_routes transport commonHeaders serverHost].
  unfold Retrieve, exchange. cbn [buildRequest request_body andthen mbind option_bind].
  unfold two_routes. rewrite mux_tail, mux_head by done. unfold to_server, serve, serve_during. cbn [rq_method].
  rewrite bool_decide_eq_true_2 by done. cbn [StateDefResource synthResponse Getable]. unfold GetHandling, as_exchange, GETStateDefs.
  rewrite (liveState_ok _ _ _ _ _ Hread). cbn [mbind option_bind reply]. rewrite set_store_same.
  destruct (extractBody _ _ _ _) as [ds e]. by intros [= <- <- _].
Qed.

(** What is retrieved of the deploy manifest, and what an update of it does. *)
Lemma retrieved_updates headers s0 v rs (l : list Deployment) (u : SousUser) s1 :
  readable_GDM sm s0 → readable_GDM sm s1 → fit (listed_GDM perm sm s0) → fit l →
  retrieve to_two_routes [] receive_GDM "./gdm" headers s0 = (s0, Some (v, Ok rs)) →
  ∃ rq, decode_GDM (rq_body rq) = (Some <$> l, None) ∧ GetUser rq = u ∧ rq_Header rq !! "Etag" = None ∧
    update to_two_routes rs (send_GDM l) (HTTPHeaders u) s1 =
      let '(s2, x) := as_exchange (PUTGDM perm sm absent) rq s1 in
      (s2, Some (extractBody no_receiver "./gdm" None (put_response digest x))).
Proof using Hlaws Hinm Hetag.
  intros Hok0 Hok1 Hfit0 Hfit Hret. set (res := GDMResource perm sm absent).
  set (view := λ ds : list Deployment, {["Deployments" := enc ds]} : gmap string json).
  pose proof (GDM_shows perm sm absent view "./gdm" None (law_encode _ _ _ Hlaws)) as Hshow. fold res in Hshow.
  destruct (putback_decodes (listed_GDM perm sm s0) l Hfit) as (r&Happ&Hdec).
  assert (∀ m rq w, rq_path rq = "./gdm" → mux digest (("/gdm", res) :: m) rq w = to_server digest res rq w) as Hmux
    by (intros; by apply mux_head).
  edestruct (Update_sent (A := list (option Deployment)) digest res (readable_GDM sm) (λ s, view (listed_GDM perm sm s)) (λ _, Some (gdm_etag []))
    "./gdm" None (as_exchange (PUTGDM perm sm absent)) common host [] (Some <$> listed_GDM perm sm s0) receive_GDM
    (view (listed_GDM perm sm s0)) (view l) r headers (HTTPHeaders u) s0) as (rs'&Hr&Hu);
    [exact Hshow|reflexivity|exact Hok0|done| | | | | |exact Happ|reflexivity|exact Hinm|].
  - unfold view. intros He. by apply map_non_empty_singleton in He.
  - unfold view, etag_of. cbn. by rewrite lookup_singleton_ne.
  - unfold canary, etag_of, view. cbn [from_option id]. apply (law_receive _ _ _ Hlaws); [done|].
    rewrite lookup_union_l', lookup_singleton_eq by (rewrite lookup_singleton_eq; by eexists).
    by apply (law_roundtrip _ _ _ Hlaws).
  - unfold view, etag_of. cbn. by rewrite lookup_singleton_ne.
  - unfold view, etag_of. cbn. by rewrite lookup_singleton_ne.
  - assert (rs' = rs) as ->.
    { unfold retrieve, Retrieve in Hret. cbn [to_two_routes transport commonHeaders serverHost] in Hret.
      unfold Retrieve in Hr. rewrite (exchange_ext _ (to_server digest res)) in Hret.
      - rewrite Hr in Hret. congruence.
      - intros rq w Hb. apply Hmux. by eapply buildRequest_path. }
    exists (update_request "./gdm" None common host (HTTPHeaders u) (gdm_etag []) r). split_and!.
    + exact Hdec.
    + apply update_request_user.
    + unfold update_request, updateHeaders, addIfMatch, HTTPHeaders. cbn [rq_Header].
      rewrite lookup_union, lookup_fmap, !lookup_insert_ne, lookup_singleton_ne, Hetag by done. reflexivity.
    + unfold update. cbn [to_two_routes transport commonHeaders serverHost].
      assert (rs_path rs = "./gdm") as Hpath.
      { exact (exchange_path _ _ _ _ _ _ _ _ _ _ Hr). }
      specialize (Hu s1 Hok1 ltac:(unfold view; intros He; by apply map_non_empty_singleton in He)).
      rewrite (law_send _ _ _ Hlaws). fold (view l). unfold Update in *.
      rewrite (exchange_ext _ (to_server digest res)).
      * rewrite Hu. unfold etag_of. by rewrite decide_True.
      * intros rq w Hb. apply Hmux. rewrite <-Hpath. by eapply buildRequest_path.
Qed.

(** C11.  The last writer wins, over HTTP: a manager that read the state of the server
    at one time writes all its deployments at any later one, over manifests that it
    has not seen, and is told of success. *)
Theorem hsm_last_writer_wins (h0 h1 : HTTPStateManager (server W)) (s0 s0' s1 : server W)
    (st1 stA st : State) (wds : Deployments) (ms : Manifests) (u : SousUser) (w2 : W) :
  hsm_client h0 = to_two_routes → readable_GDM sm s0 → hsm_ReadState perm h0 s0 = (h1, s0', Some (Ok stA)) →
  readable_GDM sm s1 → ReadState sm (store s1) = (store s1, Ok st1) →
  State_Validate st = [] → State_Deployments st = Ok wds → keyed wds →
  fit (listed_GDM perm sm s0) → fit (wrapDeployments perm wds) →
  PutbackManifests (st_Defs st1) (st_Manifests st1) (perm wds) = Ok ms →
  State_Validate (mkState (st_Defs st1) ms (etag st1)) = [] →
  WriteState sm (mkState (st_Defs st1) ms (etag st1)) u (store s1) = (w2, None) →
  hsm_WriteState perm st u h1 s1 = (set_User u h1, set_store w2 s1, Some (Ok ())).
Proof using Hlaws Hperm Hinm Hetag.
  intros Hc Hok0 Hr Hok1 Hread1 Hval Hwds Hk Hfit0 Hfit Hms Hval1 Hw.
  destruct Hok0 as (st0&deps0&Hread0&Hdeps0).
  unfold hsm_ReadState in Hr. destruct (getDefs h0 s0) as [[h s] [[defs|]|]] eqn:Hdefs; try done.
  apply (getDefs_pure h0 s0 st0) in Hdefs as [-> ->]; [|done|done].
  unfold getManifests in Hr. rewrite Hc in Hr.
  destruct (retrieve to_two_routes _ _ _ _ s0) as [s0'' [[v [rs|]]|]] eqn:Hret; try done.
  injection Hr as <- <- _.
  assert (s0'' = s0) as ->.
  { unfold retrieve, Retrieve, exchange in Hret. cbn [buildRequest request_body andthen mbind option_bind] in Hret.
    cbn [to_two_routes transport] in Hret. unfold two_routes in Hret. rewrite mux_head in Hret by done.
    destruct (to_server _ _ _ s0) as [s [rz|]] eqn:Ht; [|done].
    assert (s = s0) as ->; [|by injection Hret as <- _]. unfold to_server, serve, serve_during in Ht. cbn [rq_method] in Ht.
    rewrite bool_decide_eq_true_2 in Ht by done. cbn [GDMResource synthResponse Getable] in Ht.
    unfold GetHandling, as_exchange, GETGDM in Ht. rewrite (liveState_ok _ _ _ _ _ Hread0) in Ht.
    rewrite set_store_same in Ht. destruct (GETGDM_Exchange perm (Some st0)) as [[[p c] hs]|]; by injection Ht as <- _. }
  destruct (retrieved_updates _ s0 v rs (wrapDeployments perm wds) u s1 ltac:(by exists st0, deps0) Hok1 Hfit0 Hfit Hret)
    as (rq&Hdec&Hu&Hhdr&Hupd).
  unfold hsm_WriteState. rewrite Hval. cbn [set_User set_gdmState gdmState]. rewrite Hwds.
  unfold putDeployments. cbn [set_User set_gdmState gdmState hsm_client hsm_User]. rewrite Hc, Hupd.
  unfold as_exchange, PUTGDM. rewrite (liveState_ok _ _ _ _ _ Hread1). unfold PUTGDM_Exchange. rewrite Hdec.
  rewrite (NewDeployments_values wds) by (done || by unfold wrapDeployments; rewrite Hperm).
  rewrite Hread1, Hms, Hval1, Hhdr, Hu, Hw. unfold reply, put_response. cbn [x_status x_headers x_data].
  unfold extractBody, no_receiver. rewrite renderData_code. reflexivity.
Qed.
End EndToEnd.

(** ** Witnesses *)

(** Arrays that tell only how many deployments there are, for those of the sample. *)
Definition sample_enc (ds : list Deployment) : json := JArray (const JNull <$> ds).
Definition sample_dec (j : option json) : list (option Deployment) * option text :=
  match j with
  | Some (JArray []) => ([], None)
  | Some (JArray [_]) => (Some <$> sample_expanded, None)
  | _ => ([], Some (Lit "bad"))
  end.
Definition sample_fit (ds : list Deployment) : Prop := ds = [] ∨ ds = sample_expanded.
Definition sample_field (ds : list Deployment) : json := JObject {["Deployments" := sample_enc ds]}.

Definition http_codec : Codec := {|
  decode_GDM b := match b with Some (JObject m) => sample_dec (m !! "Deployments") | _ => ([], Some (Lit "bad")) end;
  decode_Manifest _ := (sample_manifest, None);
  decode_Single _ := (None, None);
  decode_Artifact _ := (("image", []), None);
  decode_Servers _ := ([], None);
  encode p := match p with PGDM ds => Some (sample_field ds) | PNil => None | _ => Some (JObject {["x" := JNull]}) end;
  spec_json _ := "{}";
  dep_String _ := "";
  sha512_base64 s := s
|}.

Definition http_client_codec : ClientCodec := {|
  receive_Defs _ := (sample_defs, JNull, None);
  receive_GDM b :=
    match b with
    | Some (JObject m) =>
        let '(ds, e) := sample_dec (m !! "Deployments") in (ds, sample_field (omap id ds), e)
    | _ => ([], JNull, Some (Lit "bad"))
    end;
  send_GDM := sample_field;
  send_Artifact _ _ := JNull
|}.

Lemma sample_laws : @json_laws http_codec http_client_codec sample_fit sample_enc sample_dec.
Proof.
  split; try done.
  - intros ds. by eexists.
  - intros m ds _ Hd. cbn. rewrite Hd.
    assert (omap id (Some <$> ds) = ds) as ->; [|done].
    clear Hd. induction ds as [|d ds IH]; [done|]. cbn. f_equal. exact IH.
  - intros ds [->| ->]; [done|]. reflexivity.
  - intros a b. destruct a as [| | | |[|x [|y l]]|], b as [| | | |[|x' [|y' l']]|]; try done; cbn;
      rewrite ?andb_false_r; done.
Qed.

Lemma hsm_WriteCluster_once_witness :
  let c : HTTPClient () := mkHTTPClient (λ rq w, (w, Ok (mkResponse 200 ∅
      (if bool_decide (rq_method rq = "PUT") then BodyText else BodyJSON (sample_field []))))) ∅ "h" in
  let h := @NewHTTPStateManager () c {["ci-sf" := c]} in
  let C := http_client_codec in
  ∃ h', hsm_WriteCluster map_to_list "ci-sf" ∅ (mkSousUser "a" "b") h () = (h', (), Some (Ok ())) ∧
    hsm_WriteCluster map_to_list "ci-sf" ∅ (mkSousUser "a" "b") h' () = (h', (), Some (Err (HsmClient BadOriginal))).
Proof.
  intros c h C. destruct (hsm_WriteCluster map_to_list "ci-sf" ∅ (mkSousUser "a" "b") h ()) as [[h' []] r] eqn:Hw.
  assert (r = Some (Ok ())) as -> by (vm_compute in Hw; congruence). exists h'. split; [done|].
  apply (hsm_WriteCluster_once (H := C) map_to_list h h' c "ci-sf" ∅ ∅ (mkSousUser "a" "b") (mkSousUser "a" "b") () () ());
    [apply lookup_singleton_eq| |exact Hw].
  intros rq [] [] rz [= <-] Hm. unfold response_json. cbn [rz_body]. by rewrite bool_decide_eq_true_2.
Defined.

Lemma hsm_last_writer_wins_witness :
  let C := http_codec in let C' := http_client_codec in
  let empty := mkState sample_defs ∅ None in
  let c := to_two_routes map_to_list in_memory no_absent (λ _, "") ∅ "h" in
  let s0 := mkServer empty (NewR11nQueueSet 10) None in
  ∃ h1 ms, (hsm_WriteState map_to_list empty (mkSousUser "a" "b") h1 sample_server) =
    (set_User (mkSousUser "a" "b") h1, set_store (mkState sample_defs ms (Some "etag-1")) sample_server, Some (Ok ())) ∧
    ms = ∅ ∧ (hsm_ReadState map_to_list (NewHTTPStateManager c ∅) s0).1.1 = h1.
Proof.
  intros C C' empty c s0.
  assert ((hsm_ReadState map_to_list (NewHTTPStateManager c ∅) s0).2 = Some (Ok (State_Clone empty))) as Hr
    by (vm_compute; reflexivity).
  destruct (hsm_ReadState map_to_list (NewHTTPStateManager c ∅) s0) as [[h1 s0'] r] eqn:Hread. cbn [snd] in Hr.
  rewrite Hr in Hread. exists h1, ∅. split_and!; [|done|done].
  apply (hsm_last_writer_wins (H := C) (H0 := C') map_to_list in_memory no_absent (λ _, "")
    sample_fit sample_enc sample_dec sample_laws (λ _, Permutation_refl _) ∅ "h" (lookup_empty _) (lookup_empty _)
    (NewHTTPStateManager c ∅) h1 s0 s0' sample_server sample_state (State_Clone empty) empty ∅ ∅
    (mkSousUser "a" "b") (mkState sample_defs ∅ (Some "etag-1"))); try reflexivity.
  - exists empty, ∅. split; [reflexivity|vm_compute; reflexivity].
  - exact Hread.
  - destruct (canonical_deployments _ sample_state_canonical) as (deps&Hd&_). exists sample_state, deps. split; [reflexivity|exact Hd].
  - apply keyed_empty.
  - left. vm_compute. reflexivity.
  - left. reflexivity.
Defined.
