(* ===== verification/Rectification.v ===== *)
(** * Rectifications (lib/rectification.go, the handler of graph/server.go)

    A rectification applies its pair once, in a goroutine of its own: it finds the
    artifact if the pair has none, has the deployer rectify, and then polls the
    deployer until the deployment is final or twenty minutes have passed.  The
    goroutine, the clock and the rest of the world are a transition system. *)

From S2P Require Import Prelude GoStrings Flaw Semv Ids Startup DeployConfig CMap Deployment.
From S2P Require Import Samples State Differ ResolveFilter ResolveErrors R11nQueue Resolver StateManagers.
#[local] Open Scope string_scope.
#[local] Open Scope Z_scope.
#[local] Open Scope list_scope.

(** ** The deployer *)

(** The operations of a deployer that change the world.  The pair is passed by
    reference; [None] is a panic.  The state may be a nil pointer. *)
Record DeployerOps (W : Type) := mkDeployerOps {
  do_Rectify : DeployablePair → W → W * option (DeployablePair * DiffResolution);
  do_Status : Clusters → DeployablePair → W → W * option (DeployablePair * result err (option DeployState))
}.
Arguments mkDeployerOps {W}.
Arguments do_Rectify {W}.
Arguments do_Status {W}.

(** ** Operations *)

Definition set_Error (e : ErrorWrapper) (r : DiffResolution) : DiffResolution :=
  mkDiffResolution (rez_DeploymentID r) (rez_Desc r) (Some e) (rez_DeployState r) (rez_SchedulerURL r).
Definition set_DeployState (s : DeployState) (r : DiffResolution) : DiffResolution :=
  mkDiffResolution (rez_DeploymentID r) (rez_Desc r) (rez_Error r) (Some s) (rez_SchedulerURL r).
Definition on_Resolution (f : DiffResolution → DiffResolution) (r : Rectification) : Rectification :=
  mkRectification (r_Pair r) (f (r_Resolution r)).

Definition zeroDeployState : DeployState :=
  mkDeployState (mkDeployment zeroConfig "" None (mkSourceID zeroLocation zeroVersion) "" ∅ "")
    DeployStatusAny "" NoData "".

Definition tick_period : Z := 250.
Definition end_timeout : Z := 20 * 60 * 1000.

Section Rectification.
Context `{Registry} {W : Type} (d : DeployerOps W).
(** [Error], with what it renders messages with. *)
Context (sprintf : string → list shown → string).

(** [rectify]; [None] is a panic. *)
Definition rectify (r : Rectification) (w : W) : W * option Rectification :=
  let apply (p : DeployablePair) :=
    let '(w, o) := do_Rectify d p w in
    (w, '(p, rez) ← o; Some (mkRectification p rez)) in
  match Post (r_Pair r) with
  | None => (w, None)
  | Some post =>
      match dep_BuildArtifact post with
      | Some _ => apply (r_Pair r)
      | None =>
          match HandlePairs (r_Pair r) with
          | None => (w, None)
          | Some (passed, diff) =>
              match diff ≫= rez_Error with
              | Some e => (w, Some (on_Resolution (set_Error (WrapResolveError (EWrapper e))) r))
              | None =>
                  match passed with
                  | Some p => apply p
                  | None =>
                      (w, Some (on_Resolution (set_Error (WrapResolveError (plain_error
                        (Lit "Unknown Error Occurred, no resolve error and no pair present")))) r))
                  end
              end
          end
      end
  end.

(** The resolution of a deployment that is final: the message of the executor is
    made part of the error of one that failed. *)
Definition settle (s : DeployState) (r : DiffResolution) : DiffResolution :=
  let r := set_DeployState s r in
  if bool_decide (ds_Status s ≠ DeployStatusActive) && bool_decide (ExecutorMessage s ≠ "")
  then set_Error (wrap (plain_error
         (match rez_Error r with
          | None => errorf "%s" [AStr (ExecutorMessage s)]
          | Some e => errorf "%s:%s" [AStr (Error sprintf (EWrapper e)); AStr (ExecutorMessage s)]
          end))) r
  else r.

Definition timed_out (r : DiffResolution) : DiffResolution :=
  match rez_DeployState r with
  | None => set_DeployState zeroDeployState r
  | Some _ => r
  end.

(** What a poll comes to. *)
Inductive polled : Type :=
| PollPanic
| PollError (r : Rectification)
| PollFinal (r : Rectification)
| PollAgain (r : Rectification).

(** [pollOnce] and what [awaitDone] makes of it. *)
Definition poll (clusters : Clusters) (r : Rectification) (w : W) : W * polled :=
  let '(w, o) := do_Status d clusters (r_Pair r) w in
  (w, match o with
      | None => PollPanic
      | Some (p, rs) =>
          let r := mkRectification p (r_Resolution r) in
          match rs with
          | Err e => PollError (on_Resolution (set_Error (wrap e)) r)
          | Ok None => PollPanic
          | Ok (Some s) =>
              if Final s then
                match Post p with
                | None => PollPanic
                | Some post =>
                    if SourceID_Equal (d_SourceID (ds_Deployment s)) (d_SourceID (dep_Deployment post))
                    then PollFinal (on_Resolution (settle s) r)
                    else PollAgain r
                end
              else PollAgain r
          end
      end).

(** ** The goroutine *)

(** Where it is: not started, in [rectify], about to read the state, about to
    poll, in the select, done; or it panicked, and the program with it. *)
Inductive phase : Type :=
| Fresh
| Starting
| Reading
| ToPoll (clusters : Clusters)
| Selecting (clusters : Clusters)
| Ended
| Crashed.

(** [clock] is in milliseconds; [since] is when the ticker and the timeout were
    started, [ticked] how often the former has fired, and [tick] whether its
    channel, of capacity one, has a tick.  [polls] counts polls. *)
Record goroutine := mkGoroutine {
  g_r11n : Rectification;
  g_phase : phase;
  g_world : W;
  clock : Z;
  since : Z;
  ticked : Z;
  tick : bool;
  polls : nat
}.

Definition at_ (ph : phase) (r : Rectification) (w : W) (g : goroutine) : goroutine :=
  mkGoroutine r ph w (clock g) (since g) (ticked g) (tick g) (polls g).

(** [GoPass]: time passes, and what others do to the world; the other events are
    those of the goroutine, and [GoBegin] is the call of [Begin]. *)
Inductive go_event : Type :=
| GoBegin
| GoRectify
| GoRead
| GoPoll
| GoTick
| GoTimeout
| GoPass (ms : nat) (w : W).

Context (sm : StateManager W) (rf : ResolveFilter).
(** The error of a state manager, among those of a resolution. *)
Context (as_err : manager_error → err).

Definition go_step (ev : go_event) (g : goroutine) : option goroutine :=
  let r := g_r11n g in
  match ev, g_phase g with
  | GoBegin, Fresh => Some (at_ Starting r (g_world g) g)
  | GoBegin, _ => Some g
  | GoRectify, Starting =>
      let '(w, o) := rectify r (g_world g) in
      Some (match o with
            | None => at_ Crashed r w g
            | Some r => at_ Reading r w g
            end)
  | GoRead, Reading =>
      let '(w, s) := ReadState sm (g_world g) in
      Some (match s with
            | Err e => at_ Ended (on_Resolution (set_Error (WrapResolveError (as_err e))) r) w g
            | Ok s =>
                let clusters := FilteredClusters rf (defs_Clusters (st_Defs s)) in
                mkGoroutine r (ToPoll clusters) w (clock g) (clock g) 0 false 0
            end)
  | GoPoll, ToPoll clusters =>
      let '(w, o) := poll clusters r (g_world g) in
      let g := mkGoroutine r (g_phase g) w (clock g) (since g) (ticked g) (tick g) (S (polls g)) in
      Some (match o with
            | PollPanic => at_ Crashed r w g
            | PollError r => at_ Ended r w g
            | PollFinal r => at_ Ended r w g
            | PollAgain r => at_ (Selecting clusters) r w g
            end)
  | GoTick, Selecting clusters =>
      if tick g
      then Some (mkGoroutine r (ToPoll clusters) (g_world g) (clock g) (since g) (ticked g) false (polls g))
      else None
  | GoTimeout, Selecting clusters =>
      if since g + end_timeout <=? clock g
      then Some (at_ Ended (on_Resolution timed_out r) (g_world g) g)
      else None
  | GoPass ms w, _ =>
      let now := clock g + Z.of_nat ms in
      let fired := (now - since g) / tick_period in
      Some (mkGoroutine r (g_phase g) w now (since g) (Z.max (ticked g) fired)
              (tick g || bool_decide (ticked g < fired)) (polls g))
  | _, _ => None
  end.

Definition go_run (evs : list go_event) (g : goroutine) : option goroutine :=
  foldl (λ g ev, g ← g; go_step ev g) (Some g) evs.

Definition go_init (p : DeployablePair) (w : W) : goroutine :=
  mkGoroutine (NewRectification p) Fresh w 0 0 0 false 0.

(** [Wait]: [None] while it waits. *)
Definition r11n_Wait (g : goroutine) : option DiffResolution :=
  match g_phase g with Ended => Some (r_Resolution (g_r11n g)) | _ => None end.
End Rectification.
Arguments goroutine : clear implicits.
Arguments go_event : clear implicits.

(** ** Properties *)

Section Properties.
Context `{Registry} {W : Type} (d : DeployerOps W) (sprintf : string → list shown → string).
Context (sm : StateManager W) (rf : ResolveFilter) (as_err : manager_error → err).

Abbreviation step := (go_step d sprintf sm rf as_err).
Abbreviation run := (go_run d sprintf sm rf as_err).

(** An invariant of the goroutine, by induction on its runs. *)
Lemma go_run_ind (I : goroutine W → Prop) p w :
  I (go_init p w) → (∀ g ev g', I g → step ev g = Some g' → I g') →
  ∀ evs g, run evs (go_init p w) = Some g → I g.
Proof using.
  intros H0 Hstep evs. induction evs as [|ev evs IH] using rev_ind; intros g.
  { by intros [= <-]. }
  unfold go_run. rewrite foldl_app. cbn [foldl]. fold (run evs (go_init p w)).
  destruct (run evs (go_init p w)) as [g0|] eqn:Hg; [|done]. cbn [mbind option_bind].
  intros Hs. by apply (Hstep g0 ev), Hs; auto.
Qed.

(** *** How often it polls *)

(** The polls made, with the one it is about to make and the one that a tick in
    the channel allows. *)
Definition poll_budget (g : goroutine W) : Prop :=
  let t := if tick g then 1 else 0 in
  match g_phase g with
  | ToPoll _ => Z.of_nat (polls g) + t ≤ ticked g
  | Selecting _ => Z.of_nat (polls g) + t ≤ 1 + ticked g
  | Fresh | Starting | Reading => polls g = 0%nat
  | Ended | Crashed => Z.of_nat (polls g) ≤ 1 + ticked g
  end ∧ 0 ≤ ticked g ∧ since g ≤ clock g ∧ ticked g ≤ (clock g - since g) / tick_period.

Lemma poll_budget_pass ms w g : poll_budget g →
  ∀ g', step (GoPass ms w) g = Some g' → poll_budget g'.
Proof using.
  intros (Hp&Ht&Hc&Hk) g'. cbn [go_step].
  assert ((clock g - since g) / tick_period ≤ (clock g + Z.of_nat ms - since g) / tick_period) as Hm
    by (apply Z.div_le_mono; unfold tick_period; lia).
  set (fired := (clock g + Z.of_nat ms - since g) / tick_period) in *.
  destruct (g_phase g) eqn:Hph; intros [= <-]; unfold poll_budget; cbn; rewrite ?Hph in *;
    (split; [|lia]); try lia; destruct (tick g); cbn; try case_bool_decide; lia.
Qed.

Lemma poll_budget_step g ev g' : poll_budget g → step ev g = Some g' → poll_budget g'.
Proof using.
  destruct ev; [..|by intros; eapply poll_budget_pass]; unfold poll_budget; intros (Hp&Ht&Hc&Hk) Hs.
  all: simpl in Hs; destruct (g_phase g) eqn:Hph; try discriminate Hs; unfold tick_period in *.
  all: repeat case_match; simplify_eq; cbn [at_ g_phase polls ticked tick since clock] in *.
  all: rewrite ?Hph, ?Z.sub_diag in *; split_and?; try done; try lia; try congruence.
Qed.

(** *** What it comes to *)

Definition source_of (p : DeployablePair) : option SourceID := (λ x, d_SourceID (dep_Deployment x)) <$> Post p.

(** A deployer gives a pair its UUID, and leaves its sides alone. *)
Context (rectify_post : ∀ p w w' p' rez, do_Rectify d p w = (w', Some (p', rez)) → Post p' = Post p).
Context (status_post : ∀ cs p w w' p' rs, do_Status d cs p w = (w', Some (p', rs)) → Post p' = Post p).

Lemma HandlePairs_source p p' rez : HandlePairs p = Some (Some p', rez) → source_of p' = source_of p.
Proof using.
  unfold HandlePairs, resolveName. intros Hh. destruct (pair_Kind p) as [k|]; [|done]. cbn [mbind option_bind] in Hh.
  destruct k; [by injection Hh as <- <-| |by injection Hh as <- <-|].
  all: unfold source_of; destruct (Post p) as [post|]; [|done].
  all: destruct (guardImage (dep_Deployment post)) as [[art|e]|]; cbn in Hh; try done.
  all: by injection Hh as <- <-.
Qed.

Lemma rectify_source r w w' r' : rectify d r w = (w', Some r') → source_of (r_Pair r') = source_of (r_Pair r).
Proof using rectify_post.
  unfold rectify.
  assert (∀ p w', (let '(w, o) := do_Rectify d p w in (w, '(p, rez) ← o; Some (mkRectification p rez))) = (w', Some r') →
    source_of (r_Pair r') = source_of p) as Happly.
  { intros p w1. destruct (do_Rectify d p w) as [w2 [[p' rez]|]] eqn:Hr; [|done]. intros [= <- <-].
    unfold source_of. cbn. by rewrite (rectify_post _ _ _ _ _ Hr). }
  destruct (Post (r_Pair r)) as [post|] eqn:Hpost; [|done].
  destruct (dep_BuildArtifact post); [by apply Happly|].
  destruct (HandlePairs (r_Pair r)) as [[passed diff]|] eqn:Hh; [|done].
  destruct (diff ≫= rez_Error); [by intros [= <- <-]|].
  destruct passed as [p|]; [|by intros [= <- <-]].
  intros Ha. rewrite (Happly _ _ Ha). by eapply HandlePairs_source.
Qed.

(** A state that the deployer reported. *)
Definition reported (s : DeployState) : Prop := ∃ cs p w w' p', do_Status d cs p w = (w', Some (p', Ok (Some s))).

(** How a resolution [r1] of [rectify] ends: with an error of reading the state or
    of polling, with a final state of the source, or because it is late. *)
Inductive ending (src : option SourceID) (late : Prop) (r1 : DiffResolution) : DiffResolution → Prop :=
| ending_unread e : ending src late r1 (set_Error (WrapResolveError (as_err e)) r1)
| ending_unpolled e : ending src late r1 (set_Error (wrap e) r1)
| ending_final s sid :
    reported s → Final s = true → src = Some sid → SourceID_Equal (d_SourceID (ds_Deployment s)) sid = true →
    ending src late r1 (settle sprintf s r1)
| ending_late : late → ending src late r1 (timed_out r1).

(** What is known of a goroutine that was begun on [p]. *)
Definition begun_on (p : DeployablePair) (g : goroutine W) : Prop :=
  match g_phase g with
  | Fresh | Starting => g_r11n g = NewRectification p
  | Crashed => True
  | Reading | ToPoll _ | Selecting _ =>
      source_of (r_Pair (g_r11n g)) = source_of p ∧
      ∃ w w' r1, rectify d (NewRectification p) w = (w', Some r1) ∧ r_Resolution (g_r11n g) = r_Resolution r1
  | Ended =>
      ∃ w w' r1, rectify d (NewRectification p) w = (w', Some r1) ∧
        ending (source_of p) (since g + end_timeout ≤ clock g) (r_Resolution r1) (r_Resolution (g_r11n g))
  end.

Lemma ending_mono src (late late' : Prop) r1 R : (late → late') → ending src late r1 R → ending src late' r1 R.
Proof using. intros Hl []; econstructor; eauto. Qed.

Lemma begun_on_step p g ev g' : begun_on p g → step ev g = Some g' → begun_on p g'.
Proof using rectify_post status_post.
  unfold begun_on. intros Hb Hs.
  destruct ev; simpl in Hs; destruct (g_phase g) eqn:Hph; try discriminate Hs.
  all: try (injection Hs as <-; cbn [at_ g_phase g_r11n clock since]; rewrite ?Hph; exact Hb).
  - destruct (rectify d (g_r11n g) (g_world g)) as [w [r|]] eqn:Hr; injection Hs as <-; [|done].
    cbn. rewrite Hb in Hr. split; [by rewrite (rectify_source _ _ _ _ Hr)|by eexists _, _, _].
  - destruct Hb as (Hsrc&w&w'&r1&Hr1&Hres).
    destruct (ReadState sm (g_world g)) as [w2 [s|e]]; injection Hs as <-; cbn;
      [split; [done|by eexists _, _, _]|].
    exists w, w', r1. split; [done|]. rewrite Hres. apply ending_unread.
  - destruct Hb as (Hsrc&w&w'&r1&Hr1&Hres). unfold poll in Hs.
    destruct (do_Status d clusters (r_Pair (g_r11n g)) (g_world g)) as [w2 [[p2 [[s|]|e]]|]] eqn:Hst;
      cbn in Hs; try (injection Hs as <-; by cbn).
    + assert (source_of p2 = source_of p) as Hp2
        by (rewrite <-Hsrc; unfold source_of; by rewrite (status_post _ _ _ _ _ _ Hst)).
      destruct (Final s) eqn:Hf; cbn in Hs; [|injection Hs as <-; cbn; split; [congruence|by eexists _, _, _]].
      destruct (Post p2) as [post|] eqn:Hpost; cbn in Hs; [|injection Hs as <-; by cbn].
      destruct (SourceID_Equal _ _) eqn:Heq; cbn in Hs; injection Hs as <-; cbn; [|split; [congruence|by eexists _, _, _]].
      exists w, w', r1. split; [done|]. rewrite Hres.
      apply (ending_final _ _ _ _ (d_SourceID (dep_Deployment post))); [|done| |done].
      * by eexists _, _, _, _, _.
      * rewrite <-Hp2. unfold source_of. by rewrite Hpost.
    + injection Hs as <-. cbn. exists w, w', r1. split; [done|]. rewrite Hres. apply ending_unpolled.
  - destruct (tick g); [|done]. injection Hs as <-. exact Hb.
  - destruct Hb as (_&w&w'&r1&Hr1&Hres). destruct (Z.leb_spec (since g + end_timeout) (clock g)); [|done].
    injection Hs as <-. cbn. exists w, w', r1. split; [done|]. rewrite Hres. by apply ending_late.
  - injection Hs as <-. cbn. destruct Hb as (w'&w2&r1&Hr1&Hend).
    exists w', w2, r1. split; [done|]. eapply ending_mono, Hend. lia.
Qed.

Lemma settle_error s r : rez_Error r ≠ None → rez_Error (settle sprintf s r) ≠ None.
Proof using. unfold settle. intros He. by case_match. Qed.

Lemma settle_no_error s r :
  rez_Error (settle sprintf s r) = None →
  settle sprintf s r = set_DeployState s r ∧ (ds_Status s = DeployStatusActive ∨ ExecutorMessage s = "").
Proof using.
  unfold settle. destruct (bool_decide (ds_Status s ≠ _)) eqn:Hs; cbn [andb].
  - destruct (bool_decide (ExecutorMessage s ≠ "")) eqn:Hm; [done|].
    apply bool_decide_eq_false, dec_stable in Hm. by auto.
  - apply bool_decide_eq_false, dec_stable in Hs. by auto.
Qed.

(** C18.  The verdict of a rectification can be trusted: an error of rectifying is
    never lost, at most replaced by a later one; and without an error the
    deployer reported the source of the pair as final, active, or failed without a
    message, or twenty minutes passed. *)
Theorem r11n_verdict p w evs g R :
  run evs (go_init p w) = Some g → r11n_Wait g = Some R →
  ∃ w1 w2 r1, rectify d (NewRectification p) w1 = (w2, Some r1) ∧
    (rez_Error (r_Resolution r1) ≠ None → rez_Error R ≠ None) ∧
    (rez_Error R = None →
       (∃ s sid, rez_DeployState R = Some s ∧ reported s ∧
          source_of p = Some sid ∧ SourceID_Equal (d_SourceID (ds_Deployment s)) sid = true ∧
          (ds_Status s = DeployStatusActive ∨ (ds_Status s = DeployStatusFailed ∧ ExecutorMessage s = ""))) ∨
       (since g + end_timeout ≤ clock g ∧
        rez_DeployState R = Some (default zeroDeployState (rez_DeployState (r_Resolution r1))))).
Proof using rectify_post status_post.
  intros Hrun HR.
  assert (begun_on p g) as Hb by (eapply (go_run_ind (begun_on p)); [done|by apply begun_on_step|done]).
  unfold r11n_Wait in HR. unfold begun_on in Hb. destruct (g_phase g); try done. injection HR as <-.
  destruct Hb as (w1&w2&r1&Hr1&Hend). exists w1, w2, r1. split; [done|].
  destruct Hend as [e|e|s sid Hrep Hf Hsrc Heq|Hlate].
  - by split.
  - by split.
  - split; [apply settle_error|]. intros [-> Hst]%settle_no_error. left. exists s, sid. split_and!; try done.
    unfold Final in Hf. destruct (ds_Status s); naive_solver.
  - split; [by unfold timed_out; case_match|]. intros _. right. split; [done|].
    unfold timed_out. by destruct (rez_DeployState (r_Resolution r1)) eqn:Hd.
Qed.

(** *** What is applied *)

(** What a rectification can be made of: what [queueDiffs] and a single deployment
    push on a queue. *)
Definition actionable (p : DeployablePair) : Prop := is_Some (Post p) ∧ is_Some (pair_Kind p).

Lemma wanted_actionable p : wanted p = Some true → actionable p.
Proof using.
  unfold wanted, actionable. destruct (Post p); [|done].
  destruct (pair_Kind p); [|done]. intros _. by split; eexists.
Qed.

Lemma no_prior_actionable p : Prior p = None → is_Some (Post p) → actionable p.
Proof using. intros Hp Hpost. split; [done|]. unfold pair_Kind. rewrite Hp. by eexists. Qed.

(** [do_Rectify], as [rectify] uses it. *)
Definition applied (p : DeployablePair) (w : W) : W * option Rectification :=
  ((do_Rectify d p w).1, '(p, rez) ← (do_Rectify d p w).2; Some (mkRectification p rez)).

Lemma applied_total p w :
  (∀ p w, is_Some (do_Rectify d p w).2) → is_Some (applied p w).2.
Proof using. intros Ht. unfold applied. cbn. destruct (Ht p w) as [[] ->]. by eexists. Qed.

(** What it comes to on each branch. *)
Lemma rectify_branches p post k w :
  Post p = Some post → pair_Kind p = Some k → (∀ sid, GetArtifact sid ≠ Ok None) →
  let changed := k = AddedKind ∨ k = ModifiedKind in
  (is_Some (dep_BuildArtifact post) → rectify d (NewRectification p) w = applied p w) ∧
  (dep_BuildArtifact post = None → ¬ changed →
     rectify d (NewRectification p) w = applied (stripped p (Some post)) w) ∧
  (dep_BuildArtifact post = None → changed →
     (∃ art, deployable_with (dep_Deployment post) art ∧
        rectify d (NewRectification p) w = applied (stripped p (Some (set_BuildArtifact art post))) w) ∨
     (∃ e, refused (dep_Deployment post) e ∧
        rectify d (NewRectification p) w = (w, Some (mkRectification p (set_Error (wrap e) zeroResolution))))).
Proof using.
  intros Hp Hk Hs changed. unfold rectify. cbn [NewRectification r_Pair r_Resolution on_Resolution]. rewrite Hp.
  assert (∀ p, (let '(w0, o) := do_Rectify d p w in (w0, '(p0, rez) ← o; Some (mkRectification p0 rez))) =
    applied p w) as Ha by (intros p'; unfold applied; by destruct (do_Rectify d p' w)).
  split; [|split].
  - intros [art ->]. apply Ha.
  - intros -> Hc. rewrite (HandlePairs_unchanged p k Hk) by (unfold changed in Hc; destruct k; naive_solver).
    rewrite Hp. cbn. apply Ha.
  - intros -> Hc. destruct (HandlePairs_changed p k post Hk Hc Hp Hs) as [(art&Hg&->)|(e&Hg&->)]; [left|right].
    + exists art. split; [done|]. cbn. apply Ha.
    + by exists e.
Qed.


(** *** That it ends *)

Context (registry_sane : ∀ sid, GetArtifact sid ≠ Ok None).
Context (rectify_total : ∀ p w, is_Some (do_Rectify d p w).2).
Context (status_total : ∀ cs p w, ∃ p' rs, (do_Status d cs p w).2 = Some (p', rs) ∧ rs ≠ Ok None).

Lemma rectify_runs p w : actionable p → is_Some (rectify d (NewRectification p) w).2.
Proof using registry_sane rectify_total.
  intros [[post Hp] [k Hk]]. pose proof (rectify_branches p post k w Hp Hk registry_sane) as (H1&H2&H3).
  destruct (dep_BuildArtifact post) as [a|]; [rewrite H1 by (by eexists); by apply applied_total|].
  destruct (decide (k = AddedKind ∨ k = ModifiedKind)) as [Hc|Hc].
  - destruct (H3 eq_refl Hc) as [(art&_&->)|(e&_&->)]; [by apply applied_total|by eexists].
  - rewrite H2 by done. by apply applied_total.
Qed.

Lemma poll_runs cs r w : is_Some (Post (r_Pair r)) → (poll d sprintf cs r w).2 ≠ PollPanic.
Proof using status_total status_post.
  intros [post Hpost]. unfold poll. destruct (status_total cs (r_Pair r) w) as (p'&rs&Hst&Hrs).
  destruct (do_Status d cs (r_Pair r) w) as [w' o] eqn:Hd. cbn in Hst. subst o. cbn.
  destruct rs as [[s|]|]; [|done..]. apply status_post in Hd. rewrite Hd, Hpost. by repeat case_match.
Qed.

(** What else is known of one that was begun on an actionable pair. *)
Definition alive (p : DeployablePair) (g : goroutine W) : Prop := begun_on p g ∧ g_phase g ≠ Crashed.

Lemma source_of_Post p q : source_of q = source_of p → is_Some (Post p) → is_Some (Post q).
Proof using. unfold source_of. intros Hs [x Hx]. rewrite Hx in Hs. destruct (Post q); [by eexists|done]. Qed.

Lemma alive_step p g ev g' : actionable p → alive p g → step ev g = Some g' → alive p g'.
Proof using rectify_post status_post registry_sane rectify_total status_total.
  intros Hact [Hb Hc] Hs. split; [by eapply begun_on_step|]. unfold begun_on in Hb.
  destruct ev; simpl in Hs; destruct (g_phase g) eqn:Hph; try done; try (injection Hs as <-; cbn; congruence).
  - destruct (rectify_runs p (g_world g) Hact) as [r Hr]. rewrite Hb in Hs.
    destruct (rectify d (NewRectification p) (g_world g)) as [w' o]. cbn in Hr. subst o. by injection Hs as <-.
  - destruct (ReadState sm (g_world g)) as [w' [s|e]]; by injection Hs as <-.
  - destruct Hb as [Hsrc _].
    pose proof (poll_runs clusters (g_r11n g) (g_world g) (source_of_Post _ _ Hsrc (proj1 Hact))) as Hp.
    destruct (poll d sprintf clusters (g_r11n g) (g_world g)) as [w' o]. by destruct o; injection Hs as <-.
  - destruct (tick g); [|done]. by injection Hs as <-.
  - case_match; [|done]. by injection Hs as <-.
Qed.

(** The time that passes in a run. *)
Definition passing (evs : list (go_event W)) : nat :=
  sum_list ((λ ev, match ev with GoPass ms _ => ms | _ => 0%nat end) <$> evs).

(** It can end in that many events, before its time is over once more. *)
Definition can_end (n : nat) (g : goroutine W) : Prop :=
  ∃ evs g', (length evs ≤ n)%nat ∧ Z.of_nat (passing evs) ≤ end_timeout ∧
    run evs g = Some g' ∧ is_Some (r11n_Wait g').

Lemma can_end_step n ev g :
  (∀ ms w, ev ≠ GoPass ms w) → (∃ g', step ev g = Some g' ∧ can_end n g') → can_end (S n) g.
Proof using.
  intros Hev (g'&Hs&evs&g2&Hl&Hp&Hrun&Hw). exists (ev :: evs), g2. split; [simpl; lia|].
  split; [|split; [|done]].
  - unfold passing. destruct ev; try exact Hp. by destruct (Hev ms w).
  - unfold go_run. cbn [foldl mbind option_bind]. rewrite Hs. exact Hrun.
Qed.

Lemma can_end_now n g : g_phase g = Ended → can_end n g.
Proof using.
  intros Hg. exists [], g. split; [simpl; lia|]. split; [by compute|]. split; [done|].
  unfold r11n_Wait. rewrite Hg. by eexists.
Qed.

Lemma passing_late t w : 0 ≤ t → Z.of_nat (passing [GoPass (Z.to_nat t) w; GoTimeout]) ≤ t.
Proof using. intros Ht. unfold passing. cbn. lia. Qed.

Lemma can_end_Selecting g cs : since g ≤ clock g → g_phase g = Selecting cs → can_end 2 g.
Proof using.
  intros Hc Hph. eexists [GoPass (Z.to_nat end_timeout) (g_world g); GoTimeout], _.
  split; [simpl; lia|]. split; [by apply passing_late|]. unfold go_run. cbn [foldl mbind option_bind go_step].
  rewrite Hph. cbn [g_phase since clock mbind option_bind go_step g_r11n].
  rewrite (proj2 (Z.leb_le _ _)) by (unfold end_timeout; lia). split; [done|]. by eexists.
Qed.

(** What it can do where it is, when nothing panics. *)
Lemma can_end_alive p g :
  actionable p → alive p g → poll_budget g → g_phase g ≠ Fresh → can_end 6 g.
Proof using rectify_post status_post registry_sane rectify_total status_total.
  intros Hact.
  assert (∀ n g, (2 ≤ n)%nat → can_end 2 g → can_end n g) as Hle.
  { intros n g0 Hn (evs&g'&Hl&Hrest). exists evs, g'. split; [lia|done]. }
  assert (∀ g cs, alive p g → poll_budget g → g_phase g = ToPoll cs → can_end 3 g) as Hpoll.
  { intros g0 cs Ha Hb Hph. apply (can_end_step _ GoPoll); [done|].
    assert (∃ g', step GoPoll g0 = Some g') as [g' Hs].
    { simpl. rewrite Hph. destruct (poll _ _ _ _ _). by eexists. }
    exists g'. split; [done|].
    pose proof (alive_step _ _ _ _ Hact Ha Hs) as [_ Hnc].
    pose proof (poll_budget_step _ _ _ Hb Hs) as (_&_&Hcl&_).
    simpl in Hs. rewrite Hph in Hs. destruct (poll _ _ _ _ _) as [w' o].
    destruct o; injection Hs as <-; [done| | |]; try (by apply can_end_now).
    by eapply can_end_Selecting. }
  assert (∀ g, alive p g → poll_budget g → g_phase g = Reading → can_end 4 g) as Hread.
  { intros g0 Ha Hb Hph. apply (can_end_step _ GoRead); [done|].
    assert (∃ g', step GoRead g0 = Some g') as [g' Hs].
    { simpl. rewrite Hph. destruct (ReadState sm (g_world g0)). by eexists. }
    exists g'. split; [done|].
    pose proof (alive_step _ _ _ _ Hact Ha Hs) as Ha'. pose proof (poll_budget_step _ _ _ Hb Hs) as Hb'.
    simpl in Hs. rewrite Hph in Hs. destruct (ReadState sm (g_world g0)) as [w' [s|e]]; injection Hs as <-.
    - by eapply Hpoll.
    - by apply can_end_now. }
  intros Ha Hb Hf. destruct (g_phase g) eqn:Hph; [done| | | | | |].
  - apply (can_end_step 5 GoRectify); [done|]. 
    assert (∃ g', step GoRectify g = Some g') as [g' Hs].
    { simpl. rewrite Hph. destruct (rectify _ _ _). by eexists. }
    exists g'. split; [done|].
    pose proof (alive_step _ _ _ _ Hact Ha Hs) as Ha'. pose proof (poll_budget_step _ _ _ Hb Hs) as Hb'.
    simpl in Hs. rewrite Hph in Hs. destruct (rectify _ _ _) as [w' [r|]]; injection Hs as <-; [|by destruct Ha'].
    destruct (Hread _ Ha' Hb' eq_refl) as (evs&g2&Hl&Hrest). exists evs, g2. split; [lia|done].
  - destruct (Hread g Ha Hb Hph) as (evs&g2&Hl&Hrest). exists evs, g2. split; [lia|done].
  - destruct (Hpoll g clusters Ha Hb Hph) as (evs&g2&Hl&Hrest). exists evs, g2. split; [lia|done].
  - apply Hle; [lia|]. eapply can_end_Selecting; [apply Hb|done].
  - by apply can_end_now.
  - by destruct Ha.
Qed.

(** C21.  A rectification that was begun ends: nothing in it panics, it polls at most
    every quarter of a second, and wherever a run has come to it can end, at the
    latest when twenty minutes have passed. *)
Theorem r11n_ends p w evs g :
  actionable p → run evs (go_init p w) = Some g →
  g_phase g ≠ Crashed ∧
  Z.of_nat (polls g) ≤ 1 + (clock g - since g) / tick_period ∧
  (g_phase g ≠ Fresh →
     ∃ evs' g', Z.of_nat (passing evs') ≤ end_timeout ∧ run (evs ++ evs') (go_init p w) = Some g' ∧
       is_Some (r11n_Wait g')).
Proof using rectify_post status_post registry_sane rectify_total status_total.
  intros Hact Hrun.
  assert (alive p g) as Ha.
  { eapply (go_run_ind (alive p)); [done|intros ???; by apply alive_step|exact Hrun]. }
  assert (poll_budget g) as Hb.
  { eapply (go_run_ind poll_budget); [|intros ???; apply poll_budget_step|exact Hrun]. by cbn. }
  split; [apply Ha|]. split.
  { destruct Hb as (Hp&Ht&Hc&Hk). destruct (g_phase g), (tick g); lia. }
  intros Hf. destruct (can_end_alive p g Hact Ha Hb Hf) as (evs'&g'&_&Hp&Hr&Hw).
  exists evs', g'. split; [done|]. split; [|done].
  unfold go_run in *. by rewrite foldl_app, Hrun.
Qed.
End Properties.

(** ** Witnesses *)

(** A deployer whose deployments are active at the
    second poll. *)
Definition slow_deployer : DeployerOps nat := {|
  do_Rectify := λ p w, (w, Some (p, mkDiffResolution (pair_name p) CreateDiff None None ""));
  do_Status := λ _ p w, (S w, Some (p, Ok (Some
    (mkDeployState sample_deployment (if decide (w = 0%nat) then DeployStatusPending else DeployStatusActive)
       "" NoData ""))))
|}.

Definition steady : StateManager nat := mkStateManager (λ w, (w, Ok sample_state)) (λ _ _ w, (w, None)).

Definition created_pair : DeployablePair :=
  mkDeployablePair None (Some (mkDeployable DeployStatusAny sample_deployment None)) sample_did NoData None.

Definition first_words (format : string) (args : list shown) : string := format.
Definition state_err (e : manager_error) : err := plain_error (Lit "error reading the state").

Definition slow_run : list (go_event nat) :=
  [GoBegin; GoRectify; GoRead; GoPoll; GoPass 250 1%nat; GoTick; GoPoll].

Lemma created_actionable : actionable created_pair.
Proof. split; by eexists. Qed.


Abbreviation sample_go_run := (go_run (H := sample_registry) slow_deployer first_words steady everything state_err).

Lemma slow_ran :
  ∃ g R, sample_go_run slow_run (go_init created_pair 0%nat) = Some g ∧ r11n_Wait g = Some R ∧
    rez_Error R = None ∧ clock g < since g + end_timeout ∧
    ds_Status <$> rez_DeployState R ≠ Some DeployStatusFailed.
Proof.
  eexists _, _. split; [vm_compute; reflexivity|]. split; [reflexivity|]. split; [reflexivity|].
  split; [vm_compute; reflexivity|]. cbn. discriminate.
Qed.

Lemma slow_starts :
  ∃ g, sample_go_run [GoBegin; GoRectify; GoRead; GoPoll] (go_init created_pair 0%nat) = Some g ∧
    g_phase g ≠ Fresh.
Proof. eexists. split; [vm_compute; reflexivity|]. discriminate. Qed.

Lemma slow_rectify_post p w w' p' rez : do_Rectify slow_deployer p w = (w', Some (p', rez)) → Post p' = Post p.
Proof. by intros [= _ <- _]. Qed.
Lemma slow_status_post cs p w w' p' rs : do_Status slow_deployer cs p w = (w', Some (p', rs)) → Post p' = Post p.
Proof. by intros [= _ <- _]. Qed.

Lemma r11n_verdict_witness :
  ∃ g R, sample_go_run slow_run (go_init created_pair 0%nat) = Some g ∧ r11n_Wait g = Some R ∧
    rez_Error R = None ∧ (clock g < since g + end_timeout) ∧
    ∃ s, rez_DeployState R = Some s ∧ ds_Status s = DeployStatusActive.
Proof.
  destruct slow_ran as (g&R&Hrun&HR&He&Hl&Hnf).
  exists g, R. split; [exact Hrun|]. split; [exact HR|]. split; [exact He|]. split; [exact Hl|].
  destruct (r11n_verdict (H := sample_registry) _ _ _ _ _ slow_rectify_post slow_status_post _ _ _ _ _ Hrun HR)
    as (w1&w2&r1&_&_&Hv).
  destruct (Hv He) as [(s&sid&Hs&_&_&_&[Ha|[Hf _]])|[Hlate _]].
  - exists s. split; [exact Hs|exact Ha].
  - destruct Hnf. rewrite Hs. exact (f_equal Some Hf).
  - destruct (Z.lt_irrefl (clock g)). exact (Z.lt_le_trans _ _ _ Hl Hlate).
Defined.

Lemma r11n_ends_witness :
  ∃ evs g, sample_go_run ([GoBegin; GoRectify; GoRead; GoPoll] ++ evs) (go_init created_pair 0%nat) = Some g ∧
    is_Some (r11n_Wait g).
Proof.
  destruct slow_starts as (g&Hrun&Hfresh).
  destruct (r11n_ends (H := sample_registry) _ first_words steady everything state_err slow_rectify_post slow_status_post
    ltac:(done) ltac:(by eexists) ltac:(intros; by eexists _, _) _ _ _ _ created_actionable Hrun) as (_&_&Hend).
  destruct (Hend Hfresh) as (evs&g'&_&Hrun'&Hw). exists evs, g'. split; [exact Hrun'|exact Hw].
Defined.
