(* ===== verification/AutoResolver.v ===== *)
(** * The auto-resolver (lib/auto_resolver.go, server/handle_status.go)

    Four goroutines around unbuffered channels: the one that resolves, the one that
    multicasts what a resolution came to, and the two listeners, of which one waits
    and triggers the next resolution.  With the recorder of a resolution, and the
    requests for its status, they are a transition system; a send on an unbuffered
    channel is one step with its receipt. *)

From S2P Require Import Prelude GoStrings Flaw Semv Ids Startup DeployConfig CMap Deployment.
From S2P Require Import Samples State Differ ResolveFilter ResolveErrors StateManagers.
#[local] Open Scope string_scope.
#[local] Open Scope Z_scope.
#[local] Open Scope list_scope.

(** ** State *)

(** Where [resolveLoop] is: waiting for a trigger, triggered, and in [resolveOnce]
    about to begin, waiting for the recorder, about to announce (after a recorder
    or not), and about to write the stable status, the live one, and to forget the
    recorder. *)
Inductive resolving : Type :=
| RIdle
| RLoop
| RBegin
| RWait
| RAnnounce (e : option err) (begun : bool)
| RStable
| RLive
| RClear
| REnded.

(** The listeners, in the order they were added. *)
Inductive listener : Type := AfterDone | ErrorLogging.
#[export] Instance listener_eq_dec : EqDecision listener.
Proof. solve_decision. Defined.
Definition StandardListeners : list listener := [AfterDone; ErrorLogging].

(** [multicast]: waiting, or with the listeners it has still to send to. *)
Inductive casting : Type :=
| MIdle
| MSending (e : option err) (to : list listener)
| MEnded.

(** [afterDone]: waiting, sleeping for the update time, about to trigger. *)
Inductive waiting : Type := AIdle | ASleeping | ATriggering | AEnded.

(** [errorLogging], with the errors it logged. *)
Record logging := mkLogging { logged : list err; log_ended : bool }.

(** [GDM] is [None] while it is the zero value, reading which panics.  [starting] is whether [Kickoff] has not triggered yet, [done] whether its
    channel was closed; [statuses] counts the calls of [updateStatus] that found a
    recorder and wait for the lock, [panics] those that panicked. *)
Record autoresolver (W : Type) := mkAutoResolver {
  GDM : option Deployments;
  currentRecorder : option recording;
  stableStatus : option ResolveStatus;
  liveStatus : option ResolveStatus;
  resolver_at : resolving;
  caster : casting;
  after : waiting;
  logger : logging;
  starting : bool;
  done : bool;
  statuses : nat;
  panics : nat;
  world : W
}.
Arguments mkAutoResolver {W}.
Arguments GDM {W}.
Arguments currentRecorder {W}.
Arguments stableStatus {W}.
Arguments liveStatus {W}.
Arguments resolver_at {W}.
Arguments caster {W}.
Arguments after {W}.
Arguments logger {W}.
Arguments starting {W}.
Arguments done {W}.
Arguments statuses {W}.
Arguments panics {W}.
Arguments world {W}.

(** ** Steps *)

Inductive ar_event (W : Type) : Type :=
| ArKickoff                       (** [Kickoff] triggers *)
| ArTrigger                       (** [afterDone] triggers *)
| ArStart (partial : Deployments) (** [resolveOnce] reads the state *)
| ArBegin (now : string)
| ArWaited
| ArAnnounce
| ArStable
| ArLive
| ArClear
| ArSend                          (** [multicast] sends to the next listener *)
| ArWake
| ArRecord (ev : rec_event)       (** the goroutines of the recorder *)
| ArCheck                         (** a call of [Statuses] looks for a recorder *)
| ArUpdate                        (** and has the lock *)
| ArClose                         (** [done] is closed *)
| ArQuitResolver | ArQuitCaster | ArQuitAfter | ArQuitLogger
| ArWorld (w : W).
Arguments ArKickoff {W}.
Arguments ArTrigger {W}.
Arguments ArStart {W}.
Arguments ArBegin {W}.
Arguments ArWaited {W}.
Arguments ArAnnounce {W}.
Arguments ArStable {W}.
Arguments ArLive {W}.
Arguments ArClear {W}.
Arguments ArSend {W}.
Arguments ArWake {W}.
Arguments ArRecord {W}.
Arguments ArCheck {W}.
Arguments ArUpdate {W}.
Arguments ArClose {W}.
Arguments ArQuitResolver {W}.
Arguments ArQuitCaster {W}.
Arguments ArQuitAfter {W}.
Arguments ArQuitLogger {W}.
Arguments ArWorld {W}.

Section Steps.
Context {W : Type} (sm : StateManager W) (rf : ResolveFilter).
(** The errors of reading, among those of a resolution. *)
Context (read_err : manager_error → err) (gdm_err : state_error → err).

Definition with_recorder (rc : option recording) (a : autoresolver W) : autoresolver W :=
  mkAutoResolver (GDM a) rc (stableStatus a) (liveStatus a) (resolver_at a) (caster a) (after a) (logger a)
    (starting a) (done a) (statuses a) (panics a) (world a).
Definition with_resolver (r : resolving) (a : autoresolver W) : autoresolver W :=
  mkAutoResolver (GDM a) (currentRecorder a) (stableStatus a) (liveStatus a) r (caster a) (after a) (logger a)
    (starting a) (done a) (statuses a) (panics a) (world a).
Definition with_GDM (gdm : option Deployments) (w : W) (a : autoresolver W) : autoresolver W :=
  mkAutoResolver gdm (currentRecorder a) (stableStatus a) (liveStatus a) (resolver_at a) (caster a) (after a)
    (logger a) (starting a) (done a) (statuses a) (panics a) w.
Definition with_statuses (stable live : option ResolveStatus) (a : autoresolver W) : autoresolver W :=
  mkAutoResolver (GDM a) (currentRecorder a) stable live (resolver_at a) (caster a) (after a) (logger a)
    (starting a) (done a) (statuses a) (panics a) (world a).
Definition with_caster (m : casting) (a : autoresolver W) : autoresolver W :=
  mkAutoResolver (GDM a) (currentRecorder a) (stableStatus a) (liveStatus a) (resolver_at a) m (after a) (logger a)
    (starting a) (done a) (statuses a) (panics a) (world a).
Definition with_after (x : waiting) (a : autoresolver W) : autoresolver W :=
  mkAutoResolver (GDM a) (currentRecorder a) (stableStatus a) (liveStatus a) (resolver_at a) (caster a) x (logger a)
    (starting a) (done a) (statuses a) (panics a) (world a).
Definition with_logger (l : logging) (a : autoresolver W) : autoresolver W :=
  mkAutoResolver (GDM a) (currentRecorder a) (stableStatus a) (liveStatus a) (resolver_at a) (caster a) (after a) l
    (starting a) (done a) (statuses a) (panics a) (world a).
Definition with_calls (n p : nat) (a : autoresolver W) : autoresolver W :=
  mkAutoResolver (GDM a) (currentRecorder a) (stableStatus a) (liveStatus a) (resolver_at a) (caster a) (after a)
    (logger a) (starting a) (done a) n p (world a).
Definition with_flags (st d : bool) (a : autoresolver W) : autoresolver W :=
  mkAutoResolver (GDM a) (currentRecorder a) (stableStatus a) (liveStatus a) (resolver_at a) (caster a) (after a)
    (logger a) st d (statuses a) (panics a) (world a).

(** [CurrentStatus] is a copy of the status at the time. *)
Definition CurrentStatus (rc : recording) : ResolveStatus := rr_status (rc_rr rc).

(** A trigger is received where [resolveLoop] waits for the first, or, as one too
    many, where it is about to resolve. *)
Definition receive_trigger (a : autoresolver W) : option (autoresolver W) :=
  match resolver_at a with
  | RIdle | RLoop => Some (with_resolver RLoop a)
  | _ => None
  end.

(** [resolveOnce], up to the resolution. *)
Definition resolve_start (partial : Deployments) (a : autoresolver W) : autoresolver W :=
  let '(w, rs) := ReadState sm (world a) in
  match rs with
  | Err e => with_resolver (RAnnounce (Some (read_err e)) false) (with_GDM (GDM a) w a)
  | Ok state =>
      match State_Deployments state with
      | Err e => with_resolver (RAnnounce (Some (gdm_err e)) false) (with_GDM (Some partial) w a)
      | Ok deps => with_resolver RBegin (with_GDM (Some deps) w a)
      end
  end.

(** A send of [multicast] to a listener, if that is waiting for it. *)
Definition cast_to (e : option err) (l : listener) (a : autoresolver W) : option (autoresolver W) :=
  match l with
  | AfterDone => match after a with AIdle => Some (with_after ASleeping a) | _ => None end
  | ErrorLogging =>
      if log_ended (logger a) then None
      else Some (with_logger (mkLogging (logged (logger a) ++ option_list e) false) a)
  end.

Definition ar_step (ev : ar_event W) (a : autoresolver W) : option (autoresolver W) :=
  match ev with
  | ArKickoff => if starting a then receive_trigger (with_flags false (done a) a) else None
  | ArTrigger =>
      match after a with ATriggering => receive_trigger (with_after AIdle a) | _ => None end
  | ArStart partial =>
      match resolver_at a with RLoop => Some (resolve_start partial a) | _ => None end
  | ArBegin now =>
      match resolver_at a, GDM a with
      | RBegin, Some gdm =>
          Some (with_resolver RWait (with_recorder (Some (mkRecording
            (NewResolveRecorder now (filtered (FilterDeployment rf) gdm)) [] false)) a))
      | _, _ => None
      end
  | ArWaited =>
      match resolver_at a, currentRecorder a with
      | RWait, Some rc =>
          if rr_Done (rc_rr rc) then Some (with_resolver (RAnnounce (rr_Wait (rc_rr rc)) true) a) else None
      | _, _ => None
      end
  | ArAnnounce =>
      match resolver_at a, caster a with
      | RAnnounce e begun, MIdle =>
          Some (with_resolver (if begun then RStable else RIdle) (with_caster (MSending e StandardListeners) a))
      | _, _ => None
      end
  | ArStable =>
      match resolver_at a, currentRecorder a with
      | RStable, Some rc => Some (with_resolver RLive (with_statuses (Some (CurrentStatus rc)) (liveStatus a) a))
      | _, _ => None
      end
  | ArLive =>
      match resolver_at a, currentRecorder a with
      | RLive, Some rc => Some (with_resolver RClear (with_statuses (stableStatus a) (Some (CurrentStatus rc)) a))
      | _, _ => None
      end
  | ArClear =>
      match resolver_at a with RClear => Some (with_resolver RIdle (with_recorder None a)) | _ => None end
  | ArSend =>
      match caster a with
      | MSending e (l :: to) =>
          a' ← cast_to e l a; Some (with_caster (match to with [] => MIdle | _ => MSending e to end) a')
      | _ => None
      end
  | ArWake => match after a with ASleeping => Some (with_after ATriggering a) | _ => None end
  | ArRecord rev =>
      rc ← currentRecorder a; rc' ← rec_step rc rev; Some (with_recorder (Some rc') a)
  | ArCheck =>
      match currentRecorder a with Some _ => Some (with_calls (S (statuses a)) (panics a) a) | None => Some a end
  | ArUpdate =>
      match statuses a with
      | O => None
      | S n =>
          Some (match currentRecorder a with
                | Some rc => with_calls n (panics a) (with_statuses (stableStatus a) (Some (CurrentStatus rc)) a)
                | None => with_calls n (S (panics a)) a
                end)
      end
  | ArClose => Some (with_flags (starting a) true a)
  | ArQuitResolver =>
      match done a, resolver_at a with true, (RIdle | RLoop) => Some (with_resolver REnded a) | _, _ => None end
  | ArQuitCaster => match done a, caster a with true, MIdle => Some (with_caster MEnded a) | _, _ => None end
  | ArQuitAfter =>
      match done a, after a with true, (AIdle | ASleeping) => Some (with_after AEnded a) | _, _ => None end
  | ArQuitLogger => if done a then Some (with_logger (mkLogging (logged (logger a)) true) a) else None
  | ArWorld w => Some (with_GDM (GDM a) w a)
  end.

Definition ar_run (evs : list (ar_event W)) (a : autoresolver W) : option (autoresolver W) :=
  foldl (λ a ev, a ← a; ar_step ev a) (Some a) evs.

(** [NewAutoResolver], and [Kickoff] up to its trigger. *)
Definition Kickoff (w : W) : autoresolver W :=
  mkAutoResolver None None None None RIdle MIdle AIdle (mkLogging [] false) true false 0 0 w.

(** [Statuses], once [updateStatus] is done. *)
Definition Statuses (a : autoresolver W) : option ResolveStatus * option ResolveStatus := (stableStatus a, liveStatus a).

(** [StatusHandler.Exchange], with the status updated: the deployments that the
    filter selects, and the two statuses; [None] is the panic on a GDM that was
    never read. *)
Definition StatusHandler_Exchange (a : autoresolver W) :
    option (list Deployment * (option ResolveStatus * option ResolveStatus)) :=
  gdm ← GDM a; Some ((map_to_list (filtered (FilterDeployment rf) gdm)).*2, Statuses a).
End Steps.

(** ** Lemmas *)

(** Counting the place of the next resolution: with [Kickoff], under way, on its way
    to [afterDone], or there. *)
Definition tokens {W} (a : autoresolver W) : nat :=
  (if starting a then 1 else 0) +
  match resolver_at a with RLoop | RBegin | RWait | RAnnounce _ _ => 1 | _ => 0 end +
  match caster a with MSending _ (AfterDone :: _) => 1 | _ => 0 end +
  match after a with ASleeping | ATriggering => 1 | _ => 0 end.

(** The recorder that goes with a place in [resolveLoop]. *)
Definition recorder_fits (r : resolving) (o : option recording) : Prop :=
  match r with
  | RIdle | RLoop | RBegin | RAnnounce _ false | REnded => o = None
  | RWait | RClear => is_Some o
  | RAnnounce _ true | RStable | RLive => ∃ rc, o = Some rc ∧ rr_Done (rc_rr rc) = true
  end.

Definition finished_status (rc : recording) : Prop :=
  rr_Done (rc_rr rc) = true → rc_closed rc = true ∧ Finished (rr_status (rc_rr rc)) ≠ None.

Record ar_inv {W} (a : autoresolver W) : Prop := {
  inv_tokens : done a = false → tokens a = 1%nat;
  inv_caster : ∀ e to, caster a = MSending e to → to = StandardListeners ∨ to = [ErrorLogging];
  inv_recorder : recorder_fits (resolver_at a) (currentRecorder a);
  inv_GDM : resolver_at a = RBegin → is_Some (GDM a);
  inv_running : done a = false →
    resolver_at a ≠ REnded ∧ caster a ≠ MEnded ∧ after a ≠ AEnded ∧ log_ended (logger a) = false;
  inv_finished : ∀ rc, currentRecorder a = Some rc → finished_status rc;
  inv_stable : ∀ s, stableStatus a = Some s → Finished s ≠ None;
  inv_read : GDM a = None → stableStatus a = None ∧ currentRecorder a = None
}.

Lemma rec_step_finished rc ev rc' : finished_status rc → rec_step rc ev = Some rc' → finished_status rc'.
Proof.
  unfold finished_status, rr_Done. intros Hf Hs.
  destruct ev; simpl in Hs; repeat case_match; simplify_eq; try done; cbn in *; naive_solver.
Qed.

Lemma rec_step_done rc ev rc' : rec_step rc ev = Some rc' → rr_Done (rc_rr rc) = true → rr_Done (rc_rr rc') = true.
Proof. unfold rr_Done. intros Hs. destruct ev; simpl in Hs; repeat case_match; simplify_eq; done. Qed.

(** How far the next resolution is, in steps of the goroutines: each such step, but
    the start of a resolution, brings it nearer. *)
Definition cost (l : listener) : nat := match l with AfterDone => 5 | ErrorLogging => 1 end.

Definition distance {W} (a : autoresolver W) : nat :=
  (if starting a then 2 else 0) +
  match resolver_at a with
  | RBegin => 20 | RWait => 19 | RAnnounce _ _ => 18 | RStable => 3 | RLive => 2 | RClear => 1
  | RIdle | RLoop | REnded => 0
  end +
  match caster a with MSending _ to => sum_list (cost <$> to) | _ => 0 end +
  match after a with ASleeping => 3 | ATriggering => 2 | _ => 0 end.

Definition no_start {W} (ev : ar_event W) : Prop := match ev with ArStart _ => False | _ => True end.

Definition goes {W} (ev : ar_event W) : bool :=
  match ev with
  | ArKickoff | ArTrigger | ArBegin _ | ArWaited | ArAnnounce | ArStable | ArLive | ArClear | ArSend | ArWake => true
  | _ => false
  end.

Section Invariant.
Context {W : Type} (sm : StateManager W) (rf : ResolveFilter).
Context (read_err : manager_error → err) (gdm_err : state_error → err).
Abbreviation step := (ar_step sm rf read_err gdm_err).
Abbreviation run := (ar_run sm rf read_err gdm_err).

Lemma ar_inv_init (w : W) : ar_inv (Kickoff w).
Proof using. by split. Qed.

(** The parts of the invariant that a step leaves alone, or that follow by counting. *)
Ltac settle_inv Ht Hl Hrd :=
  split; unfold tokens; cbn;
  first [assumption
        | let Hd := fresh in intros Hd; specialize (Ht Hd); lia
        | let Hd := fresh in intros Hd; destruct (Hl Hd) as (?&?&?&?); split_and!; (assumption || discriminate)
        | intros; congruence
        | let Hd := fresh in intros Hd; destruct (Hrd Hd); split; congruence
        | let Hd := fresh in intros Hd; destruct (Hrd Hd); exfalso; congruence
        | intros; exfalso; congruence
        | reflexivity
        | idtac].

Lemma ar_inv_step ev a a' : ar_inv a → step ev a = Some a' → ar_inv a'.
Proof using.
  intros [Ht Hc Hr Hg Hl Hf Hst Hrd] Hs. unfold tokens in Ht.
  destruct ev; simpl in Hs; unfold receive_trigger, cast_to in Hs; cbn in Hs.
  - destruct (starting a) eqn:Hstart; [|discriminate Hs].
    destruct (resolver_at a) eqn:Hra; try discriminate Hs; injection Hs as <-; settle_inv Ht Hl Hrd.
  - destruct (after a) eqn:Ha; try discriminate Hs.
    destruct (resolver_at a) eqn:Hra; try discriminate Hs; injection Hs as <-; settle_inv Ht Hl Hrd.
  - destruct (resolver_at a) eqn:Hra; try discriminate Hs. injection Hs as <-. unfold resolve_start.
    destruct (ReadState sm (world a)) as [w [state|e]]; [destruct (State_Deployments state)|]; settle_inv Ht Hl Hrd.
    intros _. by eexists.
  - destruct (resolver_at a) eqn:Hra; try discriminate Hs. destruct (GDM a) eqn:HG; try discriminate Hs.
    injection Hs as <-. settle_inv Ht Hl Hrd.
    + by eexists.
    + by intros rc [= <-].
  - destruct (resolver_at a) eqn:Hra; try discriminate Hs. destruct (currentRecorder a) as [rc|] eqn:HR; try discriminate Hs.
    destruct (rr_Done (rc_rr rc)) eqn:Hd; [|discriminate Hs]. injection Hs as <-. settle_inv Ht Hl Hrd.
    + by exists rc.
    + by rewrite HR.
  - destruct (resolver_at a) as [| | | |e begun| | | |] eqn:Hra; try discriminate Hs.
    destruct (caster a) eqn:HM; try discriminate Hs. injection Hs as <-.
    destruct begun; settle_inv Ht Hl Hrd; intros e' to [= <- <-]; by left.
  - destruct (resolver_at a) eqn:Hra; try discriminate Hs. destruct (currentRecorder a) as [rc|] eqn:HR; try discriminate Hs.
    injection Hs as <-. destruct Hr as (rc'&[= <-]&Hd). settle_inv Ht Hl Hrd.
    + by exists rc.
    + by rewrite HR.
    + intros s [= <-]. by apply (Hf rc eq_refl).
  - destruct (resolver_at a) eqn:Hra; try discriminate Hs. destruct (currentRecorder a) as [rc|] eqn:HR; try discriminate Hs.
    injection Hs as <-. settle_inv Ht Hl Hrd; by rewrite HR.
  - destruct (resolver_at a) eqn:Hra; try discriminate Hs. injection Hs as <-. settle_inv Ht Hl Hrd.
  - destruct (caster a) as [|e [|lis to]|] eqn:HM; try discriminate Hs.
    destruct lis.
    + destruct (after a) eqn:HA; try discriminate Hs. injection Hs as <-.
      destruct (Hc e _ eq_refl) as [[= ->]|[=]]. settle_inv Ht Hl Hrd.
      intros e' to' [= <- <-]. by right.
    + destruct (log_ended (logger a)) eqn:HL; [discriminate Hs|]. injection Hs as <-.
      destruct (Hc e _ eq_refl) as [[=]|[= ->]]. settle_inv Ht Hl Hrd.
  - destruct (after a) eqn:HA; try discriminate Hs. injection Hs as <-. settle_inv Ht Hl Hrd.
  - destruct (currentRecorder a) as [rc|] eqn:HR; [|discriminate Hs]. cbn in Hs.
    destruct (rec_step rc ev) as [rc'|] eqn:Hrs; [|discriminate Hs]. injection Hs as <-. settle_inv Ht Hl Hrd.
    + destruct (resolver_at a) as [| | | |e []| | | |]; try done; cbn in Hr |- *; try (by eexists).
      all: destruct Hr as (rc0&[= <-]&Hd); exists rc'; split; [done|by eapply rec_step_done].
    + intros rc0 [= <-]. by eapply rec_step_finished, Hrs; apply Hf.
  - destruct (currentRecorder a) eqn:HR; injection Hs as <-; settle_inv Ht Hl Hrd; by rewrite HR.
  - destruct (statuses a); [discriminate Hs|]. injection Hs as <-.
    destruct (currentRecorder a) eqn:HR; settle_inv Ht Hl Hrd; by rewrite HR.
  - injection Hs as <-. settle_inv Ht Hl Hrd.
  - destruct (done a) eqn:HD, (resolver_at a) eqn:Hra; try discriminate Hs; injection Hs as <-; settle_inv Ht Hl Hrd.
  - destruct (done a) eqn:HD, (caster a) eqn:HM; try discriminate Hs; injection Hs as <-; settle_inv Ht Hl Hrd.
  - destruct (done a) eqn:HD, (after a) eqn:HA; try discriminate Hs; injection Hs as <-; settle_inv Ht Hl Hrd.
  - destruct (done a) eqn:HD; [|discriminate Hs]. injection Hs as <-. settle_inv Ht Hl Hrd.
  - injection Hs as <-. settle_inv Ht Hl Hrd.
Qed.

Lemma ar_inv_runs evs a0 a : ar_inv a0 → run evs a0 = Some a → ar_inv a.
Proof using.
  intros H0. revert a. induction evs as [|ev evs IH] using rev_ind; intros a.
  { by intros [= <-]. }
  unfold ar_run. rewrite foldl_app. cbn [foldl]. fold (run evs a0).
  destruct (run evs a0) as [a1|]; [|done]. cbn [mbind option_bind].
  apply ar_inv_step. by apply IH.
Qed.

Lemma ar_inv_run evs a w : run evs (Kickoff w) = Some a → ar_inv a.
Proof using. apply ar_inv_runs, ar_inv_init. Qed.

Ltac nearer := cbn; split; [lia|first [discriminate|intros _; split; [lia|reflexivity]]].

Lemma distance_step ev a a' :
  step ev a = Some a' → no_start ev →
  (distance a' ≤ distance a)%nat ∧ (goes ev = true → (distance a' < distance a)%nat ∧ done a' = done a).
Proof using.
  intros Hs Hns. unfold distance.
  destruct ev; simpl in Hs; unfold receive_trigger, cast_to in Hs; cbn in Hs.
  - destruct (starting a) eqn:Hstart; [|discriminate Hs].
    destruct (resolver_at a); try discriminate Hs; injection Hs as <-; nearer.
  - destruct (after a); try discriminate Hs.
    destruct (resolver_at a); try discriminate Hs; injection Hs as <-; nearer.
  - destruct Hns.
  - destruct (resolver_at a); try discriminate Hs. destruct (GDM a); try discriminate Hs.
    injection Hs as <-. nearer.
  - destruct (resolver_at a); try discriminate Hs. destruct (currentRecorder a) as [rc|]; try discriminate Hs.
    destruct (rr_Done (rc_rr rc)); [|discriminate Hs]. injection Hs as <-. nearer.
  - destruct (resolver_at a) as [| | | |e begun| | | |]; try discriminate Hs.
    destruct (caster a); try discriminate Hs. injection Hs as <-. destruct begun; nearer.
  - destruct (resolver_at a); try discriminate Hs. destruct (currentRecorder a); try discriminate Hs.
    injection Hs as <-. nearer.
  - destruct (resolver_at a); try discriminate Hs. destruct (currentRecorder a); try discriminate Hs.
    injection Hs as <-. nearer.
  - destruct (resolver_at a); try discriminate Hs. injection Hs as <-. nearer.
  - destruct (caster a) as [|e [|lis to]|] eqn:HM; try discriminate Hs.
    destruct lis; [destruct (after a); try discriminate Hs|destruct (log_ended (logger a)); try discriminate Hs];
      injection Hs as <-; destruct to; nearer.
  - destruct (after a); try discriminate Hs. injection Hs as <-. nearer.
  - destruct (currentRecorder a) as [rc|]; [|discriminate Hs]. cbn in Hs.
    destruct (rec_step rc ev); [|discriminate Hs]. injection Hs as <-. nearer.
  - destruct (currentRecorder a); injection Hs as <-; nearer.
  - destruct (statuses a); [discriminate Hs|]. destruct (currentRecorder a); injection Hs as <-; nearer.
  - injection Hs as <-. nearer.
  - destruct (done a), (resolver_at a); try discriminate Hs; injection Hs as <-; nearer.
  - destruct (done a), (caster a); try discriminate Hs; injection Hs as <-; nearer.
  - destruct (done a), (after a); try discriminate Hs; injection Hs as <-; nearer.
  - destruct (done a); [|discriminate Hs]. injection Hs as <-. nearer.
  - injection Hs as <-. nearer.
Qed.

Definition is_RLoop (r : resolving) : bool := match r with RLoop => true | _ => false end.

(** A resolution whose recorder has not finished. *)
Definition resolution_pending (a : autoresolver W) : Prop :=
  resolver_at a = RWait ∧ ∃ rc, currentRecorder a = Some rc ∧ rr_Done (rc_rr rc) = false.

(** Nothing is stuck. *)
Lemma can_go a :
  ar_inv a → done a = false → resolver_at a ≠ RLoop →
  resolution_pending a ∨ ∃ ev a', goes ev = true ∧ step ev a = Some a'.
Proof using.
  intros [Ht Hc Hr Hg Hl Hf Hst Hrd] Hd HnL. specialize (Ht Hd). unfold tokens in Ht.
  destruct (Hl Hd) as (Hl1&Hl2&Hl3&Hl4).
  assert (∀ e to, caster a = MSending e to → (head to = Some AfterDone → after a = AIdle) →
    ∃ ev a', goes ev = true ∧ step ev a = Some a') as Hsend.
  { intros e to Hm Ha. destruct (Hc _ _ Hm) as [-> | ->].
    - eexists ArSend, _. split; [done|]. simpl. rewrite Hm. cbn. by rewrite Ha.
    - eexists ArSend, _. split; [done|]. simpl. rewrite Hm. cbn. by rewrite Hl4. }
  destruct (resolver_at a) as [| | | |e begun| | | |] eqn:Hra; try done.
  - right. destruct (caster a) as [|e to|] eqn:Hm; [|destruct (Hc _ _ eq_refl) as [-> | ->]|done].
    + destruct (after a) eqn:Ha; [| | |done].
      * destruct (starting a) eqn:Hstart; [|lia]. eexists ArKickoff, _. split; [done|].
        simpl. by rewrite Hstart; unfold receive_trigger; cbn; rewrite Hra.
      * eexists ArWake, _. split; [done|]. simpl. by rewrite Ha.
      * eexists ArTrigger, _. split; [done|]. simpl. rewrite Ha. unfold receive_trigger. cbn. by rewrite Hra.
    + apply (Hsend e StandardListeners); [done|]. intros _. destruct (after a); [done|simpl in Ht; lia..|done].
    + by apply (Hsend e [ErrorLogging]).
  - right. destruct (Hg eq_refl) as [gdm HG]. eexists (ArBegin ""), _. split; [done|]. simpl. by rewrite Hra, HG.
  - destruct Hr as [rc HR]. destruct (rr_Done (rc_rr rc)) eqn:HD.
    + right. eexists ArWaited, _. split; [done|]. simpl. by rewrite Hra, HR, HD.
    + left. split; [done|]. by exists rc.
  - right. destruct (caster a) as [|e' to|] eqn:Hm; [| |done].
    + eexists ArAnnounce, _. split; [done|]. simpl. by rewrite Hra, Hm.
    + apply (Hsend e' to); [done|]. destruct (Hc _ _ eq_refl) as [-> | ->]; [simpl in Ht; lia|done].
  - right. destruct Hr as (rc&HR&_). eexists ArStable, _. split; [done|]. simpl. by rewrite Hra, HR.
  - right. destruct Hr as (rc&HR&_). eexists ArLive, _. split; [done|]. simpl. by rewrite Hra, HR.
  - right. eexists ArClear, _. split; [done|]. simpl. by rewrite Hra.
Qed.

Lemma ar_run_app evs1 evs2 a : run (evs1 ++ evs2) a = run evs1 a ≫= run evs2.
Proof using.
  unfold ar_run. rewrite foldl_app. destruct (foldl _ (Some a) evs1); [done|].
  induction evs2 as [|ev evs2 IH]; [done|]. exact IH.
Qed.

(** The recorder of a resolution can finish. *)
Lemma recorder_can_finish a :
  resolution_pending a →
  ∃ evs a', Forall no_start evs ∧ run evs a = Some a' ∧ (distance a' < distance a)%nat ∧
    done a' = done a.
Proof using.
  intros (Hra&rc&HR&Hd). unfold rr_Done in Hd.
  set (closing := if rc_closed rc then [] else [ArRecord RecClose] : list (ar_event W)).
  exists (closing ++ [ArRecord (RecFinish ""); ArWaited]).
  set (rc1 := mkRecording (rc_rr rc) (rc_chan rc) true).
  assert (∃ a1, run closing a = Some a1 ∧ currentRecorder a1 = Some rc1 ∧ resolver_at a1 = RWait ∧
    distance a1 = distance a ∧ done a1 = done a) as (a1&Hrun&HR1&Hra1&Hd1&Hdn).
  { unfold closing, rc1. destruct (rc_closed rc) eqn:Hcl.
    - exists a. split_and!; [done| |done..]. rewrite HR, <-Hcl. by destruct rc.
    - eexists. split.
      { unfold ar_run. cbn [foldl mbind option_bind ar_step]. rewrite HR. cbn [mbind option_bind rec_step].
        by rewrite Hcl. }
      by split_and!. }
  eexists. split; [|split; [|split]].
  - apply Forall_app. split; [unfold closing; by destruct (rc_closed rc); repeat constructor|by repeat constructor].
  - rewrite ar_run_app, Hrun. cbn [mbind option_bind]. unfold ar_run. cbn [foldl mbind option_bind ar_step].
    rewrite HR1. cbn [mbind option_bind rec_step rc1 rc_closed rc_rr].
    rewrite decide_True by (by rewrite Hd). cbn. rewrite Hra1. done.
  - unfold distance in *. cbn. rewrite Hra1 in Hd1. lia.
  - exact Hdn.
Qed.

Lemma reaches_resolution n : ∀ a,
  (distance a < n)%nat → ar_inv a → done a = false →
  ∃ evs a', Forall no_start evs ∧ run evs a = Some a' ∧ resolver_at a' = RLoop.
Proof using.
  induction n as [|n IH]; intros a Hn Hinv Hd; [lia|].
  assert (∀ evs a', Forall no_start evs → run evs a = Some a' →
    (distance a' < distance a)%nat → done a' = done a →
    ∃ evs a', Forall no_start evs ∧ run evs a = Some a' ∧ resolver_at a' = RLoop) as Hnext.
  { intros evs a' Hns Hrun Hlt Hdn.
    destruct (IH a') as (evs'&a''&Hns'&Hrun'&Hra); [lia|by eapply ar_inv_runs|congruence|].
    exists (evs ++ evs'), a''. split; [by apply Forall_app|]. split; [|done]. by rewrite ar_run_app, Hrun. }
  destruct (decide (is_RLoop (resolver_at a) = true)) as [HL|HL].
  { exists [], a. split; [done|]. split; [done|]. by destruct (resolver_at a). }
  destruct (can_go a Hinv Hd) as [Hp|(ev&a'&Hg&Hs)].
  - intros Heq. by rewrite Heq in HL.
  - destruct (recorder_can_finish a Hp) as (evs&a'&Hns&Hrun&Hlt&Hdn). by apply (Hnext evs a').
  - assert (no_start ev) as Hns by (by destruct ev).
    destruct (distance_step _ _ _ Hs Hns) as [_ Hgo]. destruct (Hgo Hg) as [Hlt Hdn].
    apply (Hnext [ev] a'); [by repeat constructor| |done..]. exact Hs.
Qed.

(** C19.  Resolutions never overlap and never stop: there is one place for the next
    resolution, with [Kickoff], under way, or with the listener that waits to trigger
    it; unless a resolution is to start or its recorder is at work, some goroutine
    can go on; each step of a goroutine brings the start of the next resolution
    nearer, and it can always be reached. *)
Theorem resolutions_recur w evs a :
  run evs (Kickoff w) = Some a → done a = false →
  tokens a = 1%nat ∧
  (resolver_at a ≠ RLoop → resolution_pending a ∨ ∃ ev a', goes ev = true ∧ step ev a = Some a') ∧
  (∀ ev a', step ev a = Some a' → no_start ev →
     (distance a' ≤ distance a)%nat ∧ (goes ev = true → (distance a' < distance a)%nat)) ∧
  (∃ evs' a', Forall no_start evs' ∧
     run (evs ++ evs') (Kickoff w) = Some a' ∧ resolver_at a' = RLoop).
Proof using.
  intros Hrun Hd. pose proof (ar_inv_run _ _ _ Hrun) as Hinv.
  split; [by apply (inv_tokens _ Hinv)|]. split; [by apply can_go|]. split.
  { intros ev a' Hs Hns. destruct (distance_step _ _ _ Hs Hns) as [Hle Hgo]. split; [done|]. intros Hg.
    by apply Hgo. }
  destruct (reaches_resolution (S (distance a)) a) as (evs'&a'&Hns&Hrun'&Hra); [lia|done..|].
  exists evs', a'. split; [done|]. split; [|done]. by rewrite ar_run_app, Hrun.
Qed.

(** What a status page shows as completed is the status of a resolution that
    finished, together with deployments; before a GDM was read, when nothing was
    completed, the page panics. *)
Theorem statuses_completed w evs a :
  run evs (Kickoff w) = Some a →
  (∀ s, (Statuses a).1 = Some s → Finished s ≠ None ∧
     ∃ gdm, GDM a = Some gdm ∧
       StatusHandler_Exchange rf a = Some ((map_to_list (filtered (FilterDeployment rf) gdm)).*2, Statuses a)) ∧
  (StatusHandler_Exchange rf a = None ↔ GDM a = None).
Proof using.
  intros Hrun. pose proof (ar_inv_run _ _ _ Hrun) as Hinv. unfold StatusHandler_Exchange. split.
  - intros s Hs. split; [by apply (inv_stable _ Hinv)|].
    destruct (GDM a) as [gdm|] eqn:HG; [by exists gdm|].
    destruct (inv_read _ Hinv HG) as [Hn _]. unfold Statuses in Hs. cbn in Hs. congruence.
  - by destruct (GDM a).
Qed.

(** No call of [Statuses] from outside: nothing panics. *)
Lemma unwatched_step ev a a' :
  ev ≠ ArCheck → step ev a = Some a' → statuses a = 0%nat → statuses a' = 0%nat ∧ panics a' = panics a.
Proof using.
  intros Hev Hs Hn.
  destruct ev; simpl in Hs; unfold receive_trigger, resolve_start, cast_to in Hs;
    repeat (case_match; simplify_eq); cbn; try (by split); try congruence.
  all: cbn in Hs; simplify_eq; try (by split).
  destruct (currentRecorder a) as [rc|]; [|done]. cbn in Hs. destruct (rec_step rc ev); [|done].
  cbn in Hs. simplify_eq. by split.
Qed.

(** A call of [Statuses] can panic: it looks for a recorder before it has the lock,
    and the end of a resolution takes the recorder away in between.  Without such
    calls nothing panics. *)
Theorem Statuses_race w evs a :
  run evs (Kickoff w) = Some a →
  (resolver_at a = RClear → ∃ a', run [ArCheck; ArClear; ArUpdate] a = Some a' ∧ (panics a < panics a')%nat) ∧
  (ArCheck ∉ evs → panics a = 0%nat).
Proof using.
  intros Hrun. split.
  - intros Hra. pose proof (ar_inv_run _ _ _ Hrun) as Hinv. pose proof (inv_recorder _ Hinv) as Hr.
    rewrite Hra in Hr. destruct Hr as [rc HR]. eexists. split.
    + unfold ar_run. cbn [foldl mbind option_bind ar_step]. rewrite HR. cbn [mbind option_bind ar_step with_calls resolver_at].
      rewrite Hra. reflexivity.
    + cbn. lia.
  - intros Hev. enough (statuses a = 0%nat ∧ panics a = 0%nat) by tauto.
    revert a Hrun. induction evs as [|ev evs IH] using rev_ind; intros a Hrun; [by injection Hrun as <-|].
    rewrite ar_run_app in Hrun. destruct (run evs (Kickoff w)) as [a0|]; [|done].
    destruct (IH ltac:(set_solver) a0 eq_refl) as [Hs Hp]. cbn in Hrun.
    destruct (unwatched_step ev a0 a) as [Hs' Hp']; [set_solver|done..|]. split; [done|congruence].
Qed.

(** A listener that is about to trigger is not told that all is done: when the
    goroutine that resolves has ended, it waits for ever. *)
Theorem trigger_leaks evs a a' :
  resolver_at a = REnded → after a = ATriggering → run evs a = Some a' → after a' = ATriggering.
Proof using.
  intros Hr Ha. enough (∀ a', run evs a = Some a' → resolver_at a' = REnded ∧ after a' = ATriggering) as G.
  { intros Hrun. by apply G. }
  induction evs as [|ev evs IH] using rev_ind; intros a2; [by intros [= <-]|].
  rewrite ar_run_app. destruct (run evs a) as [a1|]; [|done]. destruct (IH a1 eq_refl) as [Hr1 Ha1]. cbn.
  intros Hs. destruct ev; simpl in Hs; unfold receive_trigger, cast_to in Hs; cbn in Hs; rewrite ?Hr1, ?Ha1 in Hs; cbn in Hs;
    repeat (case_match; simplify_eq); cbn in *; try done; try (by rewrite ?Hr1, ?Ha1).
  all: cbn in Hs; simplify_eq; cbn; try (by split).
  destruct (currentRecorder a1) as [rc|]; [|done]. cbn in Hs. destruct (rec_step rc ev); [|done].
  cbn in Hs. simplify_eq. by split.
Qed.
End Invariant.

(** ** Witnesses *)

(** A state without manifests. *)
Definition nothing_yet : StateManager () := mkStateManager (λ w, (w, Ok NewState)) (λ _ _ w, (w, None)).

(** One resolution, from the trigger to the end of [resolveOnce]. *)
Definition sample_cycle : list (ar_event ()) :=
  [ArKickoff; ArStart ∅; ArBegin "noon"; ArRecord RecClose; ArRecord (RecFinish "one"); ArWaited; ArAnnounce;
   ArSend; ArSend; ArStable; ArLive].

Definition sample_cycling : list (ar_event ()) → autoresolver () → option (autoresolver ()) :=
  ar_run nothing_yet (mkResolveFilter None None None None None None DeployStatusAny)
    (λ _, EFailedStatus) (λ _, EFailedStatus).

Lemma sample_cycle_runs :
  ∃ a, sample_cycling sample_cycle (Kickoff ()) = Some a ∧ resolver_at a = RClear ∧ done a = false ∧
    is_Some (stableStatus a).
Proof. eexists. split; [vm_compute; reflexivity|]. split; [reflexivity|]. split; [reflexivity|]. by eexists. Qed.

Lemma resolutions_recur_witness :
  ∃ a, sample_cycling sample_cycle (Kickoff ()) = Some a ∧
    ∃ evs' a', sample_cycling (sample_cycle ++ evs') (Kickoff ()) = Some a' ∧ resolver_at a' = RLoop.
Proof.
  destruct sample_cycle_runs as (a&Hrun&_&Hd&_). exists a. split; [exact Hrun|].
  destruct (resolutions_recur _ _ _ _ _ _ _ Hrun Hd) as (_&_&_&evs'&a'&_&Hrun'&Hra).
  exists evs', a'. split; [exact Hrun'|exact Hra].
Defined.

Lemma Statuses_race_witness :
  ∃ a a', sample_cycling sample_cycle (Kickoff ()) = Some a ∧
    sample_cycling [ArCheck; ArClear; ArUpdate] a = Some a' ∧ (panics a < panics a')%nat.
Proof.
  destruct sample_cycle_runs as (a&Hrun&Hra&_&_).
  destruct (Statuses_race _ _ _ _ _ _ _ Hrun) as [Hrace _]. destruct (Hrace Hra) as (a'&Hrun'&Hp).
  exists a, a'. split; [exact Hrun|]. split; [exact Hrun'|exact Hp].
Defined.

(** The resolver is told that all is done while the listener is about to trigger. *)
Lemma leaks_somewhere :
  ∃ a, sample_cycling (sample_cycle ++ [ArClear; ArWake; ArClose; ArQuitResolver]) (Kickoff ()) = Some a ∧
    resolver_at a = REnded ∧ after a = ATriggering.
Proof. eexists. split; [vm_compute; reflexivity|]. split; reflexivity. Qed.

Lemma trigger_leaks_witness :
  ∃ a, resolver_at a = REnded ∧ ∀ evs a', sample_cycling evs a = Some a' → after a' = ATriggering.
Proof.
  destruct leaks_somewhere as (a&_&Hr&Ha). exists a. split; [exact Hr|]. intros evs a' Hrun.
  exact (trigger_leaks _ _ _ _ evs a a' Hr Ha Hrun).
Defined.

Lemma statuses_completed_witness :
  ∃ a s, sample_cycling sample_cycle (Kickoff ()) = Some a ∧ (Statuses a).1 = Some s ∧ Finished s ≠ None.
Proof.
  destruct sample_cycle_runs as (a&Hrun&_&_&s&Hs).
  exists a, s. split; [exact Hrun|]. split; [exact Hs|].
  destruct (statuses_completed _ _ _ _ _ _ _ Hrun) as [Hst _]. destruct (Hst s Hs) as [Hf _]. exact Hf.
Defined.
