(* ===== verification/Storage.v ===== *)
(** * Storage (ext/storage: disk_state_manager.go, git_state_manager.go,
    duplexstatemanager.go, logonlystatemanager.go)

    States kept in the files of a git repository, and state managers that are made
    of two.  The file system and git are outside: they are asked to do something,
    and what they answer is a function of all they were asked before.  So the world
    is that history, which the theorems can speak of. *)

From S2P Require Import Prelude GoStrings Flaw Semv Ids Startup DeployConfig CMap Deployment.
From S2P Require Import Samples State StateManagers.
#[local] Open Scope string_scope.
#[local] Open Scope Z_scope.
#[local] Open Scope list_scope.

(** ** Repair *)

Definition sort_Owners (m : Manifest) : Manifest :=
  mkManifest (m_Source m) (m_Flavor m) (sort_strings (m_Owners m)) (m_Kind m) (m_Deployments m).

Definition with_Manifests (ms : Manifests) (s : State) : State := mkState (st_Defs s) ms (etag s).

(** The errors of repairing a list of objects, each with flaws of its own. *)
Definition repair_errors {A} (validate : A → list (Flaw A)) (l : list A) : list text :=
  concat ((λ x, (RepairAll (validate x) x).1.2) <$> l).

(** A list of volumes whose array a deployment shares, once the nil volumes of the
    deployment were dropped: the others are moved to the front of the array, and
    the list that the manifest has is as long as before. *)
Definition compact (vs : Volumes) : Volumes :=
  let newVs := filter is_Some vs in newVs ++ drop (length newVs) vs.

Definition compact_volumes (spec : DeploySpec) : DeploySpec :=
  mkDeploySpec (set_Volumes (compact (dc_Volumes (spec_DeployConfig spec))) (spec_DeployConfig spec))
    (spec_Version spec) (clusterName spec).

(** A manifest after the repair of its own flaws and of those of its deployments. *)
Definition repaired_Manifest (m : Manifest) : Manifest :=
  let m := (RepairAll (Manifest_Validate m) m).2 in
  mkManifest (m_Source m) (m_Flavor m) (m_Owners m) (m_Kind m) (compact_volumes <$> m_Deployments m).

(** [repairState]: the manifests are repaired in place; the deployments are fresh
    objects, but for the arrays of their volumes, which are those of the manifests.
    A state without deployments to be had has one flaw, a fatal one. *)
Definition repairState (s : State) : State * option (list text) :=
  let s := with_Manifests (sort_Owners <$> st_Manifests s) s in
  match State_Deployments s with
  | Err _ => (s, Some [Lit "Cannot merge a set of deployments to validate: %v: cannot be repaired."])
  | Ok ds =>
      let es := repair_errors Manifest_Validate (map_to_list (st_Manifests s)).*2
                ++ repair_errors Deployment_Validate (map_to_list ds).*2 in
      (with_Manifests (repaired_Manifest <$> st_Manifests s) s, match es with [] => None | _ => Some es end)
  end.

(** ** The outside *)

(** What is asked of it: to run git, to read or to write the files. *)
Inductive asked : Type :=
| Git (args : list string)
| ReadFiles
| WriteFiles (s : State).

(** What the codec makes of the files: the clusters may be a nil map, and so may a
    manifest. *)
Record files := mkFiles {
  f_Defs : Defs;
  f_no_clusters : bool;
  f_Manifests : gmap ManifestID (option Manifest)
}.

(** An error of running git: the exit of a process, or one of starting it. *)
Inductive git_error : Type := GitExit | GitStart.

Class Outside := {
  is_repo : list asked → bool;
  answer : list asked → list string → string * option git_error;
  contents : list asked → files * option text;
  writes : list asked → State → option text
}.

Inductive storage_error : Type :=
| NotInRepo
| GitFailed (e : git_error) (args : list string) (out : string)
| Codec (t : text)
| NilManifest (mid : ManifestID)
| UnknownCluster (clusterName : string) (mid : ManifestID)
| CouldNotRepair (es : list text)
| BadEtag (e : state_error)
| TooManyChanges (diffIndex : string)
| UnableToMerge.

Section Storage.
Context `{Outside}.

(** ** The disk state manager *)

(** The first manifest that is nil or of a cluster that is not defined, in some
    order. *)
Definition misfit (clusters : Clusters) (ms : list (ManifestID * option Manifest)) : option storage_error :=
  head (omap (λ km,
    match km.2 with
    | None => Some (NilManifest km.1)
    | Some m =>
        match filter (λ cn, clusters !! cn = None) (map_to_list (m_Deployments m)).*1 with
        | cn :: _ => Some (UnknownCluster cn km.1)
        | [] => None
        end
    end) ms).

(** The state beside an error is left out: no caller reads it. *)
Definition dsm_ReadState (h : list asked) : list asked * result storage_error State :=
  let '(f, err) := contents h in
  let h := h ++ [ReadFiles] in
  match err with
  | Some t => (h, Err (Codec t))
  | None =>
      let s := mkState (f_Defs f) (omap id (f_Manifests f)) None in
      if f_no_clusters f then (h, Ok s)
      else
        match misfit (defs_Clusters (f_Defs f)) (map_to_list (f_Manifests f)) with
        | Some e => (h, Err e)
        | None =>
            let '(s, e) := repairState s in
            (h, match e with Some es => Err (CouldNotRepair es) | None => Ok s end)
        end
  end.

(** The state that is written is the one given, which stays repaired. *)
Definition dsm_WriteState (s : State) (h : list asked) : list asked * option storage_error :=
  let '(s, e) := repairState s in
  match e with
  | Some es => (h, Some (CouldNotRepair es))
  | None => (h ++ [WriteFiles s], option_map Codec (writes h s))
  end.

(** ** The git state manager *)

Definition gitOut (args : list string) (h : list asked) : list asked * result storage_error string :=
  if is_repo h then
    let '(out, e) := answer h args in
    (h ++ [Git args], match e with Some e => Err (GitFailed e args out) | None => Ok out end)
  else (h, Err NotInRepo).

Definition git (args : list string) (h : list asked) : list asked * option storage_error :=
  let '(h, r) := gitOut args h in (h, match r with Err e => Some e | Ok _ => None end).

Definition reset (tn : string) (h : list asked) : list asked :=
  let '(h, _) := git ["reset"; "--hard"; tn] h in
  let '(h, _) := git ["clean"; "-f"] h in h.

Definition headRev (h : list asked) : list asked * result storage_error string :=
  let '(h, r) := gitOut ["rev-parse"; "HEAD"] h in
  (h, match r with Ok tag => Ok (TrimSpace tag) | Err e => Err e end).

Definition gsm_ReadState (h : list asked) : list asked * result storage_error State :=
  let '(h, _) := git ["pull"] h in
  let '(h, r) := dsm_ReadState h in
  match r with
  | Err e => (h, Err e)
  | Ok state =>
      let '(h, r) := headRev h in
      (h, match r with Err e => Err e | Ok tag => Ok (SetEtag tag state) end)
  end.

(** Only a process that ended with an error says that there is something to
    commit. *)
Definition needCommit (h : list asked) : list asked * bool :=
  let '(h, e) := git ["diff-index"; "--exit-code"; "HEAD"] h in
  (h, match e with Some (GitFailed GitExit _ _) => true | _ => false end).

(** Two newlines in the output are two files. *)
Definition more_than_one (diffIndex : string) : bool :=
  match cut newline diffIndex with
  | (_, None) => false
  | (_, Some rest) => match cut newline rest with (_, None) => false | (_, Some _) => true end
  end.

Definition assertOneChange (h : list asked) : list asked * option storage_error :=
  let '(h, r) := gitOut ["diff-index"; "--cached"; "master@{upstream}"] h in
  (h, match r with
      | Err e => Some e
      | Ok out => if more_than_one out then Some (TooManyChanges out) else None
      end).

Definition gitRectifyAttempts : nat := 5.

(** One attempt to push: what it returned, or that it is to be tried again. *)
Definition attempt (tn newTag : string) (h : list asked) : list asked * option (option storage_error) :=
  let '(h, e) := assertOneChange h in
  match e with
  | Some e => (reset tn h, Some (Some e))
  | None =>
      let '(h, e) := git ["push"; "-u"; "origin"; "master"] h in
      match e with
      | None => (h, Some None)
      | Some _ =>
          let h := reset tn h in
          let '(h, e) := git ["pull"] h in
          match e with
          | Some e => (h, Some (Some e))
          | None =>
              let '(h, e) := git ["cherry-pick"; newTag] h in
              match e with
              | None => (h, None)
              | Some _ =>
                  let '(h, e) := git ["cherry-pick"; "--abort"] h in
                  (h, match e with Some e => Some (Some e) | None => None end)
              end
          end
      end
  end.

Fixpoint push_loop (remainingAttempts : nat) (tn newTag : string) (h : list asked) :
    list asked * option storage_error :=
  match remainingAttempts with
  | O => (h, Some UnableToMerge)
  | S n =>
      let '(h, r) := attempt tn newTag h in
      match r with
      | Some e => (h, e)
      | None => push_loop n tn newTag h
      end
  end.

(** What runs with a tag, which is deleted after. *)
Definition with_tag (tn : string) (f : list asked → list asked * option storage_error) (h : list asked) :
    list asked * option storage_error :=
  let '(h, e) := git ["tag"; tn] h in
  match e with
  | Some e => (h, Some e)
  | None =>
      let '(h, e) := f h in
      let '(h, _) := git ["tag"; "-d"; tn] h in (h, e)
  end.

Definition commitCommand (u : SousUser) : list string :=
  ["commit"; "-m"; "sous commit: Update State"] ++
  (if Complete u then ["--author"; User_String u] else []).

(** The rest of [WriteState], once the files are written. *)
Definition commit_and_push (tn newTag : string) (u : SousUser) (h : list asked) :
    list asked * option storage_error :=
  let '(h, e) := git ["add"; "."] h in
  match e with
  | Some e => (reset tn h, Some e)
  | None =>
      let '(h, need) := needCommit h in
      if negb need then (h, None)
      else
        let '(h, e) := git (commitCommand u) h in
        match e with
        | Some e => (reset tn h, Some e)
        | None => with_tag newTag (push_loop gitRectifyAttempts tn newTag) h
        end
  end.

(** [u1] and [u2] are the UUIDs that are drawn. *)
Definition gsm_WriteState (u1 u2 : string) (s : State) (u : SousUser) (h : list asked) :
    list asked * option storage_error :=
  let tn := "sous-fallback-" +:+ u1 in
  let newTag := "sous-new-" +:+ u2 in
  let '(h, r) := headRev h in
  match r with
  | Err e => (h, Some e)
  | Ok tag =>
      match CheckEtag s tag with
      | Err e => (h, Some (BadEtag e))
      | Ok _ =>
          with_tag tn (λ h,
            let '(h, e) := dsm_WriteState s h in
            match e with
            | Some e => (h, Some e)
            | None => commit_and_push tn newTag u h
            end) h
      end
  end.
End Storage.

(** ** Managers made of others *)

Section Duplex.
Context {P S : Type} (primary : StateManager P) (secondary : StateManager S).

(** Errors of the secondary are only logged.  A manager that is given a state to
    write is taken not to change it; the one over files does, by repairing it. *)
Definition dup_ReadState (w : P * S) : P * S * result manager_error State :=
  let '(p, r) := ReadState primary w.1 in
  match r with
  | Err _ => (p, w.2, r)
  | Ok state => let '(s, _) := WriteState secondary state (mkSousUser "" "") w.2 in (p, s, r)
  end.

Definition dup_WriteState (state : State) (user : SousUser) (w : P * S) : P * S * option manager_error :=
  let '(s, _) := WriteState secondary state user w.2 in
  let '(p, e) := WriteState primary state user w.1 in
  (p, s, e).

Definition NewDuplexStateManager : StateManager (P * S) := mkStateManager dup_ReadState dup_WriteState.
End Duplex.

Definition NewLogOnlyStateManager {W} : StateManager W :=
  mkStateManager (λ w, (w, Ok NewState)) (λ _ _ w, (w, None)).

(** ** What was asked *)

Definition push_args : list string := ["push"; "-u"; "origin"; "master"].

Definition is_push (a : asked) : bool :=
  match a with Git args => bool_decide (args = push_args) | _ => false end.
Definition pushes (tr : list asked) : nat := length (filter is_push tr).

(** Since [h] was asked, [n] pushes were, and what makes [h']. *)
Definition asks (n : nat) (h h' : list asked) : Prop := ∃ tr, h' = h ++ tr ∧ pushes tr = n.

Lemma asks_refl h : asks 0 h h.
Proof. exists []. by rewrite app_nil_r. Qed.

Lemma asks_trans n m h1 h2 h3 : asks n h1 h2 → asks m h2 h3 → asks (n + m) h1 h3.
Proof.
  intros (t1&->&H1) (t2&->&H2). exists (t1 ++ t2). unfold pushes in *.
  by rewrite filter_app, length_app, H1, H2, app_assoc.
Qed.

Lemma asks_one a h : asks (if is_push a then 1 else 0) h (h ++ [a]).
Proof. exists [a]. unfold pushes. rewrite filter_cons. by destruct (is_push a). Qed.

Section Lemmas.
Context `{Outside}.

(** A push that went well since [h], and nothing but tags being deleted after. *)
Definition landed (h h' : list asked) : Prop :=
  ∃ h0 n, asks n h h0 ∧ (answer h0 push_args).2 = None ∧ asks 0 (h0 ++ [Git push_args]) h'.

(** Git is run in a repository, and exits without an error. *)
Definition git_did (args : list string) (h : list asked) : Prop :=
  is_repo h = true ∧ (answer h args).2 = None.

(** What follows the files being written at [h]: they are added; if git then says
    that this changes something they are committed, in the user's name if it is
    complete, and pushed; else, also when git cannot be run, nothing is. *)
Definition committed (u : SousUser) (h h' : list asked) : Prop :=
  let add := ["add"; "."] in
  let diff := ["diff-index"; "--exit-code"; "HEAD"] in
  let commit := ["commit"; "-m"; "sous commit: Update State"] ++
    (if decide (su_Name u ≠ "" ∧ su_Email u ≠ "")
     then ["--author"; su_Name u +:+ " <" +:+ su_Email u +:+ ">"] else []) in
  git_did add h ∧
  let h1 := h ++ [Git add] in
  if is_repo h1 then
    let h2 := h1 ++ [Git diff] in
    match (answer h1 diff).2 with
    | Some GitExit => git_did commit h2 ∧ landed (h2 ++ [Git commit]) h'
    | None | Some GitStart => asks 0 h2 h'
    end
  else asks 0 h1 h'.

Lemma landed_before n h h1 h' : asks n h h1 → landed h1 h' → landed h h'.
Proof. intros Ha (h0&m&Hm&Hr). exists h0, (n + m)%nat. split; [by eapply asks_trans|done]. Qed.

Lemma landed_after h h' h2 : landed h h' → asks 0 h' h2 → landed h h2.
Proof. intros (h0&m&Hm&Hr&Ht) Ha. exists h0, m. split_and!; [done..|]. by apply (asks_trans 0 0 _ h'). Qed.

Lemma git_asks args h h' e :
  git args h = (h', e) →
  (h' = h ∧ is_repo h = false ∧ e = Some NotInRepo) ∨
  (h' = h ++ [Git args] ∧ is_repo h = true ∧ (e = None ↔ (answer h args).2 = None)).
Proof.
  unfold git, gitOut. destruct (is_repo h) eqn:Hr.
  - destruct (answer h args) as [out [x|]]; intros [= <- <-]; right; done.
  - intros [= <- <-]. by left.
Qed.

Lemma git_None args h h' : git args h = (h', None) → git_did args h ∧ h' = h ++ [Git args].
Proof.
  intros [(_&_&?)|(->&Hr&He)]%git_asks; [done|]. split; [split; [done|by apply He]|done].
Qed.

Lemma git_quiet args h h' e : is_push (Git args) = false → git args h = (h', e) → asks 0 h h'.
Proof.
  intros Hp [(->&_)|(->&_)]%git_asks; [apply asks_refl|].
  pose proof (asks_one (Git args) h) as Ha. by rewrite Hp in Ha.
Qed.

Lemma gitOut_quiet args h h' r : is_push (Git args) = false → gitOut args h = (h', r) → asks 0 h h'.
Proof.
  intros Hp Hg. apply (git_quiet args h h' (match r with Err e => Some e | Ok _ => None end)); [done|].
  unfold git. by rewrite Hg.
Qed.

(** The errors that are not of a write as a whole. *)
Definition partial (e : storage_error) : Prop :=
  match e with UnableToMerge | BadEtag _ => False | _ => True end.

Lemma git_partial args h h' e : git args h = (h', Some e) → partial e.
Proof.
  unfold git, gitOut. destruct (is_repo h); [|by intros [= _ <-]].
  destruct (answer h args) as [out [x|]]; by intros [= _ <-].
Qed.

Lemma reset_quiet tn h : asks 0 h (reset tn h).
Proof.
  unfold reset. destruct (git ["reset"; "--hard"; tn] h) as [h1 e1] eqn:H1.
  destruct (git ["clean"; "-f"] h1) as [h2 e2] eqn:H2.
  apply git_quiet in H1, H2; [|done..]. by apply (asks_trans 0 0 _ h1).
Qed.

Lemma reset_no_repo tn h : is_repo h = false → reset tn h = h.
Proof. intros Hr. unfold reset, git, gitOut. by rewrite !Hr. Qed.

Lemma assertOneChange_quiet h h' e :
  assertOneChange h = (h', e) → asks 0 h h' ∧ ∀ x, e = Some x → partial x.
Proof.
  unfold assertOneChange. destruct (gitOut _ h) as [h1 r] eqn:H1.
  pose proof H1 as Hq. apply gitOut_quiet in Hq; [|done]. intros [= <- <-]. split; [done|].
  destruct r as [out|x]; [destruct (more_than_one out); by intros x [= <-]|].
  intros y [= <-]. apply (git_partial ["diff-index"; "--cached"; "master@{upstream}"] h h1).
  unfold git. by rewrite H1.
Qed.

Lemma needCommit_quiet h : asks 0 h (needCommit h).1.
Proof.
  unfold needCommit. destruct (git _ h) as [h1 e] eqn:H1. by apply git_quiet in H1.
Qed.

(** What an attempt that goes on, or that ends, has asked. *)
Lemma attempt_spec tn newTag h h' r :
  attempt tn newTag h = (h', r) →
  ∃ n, asks n h h' ∧ (n ≤ 1)%nat ∧
    match r with
    | None => n = 1%nat
    | Some None => landed h h'
    | Some (Some e) => partial e
    end.
Proof.
  unfold attempt. destruct (assertOneChange h) as [h1 e1] eqn:H1.
  apply assertOneChange_quiet in H1 as [H1 He1]. destruct e1 as [x|].
  { intros [= <- <-]. exists 0%nat. split_and!; [|lia|by apply He1].
    apply (asks_trans 0 0 _ h1); [done|apply reset_quiet]. }
  change ["push"; "-u"; "origin"; "master"] with push_args.
  destruct (git push_args h1) as [h2 e2] eqn:H2.
  pose proof (git_asks _ _ _ _ H2) as [(->&Hr&->)|(->&Hr&He2)].
  { rewrite (reset_no_repo _ h1 Hr). unfold git at 1, gitOut. rewrite Hr. intros [= <- <-].
    exists 0%nat. split_and!; [done|lia|done]. }
  pose proof (asks_trans 0 1 _ _ _ H1 (asks_one (Git push_args) h1)) as Hp. simpl in Hp.
  destruct e2 as [x|].
  2: { intros [= <- <-]. exists 1%nat. split_and!; [done|lia|]. exists h1, 0%nat.
       split_and!; [done|by apply He2|apply asks_refl]. }
  pose proof (asks_trans 1 0 _ _ _ Hp (reset_quiet tn _)) as Hq. simpl in Hq.
  destruct (git ["pull"] _) as [h3 e3] eqn:H3.
  apply git_quiet in H3 as Hq3; [|done]. pose proof (asks_trans 1 0 _ _ _ Hq Hq3) as Hw. simpl in Hw.
  destruct e3 as [y|].
  { intros [= <- <-]. exists 1%nat. split_and!; [done|lia|]. by eapply git_partial. }
  destruct (git ["cherry-pick"; newTag] h3) as [h4 e4] eqn:H4.
  apply git_quiet in H4; [|done]. pose proof (asks_trans 1 0 _ _ _ Hw H4) as Hx. simpl in Hx.
  destruct e4 as [y|]; [|intros [= <- <-]; exists 1%nat; split_and!; [done|lia|done]].
  destruct (git ["cherry-pick"; "--abort"] h4) as [h5 e5] eqn:H5.
  apply git_quiet in H5 as Hq5; [|done]. pose proof (asks_trans 1 0 _ _ _ Hx Hq5) as Hy. simpl in Hy.
  destruct e5 as [z|]; intros [= <- <-]; exists 1%nat; (split_and!; [done|lia|]); [|done].
  by eapply git_partial.
Qed.

Lemma push_loop_spec k tn newTag h h' e :
  push_loop k tn newTag h = (h', e) →
  ∃ n, asks n h h' ∧ (n ≤ k)%nat ∧ (e = None → landed h h') ∧
    (∀ x, e = Some x → partial x ∨ x = UnableToMerge ∧ n = k).
Proof.
  revert h. induction k as [|k IH]; intros h; simpl.
  { intros [= <- <-]. exists 0%nat. split_and!; [apply asks_refl|lia|done|]. intros x [= <-]. by right. }
  destruct (attempt tn newTag h) as [h1 r] eqn:Ha. apply attempt_spec in Ha as (n&Hn&Hle&Hr).
  destruct r as [e1|].
  - intros [= <- <-]. exists n. split_and!; [done|lia|by intros ->|]. intros x ->. by left.
  - intros (m&Hm&Hle'&Hl&Hu)%IH. exists (n + m)%nat. subst n. split_and!.
    + by eapply asks_trans.
    + lia.
    + intros He. eapply landed_before; [exact Hn|by apply Hl].
    + intros x Hx. destruct (Hu x Hx) as [?|[-> ->]]; [by left|by right].
Qed.

(** Running with a tag asks what the run asks, and ends as it does unless the tag
    could not be made. *)
Lemma with_tag_spec tn f h h' e :
  with_tag tn f h = (h', e) →
  (asks 0 h h' ∧ ∃ x, e = Some x ∧ partial x) ∨
  ∃ h1 h2, asks 0 h h1 ∧ f h1 = (h2, e) ∧ asks 0 h2 h'.
Proof.
  unfold with_tag. destruct (git ["tag"; tn] h) as [h1 e1] eqn:H1.
  apply git_quiet in H1 as Hq; [|done]. destruct e1 as [x|].
  { intros [= <- <-]. left. split; [done|]. exists x. split; [done|]. by eapply git_partial. }
  destruct (f h1) as [h2 e2] eqn:Hf. destruct (git ["tag"; "-d"; tn] h2) as [h3 e3] eqn:H3.
  apply git_quiet in H3; [|done]. intros [= <- <-]. right. by exists h1, h2.
Qed.

Lemma commitCommand_args u :
  commitCommand u = ["commit"; "-m"; "sous commit: Update State"] ++
    (if decide (su_Name u ≠ "" ∧ su_Email u ≠ "")
     then ["--author"; su_Name u +:+ " <" +:+ su_Email u +:+ ">"] else []).
Proof.
  unfold commitCommand, Complete, User_String. destruct u as [name email]. cbn [su_Name su_Email]. f_equal.
  destruct (decide (name = "")) as [->|Hn], (decide (email = "")) as [->|He];
    repeat case_bool_decide; cbn; case_decide; tauto.
Qed.

Lemma committed_after u h h' h2 : committed u h h' → asks 0 h' h2 → committed u h h2.
Proof.
  unfold committed. intros [Hadd Hrest] Ha. split; [done|].
  destruct (is_repo _); [|by apply (asks_trans 0 0 _ h')].
  destruct (answer _ _).2 as [[]|]; [|by apply (asks_trans 0 0 _ h')..].
  destruct Hrest as [Hc Hl]. split; [done|]. by eapply landed_after.
Qed.

Lemma commit_and_push_spec tn newTag u h h' e :
  commit_and_push tn newTag u h = (h', e) →
  ∃ n, asks n h h' ∧ (n ≤ 5)%nat ∧ (e = None → committed u h h') ∧
    (∀ x, e = Some x → partial x ∨ x = UnableToMerge ∧ n = 5%nat).
Proof.
  unfold commit_and_push, committed. destruct (git ["add"; "."] h) as [h1 e1] eqn:H1.
  apply git_quiet in H1 as Ha; [|done]. destruct e1 as [x|].
  { intros [= <- <-]. exists 0%nat. split_and!; [|lia|done|].
    - apply (asks_trans 0 0 _ h1); [done|apply reset_quiet].
    - intros y [= <-]. left. by eapply git_partial. }
  apply git_None in H1 as [Hadd ->].
  set (h1 := h ++ [Git ["add"; "."]]) in *.
  pose proof (needCommit_quiet h1) as Hn. destruct (needCommit h1) as [h2 need] eqn:H2.
  pose proof (asks_trans 0 0 _ _ _ Ha Hn) as Hb. cbn [Nat.add fst] in Hb.
  unfold needCommit, git, gitOut in H2. destruct (is_repo h1) eqn:Hrepo.
  2: { injection H2 as <- <-. cbn [negb]. intros [= <- <-]. exists 0%nat.
       split_and!; [done|lia|intros _; by split|done]. }
  destruct (answer h1 ["diff-index"; "--exit-code"; "HEAD"]) as [out ge]. cbn [snd].
  destruct ge as [[]|]; injection H2 as <- <-; cbn [negb].
  2,3: intros [= <- <-]; exists 0%nat; split_and!; [done|lia|intros _; split; [done|exact (asks_refl _)]|done].
  set (h2 := h1 ++ _) in *. rewrite commitCommand_args. match goal with |- context [git ?c h2] => set (commit := c) in * end.
  destruct (git commit h2) as [h3 e3] eqn:H3.
  apply git_quiet in H3 as Hq; [|done]. pose proof (asks_trans 0 0 _ _ _ Hb Hq) as Hc. simpl in Hc.
  destruct e3 as [x|].
  { intros [= <- <-]. exists 0%nat. split_and!; [|lia|done|].
    - apply (asks_trans 0 0 _ h3); [done|apply reset_quiet].
    - intros y [= <-]. left. by eapply git_partial. }
  apply git_None in H3 as [Hcommit ->].
  intros [(Hx&x&->&Hm)|(h4&h5&Hx&Hl&Hy)]%with_tag_spec.
  { exists 0%nat. split_and!; [by apply (asks_trans 0 0 _ (h2 ++ [Git commit]))|lia|done|]. intros y [= <-]. by left. }
  apply push_loop_spec in Hl as (n&Hn5&Hle&Hok&Hu).
  pose proof (asks_trans 0 0 _ _ _ Hc Hx) as Hd. simpl in Hd.
  exists n. split_and!; [|done| |done].
  - replace n with (0 + n + 0)%nat by lia. eapply asks_trans; [|done]. by eapply asks_trans.
  - intros He. split; [done|]. split; [done|]. eapply landed_before; [exact Hx|].
    by eapply landed_after; [apply Hok|].
Qed.

Lemma dsm_WriteState_asks s h h' e :
  dsm_WriteState s h = (h', e) →
  asks 0 h h' ∧ (∀ x, e = Some x → partial x) ∧
  (e = None → ∃ s', repairState s = (s', None) ∧ h' = h ++ [WriteFiles s'] ∧ writes h s' = None).
Proof.
  unfold dsm_WriteState. destruct (repairState s) as [s' [es|]]; intros [= <- <-].
  - split_and!; [apply asks_refl|by intros x [= <-]|done].
  - split_and!; [apply (asks_one (WriteFiles s'))| |].
    + destruct (writes h s'); intros x Hx; [by injection Hx as <-|done].
    + destruct (writes h s') eqn:Hw; [done|]. intros _. by exists s'.
Qed.

Lemma CheckEtag_cases s tag :
  match CheckEtag s tag with
  | Ok _ => ∀ x, etag s = Some x → tag = x
  | Err _ => ∃ x, etag s = Some x ∧ tag ≠ x
  end.
Proof.
  unfold CheckEtag. destruct (etag s) as [x|]; [|done]. case_decide; [by intros ? [= <-]|by exists x].
Qed.

(** C20.  A state is written to git only if its etag is none or is the revision the
    repository is at, the space around that trimmed: otherwise nothing but that
    revision is asked for.  A write that returns no error has written the repaired
    state to the files and added them; and if git then said that there was
    something to commit, it has committed that, and a push went well after which
    nothing was pushed; if git said that there was not, or could not be run to
    tell, nothing is committed.  No write pushes more than five times, and one
    that gives up on merging has pushed exactly five times. *)
Theorem gsm_WriteState_pushes (u1 u2 : string) (s : State) (u : SousUser) (h h' : list asked)
    (e : option storage_error) :
  gsm_WriteState u1 u2 s u h = (h', e) →
  let head := ["rev-parse"; "HEAD"] in
  let revision := TrimSpace (answer h head).1 in
  ∃ n, asks n h h' ∧ (n ≤ 5)%nat ∧
    match e with
    | None =>
        git_did head h ∧ (∀ x, etag s = Some x → revision = x) ∧
        ∃ h1 s', asks 0 h h1 ∧ repairState s = (s', None) ∧ writes h1 s' = None ∧
          committed u (h1 ++ [WriteFiles s']) h'
    | Some (BadEtag _) =>
        h' = h ++ [Git head] ∧ git_did head h ∧ ∃ x, etag s = Some x ∧ revision ≠ x
    | Some UnableToMerge => n = 5%nat
    | Some _ => True
    end.
Proof.
  cbn zeta. unfold gsm_WriteState. destruct (headRev h) as [h1 r] eqn:Hh. pose proof Hh as Hq.
  unfold headRev in Hq. destruct (gitOut _ h) as [h1' r'] eqn:Hg.
  pose proof Hg as Ha. apply gitOut_quiet in Ha; [|done]. injection Hq as <- Hr.
  destruct r as [tag|x].
  2: { intros [= <- <-]. exists 0%nat. split_and!; [done|lia|].
       assert (partial x) as Hp; [|by destruct x].
       destruct r' as [?|x']; [done|]. injection Hr as ->.
       apply (git_partial ["rev-parse"; "HEAD"] h h1'). unfold git. by rewrite Hg. }
  assert (git_did ["rev-parse"; "HEAD"] h ∧ h1' = h ++ [Git ["rev-parse"; "HEAD"]] ∧
    tag = TrimSpace (answer h ["rev-parse"; "HEAD"]).1) as (Hdid&Hh1&->).
  { unfold gitOut in Hg. unfold git_did. destruct (is_repo h); [|injection Hg as <- <-; discriminate Hr].
    destruct (answer h _) as [out [|]]; injection Hg as <- <-; [discriminate Hr|]. by injection Hr as <-. }
  pose proof (CheckEtag_cases s (TrimSpace (answer h ["rev-parse"; "HEAD"]).1)) as Hce.
  destruct (CheckEtag s _) as [[]|x] eqn:Hc.
  2: { intros [= <- <-]. exists 0%nat. split_and!; [done|lia|done|done|done]. }
  intros [(Hx&x&->&Hm)|(h2&h3&Hx&Hb&Hy)]%with_tag_spec.
  { exists 0%nat. split_and!; [by apply (asks_trans 0 0 _ h1')|lia|by destruct x]. }
  pose proof (asks_trans 0 0 _ _ _ Ha Hx) as Ht. cbn [Nat.add] in Ht.
  destruct (dsm_WriteState s h2) as [h4 e4] eqn:Hd. apply dsm_WriteState_asks in Hd as (Hd&Hp&Hw).
  destruct e4 as [x|].
  { injection Hb as <- <-. exists 0%nat. split_and!; [|lia|by specialize (Hp x eq_refl); destruct x].
    apply (asks_trans 0 0 _ h4); [|done]. by apply (asks_trans 0 0 _ h2). }
  apply commit_and_push_spec in Hb as (n&Hn&Hle&Hok&Her). exists n. split_and!.
  { replace n with (0 + 0 + n + 0)%nat by lia. do 3 (eapply asks_trans; [|done]). done. }
  { done. }
  destruct e as [x|]; [destruct (Her x eq_refl) as [?|[-> ?]]; [by destruct x|done]|].
  split; [done|]. split; [done|]. destruct (Hw eq_refl) as (s'&Hs&->&Hws). exists h2, s'.
  split_and!; [done..|]. by eapply committed_after; [apply Hok|].
Qed.
End Lemmas.

(** ** Lemmas: repairs that succeed leave nothing to repair *)

Lemma repair_errors_nil {A} (validate : A → list (Flaw A)) l :
  repair_errors validate l = [] ↔ ∀ x, x ∈ l → (RepairAll (validate x) x).1.2 = [].
Proof.
  unfold repair_errors. induction l as [|x l IH]; simpl; [set_solver|].
  rewrite app_nil, IH. set_solver.
Qed.

Lemma kind_valid {P} k : k ∈ valid_kinds → k ≠ "" ∧ ManifestKind_Validate (S := P) k = [].
Proof.
  intros Hk. split; [|unfold ManifestKind_Validate; by case_decide].
  intros ->. revert Hk. vm_compute. intros Hk. by repeat (inversion Hk as [|? ? ? Hk']; clear Hk; rename Hk' into Hk).
Qed.

Lemma manifest_valid m : m_Kind m ∈ valid_kinds → Manifest_Validate m = [].
Proof.
  intros Hk. destruct (kind_valid (P := Manifest) _ Hk) as [Hne Hv]. unfold Manifest_Validate.
  by rewrite decide_False.
Qed.

Lemma filter_all (vs : Volumes) : None ∉ vs → filter is_Some vs = vs.
Proof.
  intros Hn. induction vs as [|[v|] vs IH]; [done| |set_solver].
  rewrite filter_cons_True by by eexists. f_equal. apply IH. set_solver.
Qed.

(** A list with nil volumes is not what is left of it without them: it keeps its
    length, so that the last volumes are repeated, or a nil one stays. *)
Theorem compact_spec (vs : Volumes) :
  length (compact vs) = length vs ∧ (None ∉ vs → compact vs = vs) ∧
  (None ∈ vs → compact vs ≠ filter is_Some vs).
Proof.
  assert (length (compact vs) = length vs) as Hlen.
  { unfold compact. rewrite length_app, length_drop. pose proof (length_filter is_Some vs). lia. }
  split_and!; [done| |].
  - intros Hn. unfold compact. rewrite (filter_all vs Hn), drop_all. apply app_nil_r.
  - intros Hin Heq. rewrite Heq in Hlen. pose proof (length_filter_lt is_Some vs None Hin) as Hlt.
    assert (¬ is_Some (@None Volume)) as Hns by (intros [? ?]; done). specialize (Hlt Hns). lia.
Qed.

(** A manifest without nil volumes. *)
Definition no_nil (m : Manifest) : Prop :=
  ∀ cn spec, m_Deployments m !! cn = Some spec → None ∉ dc_Volumes (spec_DeployConfig spec).

Lemma compacted_id m : no_nil m → compact_volumes <$> m_Deployments m = m_Deployments m.
Proof.
  intros Hn. rewrite <-(map_fmap_id (m_Deployments m)) at 2. apply map_fmap_ext.
  intros cn spec Hs. unfold compact_volumes. rewrite (proj1 (proj2 (compact_spec _)) (Hn _ _ Hs)).
  by destruct spec as [[] ? ?].
Qed.

Lemma repaired_valid m : no_nil m → m_Kind m ∈ valid_kinds → repaired_Manifest m = m.
Proof.
  intros Hn Hk. unfold repaired_Manifest. rewrite manifest_valid by done. cbn [RepairAll snd].
  rewrite compacted_id by done. by destruct m.
Qed.

Lemma manifest_repaired m :
  no_nil m → (RepairAll (Manifest_Validate m) m).1.2 = [] →
  m_Kind (repaired_Manifest m) ∈ valid_kinds ∧ repaired_Manifest m = set_m_Kind (m_Kind (repaired_Manifest m)) m.
Proof.
  intros Hn He. unfold repaired_Manifest in *. revert He. unfold Manifest_Validate. case_decide as Hk.
  - intros _. cbn. rewrite compacted_id by done. split; [apply (bool_decide_unpack _); by vm_compute|done].
  - unfold ManifestKind_Validate. case_decide; cbn; [|done]. rewrite compacted_id by done.
    intros _. split; [done|by destruct m].
Qed.

(** The kind of a deployment does not bear on the flaws of its config. *)
Lemma deployment_clean d k :
  (RepairAll (Deployment_Validate d) d).1.2 = [] → k ∈ valid_kinds →
  (RepairAll (Deployment_Validate (set_Kind k d)) (set_Kind k d)).1.2 = [].
Proof.
  intros He Hk. destruct (kind_valid (P := Deployment) _ Hk) as [Hne Hv].
  destruct (RepairAll (DeployConfig_Validate (d_DeployConfig d)) (d_DeployConfig d)) as [[fs es] dc] eqn:Hc.
  assert (∀ x, d_DeployConfig x = d_DeployConfig d →
    (RepairAll (lift_flaw d_DeployConfig set_DeployConfig <$> DeployConfig_Validate (d_DeployConfig d)) x).1.2 = es)
    as Hl.
  { intros x Hx. by erewrite RepairAll_lift; [|by intros []|by intros []|by intros ?? []|by rewrite Hx]. }
  assert (es = []) as ->.
  { revert He. unfold Deployment_Validate. rewrite RepairAll_app.
    destruct (RepairAll (if decide (Kind d = "") then _ else _) d) as [[f1 e1] s1] eqn:H1.
    assert (d_DeployConfig s1 = d_DeployConfig d) as Hs.
    { revert H1. case_decide; [by intros [= _ _ <-]|]. unfold ManifestKind_Validate.
      case_decide; by intros [= _ _ <-]. }
    specialize (Hl s1 Hs). destruct (RepairAll _ s1) as [[f2 e2] s2]. simpl in *. subst.
    by intros [_ ?]%app_nil. }
  unfold Deployment_Validate. cbn [Kind set_Kind d_DeployConfig].
  rewrite decide_False by done. rewrite Hv. by apply Hl.
Qed.

Lemma Manifests_Deployments_defined defs ms ds :
  Manifests_Deployments defs ms = Ok ds → map_Forall (λ _, clusters_defined defs) ms.
Proof.
  intros Hds mid m Hm. apply elem_of_map_to_list, list_elem_of_split in Hm as (l1&l2&Hl).
  unfold Manifests_Deployments in Hds. rewrite Hl, rfold_app in Hds.
  destruct (rfold _ l1 ∅) as [acc|]; [|done]. simpl in Hds.
  apply DeploymentsFromManifest_ok. destruct (DeploymentsFromManifest defs m); [by eexists|done].
Qed.

Definition repaired_all (ms : Manifests) : Manifests := repaired_Manifest <$> (sort_Owners <$> ms).

(** What a repair without errors says of a state. *)
Lemma repairState_ok s s' :
  map_Forall (λ _, no_nil) (st_Manifests s) → repairState s = (s', None) →
  s' = with_Manifests (repaired_all (st_Manifests s)) s ∧
  ∃ ds, Manifests_Deployments (st_Defs s) (sort_Owners <$> st_Manifests s) = Ok ds ∧
    (∀ mid m, st_Manifests s !! mid = Some m →
       m_Kind (repaired_Manifest (sort_Owners m)) ∈ valid_kinds ∧
       repaired_Manifest (sort_Owners m) =
         set_m_Kind (m_Kind (repaired_Manifest (sort_Owners m))) (sort_Owners m)) ∧
    ∀ did d, ds !! did = Some d → (RepairAll (Deployment_Validate d) d).1.2 = [].
Proof.
  intros Hnil. unfold repairState. set (s1 := with_Manifests _ s). unfold State_Deployments.
  change (st_Defs s1) with (st_Defs s). change (st_Manifests s1) with (sort_Owners <$> st_Manifests s).
  destruct (Manifests_Deployments _ _) as [ds|] eqn:Hds; [|done].
  destruct (_ ++ _) eqn:He; [|done]. intros [= <-]. apply app_nil in He as [Hm Hd].
  rewrite repair_errors_nil in Hm. rewrite repair_errors_nil in Hd. split; [done|]. exists ds. split_and!; [done| |].
  - intros mid m Hmid. apply manifest_repaired; [exact (Hnil mid m Hmid)|]. apply Hm, list_elem_of_fmap.
    exists (mid, sort_Owners m). by rewrite elem_of_map_to_list, lookup_fmap, Hmid.
  - intros did d Hdid. apply Hd, list_elem_of_fmap. exists (did, d). by rewrite elem_of_map_to_list.
Qed.

Lemma sort_Owners_repaired k m : sort_Owners (set_m_Kind k (sort_Owners m)) = set_m_Kind k (sort_Owners m).
Proof.
  unfold sort_Owners, set_m_Kind. simpl. f_equal. apply sort_strings_unique, sort_strings_perm.
Qed.

(** Repairing again changes nothing. *)
Lemma repaired_again s s' mid m :
  map_Forall (λ _, no_nil) (st_Manifests s) → repairState s = (s', None) → st_Manifests s' !! mid = Some m →
  m_Kind m ∈ valid_kinds ∧ sort_Owners m = m ∧
  ∃ m0, st_Manifests s !! mid = Some m0 ∧ m = set_m_Kind (m_Kind m) (sort_Owners m0).
Proof.
  intros Hnil (->&ds&_&Hm&_)%repairState_ok; [|done]. unfold with_Manifests, repaired_all. simpl.
  rewrite !lookup_fmap. destruct (st_Manifests s !! mid) as [m0|] eqn:H0; [|done].
  intros [= <-]. destruct (Hm _ _ H0) as [Hk He]. split_and!; [done| |by exists m0].
  rewrite He. apply sort_Owners_repaired.
Qed.

Lemma described_kind defs k m cn d :
  described defs (set_m_Kind k m) cn d → ∃ d0, described defs m cn d0 ∧ d = set_Kind k d0.
Proof.
  intros (spec&cluster&Hs&Hc&->). exists (BuildDeployment m cn cluster spec []).
  split; [by exists spec, cluster|done].
Qed.

Lemma repairState_idem s s' :
  keyed (st_Manifests s) → map_Forall (λ _, no_nil) (st_Manifests s) →
  repairState s = (s', None) → repairState s' = (s', None).
Proof.
  intros Hk Hnil Hr. pose proof (λ mid m, repaired_again s s' mid m Hnil) as Hag.
  pose proof Hr as (Hs'&ds&Hds&_&Hd)%repairState_ok; [|done].
  assert (st_Defs s' = st_Defs s) as Hdefs by by subst s'.
  assert (keyed (sort_Owners <$> st_Manifests s)) as Hk0.
  { apply map_Forall_fmap. intros mid m Hm. exact (Hk mid m Hm). }
  assert (sort_Owners <$> st_Manifests s' = st_Manifests s') as Hsort.
  { rewrite <-(map_fmap_id (st_Manifests s')) at 2. apply map_fmap_ext.
    intros mid m Hm. by destruct (Hag _ _ Hr Hm) as (_&?&_). }
  assert (repaired_Manifest <$> st_Manifests s' = st_Manifests s') as Hrep.
  { rewrite <-(map_fmap_id (st_Manifests s')) at 2. apply map_fmap_ext.
    intros mid m Hm. destruct (Hag mid m Hr Hm) as (Hv&_&m0&H0&Heq). apply repaired_valid; [|done].
    rewrite Heq. exact (Hnil mid m0 H0). }
  assert (keyed (st_Manifests s')) as Hk'.
  { intros mid m Hm. destruct (Hag _ _ Hr Hm) as (_&_&m0&H0&->). exact (Hk mid m0 H0). }
  destruct (Manifests_Deployments_ok (st_Defs s') (st_Manifests s') Hk') as [ds' Hds'].
  { intros mid m Hm cn spec Hcn. destruct (Hag _ _ Hr Hm) as (_&_&m0&H0&Heq). rewrite Heq in Hcn. rewrite Hdefs.
    apply (Manifests_Deployments_defined _ _ _ Hds mid (sort_Owners m0)) with spec; [|done].
    by rewrite lookup_fmap, H0. }
  unfold repairState. rewrite Hsort.
  replace (with_Manifests (st_Manifests s') s') with s' by by destruct s'.
  unfold State_Deployments. rewrite Hds'.
  replace (_ ++ _) with (@nil text); [rewrite Hrep; by destruct s'|]. symmetry. apply app_nil.
  rewrite !repair_errors_nil. split.
  - intros m ([mid m']&->&Hm%elem_of_map_to_list)%list_elem_of_fmap. simpl.
    rewrite manifest_valid; [done|]. by apply (Hag mid m').
  - intros d ([did d']&->&Hdid%elem_of_map_to_list)%list_elem_of_fmap. simpl.
    apply (Manifests_Deployments_spec _ _ _ Hk' Hds') in Hdid as (m&Hm&Hdesc).
    destruct (Hag _ _ Hr Hm) as (Hv&_&m0&H0&Heq). rewrite Heq in Hdesc.
    apply described_kind in Hdesc as (d0&Hd0&->). apply deployment_clean; [|done].
    apply (Hd did). apply (Manifests_Deployments_spec _ _ _ Hk0 Hds). exists (sort_Owners m0).
    rewrite lookup_fmap, H0, <-Hdefs. done.
Qed.

Lemma repairState_etag s e :
  let '(s', r) := repairState s in
  repairState (mkState (st_Defs s) (st_Manifests s) e) = (mkState (st_Defs s') (st_Manifests s') e, r).
Proof.
  unfold repairState. set (s1 := with_Manifests _ s).
  set (s2 := with_Manifests _ (mkState _ _ e)).
  change (State_Deployments s2) with (State_Deployments s1).
  by destruct (State_Deployments s1).
Qed.

Lemma misfit_none clusters (ms : list (ManifestID * option Manifest)) :
  (∀ mid x, (mid, x) ∈ ms → ∃ m, x = Some m ∧ ∀ cn spec, m_Deployments m !! cn = Some spec → is_Some (clusters !! cn)) →
  misfit clusters ms = None.
Proof.
  unfold misfit. induction ms as [|[mid x] ms IH]; intros Hall; [done|]. simpl.
  destruct (Hall mid x) as (m&->&Hc); [set_solver|].
  destruct (filter _ _) as [|cn l] eqn:Hf; [apply IH; intros; apply (Hall mid0); set_solver|].
  assert (cn ∈ filter (λ cn, clusters !! cn = None) (map_to_list (m_Deployments m)).*1) as Hin
    by (rewrite Hf; set_solver).
  apply list_elem_of_filter in Hin as [Hn ([cn' spec]&->&Hs)%list_elem_of_fmap].
  apply elem_of_map_to_list in Hs. apply Hc in Hs as [? ?]. simpl in Hn. congruence.
Qed.

(** ** The disk *)

Section Disk.
Context `{Outside}.

(** What the codec (hy, which is vendored) does with a state: it writes a file for
    the definitions and one for each manifest, named after its ID, and no file is
    ever removed.  So the files then hold the state, whether or not what they have
    for its clusters is a nil map, and the manifests that they held and the state
    has not.  [read_back] is what becomes of a manifest in a file. *)
Definition writes_over (read_back : Manifest → option Manifest) : Prop :=
  ∀ h s f, contents h = (f, None) → writes h s = None →
    ∃ nc, contents (h ++ [WriteFiles s]) =
      (mkFiles (st_Defs s) nc ((read_back <$> st_Manifests s) ∪ f_Manifests f), None).

Lemma dsm_ReadState_ok h s f :
  contents h = (f, None) → (dsm_ReadState h).2 = Ok s → dom (st_Manifests s) = dom (omap id (f_Manifests f)).
Proof.
  unfold dsm_ReadState. intros ->. destruct (f_no_clusters f); [by intros [= <-]|].
  destruct (misfit _ _); [done|]. set (s0 := mkState _ _ _).
  assert (dom (st_Manifests (repairState s0).1) = dom (omap id (f_Manifests f))) as Hd.
  { unfold repairState. destruct (State_Deployments _); simpl; by rewrite !dom_fmap_L. }
  destruct (repairState s0) as [s1 [es|]]; [done|]. by intros [= <-].
Qed.

Lemma dsm_ReadState_h h : (dsm_ReadState h).1 = h ++ [ReadFiles].
Proof.
  unfold dsm_ReadState. destruct (contents h) as [f [t|]]; [done|]. destruct (f_no_clusters f); [done|].
  destruct (misfit _ _); [done|]. by destruct (repairState _).
Qed.

Section Written.
Context (read_back : Manifest → option Manifest) (Hover : writes_over read_back).
Context (s : State) (h h' : list asked) (f : files).
Context (Hread : contents h = (f, None)) (Hw : dsm_WriteState s h = (h', None)).
Context (Hk : keyed (st_Manifests s)) (Hnil : map_Forall (λ _, no_nil) (st_Manifests s)).

End Written.

(** A conflict is forgotten: when the change that could not be pushed cannot be
    picked onto what was pulled, and the pick is aborted, the next attempt has
    nothing left to push; that its push goes well ends the write without an
    error.  (git_state_manager.go logs "Successfully cherry-picked new changes"
    after the abort.) *)
Theorem conflict_forgotten (tn newTag : string) (n : nat) (h h1 h2 h3 h4 h5 h6 h7 : list asked)
    (pushed picked : storage_error) :
  assertOneChange h = (h1, None) → git push_args h1 = (h2, Some pushed) →
  git ["pull"] (reset tn h2) = (h3, None) → git ["cherry-pick"; newTag] h3 = (h4, Some picked) →
  git ["cherry-pick"; "--abort"] h4 = (h5, None) →
  assertOneChange h5 = (h6, None) → git push_args h6 = (h7, None) →
  push_loop (S (S n)) tn newTag h = (h7, None).
Proof.
  intros H1 H2 H3 H4 H5 H6 H7. simpl. unfold attempt. change ["push"; "-u"; "origin"; "master"] with push_args.
  by rewrite H1, H2, H3, H4, H5, H6, H7.
Qed.
End Disk.

(** ** Managers made of others *)

(** What is read and written through a duplex manager is what the primary reads
    and writes; the secondary is given every state that was read, in the name of
    no user, and every one to be written, whether or not the primary takes it. *)
Theorem duplex_primary {P S} (primary : StateManager P) (secondary : StateManager S)
    (p : P) (s : S) (st : State) (user : SousUser) :
  let d := NewDuplexStateManager primary secondary in
  let '(p1, r) := ReadState primary p in
  let '(p2, e) := WriteState primary st user p in
  ReadState d (p, s) =
    (p1, match r with Ok read => (WriteState secondary read (mkSousUser "" "") s).1 | Err _ => s end, r) ∧
  WriteState d st user (p, s) = (p2, (WriteState secondary st user s).1, e).
Proof.
  cbn [NewDuplexStateManager ReadState WriteState]. unfold dup_ReadState, dup_WriteState. simpl.
  destruct (ReadState primary p) as [p1 r], (WriteState primary st user p) as [p2 e].
  split; [|by destruct (WriteState secondary st user s)].
  destruct r as [read|x]; [|done]. by destruct (WriteState secondary read _ s).
Qed.

(** ** Witnesses *)

(** A repository whose remote has a change that conflicts with the local one: git
    has something to commit, a push goes well once what is there was pulled, and
    no change can be picked onto it.  The files are written over, and none is
    removed. *)
Definition pulled (h : list asked) : bool := 
  existsb (λ a, match a with Git args => bool_decide (args = ["pull"]) | _ => false end) h.

Definition written (h : list asked) : files :=
  foldl (λ f a, match a with
                | WriteFiles s => mkFiles (st_Defs s) false ((Some <$> st_Manifests s) ∪ f_Manifests f)
                | _ => f
                end) (mkFiles (st_Defs NewState) false ∅) h.

Definition conflicting : Outside := {|
  is_repo _ := true;
  answer h args :=
    if decide (args = ["rev-parse"; "HEAD"]) then ("etag-1 ", None)
    else if decide (args = ["diff-index"; "--exit-code"; "HEAD"]) then ("", Some GitExit)
    else if decide (args = push_args) then ("", if pulled h then None else Some GitExit)
    else if decide (args = ["cherry-pick"; "sous-new-2"]) then ("", Some GitExit)
    else ("", None);
  contents h := (written h, None);
  writes _ _ := None
|}.

Definition conflict_user : SousUser := mkSousUser "Alice" "alice@example.com".

Definition conflict_run : list asked * option storage_error :=
  @gsm_WriteState conflicting "1" "2" (SetEtag "etag-1" NewState) conflict_user [].

Lemma conflict_run_ends : conflict_run.2 = None ∧ pushes conflict_run.1 = 2%nat.
Proof. vm_compute. split; reflexivity. Qed.

Lemma compact_spec_witness :
  let a := Some (mkVolume "/a" "/a" "RO") in let b := Some (mkVolume "/b" "/b" "RO") in
  compact [None; a; b] ≠ filter is_Some [None; a; b] ∧ compact [None; a; b] = [a; b; b].
Proof.
  split; [|reflexivity]. apply (proj2 (proj2 (compact_spec _))). apply list_elem_of_here.
Defined.

Lemma gsm_WriteState_pushes_witness :
  ∃ n h1 s', asks n [] conflict_run.1 ∧ (n ≤ 5)%nat ∧ asks 0 [] h1 ∧
    repairState (SetEtag "etag-1" NewState) = (s', None) ∧
    @committed conflicting conflict_user (h1 ++ [WriteFiles s']) conflict_run.1.
Proof.
  destruct (@gsm_WriteState_pushes conflicting "1" "2" (SetEtag "etag-1" NewState) conflict_user []
    conflict_run.1 conflict_run.2) as (n&Hn&Hle&He).
  - unfold conflict_run. destruct (@gsm_WriteState conflicting "1" "2" _ _ []). exact eq_refl.
  - rewrite (proj1 conflict_run_ends) in He. destruct He as (_&_&h1&s'&H1&H2&_&H3).
    exists n, h1, s'. exact (conj Hn (conj Hle (conj H1 (conj H2 H3)))).
Defined.

Lemma conflict_forgotten_witness :
  ∃ h, @push_loop conflicting 5 "sous-fallback-1" "sous-new-2" [] = (h, None).
Proof.
  eexists. eapply (@conflict_forgotten conflicting "sous-fallback-1" "sous-new-2" 3);
    vm_compute; reflexivity.
Defined.

Lemma sample_repaired : (repairState sample_state).2 = None.
Proof. vm_compute. reflexivity. Qed.

Lemma sample_no_nil : map_Forall (λ _, no_nil) (st_Manifests sample_state).
Proof.
  change (map_Forall (λ _, no_nil) ({[sample_mid := sample_manifest]} : Manifests)).
  apply map_Forall_singleton. intros cn spec Hs.
  change (({["ci-sf" := sample_spec]} : gmap string DeploySpec) !! cn = Some spec) in Hs.
  apply lookup_singleton_Some in Hs as [_ <-]. apply (bool_decide_unpack _). vm_compute. exact I.
Qed.

Lemma conflicting_over : @writes_over conflicting Some.
Proof. intros h s f [= <-] _. exists false. simpl. unfold written. by rewrite foldl_app. Qed.

