(* ===== verification/Commands.v ===== *)
(** * Commands (cli/actions: deploy.go, update.go, manifest_get.go, manifest_set.go,
    rectify.go, pollstatus.go)

    What the client does for a command: it asks the server through the REST client,
    changes what it got, and puts it back; a deploy then polls its place in the
    queue.  Progress bars and logging are left out. *)

From S2P Require Import Prelude GoStrings Flaw Semv Ids Startup DeployConfig CMap Deployment.
From S2P Require Import Samples State Differ ResolveFilter ResolveErrors StateManagers R11nQueue Poller.
From S2P Require Import PutBack GoUrl Restful Server HttpState.
#[local] Open Scope string_scope.
#[local] Open Scope Z_scope.
#[local] Open Scope list_scope.

(** ** Bodies (server/data.go, dto/r11nresponse.go) *)

Record SingleDeploymentBody := mkSingleBody {
  sb_Links : gomap string;
  sb_Deployment : option DeploySpec
}.

Record R11nResponse := mkR11nResponse {
  QueuePosition : Z;
  rr_Resolution : option DiffResolution
}.

Definition zeroSingleBody : SingleDeploymentBody := mkSingleBody None None.
Definition zeroR11nResponse : R11nResponse := mkR11nResponse 0 None.

(** [encoding/json] on them, with what the receiver holds before where it is
    received into more than once, and [yaml] on manifests. *)
Class CommandCodec := {
  receive_Single : option json → SingleDeploymentBody * json * option text;
  send_Single : SingleDeploymentBody → json;
  receive_R11n : R11nResponse → option json → R11nResponse * json * option text;
  receive_Manifest : option json → Manifest * json * option text;
  send_Manifest : Manifest → json;
  yaml_Manifest : string → result text Manifest
}.

(** ** Deploying (deploy.go) *)

Inductive deploy_error : Type :=
| NoTagVersion (e : filter_error)
| RetrieveFailed (e : client_error)
| UpdateFailed (e : client_error)
| PollFailed (e : client_error)
| Unresolved (e : ErrorWrapper)
| NotSuccessful (e : option ErrorWrapper)
| OutOfAttempts (last : R11nResponse).

Definition checkFinished (resolution : DiffResolution) : bool :=
  bool_decide (rez_Desc resolution = CreateDiff) || bool_decide (rez_Desc resolution = ModifyDiff).

(** [None] is a panic, on a nil state. *)
Definition checkResolutionSuccess (resolution : DiffResolution) : option bool :=
  s ← rez_DeployState resolution; Some (bool_decide (ds_Status s = DeployStatusActive)).

Section Commands.
Context `{CommandCodec, ClientCodec} {W : Type}.

Definition get {A} (c : HTTPClient W) (zero : A) (receive : option json → A * json * option text) (path : string)
    (q : option (gmap string string)) (w : W) : W * option (A * result client_error resourceState) :=
  Retrieve (transport c) (commonHeaders c) (serverHost c) zero receive path q ∅ w.

(** What a response says: [None] is to go on, [Some None] success. *)
Definition polled (response : R11nResponse) : option (option deploy_error) :=
  match rr_Resolution response with
  | None => None
  | Some rez =>
      match rez_Error rez with
      | Some e => Some (Some (Unresolved e))
      | None =>
          match rez_DeployState rez with
          | None => None
          | Some _ =>
              if (QueuePosition response <? 0) && checkFinished rez
              then if bool_decide (checkResolutionSuccess rez = Some true) then Some None
                   else Some (Some (NotSuccessful (rez_Error rez)))
              else None
          end
      end
  end.

(** The response is received into one variable, time and again. *)
Fixpoint pollDeployQueue (c : HTTPClient W) (location : string) (attempts : nat) (response : R11nResponse) (w : W) :
    W * option (option deploy_error) :=
  match attempts with
  | O => (w, Some (Some (OutOfAttempts response)))
  | S n =>
      let '(w, r) := get c response (receive_R11n response) ("http://" +:+ location) None w in
      match r with
      | None => (w, None)
      | Some (_, Err e) => (w, Some (Some (PollFailed e)))
      | Some (response, Ok _) =>
          match polled response with
          | Some e => (w, Some e)
          | None => pollDeployQueue c location n response w
          end
      end
  end.

Definition set_spec_Version (v : Version) (spec : DeploySpec) : DeploySpec :=
  mkDeploySpec (spec_DeployConfig spec) v (clusterName spec).

Definition deploy_query (did : DeploymentID) (force : bool) : gmap string string :=
  <["force" := if force then "true" else "false"]> (DeploymentID_QueryMap did).

(** [Deploy]. *)
Record Deploy := mkDeploy {
  dp_ResolveFilter : ResolveFilter;
  dp_HTTPClient : HTTPClient W;
  TargetDeploymentID : DeploymentID;
  dp_User : SousUser;
  Force : bool;
  WaitStable : bool;
  PollIntervalForClient : Z
}.

Definition Deploy_Do (sd : Deploy) (w : W) : W * option (option deploy_error) :=
  let c := dp_HTTPClient sd in
  match rf_TagVersion (dp_ResolveFilter sd) with
  | Err e => (w, Some (Some (NoTagVersion e)))
  | Ok newVersion =>
      let q := deploy_query (TargetDeploymentID sd) (Force sd) in
      let '(w, r) := get c zeroSingleBody receive_Single "./single-deployment" (Some q) w in
      match r with
      | None => (w, None)
      | Some (_, Err e) => (w, Some (Some (RetrieveFailed e)))
      | Some (d, Ok updater) =>
          match sb_Deployment d with
          | None => (w, None)
          | Some spec =>
              let d := mkSingleBody (sb_Links d) (Some (set_spec_Version newVersion spec)) in
              let '(w, r) := update c updater (send_Single d) (HTTPHeaders (dp_User sd)) w in
              match r with
              | None => (w, None)
              | Some (_, Err e) => (w, Some (Some (UpdateFailed e)))
              | Some (_, Ok updateResponse) =>
                  if negb (WaitStable sd) then (w, Some None)
                  else if bool_decide (Location updateResponse = "") then (w, Some None)
                  else pollDeployQueue c (Location updateResponse) (Z.to_nat (PollIntervalForClient sd)) zeroR11nResponse w
              end
          end
      end
  end.

(** ** Updating (update.go) *)

Inductive update_error : Type :=
| UpdateFilter (e : filter_error)
| UpdateManager (e : hsm_error)
| UpdateState (e : state_error)
| NoManifest (mid : ManifestID)
| TriedOut (tryLimit : nat).

Definition zeroDeployment : Deployment :=
  mkDeployment zeroConfig "" None (mkSourceID zeroLocation zeroVersion) "" ∅ "".

Definition retarget (sid : SourceID) (did : DeploymentID) (d : Deployment) : Deployment :=
  mkDeployment (d_DeployConfig d) (did_Cluster did) (d_Cluster d) sid (Flavor d) (Owners d) (Kind d).

Context (perm : Deployments → order).

(** A deployment that is in the map is changed in it; one that is not is not added. *)
Definition updateState (s : State) (gdm : Deployments) (sid : SourceID) (did : DeploymentID) :
    Deployments * result state_error State :=
  match gdm !! did with
  | Some d =>
      let deployment := retarget sid did d in
      (<[did := deployment]> gdm, UpdateDeployments perm s [deployment])
  | None => (gdm, UpdateDeployments perm s [retarget sid did zeroDeployment])
  end.

(** One round of the loop: what it returns, or the new limit and to try again. *)
Inductive tried : Type :=
| Returned (r : result update_error Deployments)
| Again (tryLimit : nat).

Definition update_try (sid : SourceID) (did : DeploymentID) (user : SousUser) (h : HTTPStateManager W) (w : W) :
    HTTPStateManager W * W * option tried :=
  let fail e := Some (Returned (Err e)) in
  let '(h, w, r) := hsm_ReadState perm h w in
  match r with
  | None => (h, w, None)
  | Some (Err e) => (h, w, fail (UpdateManager e))
  | Some (Ok state) =>
      match st_Manifests state !! did_ManifestID did with
      | None => (h, w, fail (NoManifest (did_ManifestID did)))
      | Some manifest =>
          match State_Deployments state with
          | Err e => (h, w, fail (UpdateState e))
          | Ok gdm =>
              let '(gdm, r) := updateState state gdm sid did in
              match r with
              | Err e => (h, w, fail (UpdateState e))
              | Ok state =>
                  let '(h, w, r) := hsm_WriteState perm state user h w in
                  (h, w, match r with
                         | None => None
                         | Some (Ok _) => Some (Returned (Ok gdm))
                         | Some (Err (HsmClient e)) =>
                             if Retryable e then Some (Again (size (m_Deployments manifest)))
                             else fail (UpdateManager (HsmClient e))
                         | Some (Err e) => fail (UpdateManager e)
                         end)
              end
          end
      end
  end.

(** The limit is set anew in each round, so that nothing bounds the rounds; [fuel]
    does here, and [None] is a panic or its end. *)
Fixpoint updateRetryLoop (fuel tries tryLimit : nat) (sid : SourceID) (did : DeploymentID) (user : SousUser)
    (h : HTTPStateManager W) (w : W) : HTTPStateManager W * W * option (result update_error Deployments) :=
  if (tries <? tryLimit)%nat then
    match fuel with
    | O => (h, w, None)
    | S fuel =>
        let '(h, w, r) := update_try sid did user h w in
        match r with
        | None => (h, w, None)
        | Some (Returned r) => (h, w, Some r)
        | Some (Again tryLimit) => updateRetryLoop fuel (S tries) tryLimit sid did user h w
        end
    end
  else (h, w, Some (Err (TriedOut tryLimit))).

(** [Update.Do]; the deployments in memory are set after those that were written. *)
Definition Update_Do (fuel : nat) (m : Manifest) (rf : ResolveFilter) (user : SousUser) (GDM : Deployments)
    (h : HTTPStateManager W) (w : W) : HTTPStateManager W * W * option (result update_error Deployments) :=
  let mid := Manifest_ID m in
  match rf_SourceID rf mid with
  | Err e => (h, w, Some (Err (UpdateFilter e)))
  | Ok sid =>
      match rf_DeploymentID rf mid with
      | Err e => (h, w, Some (Err (UpdateFilter e)))
      | Ok did =>
          let '(h, w, r) := updateRetryLoop fuel 0 2 sid did user h w in
          (h, w, r ← r; Some (match r with Err e => Err e | Ok gdm => Ok (gdm ∪ GDM) end))
      end
  end.

(** ** Manifests (manifest_get.go, manifest_set.go) *)

Inductive manifest_error : Type :=
| NoManifestMatched (e : client_error)
| ManifestYAML (t : text)
| CannotChangeLocation
| ManifestUpdate (e : client_error).

(** What is written out is the YAML of the manifest; the updater is kept for a
    later [ManifestSet]. *)
Definition ManifestGet_Do (c : HTTPClient W) (mid : ManifestID) (w : W) :
    W * option (result manifest_error (Manifest * resourceState)) :=
  let zero := mkManifest zeroLocation "" [] "" ∅ in
  let '(w, r) := get c zero receive_Manifest "./manifest" (Some (ManifestID_QueryMap mid)) w in
  (w, '(mani, r) ← r; Some (match r with Err e => Err (NoManifestMatched e) | Ok up => Ok (mani, up) end)).

(** The user is not sent along. *)
Definition ManifestSet_Do (c : HTTPClient W) (updater : resourceState) (mid : ManifestID) (bytes : string) (w : W) :
    W * option (option manifest_error) :=
  match yaml_Manifest bytes with
  | Err t => (w, Some (Some (ManifestYAML t)))
  | Ok yml =>
      if bool_decide (mid = Manifest_ID yml) then
        let '(w, r) := update c updater (send_Manifest yml) ∅ w in
        (w, '(_, r) ← r; Some (match r with Err e => Some (ManifestUpdate e) | Ok _ => None end))
      else (w, Some (Some CannotChangeLocation))
  end.
End Commands.

(** ** Properties *)

(** *** Polling *)

Section Polling.
Context `{CommandCodec} {W : Type} (c : HTTPClient W) (location : string).

Definition ask (response : R11nResponse) (w : W) : W * option (R11nResponse * result client_error resourceState) :=
  get c response (receive_R11n response) ("http://" +:+ location) None w.

(** Rounds that ended in a response that decides nothing: what it was. *)
Fixpoint undecided (k : nat) (response : R11nResponse) (w : W) : option (R11nResponse * W) :=
  match k with
  | O => Some (response, w)
  | S k =>
      match ask response w with
      | (w, Some (response, Ok _)) => if polled response then None else undecided k response w
      | _ => None
      end
  end.

Lemma ask_answers response w : ∃ w' x, ask response w = (w', Some x).
Proof.
  unfold ask, get, Retrieve, exchange. cbn [buildRequest request_body andthen mbind option_bind].
  destruct (transport c _ w) as [w' [rz|t]]; by eexists _, _.
Qed.

(** Polling reports success of a response that says that the rectification was
    handled, came to a created or an updated deployment without an error, and
    that this is active. *)
Lemma polled_success R :
  polled R = Some None ↔
    QueuePosition R < 0 ∧ ∃ rez s, rr_Resolution R = Some rez ∧ rez_Error rez = None ∧
      rez_DeployState rez = Some s ∧ ds_Status s = DeployStatusActive ∧
      (rez_Desc rez = CreateDiff ∨ rez_Desc rez = ModifyDiff).
Proof.
  unfold polled. split.
  - destruct (rr_Resolution R) as [rez|]; [|done]. destruct (rez_Error rez) eqn:He; [done|].
    destruct (rez_DeployState rez) as [s|] eqn:Hs; [|done]. unfold checkFinished.
    destruct (QueuePosition R <? 0) eqn:Hq; [|done]. apply Z.ltb_lt in Hq. cbn [andb].
    destruct (_ || _) eqn:Hf; [|done]. apply orb_true_iff in Hf. rewrite !bool_decide_eq_true in Hf.
    unfold checkResolutionSuccess. rewrite Hs. cbn [mbind option_bind]. case_bool_decide as Ha; [|done].
    intros _. injection Ha as Ha. apply bool_decide_eq_true in Ha. split; [done|]. by exists rez, s.
  - intros [Hq (rez&s&->&->&Hs&Ha&Hf)]. rewrite Hs. apply Z.ltb_lt in Hq. rewrite Hq. unfold checkFinished.
    assert (bool_decide (rez_Desc rez = CreateDiff) || bool_decide (rez_Desc rez = ModifyDiff) = true) as ->.
    { apply orb_true_iff. rewrite !bool_decide_eq_true. done. }
    unfold checkResolutionSuccess. rewrite Hs. cbn [mbind option_bind andb].
    rewrite (bool_decide_eq_true_2 (ds_Status s = _)) by done. by rewrite bool_decide_eq_true_2.
Qed.

(** Polling ends: after at most as many requests as are allowed, one at a time,
    with the verdict of the first response that has one, or the error of the
    request that failed.  It reports success exactly of a rectification that was
    handled, that created or updated its deployment without an error, and whose
    deployment is active. *)
Theorem pollDeployQueue_ends (n : nat) (response : R11nResponse) (w : W) :
  ∃ k last w0 w' e,
    undecided k response w = Some (last, w0) ∧ pollDeployQueue c location n response w = (w', Some e) ∧
    ((k = n ∧ w' = w0 ∧ e = Some (OutOfAttempts last)) ∨
     ((k < n)%nat ∧ ∃ R r, ask last w0 = (w', Some (R, r)) ∧
        match r with Err x => e = Some (PollFailed x) | Ok _ => polled R = Some e end)) ∧
    (e = None → ∃ R rs, ask last w0 = (w', Some (R, Ok rs)) ∧ QueuePosition R < 0 ∧
       ∃ rez s, rr_Resolution R = Some rez ∧ rez_Error rez = None ∧ rez_DeployState rez = Some s ∧
         ds_Status s = DeployStatusActive ∧ (rez_Desc rez = CreateDiff ∨ rez_Desc rez = ModifyDiff)).
Proof.
  revert response w. induction n as [|n IH]; intros response w.
  { exists 0%nat, response, w, w, (Some (OutOfAttempts response)). split_and!; [done|done|by left|done]. }
  destruct (ask_answers response w) as (w1&[R r]&Ha).
  cbn [pollDeployQueue]. fold (ask response w). rewrite Ha.
  destruct r as [rs|x].
  2: { exists 0%nat, response, w, w1, (Some (PollFailed x)). split_and!; [done|done| |done].
       right. split; [lia|]. by exists R, (Err x). }
  destruct (polled R) as [e|] eqn:Hp.
  { exists 0%nat, response, w, w1, e. split_and!; [done|done| |].
    - right. split; [lia|]. by exists R, (Ok rs).
    - intros ->. apply polled_success in Hp. by exists R, rs. }
  destruct (IH R w1) as (k&last&w0&w'&e&Hu&Hpoll&Hcases&Hs).
  exists (S k), last, w0, w', e. split_and!; [|done| |done].
  - cbn [undecided]. by rewrite Ha, Hp.
  - destruct Hcases as [(->&->&->)|[Hk Hr]]; [by left|right]. split; [lia|done].
Qed.
End Polling.

(** *** Updating *)

Section Updating.
Context `{ClientCodec} {W : Type} (perm : Deployments → order).

Lemma retrieve_not_retryable {A} (c : HTTPClient W) (zero v : A) receive path headers w w' e :
  retrieve c zero receive path headers w = (w', Some (v, Err e)) → Retryable e = false.
Proof. apply exchange_not_retryable. intros e'. apply buildRequest_not_retryable. Qed.

Lemma update_not_retryable (c : HTTPClient W) rs body headers w w' e :
  update c rs body headers w = (w', Some ((), Err e)) → Retryable e = false.
Proof. apply exchange_not_retryable. intros e'. apply buildRequest_not_retryable. Qed.

Lemma hsm_ReadState_not_retryable (h h' : HTTPStateManager W) (w w' : W) e :
  hsm_ReadState perm h w = (h', w', Some (Err (HsmClient e))) → Retryable e = false.
Proof.
  unfold hsm_ReadState, getDefs.
  destruct (retrieve _ zeroDefs _ _ _ w) as [w1 [[ds [rs|e1]]|]] eqn:Hd; cbn [mbind option_bind]; [| |done].
  2: { intros [= _ _ <-]. by eapply retrieve_not_retryable. }
  unfold getManifests. destruct (retrieve _ [] _ _ _ w1) as [w2 [[l [rs2|e2]]|]] eqn:Hm; [| |done].
  - unfold gdm_manifests. destruct (mapM id l) as [l'|]; [|done]. cbn [mbind option_bind].
    by destruct (RawManifests _ _).
  - cbn [mbind option_bind]. intros [= _ _ <-]. by eapply retrieve_not_retryable.
Qed.

Lemma hsm_WriteState_not_retryable s u (h h' : HTTPStateManager W) (w w' : W) e :
  hsm_WriteState perm s u h w = (h', w', Some (Err (HsmClient e))) → Retryable e = false.
Proof.
  unfold hsm_WriteState. destruct (State_Validate s); [|done].
  assert (∀ h w wds, putDeployments perm wds h w = (h', w', Some (Err (HsmClient e))) → Retryable e = false) as Hput.
  { clear. intros h w wds. unfold putDeployments. destruct (gdmState h) as [rs|]; [|done].
    destruct (update _ rs _ _ w) as [w1 [[[] [rs'|e1]]|]] eqn:Hu; cbn [mbind option_bind]; [done| |done].
    intros [= _ _ <-]. by eapply update_not_retryable. }
  destruct (gdmState _) as [rs|].
  - destruct (State_Deployments s) as [wds|]; [apply Hput|done].
  - destruct (hsm_ReadState perm _ w) as [[h1 w1] [[r|e1]|]] eqn:Hr; [| |done].
    + destruct (State_Deployments s) as [wds|]; [apply Hput|done].
    + intros [= _ _ ->]. by eapply hsm_ReadState_not_retryable.
Qed.

(** An update is tried once: no error of the manager can be retried, so that the
    loop ends in its first round, whatever the server answers. *)
Theorem updateRetryLoop_once (fuel : nat) (sid : SourceID) (did : DeploymentID) (user : SousUser)
    (h : HTTPStateManager W) (w : W) :
  (∀ h' w' n, update_try perm sid did user h w ≠ (h', w', Some (Again n))) ∧
  updateRetryLoop perm (S fuel) 0 2 sid did user h w =
    let '(h', w', r) := update_try perm sid did user h w in
    (h', w', match r with Some (Returned r) => Some r | _ => None end).
Proof.
  assert (∀ h' w' n, update_try perm sid did user h w ≠ (h', w', Some (Again n))) as Hno.
  { intros h' w' n. unfold update_try. destruct (hsm_ReadState perm h w) as [[h1 w1] [[s|]|]]; [|done..].
    destruct (st_Manifests s !! _); [|done]. destruct (State_Deployments s) as [gdm|]; [|done].
    destruct (updateState perm s gdm sid did) as [gdm' [s'|]]; [|done].
    destruct (hsm_WriteState perm s' user h1 w1) as [[h2 w2] [[|[e| | |]]|]] eqn:Hw; try done.
    by rewrite (hsm_WriteState_not_retryable _ _ _ _ _ _ _ Hw). }
  split; [done|]. cbn [updateRetryLoop Nat.ltb Nat.leb].
  destruct (update_try perm sid did user h w) as [[h' w'] [[r|n]|]]; [done| |done].
  by destruct (Hno h' w' n).
Qed.
End Updating.

(** What putting back looks at in the old manifests: the configuration of each
    deployment. *)
Definition old_config (ms : Manifests) (mid : ManifestID) (cn : string) : option DeployConfig :=
  m ← ms !! mid; spec_DeployConfig <$> m_Deployments m !! cn.

Lemma putback_step_old defs olds olds' x acc :
  (∀ mid cn, old_config olds mid cn = old_config olds' mid cn) →
  putback_step defs olds x acc = putback_step defs olds' x acc.
Proof.
  intros Hold. destruct x as [did d]. unfold putback_step.
  destruct (deployment_cluster defs d) as [cluster|]; [|done]. cbn [mbind result_bind].
  specialize (Hold (Deployment_ManifestID d) (ClusterName d)). unfold old_config in Hold.
  assert (∀ o o' : option DeploySpec, spec_DeployConfig <$> o = spec_DeployConfig <$> o' →
    putback_spec cluster o d = putback_spec cluster o' d) as Hspec.
  { intros [o|] [o'|] Ho; try done. injection Ho as Ho. unfold putback_spec, default, unmerge_env, redundant.
    unfold from_option, id. by rewrite Ho. }
  rewrite (Hspec (old ← olds !! Deployment_ManifestID d; m_Deployments old !! ClusterName d)
             (old ← olds' !! Deployment_ManifestID d; m_Deployments old !! ClusterName d)); [done|].
  by destruct (olds !! _), (olds' !! _).
Qed.

Lemma PutbackManifests_old defs olds olds' l :
  (∀ mid cn, old_config olds mid cn = old_config olds' mid cn) →
  PutbackManifests defs olds l = PutbackManifests defs olds' l.
Proof.
  intros Hold. unfold PutbackManifests. f_equal. generalize (∅ : Manifests).
  induction l as [|x l IH]; intros acc; [done|]. cbn [rfold].
  rewrite (putback_step_old _ _ _ _ _ Hold). by destruct (putback_step defs olds' x acc).
Qed.

(** The manifests with another version for one deployment. *)
Definition set_version (did : DeploymentID) (v : Version) (ms : Manifests) : Manifests :=
  alter (λ m, mkManifest (m_Source m) (m_Flavor m) (m_Owners m) (m_Kind m)
                (alter (set_spec_Version v) (did_Cluster did) (m_Deployments m))) (did_ManifestID did) ms.

Lemma set_version_lookup did v ms mid m :
  set_version did v ms !! mid = Some m → ∃ m0, ms !! mid = Some m0 ∧
    m = mkManifest (m_Source m0) (m_Flavor m0) (m_Owners m0) (m_Kind m0) (m_Deployments m) ∧
    m_Deployments m = if decide (mid = did_ManifestID did)
                      then alter (set_spec_Version v) (did_Cluster did) (m_Deployments m0) else m_Deployments m0.
Proof.
  unfold set_version. intros Hm. destruct (decide (mid = did_ManifestID did)) as [->|Hne].
  - rewrite lookup_alter_eq in Hm. destruct (ms !! _) as [m0|]; [|done]. injection Hm as <-. by exists m0.
  - rewrite lookup_alter_ne in Hm by done. exists m. split_and!; [done|by destruct m|done].
Qed.

Lemma set_version_config did v ms mid cn : old_config (set_version did v ms) mid cn = old_config ms mid cn.
Proof.
  unfold old_config, set_version. destruct (decide (mid = did_ManifestID did)) as [->|Hne].
  - rewrite lookup_alter_eq. destruct (ms !! _) as [m|]; [|done]. cbn [fmap option_fmap option_map mbind option_bind m_Deployments].
    destruct (decide (cn = did_Cluster did)) as [->|Hcn]; [|by rewrite lookup_alter_ne].
    rewrite lookup_alter_eq. by destruct (m_Deployments m !! _).
  - by rewrite lookup_alter_ne.
Qed.

Lemma set_version_canonical did v s :
  canonical_state s → canonical_state (mkState (st_Defs s) (set_version did v (st_Manifests s)) (etag s)).
Proof.
  intros [Hk Hc]. split.
  - intros mid m (m0&Hm0&->&_)%set_version_lookup. exact (Hk _ _ Hm0).
  - intros mid m (m0&Hm0&Heq&Hdep)%set_version_lookup. destruct (Hc _ _ Hm0) as [H1 H2 H3 H4].
    rewrite Heq. split; cbn [m_Deployments m_Owners].
    + rewrite Hdep. case_decide; [|done]. intros He. apply H1.
      apply map_empty. intros cn. pose proof (f_equal (lookup cn) He) as Hl. rewrite lookup_empty in Hl.
      destruct (decide (cn = did_Cluster did)) as [->|]; [|by rewrite lookup_alter_ne in Hl].
      rewrite lookup_alter_eq in Hl. by apply fmap_None in Hl.
    + exact H2.
    + rewrite Hdep. case_decide; [|done]. destruct (decide (did_Cluster did = "")) as [Hn|];
        [|by rewrite lookup_alter_ne]. by rewrite Hn, lookup_alter_eq, H3.
    + intros cn spec Hs. rewrite Hdep in Hs. clear Hdep Heq. cbn [m_Deployments st_Defs] in *. case_decide; [|by apply (H4 _ _ Hs)].
      destruct (decide (cn = did_Cluster did)) as [->|]; [|rewrite lookup_alter_ne in Hs by done; by apply (H4 _ _ Hs)].
      rewrite lookup_alter_eq in Hs. apply fmap_Some in Hs as (spec0&H0&_). by apply (H4 _ _ H0).
Qed.

Lemma retarget_described defs m m' cn d sid did spec cluster :
  m_Deployments m !! cn = Some spec → defs_Clusters defs !! cn = Some cluster →
  d = BuildDeployment m cn cluster spec [] → Ids.Location sid = m_Source m → did_Cluster did = cn →
  m_Source m' = m_Source m → m_Flavor m' = m_Flavor m → m_Owners m' = m_Owners m → m_Kind m' = m_Kind m →
  retarget sid did d = BuildDeployment m' cn cluster (set_spec_Version (sid_Version sid) spec) [].
Proof.
  intros Hs Hc -> Hsid <- H1 H2 H3 H4. unfold BuildDeployment. rewrite !flatten_specs_single.
  unfold retarget. cbn. rewrite H1, H2, H3, H4. f_equal. rewrite <-Hsid. by destruct sid.
Qed.

Lemma described_same defs m0 deps cn d :
  deps !! cn = m_Deployments m0 !! cn →
  described defs (mkManifest (m_Source m0) (m_Flavor m0) (m_Owners m0) (m_Kind m0) deps) cn d ↔ described defs m0 cn d.
Proof.
  intros Hl. unfold described. cbn [m_Deployments]. rewrite Hl. done.
Qed.

(** What the manifests with another version expand to. *)
Lemma set_version_described s gdm gdm2 did d sid :
  keyed (st_Manifests s) → all_described (st_Defs s) (st_Manifests s) gdm → gdm !! did = Some d →
  Ids.Location sid = Source (did_ManifestID did) →
  all_described (st_Defs s) (set_version did (sid_Version sid) (st_Manifests s)) gdm2 →
  gdm2 = <[did := retarget sid did d]> gdm.
Proof.
  intros Hk Hall Hd Hsid Hall2. apply map_eq. intros did'. apply option_eq. intros x.
  pose proof (proj1 (Hall did d) Hd) as (m0&Hm0&Hdesc).
  destruct (decide (did' = did)) as [->|Hne].
  - rewrite lookup_insert_eq. pose proof Hdesc as (spec&cluster&Hs&Hc&Hb).
    set (m' := mkManifest (m_Source m0) (m_Flavor m0) (m_Owners m0) (m_Kind m0)
                 (alter (set_spec_Version (sid_Version sid)) (did_Cluster did) (m_Deployments m0))).
    assert (gdm2 !! did = Some (retarget sid did d)) as ->; [|done].
    apply Hall2. exists m'. unfold set_version. rewrite lookup_alter_eq, Hm0. split; [done|].
    exists (set_spec_Version (sid_Version sid) spec), cluster. split_and!; [|done|].
    + cbn [m' m_Deployments]. by rewrite lookup_alter_eq, Hs.
    + eapply (retarget_described (st_Defs s) m0 m'); try done.
      pose proof (Hk _ _ Hm0 : Manifest_ID m0 = _) as Hid. by rewrite Hsid, <-Hid.
  - rewrite lookup_insert_ne by done. rewrite (Hall2 did' x), (Hall did' x). unfold set_version.
    destruct (decide (did_ManifestID did' = did_ManifestID did)) as [Hmid|Hmid]; [|by rewrite lookup_alter_ne].
    rewrite Hmid, lookup_alter_eq, Hm0. cbn [fmap option_fmap option_map].
    assert (did_Cluster did' ≠ did_Cluster did) as Hcn.
    { intros Hcn. apply Hne. destruct did, did'. cbn in *. congruence. }
    split; intros (m&[= <-]&Hx); eexists; (split; [reflexivity|]).
    + by apply described_same in Hx; [|by rewrite lookup_alter_ne].
    + by apply described_same; [rewrite lookup_alter_ne|].
Qed.

Section Version.
Context (perm : Deployments → order) (Hperm : ∀ ds, perm ds ≡ₚ map_to_list ds).

(** C25.  Updating sets the version of one deployment, and changes nothing else: the
    manifests that are written are the old ones with that version in them, they
    expand to the old deployments with that one changed, and these are what is
    returned to be polled for. *)
Theorem updateState_version (s : State) (gdm : Deployments) (sid : SourceID) (did : DeploymentID) (d : Deployment) :
  canonical_state s → State_Deployments s = Ok gdm → gdm !! did = Some d →
  Ids.Location sid = Source (did_ManifestID did) →
  ∃ s', updateState perm s gdm sid did = (<[did := retarget sid did d]> gdm, Ok s') ∧
    st_Defs s' = st_Defs s ∧
    st_Manifests s' = norm_manifest <$> set_version did (sid_Version sid) (st_Manifests s) ∧
    State_Deployments s' = Ok (<[did := retarget sid did d]> gdm).
Proof using Hperm.
  intros Hs Hgdm Hd Hsid. set (d' := retarget sid did d). set (gdm' := <[did := d']> gdm).
  set (s2 := mkState (st_Defs s) (set_version did (sid_Version sid) (st_Manifests s)) (etag s)).
  destruct (canonical_deployments s Hs) as (gdm1&H1&Hk&Hall). rewrite Hgdm in H1. injection H1 as <-.
  pose proof (set_version_canonical did (sid_Version sid) s Hs) as Hs2. fold s2 in Hs2.
  destruct (canonical_deployments s2 Hs2) as (gdm2&Hgdm2&_&Hall2).
  assert (gdm2 = gdm') as -> by (apply (set_version_described s gdm gdm2 did d sid); [apply Hs|done..]).
  assert (Deployment_ID d' = did) as Hid.
  { unfold d', retarget, Deployment_ID, Deployment_ManifestID. cbn. rewrite Hsid.
    pose proof (Hk _ _ Hd : Deployment_ID d = _) as Hkd. 
    assert (Flavor d = mid_Flavor (did_ManifestID did)) as -> by by rewrite <-Hkd.
    by destruct did as [[] ?]. }
  exists (norm_state s2). split_and!; [|done|done|by apply State_Deployments_norm].
  unfold updateState. rewrite Hd. fold d' gdm'. f_equal. unfold UpdateDeployments. rewrite Hgdm.
  cbn [mbind result_bind foldl]. rewrite Hid. fold gdm'.
  rewrite (PutbackManifests_old _ _ (st_Manifests s2)) by (intros; symmetry; apply set_version_config).
  destruct Hs2 as [Hk2 Hcan2].
  by rewrite (putback_expected (st_Defs s) (st_Manifests s2) gdm' Hk2 Hcan2 Hall2 (perm gdm') (Hperm gdm')).
Qed.
End Version.

(** What is put back of a deployment, at its place. *)
Lemma putback_has defs olds (deps : Deployments) l ms did d :
  l ≡ₚ map_to_list deps → keyed deps → rfold (putback_step defs olds) l ∅ = Ok ms → deps !! did = Some d →
  keyed ms ∧ ∃ m cluster old, ms !! did_ManifestID did = Some m ∧ deployment_cluster defs d = Ok cluster ∧
    m_Deployments m !! did_Cluster did = Some (putback_spec cluster old d).
Proof.
  intros Hl Hk Hr Hd.
  set (P := λ (dn : list (DeploymentID * Deployment)) (acc : Manifests),
    (∀ x, x ∈ dn → x ∈ l) ∧ keyed acc ∧ ∀ did d, (did, d) ∈ dn →
      ∃ m cluster old, acc !! did_ManifestID did = Some m ∧ deployment_cluster defs d = Ok cluster ∧
        m_Deployments m !! did_Cluster did = Some (putback_spec cluster old d)).
  enough (P l ms) as (_&Hkm&HP).
  { split; [done|]. apply HP. rewrite Hl. by apply elem_of_map_to_list. }
  assert (∀ did d, (did, d) ∈ l → deps !! did = Some d) as Hin.
  { intros did' d'. rewrite Hl. apply elem_of_map_to_list. }
  eapply rfold_inv; [|..|exact Hr].
  { split_and!; [set_solver|apply keyed_empty|set_solver]. }
  intros dn [did1 d1] acc acc' Hin1 (Hsub&Hkacc&HP) Hstep. unfold putback_step in Hstep.
  destruct (deployment_cluster defs d1) as [cluster|] eqn:Hcl; [|done]. cbn [mbind result_bind] in Hstep.
  injection Hstep as <-. pose proof (Hin _ _ Hin1) as Hd1.
  pose proof (Hk _ _ Hd1 : Deployment_ID d1 = _) as Hid1.
  assert (Deployment_ManifestID d1 = did_ManifestID did1) as Hmid1 by by rewrite <-Hid1.
  assert (ClusterName d1 = did_Cluster did1) as Hcn1 by by rewrite <-Hid1.
  set (old := old ← olds !! Deployment_ManifestID d1; m_Deployments old !! ClusterName d1) in *.
  set (m1 := set_deployment _ _ _ _).
  split_and!; [set_solver| |].
  - assert (Manifest_ID m1 = Deployment_ManifestID d1) as Hm1.
    { unfold m1, manifest_for. destruct (acc !! Deployment_ManifestID d1) as [m|] eqn:Hm.
      - exact (Hkacc _ _ Hm).
      - by destruct (Deployment_ManifestID d1). }
    rewrite <-Hm1. exact (keyed_insert m1 acc Hkacc).
  - intros did2 d2 [H2|H2%list_elem_of_singleton]%elem_of_app.
    + destruct (HP _ _ H2) as (m&cl&o&Hm&Hcl2&Hs).
      destruct (decide (did_ManifestID did2 = Deployment_ManifestID d1)) as [He|He].
      2: { exists m, cl, o. by rewrite lookup_insert_ne. }
      rewrite He, lookup_insert_eq. unfold m1.
      destruct (decide (did_Cluster did2 = ClusterName d1)) as [Hc|Hc].
      * assert (did2 = did1) as ->. { destruct did1, did2. cbn in *. congruence. }
        assert (d2 = d1) as ->. { pose proof (Hin _ _ (Hsub _ H2)). congruence. }
        eexists _, cluster, old. split_and!; [done|done|]. cbn. by rewrite Hc, lookup_insert_eq.
      * eexists _, cl, o. split_and!; [done|done|]. cbn. rewrite lookup_insert_ne by done.
        unfold manifest_for. rewrite He in Hm. by rewrite Hm.
    + injection H2 as -> ->. eexists _, cluster, old. rewrite Hmid1, lookup_insert_eq. split_and!; [done|done|].
      cbn. by rewrite Hcn1, lookup_insert_eq.
Qed.

(** A deployment without resources has flaws. *)
Lemma no_resources_flawed d :
  entries (dc_Resources (d_DeployConfig d)) = ∅ → Deployment_Validate d ≠ [].
Proof.
  intros Hr. unfold Deployment_Validate, DeployConfig_Validate.
  destruct (dc_Resources (d_DeployConfig d)) as [r|]; cbn in Hr.
  - rewrite Hr. intros [_ He]%app_nil. apply fmap_nil_inv, app_nil in He as [_ He].
    by apply app_nil in He as [He _].
  - intros [_ He]%app_nil. apply fmap_nil_inv, app_nil in He as [_ He]. by apply app_nil in He as [He _].
Qed.

Lemma retarget_zero_ID sid did :
  Deployment_ID (retarget sid did zeroDeployment) = mkDeploymentID (mkManifestID (Ids.Location sid) "") (did_Cluster did).
Proof. done. Qed.

(** A manifest cannot be updated in a cluster it has no deployment for, though
    the code makes one: the new deployment has no flavor, whatever the flavor of
    the manifest, and no resources, so that the state it makes is invalid and the
    manager does not write it. *)
Theorem update_new_refused `{ClientCodec} {W : Type} (perm : Deployments → order) (s s' : State)
    (gdm gdm' : Deployments) (sid : SourceID) (did : DeploymentID) (user : SousUser)
    (h : HTTPStateManager W) (w : W) :
  (∀ ds, perm ds ≡ₚ map_to_list ds) → keyed gdm → State_Deployments s = Ok gdm → gdm !! did = None →
  updateState perm s gdm sid did = (gdm', Ok s') →
  gdm' = gdm ∧
  is_Some (st_Manifests s' !! mkManifestID (Ids.Location sid) "") ∧
  ∃ flaws, hsm_WriteState perm s' user h w = (set_User user h, w, Some (Err (InvalidUpdate flaws))).
Proof.
  intros Hperm Hk Hgdm Hnone Hup. unfold updateState in Hup. rewrite Hnone in Hup.
  set (z := retarget sid did zeroDeployment) in *. injection Hup as <- Hup.
  unfold UpdateDeployments in Hup. rewrite Hgdm in Hup. cbn [mbind result_bind foldl] in Hup.
  set (zid := Deployment_ID z) in *. set (deps := <[zid := z]> gdm) in *.
  assert (keyed deps) as Hkd by exact (keyed_insert z gdm Hk).
  unfold PutbackManifests in Hup. destruct (rfold _ (perm deps) ∅) as [ms|] eqn:Hr; [|done].
  cbn [mbind result_bind] in Hup. rewrite restore_all_id in Hup. injection Hup as <-.
  destruct (putback_has (st_Defs s) _ deps (perm deps) ms zid z (Hperm deps) Hkd Hr) as (Hkm&m&cluster&old&Hm&Hcl&Hs).
  { apply lookup_insert_eq. }
  split; [done|]. split; [by exists m|].
  enough (State_Validate (mkState (st_Defs s) ms (etag s)) ≠ []) as Hv.
  { unfold hsm_WriteState. destruct (State_Validate _) as [|f fs]; [done|]. by eexists. }
  unfold State_Validate. cbv zeta. destruct (State_Deployments (mkState (st_Defs s) ms (etag s))) as [ds|] eqn:Hds; [|done].
  intros [_ He]%app_nil. apply (Manifests_Deployments_spec _ _ _ Hkm) in Hds.
  unfold deployment_cluster in Hcl. case_decide; [done|]. cbn [z retarget zeroDeployment d_Cluster] in Hcl.
  destruct (defs_Clusters (st_Defs s) !! ClusterName z) as [c|] eqn:Hc; [|done]. injection Hcl as ->.
  set (d := BuildDeployment m (did_Cluster zid) cluster (putback_spec cluster old z) []).
  assert (ds !! zid = Some d) as Hd.
  { apply Hds. exists m. split; [exact Hm|]. by exists (putback_spec cluster old z), cluster. }
  apply (no_resources_flawed d).
  { unfold d. rewrite BuildDeployment_config. reflexivity. }
  apply elem_of_map_to_list in Hd.
  assert (Desc <$> Deployment_Validate d ∈ (λ d, Desc <$> Deployment_Validate d) <$> (map_to_list ds).*2) as Hin.
  { apply list_elem_of_fmap. exists d. split; [done|]. apply list_elem_of_fmap. by exists (zid, d). }
  apply fmap_nil_inv with (f := Desc). apply list_elem_of_split in Hin as (l1&l2&Hl). rewrite Hl in He.
  rewrite concat_app in He. cbn [concat] in He. apply app_nil in He as [_ He]. by apply app_nil in He as [He _].
Qed.

(** *** A deploy against the server *)

(** How the body of a single deployment is written and read in JSON: two fields, of
    which that of the deployment is an object; specs that [fit] are read as they were
    written, from any tree that is the same. *)
Record single_laws `{Codec, CommandCodec} (fit : DeploySpec → Prop) (meta : json)
    (enc : DeploySpec → gmap string json) (dec : option json → option DeploySpec * option text) : Prop := {
  sl_encode : ∀ spec, encode (PSingle None spec) = Some (JObject (<["Deployment" := JObject (enc spec)]> {["Meta" := meta]}));
  sl_send : ∀ spec, send_Single (mkSingleBody None (Some spec)) = JObject (<["Deployment" := JObject (enc spec)]> {["Meta" := meta]});
  sl_receive : ∀ m spec, fit spec → m !! "Deployment" = Some (JObject (enc spec)) → m !! "Meta" = Some meta →
    receive_Single (Some (JObject m)) =
      (mkSingleBody None (Some spec), JObject (<["Deployment" := JObject (enc spec)]> {["Meta" := meta]}), None);
  sl_decode : ∀ m, decode_Single (Some (JObject m)) = dec (m !! "Deployment");
  sl_dec : ∀ spec x, fit spec → same x (JObject (enc spec)) = true → dec (Some x) = (Some spec, None);
  sl_meta : no_nan meta = true ∧ compatible meta meta = true;
  sl_numbers : ∀ spec, no_nan (JObject (enc spec)) = true;
  sl_compatible : ∀ a b, compatible (JObject (enc a)) (JObject (enc b)) = true
}.

Section Deploying.
Context `{!Codec, !CommandCodec, !ClientCodec} {W : Type} (sm : StateManager W) (absent : manager_error → bool) (digest : json → string).
Context (rm : RouteMap) (id : R11nID) (common : Values) (host : string).
Context (Hinm : common !! "If-None-Match" = None).
Context (fit : DeploySpec → Prop) (meta : json) (enc : DeploySpec → gmap string json)
  (dec : option json → option DeploySpec * option text) (Hlaws : single_laws fit meta enc dec).

Definition single_body (spec : DeploySpec) : gmap string json :=
  <["Deployment" := JObject (enc spec)]> {["Meta" := meta]}.

(** The deployment of the server's state. *)
Definition spec_in (did : DeploymentID) (s : server W) : option DeploySpec :=
  match (ReadState sm (store s)).2 with
  | Ok st => m ← st_Manifests st !! did_ManifestID did; m_Deployments m !! did_Cluster did
  | Err _ => None
  end.

Definition readable_single (did : DeploymentID) (s : server W) : Prop :=
  (∃ st, ReadState sm (store s) = (store s, Ok st)) ∧ is_Some (spec_in did s).

Lemma Query_deploy did force :
  Query (raw_query (Some (deploy_query did force))) = (λ v, [v]) <$> deploy_query did force.
Proof.
  unfold raw_query, Query. rewrite ParseQuery_Encode; [done|].
  intros k vs Hk. by apply lookup_fmap_Some in Hk as (v&<-&_).
Qed.

Lemma deploy_query_read did force :
  deploymentIDFromValues (Query (raw_query (Some (deploy_query did force)))) = Some (Ok did) ∧
  forceFromValues (Query (raw_query (Some (deploy_query did force)))) = Some (Ok force).
Proof.
  rewrite Query_deploy. split.
  - apply deploymentIDFromValues_ok; reflexivity.
  - unfold forceFromValues. rewrite (Single_one _ "force" (if force then "true" else "false")); [|reflexivity].
    by destruct force.
Qed.

Lemma single_shows did force :
  shows (SingleDeploymentResource sm absent rm id) (readable_single did)
    (λ s, from_option single_body ∅ (spec_in did s)) (λ s, single_etag <$> spec_in did s)
    "./single-deployment" (Some (deploy_query did force)).
Proof using Hlaws.
  eexists. split; [reflexivity|]. intros r s [[st Hread] [spec Hspec]] _ Hq.
  unfold as_exchange, GETSingle. rewrite (liveState_ok _ _ _ _ _ Hread), set_store_same, Hq.
  unfold GETSingle_Exchange. rewrite (proj1 (deploy_query_read did force)). cbn [mbind option_bind].
  rewrite Hspec. cbn [from_option fmap option_fmap option_map].
  unfold spec_in in Hspec. rewrite Hread in Hspec. cbn [snd] in Hspec.
  apply bind_Some in Hspec as (m&Hm&Hspec). rewrite Hm, Hspec.
  unfold reply. cbn [AddHeaders app]. by rewrite (sl_encode _ _ _ _ Hlaws).
Qed.

(** What the server decodes of the update is the spec that was sent. *)
Lemma single_putback spec spec' tag :
  fit spec' → single_body spec !! tag = None →
  ∃ r, applyChanges (single_body spec) (single_body spec') (single_body spec ∪ {[tag := JString "canary"]}) = Some r ∧
    decode_Single (Some (JObject r)) = (Some spec', None).
Proof using Hlaws.
  intros Hfit Htag. set (target := single_body spec ∪ _).
  destruct (put_field_own (JObject (enc spec')) (JObject (enc spec))) as (x&Hx&Hsx);
    [apply (sl_numbers _ _ _ _ Hlaws)|apply (sl_compatible _ _ _ _ Hlaws)|].
  destruct (sl_meta _ _ _ _ Hlaws) as [Hm1 Hm2]. destruct (put_field_own meta meta Hm1 Hm2) as (y&Hy&_).
  assert (∀ k v, single_body spec !! k = Some v → target !! k = Some v) as Ht.
  { intros k v Hk. unfold target. by apply lookup_union_Some_l. }
  exists (<["Deployment" := x]> (<["Meta" := y]> target)). split.
  - apply applyChanges_spec. intros k. unfold single_body at 1 2.
    destruct (decide (k = "Deployment")) as [->|Hd]; [|destruct (decide (k = "Meta")) as [->|Hk]].
    + rewrite !lookup_insert_eq, (Ht "Deployment" (JObject (enc spec))) by (unfold single_body; apply lookup_insert_eq).
      exact Hx.
    + rewrite !(lookup_insert_ne _ "Deployment" "Meta"), !lookup_insert_eq by done.
      rewrite lookup_singleton_eq, (Ht "Meta" meta) by (unfold single_body; by rewrite lookup_insert_ne, lookup_singleton_eq).
      exact Hy.
    + unfold single_body. by rewrite !lookup_insert_ne, !lookup_singleton_ne by done.
  - rewrite (sl_decode _ _ _ _ Hlaws), lookup_insert_eq. by apply (sl_dec _ _ _ _ Hlaws).
Qed.

Definition single_client : HTTPClient (server W) :=
  mkHTTPClient (to_server digest (SingleDeploymentResource sm absent rm id)) common host.

Lemma single_fresh spec : single_body spec !! single_etag spec = None.
Proof. unfold single_body, single_etag. by rewrite lookup_insert_ne, lookup_singleton_ne. Qed.

(** A deploy is a put of the spec of the server, with another version. *)
Lemma Deploy_Do_puts rf did (user : SousUser) force n v spec s :
  readable_single did s → spec_in did s = Some spec → rf_TagVersion rf = Ok v →
  fit spec → fit (set_spec_Version v spec) →
  ∃ rq, deploymentIDFromValues (Query (rq_RawQuery rq)) = Some (Ok did) ∧
    forceFromValues (Query (rq_RawQuery rq)) = Some (Ok force) ∧
    decode_Single (rq_body rq) = (Some (set_spec_Version v spec), None) ∧ GetUser rq = user ∧
    Deploy_Do (mkDeploy rf single_client did user force false n) s =
      let '(s', o) := PUTSingle sm absent rm id rq s in
      (s', Some (match o with
                 | None => Some (UpdateFailed (BadStatus 500))
                 | Some (_, code, _) =>
                     if (code <? 200) || (300 <=? code) then Some (UpdateFailed (BadStatus code)) else None
                 end)).
Proof using Hinm Hlaws.
  intros Hok Hspec Htag Hfit Hfit'. set (q := deploy_query did force). set (spec' := set_spec_Version v spec).
  destruct (single_putback spec spec' (single_etag spec) Hfit' (single_fresh spec)) as (r&Happ&Hdec).
  set (res := SingleDeploymentResource sm absent rm id).
  assert (etag_of digest (λ s, from_option single_body ∅ (spec_in did s)) (λ s, single_etag <$> spec_in did s) s = single_etag spec) as Het
    by (unfold etag_of; by rewrite Hspec).
  edestruct (Update_sent (A := SingleDeploymentBody) digest res (readable_single did)
    (λ s, from_option single_body ∅ (spec_in did s)) (λ s, single_etag <$> spec_in did s)
    "./single-deployment" (Some q) (as_exchange (PUTSingle sm absent rm id)) common host zeroSingleBody
    (mkSingleBody None (Some spec)) receive_Single (single_body spec) (single_body spec') r ∅ (HTTPHeaders user) s)
    as (rs&Hr&Hu); try rewrite Het; rewrite ?Hspec; cbn [from_option].
  - apply single_shows.
  - reflexivity.
  - exact Hok.
  - done.
  - unfold single_body. intros He. by apply insert_non_empty in He.
  - apply single_fresh.
  - unfold canary. apply (sl_receive _ _ _ _ Hlaws); [done| |]; unfold single_body; apply lookup_union_Some_l.
    + apply lookup_insert_eq.
    + by rewrite lookup_insert_ne, lookup_singleton_eq.
  - apply single_fresh.
  - unfold single_body, single_etag. by rewrite lookup_insert_ne, lookup_singleton_ne.
  - exact Happ.
  - reflexivity.
  - exact Hinm.
  - exists (update_request "./single-deployment" (Some q) common host (HTTPHeaders user) (single_etag spec) r).
    destruct (deploy_query_read did force) as [Hq1 Hq2]. split_and!; [exact Hq1|exact Hq2|exact Hdec| |].
    + apply update_request_user.
    + unfold Deploy_Do. cbn [dp_ResolveFilter dp_HTTPClient TargetDeploymentID dp_User Force WaitStable PollIntervalForClient].
      rewrite Htag. unfold get. cbn [single_client transport commonHeaders serverHost]. fold q res.
      rewrite Hr. cbn [sb_Deployment sb_Links]. unfold update. cbn [single_client transport commonHeaders serverHost].
      fold spec' res. rewrite (sl_send _ _ _ _ Hlaws). fold (single_body spec').
      rewrite (Hu s Hok), decide_True by (try rewrite Hspec; done || (cbn; unfold single_body; intros He; by apply insert_non_empty in He)).
      rewrite Het. unfold as_exchange.
      destruct (PUTSingle sm absent rm id _ s) as [s' [[[p code] hs]|]]; [|reflexivity].
      unfold put_response, extractBody, no_receiver. cbn [x_status x_headers x_data]. rewrite renderData_code.
      destruct ((code <? 200) || (300 <=? code)) eqn:Hcode; [reflexivity|].
      apply orb_false_iff in Hcode as [_ H300]. apply Z.leb_gt in H300.
      rewrite (proj2 (Z.eqb_neq code 409)) by lia. reflexivity.
Qed.

(** A put that is answered with success was unforced and changes nothing, or got as
    far as the queue. *)
Lemma PUTSingle_success rq s s' p code hs did force spec' st :
  deploymentIDFromValues (Query (rq_RawQuery rq)) = Some (Ok did) →
  forceFromValues (Query (rq_RawQuery rq)) = Some (Ok force) →
  decode_Single (rq_body rq) = (Some spec', None) → ReadState sm (store s) = (store s, Ok st) →
  PUTSingle sm absent rm id rq s = (s', Some (p, code, hs)) → 200 ≤ code < 300 →
  code = 201 ∨ (s' = s ∧ force = false ∧
    ∃ m original diffs, st_Manifests st !! did_ManifestID did = Some m ∧
      m_Deployments m !! did_Cluster did = Some original ∧ DeploySpec_Diff spec' original = Some (false, diffs)).
Proof.
  intros Hdid Hforce Hdec Hread. unfold PUTSingle. rewrite (liveState_ok _ _ _ _ _ Hread), set_store_same.
  unfold PUTSingle_Exchange. rewrite Hdid, Hforce, Hdec.
  destruct (st_Manifests st !! _) as [m|] eqn:Hm; [|intros [= <- <- <- <-]; lia].
  destruct (m_Deployments m !! _) as [original|] eqn:Ho; [|intros [= <- <- <- <-]; lia].
  destruct (NumInstances _ =? 0); [intros [= <- <- <- <-]; lia|].
  destruct (DeploySpec_Diff spec' original) as [[different diffs]|] eqn:Hdiff; [|done].
  destruct (negb different && negb force) eqn:Hsame.
  { intros [= <- <- <- <-] _. right. apply andb_true_iff in Hsame as [Hd Hf].
    apply negb_true_iff in Hd as ->. apply negb_true_iff in Hf as ->. split_and!; [done|done|]. by exists m, original, diffs. }
  destruct (WriteState sm _ _ _) as [w1 [e|]]; [intros [= <- <- <- <-]; lia|]. unfold enqueue_single.
  destruct (State_Deployments _) as [deps|]; [|intros [= <- <- <- <-]; lia].
  destruct (deps !! did) as [d|]; [|intros [= <- <- <- <-]; lia].
  destruct (Deployment_Validate d); [|intros [= <- <- <- <-]; lia].
  destruct (rqs_Push _ _ _) as [[q [a|]]|]; [|intros [= <- <- <- <-]; lia|done].
  destruct (FullURIFor _ _ _ _ _) as [[uri|]|]; cbn [mbind option_bind]; [|intros [= <- <- <- <-]; lia|done].
  intros [= <- <- <- <-] _. by left.
Qed.

(** C24.  From the command to the state and the queue: a deploy that the client
    reports as requested has written, in the name of its user, the manifests of the
    server with the version of its tag for the deployment it targets, and nothing
    else changed, and has queued what they expand to there; unless that is the
    deployment there already, when, unforced, nothing happens. *)
Theorem Deploy_Do_records rf did (user : SousUser) force n v spec m st (s s' : server W) :
  ReadState sm (store s) = (store s, Ok st) → st_Manifests st !! did_ManifestID did = Some m →
  m_Deployments m !! did_Cluster did = Some spec → rf_TagVersion rf = Ok v →
  fit spec → fit (set_spec_Version v spec) →
  Deploy_Do (mkDeploy rf single_client did user force false n) s = (s', Some None) →
  let written := update_spec did m (set_spec_Version v spec) st in
  (s' = s ∧ force = false ∧ ∃ diffs, DeploySpec_Diff (set_spec_Version v spec) spec = Some (false, diffs)) ∨
  (WriteState sm written user (store s) = (store s', None) ∧
   ∃ deps d a, State_Deployments written = Ok deps ∧ deps !! did = Some d ∧ Deployment_Validate d = [] ∧
     rqs_Push id (single_r11n did d) (queue_set s) = Some (queue_set s', Some a)).
Proof using Hinm Hlaws.
  intros Hread Hm Hspec Htag Hfit Hfit' Hdo written.
  assert (spec_in did s = Some spec) as Hin by (unfold spec_in; rewrite Hread; cbn; by rewrite Hm).
  destruct (Deploy_Do_puts rf did user force n v spec s) as (rq&Hdid&Hforce&Hdec&Huser&Heq); try done.
  { split; [by exists st|by exists spec]. }
  rewrite Heq in Hdo. destruct (PUTSingle sm absent rm id rq s) as [s1 [[[p code] hs]|]] eqn:Hput; [|done].
  destruct ((code <? 200) || (300 <=? code)) eqn:Hcode; [done|]. injection Hdo as ->.
  apply orb_false_iff in Hcode as [H200 H300]. apply Z.ltb_ge in H200. apply Z.leb_gt in H300.
  destruct (PUTSingle_success rq s s' p code hs did force _ st Hdid Hforce Hdec Hread Hput ltac:(lia))
    as [->|(->&->&m'&original&diffs&Hm'&Ho&Hdiff)].
  - right. apply PUTSingle_reaches_queue in Hput
      as (did'&spec'&m'&st'&w0&w1&d&q&a&uri&Hlive&Hdid'&Hm'&Hdec'&Hw&(deps&Hdeps&Hd)&Hv&Hpush&_&->&_&_).
    rewrite (liveState_ok _ _ _ _ _ Hread) in Hlive. rewrite Hdec in Hdec'. rewrite Hdid in Hdid'. simplify_eq.
    split; [exact Hw|]. by exists deps, d, a.
  - left. simplify_eq. split_and!; [done|done|]. by exists diffs.
Qed.
End Deploying.

(** ** Witnesses *)

Lemma sample_expands : ∃ deps, State_Deployments sample_state = Ok deps ∧ keyed deps ∧
  all_described (st_Defs sample_state) (st_Manifests sample_state) deps.
Proof. apply canonical_deployments, sample_state_canonical. Qed.

Lemma updateState_version_witness :
  let sid := mkSourceID (m_Source sample_manifest) (mkVersion 2 0 0 "" "" "M.m.p") in
  ∃ gdm d s', State_Deployments sample_state = Ok gdm ∧
    updateState map_to_list sample_state gdm sid sample_did = (<[sample_did := retarget sid sample_did d]> gdm, Ok s').
Proof.
  intros sid. destruct sample_expands as (gdm&Hgdm&_&Hall).
  set (d := BuildDeployment sample_manifest "ci-sf" sample_cluster sample_spec []).
  assert (gdm !! sample_did = Some d) as Hd.
  { apply Hall. exists sample_manifest. split; [apply lookup_singleton_eq|].
    exists sample_spec, sample_cluster. split_and!; [apply lookup_singleton_eq|apply lookup_singleton_eq|exact eq_refl]. }
  destruct (updateState_version map_to_list (λ _, Permutation_refl _) sample_state gdm sid sample_did d
    sample_state_canonical Hgdm Hd eq_refl) as (s'&Hs'&_).
  exists gdm, d, s'. exact (conj Hgdm Hs').
Defined.

(** Another flavor of the sample, which has no manifest. *)
Definition other_did : DeploymentID := mkDeploymentID (mkManifestID (m_Source sample_manifest) "other") "ci-sf".

Lemma update_new_refused_witness :
  let C := http_client_codec in
  let sid := mkSourceID (m_Source sample_manifest) (mkVersion 2 0 0 "" "" "M.m.p") in
  let h : HTTPStateManager () := NewHTTPStateManager (mkHTTPClient (λ _ w, (w, Ok panicked)) ∅ "h") ∅ in
  ∃ gdm s' flaws, State_Deployments sample_state = Ok gdm ∧
    updateState map_to_list sample_state gdm sid other_did = (gdm, Ok s') ∧
    hsm_WriteState map_to_list s' (mkSousUser "a" "b") h () = (set_User (mkSousUser "a" "b") h, (), Some (Err (InvalidUpdate flaws))).
Proof.
  intros C sid h. destruct sample_expands as (gdm&Hgdm&Hk&Hall).
  assert (gdm !! other_did = None) as Hnone.
  { destruct (gdm !! other_did) as [d|] eqn:Hd; [|exact eq_refl].
    apply Hall in Hd as (m&Hm&_).
    change (({[sample_mid := sample_manifest]} : Manifests) !! did_ManifestID other_did = Some m) in Hm.
    apply lookup_singleton_Some in Hm as [Hm _]. discriminate Hm. }
  assert (∃ s', UpdateDeployments map_to_list sample_state [retarget sid other_did zeroDeployment] = Ok s') as [s' Hs'].
  { assert (is_ok (UpdateDeployments map_to_list sample_state [retarget sid other_did zeroDeployment]) = true) as Hok
      by (vm_compute; reflexivity).
    destruct (UpdateDeployments _ _ _) as [s'|]; [by exists s'|done]. }
  assert (updateState map_to_list sample_state gdm sid other_did = (gdm, Ok s')) as Hup.
  { unfold updateState. rewrite Hnone, Hs'. exact eq_refl. }
  destruct (update_new_refused (H := C) map_to_list sample_state s' gdm gdm sid other_did (mkSousUser "a" "b") h ()
    (λ _, Permutation_refl _) Hk Hgdm Hnone Hup) as (_&_&flaws&Hw).
  exists gdm, s', flaws. exact (conj Hgdm (conj Hup Hw)).
Defined.

(** Specs written as their version, the sample with one version or another. *)
Definition deployed_version : Version := mkVersion 2 0 0 "" "" "M.m.p".
Definition sample_written (spec : DeploySpec) : gmap string json :=
  {["Version" := JString (Semv.String (spec_Version spec))]}.
Definition sample_fits (spec : DeploySpec) : Prop :=
  spec = sample_spec ∨ spec = set_spec_Version deployed_version sample_spec.

Definition sample_read (j : option json) : option DeploySpec * option text :=
  match j with
  | Some (JObject m) =>
      match m !! "Version" with
      | Some (JString v) =>
          (Some (if bool_decide (v = "2.0.0") then set_spec_Version deployed_version sample_spec else sample_spec), None)
      | _ => (None, Some (Lit "bad"))
      end
  | _ => (None, Some (Lit "bad"))
  end.

Definition single_json (spec : option DeploySpec) : json :=
  JObject (<["Deployment" := from_option (λ s, JObject (sample_written s)) JNull spec]> {["Meta" := JNull]}).

Definition deploy_codec : Codec := {|
  decode_GDM _ := ([], None);
  decode_Manifest _ := (sample_manifest, None);
  decode_Single b := match b with Some (JObject m) => sample_read (m !! "Deployment") | _ => (None, Some (Lit "EOF")) end;
  decode_Artifact _ := (("image", []), None);
  decode_Servers _ := ([], None);
  encode p := match p with PSingle _ spec => Some (single_json (Some spec)) | _ => None end;
  spec_json _ := "{}";
  dep_String _ := "";
  sha512_base64 s := s
|}.

Definition deploy_client_codec : CommandCodec := {|
  receive_Single b :=
    match b with
    | Some (JObject m) =>
        let '(spec, e) := sample_read (m !! "Deployment") in (mkSingleBody None spec, single_json spec, e)
    | _ => (zeroSingleBody, JNull, Some (Lit "EOF"))
    end;
  send_Single d := single_json (sb_Deployment d);
  receive_R11n r _ := (r, JNull, None);
  receive_Manifest _ := (sample_manifest, JNull, None);
  send_Manifest _ := JNull;
  yaml_Manifest _ := Ok sample_manifest
|}.

Lemma sample_read_written (spec : DeploySpec) (x : json) :
  sample_fits spec → same x (JObject (sample_written spec)) = true → sample_read (Some x) = (Some spec, None).
Proof.
  intros Hfit Hs. destruct x as [| | | | |m]; try done. apply same_object in Hs as [Hdom Hs].
  assert (is_Some (m !! "Version")) as [v Hv].
  { apply elem_of_dom. rewrite Hdom. apply elem_of_dom. by eexists. }
  specialize (Hs "Version" v _ Hv (lookup_singleton_eq _ _)). unfold sample_read. rewrite Hv.
  destruct v as [| | |v| |]; try done. cbn [same] in Hs. apply bool_decide_eq_true in Hs as ->.
  by destruct Hfit as [-> | ->].
Qed.

Lemma sample_single_laws : @single_laws deploy_codec deploy_client_codec sample_fits JNull sample_written sample_read.
Proof.
  split; try reflexivity.
  - intros m spec Hfit Hd _. cbn [receive_Single deploy_client_codec]. rewrite Hd.
    rewrite (sample_read_written spec); [reflexivity|exact Hfit|]. by apply same_refl.
  - apply sample_read_written.
  - by split.
Qed.

Lemma Deploy_Do_records_witness :
  let C := deploy_codec in let C' := deploy_client_codec in
  let rf := mkResolveFilter None None (Some "2.0.0") None None None DeployStatusAny in
  let c := single_client in_memory no_absent (λ _, "") routemap "r11n-1" ∅ "h" in
  ∃ s', Deploy_Do (mkDeploy rf c sample_did (mkSousUser "a" "b") false false 0) sample_server = (s', Some None) ∧
    store s' = update_spec sample_did sample_manifest (set_spec_Version deployed_version sample_spec) sample_state.
Proof.
  intros C C' rf c. set (sd := mkDeploy rf c sample_did (mkSousUser "a" "b") false false 0).
  assert ((Deploy_Do sd sample_server).2 = Some None) as Hr by (vm_compute; reflexivity).
  destruct (Deploy_Do sd sample_server) as [s' r] eqn:Hdo. cbn [snd] in Hr. subst r.
  exists s'. split; [exact eq_refl|].
  destruct (Deploy_Do_records in_memory no_absent (λ _, "") routemap "r11n-1" ∅ "h" (lookup_empty _)
    sample_fits JNull sample_written sample_read sample_single_laws rf sample_did (mkSousUser "a" "b") false 0
    deployed_version sample_spec sample_manifest sample_state sample_server s')
    as [(_&_&diffs&Hdiff)|[Hw _]]; [exact eq_refl|apply lookup_singleton_eq|apply lookup_singleton_eq|exact eq_refl|by left|by right|exact Hdo| |].
  - vm_compute in Hdiff. discriminate Hdiff.
  - injection Hw as <-. exact eq_refl.
Defined.
