(* ===== verification/Targets.v ===== *)
(** * Targets of commands (config/deploy_filter.go, graph/targetmanifest.go,
    graph/otpldeploy.go, ext/otpl/otpl.go, cli/sous_init.go)

    How the flags of a command and the repository it runs in come to a filter, to
    the IDs of a manifest and a deployment, and to the manifest that [sous init]
    writes.  Of the configuration of otpl, what its files hold is given. *)

From S2P Require Import Prelude GoStrings Flaw Semv Ids Startup DeployConfig CMap Deployment.
From S2P Require Import Samples State ResolveFilter StateManagers.
#[local] Open Scope string_scope.
#[local] Open Scope Z_scope.
#[local] Open Scope list_scope.

(** ** Filters from flags (deploy_filter.go) *)

Record DeployFilterFlags := mkDeployFilterFlags {
  f_Source : string;
  f_Repo : string;
  f_Offset : string;
  f_Flavor : string;
  f_Tag : string;
  f_Revision : string;
  f_Cluster : string;
  f_All : bool
}.

Inductive flags_error : Type :=
| SourceAndRepo
| SourceAndOffset
| SourceParse (e : id_error)
| TagFlag (e : filter_error)
| AllAndOptions (filter : string).

Definition buildFieldMatcher (config : string) (all : bool) : matcher :=
  if bool_decide (config = "*") || (all && bool_decide (config = "")) then None
  else NewResolveFieldMatcher config.

(** [parseSL] can panic: [None] is that. *)
Definition BuildFilter (parseSL : string → option (result id_error SourceLocation)) (f : DeployFilterFlags) :
    option (result flags_error ResolveFilter) :=
  let rf := mkResolveFilter (buildFieldMatcher (f_Repo f) true) (buildFieldMatcher (f_Offset f) (f_All f)) None
              (buildFieldMatcher (f_Revision f) true) (buildFieldMatcher (f_Flavor f) (f_All f))
              (buildFieldMatcher (f_Cluster f) true) DeployStatusAny in
  let tagged :=
    if negb (f_All f) && bool_decide (f_Tag f ≠ "") && bool_decide (f_Tag f ≠ "*")
    then map_err TagFlag (SetTag (f_Tag f) rf) else Ok rf in
  match tagged with
  | Err e => Some (Err e)
  | Ok rf =>
      r ← if bool_decide (f_Source f ≠ "") then
            if bool_decide (f_Repo f ≠ "") then Some (Err SourceAndRepo)
            else if bool_decide (f_Offset f ≠ "") then Some (Err SourceAndOffset)
            else
              sl ← parseSL (f_Source f);
              Some (match sl with
                    | Err e => Err (SourceParse e)
                    | Ok sl => Ok (mkResolveFilter (NewResolveFieldMatcher (Repo sl)) (NewResolveFieldMatcher (Dir sl))
                                     (rf_Tag rf) (rf_Revision rf) (rf_Flavor rf) (rf_Cluster rf) (rf_Status rf))
                    end)
          else Some (Ok rf);
      Some (match r with
            | Err e => Err e
            | Ok rf => if f_All f && negb (rf_All rf) then Err (AllAndOptions (rf_String rf)) else Ok rf
            end)
  end.

(** ** Refined filters and target IDs (targetmanifest.go) *)

Record SourceContextDiscovery := mkDiscovery {
  sd_Error : option text;
  sd_SourceContext : option SourceContext
}.

Definition zeroSourceContext : SourceContext :=
  mkSourceContext "" "" "" "" [] [] [] [] (mkGitTag "" "") "" "" "" "" [] false false false.

Definition GetContext (scd : SourceContextDiscovery) : SourceContext :=
  match sd_Error scd, sd_SourceContext scd with
  | None, Some c => c
  | _, _ => zeroSourceContext
  end.

Definition zeroFilter : ResolveFilter := mkResolveFilter None None None None None None DeployStatusAny.

Definition with_location (repo offset : matcher) (rf : ResolveFilter) : ResolveFilter :=
  mkResolveFilter repo offset (rf_Tag rf) (rf_Revision rf) (rf_Flavor rf) (rf_Cluster rf) (rf_Status rf).

(** The tag of the context, if it has one that can be set. *)
Definition with_context_tag (discovered : SourceContextDiscovery) (rf : ResolveFilter) : ResolveFilter :=
  match sd_SourceContext discovered with
  | Some c =>
      if matches_all (rf_Tag rf) && bool_decide (SourceContext_TagVersion c ≠ "") then
        match SetTag (SourceContext_TagVersion c) rf with Ok rf => rf | Err _ => rf end
      else rf
  | None => rf
  end.

(** The filter given is changed itself; [None] is that no repository is known. *)
Definition newRefinedResolveFilter (f : option ResolveFilter) (discovered : SourceContextDiscovery) :
    option ResolveFilter :=
  let c := GetContext discovered in
  let rrf := default zeroFilter f in
  let rrf :=
    if matches_all (rf_Repo rrf) then
      let repo := if bool_decide (PrimaryRemoteURL c ≠ "") then NewResolveFieldMatcher (PrimaryRemoteURL c) else rf_Repo rrf in
      let offset := if matches_all (rf_Offset rrf) || bool_decide (rf_Offset rrf = Some "")
                    then NewResolveFieldMatcher (OffsetDir c) else rf_Offset rrf in
      with_context_tag discovered (with_location repo offset rrf)
    else with_location (rf_Repo rrf) (NewResolveFieldMatcher (ValueOr (rf_Offset rrf) "")) rrf in
  if matches_all (rf_Repo rrf) then None else Some rrf.

Definition newTargetManifestID (rrf : ResolveFilter) : result filter_error ManifestID :=
  repo ← Value_ (rf_Repo rrf);
  Ok (mkManifestID (mkSourceLocation repo (ValueOr (rf_Offset rrf) "")) (ValueOr (rf_Flavor rrf) "")).

Definition newTargetDeploymentID (rrf : ResolveFilter) : result filter_error DeploymentID :=
  repo ← Value_ (rf_Repo rrf);
  cluster ← Value_ (rf_Cluster rrf);
  Ok (mkDeploymentID (mkManifestID (mkSourceLocation repo (ValueOr (rf_Offset rrf) ""))
                        (ValueOr (rf_Flavor rrf) "")) cluster).

(** ** The configuration of otpl (otpl.go, otpldeploy.go) *)

Record otplDeployConfig := mkOtplConfig {
  oc_Name : string;
  oc_Owners : list string;
  oc_Spec : DeploySpec
}.

Record otplDeployManifest := mkOtplManifest {
  om_Owners : OwnerSet;
  om_Specs : gmap string DeploySpec
}.

Definition getClusterAndFlavor (s : otplDeployConfig) : string * string :=
  match split_on "."%char (oc_Name s) with
  | cluster :: flavor :: _ => (cluster, flavor)
  | [cluster] => (cluster, "")
  | [] => ("", "")
  end.

Definition add_config (ms : gmap string otplDeployManifest) (s : otplDeployConfig) : gmap string otplDeployManifest :=
  let '(cluster, flavor) := getClusterAndFlavor s in
  let m := default (mkOtplManifest ∅ ∅) (ms !! flavor) in
  <[flavor := mkOtplManifest (foldl (λ os o, os ∪ {[o]}) (om_Owners m) (oc_Owners s))
                (<[cluster := oc_Spec s]> (om_Specs m))]> ms.

(** [ParseManifests], on what its goroutines sent, in the order it came. *)
Definition ParseManifests (cs : list otplDeployConfig) : Manifests :=
  foldl (λ acc fm, (add (mkManifest zeroLocation fm.1 (Slice (om_Owners fm.2)) "" (om_Specs fm.2)) acc).1) ∅
    (map_to_list (foldl add_config ∅ cs)).

Record OTPLFlags := mkOTPLFlags {
  UseOTPLDeploy : bool;
  IgnoreOTPLDeploy : bool;
  otpl_Flavor : string
}.

Inductive otpl_error : Type :=
| NoValidDeployments
| FlavorNotDetected (flavor : string) (flavors : gset string)
| SpecifyUse.

Definition newDetectedOTPLConfig (cs : list otplDeployConfig) (flags : OTPLFlags) : Manifests :=
  if IgnoreOTPLDeploy flags then ∅ else ParseManifests cs.

(** The manifest that is the only one to satisfy [p], by its values. *)
Definition the_only (p : Manifest → bool) (ms : Manifests) : option Manifest :=
  match map_to_list (filtered p ms) with [(_, m)] => Some m | _ => None end.

Definition newUserSelectedOTPLDeploySpecs (detected : Manifests) (mid : ManifestID) (flags : OTPLFlags) (s : State) :
    result otpl_error (option Manifest) :=
  if decide (size detected = 0%nat) then
    if UseOTPLDeploy flags then Err NoValidDeployments else Ok None
  else
    match st_Manifests s !! mid with
    | Some _ => Ok None
    | None =>
        match the_only (λ m, bool_decide (m_Flavor m = otpl_Flavor flags)) detected with
        | None => Err (FlavorNotDetected (otpl_Flavor flags) (Flavors detected))
        | Some m =>
            if negb (UseOTPLDeploy flags) && negb (IgnoreOTPLDeploy flags) && negb (bool_decide (m_Deployments m = ∅))
            then Err SpecifyUse
            else if negb (UseOTPLDeploy flags) then Ok None
            else if bool_decide (m_Deployments m = ∅) then Err NoValidDeployments
            else
              let deploySpecs := filter (λ kv, is_Some (defs_Clusters (st_Defs s) !! kv.1)) (m_Deployments m) in
              if bool_decide (deploySpecs = ∅) then Ok None
              else Ok (Some (mkManifest (m_Source m) (m_Flavor m) (m_Owners m) (m_Kind m) deploySpecs))
        end
    end.

(** ** The target manifest (targetmanifest.go) *)

Definition OT_ENV_FLAVOR : string := "OT_ENV_FLAVOR".

Definition default_config : DeployConfig :=
  mkDeployConfig (Some ∅) None (Some ∅) 1 []
    (mkStartup false 0 0 0 "HTTP" "/health" 0 [] 0 0 0) "".

(** [spec.Validate] is of a copy of the spec, which shares its maps: of what the
    repairs do, that to the resources is all that is left. *)
Definition default_spec : DeploySpec :=
  mkDeploySpec
    (set_Resources (dc_Resources (RepairAll (DeployConfig_Validate default_config) default_config).2) default_config)
    zeroVersion "".

Definition defaultDeploySpecs (clusters : Clusters) : gmap string DeploySpec := (λ _, default_spec) <$> clusters.

(** Setting a variable of a spec; [None] is a write to a nil map, a panic. *)
Definition set_flavor_env (flavor : string) (spec : DeploySpec) : option DeploySpec :=
  env ← dc_Env (spec_DeployConfig spec);
  Some (mkDeploySpec (set_dc_Env (Some (<[OT_ENV_FLAVOR := flavor]> env)) (spec_DeployConfig spec))
          (spec_Version spec) (clusterName spec)).

Definition set_flavors (flavor : string) (deploySpecs : gmap string DeploySpec) : option (gmap string DeploySpec) :=
  if bool_decide (flavor = "") then Some deploySpecs
  else map_fold (λ cn spec acc, acc ← acc; spec ← set_flavor_env flavor spec; Some (<[cn := spec]> acc)) (Some ∅) deploySpecs.

Definition newTargetManifest (auto : option Manifest) (tmid : ManifestID) (s : State) : option Manifest :=
  match st_Manifests s !! tmid with
  | Some m => Some m
  | None =>
      let m := default (mkManifest zeroLocation "" [] "" ∅) (Manifest_Clone <$> auto) in
      let deploySpecs := from_option m_Deployments ∅ auto in
      let deploySpecs := if bool_decide (deploySpecs = ∅) then defaultDeploySpecs (defs_Clusters (st_Defs s)) else deploySpecs in
      deploySpecs ← set_flavors (mid_Flavor tmid) deploySpecs;
      let m := SetID tmid (mkManifest (m_Source m) (m_Flavor m) (m_Owners m) (m_Kind m) deploySpecs) in
      Some (RepairAll (Manifest_Validate m) m).2
  end.

(** ** [sous init] (sous_init.go) *)

Inductive init_error : Type :=
| KindNotDefined
| InitCluster (cluster : string)
| ManifestExists (mid : ManifestID)
| InitWrite (e : manager_error).

Definition skip_check (spec : DeploySpec) : DeploySpec :=
  mkDeploySpec (set_Startup (mkStartup true 0 0 0 "" "" 0 [] 0 0 0) (spec_DeployConfig spec)) (spec_Version spec) (clusterName spec).

(** The manifest that is printed, beside what is left of the world. *)
Definition SousInit_Execute {W} (sm : StateManager W) (kind cluster : string) (dryRun : bool)
    (target : Manifest) (s : State) (user : SousUser) (w : W) : W * result init_error Manifest :=
  let skipHealth :=
    if bool_decide (kind = ManifestKindService) then Some false
    else if bool_decide (kind = ManifestKindScheduled) || bool_decide (kind = ManifestKindOnDemand) then Some true
    else None in
  match skipHealth with
  | None => (w, Err KindNotDefined)
  | Some skipHealth =>
      let deps := if skipHealth then skip_check <$> m_Deployments target else m_Deployments target in
      match defs_Clusters (st_Defs s) !! cluster, bool_decide (cluster = "") with
      | None, false => (w, Err (InitCluster cluster))
      | _, _ =>
          let deps := if bool_decide (cluster = "") then deps else {[cluster := default zeroSpec (deps !! cluster)]} in
          let m := mkManifest (m_Source target) (m_Flavor target) (m_Owners target) kind deps in
          if dryRun then (w, Ok m)
          else
            match add m (st_Manifests s) with
            | (_, false) => (w, Err (ManifestExists (Manifest_ID m)))
            | (ms, true) =>
                let '(w, e) := WriteState sm (mkState (st_Defs s) ms (etag s)) user w in
                (w, match e with Some e => Err (InitWrite e) | None => Ok m end)
            end
      end
  end.

(** ** Lemmas *)

Lemma buildFieldMatcher_spec config all s :
  match_ (buildFieldMatcher config all) s = true ↔ config = "*" ∨ (all = true ∧ config = "") ∨ s = config.
Proof.
  unfold buildFieldMatcher. destruct (bool_decide (config = "*") || _) eqn:Hb; simpl.
  - apply orb_true_iff in Hb. rewrite andb_true_iff, !bool_decide_eq_true in Hb. naive_solver.
  - apply orb_false_iff in Hb as [H1 H2]. apply bool_decide_eq_false in H1. unfold NewResolveFieldMatcher.
    rewrite bool_decide_eq_true. split; [auto|]. intros [?|[[-> ->]|?]]; [done| |done]. done.
Qed.

Lemma SetTag_matches tag rf rf' :
  SetTag tag rf = Ok rf' → ∃ v, parseSemverTagWithOptionalPrefix tag = Ok v ∧
    rf' = set_rf_Tag (Some (Format v Semv.Complete)) rf.
Proof.
  unfold SetTag. destruct (parseSemverTagWithOptionalPrefix tag) as [v|]; [|done]. intros [= <-]. by exists v.
Qed.

(** ** Properties *)

(** What the flags of a command select: a repository, a cluster and a revision
    only if they are given, the offset and the flavor always, an empty one when they
    are not given, and the version of the tag, which prints in full. *)
Theorem BuildFilter_selects parseSL (f : DeployFilterFlags) (rf : ResolveFilter) :
  f_All f = false → f_Source f = "" → BuildFilter parseSL f = Some (Ok rf) →
  ∀ d, FilterDeployment rf d = true ↔
    (f_Repo f = "*" ∨ f_Repo f = "" ∨ Repo (Location (d_SourceID d)) = f_Repo f) ∧
    (f_Cluster f = "*" ∨ f_Cluster f = "" ∨ ClusterName d = f_Cluster f) ∧
    (f_Revision f = "*" ∨ f_Revision f = "" ∨ RevID (d_SourceID d) = f_Revision f) ∧
    (f_Offset f = "*" ∨ Dir (Location (d_SourceID d)) = f_Offset f) ∧
    (f_Flavor f = "*" ∨ Flavor d = f_Flavor f) ∧
    (f_Tag f = "*" ∨ f_Tag f = "" ∨
     ∃ v, parseSemverTagWithOptionalPrefix (f_Tag f) = Ok v ∧
       Semv.String (sid_Version (d_SourceID d)) = Format v Semv.Complete).
Proof.
  intros Hall Hsrc Hb d. unfold BuildFilter in Hb. rewrite Hall, Hsrc in Hb. cbn [negb andb] in Hb.
  rewrite (bool_decide_eq_false_2 ("" ≠ "")) in Hb by (intros Hne; by apply Hne).
  set (rf0 := mkResolveFilter _ _ _ _ _ _ _) in Hb.
  assert (∃ t, rf = set_rf_Tag t rf0 ∧ ∀ s, match_ t s = true ↔ f_Tag f = "*" ∨ f_Tag f = "" ∨
    ∃ v, parseSemverTagWithOptionalPrefix (f_Tag f) = Ok v ∧ s = Format v Semv.Complete) as (t&->&Ht).
  { case_bool_decide as Hempty; [|].
    2: { cbn [andb mbind option_bind] in Hb. injection Hb as <-. exists None. split; [done|].
         intros s. split; [|done]. intros _. right. left. destruct (decide (f_Tag f = "")); [done|by destruct Hempty]. }
    case_bool_decide as Hstar; cbn [andb] in Hb.
    2: { cbn [mbind option_bind] in Hb. injection Hb as <-. exists None. split; [done|].
         intros s. split; [|done]. intros _. left. destruct (decide (f_Tag f = "*")); [done|by destruct Hstar]. }
    destruct (SetTag (f_Tag f) rf0) as [rf1|e] eqn:Hset; cbn [map_err] in Hb; [|done].
    cbn [mbind option_bind] in Hb. injection Hb as <-. apply SetTag_matches in Hset as (v&Hv&->).
    exists (Some (Format v Semv.Complete)). split; [done|]. intros s. cbn [match_]. rewrite bool_decide_eq_true. split.
    - intros ->. right. right. by exists v.
    - intros [?|[?|(v'&Hv'&->)]]; [done|done|]. congruence. }
  rewrite FilterDeployment_parts. unfold FilterManifestID, FilterClusterName, Deployment_ManifestID.
  cbn [rf_Repo rf_Offset rf_Flavor rf_Cluster rf_Tag rf_Revision set_rf_Tag rf0 Source mid_Flavor].
  rewrite !andb_true_iff, !buildFieldMatcher_spec, Ht.
  assert (∀ c s : string, c = "*" ∨ true = true ∧ c = "" ∨ s = c ↔ c = "*" ∨ c = "" ∨ s = c) as Hopt by (intros; tauto).
  assert (∀ c s : string, c = "*" ∨ false = true ∧ c = "" ∨ s = c ↔ c = "*" ∨ s = c) as Hreq.
  { intros c s. split; [|tauto]. intros [?|[[? _]|?]]; [tauto|done|tauto]. }
  rewrite !Hopt, !Hreq. clear Hopt Hreq Ht. split; intros; destruct_and!; split_and!; assumption.
Qed.

(** With [-all] there is no filter, whatever the tag: it is not looked at, unlike the
    other options, which are refused. *)
Theorem BuildFilter_all parseSL (f : DeployFilterFlags) (rf : ResolveFilter) :
  f_All f = true → BuildFilter parseSL f = Some (Ok rf) → rf = zeroFilter.
Proof.
  intros Hall Hb. unfold BuildFilter in Hb. rewrite Hall in Hb. cbn [negb andb] in Hb.
  set (rf0 := mkResolveFilter _ _ _ _ _ _ _) in Hb.
  assert (∀ r : ResolveFilter, rf_Tag r = None → rf_Status r = DeployStatusAny → rf_All r = true → r = zeroFilter) as Hz.
  { intros r. destruct r as [[] [] [] [] [] [] []]; unfold rf_All, zeroFilter; cbn; intros; try done; rewrite ?andb_false_r in *; done. }
  case_bool_decide.
  - case_bool_decide; [done|]. case_bool_decide; [done|].
    destruct (parseSL (f_Source f)) as [[sl|e]|]; cbn [mbind option_bind] in Hb; [|done|done].
    unfold rf_All in Hb. cbn in Hb. done.
  - cbn [mbind option_bind] in Hb. destruct (rf_All rf0) eqn:Ha; cbn [negb] in Hb; [|done].
    injection Hb as <-. by apply Hz.
Qed.

(** *** Target manifests *)

Definition with_flavor (flavor : string) (spec : DeploySpec) : DeploySpec :=
  mkDeploySpec (set_dc_Env (Some (<[OT_ENV_FLAVOR := flavor]> (entries (dc_Env (spec_DeployConfig spec))))) (spec_DeployConfig spec))
    (spec_Version spec) (clusterName spec).

Lemma set_flavors_ok flavor (specs : gmap string DeploySpec) :
  map_Forall (λ _ spec, dc_Env (spec_DeployConfig spec) ≠ None) specs →
  set_flavors flavor specs = Some (if bool_decide (flavor = "") then specs else with_flavor flavor <$> specs).
Proof.
  unfold set_flavors. case_bool_decide; [done|].
  apply (map_fold_weak_ind (λ r m, map_Forall (λ _ spec, dc_Env (spec_DeployConfig spec) ≠ None) m →
    r = Some (with_flavor flavor <$> m))).
  - intros _. by rewrite fmap_empty.
  - intros cn spec m r Hcn IH Hall. apply map_Forall_insert in Hall as [Hs Hall]; [|done].
    rewrite (IH Hall). cbn [mbind option_bind]. unfold set_flavor_env.
    destruct (dc_Env (spec_DeployConfig spec)) as [env|] eqn:He; [|done]. cbn [mbind option_bind].
    rewrite fmap_insert. do 2 f_equal. unfold with_flavor. by rewrite He.
Qed.

(** A configuration of otpl is for the cluster and the flavor that its name says,
    before the first and the second dot; of those for the same the last counts. *)
Definition configures (c : otplDeployConfig) (cn flavor : string) : Prop :=
  (split_on "."%char (oc_Name c) = [cn] ∧ flavor = "") ∨
  ∃ rest, split_on "."%char (oc_Name c) = cn :: flavor :: rest.

Definition configured (cs : list otplDeployConfig) (flavor cn : string) (spec : DeploySpec) : Prop :=
  ∃ pre c post, cs = pre ++ c :: post ∧ configures c cn flavor ∧ oc_Spec c = spec ∧
    ∀ c', c' ∈ post → ¬ configures c' cn flavor.

Lemma getClusterAndFlavor_spec c cn flavor : getClusterAndFlavor c = (cn, flavor) ↔ configures c cn flavor.
Proof.
  unfold getClusterAndFlavor, configures. pose proof (split_on_nonempty "."%char (oc_Name c)) as Hne.
  destruct (split_on _ _) as [|x [|y l]]; [done| |]; split.
  - intros Heq. injection Heq as <- <-. by left.
  - intros [[Heq ->]|[? Heq]]; [by injection Heq as <-|done].
  - intros Heq. injection Heq as <- <-. right. by exists l.
  - intros [[Heq _]|[? Heq]]; [done|by injection Heq as <- <- _].
Qed.

Lemma configured_snoc cs c flavor cn spec :
  configured (cs ++ [c]) flavor cn spec ↔
    (configures c cn flavor ∧ oc_Spec c = spec) ∨ (¬ configures c cn flavor ∧ configured cs flavor cn spec).
Proof.
  split.
  - intros (pre&c'&post&Heq&Hc&Hs&Hpost). destruct post as [|z post _] using rev_ind.
    + apply app_inj_tail in Heq as [-> ->]. by left.
    + rewrite app_comm_cons, app_assoc in Heq. apply app_inj_tail in Heq as [-> ->]. right.
      split; [apply Hpost; set_solver|]. exists pre, c', post. split_and!; try done. intros ? ?. apply Hpost. set_solver.
  - intros [[Hc Hs]|[Hn (pre&c'&post&->&Hc&Hs&Hpost)]].
    + exists cs, c, []. split_and!; try done. intros ? ?%elem_of_nil. done.
    + exists pre, c', (post ++ [c]). rewrite <-app_assoc. split_and!; try done.
      intros c2 [?|Hc2]%elem_of_app; [by apply Hpost|]. by apply list_elem_of_singleton in Hc2 as ->.
Qed.

Lemma add_config_specs cs flavor cn spec :
  (om ← foldl add_config ∅ cs !! flavor; om_Specs om !! cn) = Some spec ↔ configured cs flavor cn spec.
Proof.
  revert spec. induction cs as [|c cs IH] using rev_ind; intros spec.
  { cbn. rewrite lookup_empty. split; [done|]. by intros ([]&?&?&?&_). }
  rewrite configured_snoc, <-IH, foldl_app. cbn [foldl]. set (ms := foldl add_config ∅ cs). clear IH.
  unfold add_config. pose proof (getClusterAndFlavor_spec c cn flavor) as Hc.
  destruct (getClusterAndFlavor c) as [cluster fl]. destruct (decide (fl = flavor)) as [->|Hfl].
  - rewrite lookup_insert_eq. cbn [mbind option_bind om_Specs]. destruct (decide (cluster = cn)) as [->|Hcn].
    + rewrite lookup_insert_eq. assert (configures c cn flavor) by (by apply Hc). split; [intros [= <-]; by left|].
      by intros [[_ ->]|[? _]].
    + rewrite lookup_insert_ne by done. assert (¬ configures c cn flavor) by (rewrite <-Hc; congruence).
      assert (om_Specs (default (mkOtplManifest ∅ ∅) (ms !! flavor)) !! cn =
        (om ← ms !! flavor; om_Specs om !! cn)) as -> by (by destruct (ms !! flavor)). tauto.
  - rewrite lookup_insert_ne by done. assert (¬ configures c cn flavor) by (rewrite <-Hc; congruence). tauto.
Qed.

(** The manifest of a flavor. *)
Definition manifest_of (fm : string * otplDeployManifest) : Manifest :=
  mkManifest zeroLocation fm.1 (Slice (om_Owners fm.2)) "" (om_Specs fm.2).

Lemma ParseManifests_lookup (cs : list otplDeployConfig) (mid : ManifestID) (m : Manifest) :
  ParseManifests cs !! mid = Some m →
  ∃ om, foldl add_config ∅ cs !! m_Flavor m = Some om ∧ m = manifest_of (m_Flavor m, om).
Proof.
  unfold ParseManifests. set (oms := foldl add_config ∅ cs).
  assert (∀ l acc, (∀ fm, fm ∈ l → oms !! fm.1 = Some fm.2) →
    map_Forall (λ _ m, ∃ om, oms !! m_Flavor m = Some om ∧ m = manifest_of (m_Flavor m, om)) acc →
    map_Forall (λ _ m, ∃ om, oms !! m_Flavor m = Some om ∧ m = manifest_of (m_Flavor m, om))
      (foldl (λ acc fm, (add (mkManifest zeroLocation fm.1 (Slice (om_Owners fm.2)) "" (om_Specs fm.2)) acc).1) acc l)) as Hfold.
  { intros l. induction l as [|fm l IH]; intros acc Hl Hacc; [done|]. cbn [foldl]. apply IH; [set_solver|].
    unfold add. destruct (acc !! _); [done|]. cbn [fst]. apply map_Forall_insert_2; [|done].
    exists fm.2. split; [apply Hl; set_solver|done]. }
  intros Hm. refine (Hfold (map_to_list oms) ∅ _ (map_Forall_empty _) mid m Hm).
  intros [f om] Hin%elem_of_map_to_list. exact Hin.
Qed.

(** What of the configuration of otpl is to be used: nothing unless that is asked for,
    and else what is for the flavor that is asked for and for a defined cluster. *)
Definition usable (cs : list otplDeployConfig) (flags : OTPLFlags) (s : State) (cn : string) (spec : DeploySpec) : Prop :=
  UseOTPLDeploy flags = true ∧ IgnoreOTPLDeploy flags = false ∧
  is_Some (defs_Clusters (st_Defs s) !! cn) ∧ configured cs (otpl_Flavor flags) cn spec.

Lemma selected_usable cs flags mid s auto :
  newUserSelectedOTPLDeploySpecs (newDetectedOTPLConfig cs flags) mid flags s = Ok auto →
  st_Manifests s !! mid = None →
  match auto with
  | Some a => m_Kind a = "" ∧ m_Deployments a ≠ ∅ ∧ ∀ cn spec, m_Deployments a !! cn = Some spec ↔ usable cs flags s cn spec
  | None => ∀ cn spec, ¬ usable cs flags s cn spec
  end.
Proof.
  unfold newUserSelectedOTPLDeploySpecs, newDetectedOTPLConfig. intros Hsel Hmid. rewrite Hmid in Hsel.
  destruct (IgnoreOTPLDeploy flags) eqn:Hig.
  { rewrite decide_True in Hsel by apply map_size_empty. destruct (UseOTPLDeploy flags); [done|]. injection Hsel as <-.
    intros cn spec (_&Hig'&_). congruence. }
  destruct (UseOTPLDeploy flags) eqn:Huse.
  2: { assert (auto = None) as ->; [|intros cn spec (Hu&_); congruence].
       case_decide; [by injection Hsel|]. destruct (the_only _ _); [|done].
       destruct (_ && _ && _); [done|]. by injection Hsel. }
  case_decide; [done|]. destruct (the_only _ _) as [m|] eqn:Ho; [|done]. cbn [negb andb] in Hsel.
  assert (∀ cn spec, m_Deployments m !! cn = Some spec ↔ configured cs (otpl_Flavor flags) cn spec) as Hspecs.
  { unfold the_only in Ho. set (p := λ m : Manifest, _) in Ho.
    destruct (map_to_list (filtered p (ParseManifests cs))) as [|[k m'] [|]] eqn:Hl; try done. injection Ho as ->.
    assert ((k, m) ∈ map_to_list (filtered p (ParseManifests cs))) as Hin by (rewrite Hl; set_solver).
    apply elem_of_map_to_list, filtered_lookup in Hin as [Hin Hp]. apply bool_decide_eq_true in Hp.
    apply ParseManifests_lookup in Hin as (om&Hom&Hm). rewrite Hp in Hom.
    intros cn spec. rewrite <-add_config_specs, Hom, Hm. done. }
  case_bool_decide as Hempty; [done|].
  assert (∀ cn spec, filter (λ kv : string * DeploySpec, is_Some (defs_Clusters (st_Defs s) !! kv.1)) (m_Deployments m) !! cn = Some spec ↔
    usable cs flags s cn spec) as Hf.
  { intros cn spec. rewrite map_lookup_filter_Some, Hspecs. unfold usable. cbn. naive_solver. }
  case_bool_decide as Hnone; injection Hsel as <-.
  - intros cn spec Hu. apply Hf in Hu. rewrite Hnone in Hu. by rewrite lookup_empty in Hu.
  - split; [|by split]. unfold the_only in Ho. set (p := λ m : Manifest, _) in Ho.
    destruct (map_to_list (filtered p (ParseManifests cs))) as [|[k m'] [|]] eqn:Hl; try done. injection Ho as ->.
    assert ((k, m) ∈ map_to_list (filtered p (ParseManifests cs))) as Hin by (rewrite Hl; set_solver).
    apply elem_of_map_to_list, filtered_lookup in Hin as [Hin _].
    apply ParseManifests_lookup in Hin as (om&_&->). done.
Qed.

(** The flavor as an environment variable. *)
Definition in_flavor (flavor : string) (spec : DeploySpec) : DeploySpec :=
  if decide (flavor = "") then spec
  else let dc := spec_DeployConfig spec in
       mkDeploySpec (set_dc_Env (Some (<["OT_ENV_FLAVOR" := flavor]> (entries (dc_Env dc)))) dc)
         (spec_Version spec) (clusterName spec).

(** What is deployed of a project of which nothing is known: one instance, of no
    version yet, with the least resources there can be, that answers at /health. *)
Definition modest_spec : DeploySpec :=
  mkDeploySpec
    (mkDeployConfig (Some {["cpus" := "0.1"; "memory" := "100"; "ports" := "1"]}) None (Some ∅) 1 []
       (mkStartup false 0 0 0 "HTTP" "/health" 0 [] 0 0 0) "")
    zeroVersion "".

Lemma default_spec_modest : default_spec = modest_spec.
Proof. apply (bool_decide_unpack _). vm_compute. exact I. Qed.

Lemma modest_spec_valid flavor : DeployConfig_Validate (spec_DeployConfig (in_flavor flavor modest_spec)) = [].
Proof. unfold in_flavor. case_decide; vm_compute; reflexivity. Qed.

(** C26.  The manifest of a project without one can always be made, under the ID it is
    to have and as a service.  When otpl is to be used and has configurations of the
    flavor that is asked for, for defined clusters, its deployments are exactly those
    of the last configuration for each; and else they are, for every cluster that is
    defined, of one default, which is valid.  Either way each has the flavor of the
    manifest in its environment.  The writes to the environments never meet a nil
    map, since the parser of otpl gives every configuration an environment. *)
Theorem newTargetManifest_ok (cs : list otplDeployConfig) (flags : OTPLFlags) (tmid : ManifestID) (s : State)
    (auto : option Manifest) :
  Forall (λ c, dc_Env (spec_DeployConfig (oc_Spec c)) ≠ None) cs →
  newUserSelectedOTPLDeploySpecs (newDetectedOTPLConfig cs flags) tmid flags s = Ok auto →
  st_Manifests s !! tmid = None →
  ∃ m, newTargetManifest auto tmid s = Some m ∧ Manifest_ID m = tmid ∧ m_Kind m = "http-service" ∧
    Manifest_Validate m = [] ∧
    (∀ cn spec, usable cs flags s cn spec → m_Deployments m !! cn = Some (in_flavor (mid_Flavor tmid) spec)) ∧
    (∀ cn spec, m_Deployments m !! cn = Some spec →
       (∃ spec0, usable cs flags s cn spec0 ∧ spec = in_flavor (mid_Flavor tmid) spec0) ∨
       ((∀ cn' spec', ¬ usable cs flags s cn' spec') ∧ is_Some (defs_Clusters (st_Defs s) !! cn) ∧
        spec = in_flavor (mid_Flavor tmid) modest_spec ∧ DeployConfig_Validate (spec_DeployConfig spec) = [])) ∧
    ((∀ cn spec, ¬ usable cs flags s cn spec) → dom (m_Deployments m) = dom (defs_Clusters (st_Defs s))).
Proof.
  intros Henv Hsel Hnone. pose proof (selected_usable _ _ _ _ _ Hsel Hnone) as Huse.
  unfold newTargetManifest. rewrite Hnone.
  set (base := from_option m_Deployments ∅ auto).
  set (specs := if bool_decide (base = ∅) then defaultDeploySpecs (defs_Clusters (st_Defs s)) else base).
  assert (∀ cn spec, specs !! cn = Some spec ↔ usable cs flags s cn spec ∨
    ((∀ cn' spec', ¬ usable cs flags s cn' spec') ∧ is_Some (defs_Clusters (st_Defs s) !! cn) ∧ spec = modest_spec)) as Hspecs.
  { intros cn spec. unfold specs, base. destruct auto as [a|]; cbn [from_option].
    - destruct Huse as (_&Hne&Hu). rewrite bool_decide_eq_false_2, Hu by done. split; [by left|].
      intros [?|(Hno&_)]; [done|]. apply map_choose in Hne as (cn'&spec'&Hin). apply Hu in Hin. by destruct (Hno _ _ Hin).
    - rewrite bool_decide_eq_true_2 by done. unfold defaultDeploySpecs. rewrite lookup_fmap, default_spec_modest.
      destruct (defs_Clusters (st_Defs s) !! cn) as [c|] eqn:Hc; cbn; split.
      + intros [= <-]. right. split; [done|]. split; [by eexists|done].
      + intros [Hu|(_&_&->)]; [by destruct (Huse _ _ Hu)|done].
      + done.
      + intros [Hu|(_&[? ?]&_)]; [by destruct (Huse _ _ Hu)|done]. }
  assert (map_Forall (λ _ spec, dc_Env (spec_DeployConfig spec) ≠ None) specs) as Hmaps.
  { intros cn spec [(_&_&_&pre&c&post&->&_&<-&_)|(_&_&->)]%Hspecs; [|done].
    rewrite Forall_forall in Henv. apply Henv. set_solver. }
  rewrite set_flavors_ok by done. cbn [mbind option_bind].
  set (specs' := if bool_decide (mid_Flavor tmid = "") then specs else with_flavor (mid_Flavor tmid) <$> specs).
  assert (∀ cn, specs' !! cn = in_flavor (mid_Flavor tmid) <$> specs !! cn) as Hspecs'.
  { intros cn. unfold specs', in_flavor. case_bool_decide as Hf.
    - destruct (specs !! cn); cbn; [by rewrite decide_True|done].
    - rewrite lookup_fmap. destruct (specs !! cn); cbn; [by rewrite decide_False|done]. }
  assert (m_Kind (default (mkManifest zeroLocation "" [] "" ∅) (Manifest_Clone <$> auto)) = "") as Hkind.
  { destruct auto as [a|]; [|done]. by destruct Huse as [? _]. }
  set (m0 := default _ _) in *.
  set (m1 := SetID tmid _). assert (m_Kind m1 = "") as Hk1 by exact Hkind.
  assert ((RepairAll (Manifest_Validate m1) m1).2 = set_m_Kind ManifestKindService m1) as ->.
  { unfold Manifest_Validate. rewrite decide_True by done. reflexivity. }
  exists (set_m_Kind ManifestKindService m1). split; [done|]. split; [by destruct tmid|]. split; [done|].
  split; [reflexivity|]. change (m_Deployments (set_m_Kind ManifestKindService m1)) with specs'. split_and!.
  - intros cn spec Hu. rewrite Hspecs', (proj2 (Hspecs cn spec) (or_introl Hu)). done.
  - intros cn spec. rewrite Hspecs'. destruct (specs !! cn) as [spec0|] eqn:Hs; [|done]. intros [= <-].
    apply Hspecs in Hs as [Hu|(Hno&Hc&->)]; [left; by exists spec0|right].
    split; [done|]. split; [done|]. split; [done|]. apply modest_spec_valid.
  - intros Hno. apply set_eq. intros cn. rewrite !elem_of_dom, Hspecs'. split.
    + intros [spec Hs]. destruct (specs !! cn) as [spec0|] eqn:Hs0; [|done].
      apply Hspecs in Hs0 as [Hu|(_&Hc&_)]; [by destruct (Hno _ _ Hu)|done].
    + intros Hc. rewrite (proj2 (Hspecs cn modest_spec)) by (right; by split_and!). by eexists.
Qed.

(** *** Initialising a project *)

(** What a run of [sous init] that wrote has done. *)
Lemma SousInit_Execute_wrote {W} (sm : StateManager W) kind cluster target s user w w' m :
  SousInit_Execute sm kind cluster false target s user w = (w', Ok m) →
  m_Kind m = kind ∧ Manifest_ID m = Manifest_ID target ∧ st_Manifests s !! Manifest_ID m = None ∧
  WriteState sm (mkState (st_Defs s) (<[Manifest_ID m := m]> (st_Manifests s)) (etag s)) user w = (w', None) ∧
  dom (m_Deployments m) = (if bool_decide (cluster = "") then dom (m_Deployments target) else {[cluster]}) ∧
  (cluster ≠ "" → is_Some (defs_Clusters (st_Defs s) !! cluster)).
Proof.
  unfold SousInit_Execute. set (skip := if bool_decide (kind = ManifestKindService) then _ else _).
  destruct skip as [skip|]; [|done]. set (deps := if skip then _ else _).
  assert (dom deps = dom (m_Deployments target)) as Hdom by (unfold deps; destruct skip; [apply dom_fmap_L|done]).
  intros He. assert (cluster ≠ "" → is_Some (defs_Clusters (st_Defs s) !! cluster)) as Hcl.
  { intros Hne. rewrite bool_decide_eq_false_2 in He by done. destruct (defs_Clusters (st_Defs s) !! cluster); [done|].
    by inversion He. }
  assert (∀ (A : Type) (x y : A), match defs_Clusters (st_Defs s) !! cluster, bool_decide (cluster = "") with
                                  | None, false => x | _, _ => y end = y) as Hgo.
  { intros A x y. case_bool_decide as Hb; [by destruct (defs_Clusters (st_Defs s) !! cluster)|].
    by destruct (Hcl Hb) as [? ->]. }
  rewrite Hgo in He. unfold add in He. change ID with Manifest_ID in He.
  set (m' := mkManifest _ _ _ _ _) in He. destruct (st_Manifests s !! Manifest_ID m') eqn:Hnone; [done|].
  destruct (WriteState sm _ user w) as [w1 [e|]] eqn:Hw; [done|]. injection He as <- <-.
  split_and!; try done. cbn [m' m_Deployments]. case_bool_decide; [done|]. apply dom_singleton_L.
Qed.

(** C27.  A run of [sous init] that ends well has written the manifest it prints: there
    was none of that ID; the state that is written expands, to the deployments there
    were before and to those of the new manifest, one for each of the clusters that
    were meant: all of the target's, or the one that is named, even if the target is
    not for it. *)
Theorem init_adds {W} (sm : StateManager W) kind cluster (target : Manifest) (s : State) user w w' m :
  keyed (st_Manifests s) → map_Forall (λ _, clusters_defined (st_Defs s)) (st_Manifests s) →
  clusters_defined (st_Defs s) target →
  SousInit_Execute sm kind cluster false target s user w = (w', Ok m) →
  st_Manifests s !! Manifest_ID m = None ∧ m_Kind m = kind ∧
  dom (m_Deployments m) = (if bool_decide (cluster = "") then dom (m_Deployments target) else {[cluster]}) ∧
  ∃ s' ds ds', WriteState sm s' user w = (w', None) ∧
    State_Deployments s = Ok ds ∧ State_Deployments s' = Ok ds' ∧
    (∀ did, did_ManifestID did ≠ Manifest_ID m → ds' !! did = ds !! did) ∧
    ∀ cn, (is_Some (ds' !! mkDeploymentID (Manifest_ID m) cn) ↔ cn ∈ dom (m_Deployments m)) ∧
      ∀ d, ds' !! mkDeploymentID (Manifest_ID m) cn = Some d → described (st_Defs s) m cn d.
Proof.
  intros Hk Hall Htgt (Hkind&Hid&Hnone&Hw&Hdom&Hcl)%SousInit_Execute_wrote. split_and!; try done.
  set (ms := <[Manifest_ID m := m]> (st_Manifests s)) in *.
  assert (clusters_defined (st_Defs s) m) as Hm.
  { intros cn spec Hs%elem_of_dom_2. rewrite Hdom in Hs. case_bool_decide as Hb.
    - apply elem_of_dom in Hs as [? Hs]. by apply (Htgt _ _ Hs).
    - apply elem_of_singleton in Hs as ->. by apply Hcl. }
  assert (keyed ms) as Hk' by exact (keyed_insert m (st_Manifests s) Hk).
  assert (map_Forall (λ _, clusters_defined (st_Defs s)) ms) as Hall' by by apply map_Forall_insert_2.
  destruct (Manifests_Deployments_ok _ _ Hk Hall) as [ds Hds].
  destruct (Manifests_Deployments_ok _ _ Hk' Hall') as [ds' Hds'].
  pose proof (Manifests_Deployments_spec _ _ _ Hk Hds) as Hold. pose proof (Manifests_Deployments_spec _ _ _ Hk' Hds') as Hspec.
  exists (mkState (st_Defs s) ms (etag s)), ds, ds'. split_and!; try done.
  - intros did Hne. apply option_eq. intros d.
    rewrite (Hold did d), (Hspec did d). unfold ms. by rewrite lookup_insert_ne by done.
  - intros cn. split.
    + split.
      * intros [d (m0&Hm0&spec&?&Hs&_)%Hspec]. unfold ms in Hm0. cbn in Hm0. rewrite lookup_insert_eq in Hm0.
        injection Hm0 as <-. by apply elem_of_dom_2 in Hs.
      * intros [spec Hs]%elem_of_dom. destruct (Hm _ _ Hs) as [c Hc].
        exists (BuildDeployment m cn c spec []). apply Hspec. exists m. split; [apply lookup_insert_eq|]. by exists spec, c.
    + intros d (m0&Hm0&Hd)%Hspec. unfold ms in Hm0. cbn in Hm0. rewrite lookup_insert_eq in Hm0. by injection Hm0 as <-.
Qed.

(** *** Witnesses *)

Definition sample_flags : DeployFilterFlags :=
  mkDeployFilterFlags "" "github.com/opentable/wackadoo" "nested/there" "neat" "v1.2.3-beta.1+5b8e7a" "" "ci-sf" false.

Lemma BuildFilter_selects_witness :
  let parseSL := λ _, None in
  ∃ rf, BuildFilter parseSL sample_flags = Some (Ok rf) ∧ FilterDeployment rf sample_deployment = true ∧
    (FilterDeployment rf sample_deployment = true → ClusterName sample_deployment = "ci-sf").
Proof.
  intros parseSL.
  assert (∃ rf, BuildFilter parseSL sample_flags = Some (Ok rf)) as [rf Hrf] by (vm_compute; by eexists).
  pose proof (BuildFilter_selects parseSL sample_flags rf eq_refl eq_refl Hrf sample_deployment) as Hsel.
  exists rf. split; [exact Hrf|]. split.
  - apply Hsel. split_and!; try (right; right; reflexivity); try (right; reflexivity).
    + right. left. reflexivity.
    + right. right. exists (mkVersion 1 2 3 "beta.1" "5b8e7a" "M.m.p-?+?"). split; vm_compute; reflexivity.
  - intros (_&Hc&_)%Hsel. destruct Hc as [?|[?|?]]; [discriminate|discriminate|assumption].
Defined.

Definition sample_otpl : list otplDeployConfig :=
  [mkOtplConfig "ci-sf.neat" ["alice@example.com"] sample_spec; mkOtplConfig "ci-ny.neat" [] sample_spec].
Definition sample_otpl_flags : OTPLFlags := mkOTPLFlags true false "neat".

(** What otpl has for the one cluster that is defined is deployed; without it, the
    default is. *)
Lemma newTargetManifest_ok_witness :
  let s := mkState sample_defs ∅ None in
  (∃ auto m, newUserSelectedOTPLDeploySpecs (newDetectedOTPLConfig sample_otpl sample_otpl_flags) sample_mid sample_otpl_flags s = Ok auto ∧
    newTargetManifest auto sample_mid s = Some m ∧ Manifest_Validate m = [] ∧
    m_Deployments m !! "ci-sf" = Some (in_flavor "neat" sample_spec) ∧ m_Deployments m !! "ci-ny" = None) ∧
  (∃ m, newTargetManifest None sample_mid s = Some m ∧ dom (m_Deployments m) = dom (defs_Clusters sample_defs)).
Proof.
  intros s.
  assert (Forall (λ c, dc_Env (spec_DeployConfig (oc_Spec c)) ≠ None) sample_otpl) as Henv
    by (repeat constructor; discriminate).
  split.
  - assert (∃ auto, newUserSelectedOTPLDeploySpecs (newDetectedOTPLConfig sample_otpl sample_otpl_flags) sample_mid sample_otpl_flags s = Ok auto)
      as [auto Hauto] by (eexists; vm_compute; reflexivity).
    destruct (newTargetManifest_ok sample_otpl sample_otpl_flags sample_mid s auto Henv Hauto (lookup_empty _))
      as (m&Hm&_&_&Hv&Hu&Hall&_).
    exists auto, m. split; [exact Hauto|]. split; [exact Hm|]. split; [exact Hv|]. split.
    + apply Hu. split; [done|]. split; [done|]. split; [by exists sample_cluster|].
      exists [], (mkOtplConfig "ci-sf.neat" ["alice@example.com"] sample_spec), [mkOtplConfig "ci-ny.neat" [] sample_spec].
      split; [done|]. split; [right; by exists []|]. split; [done|].
      intros c' Hc'. apply list_elem_of_singleton in Hc' as ->. intros [[Hc _]|[? Hc]]; discriminate Hc.
    + destruct (m_Deployments m !! "ci-ny") as [spec|] eqn:Hny; [|reflexivity]. exfalso.
      destruct (Hall "ci-ny" spec Hny) as [(?&(_&_&[c Hc]&_)&_)|(_&[c Hc]&_)]; discriminate Hc.
  - destruct (newTargetManifest_ok [] (mkOTPLFlags false false "neat") sample_mid s None (Forall_nil_2 _) eq_refl (lookup_empty _))
      as (m&Hm&_&_&_&_&_&Hdom).
    exists m. split; [exact Hm|]. apply Hdom. intros cn spec (Hu&_). discriminate Hu.
Defined.

Lemma init_adds_witness :
  let s := mkState sample_defs ∅ (Some "etag-1") in
  ∃ w' m, SousInit_Execute in_memory ManifestKindService "" false sample_manifest s (mkSousUser "a" "b") s = (w', Ok m) ∧
    ∃ ds', State_Deployments w' = Ok ds' ∧ is_Some (ds' !! sample_did).
Proof.
  intros s.
  assert (SousInit_Execute in_memory ManifestKindService "" false sample_manifest s (mkSousUser "a" "b") s =
    (sample_state, Ok sample_manifest)) as Hrun by reflexivity.
  destruct (init_adds in_memory ManifestKindService "" sample_manifest s (mkSousUser "a" "b") s sample_state sample_manifest)
    as (_&_&Hdom&s'&ds&ds'&Hw&_&Hds'&_&Hcn).
  - apply map_Forall_empty.
  - apply map_Forall_empty.
  - apply sample_clusters_defined.
  - exact Hrun.
  - exists sample_state, sample_manifest. split; [exact Hrun|]. exists ds'. injection Hw as <-. split; [exact Hds'|].
    specialize (Hcn "ci-sf") as [Hcn _]. apply Hcn. apply elem_of_dom. by eexists.
Defined.
