(* ===== verification/SqlGen.v ===== *)
(** * SQL generation (util/sqlgen: fieldset.go, rowdef.go, field.go, coldef.go)

    Field sets collect rows, column by column, and make of them the text of an
    [insert] and the values for its placeholders. *)

From S2P Require Import Prelude GoStrings.
#[local] Open Scope string_scope.
#[local] Open Scope list_scope.

(** ** Columns, fields and rows *)

Record coldef := mkColdef { col_fmt : string; col_name : string; candidate : bool }.
#[export] Instance coldef_eq_dec : EqDecision coldef.
Proof. solve_decision. Defined.

Section SqlGen.
Context {V : Type} `{EqDecision V}.

Record field := mkField { column : coldef; values : list V }.
Abbreviation row := (gmap string field).

Record fieldset := mkFieldset {
  colnames : list string;
  coldefs : gmap string coldef;
  rows : list row
}.

Definition NewFieldset : fieldset := mkFieldset [] ∅ [].

(** The values of a field, none of one that is missing. *)
Definition values_at (r : row) (name : string) : list V := from_option values [] (r !! name).

Definition candidates_of (r : row) : list (string * field) :=
  filter (λ nv, candidate (column nv.2) = true) (map_to_list r).

Definition dupes (r other : row) : bool :=
  let agree r' nv := bool_decide (values_at r' nv.1 = values nv.2) in
  forallb (agree other) (candidates_of r) && forallb (agree r) (candidates_of other) &&
  negb (bool_decide (candidates_of r = [] ∧ candidates_of other = [])).

(** A call of [FD], or of [CF] for candidates, as rows are defined by them. *)
Record call := mkCall { k_fmt : string; k_col : string; k_vals : list V; k_cand : bool }.
Definition FD (fmt col : string) (vals : list V) : call := mkCall fmt col vals false.
Definition CF (fmt col : string) (vals : list V) : call := mkCall fmt col vals true.

(** [None] is the panic on a column that is defined in two ways. *)
Definition getcol (col frmt : string) (cand : bool) (f : fieldset) : option (fieldset * coldef) :=
  match coldefs f !! col with
  | Some c => if bool_decide (c = mkColdef frmt col cand) then Some (f, c) else None
  | None =>
      let c := mkColdef frmt col cand in
      Some (mkFieldset (colnames f ++ [col]) (<[col := c]> (coldefs f)) (rows f), c)
  end.

Definition deffield (k : call) '((f, r) : fieldset * row) : option (fieldset * row) :=
  '(f, c) ← getcol (k_col k) (k_fmt k) (k_cand k) f;
  Some (f, <[k_col k := mkField c (k_vals k)]> r).

Fixpoint deffields (ks : list call) (fr : fieldset * row) : option (fieldset * row) :=
  match ks with
  | [] => Some fr
  | k :: ks => fr ← deffield k fr; deffields ks fr
  end.

Definition kick (rs : list row) (r : row) : list row :=
  if existsb (λ r', dupes r' r) rs then rs else rs ++ [r].

Definition Row (fn : list call) (f : fieldset) : option fieldset :=
  '(f, r) ← deffields fn (f, ∅);
  Some (mkFieldset (colnames f) (coldefs f) (kick (rows f) r)).

Definition Potent (f : fieldset) : bool := bool_decide (colnames f ≠ []).
Definition RowCount (f : fieldset) : nat := length (rows f).

(** ** The values and the text of an insert *)

Definition row_values (cols : list string) (r : row) : list V := concat (values_at r <$> cols).
Definition InsertValues (f : fieldset) : list V := concat (row_values (colnames f) <$> rows f).

(** Each placeholder gets the next number. *)
Fixpoint number (placeIdx : nat) (pat : string) : nat * string :=
  match pat with
  | "" => (placeIdx, "")
  | String c rest =>
      if bool_decide (c = "?"%char) then
        let '(n, rest) := number (S placeIdx) rest in (n, "$" +:+ itoa (Z.of_nat (S placeIdx)) +:+ rest)
      else let '(n, rest) := number placeIdx rest in (n, String c rest)
  end.

Definition fmt_of (f : fieldset) (name : string) : string := from_option col_fmt "" (coldefs f !! name).

Fixpoint number_all (placeIdx : nat) (pats : list string) : nat * list string :=
  match pats with
  | [] => (placeIdx, [])
  | pat :: pats =>
      let '(n, s) := number placeIdx pat in let '(n, l) := number_all n pats in (n, s :: l)
  end.

Definition parens (l : list string) : string := "(" +:+ join "," l +:+ ")".

Fixpoint value_lines (f : fieldset) (placeIdx : nat) (rs : list row) : list string :=
  match rs with
  | [] => []
  | _ :: rs =>
      let '(n, valpats) := number_all placeIdx (fmt_of f <$> colnames f) in
      parens valpats :: value_lines f n rs
  end.

Definition values_text (f : fieldset) : string := join ("," +:+ String "010" "") (value_lines f 0 (rows f)).

Definition columns (f : fieldset) : string := parens (colnames f).

Definition is_candidate (f : fieldset) (name : string) : bool :=
  from_option candidate false (coldefs f !! name).
Definition Candidates (f : fieldset) : string := parens (filter (λ n, is_candidate f n = true) (colnames f)).
Definition NonCandidates (f : fieldset) : string := parens (filter (λ n, is_candidate f n = false) (colnames f)).
Definition NSNonCandidates (f : fieldset) (namespace : string) : string :=
  parens ((λ n, namespace +:+ "." +:+ n) <$> filter (λ n, is_candidate f n = false) (colnames f)).

(** What a conflict clause is made of: Go parses its template. *)
Inductive piece : Type :=
| PText (s : string)
| PCandidates
| PNonCandidates
| PNSNonCandidates (namespace : string).

(** The templates are those of [html/template], which escapes what is put in. *)
Definition html_escape (c : ascii) : string :=
  if bool_decide (c = "&"%char) then "&amp;" else if bool_decide (c = "<"%char) then "&lt;"
  else if bool_decide (c = ">"%char) then "&gt;" else if bool_decide (c = "'"%char) then "&#39;"
  else if bool_decide (c = "+"%char) then "&#43;" else if bool_decide (c = "034"%char) then "&#34;"
  else String c "".

Fixpoint escape (s : string) : string :=
  match s with "" => "" | String c s => html_escape c +:+ escape s end.

Definition piece_text (f : fieldset) (p : piece) : string :=
  match p with
  | PText s => s
  | PCandidates => escape (Candidates f)
  | PNonCandidates => escape (NonCandidates f)
  | PNSNonCandidates ns => escape (NSNonCandidates f ns)
  end.

Definition conflictClause (f : fieldset) (templ : list piece) : string := join "" (piece_text f <$> templ).

Definition InsertSQL (f : fieldset) (table : string) (conflict : list piece) : string :=
  "insert into " +:+ table +:+ " " +:+ columns f +:+ " values " +:+ values_text f +:+ " " +:+ conflictClause f conflict.

(** A field set of rows that are defined one after the other. *)
Fixpoint build (fns : list (list call)) (f : fieldset) : option fieldset :=
  match fns with
  | [] => Some f
  | fn :: fns => f ← Row fn f; build fns f
  end.

(** ** Lemmas *)

Definition call_def (k : call) : coldef := mkColdef (k_fmt k) (k_col k) (k_cand k).
Definition row_of (fn : list call) (r : row) : row :=
  foldl (λ r k, <[k_col k := mkField (call_def k) (k_vals k)]> r) r fn.

Definition defs_of (cs : list coldef) : gmap string coldef := list_to_map ((λ c, (col_name c, c)) <$> cs).

Lemma defs_of_lookup cs c : NoDup (col_name <$> cs) → c ∈ cs → defs_of cs !! col_name c = Some c.
Proof using.
  intros Hnd Hc. apply elem_of_list_to_map_1.
  - by rewrite <-list_fmap_compose.
  - apply list_elem_of_fmap. by exists c.
Qed.

Lemma defs_of_None cs name : name ∉ col_name <$> cs → defs_of cs !! name = None.
Proof using. intros Hn. apply not_elem_of_list_to_map_1. by rewrite <-list_fmap_compose. Qed.

Lemma defs_of_snoc cs c : NoDup (col_name <$> cs ++ [c]) → defs_of (cs ++ [c]) = <[col_name c := c]> (defs_of cs).
Proof using.
  intros Hnd. rewrite fmap_app in Hnd. apply NoDup_app in Hnd as (_&Hn&_).
  unfold defs_of. rewrite fmap_app. cbn [fmap list_fmap]. rewrite list_to_map_snoc; [done|].
  rewrite <-list_fmap_compose. intros Hin. apply (Hn (col_name c) Hin). by left.
Qed.

(** The columns of a row are known, or the first ones of them are. *)
Lemma deffields_known cs ks rs r :
  NoDup (col_name <$> cs) → (∀ k, k ∈ ks → call_def k ∈ cs) →
  deffields ks (mkFieldset (col_name <$> cs) (defs_of cs) rs, r) =
    Some (mkFieldset (col_name <$> cs) (defs_of cs) rs, row_of ks r).
Proof using.
  intros Hnd. revert r. induction ks as [|k ks IH]; intros r Hks; [done|]. cbn [deffields].
  unfold deffield, getcol. cbn [coldefs].
  assert (defs_of cs !! k_col k = Some (call_def k)) as ->.
  { apply (defs_of_lookup cs (call_def k) Hnd). apply Hks. by left. }
  rewrite bool_decide_eq_true_2 by done. cbn [mbind option_bind]. rewrite IH; [done|].
  intros k' Hk'. apply Hks. by right.
Qed.

Lemma deffields_new done ks rs r :
  NoDup (col_name <$> done ++ (call_def <$> ks)) →
  deffields ks (mkFieldset (col_name <$> done) (defs_of done) rs, r) =
    Some (mkFieldset (col_name <$> done ++ (call_def <$> ks)) (defs_of (done ++ (call_def <$> ks))) rs, row_of ks r).
Proof using.
  revert done r. induction ks as [|k ks IH]; intros done r Hnd; cbn [fmap list_fmap deffields].
  { by rewrite app_nil_r. }
  cbn [fmap list_fmap] in Hnd. change (call_def k :: (call_def <$> ks)) with ([call_def k] ++ (call_def <$> ks)) in *.
  rewrite (assoc_L (++)) in Hnd. pose proof Hnd as Hnd'. rewrite fmap_app in Hnd'. apply NoDup_app in Hnd' as [Hnd' _].
  unfold deffield, getcol. cbn [coldefs colnames rows].
  assert (defs_of done !! k_col k = None) as ->.
  { apply defs_of_None. rewrite fmap_app in Hnd'. apply NoDup_app in Hnd' as (_&Hn&_). intros Hin.
    apply (Hn _ Hin). by left. }
  cbn [mbind option_bind]. change (mkColdef (k_fmt k) (k_col k) (k_cand k)) with (call_def k).
  change (k_col k) with (col_name (call_def k)) at 1 2. rewrite <-(defs_of_snoc done (call_def k) Hnd').
  change ((col_name <$> done) ++ [col_name (call_def k)]) with ((col_name <$> done) ++ (col_name <$> [call_def k])).
  rewrite <-fmap_app. rewrite IH by done. by rewrite <-(assoc_L (++)).
Qed.

(** The columns of a field set: none yet, or those all its rows have. *)
Definition has_columns (cs : list coldef) (f : fieldset) : Prop :=
  (f = NewFieldset) ∨ (colnames f = col_name <$> cs ∧ coldefs f = defs_of cs).

Lemma Row_uniform cs fn f :
  NoDup (col_name <$> cs) → call_def <$> fn = cs → has_columns cs f →
  Row fn f = Some (mkFieldset (col_name <$> cs) (defs_of cs) (kick (rows f) (row_of fn ∅))).
Proof using.
  intros Hnd <- [->|[Hn Hd]]; unfold Row.
  - change NewFieldset with (mkFieldset (col_name <$> []) (defs_of []) []). by rewrite (deffields_new [] fn [] ∅).
  - destruct f as [ns ds rs]. cbn in Hn, Hd. subst ns ds. rewrite deffields_known; [done|done|].
    intros k Hk. apply list_elem_of_fmap. by exists k.
Qed.

Lemma build_uniform cs fns f :
  NoDup (col_name <$> cs) → Forall (λ fn, call_def <$> fn = cs) fns → has_columns cs f →
  ∃ f', build fns f = Some f' ∧ has_columns cs f' ∧ (fns ≠ [] → colnames f' = col_name <$> cs) ∧
    rows f' = foldl kick (rows f) ((λ fn, row_of fn ∅) <$> fns).
Proof using.
  intros Hnd. revert f. induction fns as [|fn fns IH]; intros f Hfns Hf; [by exists f|].
  apply Forall_cons in Hfns as [Hfn Hfns]. cbn [build]. rewrite (Row_uniform cs) by done. cbn [mbind option_bind].
  destruct (IH (mkFieldset (col_name <$> cs) (defs_of cs) (kick (rows f) (row_of fn ∅))) Hfns) as (f'&Hb&Hc&Hne&Hr);
    [by right|].
  exists f'. split_and!; try done. intros _. destruct fns as [|fn' fns]; [|by apply Hne].
  cbn [build] in Hb. by injection Hb as <-.
Qed.

(** Without candidates no row is kicked out. *)
Lemma row_of_lookup fn r name :
  row_of fn r !! name = match foldl (λ acc k, if bool_decide (k_col k = name) then Some k else acc) None fn with
                        | Some k => Some (mkField (call_def k) (k_vals k))
                        | None => r !! name
                        end.
Proof using.
  revert r. induction fn as [|k fn IH] using rev_ind; intros r; [done|].
  unfold row_of in *. rewrite !foldl_app. cbn [foldl]. case_bool_decide as Hk.
  - rewrite <-Hk. by rewrite lookup_insert_eq.
  - rewrite lookup_insert_ne by done. apply IH.
Qed.

Lemma row_of_fields (P : field → Prop) fn r name v :
  (∀ k, k ∈ fn → P (mkField (call_def k) (k_vals k))) → (∀ n w, r !! n = Some w → P w) →
  row_of fn r !! name = Some v → P v.
Proof using.
  revert r. induction fn as [|k fn IH]; intros r Hfn Hr Hv; [by eapply Hr|]. cbn in Hv.
  refine (IH _ _ _ Hv).
  - intros k' Hk'. apply Hfn. by right.
  - intros n w [[_ <-]|[_ Hw]]%lookup_insert_Some; [apply Hfn; by left|by eapply Hr].
Qed.

Lemma row_of_has fn r name v : row_of fn r !! name = Some v → r !! name = None →
  ∃ k, k ∈ fn ∧ k_col k = name ∧ v = mkField (call_def k) (k_vals k).
Proof using.
  intros Hv Hr. induction fn as [|k fn IH] using rev_ind; [cbn in Hv; congruence|].
  unfold row_of in *. rewrite foldl_app in Hv. cbn [foldl] in Hv. apply lookup_insert_Some in Hv as [[Hn <-]|[_ Hv]].
  - exists k. split; [|done]. apply elem_of_app. right. by left.
  - destruct (IH Hv) as (k'&Hk'&?). exists k'. split; [|done]. apply elem_of_app. by left.
Qed.

Lemma no_candidates fn : Forall (λ k, k_cand k = false) fn → candidates_of (row_of fn ∅) = [].
Proof using.
  intros Hfn. apply elem_of_nil_inv. intros [n v] [Hc Hin]%list_elem_of_filter. cbn in Hc.
  apply elem_of_map_to_list in Hin.
  assert (candidate (column v) = false) as Hf; [|congruence].
  refine (row_of_fields (λ v, candidate (column v) = false) fn ∅ n v _ _ Hin); [|done].
  rewrite Forall_forall in Hfn. intros k Hk. by apply Hfn.
Qed.

Lemma kick_no_candidates rs fn : Forall (λ k, k_cand k = false) fn →
  Forall (λ r, candidates_of r = []) rs → kick rs (row_of fn ∅) = rs ++ [row_of fn ∅].
Proof using.
  intros Hfn Hrs. unfold kick. destruct (existsb _ rs) eqn:He; [|done].
  apply existsb_exists in He as (r&Hr%list_elem_of_In&Hd). rewrite Forall_forall in Hrs. unfold dupes in Hd.
  rewrite (Hrs _ Hr), (no_candidates fn Hfn) in Hd. rewrite bool_decide_eq_true_2 in Hd by done. done.
Qed.

Lemma foldl_kick_no_candidates rs fns : Forall (Forall (λ k, k_cand k = false)) fns →
  Forall (λ r, candidates_of r = []) rs →
  foldl kick rs ((λ fn, row_of fn ∅) <$> fns) = rs ++ ((λ fn, row_of fn ∅) <$> fns).
Proof using.
  revert rs. induction fns as [|fn fns IH]; intros rs Hf Hrs; [by rewrite app_nil_r|].
  apply Forall_cons in Hf as [Hfn Hf]. cbn [fmap list_fmap foldl]. rewrite kick_no_candidates by done.
  rewrite IH; [by rewrite <-(assoc_L (++))|done|]. apply Forall_app. split; [done|].
  constructor; [by apply no_candidates|done].
Qed.

(** Rows that agree on their candidates are kicked out: what is left has one row of
    each kind. *)
Definition distinct_rows (rs : list row) : Prop :=
  ∀ i j r r', (i < j)%nat → rs !! i = Some r → rs !! j = Some r' → dupes r r' = false.

Lemma kick_distinct rs r : distinct_rows rs → distinct_rows (kick rs r).
Proof using.
  intros Hrs. unfold kick. destruct (existsb _ rs) eqn:He; [done|].
  intros i j r1 r2 Hij H1 H2. apply lookup_app_Some in H2 as [H2|[Hj H2]].
  - apply lookup_app_Some in H1 as [H1|[Hi _]]; [by apply (Hrs i j)|]. apply lookup_lt_Some in H2. lia.
  - apply list_lookup_singleton_Some in H2 as [Hj0 <-]. apply lookup_app_Some in H1 as [H1|[Hi H1]].
    + apply not_true_is_false. intros Hd. apply not_true_iff_false in He. apply He. apply existsb_exists.
      exists r1. split; [by apply list_elem_of_In, (list_elem_of_lookup_2 _ i)|done].
    + apply list_lookup_singleton_Some in H1 as [Hi0 _]. lia.
Qed.

Lemma build_distinct fns f f' : distinct_rows (rows f) → build fns f = Some f' → distinct_rows (rows f').
Proof using.
  revert f. induction fns as [|fn fns IH]; intros f Hf; [by intros [= <-]|]. cbn [build].
  unfold Row. destruct (deffields fn (f, ∅)) as [[f1 r]|] eqn:Hd; [|done]. cbn [mbind option_bind].
  apply IH. cbn [rows]. apply kick_distinct.
  assert (rows f1 = rows f) as ->; [|done]. revert Hd. clear. generalize (∅ : row). revert f.
  induction fn as [|k fn IHfn]; intros f r0; cbn [deffields]; [by intros [= <- _]|].
  unfold deffield, getcol. destruct (coldefs f !! k_col k) as [c|].
  - case_bool_decide; [|done]. cbn [mbind option_bind]. apply IHfn.
  - cbn [mbind option_bind]. intros Hd. by apply IHfn in Hd.
Qed.

(** *** Placeholders *)

Definition count_q (pat : string) : nat := length (filter (λ c, c = "?"%char) (bytes pat)).

Lemma number_count n pat : (number n pat).1 = (n + count_q pat)%nat.
Proof using.
  revert n. induction pat as [|c pat IH]; intros n; [cbn; lia|]. cbn [number]. unfold count_q. cbn [bytes].
  rewrite filter_cons. case_bool_decide as Hc.
  - rewrite decide_True by done. specialize (IH (S n)). destruct (number (S n) pat). cbn in *.
    unfold count_q in IH. lia.
  - rewrite decide_False by done. specialize (IH n). destruct (number n pat). cbn in *. unfold count_q in IH. lia.
Qed.

(** Every field of every row has as many values as its column has placeholders. *)
Definition matched (f : fieldset) : Prop :=
  ∀ r name, r ∈ rows f → name ∈ colnames f → length (values_at r name) = count_q (fmt_of f name).

Lemma number_all_spec n pats :
  (number_all n pats).1 = (n + sum_list (count_q <$> pats))%nat ∧
  ∀ j pat, pats !! j = Some pat →
    (number_all n pats).2 !! j = Some (number (n + sum_list (count_q <$> take j pats)) pat).2.
Proof using.
  revert n. induction pats as [|p pats IH]; intros n; [cbn; split; [lia|done]|]. cbn [number_all].
  pose proof (number_count n p) as Hn. destruct (number n p) as [n1 s] eqn:Hp. cbn in Hn. subst n1.
  destruct (IH (n + count_q p)%nat) as [H1 H2]. destruct (number_all _ pats) as [n2 l]. cbn in H1, H2. split.
  - cbn. lia.
  - intros [|j] pat Hj; cbn in Hj |- *.
    + injection Hj as <-. by rewrite Nat.add_0_r, Hp.
    + transitivity (l !! j); [done|]. rewrite (H2 j pat Hj). do 3 f_equal. lia.
Qed.

Lemma row_values_length f r cols : (∀ name, name ∈ cols → length (values_at r name) = count_q (fmt_of f name)) →
  length (row_values cols r) = sum_list (count_q <$> (fmt_of f <$> cols)).
Proof using.
  intros Hm. induction cols as [|c cols IH]; [done|]. unfold row_values in *. cbn [fmap list_fmap concat sum_list].
  rewrite length_app, IH, Hm; [done|by left|]. intros name Hn. apply Hm. by right.
Qed.

Lemma value_lines_spec f n rs : (∀ r, r ∈ rs → r ∈ rows f) → matched f →
  ∀ i r, rs !! i = Some r →
    value_lines f n rs !! i =
      Some (parens (number_all (n + length (concat (row_values (colnames f) <$> take i rs))) (fmt_of f <$> colnames f)).2).
Proof using.
  intros Hrs Hm. revert n. induction rs as [|r0 rs IH]; intros n i r Hi; [done|]. cbn [value_lines].
  pose proof (number_all_spec n (fmt_of f <$> colnames f)) as [Hn _].
  destruct (number_all n _) as [n1 l] eqn:Hl. cbn in Hn. subst n1. destruct i as [|i]; cbn [lookup list_lookup] in *.
  - cbn. by rewrite Nat.add_0_r, Hl.
  - rewrite (IH (λ r Hr, Hrs r (list_elem_of_further _ _ _ Hr)) _ i r Hi). cbn [take fmap list_fmap concat]. rewrite length_app.
    rewrite (row_values_length f r0); [by rewrite Nat.add_assoc|]. intros name Hin. apply Hm; [|done]. apply Hrs. by left.
Qed.

Lemma concat_fmap_take {A B} (g : A → list B) l j a : l !! j = Some a →
  ∃ after, concat (g <$> l) = concat (g <$> take j l) ++ g a ++ after.
Proof using.
  intros Hj. exists (concat (g <$> drop (S j) l)). rewrite <-(take_drop_middle l j a Hj) at 1.
  by rewrite fmap_app, concat_app.
Qed.

Lemma foldl_kick_elem r rs acc : r ∈ foldl kick acc rs → r ∈ acc ∨ r ∈ rs.
Proof using.
  revert acc. induction rs as [|r0 rs IH]; intros acc Hin; [by left|]. cbn in Hin.
  apply IH in Hin as [Hin|?]; [|right; by right]. unfold kick in Hin. destruct (existsb _ acc); [by left|].
  apply elem_of_app in Hin as [?|?%list_elem_of_singleton]; [by left|]. right. subst. by left.
Qed.

(** Every field of a row is the one that was given. *)
Lemma row_of_given cs fn (f : fieldset) r c : NoDup (col_name <$> cs) → call_def <$> fn = cs →
  r = row_of fn ∅ → c ∈ cs → ∃ k, k ∈ fn ∧ call_def k = c ∧ values_at r (col_name c) = k_vals k.
Proof using.
  intros Hnd Hcs -> Hc. rewrite <-Hcs in Hc, Hnd. apply list_elem_of_fmap in Hc as (k&->&Hk).
  exists k. split; [done|]. split; [done|]. unfold values_at. change (col_name (call_def k)) with (k_col k).
  enough (row_of fn ∅ !! k_col k = Some (mkField (call_def k) (k_vals k))) as -> by done.
  clear Hcs. generalize (∅ : row). induction fn as [|k' fn IH]; intros r; [by apply elem_of_nil in Hk|].
  cbn [fmap list_fmap] in Hnd. apply NoDup_cons in Hnd as [Hn Hnd]. cbn [row_of foldl].
  fold (row_of fn (<[k_col k' := mkField (call_def k') (k_vals k')]> r)). apply elem_of_cons in Hk as [->|Hk].
  - rewrite row_of_lookup. assert (foldl (λ acc k, if bool_decide (k_col k = k_col k') then Some k else acc) None fn = None) as ->.
    { clear -Hn. induction fn as [|k fn IH] using rev_ind; [done|]. rewrite foldl_app. cbn [foldl].
      rewrite fmap_app in Hn. rewrite bool_decide_eq_false_2.
      - apply IH. intros Hin. apply Hn. rewrite fmap_app. apply elem_of_app. by left.
      - intros He. apply Hn. rewrite fmap_app. apply elem_of_app. right. cbn. rewrite <-He. by left. }
    apply lookup_insert_eq.
  - by apply IH.
Qed.

Lemma build_matched cs fns f : NoDup (col_name <$> cs) → Forall (λ fn, call_def <$> fn = cs) fns →
  Forall (Forall (λ k, length (k_vals k) = count_q (k_fmt k))) fns →
  build fns NewFieldset = Some f → matched f.
Proof using.
  intros Hnd Hcs Hlen Hb. destruct (build_uniform cs fns NewFieldset Hnd Hcs (or_introl eq_refl)) as (f'&Hb'&Hc&_&Hr).
  rewrite Hb in Hb'. injection Hb' as <-. intros r name Hrow Hname. rewrite Hr in Hrow.
  apply foldl_kick_elem in Hrow as [?%elem_of_nil|(fn&->&Hfn)%list_elem_of_fmap]; [done|]. clear Hr.
  destruct Hc as [->|[Hn Hd]]; [by apply elem_of_nil in Hname|].
  rewrite Hn in Hname. apply list_elem_of_fmap in Hname as (c&->&Hcin).
  rewrite Forall_forall in Hcs, Hlen. specialize (Hcs fn Hfn). specialize (Hlen fn Hfn). rewrite Forall_forall in Hlen.
  destruct (row_of_given cs fn f _ c Hnd Hcs eq_refl Hcin) as (k&Hk&Hkc&->).
  unfold fmt_of. rewrite Hd, (defs_of_lookup cs c Hnd Hcin), <-Hkc. by apply Hlen.
Qed.

(** A text around numbered placeholders: the first piece, and each other one after
    the next number. *)
Definition around (first : nat) (pieces : list string) : string :=
  match pieces with
  | [] => ""
  | p :: ps => p +:+ join "" (imap (λ m q, "$" +:+ itoa (Z.of_nat (first + m)) +:+ q) ps)
  end.

Lemma join_empty_cons x (l : list string) : join "" (x :: l) = x +:+ join "" l.
Proof using. destruct l; cbn; [by rewrite str_app_nil_r|done]. Qed.

Lemma number_around n pat : (number n pat).2 = around (S n) (split_on "?"%char pat).
Proof using.
  revert n. induction pat as [|c pat IH]; intros n; [done|]. cbn [number split_on].
  pose proof (split_on_nonempty "?"%char pat) as Hne. case_bool_decide as Hc.
  - rewrite decide_True by done. specialize (IH (S n)). destruct (number (S n) pat) as [n' s]. cbn [snd] in *. subst s.
    destruct (split_on "?"%char pat) as [|p ps]; [done|]. cbn [around imap].
    rewrite join_empty_cons, Nat.add_0_r, !str_app_assoc. change ("" +:+ ?x) with x. do 4 f_equal.
    apply imap_ext. intros m q _. cbn. do 3 f_equal. lia.
  - rewrite decide_False by done. specialize (IH n). destruct (number n pat) as [n' s]. cbn [snd] in *. subst s.
    by destruct (split_on "?"%char pat).
Qed.

Lemma count_q_pieces pat : S (count_q pat) = length (split_on "?"%char pat).
Proof using.
  induction pat as [|c pat IH]; [done|]. unfold count_q in *. cbn [bytes split_on]. rewrite filter_cons.
  pose proof (split_on_nonempty "?"%char pat) as Hne. case_decide; cbn [length]; [by rewrite IH|].
  destruct (split_on "?"%char pat); [done|]. exact IH.
Qed.

Lemma value_lines_length f n rs : length (value_lines f n rs) = length rs.
Proof using. revert n. induction rs as [|r rs IH]; intros n; [done|]. cbn. destruct (number_all _ _). cbn. by rewrite IH. Qed.

Lemma number_all_length n pats : length (number_all n pats).2 = length pats.
Proof using.
  revert n. induction pats as [|p pats IH]; intros n; [done|]. cbn. destruct (number n p) as [n1 s].
  specialize (IH n1). destruct (number_all n1 pats). cbn in *. by rewrite IH.
Qed.

(** C30.  The text of an insert and the values that are passed with it go together.
    Rows that define the same columns, each with as many values as its format has
    question marks, come to a text that names the columns, in their order, and has
    a line for each row that was kept, with a field for each column: the format
    that was given for it, its question marks replaced by [$k], [$k+1] and so on,
    where [k] counts from 1 and its values are the [k]th, the [k+1]th and so on of
    all that are passed. *)
Theorem InsertSQL_aligned (cs : list coldef) (fns : list (list call)) (table : string) (conflict : list piece) :
  NoDup (col_name <$> cs) → fns ≠ [] → Forall (λ fn, call_def <$> fn = cs) fns →
  Forall (Forall (λ k, S (length (k_vals k)) = length (split_on "?"%char (k_fmt k)))) fns →
  ∃ f lines, build fns NewFieldset = Some f ∧ length lines = length (rows f) ∧
    InsertSQL f table conflict =
      "insert into " +:+ table +:+ " (" +:+ join "," (col_name <$> cs) +:+ ") values " +:+
      join ("," +:+ String "010" "") lines +:+ " " +:+ conflictClause f conflict ∧
    ∀ i r, rows f !! i = Some r →
      ∃ fn texts, fn ∈ fns ∧ length texts = length cs ∧ lines !! i = Some ("(" +:+ join "," texts +:+ ")") ∧
        ∀ j c, cs !! j = Some c →
          ∃ k text before after, k ∈ fn ∧ call_def k = c ∧ texts !! j = Some text ∧
            InsertValues f = before ++ k_vals k ++ after ∧
            text = around (1 + length before) (split_on "?"%char (k_fmt k)).
Proof using.
  intros Hnd Hne Hcs Hlen. destruct (build_uniform cs fns NewFieldset Hnd Hcs (or_introl eq_refl)) as (f&Hb&_&Hcols&_).
  specialize (Hcols Hne). exists f, (value_lines f 0 (rows f)). split; [done|]. split; [apply value_lines_length|].
  split. { unfold InsertSQL, columns, parens, values_text. rewrite Hcols, !str_app_assoc. done. }
  assert (matched f) as Hm.
  { eapply build_matched; [done..| |done]. eapply Forall_impl; [exact Hlen|]. intros fn Hfn.
    eapply Forall_impl; [exact Hfn|]. cbn. intros k Hk. rewrite <-count_q_pieces in Hk. lia. }
  intros i r Hi. pose proof (list_elem_of_lookup_2 _ _ _ Hi) as Hr.
  destruct (concat_fmap_take (row_values (colnames f)) _ i r Hi) as [after Hrow].
  set (b1 := concat (row_values (colnames f) <$> take i (rows f))) in *.
  assert (∃ fn, fn ∈ fns ∧ r = row_of fn ∅) as (fn&Hfn&Hrfn).
  { destruct (build_uniform cs fns NewFieldset Hnd Hcs (or_introl eq_refl)) as (f'&Hb'&_&_&Hrs).
    rewrite Hb in Hb'. injection Hb' as <-. rewrite Hrs in Hr.
    apply foldl_kick_elem in Hr as [?%elem_of_nil|(fn&->&Hfn)%list_elem_of_fmap]; [done|]. by exists fn. }
  exists fn, (number_all (0 + length b1) (fmt_of f <$> colnames f)).2.
  split; [done|]. split; [by rewrite number_all_length, length_fmap, Hcols, length_fmap|].
  split; [exact (value_lines_spec f 0 (rows f) (λ _ H, H) Hm i r Hi)|].
  intros j c Hj. assert (colnames f !! j = Some (col_name c)) as Hjn by (by rewrite Hcols, list_lookup_fmap, Hj).
  destruct (concat_fmap_take (values_at r) _ j (col_name c) Hjn) as [after' Hcol].
  set (b2 := concat (values_at r <$> take j (colnames f))) in *.
  destruct (row_of_given cs fn f r c Hnd (proj1 (Forall_forall _ _) Hcs fn Hfn) Hrfn (list_elem_of_lookup_2 _ _ _ Hj))
    as (k&Hk&Hkc&Hv).
  exists k, (number (length (b1 ++ b2)) (k_fmt k)).2, (b1 ++ b2), (after' ++ after). split; [done|]. split; [done|].
  split; [|split; [|apply number_around]].
  - destruct (number_all_spec (0 + length b1) (fmt_of f <$> colnames f)) as [_ Hn].
    assert (fmt_of f (col_name c) = k_fmt k) as Hfmt.
    { destruct (build_uniform cs fns NewFieldset Hnd Hcs (or_introl eq_refl)) as (f'&Hb'&Hc&_).
      rewrite Hb in Hb'. injection Hb' as <-. destruct Hc as [->|[_ Hd]]; [by apply list_elem_of_lookup_2, elem_of_nil in Hi|].
      unfold fmt_of. rewrite Hd, (defs_of_lookup cs c Hnd (list_elem_of_lookup_2 _ _ _ Hj)), <-Hkc. done. }
    rewrite (Hn j (k_fmt k)) by (by rewrite list_lookup_fmap, Hjn; cbn; rewrite Hfmt). do 3 f_equal.
    rewrite length_app. cbn. f_equal. rewrite <-fmap_take. unfold b2. symmetry.
    change (length (row_values (take j (colnames f)) r) = sum_list (count_q <$> (fmt_of f <$> take j (colnames f)))).
    apply row_values_length. intros n' Hn'. apply Hm; [done|].
    apply elem_of_take in Hn' as (?&Hl&_). exact (list_elem_of_lookup_2 _ _ _ Hl).
  - unfold InsertValues. rewrite Hrow. unfold row_values at 1. rewrite Hcol, Hv. by rewrite <-!(assoc_L (++)).
Qed.
End SqlGen.

Example around_ex : around 5 (split_on "?"%char "(select id from ids where a = ? and b = ?)") =
  "(select id from ids where a = $5 and b = $6)".
Proof. reflexivity. Qed.

(** Two rows of a plain field and of one that is a query of two values: where those of
    the second are in the values, and the text of its query. *)
Lemma InsertSQL_aligned_witness :
  let query := "(select id from ids where a = ? and b = ?)" in
  let cs := [mkColdef "?" "name" true; mkColdef query "id" false] in
  let row n a b := [CF "?" "name" [n]; FD query "id" [a; b]] in
  ∃ f lines texts text a b before after, build [row "left" "x" "y"; row "right" "x" "z"] NewFieldset = Some f ∧
    InsertSQL f "t" [] = "insert into " +:+ "t" +:+ " (" +:+ "name,id" +:+ ") values " +:+
      join ("," +:+ String "010" "") lines +:+ " " ∧
    lines !! 1%nat = Some ("(" +:+ join "," texts +:+ ")") ∧ texts !! 1%nat = Some text ∧
    ["left"; "x"; "y"; "right"; "x"; "z"] = before ++ [a; b] ++ after ∧
    text = around (1 + length before) ["(select id from ids where a = "; " and b = "; ")"].
Proof.
  intros query cs row. destruct (InsertSQL_aligned cs [row "left" "x" "y"; row "right" "x" "z"] "t" [])
    as (f&lines&Hb&_&Htext&Hrows).
  - apply (bool_decide_unpack _). vm_compute. exact I.
  - discriminate.
  - repeat constructor.
  - repeat constructor.
  - assert (InsertValues f = ["left"; "x"; "y"; "right"; "x"; "z"] ∧ is_Some (rows f !! 1%nat)) as [Hv [r Hr]].
    { vm_compute in Hb. injection Hb as <-. split; [vm_compute; reflexivity|by eexists]. }
    destruct (Hrows 1%nat r Hr) as (fn&texts&Hfn&_&Hline&Htexts).
    destruct (Htexts 1%nat (mkColdef query "id" false) eq_refl) as (k&text&before&after&Hk&Hc&Ht&Hvals&Htx).
    assert (∃ a b, k = FD query "id" [a; b]) as (a&b&->).
    { apply elem_of_cons in Hfn as [->|Hfn]; [|apply list_elem_of_singleton in Hfn as ->].
      all: apply elem_of_cons in Hk as [->|Hk]; [discriminate Hc|].
      all: apply list_elem_of_singleton in Hk as ->; by eexists _, _. }
    exists f, lines, texts, text, a, b, before, after. rewrite <-Hv.
    split; [exact Hb|]. split; [exact Htext|]. split; [exact Hline|]. split; [exact Ht|].
    split; [exact Hvals|]. rewrite Htx. reflexivity.
Defined.
