(* ===== verification/Postgres.v ===== *)
(** * States in PostgreSQL (ext/storage: postgresstatemanager.go,
    postgresstatemanager_read.go, postgresstatemanager_write.go)

    The tables are those of database/changelog.xml.  A row that others refer to, and
    that has a unique key besides its number, is referred to by that key; only the
    numbers of deployments matter, since the greatest of a component in a cluster is
    the one that counts.  A statement is the field set the code makes of it, and its
    effect on the tables is given by a reading of its columns: placeholders, the four
    sub-selects, and the three conflict clauses there are.  Of the database the class
    [Postgres] leaves open the order of rows and which statement fails. *)

From S2P Require Import Prelude GoStrings Flaw Semv Ids Startup DeployConfig CMap Deployment.
From S2P Require Import Samples State Differ StateManagers SqlGen.
#[local] Open Scope string_scope.
#[local] Open Scope Z_scope.
#[local] Open Scope list_scope.

(** ** Connections *)

Record PostgresConfig := mkPostgresConfig {
  DBName : string; pg_User : string; pg_Password : string; pg_Host : string; pg_Port : string; SSL : bool
}.

Definition connStr (c : PostgresConfig) : string :=
  let opt key v := if bool_decide (v = "") then [] else [key +:+ "=" +:+ v] in
  join " " (opt "host" (pg_Host c) ++ opt "port" (pg_Port c)
    ++ [if SSL c then "sslmode=enable" else "sslmode=disable"]
    ++ opt "dbname" (DBName c) ++ opt "user" (pg_User c) ++ opt "password" (pg_Password c)).

(** ** Tables *)

Record component := mkComponent { co_repo : string; co_dir : string; co_flavor : string; co_kind : string }.
#[export] Instance component_eq_dec : EqDecision component.
Proof. solve_decision. Defined.
#[export] Instance component_countable : Countable component.
Proof.
  apply (inj_countable' (λ c, (co_repo c, co_dir c, co_flavor c, co_kind c))
           (λ '(r, d, f, k), mkComponent r d f k)). by intros [].
Defined.

Record cluster_row := mkClusterRow { cr_kind : string; cr_base_url : string; crdef : Startup }.

Inductive lifecycle_state : Type := Active | Decommissioned.
#[export] Instance lifecycle_eq_dec : EqDecision lifecycle_state.
Proof. solve_decision. Defined.

(** The type of the column: the texts that it takes. *)
Definition parse_lifecycle (s : string) : option lifecycle_state :=
  if bool_decide (s = "active") then Some Active
  else if bool_decide (s = "decommissioned") then Some Decommissioned else None.

Record deployment_row := mkDeploymentRow {
  dr_component : component;
  dr_cluster : string;
  versionstring : string;
  num_instances : Z;
  schedule_string : string;
  lifecycle : lifecycle_state;
  cr : Startup
}.

Abbreviation keyed_rows := (gmap (Z * string) string).

Record tables := mkTables {
  components : gset component;
  clusters : gmap string cluster_row;
  cluster_qualities : gset (string * string);
  qualities : gmap string string;
  deployments : gmap Z deployment_row;
  owners : gset string;
  component_owners : gset (component * string);
  envs : keyed_rows;
  resources : keyed_rows;
  metadatas : keyed_rows;
  volumes : list (Z * Volume);
  env_var_defs : list EnvDef;
  resource_fdefs : list (string * string * option string);
  metadata_fdefs : list (string * string * option string)
}.

Definition empty_tables : tables := mkTables ∅ ∅ ∅ ∅ ∅ ∅ ∅ ∅ ∅ ∅ [] [] [] [].

Definition set_components x (t : tables) := mkTables x (clusters t) (cluster_qualities t) (qualities t) (deployments t)
  (owners t) (component_owners t) (envs t) (resources t) (metadatas t) (volumes t) (env_var_defs t) (resource_fdefs t) (metadata_fdefs t).
Definition set_clusters x (t : tables) := mkTables (components t) x (cluster_qualities t) (qualities t) (deployments t)
  (owners t) (component_owners t) (envs t) (resources t) (metadatas t) (volumes t) (env_var_defs t) (resource_fdefs t) (metadata_fdefs t).
Definition set_deployments x (t : tables) := mkTables (components t) (clusters t) (cluster_qualities t) (qualities t) x
  (owners t) (component_owners t) (envs t) (resources t) (metadatas t) (volumes t) (env_var_defs t) (resource_fdefs t) (metadata_fdefs t).
Definition set_owners x (t : tables) := mkTables (components t) (clusters t) (cluster_qualities t) (qualities t) (deployments t)
  x (component_owners t) (envs t) (resources t) (metadatas t) (volumes t) (env_var_defs t) (resource_fdefs t) (metadata_fdefs t).
Definition set_component_owners x (t : tables) := mkTables (components t) (clusters t) (cluster_qualities t) (qualities t) (deployments t)
  (owners t) x (envs t) (resources t) (metadatas t) (volumes t) (env_var_defs t) (resource_fdefs t) (metadata_fdefs t).
Definition set_envs x (t : tables) := mkTables (components t) (clusters t) (cluster_qualities t) (qualities t) (deployments t)
  (owners t) (component_owners t) x (resources t) (metadatas t) (volumes t) (env_var_defs t) (resource_fdefs t) (metadata_fdefs t).
Definition set_resources x (t : tables) := mkTables (components t) (clusters t) (cluster_qualities t) (qualities t) (deployments t)
  (owners t) (component_owners t) (envs t) x (metadatas t) (volumes t) (env_var_defs t) (resource_fdefs t) (metadata_fdefs t).
Definition set_metadatas x (t : tables) := mkTables (components t) (clusters t) (cluster_qualities t) (qualities t) (deployments t)
  (owners t) (component_owners t) (envs t) (resources t) x (volumes t) (env_var_defs t) (resource_fdefs t) (metadata_fdefs t).
Definition set_volumes x (t : tables) := mkTables (components t) (clusters t) (cluster_qualities t) (qualities t) (deployments t)
  (owners t) (component_owners t) (envs t) (resources t) (metadatas t) x (env_var_defs t) (resource_fdefs t) (metadata_fdefs t).

(** ** Numbers of deployments *)

Definition max_id {A} (m : gmap Z A) : option Z := map_fold (λ k _ acc, Some (from_option (Z.max k) k acc)) None m.
Definition fresh_id {A} (m : gmap Z A) : Z := from_option Z.succ 1 (max_id m).

Definition same_group (c : component) (cn : string) (dr : deployment_row) : Prop :=
  dr_component dr = c ∧ dr_cluster dr = cn.
#[export] Instance same_group_dec c cn dr : Decision (same_group c cn dr).
Proof. unfold same_group. apply _. Defined.

Definition latest (t : tables) (id : Z) (dr : deployment_row) : Prop :=
  max_id (filter (λ x, same_group (dr_component dr) (dr_cluster dr) x.2) (deployments t)) = Some id.
#[export] Instance latest_dec t id dr : Decision (latest t id dr).
Proof. unfold latest. apply _. Defined.

(** The greatest number of an active deployment of a component in a cluster. *)
Definition last_active (t : tables) (c : component) (cn : string) : option Z :=
  max_id (filter (λ x, same_group c cn x.2 ∧ lifecycle x.2 = Active) (deployments t)).

(** ** Statements *)

Inductive sqlval : Type := VText (s : string) | VInt (z : Z) | VBool (b : bool) | VInts (l : list Z).
#[export] Instance sqlval_eq_dec : EqDecision sqlval.
Proof. solve_decision. Defined.

Definition compID_sql : string := "(select component_id from components
	  where repo = ? and dir = ? and flavor = ? and kind = ?)".
Definition clusterID_sql : string := "(select " +:+ Stdlib.Strings.String.String "034" "cluster_id" +:+ Stdlib.Strings.String.String "034" " from clusters where name = ?)".
Definition ownerID_sql : string := "(select owner_id from owners where email = ?)".
Definition depID_sql : string := "(select max(deployment_id)
	from
		deployments
		join components using (component_id)
		join clusters using (cluster_id)
	where
	  lifecycle = 'active' and
	  repo = ? and dir = ? and flavor = ? and components.kind = ? and clusters.name = ?)".

(** What a field is worth: a value, or what it refers to; [None] is null, or nothing
    that could be computed. *)
Inductive datum : Type :=
| DVal (v : sqlval)
| DComponent (c : component)
| DCluster (name : string)
| DOwner (email : string)
| DDeployment (id : Z).

Definition eval (t : tables) (f : field (V:=sqlval)) : option datum :=
  let fmt := col_fmt (column f) in
  if bool_decide (fmt = "?") then match values f with [v] => Some (DVal v) | _ => None end
  else if bool_decide (fmt = compID_sql) then
    match values f with
    | [VText repo; VText dir; VText flavor; VText kind] =>
        let c := mkComponent repo dir flavor kind in
        if bool_decide (c ∈ components t) then Some (DComponent c) else None
    | _ => None
    end
  else if bool_decide (fmt = clusterID_sql) then
    match values f with
    | [VText name] => if bool_decide (is_Some (clusters t !! name)) then Some (DCluster name) else None
    | _ => None
    end
  else if bool_decide (fmt = ownerID_sql) then
    match values f with
    | [VText email] => if bool_decide (email ∈ owners t) then Some (DOwner email) else None
    | _ => None
    end
  else if bool_decide (fmt = depID_sql) then
    match values f with
    | [VText repo; VText dir; VText flavor; VText kind; VText name] =>
        DDeployment <$> last_active t (mkComponent repo dir flavor kind) name
    | _ => None
    end
  else None.

(** Integers are of four bytes, and others are refused. *)
Definition int4 (z : Z) : bool := bool_decide (- 2 ^ 31 ≤ z < 2 ^ 31).

Section Decoding.
Context (t : tables) (r : gmap string (field (V:=sqlval))).

Definition datum_at (col : string) : option datum := f ← r !! col; eval t f.
Definition text_at (col : string) : option string := match datum_at col with Some (DVal (VText s)) => Some s | _ => None end.
Definition int_at (col : string) : option Z :=
  match datum_at col with Some (DVal (VInt z)) => if int4 z then Some z else None | _ => None end.
Definition bool_at (col : string) : option bool := match datum_at col with Some (DVal (VBool b)) => Some b | _ => None end.
Definition ints_at (col : string) : option (list Z) :=
  match datum_at col with Some (DVal (VInts l)) => if forallb int4 l then Some l else None | _ => None end.
Definition component_at (col : string) : option component := match datum_at col with Some (DComponent c) => Some c | _ => None end.
Definition cluster_at (col : string) : option string := match datum_at col with Some (DCluster n) => Some n | _ => None end.
Definition owner_at (col : string) : option string := match datum_at col with Some (DOwner n) => Some n | _ => None end.
Definition deployment_at (col : string) : option Z := match datum_at col with Some (DDeployment n) => Some n | _ => None end.

Definition startup_at (prefix : string) : option Startup :=
  let p s := prefix +:+ s in
  skip ← bool_at (p "_skip"); proto ← text_at (p "_proto"); path ← text_at (p "_path");
  delay ← int_at (p "_connect_delay"); timeout ← int_at (p "_timeout"); interval ← int_at (p "_connect_interval");
  port ← int_at (p "_port_index"); uri_timeout ← int_at (p "_uri_timeout"); check ← int_at (p "_interval");
  retries ← int_at (p "_retries"); statuses ← ints_at (p "_failure_statuses");
  Some (mkStartup skip delay timeout interval proto path port statuses uri_timeout check retries).

Definition component_row_at : option component :=
  repo ← text_at "repo"; dir ← text_at "dir"; flavor ← text_at "flavor"; kind ← text_at "kind";
  Some (mkComponent repo dir flavor kind).

Definition cluster_row_at : option (string * cluster_row) :=
  name ← text_at "name"; kind ← text_at "kind"; base_url ← text_at "base_url"; s ← startup_at "crdef";
  Some (name, mkClusterRow kind base_url s).

Definition deployment_row_at : option deployment_row :=
  c ← component_at "component_id"; cn ← cluster_at "cluster_id"; v ← text_at "versionstring";
  n ← int_at "num_instances"; sch ← text_at "schedule_string"; l ← text_at "lifecycle"; l ← parse_lifecycle l;
  s ← startup_at "cr";
  Some (mkDeploymentRow c cn v n sch l s).

Definition component_owner_at : option (component * string) :=
  c ← component_at "component_id"; o ← owner_at "owner_id"; Some (c, o).

Definition keyed_row_at (key value : string) : option (Z * string * string) :=
  id ← deployment_at "deployment_id"; k ← text_at key; v ← text_at value; Some (id, k, v).

Definition volume_at : option (Z * Volume) :=
  id ← deployment_at "deployment_id"; h ← text_at "host"; c ← text_at "container"; m ← text_at "mode";
  Some (id, mkVolume h c m).
End Decoding.

Definition do_nothing : list piece := [PText "on conflict do nothing"].
Definition do_update : list piece :=
  [PText "on conflict "; PCandidates; PText " do update set "; PNonCandidates; PText " = "; PNSNonCandidates "excluded"].

(** A row that there is already is kept, of the ones of a statement the first. *)
Definition insert_new (m : keyed_rows) '((id, k, v) : Z * string * string) : keyed_rows :=
  match m !! (id, k) with Some _ => m | None => <[(id, k) := v]> m end.

Definition insert_deployment (m : gmap Z deployment_row) (r : deployment_row) : gmap Z deployment_row := <[fresh_id m := r]> m.

(** The effect of an insert: [None] is that it is refused, because a value is missing or
    not of its type, or because a cluster would be updated twice. *)
Definition exec (table : string) (conflict : list piece) (f : fieldset (V:=sqlval)) (t : tables) : option tables :=
  let into n := bool_decide (table = n) in
  let nothing := bool_decide (conflictClause f conflict = conflictClause f do_nothing) in
  if into "components" && nothing then
    cs ← mapM (component_row_at t) (rows f); Some (set_components (components t ∪ list_to_set cs) t)
  else if into "clusters" && bool_decide (conflictClause f conflict = conflictClause f do_update) &&
          bool_decide (Candidates f = "(name)") then
    cs ← mapM (cluster_row_at t) (rows f);
    if decide (NoDup cs.*1) then Some (set_clusters (list_to_map cs ∪ clusters t) t) else None
  else if into "deployments" && bool_decide (conflictClause f conflict = "") then
    ds ← mapM (deployment_row_at t) (rows f); Some (set_deployments (foldl insert_deployment (deployments t) ds) t)
  else if into "owners" && nothing then
    os ← mapM (λ r, text_at t r "email") (rows f); Some (set_owners (owners t ∪ list_to_set os) t)
  else if into "component_owners" && nothing then
    os ← mapM (component_owner_at t) (rows f); Some (set_component_owners (component_owners t ∪ list_to_set os) t)
  else if into "envs" && nothing then
    es ← mapM (λ r, keyed_row_at t r "key" "value") (rows f); Some (set_envs (foldl insert_new (envs t) es) t)
  else if into "resources" && nothing then
    es ← mapM (λ r, keyed_row_at t r "resource_name" "resource_value") (rows f); Some (set_resources (foldl insert_new (resources t) es) t)
  else if into "metadatas" && nothing then
    es ← mapM (λ r, keyed_row_at t r "name" "value") (rows f); Some (set_metadatas (foldl insert_new (metadatas t) es) t)
  else if into "volumes" && nothing then
    vs ← mapM (volume_at t) (rows f); Some (set_volumes (volumes t ++ vs) t)
  else None.

(** ** Transactions *)

Class Postgres := {
  pg_rows : ∀ A, list A → list A;
  pg_rows_perm A (l : list A) : pg_rows A l ≡ₚ l;
  (** What fails of a transaction, by number: 0 is its begin, the last its commit. *)
  pg_fault : nat → option text
}.

Inductive pg_error : Type :=
| PgFault (t : text)
| Refused (table : string)
| InFailedTransaction
| ScanFailed (table : string)
| LoadedVersion (e : Semv.parse_error)
| PgState (e : state_error).

Record Tx := mkTx { tx_tables : tables; tx_failed : bool; tx_count : nat }.

Section Manager.
Context `{Postgres}.

(** A statement that fails makes the rest of its transaction fail. *)
Definition statement (f : tables → option tables) (e : pg_error) (tx : Tx) : Tx * option pg_error :=
  let n := S (tx_count tx) in
  let failed := mkTx (tx_tables tx) true n in
  if tx_failed tx then (failed, Some InFailedTransaction)
  else match pg_fault (tx_count tx) with
       | Some t => (failed, Some (PgFault t))
       | None => match f (tx_tables tx) with Some t => (mkTx t false n, None) | None => (failed, Some e) end
       end.

(** [loadTable]. *)
Definition loadTable {A B} (sql : tables → list A) (pack : A → B → result pg_error B) (b : B) (tx : Tx) :
    Tx * result pg_error B :=
  match statement Some InFailedTransaction tx with
  | (tx, Some e) => (tx, Err e)
  | (tx, None) => (tx, rfold pack (pg_rows A (sql (tx_tables tx))) b)
  end.
End Manager.

(** ** Reading *)

Definition left_join {A} (l : list A) : list (option A) := match l with [] => [None] | _ => Some <$> l end.

Definition cluster_query (t : tables) : list (string * cluster_row * option string) :=
  '(name, row) ← map_to_list (clusters t);
  q ← left_join (filter (λ x, x.1 = name) (elements (cluster_qualities t)));
  [(name, row, '(_, q) ← q; kind ← qualities t !! q; if bool_decide (kind = "advisory") then Some q else None)].

Record manifest_row := mkManifestRow {
  mr_component : component;
  mr_deployment : deployment_row;
  mr_volume : option Volume;
  mr_env : option (string * string);
  mr_resource : option (string * string);
  mr_metadata : option (string * string);
  mr_email : option string
}.

(** The rows of a table that belong to a deployment. *)
Definition rows_of (id : Z) (m : keyed_rows) : list (string * string) :=
  (λ x, (x.1.2, x.2)) <$> filter (λ x, x.1.1 = id) (map_to_list m).
Definition volumes_of (id : Z) (l : list (Z * Volume)) : list Volume := (filter (λ x, x.1 = id) l).*2.
Definition emails_of (c : component) (s : gset (component * string)) : list string := (filter (λ x, x.1 = c) (elements s)).*2.

Definition manifest_query (t : tables) : list manifest_row :=
  c ← elements (components t);
  email ← left_join (emails_of c (component_owners t));
  '(id, dr) ← filter (λ x, dr_component x.2 = c) (map_to_list (deployments t));
  _ ← filter (λ cn, cn = dr_cluster dr) (map_to_list (clusters t)).*1;
  env ← left_join (rows_of id (envs t));
  res ← left_join (rows_of id (resources t));
  md ← left_join (rows_of id (metadatas t));
  vol ← left_join (volumes_of id (volumes t));
  if bool_decide (latest t id dr) && bool_decide (lifecycle dr ≠ Decommissioned)
  then [mkManifestRow c dr vol env res md email] else [].

Definition loadEnvDef (d : EnvDef) (s : State) : result pg_error State :=
  let defs := st_Defs s in
  Ok (mkState (mkDefs (DockerRepo defs) (defs_Clusters defs) (EnvVars defs ++ [d]) (defs_Resources defs) (defs_Metadata defs))
        (st_Manifests s) (etag s)).

(** A null default cannot be scanned into a string. *)
Definition scan_fdef (table : string) '((name, ty, dflt) : string * string * option string) : result pg_error FieldDefinition :=
  match dflt with Some d => Ok (mkFieldDefinition name ty d false) | None => Err (ScanFailed table) end.
Definition loadResourceDef r (s : State) : result pg_error State :=
  let defs := st_Defs s in
  d ← scan_fdef "resource_fdefs" r;
  Ok (mkState (mkDefs (DockerRepo defs) (defs_Clusters defs) (EnvVars defs) (defs_Resources defs ++ [d]) (defs_Metadata defs))
        (st_Manifests s) (etag s)).
Definition loadMetadataDef r (s : State) : result pg_error State :=
  let defs := st_Defs s in
  d ← scan_fdef "metadata_fdefs" r;
  Ok (mkState (mkDefs (DockerRepo defs) (defs_Clusters defs) (EnvVars defs) (defs_Resources defs) (defs_Metadata defs ++ [d]))
        (st_Manifests s) (etag s)).

Definition set_statuses (l : list Z) (s : Startup) : Startup :=
  mkStartup (SkipCheck s) (ConnectDelay s) (Timeout s) (ConnectInterval s) (CheckReadyProtocol s) (CheckReadyURIPath s)
    (CheckReadyPortIndex s) l (CheckReadyURITimeout s) (CheckReadyInterval s) (CheckReadyRetries s).

(** The statuses of each row are appended, though they are the same of all the rows of
    a cluster. *)
Definition pack_cluster '((name, row, qname) : string * cluster_row * option string) (cs : Clusters) : result pg_error Clusters :=
  let c := default (mkCluster name (cr_kind row) (cr_base_url row) None (set_statuses [] (crdef row)) []) (cs !! name) in
  Ok (<[name := mkCluster (c_Name c) (c_Kind c) (BaseURL c) (c_Env c)
                  (set_statuses (CheckReadyFailureStatuses (c_Startup c) ++ CheckReadyFailureStatuses (crdef row)) (c_Startup c))
                  (AllowedAdvisories c ++ match qname with Some q => [q] | None => [] end)]> cs).

Definition set_key (kv : option (string * string)) (m : gomap string) : gomap string :=
  match kv with Some (k, v) => Some (<[k := v]> (entries m)) | None => m end.

Definition row_spec (r : manifest_row) : result pg_error DeploySpec :=
  let d := mr_deployment r in
  match Parse (versionstring d) with
  | Err e => Err (LoadedVersion e)
  | Ok v => Ok (mkDeploySpec (mkDeployConfig (Some ∅) (Some ∅) (Some ∅) (num_instances d) [] (cr d) (schedule_string d)) v "")
  end.

Definition add_volume (v : option Volume) (vs : Volumes) : Volumes :=
  match v with
  | Some v => if bool_decide (Some v ∈ vs) then vs else vs ++ [Some v]
  | None => vs
  end.

Definition pack_spec (r : manifest_row) (ds : DeploySpec) : DeploySpec :=
  let dc := spec_DeployConfig ds in
  mkDeploySpec (mkDeployConfig (set_key (mr_resource r) (dc_Resources dc)) (set_key (mr_metadata r) (dc_Metadata dc))
                  (set_key (mr_env r) (dc_Env dc)) (NumInstances dc) (add_volume (mr_volume r) (dc_Volumes dc))
                  (dc_Startup dc) (Schedule dc)) (spec_Version ds) (clusterName ds).

Definition mid_of (c : component) : ManifestID := mkManifestID (mkSourceLocation (co_repo c) (co_dir c)) (co_flavor c).

Definition pack_manifest (r : manifest_row) (ms : Manifests) : result pg_error Manifests :=
  let c := mr_component r in
  let cn := dr_cluster (mr_deployment r) in
  let m := default (mkManifest (Source (mid_of c)) (co_flavor c) [] (co_kind c) ∅) (ms !! mid_of c) in
  let set := NewOwnerSet (m_Owners m) ∪ match mr_email r with Some e => {[e]} | None => ∅ end in
  ds ← match m_Deployments m !! cn with Some ds => Ok ds | None => row_spec r end;
  Ok (<[mid_of c := mkManifest (m_Source m) (m_Flavor m) (Slice set) (m_Kind m) (<[cn := pack_spec r ds]> (m_Deployments m))]> ms).

Abbreviation rowdefs := (list (list (call (V:=sqlval)))).

Section Operations.
Context `{Postgres}.

Definition loadEnvDefs : State → Tx → Tx * result pg_error State := loadTable env_var_defs loadEnvDef.
Definition loadResourceDefs : State → Tx → Tx * result pg_error State := loadTable resource_fdefs loadResourceDef.
Definition loadMetadataDefs : State → Tx → Tx * result pg_error State := loadTable metadata_fdefs loadMetadataDef.

Definition with_clusters (cs : Clusters) (s : State) : State :=
  let defs := st_Defs s in
  mkState (mkDefs (DockerRepo defs) (cs ∪ defs_Clusters defs) (EnvVars defs) (defs_Resources defs) (defs_Metadata defs))
    (st_Manifests s) (etag s).
Definition loadClusters (s : State) (tx : Tx) : Tx * result pg_error State :=
  let '(tx, r) := loadTable cluster_query pack_cluster ∅ tx in (tx, cs ← r; Ok (with_clusters cs s)).

Definition with_manifests (ms : Manifests) (s : State) : State := mkState (st_Defs s) ms (etag s).
Definition loadManifests (s : State) (tx : Tx) : Tx * result pg_error State :=
  let '(tx, r) := loadTable manifest_query pack_manifest (st_Manifests s) tx in (tx, ms ← r; Ok (with_manifests ms s)).

Definition then_load (load : State → Tx → Tx * result pg_error State) '((tx, r) : Tx * result pg_error State) :
    Tx * result pg_error State :=
  match r with Err e => (tx, Err e) | Ok s => load s tx end.

Definition loadState (tx : Tx) : Tx * result pg_error State :=
  then_load loadManifests (then_load loadClusters (then_load loadMetadataDefs (then_load loadResourceDefs (loadEnvDefs NewState tx)))).

(** A transaction begins with the first statement and ends with its commit: whatever
    went wrong before has no effect. *)
Definition commit (tx : Tx) : option pg_error :=
  if tx_failed tx then Some InFailedTransaction else PgFault <$> pg_fault (tx_count tx).

Definition pg_ReadState (t : tables) : result pg_error State :=
  match pg_fault 0 with
  | Some e => Err (PgFault e)
  | None =>
      let '(tx, r) := loadState (mkTx t false 1) in
      s ← r; match commit tx with Some e => Err e | None => Ok s end
  end.

(** ** Writing *)

Definition startupFields (prefix : string) (s : Startup) : list (call (V:=sqlval)) :=
  let f name v := FD "?" (prefix +:+ name) [v] in
  [f "_skip" (VBool (SkipCheck s)); f "_proto" (VText (CheckReadyProtocol s)); f "_path" (VText (CheckReadyURIPath s));
   f "_connect_delay" (VInt (ConnectDelay s)); f "_timeout" (VInt (Timeout s)); f "_connect_interval" (VInt (ConnectInterval s));
   f "_port_index" (VInt (CheckReadyPortIndex s)); f "_uri_timeout" (VInt (CheckReadyURITimeout s));
   f "_interval" (VInt (CheckReadyInterval s)); f "_retries" (VInt (CheckReadyRetries s));
   f "_failure_statuses" (VInts (CheckReadyFailureStatuses s))].

Definition component_values (d : Deployment) : list sqlval :=
  let l := Location (d_SourceID d) in [VText (Repo l); VText (Dir l); VText (Flavor d); VText (Kind d)].

Definition depID (d : Deployment) := FD depID_sql "deployment_id" (component_values d ++ [VText (ClusterName d)]).
Definition compID (d : Deployment) := FD compID_sql "component_id" (component_values d).
Definition clusterID (d : Deployment) := FD clusterID_sql "cluster_id" [VText (ClusterName d)].
Definition ownerID (ownername : string) := FD ownerID_sql "owner_id" [VText ownername].

Definition component_fields (d : Deployment) : option rowdefs :=
  let l := Location (d_SourceID d) in
  Some [[FD "?" "repo" [VText (Repo l)]; FD "?" "dir" [VText (Dir l)]; FD "?" "flavor" [VText (Flavor d)];
         FD "?" "kind" [VText (Kind d)]]].

(** [None] is a panic, on a nil cluster. *)
Definition cluster_fields (d : Deployment) : option rowdefs :=
  c ← d_Cluster d;
  Some [[CF "?" "name" [VText (ClusterName d)]; FD "?" "kind" [VText (c_Kind c)]; FD "?" "base_url" [VText (BaseURL c)]]
        ++ startupFields "crdef" (c_Startup c)].

Definition deployment_fields (state : string) (d : Deployment) : option rowdefs :=
  Some [[compID d; clusterID d; FD "?" "versionstring" [VText (Semv.String (sid_Version (d_SourceID d)))];
         FD "?" "num_instances" [VInt (NumInstances (d_DeployConfig d))];
         FD "?" "schedule_string" [VText (Schedule (d_DeployConfig d))]; FD "?" "lifecycle" [VText state]]
        ++ startupFields "cr" (dc_Startup (d_DeployConfig d))].

Definition owner_fields (d : Deployment) : option rowdefs := Some ((λ o, [FD "?" "email" [VText o]]) <$> elements (Owners d)).
Definition component_owner_fields (d : Deployment) : option rowdefs := Some ((λ o, [compID d; ownerID o]) <$> elements (Owners d)).

Definition keyed_fields (key value : string) (sel : DeployConfig → gomap string) (d : Deployment) : option rowdefs :=
  Some ((λ kv, [depID d; FD "?" key [VText kv.1]; FD "?" value [VText kv.2]]) <$> map_to_list (entries (sel (d_DeployConfig d)))).

(** Here a panic is on a nil volume. *)
Definition volume_fields (d : Deployment) : option rowdefs :=
  mapM (λ v, v ← v; Some [depID d; FD "?" "host" [VText (Host v)]; FD "?" "container" [VText (Container v)]; FD "?" "mode" [VText (Mode v)]])
    (dc_Volumes (d_DeployConfig d)).

Definition execInsertDeployments (ds : Deployments) (table : string) (conflict : list piece)
    (fn : Deployment → option rowdefs) (tx : Tx) : option (Tx * option pg_error) :=
  rs ← mapM fn (map_to_list ds).*2;
  fields ← build (concat rs) NewFieldset;
  Some (if Potent fields then statement (exec table conflict fields) (Refused table) tx else (tx, None)).

Record changes := mkChanges { updates : Deployments; deletes : Deployments; alldeps : Deployments }.

Definition add_change (ch : changes) (diff : DeployablePair) : option changes :=
  kind ← pair_Kind diff;
  match kind with
  | SameKind => Some ch
  | AddedKind | ModifiedKind =>
      post ← Post diff;
      let d := dep_Deployment post in
      Some (mkChanges (add d (updates ch)).1 (deletes ch) (add d (alldeps ch)).1)
  | RemovedKind =>
      prior ← Prior diff;
      let d := dep_Deployment prior in
      Some (mkChanges (updates ch) (add d (deletes ch)).1 (add d (alldeps ch)).1)
  end.

Definition find_changes (current new : Deployments) : option changes :=
  diffs ← Deployments_Diff (λ _, map_to_list) current new;
  foldl (λ acc diff, ch ← acc; add_change ch diff) (Some (mkChanges ∅ ∅ ∅)) diffs.

(** One insert after the other; the errors of the first two end the writing without
    one. *)
Definition inserting (swallow : bool) (ds : Deployments) (table : string) (conflict : list piece)
    (fn : Deployment → option rowdefs) (rest : Tx → option (Tx * option pg_error)) (tx : Tx) : option (Tx * option pg_error) :=
  '(tx, e) ← execInsertDeployments ds table conflict fn tx;
  match e with
  | Some e => Some (tx, if swallow then None else Some e)
  | None => rest tx
  end.

Definition insert_changes (ch : changes) : Tx → option (Tx * option pg_error) :=
  inserting true (alldeps ch) "components" do_nothing component_fields $
  inserting true (alldeps ch) "clusters" do_update cluster_fields $
  inserting false (updates ch) "deployments" [] (deployment_fields "active") $
  inserting false (deletes ch) "deployments" [] (deployment_fields "decommisioned") $
  inserting false (updates ch) "owners" do_nothing owner_fields $
  inserting false (updates ch) "component_owners" do_nothing component_owner_fields $
  inserting false (updates ch) "envs" do_nothing (keyed_fields "key" "value" dc_Env) $
  inserting false (updates ch) "resources" do_nothing (keyed_fields "resource_name" "resource_value" dc_Resources) $
  inserting false (updates ch) "metadatas" do_nothing (keyed_fields "name" "value" dc_Metadata) $
  inserting false (updates ch) "volumes" do_nothing volume_fields (λ tx, Some (tx, None)).

Definition storeManifests (state : State) (tx : Tx) : option (Tx * option pg_error) :=
  match State_Deployments state with
  | Err e => Some (tx, Some (PgState e))
  | Ok newDeps =>
      match loadState tx with
      | (tx, Err e) => Some (tx, Some e)
      | (tx, Ok currentState) =>
          match State_Deployments currentState with
          | Err e => Some (tx, Some (PgState e))
          | Ok currentDeps => ch ← find_changes currentDeps newDeps; insert_changes ch tx
          end
      end
  end.

(** The outer [None] is a panic; the transaction is rolled back then too. *)
Definition pg_WriteState (s : State) (user : SousUser) (t : tables) : tables * option (option pg_error) :=
  match pg_fault 0 with
  | Some e => (t, Some (Some (PgFault e)))
  | None =>
      match storeManifests s (mkTx t false 1) with
      | None => (t, None)
      | Some (_, Some e) => (t, Some (Some e))
      | Some (tx, None) =>
          match commit tx with Some e => (t, Some (Some e)) | None => (tx_tables tx, Some None) end
      end
  end.
End Operations.

(** ** Lemmas: changes *)

Lemma add_fresh {d : Deployment} {m : Deployments} : m !! Deployment_ID d = None → (add d m).1 = <[Deployment_ID d := d]> m.
Proof. intros Hn. unfold add. change (ID d) with (Deployment_ID d). by rewrite Hn. Qed.

Section Changes.
Context (cur new : Deployments) (Hc : keyed cur) (Hn : keyed new).
Context (Hvc : deployments_volumes_ok cur) (Hvn : deployments_volumes_ok new).

(** What is to be of an ID is not what there is. *)
Definition changed (did : DeploymentID) (d : Deployment) : Prop :=
  new !! did = Some d ∧ ∀ c, cur !! did = Some c → ¬ deployment_equiv c d.

Record changes_of (ids : list DeploymentID) (ch : changes) : Prop := {
  ch_updates did d : updates ch !! did = Some d ↔ did ∈ ids ∧ changed did d;
  ch_deletes did d : deletes ch !! did = Some d ↔ did ∈ ids ∧ cur !! did = Some d ∧ new !! did = None;
  ch_all : alldeps ch = updates ch ∪ deletes ch
}.

Lemma changes_of_fresh ids ch did : changes_of ids ch → did ∉ ids →
  updates ch !! did = None ∧ deletes ch !! did = None ∧ alldeps ch !! did = None.
Proof using.
  intros Hch Hid. assert (updates ch !! did = None) as Hu.
  { apply eq_None_not_Some. intros [d [? _]%(ch_updates _ _ Hch)]. done. }
  assert (deletes ch !! did = None) as Hd.
  { apply eq_None_not_Some. intros [d [? _]%(ch_deletes _ _ Hch)]. done. }
  split_and!; [done|done|]. rewrite (ch_all _ _ Hch). by apply lookup_union_None.
Qed.

Lemma add_change_step ids ch did : changes_of ids ch → did ∉ ids → is_Some (cur !! did) ∨ is_Some (new !! did) →
  ∃ ch', add_change ch (deployments_pair cur new did) = Some ch' ∧ changes_of (ids ++ [did]) ch'.
Proof using Hc Hn Hvc Hvn.
  intros Hch Hid Hsome. destruct (changes_of_fresh ids ch did Hch Hid) as (Hu&Hd&Ha).
  destruct (deployments_pair_Kind cur new did Hc Hn Hvc Hvn) as (k&Hk&Hkind).
  unfold add_change. rewrite Hk. cbn [mbind option_bind].
  assert (∀ d, changed did d → ∀ ch', changes_of (ids ++ [did])
    (mkChanges (<[did := d]> (updates ch)) (deletes ch) (<[did := d]> (alldeps ch))) →
    Deployment_ID d = did → ch' = (mkChanges (add d (updates ch)).1 (deletes ch) (add d (alldeps ch)).1) →
    ∃ ch'', Some ch' = Some ch'' ∧ changes_of (ids ++ [did]) ch'') as Hupd.
  { intros d _ ch' Hok Hdid ->. eexists. split; [done|]. by rewrite !add_fresh, Hdid by by rewrite Hdid. }
  assert (∀ d, changed did d → changes_of (ids ++ [did])
    (mkChanges (<[did := d]> (updates ch)) (deletes ch) (<[did := d]> (alldeps ch)))) as Hins.
  { intros d Hchd. split; cbn [updates deletes alldeps].
    - intros did' d'. rewrite elem_of_app, list_elem_of_singleton. destruct (decide (did' = did)) as [->|Hne].
      + rewrite lookup_insert_eq. split; [intros [= <-]; by split; [right|]|]. intros [_ [Hd1 _]].
        destruct Hchd as [Hd2 _]. congruence.
      + rewrite lookup_insert_ne, (ch_updates _ _ Hch) by done. naive_solver.
    - intros did' d'. rewrite elem_of_app, list_elem_of_singleton, (ch_deletes _ _ Hch). split; [naive_solver|].
      intros ([?| ->]&?&Hn'); [done|]. destruct Hchd as [? _]. congruence.
    - by rewrite (ch_all _ _ Hch), insert_union_l. }
  destruct (cur !! did) as [c|] eqn:Hcur, (new !! did) as [d|] eqn:Hnew.
  - destruct Hkind as [[He ->]|(He&->&Hp)].
    + exists ch. split; [done|]. split; [| |apply Hch].
      * intros did' d'. rewrite elem_of_app, list_elem_of_singleton, (ch_updates _ _ Hch). split; [naive_solver|].
        intros ([?| ->]&Hd1&Hd2); [done|]. exfalso. apply (Hd2 c Hcur). congruence.
      * intros did' d'. rewrite elem_of_app, list_elem_of_singleton, (ch_deletes _ _ Hch). split; [naive_solver|].
        intros ([?| ->]&?&?); [done|congruence].
    + rewrite Hp. cbn [mbind option_bind dep_Deployment active].
      assert (changed did d) as Hchd by (split; [done|]; intros c' ?; congruence).
      eapply (Hupd d Hchd); [by apply Hins|exact (Hn did d Hnew)|done].
  - rewrite Hkind. unfold deployments_pair. rewrite Hcur, Hnew. cbn.
    eexists. split; [done|]. rewrite !add_fresh by (rewrite (Hc did c Hcur : Deployment_ID c = did); done).
    rewrite (Hc did c Hcur : Deployment_ID c = did). split; cbn [updates deletes alldeps].
    + intros did' d'. rewrite elem_of_app, list_elem_of_singleton, (ch_updates _ _ Hch). split; [naive_solver|].
      intros ([?| ->]&Hd1&?); [done|congruence].
    + intros did' d'. rewrite elem_of_app, list_elem_of_singleton. destruct (decide (did' = did)) as [->|Hne].
      * rewrite lookup_insert_eq. split; [intros [= <-]; split_and!; [by right|done|done]|]. intros (_&?&_). congruence.
      * rewrite lookup_insert_ne, (ch_deletes _ _ Hch) by done. naive_solver.
    + by rewrite (ch_all _ _ Hch), insert_union_r.
  - rewrite Hkind. unfold deployments_pair. rewrite Hcur, Hnew. cbn [fmap option_fmap option_map Post new_pair mbind option_bind dep_Deployment active].
    assert (changed did d) as Hchd by (split; [done|]; intros c' ?; congruence).
    eapply (Hupd d Hchd); [by apply Hins|exact (Hn did d Hnew)|done].
  - destruct Hsome as [[? ?]|[? ?]]; done.
Qed.

Lemma changes_fold ids : NoDup ids → (∀ did, did ∈ ids → is_Some (cur !! did) ∨ is_Some (new !! did)) →
  ∃ ch, foldl (λ acc diff, ch ← acc; add_change ch diff) (Some (mkChanges ∅ ∅ ∅)) (deployments_pair cur new <$> ids) = Some ch ∧
    changes_of ids ch.
Proof using Hc Hn Hvc Hvn.
  induction ids as [|did ids IH] using rev_ind; intros Hnd Hin.
  - exists (mkChanges ∅ ∅ ∅). split; [done|]. split; cbn; [| |done]; intros did d; rewrite lookup_empty; set_solver.
  - apply NoDup_app in Hnd as (Hnd&Hdisj&_). destruct IH as (ch&Hf&Hch); [done|set_solver|].
    rewrite fmap_app, foldl_app, Hf. cbn [fmap list_fmap foldl mbind option_bind].
    apply add_change_step; [done| |set_solver]. intros Hd. apply (Hdisj did Hd). by left.
Qed.

(** The changes are what is to be and differs from what there is, and what there is
    and is not to be. *)
Lemma find_changes_spec : ∃ ch, find_changes cur new = Some ch ∧
  (∀ did d, updates ch !! did = Some d ↔ changed did d) ∧
  (∀ did d, deletes ch !! did = Some d ↔ cur !! did = Some d ∧ new !! did = None) ∧
  alldeps ch = updates ch ∪ deletes ch.
Proof using Hc Hn Hvc Hvn.
  destruct (Deployments_Diff_perm (λ _, map_to_list) (λ _ _, Permutation_refl _) cur new Hc Hn Hvc Hvn) as (ids&Hdiff&Hnd&Hids).
  destruct (changes_fold ids Hnd (λ did Hin, proj1 (Hids did) Hin)) as (ch&Hf&Hch).
  exists ch. unfold find_changes. rewrite Hdiff. split; [exact Hf|]. split_and!; [| |apply Hch].
  - intros did d. rewrite (ch_updates _ _ Hch). split; [naive_solver|]. intros Hd. split; [|done]. apply Hids. right.
    destruct Hd as [Hd _]. by eexists.
  - intros did d. rewrite (ch_deletes _ _ Hch). split; [naive_solver|]. intros Hd. split; [|done]. apply Hids. left.
    destruct Hd as [Hd _]. by eexists.
Qed.
End Changes.

(** ** Lemmas: statements *)

Definition comp_of (d : Deployment) : component :=
  mkComponent (Repo (Location (d_SourceID d))) (Dir (Location (d_SourceID d))) (Flavor d) (Kind d).

Definition dep_row (l : lifecycle_state) (d : Deployment) : deployment_row :=
  mkDeploymentRow (comp_of d) (ClusterName d) (Semv.String (sid_Version (d_SourceID d)))
    (NumInstances (d_DeployConfig d)) (Schedule (d_DeployConfig d)) l (dc_Startup (d_DeployConfig d)).

(** What has room in the integers of the tables. *)
Record startup_fits (s : Startup) : Prop := {
  sf_delay : int4 (ConnectDelay s) = true;
  sf_timeout : int4 (Timeout s) = true;
  sf_interval : int4 (ConnectInterval s) = true;
  sf_port : int4 (CheckReadyPortIndex s) = true;
  sf_statuses : forallb int4 (CheckReadyFailureStatuses s) = true;
  sf_uri_timeout : int4 (CheckReadyURITimeout s) = true;
  sf_ready_interval : int4 (CheckReadyInterval s) = true;
  sf_retries : int4 (CheckReadyRetries s) = true
}.
Record deployment_fits (d : Deployment) : Prop := {
  df_instances : int4 (NumInstances (d_DeployConfig d)) = true;
  df_startup : startup_fits (dc_Startup (d_DeployConfig d));
  df_cluster c : d_Cluster d = Some c → startup_fits (c_Startup c)
}.

Section Decode.
Context (t : tables) (r : gmap string (field (V:=sqlval))).

Definition plain (v : sqlval) (n : string) (b : bool) : option (field (V:=sqlval)) := Some (mkField (mkColdef "?" n b) [v]).

Lemma datum_plain col v n b : r !! col = plain v n b → datum_at t r col = Some (DVal v).
Proof using. intros Hr. unfold datum_at. by rewrite Hr. Qed.
Lemma text_plain col s n b : r !! col = plain (VText s) n b → text_at t r col = Some s.
Proof using. intros Hr. unfold text_at. by rewrite (datum_plain col (VText s) n b Hr). Qed.
Lemma int_plain col s n b : r !! col = plain (VInt s) n b → int4 s = true → int_at t r col = Some s.
Proof using. intros Hr Hs. unfold int_at. rewrite (datum_plain col (VInt s) n b Hr). by rewrite Hs. Qed.
Lemma bool_plain col s n b : r !! col = plain (VBool s) n b → bool_at t r col = Some s.
Proof using. intros Hr. unfold bool_at. by rewrite (datum_plain col (VBool s) n b Hr). Qed.
Lemma ints_plain col s n b : r !! col = plain (VInts s) n b → forallb int4 s = true → ints_at t r col = Some s.
Proof using. intros Hr Hs. unfold ints_at. rewrite (datum_plain col (VInts s) n b Hr). by rewrite Hs. Qed.

Lemma component_sub col n d : r !! col = Some (mkField (mkColdef compID_sql n false) (component_values d)) →
  comp_of d ∈ components t → component_at t r col = Some (comp_of d).
Proof using.
  intros Hr Hc. unfold component_at, datum_at. rewrite Hr. cbn [mbind option_bind].
  change (eval t _) with (if bool_decide (comp_of d ∈ components t) then Some (DComponent (comp_of d)) else None).
  by rewrite bool_decide_eq_true_2.
Qed.

Lemma cluster_sub col n name : r !! col = Some (mkField (mkColdef clusterID_sql n false) [VText name]) →
  is_Some (clusters t !! name) → cluster_at t r col = Some name.
Proof using.
  intros Hr Hc. unfold cluster_at, datum_at. rewrite Hr. cbn [mbind option_bind].
  change (eval t _) with (if bool_decide (is_Some (clusters t !! name)) then Some (DCluster name) else None).
  by rewrite bool_decide_eq_true_2.
Qed.

Lemma owner_sub col n o : r !! col = Some (mkField (mkColdef ownerID_sql n false) [VText o]) →
  o ∈ owners t → owner_at t r col = Some o.
Proof using.
  intros Hr Hc. unfold owner_at, datum_at. rewrite Hr. cbn [mbind option_bind].
  change (eval t _) with (if bool_decide (o ∈ owners t) then Some (DOwner o) else None).
  by rewrite bool_decide_eq_true_2.
Qed.

Lemma deployment_sub col n d id :
  r !! col = Some (mkField (mkColdef depID_sql n false) (component_values d ++ [VText (ClusterName d)])) →
  last_active t (comp_of d) (ClusterName d) = Some id → deployment_at t r col = Some id.
Proof using.
  intros Hr Hl. unfold deployment_at, datum_at. rewrite Hr. cbn [mbind option_bind].
  change (eval t _) with (DDeployment <$> last_active t (comp_of d) (ClusterName d)). by rewrite Hl.
Qed.
End Decode.

Ltac decode := repeat (first
  [ erewrite text_plain by reflexivity | erewrite int_plain by (reflexivity || done) | erewrite bool_plain by reflexivity
  | erewrite ints_plain by (reflexivity || done) | erewrite component_sub by (reflexivity || done)
  | erewrite cluster_sub by (reflexivity || done) | erewrite owner_sub by (reflexivity || done)
  | erewrite deployment_sub by (reflexivity || done) ]; cbn [mbind option_bind]).

Lemma decode_component t d calls : component_fields d = Some [calls] → component_row_at t (row_of calls ∅) = Some (comp_of d).
Proof. intros [= <-]. unfold component_row_at. by decode. Qed.

Lemma decode_cluster t d c calls : d_Cluster d = Some c → startup_fits (c_Startup c) → cluster_fields d = Some [calls] →
  cluster_row_at t (row_of calls ∅) = Some (ClusterName d, mkClusterRow (c_Kind c) (BaseURL c) (c_Startup c)).
Proof. unfold cluster_fields. intros -> [] [= <-]. unfold cluster_row_at, startup_at. decode. by destruct (c_Startup c). Qed.

Lemma decode_deployment t d state calls : deployment_fields state d = Some [calls] → deployment_fits d →
  comp_of d ∈ components t → is_Some (clusters t !! ClusterName d) →
  deployment_row_at t (row_of calls ∅) = (λ l, dep_row l d) <$> parse_lifecycle state.
Proof.
  intros [= <-] [Hn [] _] Hc Hcl. unfold deployment_row_at, startup_at. decode.
  destruct (parse_lifecycle state); [|done]. cbn [mbind option_bind]. decode. unfold dep_row. by destruct (dc_Startup (d_DeployConfig d)).
Qed.

(** A state that is not one of the type of the column is refused, whatever else. *)
Lemma decode_lifecycle t d state calls : deployment_fields state d = Some [calls] → parse_lifecycle state = None →
  deployment_row_at t (row_of calls ∅) = None.
Proof.
  intros [= <-] Hl. unfold deployment_row_at. destruct (component_at _ _ _); [|done]. destruct (cluster_at _ _ _); [|done].
  cbn [mbind option_bind]. decode. destruct (int_at _ _ _); [|done]. cbn [mbind option_bind]. decode. by rewrite Hl.
Qed.

(** *** Inserts *)

Definition defs_for (fns : rowdefs) (cs : list coldef) : Prop := Forall (λ fn, call_def <$> fn = cs) fns.

(** The field set of rows of the same columns, none of them a candidate. *)
Lemma build_plain (cs : list coldef) (fns : rowdefs) :
  NoDup (col_name <$> cs) → Forall (λ c, candidate c = false) cs → defs_for fns cs →
  ∃ f, build fns NewFieldset = Some f ∧ has_columns cs f ∧ (fns ≠ [] → colnames f = col_name <$> cs) ∧
    rows f = (λ fn, row_of fn ∅) <$> fns.
Proof.
  intros Hnd Hcand Hfns. destruct (build_uniform cs fns NewFieldset Hnd Hfns (or_introl eq_refl)) as (f&Hb&Hc&Hn&Hr).
  exists f. split_and!; try done. rewrite Hr. apply (foldl_kick_no_candidates []); [|constructor].
  eapply Forall_impl; [exact Hfns|]. cbn. intros fn Hfn. apply Forall_forall. intros k Hk.
  rewrite Forall_forall in Hcand. apply (Hcand (call_def k)). rewrite <-Hfn. apply list_elem_of_fmap. by exists k.
Qed.

Section Statements.
Context `{Postgres}.

Lemma statement_succeeds f e tx tx' : statement f e tx = (tx', None) →
  tx_failed tx = false ∧ tx_failed tx' = false ∧ f (tx_tables tx) = Some (tx_tables tx').
Proof using.
  unfold statement. destruct (tx_failed tx); [done|]. destruct (pg_fault _); [done|].
  destruct (f (tx_tables tx)); [|done]. intros [= <-]. done.
Qed.

Lemma statement_failed f e tx tx' e' : statement f e tx = (tx', Some e') → tx_failed tx' = true.
Proof using.
  unfold statement. destruct (tx_failed tx); [by intros [= <- _]|]. destruct (pg_fault _); [by intros [= <- _]|].
  destruct (f (tx_tables tx)); [done|]. by intros [= <- _].
Qed.

Lemma statement_refused f e tx : f (tx_tables tx) = None → ∃ tx' e', statement f e tx = (tx', Some e').
Proof using.
  intros Hf. unfold statement. destruct (tx_failed tx); [by eexists _, _|]. destruct (pg_fault _); [by eexists _, _|].
  rewrite Hf. by eexists _, _.
Qed.

Lemma execInsert_cases ds table conflict fn tx tx' e : execInsertDeployments ds table conflict fn tx = Some (tx', e) →
  (tx', e) = (tx, None) ∨ ∃ f, (tx', e) = statement (exec table conflict f) (Refused table) tx.
Proof using.
  unfold execInsertDeployments. destruct (mapM fn _) as [rs|]; [|done]. cbn [mbind option_bind].
  destruct (build _ _) as [f|]; [|done]. cbn [mbind option_bind]. intros He%(inj Some). destruct (Potent f); [right; by exists f|by left].
Qed.

(** Every statement that succeeds keeps a property that all effects keep. *)
Lemma inserting_inv (P : tables → Prop) swallow ds table conflict fn rest tx tx' e :
  (∀ table conflict f t t', exec table conflict f t = Some t' → P t → P t') →
  (∀ tx, P (tx_tables tx) → rest tx = Some (tx', e) → tx_failed tx' = false → P (tx_tables tx')) →
  P (tx_tables tx) → inserting swallow ds table conflict fn rest tx = Some (tx', e) → tx_failed tx' = false → P (tx_tables tx').
Proof using.
  intros HP Hrest Htx. unfold inserting. destruct (execInsertDeployments _ _ _ _ _) as [[tx1 e1]|] eqn:He; [|done].
  cbn [mbind option_bind]. apply execInsert_cases in He as [[= -> ->]|[f He]]; [by apply Hrest|].
  destruct e1 as [e1|].
  - symmetry in He. apply statement_failed in He. intros [= <- _]. congruence.
  - symmetry in He. apply statement_succeeds in He as (_&_&He). apply Hrest. by eapply HP.
Qed.

Lemma insert_changes_inv (P : tables → Prop) ch tx tx' e :
  (∀ table conflict f t t', exec table conflict f t = Some t' → P t → P t') →
  P (tx_tables tx) → insert_changes ch tx = Some (tx', e) → tx_failed tx' = false → P (tx_tables tx').
Proof using.
  intros HP. unfold insert_changes. revert tx.
  do 10 (match goal with |- ∀ tx, _ → (inserting ?b ?ds ?table ?c ?fn $ ?rest) tx = _ → _ =>
    enough (∀ tx, P (tx_tables tx) → rest tx = Some (tx', e) → tx_failed tx' = false → P (tx_tables tx')) as Hrest
      by (intros tx Htx; exact (inserting_inv P b ds table c fn rest tx tx' e HP Hrest Htx)) end).
  intros tx Htx [= <- <-] _. done.
Qed.

(** *** Tombstones *)

Lemma deployment_columns state d calls : deployment_fields state d = Some calls → ∃ cs,
  NoDup (col_name <$> cs) ∧ Forall (λ c, candidate c = false) cs ∧ ∀ state' d' calls', deployment_fields state' d' = Some calls' → defs_for calls' cs.
Proof using.
  intros [= <-]. eexists (call_def <$> default [] (head (default [] (deployment_fields state d)))). split_and!.
  - apply (bool_decide_unpack _). vm_compute. exact I.
  - repeat constructor.
  - intros state' d' calls' [= <-]. constructor; [reflexivity|constructor].
Qed.

Lemma mapM_singletons {A B} (g : A → B) (fn : A → option (list B)) l : (∀ a, fn a = Some [g a]) → mapM fn l = Some ((λ a, [g a]) <$> l).
Proof using. intros Hfn. induction l as [|a l IH]; [done|]. cbn. by rewrite Hfn, IH. Qed.

Lemma concat_singletons {A B} (g : A → B) l : concat ((λ a, [g a]) <$> l) = g <$> l.
Proof using. induction l as [|a l IH]; [done|]. cbn. by rewrite IH. Qed.

Lemma tombstones_refused (ds : Deployments) tx : ds ≠ ∅ →
  ∃ tx' e, execInsertDeployments ds "deployments" [] (deployment_fields "decommisioned") tx = Some (tx', Some e).
Proof using.
  intros Hne. set (g := λ d, default [] (head (default [] (deployment_fields "decommisioned" d)))).
  assert (∀ d, deployment_fields "decommisioned" d = Some [g d]) as Hg by done.
  unfold execInsertDeployments. rewrite (mapM_singletons g _ _ Hg). cbn [mbind option_bind].
  rewrite concat_singletons. destruct (map_to_list ds) as [|[did d] l] eqn:Hl.
  { by apply map_to_list_empty_iff in Hl. }
  destruct (deployment_columns _ _ _ (Hg d)) as (cs&Hnd&Hcand&Hcs).
  assert (defs_for (g <$> ((did, d) :: l).*2) cs) as Hdefs.
  { apply Forall_forall. intros fn (d'&->&_)%list_elem_of_fmap. specialize (Hcs _ _ _ (Hg d')). by apply Forall_cons in Hcs as [? _]. }
  destruct (build_plain cs _ Hnd Hcand Hdefs) as (f&->&_&Hcols&Hrows). cbn [mbind option_bind].
  assert (Potent f = true) as ->.
  { apply bool_decide_eq_true. rewrite Hcols by done. cbn in Hdefs. apply Forall_cons in Hdefs as [<- _]. done. }
  destruct (statement_refused (exec "deployments" [] f) (Refused "deployments") tx) as (tx'&e'&->); [|by eexists _, _].
  change (exec "deployments" [] f (tx_tables tx)) with
    (ds ← mapM (deployment_row_at (tx_tables tx)) (rows f);
     Some (set_deployments (foldl insert_deployment (deployments (tx_tables tx)) ds) (tx_tables tx))).
  rewrite Hrows. cbn [fmap list_fmap snd mapM]. by rewrite (decode_lifecycle _ d "decommisioned" (g d) (Hg d)).
Qed.

End Statements.

(** ** Examples *)

(** A database without faults. *)
Definition sample_postgres : Postgres :=
  {| pg_rows _ l := l; pg_rows_perm _ l := Permutation_refl l; pg_fault _ := None |}.
Definition sample_user : SousUser := mkSousUser "Alice" "alice@example.com".
