(* ===== verification/PgStore.v ===== *)
(** * What is stored in PostgreSQL is read back (ext/storage: postgresstatemanager*.go)

    The theorems on [Postgres]: what a state is read as, for what the tables hold in
    any order; which states can be written, and that these are read back. *)

From S2P Require Import Prelude GoStrings Flaw Semv Ids Startup DeployConfig CMap Deployment.
From S2P Require Import Samples State Differ StateManagers SqlGen Postgres.
#[local] Open Scope string_scope.
#[local] Open Scope Z_scope.
#[local] Open Scope list_scope.

(** ** What a query finds *)

Lemma elem_of_left_join {A} (l : list A) (o : option A) :
  o ∈ left_join l ↔ match o with Some x => x ∈ l | None => l = [] end.
Proof.
  unfold left_join. destruct l as [|a l].
  - rewrite list_elem_of_singleton. destruct o; [|done]. split; [done|]. by intros ?%elem_of_nil.
  - destruct o as [x|].
    + rewrite list_elem_of_fmap. split; [by intros (y&[= ->]&?)|]. intros Hx. by exists x.
    + split; [|done]. by intros (y&[=]&_)%list_elem_of_fmap.
Qed.

Lemma left_join_nonempty {A} (l : list A) : ∃ o, o ∈ left_join l.
Proof. destruct l as [|a l]; [exists None|exists (Some a)]; by left. Qed.

(** The deployments that count: the last ones of their component in their cluster. *)
Record live (t : tables) (id : Z) (dr : deployment_row) : Prop := {
  live_row : deployments t !! id = Some dr;
  live_latest : latest t id dr;
  live_active : lifecycle dr ≠ Decommissioned;
  live_component : dr_component dr ∈ components t;
  live_cluster : is_Some (clusters t !! dr_cluster dr)
}.

Lemma elem_of_manifest_query t r : r ∈ manifest_query t ↔ ∃ id,
  live t id (mr_deployment r) ∧ mr_component r = dr_component (mr_deployment r) ∧
  mr_email r ∈ left_join (emails_of (mr_component r) (component_owners t)) ∧
  mr_env r ∈ left_join (rows_of id (envs t)) ∧ mr_resource r ∈ left_join (rows_of id (resources t)) ∧
  mr_metadata r ∈ left_join (rows_of id (metadatas t)) ∧ mr_volume r ∈ left_join (volumes_of id (volumes t)).
Proof.
  unfold manifest_query. split.
  - intros (c&Hr&Hc)%list_elem_of_bind. apply list_elem_of_bind in Hr as (email&Hr&Hemail).
    apply list_elem_of_bind in Hr as ([id dr]&Hr&[Hcd Hdr]%list_elem_of_filter).
    apply list_elem_of_bind in Hr as (cn&Hr&[Hcn Hcl]%list_elem_of_filter).
    apply list_elem_of_bind in Hr as (env&Hr&Henv). apply list_elem_of_bind in Hr as (res&Hr&Hres).
    apply list_elem_of_bind in Hr as (md&Hr&Hmd). apply list_elem_of_bind in Hr as (vol&Hr&Hvol).
    destruct (bool_decide (latest t id dr)) eqn:Hl; [|by apply elem_of_nil in Hr].
    destruct (bool_decide (lifecycle dr ≠ Decommissioned)) eqn:Ha; [|by apply elem_of_nil in Hr].
    apply list_elem_of_singleton in Hr as ->. apply bool_decide_eq_true in Hl, Ha. cbn in Hcd. subst c cn.
    exists id. cbn. split; [|done]. apply elem_of_map_to_list in Hdr. split; try done.
    + by apply elem_of_elements.
    + apply list_elem_of_fmap in Hcl as ([cn row]&Heq&Hcl). apply elem_of_map_to_list in Hcl. cbn in Heq. subst cn. by eexists.
  - destruct r as [c dr vol env res md email]. cbn. intros (id&[Hrow Hl Ha Hc Hcl]&->&Hemail&Henv&Hres&Hmd&Hvol).
    apply list_elem_of_bind. exists (dr_component dr). split; [|by apply elem_of_elements].
    apply list_elem_of_bind. exists email. split; [|done].
    apply list_elem_of_bind. exists (id, dr). split; [|apply list_elem_of_filter; split; [done|by apply elem_of_map_to_list]].
    apply list_elem_of_bind. exists (dr_cluster dr). split.
    2: { apply list_elem_of_filter. split; [done|]. destruct Hcl as [row Hcl]. apply list_elem_of_fmap.
         exists (dr_cluster dr, row). split; [done|]. by apply elem_of_map_to_list. }
    apply list_elem_of_bind. exists env. split; [|done]. apply list_elem_of_bind. exists res. split; [|done].
    apply list_elem_of_bind. exists md. split; [|done]. apply list_elem_of_bind. exists vol. split; [|done].
    rewrite !bool_decide_eq_true_2 by done. by left.
Qed.

Lemma elem_of_rows_of id m k v : (k, v) ∈ rows_of id m ↔ m !! (id, k) = Some v.
Proof.
  unfold rows_of. rewrite list_elem_of_fmap. split.
  - intros ([[id' k'] v']&[= -> ->]&[Hid Hin]%list_elem_of_filter). cbn in Hid. subst. by apply elem_of_map_to_list.
  - intros Hm. exists ((id, k), v). split; [done|]. apply list_elem_of_filter. split; [done|]. by apply elem_of_map_to_list.
Qed.

Lemma elem_of_volumes_of id l v : v ∈ volumes_of id l ↔ (id, v) ∈ l.
Proof.
  unfold volumes_of. rewrite list_elem_of_fmap. split.
  - intros ([id' v']&->&[Hid Hin]%list_elem_of_filter). cbn in Hid. by subst.
  - intros Hin. exists (id, v). split; [done|]. by apply list_elem_of_filter.
Qed.

Lemma elem_of_emails_of c s e : e ∈ emails_of c s ↔ (c, e) ∈ s.
Proof.
  unfold emails_of. rewrite list_elem_of_fmap. split.
  - intros ([c' e']&->&[Hc Hin]%list_elem_of_filter). cbn in Hc. subst. by apply elem_of_elements.
  - intros Hin. exists (c, e). split; [done|]. apply list_elem_of_filter. split; [done|]. by apply elem_of_elements.
Qed.

(** ** What rows are packed to *)

Definition row_mid (r : manifest_row) : ManifestID := mid_of (mr_component r).
Definition row_cn (r : manifest_row) : string := dr_cluster (mr_deployment r).

(** A map that was filled from key-value pairs. *)
Record filled (l : list (option (string * string))) (m : gomap string) : Prop := {
  filled_not_nil : m ≠ None;
  filled_in k v : entries m !! k = Some v → Some (k, v) ∈ l;
  filled_has k v : Some (k, v) ∈ l → is_Some (entries m !! k)
}.

Lemma filled_nil : filled [] (Some ∅).
Proof. split; [done| |]; intros k v; [by cbn; rewrite lookup_empty|by intros ?%elem_of_nil]. Qed.

Lemma filled_snoc l m kv : filled l m → filled (l ++ [kv]) (set_key kv m).
Proof.
  intros [Hn Hi Hh]. unfold set_key. destruct kv as [[k0 v0]|].
  - split; [done| |]; intros k v; cbn [entries default from_option id].
    + intros [[<- <-]|[_ Hv]]%lookup_insert_Some; apply elem_of_app; [right; by left|left; by apply Hi].
    + intros [Hin|Heq%list_elem_of_singleton]%elem_of_app.
      * destruct (decide (k0 = k)) as [->|]; [rewrite lookup_insert_eq; by eexists|]. rewrite lookup_insert_ne by done. by eapply Hh.
      * injection Heq as -> ->. rewrite lookup_insert_eq. by eexists.
  - split; [done| |]; intros k v.
    + intros Hv. apply elem_of_app. left. by apply Hi.
    + intros [Hin|Heq%list_elem_of_singleton]%elem_of_app; [by eapply Hh|done].
Qed.

Definition collected (l : list (option Volume)) (vs : Volumes) : Prop :=
  NoDup vs ∧ ∀ v, v ∈ vs ↔ v ≠ None ∧ v ∈ l.

Lemma collected_snoc l vs v : collected l vs → collected (l ++ [v]) (add_volume v vs).
Proof.
  intros [Hnd Hin]. unfold add_volume, collected. setoid_rewrite elem_of_app. setoid_rewrite list_elem_of_singleton.
  destruct v as [v|].
  - case_bool_decide as Hv.
    + split; [done|]. intros w. rewrite Hin. split; [naive_solver|]. intros [Hw [?| ->]]; [done|]. split; [done|]. by apply Hin.
    + split; [apply NoDup_app; split_and!; [done| |apply NoDup_singleton]; intros w Hw ->%list_elem_of_singleton; done|].
      intros w. rewrite elem_of_app, list_elem_of_singleton, Hin. naive_solver.
  - split; [done|]. intros w. rewrite Hin. naive_solver.
Qed.

(** The spec of a group of rows: what all of them say, as the first one said it. *)
Record packed (rs : list manifest_row) (spec : DeploySpec) : Prop := {
  pk_first : ∃ r, r ∈ rs ∧ Parse (versionstring (mr_deployment r)) = Ok (spec_Version spec) ∧
    NumInstances (spec_DeployConfig spec) = num_instances (mr_deployment r) ∧
    Schedule (spec_DeployConfig spec) = schedule_string (mr_deployment r) ∧
    dc_Startup (spec_DeployConfig spec) = cr (mr_deployment r);
  pk_env : filled (mr_env <$> rs) (dc_Env (spec_DeployConfig spec));
  pk_resources : filled (mr_resource <$> rs) (dc_Resources (spec_DeployConfig spec));
  pk_metadata : filled (mr_metadata <$> rs) (dc_Metadata (spec_DeployConfig spec));
  pk_volumes : collected (mr_volume <$> rs) (dc_Volumes (spec_DeployConfig spec))
}.

Lemma packed_snoc rs r spec : packed rs spec → packed (rs ++ [r]) (pack_spec r spec).
Proof.
  intros [(r0&Hr0&Hfirst) He Hr Hm Hv]. split; cbn [pack_spec spec_DeployConfig dc_Env dc_Resources dc_Metadata dc_Volumes];
    rewrite ?fmap_app; [|by apply filled_snoc..|by apply collected_snoc].
  exists r0. split; [apply elem_of_app; by left|exact Hfirst].
Qed.

Lemma packed_first r spec : row_spec r = Ok spec → packed [r] (pack_spec r spec).
Proof.
  unfold row_spec. destruct (Parse _) as [v|] eqn:Hp; [|done]. intros [= <-].
  split; cbn [pack_spec spec_DeployConfig dc_Env dc_Resources dc_Metadata dc_Volumes].
  - exists r. split; [by left|]. done.
  - apply (filled_snoc [] (Some ∅)), filled_nil.
  - apply (filled_snoc [] (Some ∅)), filled_nil.
  - apply (filled_snoc [] (Some ∅)), filled_nil.
  - apply (collected_snoc [] []). split; [constructor|]. intros v0. rewrite elem_of_nil. naive_solver.
Qed.

(** The rows of a manifest in a cluster, and the owners in the rows of a manifest. *)
Definition group (rs : list manifest_row) (mid : ManifestID) (cn : string) : list manifest_row :=
  filter (λ r, row_mid r = mid ∧ row_cn r = cn) rs.
Definition mails (rs : list manifest_row) (mid : ManifestID) : OwnerSet :=
  list_to_set (omap mr_email (filter (λ r, row_mid r = mid) rs)).

Record loaded (rs : list manifest_row) (ms : Manifests) : Prop := {
  ld_manifest mid m : ms !! mid = Some m → Manifest_ID m = mid ∧ m_Owners m = Slice (mails rs mid) ∧
    ∃ r, r ∈ rs ∧ row_mid r = mid ∧ m_Kind m = co_kind (mr_component r);
  ld_spec mid m cn spec : ms !! mid = Some m → m_Deployments m !! cn = Some spec → packed (group rs mid cn) spec;
  ld_has r : r ∈ rs → ∃ m, ms !! row_mid r = Some m ∧ is_Some (m_Deployments m !! row_cn r)
}.

Lemma group_snoc rs r mid cn : group (rs ++ [r]) mid cn =
  group rs mid cn ++ (if decide (row_mid r = mid ∧ row_cn r = cn) then [r] else []).
Proof. unfold group. by rewrite filter_app. Qed.

Lemma mails_snoc rs r mid : mails (rs ++ [r]) mid =
  mails rs mid ∪ (if decide (row_mid r = mid) then match mr_email r with Some e => {[e]} | None => ∅ end else ∅).
Proof.
  unfold mails. rewrite filter_app, omap_app, list_to_set_app_L. f_equal. cbn. case_decide; [|done]. cbn.
  destruct (mr_email r) as [e|]; cbn; [by rewrite (right_id_L ∅ (∪))|done].
Qed.

Lemma group_nil rs ms mid cn : loaded rs ms → (∀ m, ms !! mid = Some m → m_Deployments m !! cn = None) → group rs mid cn = [].
Proof.
  intros Hl Hn. apply elem_of_nil_inv. intros r [[<- <-] Hr]%list_elem_of_filter.
  destruct (ld_has _ _ Hl r Hr) as (m&Hm&[spec Hs]). rewrite (Hn m Hm) in Hs. done.
Qed.

Lemma mails_nil rs ms mid : loaded rs ms → ms !! mid = None → mails rs mid = ∅.
Proof.
  intros Hl Hn. unfold mails. assert (filter (λ r, row_mid r = mid) rs = []) as ->; [|done].
  apply elem_of_nil_inv. intros r [<- Hr]%list_elem_of_filter. destruct (ld_has _ _ Hl r Hr) as (m&Hm&_). congruence.
Qed.

(** The manifest a row is added to, and its spec. *)
Definition row_manifest (r : manifest_row) (ms : Manifests) : Manifest :=
  default (mkManifest (Source (row_mid r)) (co_flavor (mr_component r)) [] (co_kind (mr_component r)) ∅) (ms !! row_mid r).

Lemma pack_manifest_step rs ms r ms' : loaded rs ms → pack_manifest r ms = Ok ms' → loaded (rs ++ [r]) ms'.
Proof.
  intros Hl Hp. unfold pack_manifest in Hp. fold (row_mid r) (row_cn r) (row_manifest r ms) in Hp.
  set (m := row_manifest r ms) in Hp.
  assert (Manifest_ID m = row_mid r ∧ m_Owners m = Slice (mails rs (row_mid r)) ∧
    (∃ r', r' ∈ rs ++ [r] ∧ row_mid r' = row_mid r ∧ m_Kind m = co_kind (mr_component r')) ∧
    (∀ cn spec, m_Deployments m !! cn = Some spec → packed (group rs (row_mid r) cn) spec) ∧
    (∀ cn, m_Deployments m !! cn = None → group rs (row_mid r) cn = [])) as (Hid&Hown&Hkind&Hspec&Hnone).
  { unfold m, row_manifest. destruct (ms !! row_mid r) as [m0|] eqn:Hm; cbn [default from_option id].
    - destruct (ld_manifest _ _ Hl _ _ Hm) as (?&?&r'&Hr'&?&?). split_and!; [done|done| | |].
      + exists r'. split; [apply elem_of_app; by left|done].
      + intros cn spec Hs. by apply (ld_spec _ _ Hl _ m0).
      + intros cn Hs. apply (group_nil rs ms); [done|]. intros m1 Hm1. congruence.
    - split_and!; [reflexivity|by rewrite (mails_nil rs ms)| | |].
      + exists r. split; [apply elem_of_app; right; by left|done].
      + intros cn spec Hs. cbn [m_Deployments] in Hs. by rewrite lookup_empty in Hs.
      + intros cn _. apply (group_nil rs ms); [done|]. intros m1 Hm1. congruence. }
  assert (∃ ds, (match m_Deployments m !! row_cn r with Some ds => Ok ds | None => row_spec r end : result pg_error DeploySpec) = Ok ds ∧
    packed (group rs (row_mid r) (row_cn r) ++ [r]) (pack_spec r ds)) as (ds&Hds&Hpk).
  { destruct (m_Deployments m !! row_cn r) as [ds|] eqn:Hs; [exists ds; split; [done|by apply packed_snoc, Hspec]|].
    destruct (row_spec r) as [ds|e] eqn:Hrs; [|done]. exists ds. split; [done|]. rewrite Hnone by done. by apply packed_first. }
  rewrite Hds in Hp. injection Hp as <-. split.
  - intros mid m1 Hm1. rewrite mails_snoc. apply lookup_insert_Some in Hm1 as [[<- <-]|[Hne Hm1]].
    + split; [exact Hid|]. split; [|exact Hkind]. cbn [m_Owners]. rewrite Hown, NewOwnerSet_Slice. by rewrite decide_True.
    + destruct (ld_manifest _ _ Hl _ _ Hm1) as (?&Ho&r'&?&?&?). rewrite decide_False by done. rewrite (right_id_L ∅ (∪)).
      split_and!; [done|done|]. exists r'. split; [apply elem_of_app; by left|done].
  - intros mid m1 cn spec Hm1 Hs. rewrite group_snoc. apply lookup_insert_Some in Hm1 as [[<- <-]|[Hne Hm1]].
    + cbn [m_Deployments] in Hs. apply lookup_insert_Some in Hs as [[<- <-]|[Hne Hs]]; [by rewrite decide_True|].
      rewrite decide_False by naive_solver. rewrite app_nil_r. by apply Hspec.
    + rewrite decide_False by naive_solver. rewrite app_nil_r. by apply (ld_spec _ _ Hl _ m1).
  - intros r' [Hr'|Heq%list_elem_of_singleton]%elem_of_app.
    + destruct (ld_has _ _ Hl r' Hr') as (m1&Hm1&Hs). destruct (decide (row_mid r = row_mid r')) as [Heq|Hne].
      * rewrite Heq, lookup_insert_eq. eexists. split; [done|]. cbn [m_Deployments].
        apply lookup_insert_is_Some'. right. unfold m, row_manifest. by rewrite Heq, Hm1.
      * rewrite lookup_insert_ne by done. by exists m1.
    + subst r'. rewrite lookup_insert_eq. eexists. split; [done|]. cbn [m_Deployments]. rewrite lookup_insert_eq. by eexists.
Qed.

Lemma loaded_nil : loaded [] ∅.
Proof. split; [intros mid m; by rewrite lookup_empty|intros mid m cn spec; by rewrite lookup_empty|by intros r ?%elem_of_nil]. Qed.

Lemma pack_manifests rs ms : rfold pack_manifest rs ∅ = Ok ms → loaded rs ms.
Proof. apply (rfold_inv pack_manifest loaded); [apply loaded_nil|]. intros dn r c c' _. apply pack_manifest_step. Qed.

(** Rows whose versions parse can be packed. *)
Lemma pack_manifests_ok rs : Forall (λ r, is_ok (Parse (versionstring (mr_deployment r))) = true) rs →
  ∃ ms, rfold pack_manifest rs ∅ = Ok ms.
Proof.
  intros Hp. destruct (rfold_total pack_manifest (λ _ _, True) rs ∅) as (ms&Hms&_); [done| |by exists ms].
  intros dn r rest ms -> _. apply Forall_app in Hp as [_ [Hr _]%Forall_cons].
  unfold pack_manifest. fold (row_mid r) (row_manifest r ms). destruct (m_Deployments _ !! _) as [ds|]; [by eexists|].
  unfold row_spec. destruct (Parse _); [by eexists|done].
Qed.

(** ** What the tables say *)

Lemma latest_unique t id1 id2 dr1 dr2 : latest t id1 dr1 → latest t id2 dr2 →
  dr_component dr1 = dr_component dr2 → dr_cluster dr1 = dr_cluster dr2 → id1 = id2.
Proof. unfold latest. intros H1 H2 Hc Hn. rewrite Hc, Hn in H1. congruence. Qed.

(** No manifest is stored under two kinds. *)
Definition kinds_agree (t : tables) : Prop := ∀ id1 id2 dr1 dr2, live t id1 dr1 → live t id2 dr2 →
  mid_of (dr_component dr1) = mid_of (dr_component dr2) → co_kind (dr_component dr1) = co_kind (dr_component dr2).

Lemma same_component c1 c2 : mid_of c1 = mid_of c2 → co_kind c1 = co_kind c2 → c1 = c2.
Proof. destruct c1, c2. unfold mid_of. cbn. by intros [= -> -> ->] ->. Qed.

Lemma live_unique t id1 id2 dr1 dr2 : kinds_agree t → live t id1 dr1 → live t id2 dr2 →
  mid_of (dr_component dr1) = mid_of (dr_component dr2) → dr_cluster dr1 = dr_cluster dr2 → id1 = id2 ∧ dr1 = dr2.
Proof.
  intros Hk H1 H2 Hm Hc. assert (dr_component dr1 = dr_component dr2) as Heq by (apply same_component; [done|by eapply Hk]).
  assert (id1 = id2) as -> by (eapply latest_unique; [apply H1|apply H2|done|done]).
  split; [done|]. pose proof (live_row _ _ _ H1). pose proof (live_row _ _ _ H2). congruence.
Qed.

(** The rows of a table that belong to a deployment, as a map. *)
Definition stored_map (id : Z) (m : keyed_rows) (e : gomap string) : Prop :=
  e ≠ None ∧ ∀ k, entries e !! k = m !! (id, k).

Record stored (t : tables) (id : Z) (dr : deployment_row) (spec : DeploySpec) : Prop := {
  sd_version : Parse (versionstring dr) = Ok (spec_Version spec);
  sd_instances : NumInstances (spec_DeployConfig spec) = num_instances dr;
  sd_schedule : Schedule (spec_DeployConfig spec) = schedule_string dr;
  sd_startup : dc_Startup (spec_DeployConfig spec) = cr dr;
  sd_env : stored_map id (envs t) (dc_Env (spec_DeployConfig spec));
  sd_resources : stored_map id (resources t) (dc_Resources (spec_DeployConfig spec));
  sd_metadata : stored_map id (metadatas t) (dc_Metadata (spec_DeployConfig spec));
  sd_volumes : NoDup (dc_Volumes (spec_DeployConfig spec)) ∧
    ∀ v, v ∈ dc_Volumes (spec_DeployConfig spec) ↔ ∃ w, v = Some w ∧ (id, w) ∈ volumes t
}.

Lemma filled_stored id m l e : filled l e →
  (∀ k v, Some (k, v) ∈ l ↔ m !! (id, k) = Some v) → stored_map id m e.
Proof.
  intros [Hn Hi Hh] Hl. split; [done|]. intros k. destruct (entries e !! k) as [v|] eqn:He.
  - symmetry. by apply Hl, Hi.
  - destruct (m !! (id, k)) as [v|] eqn:Hm; [|done]. apply Hl, Hh in Hm as [? ?]. congruence.
Qed.

Section Reading.
Context (t : tables) (rs : list manifest_row) (ms : Manifests).
Context (Hrs : rs ≡ₚ manifest_query t) (Hl : loaded rs ms).

Lemma elem_of_rs r : r ∈ rs ↔ r ∈ manifest_query t.
Proof using Hrs. by rewrite Hrs. Qed.

(** A deployment that counts has a row with each of its values. *)
Lemma live_row_of id dr : live t id dr → ∃ vol env res md email,
  (∀ v, v ∈ left_join (volumes_of id (volumes t)) → mkManifestRow (dr_component dr) dr v env res md email ∈ rs) ∧
  (∀ e, e ∈ left_join (rows_of id (envs t)) → mkManifestRow (dr_component dr) dr vol e res md email ∈ rs) ∧
  (∀ x, x ∈ left_join (rows_of id (resources t)) → mkManifestRow (dr_component dr) dr vol env x md email ∈ rs) ∧
  (∀ x, x ∈ left_join (rows_of id (metadatas t)) → mkManifestRow (dr_component dr) dr vol env res x email ∈ rs) ∧
  (∀ x, x ∈ left_join (emails_of (dr_component dr) (component_owners t)) → mkManifestRow (dr_component dr) dr vol env res md x ∈ rs) ∧
  mkManifestRow (dr_component dr) dr vol env res md email ∈ rs.
Proof using Hrs.
  intros Hlive. destruct (left_join_nonempty (volumes_of id (volumes t))) as [vol Hvol].
  destruct (left_join_nonempty (rows_of id (envs t))) as [env Henv].
  destruct (left_join_nonempty (rows_of id (resources t))) as [res Hres].
  destruct (left_join_nonempty (rows_of id (metadatas t))) as [md Hmd].
  destruct (left_join_nonempty (emails_of (dr_component dr) (component_owners t))) as [email Hemail].
  exists vol, env, res, md, email.
  split_and!; intros; apply elem_of_rs, elem_of_manifest_query; exists id; done.
Qed.

Lemma in_group id dr r : kinds_agree t → live t id dr → r ∈ group rs (mid_of (dr_component dr)) (dr_cluster dr) →
  mr_deployment r = dr ∧ mr_env r ∈ left_join (rows_of id (envs t)) ∧ mr_resource r ∈ left_join (rows_of id (resources t)) ∧
  mr_metadata r ∈ left_join (rows_of id (metadatas t)) ∧ mr_volume r ∈ left_join (volumes_of id (volumes t)).
Proof using Hrs.
  intros Hk Hlive [[Hm Hc] Hr]%list_elem_of_filter. apply elem_of_rs, elem_of_manifest_query in Hr as (id'&Hlive'&Heq&_&He&Hres&Hmd&Hv).
  unfold row_mid in Hm. rewrite Heq in Hm. destruct (live_unique t id' id _ dr Hk Hlive' Hlive Hm Hc) as [-> ->]. done.
Qed.

Lemma group_map (id : Z) (dr : deployment_row) (sel : manifest_row → option (string * string)) (m : keyed_rows) :
  (∀ r, r ∈ group rs (mid_of (dr_component dr)) (dr_cluster dr) → sel r ∈ left_join (rows_of id m)) →
  (∀ x, x ∈ left_join (rows_of id m) → ∃ r, r ∈ rs ∧ mr_component r = dr_component dr ∧ mr_deployment r = dr ∧ sel r = x) →
  ∀ k v, Some (k, v) ∈ sel <$> group rs (mid_of (dr_component dr)) (dr_cluster dr) ↔ m !! (id, k) = Some v.
Proof using.
  intros Hin Hhas k v. rewrite <-elem_of_rows_of, list_elem_of_fmap. split.
  - intros (r&Heq&Hr). apply Hin in Hr. rewrite <-Heq in Hr. by apply elem_of_left_join in Hr.
  - intros Hkv. destruct (Hhas (Some (k, v))) as (r&Hr&Hc&Hd&Hs); [by apply elem_of_left_join|].
    exists r. split; [done|]. apply list_elem_of_filter. unfold row_mid, row_cn. by rewrite Hc, Hd.
Qed.

Lemma group_stored id dr spec : kinds_agree t → live t id dr →
  packed (group rs (mid_of (dr_component dr)) (dr_cluster dr)) spec → stored t id dr spec.
Proof using Hrs.
  intros Hk Hlive [(r&Hr&Hv&Hn&Hs&Hst) He Hres Hmd [Hnd Hvols]].
  destruct (live_row_of id dr Hlive) as (vol&env&res&md&email&Rv&Re&Rr&Rm&_&_).
  destruct (in_group id dr r Hk Hlive Hr) as (Hd&_). rewrite Hd in *.
  split; try done.
  - eapply filled_stored; [exact He|]. apply group_map.
    + intros r' Hr'. by apply (in_group id dr r' Hk Hlive).
    + intros x Hx. eexists. split; [by apply Re|done].
  - eapply filled_stored; [exact Hres|]. apply group_map.
    + intros r' Hr'. by apply (in_group id dr r' Hk Hlive).
    + intros x Hx. eexists. split; [by apply Rr|done].
  - eapply filled_stored; [exact Hmd|]. apply group_map.
    + intros r' Hr'. by apply (in_group id dr r' Hk Hlive).
    + intros x Hx. eexists. split; [by apply Rm|done].
  - split; [done|]. intros v. rewrite Hvols, list_elem_of_fmap. split.
    + intros [Hsome (r'&->&Hr')]. apply (in_group id dr r' Hk Hlive) in Hr' as (_&_&_&_&Hr').
      destruct (mr_volume r') as [w|]; [|done]. exists w. split; [done|]. apply elem_of_left_join in Hr'. by apply elem_of_volumes_of.
    + intros (w&->&Hw). split; [done|]. eexists. split; [|apply list_elem_of_filter; split; [|apply Rv]]; [done|done|].
      apply elem_of_left_join. by apply elem_of_volumes_of.
Qed.

(** The owners in the rows of a manifest are those of its component. *)
Lemma mails_stored id dr : kinds_agree t → live t id dr → ∀ o,
  o ∈ mails rs (mid_of (dr_component dr)) ↔ (dr_component dr, o) ∈ component_owners t.
Proof using Hrs.
  intros Hk Hlive o. unfold mails. rewrite elem_of_list_to_set, list_elem_of_omap. split.
  - intros (r&[Hm Hr]%list_elem_of_filter&Ho). apply elem_of_rs, elem_of_manifest_query in Hr as (id'&Hlive'&Heq&He&_).
    unfold row_mid in Hm. rewrite Ho in He. apply elem_of_left_join, elem_of_emails_of in He. rewrite Heq in *.
    by rewrite <-(same_component _ _ Hm (Hk _ _ _ _ Hlive' Hlive Hm)).
  - intros Ho. destruct (live_row_of id dr Hlive) as (vol&env&res&md&email&_&_&_&_&Ro&_).
    eexists. split; [apply list_elem_of_filter; split; [|apply (Ro (Some o))]|]; [done| |done].
    apply elem_of_left_join. by apply elem_of_emails_of.
Qed.

(** What is read of the manifests: of each deployment that counts its spec, in the
    manifest of its component; and nothing else. *)
Lemma read_stored id dr : kinds_agree t → live t id dr → ∃ m spec,
  ms !! mid_of (dr_component dr) = Some m ∧ m_Kind m = co_kind (dr_component dr) ∧
  (∀ o, o ∈ m_Owners m ↔ (dr_component dr, o) ∈ component_owners t) ∧
  m_Deployments m !! dr_cluster dr = Some spec ∧ stored t id dr spec.
Proof using Hrs Hl.
  intros Hk Hlive. destruct (live_row_of id dr Hlive) as (vol&env&res&md&email&_&_&_&_&_&Hr).
  destruct (ld_has _ _ Hl _ Hr) as (m&Hm&[spec Hs]). cbn in Hm, Hs. exists m, spec.
  change (row_mid _) with (mid_of (dr_component dr)) in Hm. change (row_cn _) with (dr_cluster dr) in Hs.
  destruct (ld_manifest _ _ Hl _ _ Hm) as (_&Hown&r'&Hr'&Hm'&Hkind). split_and!; [done| | |done|].
  - rewrite Hkind. apply elem_of_rs, elem_of_manifest_query in Hr' as (id'&Hlive'&Heq&_). unfold row_mid in Hm'. rewrite Heq in *.
    by apply (Hk id' id (mr_deployment r') dr).
  - intros o. rewrite Hown, elements_Slice, elem_of_elements. by eapply mails_stored.
  - apply group_stored; [done|done|]. by apply (ld_spec _ _ Hl _ m).
Qed.

Lemma read_only mid m cn spec : ms !! mid = Some m → m_Deployments m !! cn = Some spec →
  ∃ id dr, live t id dr ∧ mid_of (dr_component dr) = mid ∧ dr_cluster dr = cn.
Proof using Hrs Hl.
  intros Hm Hs. destruct (ld_spec _ _ Hl _ _ _ _ Hm Hs) as [(r&Hr&_) _ _ _ _].
  apply list_elem_of_filter in Hr as [[<- <-] Hr]. apply elem_of_rs, elem_of_manifest_query in Hr as (id&Hlive&Heq&_).
  exists id, (mr_deployment r). split; [done|]. unfold row_mid. by rewrite Heq.
Qed.
End Reading.

(** ** Loading *)

Section Loading.
Context `{Postgres}.

Lemma loadTable_ok {A B} (sql : tables → list A) (pack : A → B → result pg_error B) b tx tx' b' :
  loadTable sql pack b tx = (tx', Ok b') →
  tx_failed tx' = false ∧ tx_tables tx' = tx_tables tx ∧ rfold pack (pg_rows A (sql (tx_tables tx))) b = Ok b'.
Proof using.
  unfold loadTable. destruct (statement Some InFailedTransaction tx) as [tx1 [e|]] eqn:Hs; [done|].
  apply statement_succeeds in Hs as (_&Hf&[= Ht]). rewrite <-Ht. intros [= <- Hb]. done.
Qed.

(** The rest of a state, which no writing changes. *)
Definition same_defs (t t' : tables) : Prop :=
  env_var_defs t' = env_var_defs t ∧ resource_fdefs t' = resource_fdefs t ∧ metadata_fdefs t' = metadata_fdefs t.

(** What is loaded before the clusters and the manifests. *)
Definition defs_loaded (t : tables) (s : State) : Prop := ∃ s1 s2,
  rfold loadEnvDef (pg_rows _ (env_var_defs t)) NewState = Ok s1 ∧
  rfold loadResourceDef (pg_rows _ (resource_fdefs t)) s1 = Ok s2 ∧
  rfold loadMetadataDef (pg_rows _ (metadata_fdefs t)) s2 = Ok s.

Lemma defs_loaded_empty t s : defs_loaded t s → st_Manifests s = ∅.
Proof using.
  intros (s1&s2&H1&H2&H3). assert (st_Manifests s1 = ∅) as E1.
  { refine (rfold_inv loadEnvDef (λ _ s, st_Manifests s = ∅) _ _ _ _ _ H1); [done|]. intros ? ? ? ? _ Hs [= <-]. exact Hs. }
  assert (st_Manifests s2 = ∅) as E2.
  { refine (rfold_inv loadResourceDef (λ _ s, st_Manifests s = ∅) _ _ _ E1 _ H2). intros ? x ? ? _ Hs.
    unfold loadResourceDef. destruct (scan_fdef _ x); [|done]. intros [= <-]. exact Hs. }
  refine (rfold_inv loadMetadataDef (λ _ s, st_Manifests s = ∅) _ _ _ E2 _ H3). intros ? x ? ? _ Hs.
  unfold loadMetadataDef. destruct (scan_fdef _ x); [|done]. intros [= <-]. exact Hs.
Qed.

Lemma loadState_ok tx tx' s : loadState tx = (tx', Ok s) →
  tx_failed tx' = false ∧ tx_tables tx' = tx_tables tx ∧ (∃ s0, defs_loaded (tx_tables tx) s0) ∧
  rfold pack_manifest (pg_rows _ (manifest_query (tx_tables tx))) ∅ = Ok (st_Manifests s).
Proof using.
  unfold loadState. destruct (loadEnvDefs NewState tx) as [tx1 [s1|e]] eqn:H1; [|done]. cbn [then_load].
  apply loadTable_ok in H1 as (_&Ht1&H1).
  destruct (loadResourceDefs s1 tx1) as [tx2 [s2|e]] eqn:H2; [|done]. cbn [then_load].
  apply loadTable_ok in H2 as (_&Ht2&H2). rewrite Ht1 in H2.
  destruct (loadMetadataDefs s2 tx2) as [tx3 [s3|e]] eqn:H3; [|done]. cbn [then_load].
  apply loadTable_ok in H3 as (_&Ht3&H3). rewrite Ht2, Ht1 in H3. unfold loadClusters.
  destruct (loadTable cluster_query pack_cluster ∅ tx3) as [tx4 [cs|e]] eqn:H4; [|done]. cbn [then_load mbind result_bind].
  apply loadTable_ok in H4 as (_&Ht4&H4). unfold loadManifests.
  destruct (loadTable manifest_query _ _ tx4) as [tx5 [ms|e]] eqn:H5; [|done].
  intros [= <- <-]. apply loadTable_ok in H5 as (Hf5&Ht5&H5). rewrite Ht4, Ht3, Ht2, Ht1 in H5.
  assert (defs_loaded (tx_tables tx) s3) as Hdefs by by exists s1, s2.
  split_and!; [done|congruence|by exists s3|].
  cbn [with_clusters with_manifests st_Manifests] in H5 |- *. by rewrite (defs_loaded_empty _ _ Hdefs) in H5.
Qed.

Lemma pg_ReadState_ok t s : pg_ReadState t = Ok s → ∃ tx, loadState (mkTx t false 1) = (tx, Ok s) ∧ pg_fault 0 = None ∧
  tx_failed tx = false ∧ tx_tables tx = t ∧ (∃ s0, defs_loaded t s0) ∧ loaded (pg_rows _ (manifest_query t)) (st_Manifests s).
Proof using.
  unfold pg_ReadState. destruct (pg_fault 0); [done|]. destruct (loadState _) as [tx [s'|e]] eqn:Hl; [|done]. cbn [mbind].
  intros Hs. cbn in Hs. destruct (commit tx); [done|]. injection Hs as <-. exists tx.
  apply loadState_ok in Hl as Hl'. destruct Hl' as (Hf&Ht&Hdefs&Hms). cbn [tx_tables] in *.
  split_and!; try done. by apply pack_manifests.
Qed.

Section Succeeding.
Context (Hfaults : ∀ n, pg_fault n = None).

Lemma loadTable_runs {A B} (sql : tables → list A) (pack : A → B → result pg_error B) b tx b' : tx_failed tx = false →
  rfold pack (pg_rows A (sql (tx_tables tx))) b = Ok b' →
  ∃ tx', loadTable sql pack b tx = (tx', Ok b') ∧ tx_failed tx' = false ∧ tx_tables tx' = tx_tables tx.
Proof using Hfaults. intros Hf Hr. unfold loadTable, statement. rewrite Hf, Hfaults. cbn [tx_tables]. rewrite Hr. by eexists. Qed.

(** Tables with definitions that can be loaded, and versions that parse, can be read. *)
Lemma pg_ReadState_runs t s0 : defs_loaded t s0 →
  Forall (λ r, is_ok (Parse (versionstring (mr_deployment r))) = true) (manifest_query t) → ∃ s, pg_ReadState t = Ok s.
Proof using Hfaults.
  intros Hdefs Hp. pose proof (defs_loaded_empty _ _ Hdefs) as Hempty. destruct Hdefs as (s1&s2&H1&H2&H3).
  unfold pg_ReadState, loadState. rewrite Hfaults. set (tx := mkTx t false 1).
  destruct (loadTable_runs env_var_defs loadEnvDef NewState tx s1 eq_refl H1) as (tx1&E1&F1&T1).
  unfold loadEnvDefs. rewrite E1. cbn [then_load].
  destruct (loadTable_runs resource_fdefs loadResourceDef s1 tx1 s2 F1) as (tx2&E2&F2&T2); [by rewrite T1|].
  unfold loadResourceDefs. rewrite E2. cbn [then_load].
  destruct (loadTable_runs metadata_fdefs loadMetadataDef s2 tx2 s0 F2) as (tx3&E3&F3&T3); [by rewrite T2, T1|].
  unfold loadMetadataDefs. rewrite E3. cbn [then_load]. unfold loadClusters.
  destruct (rfold_total pack_cluster (λ _ _, True) (pg_rows _ (cluster_query t)) ∅) as (cs&Hcs&_); [done| |].
  { intros dn [[name row] q] rest c _ _. by eexists. }
  destruct (loadTable_runs cluster_query pack_cluster ∅ tx3 cs F3) as (tx4&E4&F4&T4); [by rewrite T3, T2, T1|].
  rewrite E4. cbn [then_load mbind result_bind]. unfold loadManifests. cbn [with_clusters st_Manifests]. rewrite Hempty.
  destruct (pack_manifests_ok (pg_rows _ (manifest_query t))) as [ms Hms]; [by rewrite (pg_rows_perm _ _)|].
  destruct (loadTable_runs manifest_query pack_manifest ∅ tx4 ms F4) as (tx5&E5&F5&T5); [by rewrite T4, T3, T2, T1|].
  rewrite E5. cbn [mbind result_bind]. unfold commit. rewrite F5, Hfaults. by eexists.
Qed.
End Succeeding.

(** *** What is read expands to *)

Lemma loaded_keyed rs ms : loaded rs ms → keyed ms.
Proof using. intros Hl mid m Hm. by destruct (ld_manifest _ _ Hl mid m Hm) as (?&_). Qed.

Lemma loaded_volumes rs ms defs ds : loaded rs ms → all_described defs ms ds → deployments_volumes_ok ds.
Proof using.
  intros Hl Hall did d (m&Hm&spec&cluster&Hs&_&->)%Hall. unfold d_volumes_ok. rewrite BuildDeployment_config. cbn.
  destruct (ld_spec _ _ Hl _ _ _ _ Hm Hs) as [_ _ _ _ [_ Hv]]. unfold volumes_ok. rewrite Hv. naive_solver.
Qed.

(** The cluster a deployment is expanded with. *)
Lemma described_cluster defs ms ds did d : all_described defs ms ds → ds !! did = Some d → is_Some (d_Cluster d).
Proof using. intros Hall (m&_&spec&cluster&_&_&->)%Hall. by eexists. Qed.

(** *** The changes a writing makes *)

Lemma written_changes t cur curd s new :
  pg_ReadState t = Ok cur → State_Deployments cur = Ok curd → keyed (st_Manifests s) → State_Deployments s = Ok new →
  deployments_volumes_ok new →
  ∃ tx ch, pg_fault 0 = None ∧ storeManifests s (mkTx t false 1) = insert_changes ch tx ∧ tx_failed tx = false ∧ tx_tables tx = t ∧
    (∀ did d, updates ch !! did = Some d ↔ changed curd new did d) ∧
    (∀ did d, deletes ch !! did = Some d ↔ curd !! did = Some d ∧ new !! did = None) ∧
    alldeps ch = updates ch ∪ deletes ch ∧
    map_Forall (λ _ d, is_Some (d_Cluster d)) (alldeps ch).
Proof using.
  intros Hread Hcurd Hks Hnew Hv. apply pg_ReadState_ok in Hread as (tx&Hload&Hf&Hfail&Ht&_&Hl).
  pose proof (Manifests_Deployments_spec _ _ _ (loaded_keyed _ _ Hl) Hcurd) as Hcall.
  pose proof (Manifests_Deployments_spec _ _ _ Hks Hnew) as Hnall.
  destruct (find_changes_spec curd new) as (ch&Hch&Hu&Hd&Ha).
  { exact (all_described_keyed _ _ _ (loaded_keyed _ _ Hl) Hcall). } { exact (all_described_keyed _ _ _ Hks Hnall). }
  { exact (loaded_volumes _ _ _ _ Hl Hcall). } { done. }
  exists tx, ch. unfold storeManifests. rewrite Hnew, Hload, Hcurd, Hch. split_and!; try done.
  intros did d. rewrite Ha, lookup_union_Some_raw. intros [[Hin _]%Hu|[_ [Hin _]%Hd]].
  - exact (described_cluster _ _ _ _ _ Hnall Hin).
  - exact (described_cluster _ _ _ _ _ Hcall Hin).
Qed.
End Loading.
