(* ===== verification/PgWrite.v ===== *)
(** * Writing states to PostgreSQL (ext/storage/postgresstatemanager_write.go)

    What the inserts of a writing do to the tables, statement by statement, and the
    theorems on writing: what is kept, what cannot be written, and that what is
    written is read back. *)

From S2P Require Import Prelude GoStrings Flaw Semv Ids Startup DeployConfig CMap Deployment.
From S2P Require Import Samples State Differ StateManagers SqlGen Postgres PgStore.
#[local] Open Scope string_scope.
#[local] Open Scope Z_scope.
#[local] Open Scope list_scope.

(** ** The columns of the inserts *)

Definition plain_cols (ns : list string) : list coldef := (λ n, mkColdef "?" n false) <$> ns.
Definition startup_cols (p : string) : list coldef :=
  plain_cols ((λ n, p +:+ n) <$> ["_skip"; "_proto"; "_path"; "_connect_delay"; "_timeout"; "_connect_interval"; "_port_index";
    "_uri_timeout"; "_interval"; "_retries"; "_failure_statuses"]).
Definition component_cols := plain_cols ["repo"; "dir"; "flavor"; "kind"].
Definition cluster_cols := mkColdef "?" "name" true :: plain_cols ["kind"; "base_url"] ++ startup_cols "crdef".
Definition deployment_cols :=
  [mkColdef compID_sql "component_id" false; mkColdef clusterID_sql "cluster_id" false]
  ++ plain_cols ["versionstring"; "num_instances"; "schedule_string"; "lifecycle"] ++ startup_cols "cr".
Definition owner_cols := plain_cols ["email"].
Definition component_owner_cols := [mkColdef compID_sql "component_id" false; mkColdef ownerID_sql "owner_id" false].
Definition keyed_cols (key value : string) := mkColdef depID_sql "deployment_id" false :: plain_cols [key; value].
Definition volume_cols := mkColdef depID_sql "deployment_id" false :: plain_cols ["host"; "container"; "mode"].

(** ** Inserts in general *)

(** A deployment and what of it makes a row. *)
Definition flat {X} (xs : Deployment → list X) (l : list Deployment) : list (Deployment * X) := l ≫= λ d, pair d <$> xs d.

Lemma elem_of_flat {X} (xs : Deployment → list X) l d x : (d, x) ∈ flat xs l ↔ d ∈ l ∧ x ∈ xs d.
Proof.
  unfold flat. rewrite list_elem_of_bind. split.
  - intros (d'&(x'&[= <- <-]&Hx)%list_elem_of_fmap&Hd). done.
  - intros [Hd Hx]. exists d. split; [|done]. apply list_elem_of_fmap. by exists x.
Qed.

Lemma concat_flat {X Y} (xs : Deployment → list X) (g : Deployment → X → Y) l :
  concat ((λ d, g d <$> xs d) <$> l) = (λ dx, g dx.1 dx.2) <$> flat xs l.
Proof.
  unfold flat. induction l as [|d l IH]; [done|]. cbn. rewrite fmap_app. f_equal; [|exact IH].
  by rewrite <-list_fmap_compose.
Qed.

Lemma mapM_fmap_Some {A B C} (f : B → option C) (h : A → B) (g : A → C) l : (∀ a, a ∈ l → f (h a) = Some (g a)) → mapM f (h <$> l) = Some (g <$> l).
Proof.
  induction l as [|a l IH]; intros Hf; [done|]. cbn. rewrite Hf by by left. cbn. rewrite IH; [done|].
  intros a' Ha. apply Hf. by right.
Qed.

Lemma mapM_in {A B} (f : A → option B) (g : A → B) l : (∀ a, a ∈ l → f a = Some (g a)) → mapM f l = Some (g <$> l).
Proof.
  induction l as [|a l IH]; intros Hf; [done|]. cbn. rewrite Hf by by left. cbn. rewrite IH; [done|].
  intros a' Ha. apply Hf. by right.
Qed.

Section Inserts.
Context `{Postgres}.

Lemma execInsert_flat {X} (xs : Deployment → list X) (g : Deployment → X → list (call (V:=sqlval)))
    (fn : Deployment → option rowdefs) (cs : list coldef) (ds : Deployments) table conflict tx :
  (∀ did d, ds !! did = Some d → fn d = Some (g d <$> xs d)) → (∀ d x, call_def <$> g d x = cs) → cs ≠ [] →
  NoDup (col_name <$> cs) →
  let l := flat xs (map_to_list ds).*2 in
  ∃ f, has_columns cs f ∧ rows f = foldl kick [] ((λ dx, row_of (g dx.1 dx.2) ∅) <$> l) ∧ (l ≠ [] → colnames f = col_name <$> cs) ∧
    execInsertDeployments ds table conflict fn tx =
      Some (if bool_decide (l = []) then (tx, None) else statement (exec table conflict f) (Refused table) tx).
Proof using.
  intros Hfn Hg Hcs Hnd l. unfold execInsertDeployments.
  rewrite (mapM_in fn (λ d, g d <$> xs d)).
  2: { intros d ([did d']&->&Hin%elem_of_map_to_list)%list_elem_of_fmap. by apply (Hfn did). }
  cbn [mbind option_bind]. rewrite concat_flat. fold l.
  assert (defs_for ((λ dx, g dx.1 dx.2) <$> l) cs) as Hdefs.
  { apply Forall_forall. intros fn' ([d x]&->&_)%list_elem_of_fmap. apply Hg. }
  destruct (build_uniform cs _ NewFieldset Hnd Hdefs (or_introl eq_refl)) as (f&Hb&Hc&Hn&Hr).
  exists f. split; [done|]. split; [by rewrite Hr, <-list_fmap_compose|].
  assert (l ≠ [] → colnames f = col_name <$> cs) as Hn'.
  { intros Hl. apply Hn. by intros ?%fmap_nil_inv. }
  split; [done|]. rewrite Hb. cbn [mbind option_bind]. f_equal. unfold Potent. case_bool_decide as Hp; case_bool_decide as Hl; try done.
  - rewrite Hl in Hb. cbn in Hb. injection Hb as <-. done.
  - exfalso. rewrite Hn' in Hp by done. by apply Hcs, (fmap_nil_inv col_name).
Qed.

Lemma execInsert_some {X} (xs : Deployment → list X) (g : Deployment → X → list (call (V:=sqlval)))
    (fn : Deployment → option rowdefs) (cs : list coldef) (ds : Deployments) table conflict tx :
  (∀ did d, ds !! did = Some d → fn d = Some (g d <$> xs d)) → (∀ d x, call_def <$> g d x = cs) → cs ≠ [] →
  NoDup (col_name <$> cs) → ∃ tx' e, execInsertDeployments ds table conflict fn tx = Some (tx', e).
Proof using.
  intros Hfn Hg Hcs Hnd. destruct (execInsert_flat xs g fn cs ds table conflict tx Hfn Hg Hcs Hnd) as (f&_&_&_&->).
  case_bool_decide; [by eexists _, _|]. destruct (statement _ _ _) as [tx' e]. by eexists _, _.
Qed.

(** The rows the inserts make, of deployments with a cluster and without nil volumes. *)
Definition the_row (fn : Deployment → option rowdefs) (d : Deployment) (_ : ()) : list (call (V:=sqlval)) := default [] (head (default [] (fn d))).

Definition cluster_row_of (d : Deployment) (_ : ()) : list (call (V:=sqlval)) :=
  let c := default (mkCluster "" "" "" None zeroStartup []) (d_Cluster d) in
  [CF "?" "name" [VText (ClusterName d)]; FD "?" "kind" [VText (c_Kind c)]; FD "?" "base_url" [VText (BaseURL c)]]
  ++ startupFields "crdef" (c_Startup c).

Definition one {A} : A → list () := λ _, [tt].

Lemma cluster_fields_row d : is_Some (d_Cluster d) → cluster_fields d = Some (cluster_row_of d <$> one d).
Proof using. unfold cluster_fields, cluster_row_of. by intros [c ->]. Qed.

Lemma nodup_names cs : bool_decide (NoDup (col_name <$> cs)) = true → NoDup (col_name <$> cs).
Proof using. apply bool_decide_eq_true. Qed.

(** ** Removing *)

Lemma insert_changes_removes ch tx : deletes ch ≠ ∅ → map_Forall (λ _ d, is_Some (d_Cluster d)) (alldeps ch) →
  ∃ tx' e, insert_changes ch tx = Some (tx', e) ∧ (is_Some e ∨ tx_failed tx' = true).
Proof using.
  intros Hne Hcl. assert (∀ swallow ds table conflict fn rest tx,
    (∃ tx' e, execInsertDeployments ds table conflict fn tx = Some (tx', e)) →
    (∀ tx, ∃ tx' e, rest tx = Some (tx', e) ∧ (is_Some e ∨ tx_failed tx' = true)) →
    ∃ tx' e, inserting swallow ds table conflict fn rest tx = Some (tx', e) ∧ (is_Some e ∨ tx_failed tx' = true)) as Hstep.
  { clear. intros swallow ds table conflict fn rest tx (tx'&e&He) Hrest. unfold inserting. rewrite He. cbn [mbind option_bind].
    destruct e as [e|]; [|apply Hrest]. eexists _, _. split; [done|].
    apply execInsert_cases in He as [[=]|[f He]]. symmetry in He. apply statement_failed in He. by right. }
  unfold insert_changes. apply Hstep.
  { apply (execInsert_some one (the_row component_fields) _ component_cols); try done. by apply nodup_names; vm_compute. }
  clear tx. intros tx. apply Hstep.
  { apply (execInsert_some one cluster_row_of _ cluster_cols); try done; [|by apply nodup_names; vm_compute].
    intros did d Hd. apply cluster_fields_row. by apply (Hcl did). }
  clear tx. intros tx. apply Hstep.
  { apply (execInsert_some one (the_row (deployment_fields "active")) _ deployment_cols); try done. by apply nodup_names; vm_compute. }
  clear tx. intros tx. destruct (tombstones_refused (deletes ch) tx Hne) as (tx'&e&He).
  unfold inserting at 1. rewrite He. cbn [mbind option_bind]. eexists _, _. split; [done|by left].
Qed.
End Inserts.

(** ** What every writing keeps *)

(** Whatever refers to something refers to something there. *)
Record wf (t : tables) : Prop := {
  wf_deployments id dr : deployments t !! id = Some dr → dr_component dr ∈ components t ∧ is_Some (clusters t !! dr_cluster dr);
  wf_owners c o : (c, o) ∈ component_owners t → c ∈ components t ∧ o ∈ owners t;
  wf_envs id k : is_Some (envs t !! (id, k)) → is_Some (deployments t !! id);
  wf_resources id k : is_Some (resources t !! (id, k)) → is_Some (deployments t !! id);
  wf_metadatas id k : is_Some (metadatas t !! (id, k)) → is_Some (deployments t !! id);
  wf_volumes id v : (id, v) ∈ volumes t → is_Some (deployments t !! id)
}.

Lemma max_id_spec {A} (m : gmap Z A) : match max_id m with
  | Some i => is_Some (m !! i) ∧ ∀ k, is_Some (m !! k) → k ≤ i
  | None => m = ∅
  end.
Proof.
  unfold max_id. apply (map_fold_weak_ind (λ r m, match r with
    | Some i => is_Some (m !! i) ∧ ∀ k, is_Some (m !! k) → k ≤ i | None => m = ∅ end)); [done|]. clear m.
  intros i x m r Hi Hr. destruct r as [j|]; cbn [from_option].
  - destruct Hr as [Hj Hmax]. split.
    + destruct (Z.max_spec i j) as [[? ->]|[? ->]]; [|rewrite lookup_insert_eq; by eexists].
      destruct (decide (i = j)) as [->|]; [rewrite lookup_insert_eq; by eexists|]. by rewrite lookup_insert_ne.
    + intros k [y [[<- _]|[_ Hk]]%lookup_insert_Some]; [lia|]. assert (k ≤ j); [|lia]. apply Hmax. by eexists.
  - subst m. split; [rewrite lookup_insert_eq; by eexists|]. intros k [y [[<- _]|[_ Hk]]%lookup_insert_Some]; [lia|].
    by rewrite lookup_empty in Hk.
Qed.

Lemma max_id_eq {A} (m : gmap Z A) i : is_Some (m !! i) → (∀ k, is_Some (m !! k) → k ≤ i) → max_id m = Some i.
Proof.
  intros Hi Hmax. pose proof (max_id_spec m) as Hs. destruct (max_id m) as [j|].
  - destruct Hs as [Hj Hjm]. specialize (Hmax _ Hj). specialize (Hjm _ Hi). f_equal. lia.
  - subst m. by destruct Hi.
Qed.

Lemma fresh_id_spec {A} (m : gmap Z A) k : is_Some (m !! k) → k < fresh_id m.
Proof.
  intros Hk. pose proof (max_id_spec m) as Hs. unfold fresh_id. destruct (max_id m) as [j|]; cbn.
  - destruct Hs as [_ Hj]. specialize (Hj k Hk). lia.
  - subst m. by destruct Hk.
Qed.

Lemma fresh_id_new {A} (m : gmap Z A) : m !! fresh_id m = None.
Proof. apply eq_None_not_Some. intros Hs%fresh_id_spec. lia. Qed.

Section Decoded.
Context (t : tables) (r : gmap string (field (V:=sqlval))).

(** A sub-select finds what there is. *)
Definition refers (d : datum) : Prop :=
  match d with
  | DVal _ => True
  | DComponent c => c ∈ components t
  | DCluster n => is_Some (clusters t !! n)
  | DOwner o => o ∈ owners t
  | DDeployment id => is_Some (deployments t !! id)
  end.
Lemma eval_refers f d : eval t f = Some d → refers d.
Proof using.
  unfold eval. repeat case_match; intros Heq; try done; try (injection Heq as <-; try done);
    try (by eapply bool_decide_eq_true_1).
  apply fmap_Some in Heq as (id&Hid&->). unfold last_active in Hid.
  match goal with Hid : max_id ?m = Some _ |- _ => pose proof (max_id_spec m) as Hs; rewrite Hid in Hs end.
  destruct Hs as [[dr Hdr] _]. apply map_lookup_filter_Some in Hdr as [Hdr _]. by eexists.
Qed.

Lemma component_at_refers col c : component_at t r col = Some c → c ∈ components t.
Proof using.
  unfold component_at. destruct (datum_at t r col) as [d|] eqn:Hd; [|done]. destruct d; try done. intros [= ->].
  apply bind_Some in Hd as (f&_&Hd). exact (eval_refers f _ Hd).
Qed.
Lemma cluster_at_refers col c : cluster_at t r col = Some c → is_Some (clusters t !! c).
Proof using.
  unfold cluster_at. destruct (datum_at t r col) as [d|] eqn:Hd; [|done]. destruct d; try done. intros [= ->].
  apply bind_Some in Hd as (f&_&Hd). exact (eval_refers f _ Hd).
Qed.
Lemma owner_at_refers col o : owner_at t r col = Some o → o ∈ owners t.
Proof using.
  unfold owner_at. destruct (datum_at t r col) as [d|] eqn:Hd; [|done]. destruct d; try done. intros [= ->].
  apply bind_Some in Hd as (f&_&Hd). exact (eval_refers f _ Hd).
Qed.
Lemma deployment_at_refers col id : deployment_at t r col = Some id → is_Some (deployments t !! id).
Proof using.
  unfold deployment_at. destruct (datum_at t r col) as [d|] eqn:Hd; [|done]. destruct d; try done. intros [= ->].
  apply bind_Some in Hd as (f&_&Hd). exact (eval_refers f _ Hd).
Qed.

Lemma deployment_row_refers dr : deployment_row_at t r = Some dr → dr_component dr ∈ components t ∧ is_Some (clusters t !! dr_cluster dr).
Proof using.
  unfold deployment_row_at. intros (c&Hc&Hd)%bind_Some. apply bind_Some in Hd as (cn&Hcn&Hd).
  repeat apply bind_Some in Hd as (?&_&Hd). injection Hd as <-. split; [by eapply component_at_refers|by eapply cluster_at_refers].
Qed.
Lemma component_owner_refers c o : component_owner_at t r = Some (c, o) → c ∈ components t ∧ o ∈ owners t.
Proof using.
  unfold component_owner_at. intros (c'&Hc&Hd)%bind_Some. apply bind_Some in Hd as (o'&Ho&[= -> ->]).
  split; [by eapply component_at_refers|by eapply owner_at_refers].
Qed.
Lemma keyed_row_refers key value id k v : keyed_row_at t r key value = Some (id, k, v) → is_Some (deployments t !! id).
Proof using.
  unfold keyed_row_at. intros (id'&Hid&Hd)%bind_Some. repeat apply bind_Some in Hd as (?&_&Hd). injection Hd as -> -> ->.
  by eapply deployment_at_refers.
Qed.
Lemma volume_refers id v : volume_at t r = Some (id, v) → is_Some (deployments t !! id).
Proof using.
  unfold volume_at. intros (id'&Hid&Hd)%bind_Some. repeat apply bind_Some in Hd as (?&_&Hd). injection Hd as -> _.
  by eapply deployment_at_refers.
Qed.
End Decoded.

Lemma mapM_elem {A B} (f : A → option B) l k b : mapM f l = Some k → b ∈ k → ∃ a, a ∈ l ∧ f a = Some b.
Proof.
  intros Hm Hb. apply mapM_Some in Hm. apply list_elem_of_lookup in Hb as [i Hi].
  destruct (Forall2_lookup_r _ _ _ _ _ Hm Hi) as (a&Ha&Hf). exists a. split; [by eapply list_elem_of_lookup_2|done].
Qed.

(** What inserting deployments adds. *)
Lemma insert_deployments_incl rs (m : gmap Z deployment_row) id dr :
  foldl insert_deployment m rs !! id = Some dr → m !! id = Some dr ∨ dr ∈ rs.
Proof.
  revert m. induction rs as [|r rs IH]; intros m Hd; [by left|]. cbn in Hd. apply IH in Hd as [Hd|?]; [|right; by right].
  unfold insert_deployment in Hd. apply lookup_insert_Some in Hd as [[_ <-]|[_ Hd]]; [right; by left|by left].
Qed.

Lemma insert_deployments_keep rs (m : gmap Z deployment_row) id dr :
  m !! id = Some dr → foldl insert_deployment m rs !! id = Some dr.
Proof.
  revert m. induction rs as [|r rs IH]; intros m Hd; [done|]. cbn. apply IH. unfold insert_deployment.
  rewrite lookup_insert_ne; [done|]. intros Heq. rewrite <-Heq in Hd. by rewrite fresh_id_new in Hd.
Qed.

Lemma insert_new_incl (es : list (Z * string * string)) (m : keyed_rows) (id : Z) (k : string) : is_Some (foldl insert_new m es !! (id, k)) →
  is_Some (m !! (id, k)) ∨ ∃ v, (id, k, v) ∈ es.
Proof.
  revert m. induction es as [|[[i k'] v] es IH]; intros m Hd; [by left|]. cbn in Hd. apply IH in Hd as [Hd|[v' ?]].
  - unfold insert_new in Hd. destruct (m !! (i, k')); [by left|].
    apply lookup_insert_is_Some in Hd as [[= -> ->]|[_ Hd]]; [right; exists v; by left|by left].
  - right. exists v'. by right.
Qed.


Lemma exec_wf table conflict f t t' : exec table conflict f t = Some t' → wf t → wf t'.
Proof.
  intros He [Hd Ho Hen Hr Hm Hv]. unfold exec in He.
  repeat match type of He with (if ?b then _ else _) = _ => destruct b end; try done;
    apply bind_Some in He as (rs&Hrs&He); try (destruct (decide _) in He; [|done]); injection He as <-;
    split; cbn [set_components set_clusters set_deployments set_owners set_component_owners set_envs set_resources set_metadatas
      set_volumes components clusters deployments owners component_owners envs resources metadatas volumes]; try done.
  - intros id dr Hdr. destruct (Hd id dr Hdr). split; [set_solver|done].
  - intros c o Hco. destruct (Ho c o Hco). split; [set_solver|done].
  - intros id dr Hdr. destruct (Hd id dr Hdr) as [? [row Hrow]]. split; [done|].
    apply lookup_union_is_Some. right. by eexists.
  - intros id dr [Hdr|Hdr]%insert_deployments_incl; [by apply Hd in Hdr|].
    destruct (mapM_elem _ _ _ _ Hrs Hdr) as (r&_&Hrow). by eapply deployment_row_refers.
  - intros id k [dr Hdr]%Hen. exists dr. by apply insert_deployments_keep.
  - intros id k [dr Hdr]%Hr. exists dr. by apply insert_deployments_keep.
  - intros id k [dr Hdr]%Hm. exists dr. by apply insert_deployments_keep.
  - intros id v [dr Hdr]%Hv. exists dr. by apply insert_deployments_keep.
  - intros c o Hco. destruct (Ho c o Hco). split; [done|set_solver].
  - intros c o [Hco|Hco%elem_of_list_to_set]%elem_of_union; [by apply Ho|].
    destruct (mapM_elem _ _ _ _ Hrs Hco) as (r&_&Hrow). by eapply component_owner_refers.
  - intros id k [?|[v Hin]]%insert_new_incl; [by eapply Hen|].
    destruct (mapM_elem _ _ _ _ Hrs Hin) as (r&_&Hrow). by eapply keyed_row_refers.
  - intros id k [?|[v Hin]]%insert_new_incl; [by eapply Hr|].
    destruct (mapM_elem _ _ _ _ Hrs Hin) as (r&_&Hrow). by eapply keyed_row_refers.
  - intros id k [?|[v Hin]]%insert_new_incl; [by eapply Hm|].
    destruct (mapM_elem _ _ _ _ Hrs Hin) as (r&_&Hrow). by eapply keyed_row_refers.
  - intros id v [?|Hin]%elem_of_app; [by eapply Hv|].
    destruct (mapM_elem _ _ _ _ Hrs Hin) as (r&_&Hrow). by eapply volume_refers.
Qed.

(** ** Writing and failing *)

Section Outcomes.
Context `{Postgres}.

Lemma pg_WriteState_cases s user t : (pg_WriteState s user t).1 = t ∨
  ∃ tx tx' ch, insert_changes ch tx = Some (tx', None) ∧ tx_failed tx' = false ∧ tx_tables tx = t ∧
    pg_WriteState s user t = (tx_tables tx', Some None).
Proof using.
  unfold pg_WriteState. destruct (pg_fault 0); [by left|].
  destruct (storeManifests s (mkTx t false 1)) as [[tx' [e|]]|] eqn:Hst; [by left| |by left].
  destruct (commit tx') eqn:Hc; [by left|]. unfold storeManifests in Hst.
  destruct (State_Deployments s); [|done]. destruct (loadState _) as [tx [cur|e]] eqn:Hl; [|done].
  destruct (State_Deployments cur); [|done]. apply bind_Some in Hst as (ch&_&Hst).
  right. exists tx, tx', ch. apply loadState_ok in Hl as (_&Ht&_). split_and!; [done| |exact Ht|done].
  unfold commit in Hc. by destruct (tx_failed tx').
Qed.

Lemma insert_changes_wf ch tx tx' e : wf (tx_tables tx) → insert_changes ch tx = Some (tx', e) → tx_failed tx' = false → wf (tx_tables tx').
Proof using. apply insert_changes_inv. intros table conflict f t t'. apply exec_wf. Qed.

(** Whatever is written, or fails to be, what refers to something in the tables
    refers to something there: deployments to components and clusters, the rest to
    deployments, components and owners. *)
Theorem pg_WriteState_wf (s : State) (user : SousUser) (t : tables) : wf t → wf (pg_WriteState s user t).1.
Proof using.
  intros Hwf. destruct (pg_WriteState_cases s user t) as [->|(tx&tx'&ch&Hi&Hf&Ht&->)]; [done|]. cbn.
  eapply insert_changes_wf; [by rewrite Ht|done|done].
Qed.

(** C29.  A state that lacks a deployment that is stored cannot be written: the tombstone
    is not spelt as the type of its column has it, so that the statement is refused,
    and nothing is changed. *)
Theorem pg_cannot_remove (s cur : State) (user : SousUser) (t : tables) (new curd : Deployments) (did : DeploymentID) :
  pg_ReadState t = Ok cur → State_Deployments cur = Ok curd → keyed (st_Manifests s) → State_Deployments s = Ok new →
  deployments_volumes_ok new → is_Some (curd !! did) → new !! did = None →
  ∃ e, pg_WriteState s user t = (t, Some (Some e)).
Proof using.
  intros Hread Hcurd Hk Hnew Hv [d Hd] Hnone.
  destruct (written_changes t cur curd s new Hread Hcurd Hk Hnew Hv) as (tx&ch&Hf&Hst&_&_&_&Hdel&_&Hcl).
  destruct (insert_changes_removes ch tx) as (tx'&e&Hi&He); [|done|].
  { intros Heq. assert (deletes ch !! did = Some d) as Hd' by by apply Hdel. by rewrite Heq, lookup_empty in Hd'. }
  unfold pg_WriteState. rewrite Hf, Hst, Hi. destruct e as [e|]; [by exists e|].
  destruct He as [[? [=]]|He]. unfold commit. rewrite He. by exists InFailedTransaction.
Qed.
End Outcomes.

Lemma empty_wf : wf empty_tables.
Proof.
  split; cbn [empty_tables deployments component_owners envs resources metadatas volumes].
  - intros id dr. by rewrite lookup_empty.
  - set_solver.
  - intros id k. by rewrite lookup_empty, is_Some_alt.
  - intros id k. by rewrite lookup_empty, is_Some_alt.
  - intros id k. by rewrite lookup_empty, is_Some_alt.
  - by intros id v ?%elem_of_nil.
Qed.

Definition sample_tables : tables := (pg_WriteState (H:=sample_postgres) sample_state sample_user empty_tables).1.

Lemma pg_WriteState_wf_witness :
  size (deployments sample_tables) = 1%nat ∧ wf sample_tables.
Proof.
  split; [vm_compute; reflexivity|]. unfold sample_tables. apply (pg_WriteState_wf (H:=sample_postgres)). exact empty_wf.
Defined.

Lemma pg_cannot_remove_witness :
  ∃ e, pg_WriteState (H:=sample_postgres) (mkState sample_defs ∅ None) sample_user sample_tables = (sample_tables, Some (Some e)).
Proof.
  assert (match pg_ReadState (H:=sample_postgres) sample_tables with
          | Ok cur => match State_Deployments cur with Ok curd => bool_decide (is_Some (curd !! sample_did)) | Err _ => false end
          | Err _ => false
          end = true) as Hcur by (vm_compute; reflexivity).
  destruct (pg_ReadState (H:=sample_postgres) sample_tables) as [cur|e] eqn:Hread; [|discriminate].
  destruct (State_Deployments cur) as [curd|e] eqn:Hcurd; [|discriminate]. apply bool_decide_eq_true in Hcur.
  apply (pg_cannot_remove (H:=sample_postgres) (mkState sample_defs ∅ None) cur sample_user sample_tables ∅ curd sample_did);
    [exact Hread|exact Hcurd| |reflexivity| |exact Hcur|reflexivity].
  - intros mid m Hm. cbn in Hm. by rewrite lookup_empty in Hm.
  - intros did d Hd. by rewrite lookup_empty in Hd.
Defined.

(** ** What a writing that succeeds does *)

Section Effects.
Context `{Postgres} (Hfaults : ∀ n, pg_fault n = None).

Definition runs (r : option (Tx * option pg_error)) (t : tables) : Prop :=
  ∃ tx, r = Some (tx, None) ∧ tx_failed tx = false ∧ tx_tables tx = t.

Lemma inserting_runs swallow ds table conflict fn rest tx t1 t2 :
  runs (execInsertDeployments ds table conflict fn tx) t1 →
  (∀ tx, tx_failed tx = false → tx_tables tx = t1 → runs (rest tx) t2) →
  runs (inserting swallow ds table conflict fn rest tx) t2.
Proof using. intros (tx1&He&Hf&Ht) Hrest. unfold inserting. rewrite He. cbn [mbind option_bind]. by apply Hrest. Qed.

Lemma statement_runs f e tx t : tx_failed tx = false → f (tx_tables tx) = Some t → runs (Some (statement f e tx)) t.
Proof using Hfaults. intros Hf Ht. unfold statement. rewrite Hf, Hfaults, Ht. by eexists. Qed.

Lemma execInsert_runs {X} (xs : Deployment → list X) (g : Deployment → X → list (call (V:=sqlval)))
    (fn : Deployment → option rowdefs) (cs : list coldef) (ds : Deployments) table conflict tx t :
  let l := flat xs (map_to_list ds).*2 in
  (∀ did d, ds !! did = Some d → fn d = Some (g d <$> xs d)) → (∀ d x, call_def <$> g d x = cs) → cs ≠ [] →
  bool_decide (NoDup (col_name <$> cs)) = true → tx_failed tx = false →
  (l = [] → t = tx_tables tx) →
  (∀ f, l ≠ [] → colnames f = col_name <$> cs → coldefs f = defs_of cs →
     rows f = foldl kick [] ((λ dx, row_of (g dx.1 dx.2) ∅) <$> l) → exec table conflict f (tx_tables tx) = Some t) →
  runs (execInsertDeployments ds table conflict fn tx) t.
Proof using Hfaults.
  intros l Hfn Hg Hcs Hnd%bool_decide_eq_true Hf Hnil Hex.
  destruct (execInsert_flat xs g fn cs ds table conflict tx Hfn Hg Hcs Hnd) as (f&Hc&Hr&Hn&->). fold l in Hr, Hn |- *.
  case_bool_decide as Hl; [exists tx; by rewrite Hnil|]. apply statement_runs; [done|].
  destruct Hc as [->|[Hcn Hcd]]; [|by apply Hex]. exfalso. specialize (Hn Hl). by symmetry in Hn; apply (fmap_nil_inv col_name) in Hn.
Qed.

(** The same without candidates: all the rows are inserted. *)
Lemma execInsert_runs_plain {X} (xs : Deployment → list X) (g : Deployment → X → list (call (V:=sqlval)))
    (fn : Deployment → option rowdefs) (cs : list coldef) (ds : Deployments) table conflict tx t :
  let l := flat xs (map_to_list ds).*2 in
  (∀ did d, ds !! did = Some d → fn d = Some (g d <$> xs d)) → (∀ d x, call_def <$> g d x = cs) → cs ≠ [] →
  bool_decide (NoDup (col_name <$> cs)) = true → Forall (λ c, candidate c = false) cs → tx_failed tx = false →
  (l = [] → t = tx_tables tx) →
  (∀ f, rows f = (λ dx, row_of (g dx.1 dx.2) ∅) <$> l → exec table conflict f (tx_tables tx) = Some t) →
  runs (execInsertDeployments ds table conflict fn tx) t.
Proof using Hfaults.
  intros l Hfn Hg Hcs Hnd Hcand Hf Hnil Hex. apply (execInsert_runs xs g fn cs); try done. fold l.
  intros f _ _ _ Hr. apply Hex. rewrite Hr.
  change (λ dx : Deployment * X, row_of (g dx.1 dx.2) ∅) with ((λ fn : list (call (V:=sqlval)), row_of fn ∅) ∘ (λ dx : Deployment * X, g dx.1 dx.2)).
  rewrite list_fmap_compose. apply (foldl_kick_no_candidates []); [|constructor].
  apply Forall_forall. intros fn' ([d x]&->&_)%list_elem_of_fmap. apply Forall_forall. intros k Hk.
  rewrite Forall_forall in Hcand. apply (Hcand (call_def k)). rewrite <-(Hg d x). apply list_elem_of_fmap. by exists k.
Qed.

Lemma flat_one l : flat one l = (λ d, (d, tt)) <$> l.
Proof using. unfold flat, one. induction l as [|d l IH]; [done|]. cbn. by f_equal. Qed.

Lemma elem_of_values (ds : Deployments) d : d ∈ (map_to_list ds).*2 ↔ ∃ did, ds !! did = Some d.
Proof using.
  rewrite list_elem_of_fmap. split.
  - intros ([did d']&->&Hin%elem_of_map_to_list). by exists did.
  - intros [did Hd]. exists (did, d). split; [done|]. by apply elem_of_map_to_list.
Qed.

(** *** Components, owners *)

Lemma components_runs ds tx : tx_failed tx = false →
  runs (execInsertDeployments ds "components" do_nothing component_fields tx)
    (set_components (components (tx_tables tx) ∪ list_to_set (comp_of <$> (map_to_list ds).*2)) (tx_tables tx)).
Proof using Hfaults.
  intros Hf. apply (execInsert_runs_plain one (the_row component_fields) _ component_cols); try done; try (by repeat constructor); [|].
  - rewrite flat_one. intros ->%(fmap_nil_inv (λ d : Deployment, (d, ()))). cbn. rewrite (right_id_L ∅ (∪)). by destruct (tx_tables tx).
  - intros f Hr. change (exec "components" do_nothing f (tx_tables tx)) with
      (cs ← mapM (component_row_at (tx_tables tx)) (rows f);
       Some (set_components (components (tx_tables tx) ∪ list_to_set cs) (tx_tables tx))).
    rewrite Hr, flat_one, <-list_fmap_compose. erewrite mapM_fmap_Some; [done|].
    intros d _. exact (decode_component _ d _ eq_refl).
Qed.

Lemma owners_runs ds tx : tx_failed tx = false →
  runs (execInsertDeployments ds "owners" do_nothing owner_fields tx)
    (set_owners (owners (tx_tables tx) ∪ list_to_set (flat (elements ∘ Owners) (map_to_list ds).*2).*2) (tx_tables tx)).
Proof using Hfaults.
  intros Hf. apply (execInsert_runs_plain (elements ∘ Owners) (λ _ o, [FD "?" "email" [VText o]]) _ owner_cols); try done; try (by repeat constructor); [|].
  - intros ->. cbn. rewrite (right_id_L ∅ (∪)). by destruct (tx_tables tx).
  - intros f Hr. change (exec "owners" do_nothing f (tx_tables tx)) with
      (os ← mapM (λ r, text_at (tx_tables tx) r "email") (rows f);
       Some (set_owners (owners (tx_tables tx) ∪ list_to_set os) (tx_tables tx))).
    rewrite Hr. erewrite mapM_fmap_Some; [done|]. intros [d o] _. cbn [fst snd]. by decode.
Qed.

Lemma component_owners_runs ds tx : tx_failed tx = false →
  (∀ did d, ds !! did = Some d → comp_of d ∈ components (tx_tables tx)) →
  (∀ did d o, ds !! did = Some d → o ∈ Owners d → o ∈ owners (tx_tables tx)) →
  runs (execInsertDeployments ds "component_owners" do_nothing component_owner_fields tx)
    (set_component_owners (component_owners (tx_tables tx) ∪
       list_to_set ((λ dx, (comp_of dx.1, dx.2)) <$> flat (elements ∘ Owners) (map_to_list ds).*2)) (tx_tables tx)).
Proof using Hfaults.
  intros Hf Hc Ho. apply (execInsert_runs_plain (elements ∘ Owners) (λ d o, [compID d; ownerID o]) _ component_owner_cols); try done; try (by repeat constructor); [|].
  - intros ->. cbn. rewrite (right_id_L ∅ (∪)). by destruct (tx_tables tx).
  - intros f Hr. change (exec "component_owners" do_nothing f (tx_tables tx)) with
      (os ← mapM (component_owner_at (tx_tables tx)) (rows f);
       Some (set_component_owners (component_owners (tx_tables tx) ∪ list_to_set os) (tx_tables tx))).
    rewrite Hr. erewrite mapM_fmap_Some; [done|]. intros [d o] [Hd Hod]%elem_of_flat. cbn [fst snd].
    apply elem_of_values in Hd as [did Hd]. cbn in Hod. apply elem_of_elements in Hod. unfold component_owner_at.
    pose proof (Hc did d Hd). pose proof (Ho did d o Hd Hod). by decode.
Qed.

(** *** Deployments *)

Lemma deployments_runs ds tx : tx_failed tx = false → map_Forall (λ _, deployment_fits) ds →
  (∀ did d, ds !! did = Some d → comp_of d ∈ components (tx_tables tx) ∧ is_Some (clusters (tx_tables tx) !! ClusterName d)) →
  runs (execInsertDeployments ds "deployments" [] (deployment_fields "active") tx)
    (set_deployments (foldl insert_deployment (deployments (tx_tables tx)) (dep_row Active <$> (map_to_list ds).*2)) (tx_tables tx)).
Proof using Hfaults.
  intros Hf Hfit Hc. apply (execInsert_runs_plain one (the_row (deployment_fields "active")) _ deployment_cols); try done; try (by repeat constructor); [|].
  - rewrite flat_one. intros ->%(fmap_nil_inv (λ d : Deployment, (d, ()))). by destruct (tx_tables tx).
  - intros f Hr. change (exec "deployments" [] f (tx_tables tx)) with
      (ds ← mapM (deployment_row_at (tx_tables tx)) (rows f);
       Some (set_deployments (foldl insert_deployment (deployments (tx_tables tx)) ds) (tx_tables tx))).
    rewrite Hr, flat_one, <-list_fmap_compose. erewrite mapM_fmap_Some; [done|].
    intros d [did Hd]%elem_of_values. destruct (Hc did d Hd) as [H1 H2].
    exact (decode_deployment _ d "active" _ eq_refl (Hfit did d Hd) H1 H2).
Qed.

(** *** What belongs to deployments *)

Definition id_of (t : tables) (d : Deployment) : Z := default 0 (last_active t (comp_of d) (ClusterName d)).

Definition keyed_of (sel : DeployConfig → gomap string) (d : Deployment) : list (string * string) :=
  map_to_list (entries (sel (d_DeployConfig d))).
Definition keyed_rows_of (t : tables) (sel : DeployConfig → gomap string) (ds : Deployments) : list (Z * string * string) :=
  (λ dx, (id_of t dx.1, dx.2.1, dx.2.2)) <$> flat (keyed_of sel) (map_to_list ds).*2.

Definition all_numbered (t : tables) (ds : Deployments) : Prop :=
  ∀ did d, ds !! did = Some d → is_Some (last_active t (comp_of d) (ClusterName d)).

Ltac run_keyed key value sel set :=
  intros Hf Hn;
  apply (execInsert_runs_plain (keyed_of sel) (λ d kv, [depID d; FD "?" key [VText kv.1]; FD "?" value [VText kv.2]])
    _ (keyed_cols key value)); try done; try (by repeat constructor);
  [ unfold keyed_rows_of; intros ->; cbn; match goal with |- _ ?t = _ => by destruct t end
  | let f := fresh in let Hr := fresh in intros f Hr;
    match goal with |- exec ?table _ _ ?t = Some (set (foldl insert_new ?m _) _) =>
      change (exec table do_nothing f t) with
        (es ← mapM (λ r, keyed_row_at t r key value) (rows f); Some (set (foldl insert_new m es) t)) end;
    rewrite Hr; unfold keyed_rows_of; erewrite mapM_fmap_Some; [done|];
    let d := fresh "d" in let kv := fresh "kv" in intros [d kv] [[did Hd]%elem_of_values _]%elem_of_flat; cbn [fst snd];
    destruct (Hn did d Hd) as [id Hid]; unfold keyed_row_at, id_of; rewrite Hid; by decode ].

Lemma envs_runs ds tx : tx_failed tx = false → all_numbered (tx_tables tx) ds →
  runs (execInsertDeployments ds "envs" do_nothing (keyed_fields "key" "value" dc_Env) tx)
    (set_envs (foldl insert_new (envs (tx_tables tx)) (keyed_rows_of (tx_tables tx) dc_Env ds)) (tx_tables tx)).
Proof using Hfaults. run_keyed "key" "value" dc_Env set_envs. Qed.

Lemma resources_runs ds tx : tx_failed tx = false → all_numbered (tx_tables tx) ds →
  runs (execInsertDeployments ds "resources" do_nothing (keyed_fields "resource_name" "resource_value" dc_Resources) tx)
    (set_resources (foldl insert_new (resources (tx_tables tx)) (keyed_rows_of (tx_tables tx) dc_Resources ds)) (tx_tables tx)).
Proof using Hfaults. run_keyed "resource_name" "resource_value" dc_Resources set_resources. Qed.

Lemma metadatas_runs ds tx : tx_failed tx = false → all_numbered (tx_tables tx) ds →
  runs (execInsertDeployments ds "metadatas" do_nothing (keyed_fields "name" "value" dc_Metadata) tx)
    (set_metadatas (foldl insert_new (metadatas (tx_tables tx)) (keyed_rows_of (tx_tables tx) dc_Metadata ds)) (tx_tables tx)).
Proof using Hfaults. run_keyed "name" "value" dc_Metadata set_metadatas. Qed.

Definition volumes_in (d : Deployment) : list Volume := omap id (dc_Volumes (d_DeployConfig d)).
Definition volume_rows_of (t : tables) (ds : Deployments) : list (Z * Volume) :=
  (λ dx, (id_of t dx.1, dx.2)) <$> flat volumes_in (map_to_list ds).*2.

Definition volume_row (d : Deployment) (v : Volume) : list (call (V:=sqlval)) :=
  [depID d; FD "?" "host" [VText (Host v)]; FD "?" "container" [VText (Container v)]; FD "?" "mode" [VText (Mode v)]].

Lemma volume_fields_rows d : d_volumes_ok d → volume_fields d = Some (volume_row d <$> volumes_in d).
Proof using.
  intros [l Hl]%volumes_ok_Some. unfold volume_fields, volumes_in. rewrite Hl.
  assert (omap id (Some <$> l) = l) as ->.
  { clear. induction l as [|v l IH]; [done|]. cbn. by f_equal. }
  by apply mapM_fmap_Some.
Qed.

Lemma volumes_runs ds tx : tx_failed tx = false → all_numbered (tx_tables tx) ds → deployments_volumes_ok ds →
  runs (execInsertDeployments ds "volumes" do_nothing volume_fields tx)
    (set_volumes (volumes (tx_tables tx) ++ volume_rows_of (tx_tables tx) ds) (tx_tables tx)).
Proof using Hfaults.
  intros Hf Hn Hv. apply (execInsert_runs_plain volumes_in volume_row _ volume_cols); try done; try (by repeat constructor).
  - intros did d Hd. by apply volume_fields_rows, (Hv did).
  - unfold volume_rows_of. intros ->. cbn. rewrite app_nil_r. by destruct (tx_tables tx).
  - intros f Hr. change (exec "volumes" do_nothing f (tx_tables tx)) with
      (vs ← mapM (volume_at (tx_tables tx)) (rows f); Some (set_volumes (volumes (tx_tables tx) ++ vs) (tx_tables tx))).
    rewrite Hr. unfold volume_rows_of. erewrite mapM_fmap_Some; [done|].
    intros [d v] [[did Hd]%elem_of_values _]%elem_of_flat. cbn [fst snd].
    destruct (Hn did d Hd) as [id Hid]. unfold volume_at, id_of. rewrite Hid. decode. by destruct v.
Qed.

(** *** Clusters *)

Lemma cluster_dupes d1 d2 :
  dupes (row_of (cluster_row_of d1 tt) ∅) (row_of (cluster_row_of d2 tt) ∅) = bool_decide (ClusterName d1 = ClusterName d2).
Proof using.
  assert (∀ d, candidates_of (row_of (cluster_row_of d tt) ∅) = [("name", mkField (mkColdef "?" "name" true) [VText (ClusterName d)])]) as Hc by reflexivity.
  assert (∀ d, values_at (row_of (cluster_row_of d tt) ∅) "name" = [VText (ClusterName d)]) as Hv by reflexivity.
  unfold dupes. rewrite !Hc. cbn [forallb fst snd values]. rewrite !Hv.
  rewrite (bool_decide_eq_false_2 (_ ∧ _)) by (by intros [? _]).
  destruct (decide (ClusterName d1 = ClusterName d2)) as [->|Hne].
  - by rewrite !bool_decide_eq_true_2.
  - rewrite (bool_decide_eq_false_2 (ClusterName d1 = _)), (bool_decide_eq_false_2 ([VText (ClusterName d2)] = _)) by congruence. done.
Qed.

(** Of the rows of one cluster the first is kept. *)
Lemma kicked (l dn : list Deployment) : ∃ kept, (∀ d, d ∈ kept → d ∈ dn ∨ d ∈ l) ∧
  (∀ d, d ∈ dn ∨ d ∈ l → ClusterName d ∈ ClusterName <$> kept) ∧ (NoDup (ClusterName <$> dn) → NoDup (ClusterName <$> kept)) ∧
  foldl kick ((λ d, row_of (cluster_row_of d tt) ∅) <$> dn) ((λ d, row_of (cluster_row_of d tt) ∅) <$> l) =
    (λ d, row_of (cluster_row_of d tt) ∅) <$> kept.
Proof using.
  revert dn. induction l as [|d l IH]; intros dn.
  { exists dn. split_and!; [by left| |done|done]. intros d [Hd|Hd%elem_of_nil]; [|done]. apply list_elem_of_fmap. by exists d. }
  cbn [fmap list_fmap foldl]. unfold kick at 2. destruct (existsb _ _) eqn:He.
  - destruct (IH dn) as (kept&H1&H2&H3&H4). exists kept. split_and!; [| |done|done].
    + intros d' Hd'. destruct (H1 d' Hd'); [by left|right; by right].
    + intros d' [Hd'|Hd']; [apply H2; by left|]. apply elem_of_cons in Hd' as [->|Hd']; [|apply H2; by right].
      apply existsb_exists in He as (r&Hr%list_elem_of_In&Hd). apply list_elem_of_fmap in Hr as (d0&->&Hd0).
      rewrite cluster_dupes in Hd. apply bool_decide_eq_true in Hd. rewrite <-Hd. apply H2. by left.
  - destruct (IH (dn ++ [d])) as (kept&H1&H2&H3&H4). exists kept. split_and!.
    + intros d' Hd'. destruct (H1 d' Hd') as [[?|Heq%list_elem_of_singleton]%elem_of_app|?]; [by left|subst; right; by left|right; by right].
    + intros d' [Hd'|Hd']; apply H2; rewrite elem_of_app; [by left; left|].
      apply elem_of_cons in Hd' as [->|Hd']; [left; right; by left|by right].
    + intros Hnd. apply H3. rewrite fmap_app. apply NoDup_app. split_and!; [done| |apply NoDup_singleton].
      intros n Hn ->%list_elem_of_singleton. apply list_elem_of_fmap in Hn as (d0&Heq&Hd0).
      apply not_true_iff_false in He. apply He. apply existsb_exists. exists (row_of (cluster_row_of d0 tt) ∅).
      split; [apply list_elem_of_In, list_elem_of_fmap; by exists d0|]. rewrite cluster_dupes. by apply bool_decide_eq_true.
    + rewrite <-H4. by rewrite fmap_app.
Qed.

Lemma clusters_runs ds : map_Forall (λ _ d, is_Some (d_Cluster d)) ds → map_Forall (λ _, deployment_fits) ds →
  ∃ cs, (∀ did d, ds !! did = Some d → is_Some (cs !! ClusterName d)) ∧
    ∀ tx, tx_failed tx = false → runs (execInsertDeployments ds "clusters" do_update cluster_fields tx)
      (set_clusters (cs ∪ clusters (tx_tables tx)) (tx_tables tx)).
Proof using Hfaults.
  intros Hcl Hfit. set (l := (map_to_list ds).*2). destruct (kicked l []) as (kept&H1&H2&H3&H4).
  set (row d := (ClusterName d, let c := default (mkCluster "" "" "" None zeroStartup []) (d_Cluster d) in
                                mkClusterRow (c_Kind c) (BaseURL c) (c_Startup c))).
  exists (list_to_map (row <$> kept)). split.
  - intros did d Hd. apply elem_of_dom. rewrite dom_list_to_map_L, elem_of_list_to_set, <-list_fmap_compose.
    apply H2. right. apply elem_of_values. by exists did.
  - intros tx Hf. apply (execInsert_runs one cluster_row_of _ cluster_cols); try done.
    + intros did d Hd. apply cluster_fields_row. by apply (Hcl did).
    + rewrite flat_one. intros Hl%(fmap_nil_inv (λ d : Deployment, (d, ()))).
      assert (kept = []) as ->.
      { apply elem_of_nil_inv. intros d Hd. apply H1 in Hd as [Hd|Hd]; [by apply elem_of_nil in Hd|].
        unfold l in Hd. rewrite Hl in Hd. by apply elem_of_nil in Hd. }
      cbn. rewrite (left_id_L ∅ (∪)). by destruct (tx_tables tx).
    + intros f _ Hn Hd Hr. rewrite flat_one, <-list_fmap_compose in Hr.
      change (exec "clusters" do_update f (tx_tables tx)) with
        (if bool_decide (conflictClause f do_update = conflictClause f do_update) && bool_decide (Candidates f = "(name)") then
           cs ← mapM (cluster_row_at (tx_tables tx)) (rows f);
           if decide (NoDup cs.*1) then Some (set_clusters (list_to_map cs ∪ clusters (tx_tables tx)) (tx_tables tx)) else None
         else None).
      rewrite bool_decide_eq_true_2 by done.
      assert (Candidates f = "(name)") as ->.
      { destruct f as [ns cds rs]. cbn in Hn, Hd. subst ns cds. vm_compute. reflexivity. }
      rewrite bool_decide_eq_true_2 by done. cbn [andb].
      change (rows f = foldl kick [] ((λ d, row_of (cluster_row_of d tt) ∅) <$> l)) in Hr. rewrite Hr.
      change [] with ((λ d, row_of (cluster_row_of d tt) ∅) <$> ([] : list Deployment)) at 1. rewrite H4.
      rewrite (mapM_fmap_Some _ _ row).
      * cbn [mbind option_bind]. rewrite decide_True; [done|]. rewrite <-list_fmap_compose. apply H3. constructor.
      * intros d Hdk. assert (∃ did, ds !! did = Some d) as [did Hdd].
        { apply H1 in Hdk as [Hdk|Hdk]; [by apply elem_of_nil in Hdk|]. by apply elem_of_values in Hdk. }
        destruct (Hcl did d Hdd) as [c Hc]. pose proof (df_cluster _ (Hfit did d Hdd) c Hc) as Hcf.
        unfold row. rewrite Hc. cbn [default from_option id].
        assert (cluster_fields d = Some [cluster_row_of d tt]) as Hfd by (by apply cluster_fields_row; rewrite Hc).
        exact (decode_cluster _ d c _ Hc Hcf Hfd).
Qed.
End Effects.
