(* ===== verification/PgRoundTrip.v ===== *)
(** * A state written to PostgreSQL is read back

    The whole of a writing that succeeds, as a relation of the tables before and
    after, and what a reading then finds. *)

From S2P Require Import Prelude GoStrings Flaw Semv Ids Startup DeployConfig CMap Deployment.
From S2P Require Import Samples State Differ StateManagers SqlGen Postgres PgStore PgWrite.
#[local] Open Scope string_scope.
#[local] Open Scope Z_scope.
#[local] Open Scope list_scope.

(** ** Numbers *)

Definition group_of (r : deployment_row) : component * string := (dr_component r, dr_cluster r).

(** New deployments get numbers above the others, each the greatest of its group. *)
Lemma numbered (m : gmap Z deployment_row) rs : NoDup (group_of <$> rs) →
  (∀ id dr, foldl insert_deployment m rs !! id = Some dr → m !! id = Some dr ∨ (dr ∈ rs ∧ ∀ k, is_Some (m !! k) → k < id)) ∧
  (∀ r, r ∈ rs → ∃ id, foldl insert_deployment m rs !! id = Some r ∧ (∀ k, is_Some (m !! k) → k < id) ∧
     ∀ k r', foldl insert_deployment m rs !! k = Some r' → group_of r' = group_of r → k ≤ id).
Proof.
  induction rs as [|r0 rs IH] using rev_ind; intros Hnd.
  { split; [by left|]. by intros r ?%elem_of_nil. }
  rewrite fmap_app in Hnd. apply NoDup_app in Hnd as (Hnd&Hdisj&_). destruct (IH Hnd) as [H1 H2].
  rewrite foldl_app. cbn [foldl]. set (m' := foldl insert_deployment m rs) in *. unfold insert_deployment.
  assert (∀ k, is_Some (m !! k) → k < fresh_id m') as Hfresh.
  { intros k [x Hk]. apply fresh_id_spec. exists x. by apply insert_deployments_keep. }
  split.
  - intros id dr [[<- <-]|[_ Hd]]%lookup_insert_Some.
    + right. split; [|done]. apply elem_of_app. right. by left.
    + apply H1 in Hd as [?|[? ?]]; [by left|]. right. split; [|done]. apply elem_of_app. by left.
  - intros r [Hr|Hr%list_elem_of_singleton]%elem_of_app.
    + destruct (H2 r Hr) as (id&Hid&Hold&Hmax). exists id. split_and!; [|done|].
      * rewrite lookup_insert_ne; [done|]. intros Heq. rewrite <-Heq in Hid. by rewrite fresh_id_new in Hid.
      * intros k r' [[_ <-]|[_ Hk]]%lookup_insert_Some Hg; [|by eapply Hmax].
        exfalso. apply (Hdisj (group_of r)); [by apply list_elem_of_fmap_2|]. rewrite <-Hg. by left.
    + subst r0. exists (fresh_id m'). rewrite lookup_insert_eq. split_and!; [done|done|].
      intros k r' [[<- _]|[_ Hk]]%lookup_insert_Some _; [done|]. assert (k < fresh_id m'); [|lia]. apply fresh_id_spec. by eexists.
Qed.

(** ** A writing *)

Record written (t : tables) (upd : Deployments) (t' : tables) : Prop := {
  wr_components c : c ∈ components t' ↔ c ∈ components t ∨ ∃ did d, upd !! did = Some d ∧ c = comp_of d;
  wr_clusters cn : is_Some (clusters t !! cn) → is_Some (clusters t' !! cn);
  wr_clusters_new did d : upd !! did = Some d → is_Some (clusters t' !! ClusterName d);
  wr_deployments : deployments t' = foldl insert_deployment (deployments t) (dep_row Active <$> (map_to_list upd).*2);
  wr_owners c o : (c, o) ∈ component_owners t' ↔
    (c, o) ∈ component_owners t ∨ ∃ did d, upd !! did = Some d ∧ c = comp_of d ∧ o ∈ Owners d;
  wr_envs : envs t' = foldl insert_new (envs t) (keyed_rows_of t' dc_Env upd);
  wr_resources : resources t' = foldl insert_new (resources t) (keyed_rows_of t' dc_Resources upd);
  wr_metadatas : metadatas t' = foldl insert_new (metadatas t) (keyed_rows_of t' dc_Metadata upd);
  wr_volumes : volumes t' = volumes t ++ volume_rows_of t' upd;
  wr_defs : same_defs t t'
}.

Definition groups_distinct (upd : Deployments) : Prop := NoDup (group_of <$> (dep_row Active <$> (map_to_list upd).*2)).

Lemma mid_of_comp d : mid_of (comp_of d) = Deployment_ManifestID d.
Proof. unfold mid_of, comp_of, Deployment_ManifestID. cbn. by destruct (Location (d_SourceID d)). Qed.

Lemma same_row_id d1 d2 : group_of (dep_row Active d1) = group_of (dep_row Active d2) → Deployment_ID d1 = Deployment_ID d2.
Proof.
  unfold group_of. cbn [dep_row dr_component dr_cluster]. intros [= Hr Hd Hf Hkd Hc]. unfold Deployment_ID.
  rewrite <-!mid_of_comp. unfold mid_of, comp_of. cbn. by rewrite Hr, Hd, Hf, Hc.
Qed.

(** Deployments under their own IDs have rows of groups of their own. *)
Lemma keyed_groups (upd : Deployments) : keyed upd → groups_distinct upd.
Proof.
  intros Hk. unfold groups_distinct. rewrite <-!list_fmap_compose. apply NoDup_fmap_2_strong; [|apply NoDup_map_to_list].
  intros [did1 d1] [did2 d2] H1%elem_of_map_to_list H2%elem_of_map_to_list Heq. cbn in Heq.
  pose proof (same_row_id _ _ Heq) as Hid. assert (did1 = did2) as ->.
  { rewrite <-(Hk _ _ H1 : Deployment_ID d1 = did1), Hid. exact (Hk _ _ H2). }
  by rewrite H1 in H2; injection H2 as ->.
Qed.

Section Number.
Context (t : tables) (upd : Deployments) (Hg : groups_distinct upd).
Context (t' : tables) (Ht' : deployments t' = foldl insert_deployment (deployments t) (dep_row Active <$> (map_to_list upd).*2)).

(** The number of an updated deployment: above all the old ones. *)
Lemma update_numbered did d : upd !! did = Some d → ∃ id,
  deployments t' !! id = Some (dep_row Active d) ∧ (∀ k, is_Some (deployments t !! k) → k < id) ∧
  last_active t' (comp_of d) (ClusterName d) = Some id ∧ latest t' id (dep_row Active d).
Proof using Hg Ht'.
  intros Hd. destruct (numbered (deployments t) _ Hg) as [_ H2].
  destruct (H2 (dep_row Active d)) as (id&Hid&Hold&Hmax).
  { apply list_elem_of_fmap_2. apply elem_of_values. by exists did. }
  rewrite <-Ht' in Hid, Hmax. exists id. split_and!; [done|done| |].
  - apply max_id_eq.
    + exists (dep_row Active d). apply map_lookup_filter_Some. split; [done|]. split; [split|]; reflexivity.
    + intros k [r [Hk [[Hc Hn] _]]%map_lookup_filter_Some]. cbn in Hc, Hn. apply (Hmax k r Hk). unfold group_of. by rewrite Hc, Hn.
  - apply max_id_eq.
    + exists (dep_row Active d). apply map_lookup_filter_Some. split; [done|]. split; reflexivity.
    + intros k [r [Hk [Hc Hn]]%map_lookup_filter_Some]. cbn in Hc, Hn. apply (Hmax k r Hk). unfold group_of. by rewrite Hc, Hn.
Qed.

Lemma all_updates_numbered : all_numbered t' upd.
Proof using Hg Ht'. intros did d Hd. destruct (update_numbered did d Hd) as (id&_&_&Hl&_). by exists id. Qed.
End Number.

Section Chain.
Context `{Postgres} (Hfaults : ∀ n, pg_fault n = None).

Lemma none_runs table conflict fn tx : tx_failed tx = false →
  runs (execInsertDeployments ∅ table conflict fn tx) (tx_tables tx).
Proof using. intros Hf. exists tx. by split_and!. Qed.

Ltac run_insert L :=
  eapply inserting_runs;
  [ match goal with Hf : tx_failed ?tx = false, Ht : tx_tables ?tx = _ |- _ =>
      let Hr := fresh in pose proof (L tx Hf) as Hr; rewrite Ht in Hr; first [exact Hr | apply Hr] end
  | match goal with Hf : tx_failed ?tx = false, Ht : tx_tables ?tx = _ |- _ => clear tx Hf Ht; intros tx Hf Ht end ].

Lemma insert_changes_runs ch tx (upd := updates ch) : tx_failed tx = false → deletes ch = ∅ → alldeps ch = upd →
  keyed upd → deployments_volumes_ok upd → map_Forall (λ _, deployment_fits) upd → map_Forall (λ _ d, is_Some (d_Cluster d)) upd →
  ∃ t', runs (insert_changes ch tx) t' ∧ written (tx_tables tx) upd t'.
Proof using Hfaults.
  intros Hf Hdel Hall Hk Hv Hfit Hcl. unfold insert_changes. rewrite Hdel, Hall. fold upd.
  remember (tx_tables tx) as t eqn:Ht. symmetry in Ht. pose proof (keyed_groups upd Hk) as Hg.
  set (t1 := set_components (components t ∪ list_to_set (comp_of <$> (map_to_list upd).*2)) t).
  destruct (clusters_runs Hfaults upd Hcl Hfit) as (cs&Hcs&Hclusters).
  set (t2 := set_clusters (cs ∪ clusters t1) t1).
  set (t3 := set_deployments (foldl insert_deployment (deployments t2) (dep_row Active <$> (map_to_list upd).*2)) t2).
  set (t5 := set_owners (owners t3 ∪ list_to_set (flat (elements ∘ Owners) (map_to_list upd).*2).*2) t3).
  assert (∀ did d, upd !! did = Some d → comp_of d ∈ components t2 ∧ is_Some (clusters t2 !! ClusterName d)) as Hrefs.
  { intros did d Hd. split; [|apply lookup_union_is_Some; left; by eapply Hcs].
    apply elem_of_union_r, elem_of_list_to_set, list_elem_of_fmap_2, elem_of_values. by exists did. }
  assert (∀ did d o, upd !! did = Some d → o ∈ Owners d → o ∈ owners t5) as Howners.
  { intros did d o Hd Ho. apply elem_of_union_r, elem_of_list_to_set, list_elem_of_fmap. exists (d, o). split; [done|].
    apply elem_of_flat. split; [apply elem_of_values; by exists did|]. by apply elem_of_elements. }
  assert (all_numbered t3 upd) as Hnum by exact (all_updates_numbered t2 upd Hg t3 eq_refl).
  eexists. split.
  - run_insert (components_runs Hfaults upd). fold t1 in Ht.
    run_insert Hclusters. fold t2 in Ht.
    run_insert (deployments_runs Hfaults upd); [exact Hfit|exact Hrefs|]. fold t3 in Ht.
    run_insert (none_runs "deployments" [] (deployment_fields "decommisioned")).
    run_insert (owners_runs Hfaults upd). fold t5 in Ht.
    run_insert (component_owners_runs Hfaults upd); [intros did d Hd; by apply (Hrefs did)|done|].
    run_insert (envs_runs Hfaults upd); [exact Hnum|].
    run_insert (resources_runs Hfaults upd); [exact Hnum|].
    run_insert (metadatas_runs Hfaults upd); [exact Hnum|].
    run_insert (volumes_runs Hfaults upd); [exact Hnum|exact Hv|].
    exists tx. split_and!; [done|done|exact Ht].
  - split; try reflexivity.
    + intros c. change (c ∈ components t ∪ list_to_set (comp_of <$> (map_to_list upd).*2) ↔
        c ∈ components t ∨ ∃ did d, upd !! did = Some d ∧ c = comp_of d).
      rewrite elem_of_union, elem_of_list_to_set, list_elem_of_fmap. setoid_rewrite elem_of_values. naive_solver.
    + intros cn Hcn. change (is_Some ((cs ∪ clusters t) !! cn)). apply lookup_union_is_Some. by right.
    + intros did d Hd. by apply (Hrefs did d).
    + intros c o. change ((c, o) ∈ component_owners t ∪ list_to_set ((λ dx, (comp_of dx.1, dx.2)) <$>
        flat (elements ∘ Owners) (map_to_list upd).*2) ↔
        (c, o) ∈ component_owners t ∨ ∃ did d, upd !! did = Some d ∧ c = comp_of d ∧ o ∈ Owners d).
      rewrite elem_of_union, elem_of_list_to_set, list_elem_of_fmap. split; (intros [Ho|Ho]; [by left|right]).
      * destruct Ho as ([d o']&[= -> ->]&[[did Hd]%elem_of_values Ho]%elem_of_flat).
        exists did, d. split_and!; [done|done|]. by apply elem_of_elements.
      * destruct Ho as (did&d&Hd&->&Ho). exists (d, o). split; [done|]. apply elem_of_flat.
        split; [apply elem_of_values; by exists did|]. by apply elem_of_elements.
    + by split_and!.
Qed.
End Chain.

(** ** What the tables hold after a writing *)

Lemma insert_new_lookup (es : list (Z * string * string)) (m : keyed_rows) (x : Z * string) v :
  foldl insert_new m es !! x = Some v → m !! x = Some v ∨ m !! x = None ∧ (x, v) ∈ es.
Proof.
  revert m. induction es as [|[[i k] w] es IH]; intros m Hv; [by left|]. cbn [foldl] in Hv. apply IH in Hv.
  unfold insert_new in Hv. destruct (m !! (i, k)) eqn:Hm.
  - destruct Hv as [?|[? ?]]; [by left|right; split; [done|by right]].
  - destruct Hv as [[[<- <-]|[_ ?]]%lookup_insert_Some|[[Hn _]%lookup_insert_None ?]].
    + right. split; [done|by left].
    + by left.
    + right. split; [done|by right].
Qed.

Lemma insert_new_has (es : list (Z * string * string)) (m : keyed_rows) (x : Z * string) :
  is_Some (m !! x) ∨ (∃ v, (x, v) ∈ es) → is_Some (foldl insert_new m es !! x).
Proof.
  revert m. induction es as [|[[i k] w] es IH]; intros m Hx; cbn [foldl].
  { destruct Hx as [?|[v []%elem_of_nil]]; done. }
  apply IH. unfold insert_new. destruct Hx as [Hx|[v [[= -> ->]|Hx]%elem_of_cons]].
  - left. destruct (m !! (i, k)); [done|]. apply lookup_insert_is_Some'. by right.
  - left. destruct (m !! (i, k)) eqn:Hm; [by rewrite Hm; eexists|]. rewrite lookup_insert_eq. by eexists.
  - right. by exists v.
Qed.

Lemma insert_new_keep (es : list (Z * string * string)) (m : keyed_rows) (x : Z * string) v :
  m !! x = Some v → foldl insert_new m es !! x = Some v.
Proof.
  intros Hm. destruct (insert_new_has es m x) as [w Hw]; [left; by eexists|]. rewrite Hw.
  apply insert_new_lookup in Hw as [?|[? _]]; congruence.
Qed.

Section Written.
Context (t : tables) (upd : Deployments) (t' : tables) (Hwf : wf t) (Hk : keyed upd) (Hw : written t upd t').

Lemma id_of_spec did d : upd !! did = Some d →
  deployments t' !! id_of t' d = Some (dep_row Active d) ∧ (∀ k, is_Some (deployments t !! k) → k < id_of t' d) ∧
  latest t' (id_of t' d) (dep_row Active d).
Proof using Hk Hw.
  intros Hd. destruct (update_numbered t upd (keyed_groups upd Hk) t' (wr_deployments _ _ _ Hw) did d Hd) as (id&Hid&Hold&Hl&Hlast).
  unfold id_of. rewrite Hl. done.
Qed.

Lemma id_of_inj did d did' d' : upd !! did = Some d → upd !! did' = Some d' → id_of t' d = id_of t' d' → d = d'.
Proof using Hk Hw.
  intros Hd Hd' Heq. destruct (id_of_spec did d Hd) as (Hr&_). destruct (id_of_spec did' d' Hd') as (Hr'&_).
  rewrite Heq, Hr' in Hr. apply (inj Some) in Hr. assert (did = did') as ->; [|congruence].
  rewrite <-(Hk _ _ Hd : Deployment_ID d = did), <-(Hk _ _ Hd' : Deployment_ID d' = did').
  apply same_row_id. by rewrite Hr.
Qed.

Lemma elem_of_keyed_rows_of (sel : DeployConfig → gomap string) (id : Z) (k v : string) : (id, k, v) ∈ keyed_rows_of t' sel upd ↔
  ∃ did d, upd !! did = Some d ∧ id = id_of t' d ∧ entries (sel (d_DeployConfig d)) !! k = Some v.
Proof using.
  unfold keyed_rows_of. rewrite list_elem_of_fmap. split.
  - intros ([d [k' v']]&[= -> -> ->]&[[did Hd]%elem_of_values Hkv]%elem_of_flat). exists did, d. split_and!; [done|done|].
    by apply elem_of_map_to_list.
  - intros (did&d&Hd&->&Hkv). exists (d, (k, v)). split; [done|]. apply elem_of_flat.
    split; [apply elem_of_values; by exists did|]. by apply elem_of_map_to_list.
Qed.

(** The rows of an updated deployment are its entries; those of the others are kept. *)
Lemma keyed_new (sel : DeployConfig → gomap string) (m : keyed_rows) did d k : (∀ (id : Z) k, is_Some (m !! (id, k)) → is_Some (deployments t !! id)) →
  upd !! did = Some d → foldl insert_new m (keyed_rows_of t' sel upd) !! (id_of t' d, k) = entries (sel (d_DeployConfig d)) !! k.
Proof using Hk Hw.
  intros Hm Hd. destruct (id_of_spec did d Hd) as (_&Hold&_). set (es := keyed_rows_of t' sel upd).
  assert (m !! (id_of t' d, k) = None) as Hnone.
  { apply eq_None_not_Some. intros Hs%Hm%Hold. lia. }
  apply option_eq. intros v. split.
  - intros [Hv|[_ Hv]]%insert_new_lookup; [congruence|]. apply elem_of_keyed_rows_of in Hv as (did'&d'&Hd'&Heq&Hv).
    by rewrite (id_of_inj did d did' d' Hd Hd' Heq).
  - intros Hv. destruct (insert_new_has es m (id_of t' d, k)) as [w Hw'].
    { right. exists v. apply elem_of_keyed_rows_of. by exists did, d. }
    rewrite Hw'. apply insert_new_lookup in Hw' as [Hw'|[_ Hw']]; [congruence|].
    apply elem_of_keyed_rows_of in Hw' as (did'&d'&Hd'&Heq&Hw'). rewrite <-(id_of_inj did d did' d' Hd Hd' Heq) in Hw'. congruence.
Qed.

Lemma keyed_old (sel : DeployConfig → gomap string) (m : keyed_rows) (id : Z) k : is_Some (deployments t !! id) →
  foldl insert_new m (keyed_rows_of t' sel upd) !! (id, k) = m !! (id, k).
Proof using Hk Hw.
  intros Hid. apply option_eq. intros v. split; [|apply insert_new_keep].
  intros [?|[_ Hv]]%insert_new_lookup; [done|]. apply elem_of_keyed_rows_of in Hv as (did&d&Hd&->&_).
  destruct (id_of_spec did d Hd) as (_&Hold&_). apply Hold in Hid. lia.
Qed.

Lemma elem_of_volume_rows_of id v : (id, v) ∈ volume_rows_of t' upd ↔
  ∃ did d, upd !! did = Some d ∧ id = id_of t' d ∧ Some v ∈ dc_Volumes (d_DeployConfig d).
Proof using.
  unfold volume_rows_of. rewrite list_elem_of_fmap. split.
  - intros ([d v']&[= -> ->]&[[did Hd]%elem_of_values Hv]%elem_of_flat). exists did, d. split_and!; [done|done|].
    unfold volumes_in in Hv. apply list_elem_of_omap in Hv as (o&Ho&Heq). cbn in Heq. by subst o.
  - intros (did&d&Hd&->&Hv). exists (d, v). split; [done|]. apply elem_of_flat.
    split; [apply elem_of_values; by exists did|]. apply list_elem_of_omap. by exists (Some v).
Qed.

Lemma volumes_new did d v : upd !! did = Some d → (id_of t' d, v) ∈ volumes t' ↔ Some v ∈ dc_Volumes (d_DeployConfig d).
Proof using Hk Hw Hwf.
  intros Hd. rewrite (wr_volumes _ _ _ Hw), elem_of_app, elem_of_volume_rows_of. split.
  - intros [Hv|(did'&d'&Hd'&Heq&Hv)]; [|by rewrite (id_of_inj did d did' d' Hd Hd' Heq)].
    apply (wf_volumes _ Hwf) in Hv. apply (id_of_spec did d Hd) in Hv. lia.
  - intros Hv. right. by exists did, d.
Qed.

Lemma volumes_old id v : is_Some (deployments t !! id) → (id, v) ∈ volumes t' ↔ (id, v) ∈ volumes t.
Proof using Hk Hw.
  intros Hid. rewrite (wr_volumes _ _ _ Hw), elem_of_app, elem_of_volume_rows_of. split; [|by left].
  intros [?|(did&d&Hd&->&_)]; [done|]. apply (id_of_spec did d Hd) in Hid. lia.
Qed.
(** *** What counts *)

(** Whether a row belongs to a component in a cluster that was updated. *)
Definition overwritten (dr : deployment_row) : Prop := ∃ did d, upd !! did = Some d ∧ group_of dr = group_of (dep_row Active d).

Lemma live_new did d : upd !! did = Some d → live t' (id_of t' d) (dep_row Active d).
Proof using Hk Hw.
  intros Hd. destruct (id_of_spec did d Hd) as (Hr&_&Hl). split; [done|done|done| |].
  - apply (wr_components _ _ _ Hw). right. by exists did, d.
  - by apply (wr_clusters_new _ _ _ Hw did).
Qed.

Lemma live_kept id dr : live t id dr → ¬ overwritten dr → live t' id dr.
Proof using Hk Hw.
  intros [Hr Hl Ha Hc Hcl] Hno. pose proof (wr_deployments _ _ _ Hw) as Hds.
  assert (deployments t' !! id = Some dr) as Hr' by (rewrite Hds; by apply insert_deployments_keep).
  split; [done| |done|apply (wr_components _ _ _ Hw); by left|by apply (wr_clusters _ _ _ Hw)].
  apply max_id_eq; [exists dr; by apply map_lookup_filter_Some|].
  intros k [r [Hk' [Hrc Hrn]]%map_lookup_filter_Some]. cbn in Hrc, Hrn. rewrite Hds in Hk'.
  destruct (numbered (deployments t) _ (keyed_groups upd Hk)) as [Hin _]. apply Hin in Hk' as [Hk'|[Hk' _]].
  - pose proof (max_id_spec (filter (λ x, same_group (dr_component dr) (dr_cluster dr) x.2) (deployments t))) as Hmax.
    unfold latest in Hl. rewrite Hl in Hmax. apply Hmax. exists r. by apply map_lookup_filter_Some.
  - exfalso. apply Hno. apply list_elem_of_fmap in Hk' as (d&->&[did Hd]%elem_of_values). exists did, d. split; [done|].
    unfold group_of. congruence.
Qed.

Lemma live_written id dr : live t' id dr →
  (∃ did d, upd !! did = Some d ∧ id = id_of t' d ∧ dr = dep_row Active d) ∨ live t id dr ∧ ¬ overwritten dr.
Proof using Hk Hw Hwf.
  intros [Hr Hl Ha Hc Hcl]. pose proof (wr_deployments _ _ _ Hw) as Hds.
  destruct (numbered (deployments t) _ (keyed_groups upd Hk)) as [Hin _]. pose proof Hr as Hr0. rewrite Hds in Hr0.
  apply Hin in Hr0 as [Hr0|[Hr0 _]].
  - right. split.
    + destruct (wf_deployments _ Hwf id dr Hr0) as [Hc0 Hcl0]. split; [done| |done|done|done].
      apply max_id_eq; [exists dr; by apply map_lookup_filter_Some|].
      intros k [r [Hk' Hg]%map_lookup_filter_Some].
      pose proof (max_id_spec (filter (λ x, same_group (dr_component dr) (dr_cluster dr) x.2) (deployments t'))) as Hmax.
      unfold latest in Hl. rewrite Hl in Hmax. apply Hmax. exists r. apply map_lookup_filter_Some. split; [|done].
      rewrite Hds. by apply insert_deployments_keep.
    + intros (did&d&Hd&Hg). destruct (id_of_spec did d Hd) as (_&Hold&Hlast). injection Hg as Hgc Hgn.
      assert (id = id_of t' d) as -> by by eapply latest_unique.
      assert (id_of t' d < id_of t' d); [|lia]. apply Hold. by eexists.
  - left. apply list_elem_of_fmap in Hr0 as (d&->&[did Hd]%elem_of_values). exists did, d. split_and!; [done| |done].
    destruct (id_of_spec did d Hd) as (_&_&Hlast). by eapply latest_unique.
Qed.

(** *** What is stored *)

Lemma stored_map_ext (id : Z) (m m' : keyed_rows) e : (∀ k, m' !! (id, k) = m !! (id, k)) → stored_map id m' e → stored_map id m e.
Proof using. intros Heq [Hn He]. split; [done|]. intros k. by rewrite He. Qed.

Lemma stored_kept id dr spec : is_Some (deployments t !! id) → stored t' id dr spec → stored t id dr spec.
Proof using Hk Hw.
  intros Hid [Hv Hn Hs Hst He Hr Hm Hvol]. split; try done.
  - eapply stored_map_ext; [|exact He]. intros k. rewrite (wr_envs _ _ _ Hw). by apply keyed_old.
  - eapply stored_map_ext; [|exact Hr]. intros k. rewrite (wr_resources _ _ _ Hw). by apply keyed_old.
  - eapply stored_map_ext; [|exact Hm]. intros k. rewrite (wr_metadatas _ _ _ Hw). by apply keyed_old.
  - destruct Hvol as [Hnd Hvol]. split; [done|]. intros v. rewrite Hvol. by setoid_rewrite volumes_old.
Qed.
End Written.

(** ** What is read *)

(** Specs that say the same, but for the order of volumes. *)
Record same_content (spec spec' : DeploySpec) : Prop := {
  sc_version : spec_Version spec = spec_Version spec';
  sc_instances : NumInstances (spec_DeployConfig spec) = NumInstances (spec_DeployConfig spec');
  sc_schedule : Schedule (spec_DeployConfig spec) = Schedule (spec_DeployConfig spec');
  sc_startup : dc_Startup (spec_DeployConfig spec) = dc_Startup (spec_DeployConfig spec');
  sc_env : entries (dc_Env (spec_DeployConfig spec)) = entries (dc_Env (spec_DeployConfig spec'));
  sc_resources : entries (dc_Resources (spec_DeployConfig spec)) = entries (dc_Resources (spec_DeployConfig spec'));
  sc_metadata : entries (dc_Metadata (spec_DeployConfig spec)) = entries (dc_Metadata (spec_DeployConfig spec'));
  sc_volumes v : v ∈ dc_Volumes (spec_DeployConfig spec) ↔ v ∈ dc_Volumes (spec_DeployConfig spec')
}.

Lemma stored_map_entries (id : Z) (m : keyed_rows) e (e' : gmap string string) :
  stored_map id m e → (∀ k, m !! (id, k) = e' !! k) → entries e = e'.
Proof. intros [_ He] Hm. apply map_eq. intros k. by rewrite He. Qed.

Lemma stored_same t id dr spec spec' : stored t id dr spec → stored t id dr spec' → same_content spec spec'.
Proof.
  intros [Hv Hn Hs Hst He Hr Hm [_ Hvol]] [Hv' Hn' Hs' Hst' He' Hr' Hm' [_ Hvol']]. split; try congruence.
  - apply (stored_map_entries _ _ _ _ He). intros k. symmetry. apply He'.
  - apply (stored_map_entries _ _ _ _ Hr). intros k. symmetry. apply Hr'.
  - apply (stored_map_entries _ _ _ _ Hm). intros k. symmetry. apply Hm'.
  - intros v. by rewrite Hvol, Hvol'.
Qed.

Lemma stored_written t upd t' did d spec : wf t → keyed upd → written t upd t' → upd !! did = Some d →
  Semv.wf (sid_Version (d_SourceID d)) → d_volumes_ok d →
  stored t' (id_of t' d) (dep_row Active d) spec → same_content spec (Deployment_DeploySpec d).
Proof.
  intros Hwf Hk Hw Hd Hver Hok [Hv Hn Hs Hst He Hr Hm [_ Hvol]].
  split; cbn [Deployment_DeploySpec spec_Version spec_DeployConfig]; [|done|done|done|..].
  - cbn [versionstring dep_row] in Hv. rewrite (Parse_String _ Hver) in Hv. by injection Hv.
  - apply (stored_map_entries _ _ _ _ He). intros k. rewrite (wr_envs _ _ _ Hw).
    apply (keyed_new t upd t' Hk Hw dc_Env _ did); [apply Hwf|done].
  - apply (stored_map_entries _ _ _ _ Hr). intros k. rewrite (wr_resources _ _ _ Hw).
    apply (keyed_new t upd t' Hk Hw dc_Resources _ did); [apply Hwf|done].
  - apply (stored_map_entries _ _ _ _ Hm). intros k. rewrite (wr_metadatas _ _ _ Hw).
    apply (keyed_new t upd t' Hk Hw dc_Metadata _ did); [apply Hwf|done].
  - intros v. rewrite Hvol. setoid_rewrite (volumes_new t upd t' Hwf Hk Hw did d); [|done]. split; [by intros (w&->&?)|].
    intros Hv'. destruct v as [w|]; [by exists w|]. by apply Hok in Hv'.
Qed.

(** The manifest of a deployment ID, and its spec for the cluster. *)
Definition deployed (s : State) (did : DeploymentID) (m : Manifest) (spec : DeploySpec) : Prop :=
  st_Manifests s !! did_ManifestID did = Some m ∧ m_Deployments m !! did_Cluster did = Some spec.

Lemma expanded_defined defs ms ds : Manifests_Deployments defs ms = Ok ds → map_Forall (λ _, clusters_defined defs) ms.
Proof.
  intros Hds mid m Hm. apply elem_of_map_to_list in Hm.
  revert mid m Hm. apply (rfold_inv (manifests_step defs) (λ dn _, ∀ mid m, (mid, m) ∈ dn → clusters_defined defs m)
    (map_to_list ms) ∅ ds); [by intros mid m ?%elem_of_nil| |exact Hds].
  intros dn [mid0 m0] acc acc' _ HP Hstep mid m [Hin|[= -> ->]%list_elem_of_singleton]%elem_of_app; [by eapply HP|].
  apply DeploymentsFromManifest_ok. unfold manifests_step in Hstep.
  destruct (DeploymentsFromManifest defs m0) as [ds0|] eqn:E; [by exists ds0|done].
Qed.

Lemma deployed_expands s ds did m spec : keyed (st_Manifests s) → State_Deployments s = Ok ds → deployed s did m spec →
  ∃ d, ds !! did = Some d ∧ Kind d = m_Kind m.
Proof.
  intros Hk Hds [Hm Hs]. destruct (expanded_defined _ _ _ Hds _ _ Hm _ _ Hs) as [cluster Hcl].
  exists (BuildDeployment m (did_Cluster did) cluster spec []). split; [|done].
  apply (Manifests_Deployments_spec _ _ _ Hk Hds). exists m. split; [done|]. by exists spec, cluster.
Qed.

Lemma expanded_deployed s ds did d : keyed (st_Manifests s) → State_Deployments s = Ok ds → ds !! did = Some d →
  ∃ m spec, deployed s did m spec ∧ Kind d = m_Kind m.
Proof.
  intros Hk Hds (m&Hm&spec&cluster&Hs&_&->)%(Manifests_Deployments_spec _ _ _ Hk Hds). by exists m, spec.
Qed.

(** ** The round trip *)

Section RoundTrip.
Context `{Postgres} (Hfaults : ∀ n, pg_fault n = None).
Context (t : tables) (cur s : State) (curd new : Deployments).
Context (Hwf : wf t) (Hkinds : kinds_agree t) (Hread : pg_ReadState t = Ok cur) (Hcurd : State_Deployments cur = Ok curd).
Context (Hks : keyed (st_Manifests s)) (Hnew : State_Deployments s = Ok new) (Hvols : deployments_volumes_ok new).
Context (Hversions : ∀ did d, new !! did = Some d → Semv.wf (sid_Version (d_SourceID d))).
Context (Hfits : map_Forall (λ _, deployment_fits) new).
Context (Hkept : ∀ did c, curd !! did = Some c → ∃ d, new !! did = Some d ∧ Kind d = Kind c).

Definition row_did (dr : deployment_row) : DeploymentID := mkDeploymentID (mid_of (dr_component dr)) (dr_cluster dr).

Lemma row_did_group d dr : group_of dr = group_of (dep_row Active d) → row_did dr = Deployment_ID d.
Proof using. intros [= Hc Hn]. unfold row_did, Deployment_ID. by rewrite <-mid_of_comp, Hc, Hn. Qed.

Lemma cur_loaded : loaded (pg_rows _ (manifest_query t)) (st_Manifests cur).
Proof using Hread. by apply pg_ReadState_ok in Hread as (tx&_&_&_&_&_&Hl). Qed.

Lemma live_deployed id dr : live t id dr → ∃ m spec, deployed cur (row_did dr) m spec ∧ m_Kind m = co_kind (dr_component dr) ∧ stored t id dr spec.
Proof using Hread Hkinds.
  intros Hlive. destruct (read_stored t _ _ (pg_rows_perm _ _) cur_loaded id dr Hkinds Hlive) as (m&spec&Hm&Hk&_&Hs&Hst).
  by exists m, spec.
Qed.

Lemma new_keyed : keyed new.
Proof using Hks Hnew. exact (all_described_keyed _ _ _ Hks (Manifests_Deployments_spec _ _ _ Hks Hnew)). Qed.

Lemma new_kind did did' d d' : new !! did = Some d → new !! did' = Some d' → did_ManifestID did = did_ManifestID did' → Kind d = Kind d'.
Proof using Hks Hnew.
  intros Hd Hd' Heq. destruct (expanded_deployed s new did d Hks Hnew Hd) as (m&_&[Hm _]&->).
  destruct (expanded_deployed s new did' d' Hks Hnew Hd') as (m'&_&[Hm' _]&->). rewrite Heq in Hm. congruence.
Qed.

Section After.
Context (upd : Deployments) (Hupd : ∀ did d, upd !! did = Some d ↔ changed curd new did d) (t' : tables) (Hw : written t upd t').

Lemma upd_keyed : keyed upd.
Proof using Hupd Hks Hnew. intros did d [Hd _]%Hupd. by apply new_keyed. Qed.

(** What counts after the writing is of the new deployments. *)
Lemma live_is_new id dr : live t' id dr → ∃ d, new !! row_did dr = Some d ∧ Kind d = co_kind (dr_component dr) ∧
  Semv.wf (sid_Version (d_SourceID d)) ∧ is_ok (Parse (versionstring dr)) = true.
Proof using All.
  intros [(did&d&Hd&->&->)|[Hlive _]]%(live_written t upd t' Hwf upd_keyed Hw).
  - exists d. rewrite (row_did_group d) by done. pose proof (upd_keyed _ _ Hd : Deployment_ID d = did) as ->.
    apply Hupd in Hd as [Hd _]. pose proof (Hversions _ _ Hd) as Hv. split_and!; try done.
    cbn [dep_row versionstring]. by rewrite Parse_String.
  - destruct (live_deployed id dr Hlive) as (m&spec&Hdep&Hk&Hst). apply pg_ReadState_ok in Hread as (_&_&_&_&_&_&Hl).
    destruct (deployed_expands cur curd _ m spec (loaded_keyed _ _ Hl) Hcurd Hdep) as (c&Hc&Hkc).
    destruct (Hkept _ _ Hc) as (d&Hd&Hkd). exists d. split_and!; [done|congruence|by eapply Hversions|].
    by rewrite (sd_version _ _ _ _ Hst).
Qed.

Lemma kinds_agree_written : kinds_agree t'.
Proof using All.
  intros id1 id2 dr1 dr2 (d1&Hd1&<-&_)%live_is_new (d2&Hd2&<-&_)%live_is_new Heq. by eapply new_kind.
Qed.

Lemma not_overwritten dr : upd !! row_did dr = None → ¬ overwritten upd dr.
Proof using Hupd Hks Hnew.
  intros Hn (did&d&Hd&Hg). rewrite (row_did_group _ _ Hg) in Hn. rewrite (upd_keyed _ _ Hd : Deployment_ID d = did) in Hn. congruence.
Qed.

Lemma written_readable : ∃ s', pg_ReadState t' = Ok s'.
Proof using All.
  apply pg_ReadState_ok in Hread as Hr. destruct Hr as (_&_&_&_&_&[s0 Hdefs]&_).
  apply (pg_ReadState_runs Hfaults t' s0).
  - unfold defs_loaded. destruct (wr_defs _ _ _ Hw) as (->&->&->). exact Hdefs.
  - apply Forall_forall. intros r (id&Hlive&_)%elem_of_manifest_query. by destruct (live_is_new _ _ Hlive) as (d&_&_&_&Hp).
Qed.
(** What is read then: the new deployments and nothing else, the changed ones as they
    are to be and the others as they were. *)
Lemma written_read s' : pg_ReadState t' = Ok s' →
  (∀ did m spec, deployed s' did m spec → is_Some (new !! did)) ∧
  ∀ did d, new !! did = Some d → ∃ m spec, deployed s' did m spec ∧ m_Kind m = Kind d ∧
    (changed curd new did d → (∀ o, o ∈ Owners d → o ∈ m_Owners m) ∧ same_content spec (Deployment_DeploySpec d)) ∧
    (¬ changed curd new did d → ∃ m0 spec0, deployed cur did m0 spec0 ∧ same_content spec spec0).
Proof using All.
  intros Hs'. apply pg_ReadState_ok in Hs' as (_&_&_&_&_&_&Hl'). pose proof kinds_agree_written as Hkinds'.
  pose proof upd_keyed as Huk. split.
  - intros did m spec [Hm Hs]. destruct (read_only t' _ _ (pg_rows_perm _ _) Hl' _ _ _ _ Hm Hs) as (id&dr&Hlive&Hmid&Hcn).
    destruct (live_is_new id dr Hlive) as (d&Hd&_). exists d. unfold row_did in Hd. rewrite Hmid, Hcn in Hd. by destruct did.
  - intros did d Hd. destruct (upd !! did) as [d'|] eqn:Hu.
    + assert (d' = d) as -> by (apply Hupd in Hu as [? _]; congruence). pose proof (Huk _ _ Hu : Deployment_ID d = did) as Hid.
      pose proof (live_new t upd t' Huk Hw did d Hu) as Hlive.
      destruct (read_stored t' _ _ (pg_rows_perm _ _) Hl' _ _ Hkinds' Hlive) as (m&spec&Hm&Hk&Ho&Hs&Hst).
      exists m, spec. split_and!; [|exact Hk| |].
      * split; rewrite <-Hid; [|exact Hs]. cbn. by rewrite <-mid_of_comp.
      * intros _. split; [|apply (stored_written t upd t' did d spec Hwf Huk Hw Hu); [by eapply Hversions|by apply (Hvols did)|done]].
        intros o Hod. apply Ho, (wr_owners _ _ _ Hw). right. by exists did, d.
      * intros Hno. exfalso. by apply Hno, Hupd.
    + assert (¬ changed curd new did d) as Hno by (intros Hch%Hupd; congruence).
      destruct (curd !! did) as [c|] eqn:Hc.
      2: { exfalso. apply Hno. split; [done|]. intros c Hc'. congruence. }
      apply pg_ReadState_ok in Hread as Hr. destruct Hr as (_&_&_&_&_&_&Hl).
      destruct (expanded_deployed cur curd did c (loaded_keyed _ _ Hl) Hcurd Hc) as (m0&spec0&[Hm0 Hs0]&Hk0).
      destruct (read_only t _ _ (pg_rows_perm _ _) Hl _ _ _ _ Hm0 Hs0) as (id&dr&Hlive&Hmid&Hcn).
      assert (row_did dr = did) as Hdid by (unfold row_did; rewrite Hmid, Hcn; by destruct did).
      pose proof (live_kept t upd t' Huk Hw id dr Hlive (not_overwritten dr ltac:(by rewrite Hdid))) as Hlive'.
      destruct (read_stored t' _ _ (pg_rows_perm _ _) Hl' _ _ Hkinds' Hlive') as (m&spec&Hm&Hk&_&Hs&Hst).
      destruct (live_is_new id dr Hlive') as (d'&Hd'&Hkd&_). rewrite Hdid in Hd'.
      exists m, spec. split_and!; [|congruence|done|].
      * split; rewrite <-Hdid; done.
      * intros _. exists m0, spec0. split; [done|]. apply (stored_kept t upd t' Huk Hw) in Hst; [|eexists; apply Hlive].
        destruct (live_deployed id dr Hlive) as (m1&spec1&[Hm1 Hs1]&_&Hst1). rewrite Hdid in Hm1, Hs1.
        assert (m1 = m0) as -> by congruence. assert (spec1 = spec0) as -> by congruence. by eapply stored_same.
Qed.
End After.

(** C28.  A state that keeps the deployments that are stored, and their kinds, and whose
    integers have room, is written and read back: the same deployments, those that
    changed with the content they were to have, the others with the content they had;
    and the tables are again as this asks. *)
Theorem pg_round_trip user : ∃ t' s', pg_WriteState s user t = (t', Some None) ∧ pg_ReadState t' = Ok s' ∧
  wf t' ∧ kinds_agree t' ∧
  (∀ did m spec, deployed s' did m spec → is_Some (new !! did)) ∧
  ∀ did d, new !! did = Some d → ∃ m spec, deployed s' did m spec ∧ m_Kind m = Kind d ∧
    (changed curd new did d → (∀ o, o ∈ Owners d → o ∈ m_Owners m) ∧ same_content spec (Deployment_DeploySpec d)) ∧
    (¬ changed curd new did d → ∃ m0 spec0, deployed cur did m0 spec0 ∧ same_content spec spec0).
Proof using All.
  destruct (written_changes t cur curd s new Hread Hcurd Hks Hnew Hvols) as (tx&ch&_&Hst&Hf&Ht&Hu&Hd&Ha&Hcl).
  assert (deletes ch = ∅) as Hdel.
  { apply map_empty. intros did. apply eq_None_not_Some. intros [c [Hc Hn]%Hd]. destruct (Hkept did c Hc) as (d&?&_). congruence. }
  rewrite Hdel, (right_id_L ∅ (∪)) in Ha.
  destruct (insert_changes_runs Hfaults ch tx Hf Hdel Ha) as (t'&(tx'&Hi&Hf'&Ht')&Hw).
  { exact (upd_keyed (updates ch) Hu). } { intros did d [Hin _]%Hu. by apply (Hvols did). }
  { intros did d [Hin _]%Hu. by apply (Hfits did). } { by rewrite <-Ha. }
  rewrite Ht in Hw. destruct (written_readable (updates ch) Hu t' Hw) as [s' Hs'].
  assert (pg_WriteState s user t = (t', Some None)) as Hwrite.
  { unfold pg_WriteState. rewrite Hfaults, Hst, Hi. unfold commit. by rewrite Hf', Hfaults, Ht'. }
  exists t', s'. split_and!; [done|done| |by eapply kinds_agree_written|by eapply written_read..].
  rewrite <-Ht'. eapply insert_changes_wf; [by rewrite Ht|done|done].
Qed.
End RoundTrip.

Lemma sample_version_wf : Semv.wf sample_version.
Proof.
  split; [vm_compute; split; congruence..| | |].
  - apply (bool_decide_unpack _); vm_compute; exact I.
  - apply (bool_decide_unpack _); vm_compute; exact I.
  - vm_compute. reflexivity.
Qed.

Definition expanded_sample : Deployment := BuildDeployment sample_manifest "ci-sf" sample_cluster sample_spec [].

Lemma pg_round_trip_witness : ∃ t' s' m spec,
  pg_WriteState (H:=sample_postgres) sample_state sample_user empty_tables = (t', Some None) ∧
  pg_ReadState (H:=sample_postgres) t' = Ok s' ∧ deployed s' sample_did m spec ∧
  (∀ o, o ∈ Owners expanded_sample → o ∈ m_Owners m) ∧ same_content spec (Deployment_DeploySpec expanded_sample).
Proof.
  assert (match pg_ReadState (H:=sample_postgres) empty_tables with
          | Ok cur => match State_Deployments cur with Ok curd => bool_decide (curd = ∅) | Err _ => false end
          | Err _ => false
          end = true) as Hcur by (vm_compute; reflexivity).
  destruct (pg_ReadState (H:=sample_postgres) empty_tables) as [cur|e] eqn:Hread; [|discriminate].
  destruct (State_Deployments cur) as [curd|e] eqn:Hcurd; [|discriminate]. apply bool_decide_eq_true in Hcur. subst curd.
  set (new := {[sample_did := expanded_sample]} : Deployments).
  assert (State_Deployments sample_state = Ok new) as Hnew.
  { assert (match State_Deployments sample_state with Ok ds => bool_decide (ds = new) | Err _ => false end = true) as Hds
      by (vm_compute; reflexivity).
    destruct (State_Deployments sample_state) as [ds|e]; [|discriminate]. by apply bool_decide_eq_true in Hds as ->. }
  assert (kinds_agree empty_tables) as Hkinds by (intros id1 id2 dr1 dr2 [Hr _ _ _ _]; cbn in Hr; by rewrite lookup_empty in Hr).
  assert (keyed (st_Manifests sample_state)) as Hks by exact sample_manifests_keyed.
  assert (deployments_volumes_ok new) as Hv.
  { intros did d [<- <-]%lookup_singleton_Some. change (volumes_ok [Some sample_volume]). apply volumes_ok_Some. by exists [sample_volume]. }
  assert (∀ did d, new !! did = Some d → Semv.wf (sid_Version (d_SourceID d))) as Hver.
  { intros did d [<- <-]%lookup_singleton_Some. exact sample_version_wf. }
  assert (map_Forall (λ _, deployment_fits) new) as Hfits.
  { intros did d [<- <-]%lookup_singleton_Some. split; [reflexivity|split; reflexivity|intros c [= <-]; split; reflexivity]. }
  assert (∀ did c, (∅ : Deployments) !! did = Some c → ∃ d, new !! did = Some d ∧ Kind d = Kind c) as Hkept.
  { intros did c Hc. by rewrite lookup_empty in Hc. }
  pose proof (pg_round_trip (H:=sample_postgres) (λ _, eq_refl) empty_tables cur sample_state ∅ new
    empty_wf Hkinds Hread Hcurd Hks Hnew Hv Hver Hfits Hkept sample_user) as (t'&s'&Hw&Hr&_&_&_&Hall).
  assert (new !! sample_did = Some expanded_sample) as Hsample by apply lookup_singleton_eq.
  destruct (Hall sample_did expanded_sample Hsample) as (m&spec&Hd&_&Hch&_).
  destruct Hch as [Ho Hc]; [split; [exact Hsample|]; intros c Hc; by rewrite lookup_empty in Hc|].
  exists t', s', m, spec. split_and!; assumption.
Defined.
