(* ===== verification/Whitespace.v ===== *)
(** * White space (util/whitespace)

    Text without white space around it, the words of a text, and text without the
    indentation that its lines share. *)

From S2P Require Import Prelude GoStrings.
#[local] Open Scope string_scope.
#[local] Open Scope Z_scope.
#[local] Open Scope list_scope.

(** ** Trimming and splitting *)

Definition Chars : list ascii := [" "; "009"; "013"; "010"]%char.
Definition is_ws (c : ascii) : bool := bool_decide (c ∈ Chars).

Definition Trim (s : string) : string := trim Chars s.

(** What is between the blocks of white space. *)
Fixpoint Split (s : string) : list string :=
  match s with
  | "" => [""]
  | String.String c s =>
      if is_ws c then
        match s with
        | "" => [""; ""]
        | String.String c' _ => if is_ws c' then Split s else "" :: Split s
        end
      else match Split s with w :: ws => String.String c w :: ws | [] => [String.String c ""] end
  end.

Lemma is_ws_spec c : is_ws c = true ↔ c ∈ Chars.
Proof. apply bool_decide_eq_true. Qed.

Example Split_ex : Split "origin  git@github.com:opentable/sous.git (fetch)" = ["origin"; "git@github.com:opentable/sous.git"; "(fetch)"].
Proof. reflexivity. Qed.

Definition no_ws (s : string) : Prop := Forall (λ c, is_ws c = false) (bytes s).

Lemma Split_word w : no_ws w → Split w = [w].
Proof.
  induction w as [|c w IH]; [done|]. intros [Hc Hw]%Forall_cons. cbn [Split]. rewrite Hc. by rewrite IH.
Qed.

(** Words with white space between them. *)
Lemma Split_cons w c s : no_ws w → is_ws c = true → (∀ c' s', s = String.String c' s' → is_ws c' = false) → s ≠ "" →
  Split (w +:+ String.String c s) = w :: Split s.
Proof.
  intros Hw Hc Hs Hne. induction w as [|x w IH].
  - change ("" +:+ ?x) with x. cbn [Split]. rewrite Hc. destruct s as [|c' s]; [done|]. by rewrite (Hs c' s).
  - apply Forall_cons in Hw as [Hx Hw]. change (Split (String.String x (w +:+ String.String c s)) = String.String x w :: Split s).
    cbn [Split]. by rewrite Hx, IH.
Qed.

(** ** Indentation *)

Definition indent_byte (c : ascii) : bool := bool_decide (c ∈ [" "; "009"; "011"; "010"; "013"]%char).

Fixpoint drop_empty (lines : list string) : list string :=
  match lines with "" :: lines => drop_empty lines | _ => lines end.

(** The lines without one byte of indentation; [None] if one of them begins with another. *)
Fixpoint outdent (indent : ascii) (lines : list string) : option (list string) :=
  match lines with
  | [] => Some []
  | "" :: lines => cons "" <$> outdent indent lines
  | String.String c l :: lines => if bool_decide (c = indent) then cons l <$> outdent indent lines else None
  end.

Definition nl : string := String.String newline "".

(** The loop of [CleanWS].  The outer option is for the fuel, and the inner for the
    panic when no line is left. *)
Fixpoint clean_lines (fuel : nat) (lines : list string) : option (option string) :=
  match fuel with
  | O => None
  | S fuel =>
      let lines := drop_empty lines in
      match lines with
      | String.String indent _ :: _ =>
          if indent_byte indent then
            match outdent indent lines with Some tryLines => clean_lines fuel tryLines | None => Some (Some (join nl lines)) end
          else Some (Some (join nl lines))
      | _ => Some None
      end
  end.

Definition CleanWS (doc : string) : option (option string) :=
  match split_on newline doc with
  | [line] => Some (Some (TrimSpace line))
  | lines => clean_lines (S (String.length doc)) lines
  end.

(** *** What is cleaned *)

(** A line without indentation: all of it, if it is shorter. *)
Fixpoint strip (p l : string) : string :=
  match p, l with String.String _ p, String.String _ l => strip p l | _, _ => l end.
Fixpoint fits (p l : string) : Prop :=
  match p, l with String.String c p, String.String d l => c = d ∧ fits p l | _, _ => True end.

(** No more can be taken away: the first line begins with no white space, or another
    begins otherwise. *)
Definition outdented (lines : list string) : Prop :=
  ∃ c l ls, lines = String.String c l :: ls ∧ (indent_byte c = false ∨ ∃ d l', String.String d l' ∈ ls ∧ d ≠ c).

Definition total (lines : list string) : nat := sum_list (String.length <$> lines).

Lemma drop_empty_total lines : (total (drop_empty lines) ≤ total lines)%nat.
Proof. unfold total. induction lines as [|[|c l] lines IH]; [done|exact IH|done]. Qed.

Lemma outdent_spec indent lines : match outdent indent lines with
  | Some ls => ls = strip (String.String indent "") <$> lines ∧ Forall (fits (String.String indent "")) lines ∧ (total ls ≤ total lines)%nat
  | None => ∃ d l, String.String d l ∈ lines ∧ d ≠ indent
  end.
Proof.
  unfold total. induction lines as [|[|c l] lines IH]; [done| |]; cbn [outdent].
  - destruct (outdent indent lines) as [ls|]; cbn.
    + destruct IH as (->&H1&H2). split_and!; [done|by constructor|exact H2].
    + destruct IH as (d&l&Hin&Hd). exists d, l. split; [by right|done].
  - case_bool_decide as Hc; [subst c|exists c, l; split; [left|done]]. destruct (outdent indent lines) as [ls|]; cbn.
    + destruct IH as (->&H1&H2). split_and!; [by destruct l|constructor; [by split; [|destruct l]|done]|]. lia.
    + destruct IH as (d&l'&Hin&Hd). exists d, l'. split; [by right|done].
Qed.

Lemma strip_nil_map (lines : list string) : strip "" <$> lines = lines.
Proof. induction lines as [|[|c l] lines IH]; [done|..]; by rewrite fmap_cons, IH. Qed.
Lemma fits_nil (lines : list string) : Forall (fits "") lines.
Proof. apply Forall_forall. by intros [|c l] _. Qed.

Lemma strip_cons c p l : fits (String.String c "") l → strip (String.String c p) l = strip p (strip (String.String c "") l).
Proof. destruct l as [|d l]; [by destruct p|]. cbn. by destruct l. Qed.
Lemma fits_cons c p l : fits (String.String c "") l → fits p (strip (String.String c "") l) → fits (String.String c p) l.
Proof. destruct l as [|d l]; [done|]. cbn. intros [-> _] H. split; [done|]. by destruct l. Qed.

Lemma drop_empty_strip p (lines : list string) : drop_empty (strip p <$> lines) = drop_empty (strip p <$> drop_empty lines).
Proof. induction lines as [|[|c l] lines IH]; [done| |done]. destruct p; exact IH. Qed.
Lemma drop_empty_fits p lines : Forall (fits p) (drop_empty lines) → Forall (fits p) lines.
Proof. induction lines as [|[|c l] lines IH]; [done| |done]. intros H. constructor; [by destruct p|by apply IH]. Qed.

(** Some white space that is common to the lines is taken away, and as much of it as
    they share; lines that it is all of are left empty, and the first of them go. *)
Definition cleaned (p : string) (lines : list string) (r : option (option string)) : Prop :=
  let ls := drop_empty (strip p <$> lines) in
  match r with None => False | Some None => ls = [] | Some (Some s) => outdented ls ∧ s = join nl ls end.

Lemma clean_lines_spec fuel lines : (total lines < fuel)%nat →
  ∃ p, Forall (λ c, indent_byte c = true) (bytes p) ∧ Forall (fits p) lines ∧ cleaned p lines (clean_lines fuel lines).
Proof.
  revert lines. induction fuel as [|fuel IH]; intros lines Hf; [lia|]. cbn [clean_lines]. pose proof (drop_empty_total lines) as Ht.
  assert (∀ r, cleaned "" (drop_empty lines) r → ∃ p, Forall (λ c, indent_byte c = true) (bytes p) ∧ Forall (fits p) lines ∧ cleaned p lines r) as H0.
  { intros r Hr. exists "". split_and!; [constructor|apply fits_nil|]. unfold cleaned in *. by rewrite drop_empty_strip. }
  assert (∀ l, drop_empty lines ≠ "" :: l) as Hd.
  { clear. intros l. induction lines as [|[|c x] lines IH]; [done|exact IH|done]. }
  destruct (drop_empty lines) as [|[|c l] ls] eqn:Hl.
  - apply H0. unfold cleaned. done.
  - by destruct (Hd ls).
  - destruct (indent_byte c) eqn:Hc.
    2: { apply H0. unfold cleaned. rewrite strip_nil_map. split; [exists c, l, ls; by auto|done]. }
    pose proof (outdent_spec c (String.String c l :: ls)) as Ho. pose proof (outdent_spec c ls) as Ho'.
    cbn [outdent] in Ho |- *. rewrite bool_decide_eq_true_2 in Ho |- * by done.
    destruct (outdent c ls) as [ts|].
    + change (cons l <$> Some ts) with (Some (l :: ts)) in Ho |- *. destruct Ho as (Heq&Hfit&_). destruct Ho' as (_&_&Hle). destruct (IH (l :: ts)) as (p&Hp&Hpf&Hr).
      { unfold total in *. cbn in Ht |- *. lia. }
      exists (String.String c p). split_and!; [by constructor| |].
      * apply drop_empty_fits. rewrite Hl. rewrite Heq in Hpf. rewrite Forall_fmap in Hpf. rewrite Forall_forall in Hfit, Hpf |- *.
        intros x Hx. apply fits_cons; [by apply Hfit|exact (Hpf x Hx)].
      * unfold cleaned in *. rewrite drop_empty_strip, Hl. rewrite Heq in Hr. rewrite <-list_fmap_compose in Hr.
        assert (strip (String.String c p) <$> String.String c l :: ls = (strip p ∘ strip (String.String c "")) <$> String.String c l :: ls) as ->; [|by rewrite Heq].
        apply list_fmap_ext. intros i x Hx. apply strip_cons. rewrite Forall_lookup in Hfit. by apply (Hfit i).
    + change (cons l <$> None) with (@None (list string)). apply H0. unfold cleaned. rewrite strip_nil_map. split; [|done]. exists c, l, ls. split; [done|]. right.
      destruct Ho' as (d&l'&Hin&Hne). by exists d, l'.
Qed.

Lemma total_split c s : (total (split_on c s) ≤ String.length s)%nat.
Proof.
  unfold total. induction s as [|x s IH]; [done|]. cbn [split_on String.length]. case_decide; [cbn; lia|].
  pose proof (split_on_nonempty c s). destruct (split_on c s) as [|w ws]; [done|]. cbn in IH |- *. lia.
Qed.

(** Cleaning a text of several lines ends, and takes from each of them the white
    space that all begin with, as far as they are long enough; it panics exactly when
    nothing else is left of any. *)
Lemma CleanWS_spec (doc : string) :
  match split_on newline doc with
  | [line] => CleanWS doc = Some (Some (TrimSpace line))
  | lines => ∃ p, Forall (λ c, indent_byte c = true) (bytes p) ∧ Forall (fits p) lines ∧ cleaned p lines (CleanWS doc)
  end.
Proof.
  unfold CleanWS. pose proof (total_split newline doc) as Ht. destruct (split_on newline doc) as [|l1 [|l2 ls]]; [|done|];
    apply clean_lines_spec; lia.
Qed.

Example CleanWS_ex : CleanWS (nl +:+ "    a" +:+ nl +:+ nl +:+ "      b" +:+ nl +:+ "    ") = Some (Some ("a" +:+ nl +:+ nl +:+ "  b" +:+ nl)).
Proof. reflexivity. Qed.
(** Lines of nothing but white space. *)
Lemma CleanWS_panics : CleanWS ("  " +:+ nl +:+ " ") = Some None.
Proof. reflexivity. Qed.
