(* ===== verification/FirstErr.v ===== *)
(** * The first error of several functions (util/firsterr)

    Functions that run in turn, and functions that run in goroutines of their own:
    those of a parallel run act on variables that they share, in any order, and send
    their errors on a channel without a buffer, which the caller receives from once. *)

From S2P Require Import Prelude.
#[local] Open Scope nat_scope.
#[local] Open Scope list_scope.

Section FirstErr.
Context {W E : Type}.
Abbreviation func := (W → W * option E).

(** ** In turn *)

Fixpoint S_Set (fs : list func) (w : W) : W * option E :=
  match fs with
  | [] => (w, None)
  | f :: fs => match f w with (w, Some e) => (w, Some e) | (w, None) => S_Set fs w end
  end.

(** ** In parallel *)

Inductive goroutine : Type := Running | Sending (e : E) | Finished.

(** The variables, the goroutines, and what the caller returned, if it did. *)
Record par := mkPar { vars : W; gos : list goroutine; returned : option (option E) }.

(** [pinit], and a goroutine for each function. *)
Definition P_start (fs : list func) (w : W) : par := mkPar w (replicate (length fs) Running) None.

(** A function runs; the caller receives an error, and the goroutine is done; the
    channel is closed when all are, so that the caller receives nil. *)
Inductive action : Type := Run (i : nat) | Receive (i : nat) | Close.

Definition finished (g : goroutine) : bool := match g with Finished => true | _ => false end.

Definition P_act (fs : list func) (a : action) (p : par) : option par :=
  match a with
  | Run i =>
      match gos p !! i, fs !! i with
      | Some Running, Some f =>
          let '(w, e) := f (vars p) in
          Some (mkPar w (<[i := match e with Some e => Sending e | None => Finished end]> (gos p)) (returned p))
      | _, _ => None
      end
  | Receive i =>
      match returned p, gos p !! i with
      | None, Some (Sending e) => Some (mkPar (vars p) (<[i := Finished]> (gos p)) (Some (Some e)))
      | _, _ => None
      end
  | Close =>
      match returned p with
      | None => if forallb finished (gos p) then Some (mkPar (vars p) (gos p) (Some None)) else None
      | Some _ => None
      end
  end.

Fixpoint P_run (fs : list func) (l : list action) (p : par) : option par :=
  match l with
  | [] => Some p
  | a :: l => match P_act fs a p with Some p => P_run fs l p | None => None end
  end.

(** ** Lemmas: running *)

Lemma P_run_app fs l1 l2 p : P_run fs (l1 ++ l2) p = match P_run fs l1 p with Some p => P_run fs l2 p | None => None end.
Proof using. revert p. induction l1 as [|a l1 IH]; intros p; [done|]. cbn. destruct (P_act fs a p); [apply IH|done]. Qed.

(** An invariant of every run. *)
Lemma P_run_inv fs (I : list action → par → Prop) l p q :
  I [] p → (∀ dn a p p', I dn p → P_act fs a p = Some p' → I (dn ++ [a]) p') → P_run fs l p = Some q → I l q.
Proof using.
  intros H0 Hstep. revert q. induction l as [|a l IH] using rev_ind; intros q.
  - by intros [= <-].
  - rewrite P_run_app. destruct (P_run fs l p) as [p'|] eqn:Hl; [|done]. cbn.
    destruct (P_act fs a p') as [p''|] eqn:Ha; [|done]. intros [= <-]. apply (Hstep l a p'); [by apply IH|done].
Qed.

(** *** Ends *)

Definition weight (g : goroutine) : nat := match g with Running => 2 | Sending _ => 1 | Finished => 0 end.
Definition measure (p : par) : nat := sum_list (weight <$> gos p) + match returned p with None => 1 | Some _ => 0 end.

Lemma weight_insert (l : list goroutine) i g g' : l !! i = Some g →
  sum_list (weight <$> <[i := g']> l) + weight g = sum_list (weight <$> l) + weight g'.
Proof using.
  revert i. induction l as [|x l IH]; intros [|i] Hi; simplify_eq/=; [lia|]. specialize (IH i Hi). lia.
Qed.

Lemma P_act_measure fs a p p' : P_act fs a p = Some p' → measure p' < measure p.
Proof using.
  destruct a as [i|i|]; cbn [P_act].
  - destruct (gos p !! i) as [[| |]|] eqn:Hg; try done. destruct (fs !! i); [|done]. destruct (_ (vars p)) as [w e].
    intros [= <-]. unfold measure. cbn [gos returned].
    pose proof (weight_insert (gos p) i Running (match e with Some e => Sending e | None => Finished end) Hg) as Hw.
    cbn [weight] in Hw. destruct e; cbn [weight] in Hw; lia.
  - destruct (returned p) eqn:Hr; [done|]. destruct (gos p !! i) as [[| |]|] eqn:Hg; try done. intros [= <-].
    unfold measure. cbn [gos returned]. rewrite Hr. pose proof (weight_insert (gos p) i _ Finished Hg) as Hw. cbn [weight] in Hw. lia.
  - destruct (returned p) eqn:Hr; [done|]. destruct (forallb _ _); [|done]. intros [= <-].
    unfold measure. cbn [gos returned]. rewrite Hr. lia.
Qed.

Lemma P_run_measure fs l p q : P_run fs l p = Some q → length l + measure q ≤ measure p.
Proof using.
  revert p. induction l as [|a l IH]; intros p; cbn; [intros [= <-]; lia|].
  destruct (P_act fs a p) as [p'|] eqn:Ha; [|done]. intros Hl%IH. apply P_act_measure in Ha. lia.
Qed.

Lemma measure_start fs w : measure (P_start fs w) = 2 * length fs + 1.
Proof using.
  unfold measure, P_start. cbn [gos returned]. f_equal. induction fs as [|f fs IH]; [done|]. cbn. lia.
Qed.

Lemma P_gos_length fs l w p : P_run fs l (P_start fs w) = Some p → length (gos p) = length fs.
Proof using.
  apply (P_run_inv fs (λ _ p, length (gos p) = length fs)); [by cbn; rewrite length_replicate|].
  intros _ a p1 p2 Hp. destruct a as [i|i|]; cbn [P_act].
  - destruct (gos p1 !! i) as [[| |]|]; try done. destruct (fs !! i); [|done]. destruct (_ (vars p1)). intros [= <-]. cbn. by rewrite length_insert.
  - destruct (returned p1); [done|]. destruct (gos p1 !! i) as [[| |]|]; try done. intros [= <-]. cbn. by rewrite length_insert.
  - destruct (returned p1); [done|]. destruct (forallb _ _); [|done]. by intros [= <-].
Qed.

(** Nothing is stuck before the caller has returned. *)
Lemma P_progress fs p : length (gos p) = length fs → returned p = None → ∃ a p', P_act fs a p = Some p'.
Proof using.
  intros Hlen Hr. destruct (forallb finished (gos p)) eqn:Hf.
  { exists Close. eexists. cbn. by rewrite Hr, Hf. }
  assert (¬ Forall (λ g, finished g = true) (gos p)) as Hg.
  { intros Hall. apply not_true_iff_false in Hf. apply Hf, forallb_forall. intros g Hg%list_elem_of_In.
    rewrite Forall_forall in Hall. by apply Hall. }
  apply not_Forall_Exists in Hg; [|intros g; apply _]. apply Exists_exists in Hg as (g&Hin&Hg).
  apply list_elem_of_lookup in Hin as [i Hi].
  destruct g as [|e|]; [| |by destruct Hg].
  - assert (is_Some (fs !! i)) as [f Hfi] by (apply lookup_lt_is_Some; rewrite <-Hlen; by eapply lookup_lt_Some).
    exists (Run i). cbn. rewrite Hi, Hfi. destruct (f (vars p)). by eexists.
  - exists (Receive i). cbn. rewrite Hr, Hi. by eexists.
Qed.

(** *** Results *)

(** The functions run one after the other, in some order: the variables then, and the
    errors. *)
Fixpoint trace (fs : list func) (order : list nat) (w : W) : W * list E :=
  match order with
  | [] => (w, [])
  | i :: order =>
      match fs !! i with
      | Some f => let '(w, e) := f w in let '(w, es) := trace fs order w in (w, option_list e ++ es)
      | None => trace fs order w
      end
  end.

Lemma trace_snoc fs order i f w : fs !! i = Some f →
  trace fs (order ++ [i]) w =
    let '(w1, es) := trace fs order w in let '(w2, e) := f w1 in (w2, es ++ option_list e).
Proof using.
  intros Hf. revert w. induction order as [|j order IH]; intros w; cbn.
  - rewrite Hf. destruct (f w) as [w2 e]. by rewrite app_nil_r.
  - destruct (fs !! j) as [g|]; [|apply IH]. destruct (g w) as [w1 e]. rewrite IH.
    destruct (trace fs order w1) as [w2 es]. destruct (f w2) as [w3 e3]. by rewrite (assoc_L (++)).
Qed.

Definition unsent (g : goroutine) : option E := match g with Sending e => Some e | _ => None end.
Definition received (p : par) : list E := match returned p with Some (Some e) => [e] | _ => [] end.

Lemma omap_insert_perm {A B} (f : A → option B) (l : list A) i x y : l !! i = Some x →
  option_list (f x) ++ omap f (<[i := y]> l) ≡ₚ option_list (f y) ++ omap f l.
Proof using.
  revert i. induction l as [|z l IH]; intros [|i] Hi; simplify_eq/=.
  - destruct (f x), (f y); cbn; [constructor|done..].
  - specialize (IH i Hi). destruct (f z); [|done]. rewrite <-!Permutation_middle. by constructor.
Qed.

(** What the goroutines have done so far. *)
Record progress (fs : list func) (w : W) (p : par) (order : list nat) (es : list E) : Prop := {
  pr_trace : trace fs order w = (vars p, es);
  pr_nodup : NoDup order;
  pr_ran i : i ∈ order ↔ ∃ g, gos p !! i = Some g ∧ g ≠ Running;
  pr_errors : es ≡ₚ received p ++ omap unsent (gos p);
  pr_nil : returned p = Some None → Forall (λ g, g = Finished) (gos p)
}.

Lemma P_progress_of fs w l p : P_run fs l (P_start fs w) = Some p → ∃ order es, progress fs w p order es.
Proof using.
  apply (P_run_inv fs (λ _ p, ∃ order es, progress fs w p order es)).
  { exists [], []. split; cbn [vars gos returned received P_start]; [done|constructor| | |done].
    - intros i. split; [by intros ?%elem_of_nil|]. intros (g&[-> _]%lookup_replicate&?). done.
    - unfold received. cbn. induction (length fs); done. }
  intros _ a p1 p2 (order&es&[Ht Hnd Hran Hes Hnil]). destruct a as [i|i|]; cbn [P_act].
  - destruct (gos p1 !! i) as [[| |]|] eqn:Hg; try done. destruct (fs !! i) as [f|] eqn:Hf; [|done].
    destruct (f (vars p1)) as [w2 e] eqn:Hfw. intros [= <-].
    exists (order ++ [i]), (es ++ option_list e). split; cbn [vars gos returned].
    + by rewrite (trace_snoc fs order i f w Hf), Ht, Hfw.
    + apply NoDup_app. split_and!; [done| |apply NoDup_singleton]. intros j (g&Hj&Hne)%Hran ->%list_elem_of_singleton. congruence.
    + intros j. rewrite elem_of_app, list_elem_of_singleton, Hran. split.
      * intros [(g&Hj&Hne)| ->].
        -- exists g. split; [|done]. rewrite list_lookup_insert_ne; [done|]. intros ->. congruence.
        -- eexists. rewrite list_lookup_insert_eq by by eapply lookup_lt_Some. split; [done|by destruct e].
      * intros (g&Hj&Hne). destruct (decide (i = j)) as [->|Hij]; [by right|]. left. exists g.
        by rewrite list_lookup_insert_ne in Hj.
    + unfold received in *. cbn [returned].
      pose proof (omap_insert_perm unsent (gos p1) i Running (match e with Some e => Sending e | None => Finished end) Hg) as Hp.
      cbn [unsent option_list app] in Hp. rewrite Hp, Hes.
      destruct e as [e|]; cbn [unsent option_list app]; [|by rewrite app_nil_r]. rewrite <-(assoc_L (++)). apply Permutation_app_head. by rewrite (Permutation_app_comm _ [e]).
    + intros Hr%Hnil. rewrite Forall_lookup in Hr. apply Hr in Hg. done.
  - destruct (returned p1) eqn:Hr; [done|]. destruct (gos p1 !! i) as [[|e|]|] eqn:Hg; try done. intros [= <-].
    exists order, es. split; cbn [vars gos returned]; [done|done| | |done].
    + intros j. rewrite Hran. destruct (decide (i = j)) as [->|Hij]; [|by rewrite list_lookup_insert_ne].
      rewrite Hg, list_lookup_insert_eq by by eapply lookup_lt_Some. naive_solver.
    + unfold received in *. cbn [returned]. rewrite Hr in Hes.
      pose proof (omap_insert_perm unsent (gos p1) i (Sending e) Finished Hg) as Hp. cbn [unsent option_list app] in Hp.
      by rewrite Hes, Hp.
  - destruct (returned p1) eqn:Hr; [done|]. destruct (forallb _ _) eqn:Hfin; [|done]. intros [= <-].
    exists order, es. split; cbn [vars gos returned]; [done|done|done| |].
    + unfold received in *. by rewrite Hr in Hes.
    + intros _. rewrite forallb_forall in Hfin. apply Forall_forall. intros g Hg%list_elem_of_In%Hfin. by destruct g.
Qed.

Lemma P_act_returned fs a p p' r : P_act fs a p = Some p' → returned p = Some r → returned p' = Some r.
Proof using.
  destruct a as [i|i|]; cbn [P_act]; intros Ha Hr.
  - destruct (gos p !! i) as [[| |]|]; try done. destruct (fs !! i); [|done]. destruct (_ (vars p)). by injection Ha as <-.
  - by rewrite Hr in Ha.
  - by rewrite Hr in Ha.
Qed.

Lemma all_ran fs w p order es : length (gos p) = length fs → progress fs w p order es →
  (∀ i, gos p !! i ≠ Some Running) → order ≡ₚ seq 0 (length fs).
Proof using.
  intros Hlen Hp Hran. apply NoDup_Permutation; [apply Hp|apply NoDup_seq|]. intros i. rewrite (pr_ran _ _ _ _ _ Hp), elem_of_seq. split.
  - intros (g&Hi&_). apply lookup_lt_Some in Hi. lia.
  - intros [_ Hi]. destruct (lookup_lt_is_Some_2 (gos p) i) as [g Hg]; [lia|]. exists g. split; [done|]. intros ->. by apply (Hran i).
Qed.

(** C33.  However the goroutines of a parallel run are scheduled, they end after a bounded
    number of steps; the caller has returned then, nil if none of the functions failed
    and otherwise the error of one of them, which it keeps; and the goroutines of all
    the others that failed are blocked for ever. *)
Theorem P_Set_ends (fs : list func) (w : W) (l : list action) (p : par) :
  P_run fs l (P_start fs w) = Some p →
  length l ≤ 2 * length fs + 1 ∧
  (∀ r a p', returned p = Some r → P_act fs a p = Some p' → returned p' = Some r) ∧
  ((∀ a, P_act fs a p = None) → ∃ order es, order ≡ₚ seq 0 (length fs) ∧ trace fs order w = (vars p, es) ∧
    (es = [] ∧ returned p = Some None ∨ ∃ e, e ∈ es ∧ returned p = Some (Some e)) ∧
    length (omap unsent (gos p)) = length es - 1).
Proof using.
  intros Hl. pose proof (P_gos_length _ _ _ _ Hl) as Hlen. split; [|split].
  - pose proof (P_run_measure _ _ _ _ Hl) as Hm. rewrite measure_start in Hm. lia.
  - intros r a p' Hr Ha. by eapply P_act_returned.
  - intros Hstuck. destruct (P_progress_of _ _ _ _ Hl) as (order&es&Hp). exists order, es.
    assert (∀ i, gos p !! i ≠ Some Running) as Hran.
    { intros i Hi. destruct (lookup_lt_is_Some_2 fs i) as [f Hf]; [rewrite <-Hlen; by eapply lookup_lt_Some|].
      specialize (Hstuck (Run i)). cbn in Hstuck. rewrite Hi, Hf in Hstuck. by destruct (f (vars p)). }
    destruct (returned p) as [r|] eqn:Hr.
    2: { destruct (P_progress fs p Hlen Hr) as (a&p'&Ha). by rewrite Hstuck in Ha. }
    pose proof (pr_errors _ _ _ _ _ Hp) as Hes. unfold received in Hes. rewrite Hr in Hes.
    split_and!; [by eapply all_ran|apply Hp| |].
    + destruct r as [e|]; [right; exists e; split; [rewrite Hes; by left|done]|]. left. split; [|done].
      apply Permutation_nil_r. rewrite Hes. cbn [app]. pose proof (pr_nil _ _ _ _ _ Hp Hr) as Hall. clear -Hall.
      induction Hall as [|g gs -> Hall IH]; [done|exact IH].
    + rewrite Hes. destruct r as [e|]; cbn [app length]; [lia|].
      pose proof (pr_nil _ _ _ _ _ Hp Hr) as Hall. clear -Hall. induction Hall as [|g gs -> Hall IH]; [done|exact IH].
Qed.

(** *** Functions of variables of their own *)

(** Functions whose errors do not depend on the variables, and whose effects on them
    commute: in parallel they do what they do in turn. *)
Record independent (fs : list func) (gs : list ((W → W) * option E)) : Prop := {
  in_funcs : Forall2 (λ f g, ∀ w, f w = (g.1 w, g.2)) fs gs;
  in_commute g h w : g ∈ gs.*1 → h ∈ gs.*1 → g (h w) = h (g w)
}.

Definition effects (gs : list ((W → W) * option E)) (w : W) : W := foldl (λ w g, g.1 w) w gs.

Lemma effects_perm gs gs' w : gs ≡ₚ gs' → (∀ g h w, g ∈ gs.*1 → h ∈ gs.*1 → g (h w) = h (g w)) → effects gs w = effects gs' w.
Proof using.
  intros Hp. revert w. induction Hp as [|x l l' Hp IH|x y l|l1 l2 l3 Hp1 IH1 Hp2 IH2]; intros w Hc.
  - done.
  - apply IH. intros g h w' Hg Hh. apply Hc; by right.
  - cbn. f_equal. apply Hc; [right; left|left].
  - rewrite IH1 by done. apply IH2. intros g h w'. rewrite <-Hp1. apply Hc.
Qed.

Lemma trace_independent fs gs order w : Forall2 (λ f g, ∀ w, f w = (g.1 w, g.2)) fs gs →
  trace fs order w = (effects (omap (gs !!.) order) w, omap snd (omap (gs !!.) order)).
Proof using.
  intros Hfs. revert w. induction order as [|i order IH]; intros w; [done|]. cbn [trace omap list_omap].
  destruct (fs !! i) as [f|] eqn:Hf.
  - destruct (Forall2_lookup_l _ _ _ _ _ Hfs Hf) as (g&Hg&Hfg). rewrite Hfg, Hg, IH. cbn [effects foldl omap list_omap].
    by destruct (g.2).
  - assert (gs !! i = None) as ->; [|apply IH]. apply lookup_ge_None. rewrite <-(Forall2_length _ _ _ Hfs). by apply lookup_ge_None.
Qed.

Lemma omap_of_fmap {A B C} (f : A → B) (g : B → option C) (l : list A) : omap g (f <$> l) = omap (g ∘ f) l.
Proof using. induction l as [|x l IH]; [done|]. cbn. by rewrite IH. Qed.

Lemma omap_lookup_seq {A} (l : list A) : omap (l !!.) (seq 0 (length l)) = l.
Proof using.
  induction l as [|x l IH]; [done|]. cbn [length seq omap list_omap lookup]. cbn [list_lookup]. f_equal.
  rewrite <-fmap_S_seq, omap_of_fmap. exact IH.
Qed.

Lemma S_Set_independent fs gs w : Forall2 (λ f g, ∀ w, f w = (g.1 w, g.2)) fs gs →
  (omap snd gs = [] → S_Set fs w = (effects gs w, None)) ∧ (S_Set fs w).2 = head (omap snd gs).
Proof using.
  intros Hfs. revert w. induction Hfs as [|f g fs gs Hf Hfs IH]; intros w; [done|]. cbn [S_Set omap list_omap].
  rewrite Hf. destruct (g.2) as [e|]; cbn; [done|]. apply IH.
Qed.

(** What a parallel run of them has done when the caller returns nil, and what it
    returns otherwise. *)
Lemma P_independent fs gs w l p r : independent fs gs → P_run fs l (P_start fs w) = Some p → returned p = Some r →
  match r with None => S_Set fs w = (vars p, None) | Some e => e ∈ omap snd gs end.
Proof using.
  intros [Hfs Hc] Hl Hr. pose proof (P_gos_length _ _ _ _ Hl) as Hlen.
  destruct (P_progress_of _ _ _ _ Hl) as (order&es&Hp). pose proof (pr_trace _ _ _ _ _ Hp) as Ht.
  rewrite (trace_independent fs gs order w Hfs) in Ht. injection Ht as Hv Hes.
  pose proof (pr_errors _ _ _ _ _ Hp) as He. unfold received in He. rewrite Hr in He. destruct r as [e|].
  - assert (e ∈ es) as Hin by (rewrite He; by left). rewrite <-Hes in Hin. apply list_elem_of_omap in Hin as (g&Hg&Hge).
    apply list_elem_of_omap in Hg as (i&_&Hi). apply list_elem_of_omap. exists g. split; [by eapply list_elem_of_lookup_2|done].
  - pose proof (pr_nil _ _ _ _ _ Hp Hr) as Hfin.
    assert (order ≡ₚ seq 0 (length gs)) as Ho.
    { rewrite <-(Forall2_length _ _ _ Hfs). apply (all_ran fs w p order es Hlen Hp). intros i Hi. rewrite Forall_lookup in Hfin. by apply Hfin in Hi. }
    assert (omap (gs !!.) order ≡ₚ gs) as Hgs by (rewrite Ho, omap_lookup_seq; done).
    assert (omap snd gs = []) as Hnil.
    { apply Permutation_nil_r. rewrite <-Hgs, Hes, He. cbn [app]. clear -Hfin. induction Hfin as [|g gs -> Hall IH]; [done|exact IH]. }
    destruct (S_Set_independent fs gs w Hfs) as [-> _]; [|done]. f_equal. rewrite <-Hv. symmetry. apply effects_perm; [done|].
    intros g h w'. rewrite Hgs. apply Hc.
Qed.

End FirstErr.

(** Two functions that fail, of three: one of the two errors is never received. *)
Lemma P_Set_ends_witness :
  let fs := [λ w : list nat, (0 :: w, Some true); λ w, (1 :: w, None); λ w, (2 :: w, Some false)] in
  ∃ p, P_run fs [Run 2; Receive 2; Run 0; Run 1] (P_start fs []) = Some p ∧ returned p = Some (Some false) ∧
    ∃ order es, order ≡ₚ seq 0 3 ∧ trace fs order [] = (vars p, es) ∧ length (omap unsent (gos p)) = length es - 1.
Proof.
  intros fs. eexists (mkPar [1; 0; 2] [Sending true; Finished; Finished] (Some (Some false))).
  split; [reflexivity|]. split; [reflexivity|].
  destruct (P_Set_ends fs [] [Run 2; Receive 2; Run 0; Run 1] (mkPar [1; 0; 2] [Sending true; Finished; Finished] (Some (Some false))) eq_refl)
    as (_&_&Hend).
  destruct Hend as (order&es&Ho&Ht&_&Hn).
  - intros [[|[|[|i]]]|i|]; reflexivity.
  - exists order, es. split; [exact Ho|]. split; [exact Ht|exact Hn].
Defined.
