(* ===== verification/Shell.v ===== *)
(** * Commands of a shell (util/shell: command.go, output.go, sh.go)

    A shell has a directory, and runs commands there.  What the system makes of a
    command is the class [System]; this file is about what becomes of its output and
    of its exit code. *)

From S2P Require Import Prelude GoStrings GoPath Flaw Builds Whitespace.
#[local] Open Scope string_scope.
#[local] Open Scope Z_scope.
#[local] Open Scope list_scope.

(** ** Commands *)

(** A command without its input, and without the writers that echo it and its output. *)
Record Command := mkCommand { cmd_Dir : string; cmd_Name : string; cmd_Args : list string }.
#[export] Instance Command_eq_dec : EqDecision Command.
Proof. solve_decision. Defined.

(** How a process ended: with a status, by a signal, or with an error of its pipes. *)
Inductive ending : Type := Exited (code : Z) | Killed | Broken (e : text).

Record process := mkProcess { p_stdout : string; p_stderr : string; p_combined : string; p_end : ending }.

(** What becomes of a command, or why it does not start; what [os.Stat] says of a path:
    [None] an error, else whether it is a directory.  The system is one that nothing
    changes meanwhile. *)
Class System := {
  sys_exec : Command → result text process;
  sys_stat : string → option bool;
  sys_links : string → option string
}.

Record Result := mkResult {
  r_Command : Command;
  r_Stdout : string;
  r_Stderr : string;
  r_Combined : string;
  r_Err : option text;
  r_ExitCode : Z
}.

Inductive shell_error : Type :=
| NotStarted (c : Command) (e : text)
| CommandFailed (err : text) (r : Result)
| CommandSucceeded (c : Command).

(** The output of a result, trimmed. *)
Definition Output_String (out : string) : string := Trim out.

Definition Command_String (c : Command) : string := cmd_Name c +:+ " " +:+ join " " (cmd_Args c).

(** [errors.Wrapf(err, c.String())]: the command is the format. *)
Definition wrapf (c : Command) (e : text) : text := errorf "%s: %s" [AText (errorf (Command_String c) []); AText e].

(** The error of waiting, and the exit code. *)
Definition wait (e : ending) : option text * Z :=
  match e with
  | Exited 0 => (None, 0)
  | Exited code => (Some (errorf "exit status %d" [AInt code]), code)
  | Killed => (Some (Lit "signal: killed"), -1)
  | Broken e => (Some e, -1)
  end.

(** What is printed of the error of a command that has run. *)
Definition Error_String (err : text) (r : Result) : text :=
  let nl := String.String newline "" in
  errorf ("shell> %s" +:+ nl +:+ "%s" +:+ nl +:+ "command failed: %s") [AStr (Command_String (r_Command r)); AStr (Output_String (r_Combined r)); AText err].

Section Commands.
Context `{System}.

Definition Command_Result (c : Command) : result shell_error Result :=
  match sys_exec c with
  | Err e => Err (NotStarted c e)
  | Ok p => let '(err, code) := wait (p_end p) in Ok (mkResult c (p_stdout p) (p_stderr p) (p_combined p) (wrapf c <$> err) code)
  end.

Definition SucceedResult (c : Command) : result shell_error Result :=
  r ← Command_Result c;
  match r_Err r with Some e => Err (CommandFailed e r) | None => Ok r end.

Definition FailResult (c : Command) : result shell_error Result :=
  r ← Command_Result c;
  match r_Err r with Some _ => Ok r | None => Err (CommandSucceeded c) end.

Definition Succeed (c : Command) : option shell_error := match SucceedResult c with Ok _ => None | Err e => Some e end.
Definition Command_Fail (c : Command) : option shell_error := match FailResult c with Ok _ => None | Err e => Some e end.

Definition Output_Lines (out : string) : list string := Trim <$> split_on newline (Output_String out).
Definition Output_Table (out : string) : list (list string) := Split <$> Output_Lines out.

Definition Stdout (c : Command) : result shell_error string := r ← SucceedResult c; Ok (Output_String (r_Stdout r)).
Definition Stderr (c : Command) : result shell_error string := r ← Command_Result c; Ok (Output_String (r_Stderr r)).
Definition ExitCode (c : Command) : Z * option shell_error :=
  match Command_Result c with Ok r => (r_ExitCode r, None) | Err e => (-1, Some e) end.

Definition Lines (c : Command) : result shell_error (list string) :=
  stdout ← Stdout c;
  Ok (filter (λ l, l ≠ "") (Trim <$> split_on newline stdout)).
Definition Table (c : Command) : result shell_error (list (list string)) := r ← SucceedResult c; Ok (Output_Table (r_Stdout r)).

(** *** A shell *)

(** The environment of a shell is not that of its commands. *)
Definition Sh_Dir (s : Sh) : string := Cwd s.
Definition Cmd (s : Sh) (name : string) (args : list string) : Command := mkCommand (Sh_Dir s) name args.
(** A shell in the working directory, if there is one, and one in another. *)
Definition Default (getwd : result text string) : result text Sh :=
  match getwd with Err _ => Err (errorf "sh default workdir" []) | Ok wd => Ok (mkSh wd) end.
Definition DefaultInDir (path : string) : Sh * option text := CD sys_stat path (mkSh "").
Definition Sh_Clone (s : Sh) : Sh := mkSh (Cwd s).
Definition Sh_Stat (s : Sh) (path : string) : option bool := sys_stat (Abs s path).
Definition Exists_ (s : Sh) (path : string) : bool := bool_decide (is_Some (Sh_Stat s path)).
Definition Run (s : Sh) (name : string) (args : list string) : option shell_error := Succeed (Cmd s name args).
Definition Sh_Stdout (s : Sh) (name : string) (args : list string) : result shell_error string := Stdout (Cmd s name args).
Definition Sh_Stderr (s : Sh) (name : string) (args : list string) : result shell_error string := Stderr (Cmd s name args).
Definition Sh_ExitCode (s : Sh) (name : string) (args : list string) : Z * option shell_error := ExitCode (Cmd s name args).
Definition Sh_Lines (s : Sh) (name : string) (args : list string) : result shell_error (list string) := Lines (Cmd s name args).

End Commands.

(** ** Lemmas *)

(** Nothing is one empty row of one empty cell, and not no rows. *)
Lemma Output_Table_empty out : Trim out = "" → Output_Table out = [[""]].
Proof. intros Ho. unfold Output_Table, Output_Lines, Output_String. by rewrite Ho. Qed.
