(* ===== verification/Git.v ===== *)
(** * Source contexts from git (ext/git: client.go, remote.go, repo.go, context.go;
    graph/graph.go)

    What the client makes of the output of git: tags, remotes, and the source context
    that is put together of several commands, run in parallel. *)

From S2P Require Import Prelude GoStrings GoPath Flaw Semv Ids ResolveFilter Builds.
From S2P Require Import Whitespace FirstErr Shell UrlParse.
#[local] Open Scope string_scope.
#[local] Open Scope Z_scope.
#[local] Open Scope list_scope.

(** ** Remotes *)

Record Remote := mkRemote { Remote_Name : string; PushURL : string; FetchURL : string }.
Abbreviation Remotes := (gmap string Remote).

(** The name is only that of the map: the field is never set. *)
Definition ensureExists (rs : Remotes) (name : string) : Remote := default (mkRemote "" "" "") (rs !! name).
Definition AddFetch (name url : string) (rs : Remotes) : Remotes :=
  let r := ensureExists rs name in <[name := mkRemote (Remote_Name r) (PushURL r) url]> rs.
Definition AddPush (name url : string) (rs : Remotes) : Remotes :=
  let r := ensureExists rs name in <[name := mkRemote (Remote_Name r) url (FetchURL r)]> rs.

Definition trim_suffix (s suffix : string) : string :=
  let n := (String.length s - String.length suffix)%nat in
  if bool_decide ((String.length suffix ≤ String.length s)%nat ∧ str_drop n s = suffix) then str_take n s else s.

Definition contains (c : ascii) (s : string) : bool := negb (lacks c s).

Inductive url_error : Type := NotURL (repoURL : string) | Unparseable (repoURL : string).

Definition CanonicalRepoURL (repoURL : string) : result url_error string :=
  let repoURL := if has_prefix repoURL "git@" then "ssh://" +:+ repoURL else repoURL in
  match UrlParse.Parse repoURL with
  | None => Err (NotURL repoURL)
  | Some u =>
      let '(host, dir) := (u_Host u, u_Path u) in
      host ← (if bool_decide (host = "") && negb (contains ":" dir)
              then match split2 "/" dir with [p; _] => Ok p | _ => Err (Unparseable repoURL) end
              else Ok host);
      if bool_decide (host = "") && negb (contains ":" dir) then Err (Unparseable repoURL)
      else
        let '(host, dir) := match cut ":" host with (h, Some p) => (h, p +:+ dir) | (_, None) => (host, dir) end in
        Ok (Join [host; trim_suffix dir ".git"])
  end.

(** The remotes in the order of the map. *)
Definition allFetchURLs (remotes : list (string * Remote)) : list string :=
  omap (λ r, match CanonicalRepoURL (FetchURL r.2) with Ok u => Some u | Err _ => None end) remotes.

Definition guessPrimaryRemote (remotes : Remotes) : string :=
  match (match remotes !! "upstream" with Some r => Some r | None => remotes !! "origin" end) with
  | None => ""
  | Some r =>
      if bool_decide (FetchURL r = "") then ""
      else match CanonicalRepoURL (FetchURL r) with Ok u => u | Err _ => "" end
  end.

(** ** Tags *)

(** [strings.Split(s, ", ")]. *)
Fixpoint split_comma (s : string) : list string :=
  match s with
  | "" => [""]
  | String.String c s1 =>
      match s1 with
      | String.String d s2 =>
          if bool_decide (c = ","%char ∧ d = " "%char) then "" :: split_comma s2
          else match split_comma s1 with w :: ws => String.String c w :: ws | [] => [] end
      | "" => [String.String c ""]
      end
  end.

(** The regular expression is not anchored: what follows the first "tag: ". *)
Fixpoint tagRE (s : string) : option string :=
  if has_prefix s "tag: " then Some (str_drop 5 s)
  else match s with "" => None | String.String _ s => tagRE s end.

(** A commit, its date, and its decorations. *)
Definition split3 (l : string) : option (string * string * string) :=
  match cut " " l with
  | (a, Some r) => match cut " " r with (b, Some c) => Some (a, b, c) | _ => None end
  | _ => None
  end.

Definition line_tags (l : string) : list GitTag :=
  match split3 l with
  | Some (revision, _, decorations) => (λ n, mkGitTag n revision) <$> omap tagRE (split_comma decorations)
  | None => []
  end.

Definition parseTags (lines : list string) : list GitTag := lines ≫= line_tags.

(** ** The client *)

Record Client := mkClient { Client_Sh : Sh; Bin : string; Client_Version : Version }.

(** [semv.ParseAny]: a version from the first digit on, whatever its errors. *)
Fixpoint from_digit (s : string) : option string :=
  match s with "" => None | String.String c s' => if is_digit c then Some s else from_digit s' end.
Definition ParseAny (s : string) : option Version := d ← from_digit s; Some (Semv.parse d).1.

Inductive git_error : Type :=
| GitShell (e : shell_error)
| NoVersion (s : string)
| BadDirectory (e : text)
| UnexpectedFormat
| UnexpectedKind (kind : string)
| NoOffset (root workdir : string).

Definition git_ok {A} (r : result shell_error A) : result git_error A := map_err GitShell r.

Record Repo := mkRepo { Root : string; Repo_Client : Client }.

Section Git.
Context `{System}.

(** The configuration is listed too, to no effect. *)
Definition NewClient (sh : Sh) : result git_error Client :=
  s ← git_ok (Stdout (Cmd sh "git" ["version"]));
  match ParseAny s with Some v => Ok (mkClient sh "git" v) | None => Err (NoVersion s) end.

Definition CloneClient (c : Client) : Client := mkClient (Sh_Clone (Client_Sh c)) (Bin c) (Client_Version c).

Definition Client_Dir (c : Client) : string := Sh_Dir (Client_Sh c).

Definition git_stdout (c : Client) (name : string) (args : list string) : result git_error string :=
  git_ok (Sh_Stdout (Client_Sh c) (Bin c) (name :: args)).
Definition stdoutLines (c : Client) (name : string) (args : list string) : result git_error (list string) :=
  git_ok (Lines (Cmd (Client_Sh c) (Bin c) (name :: args))).
Definition git_table (c : Client) (name : string) (args : list string) : result git_error (list (list string)) :=
  git_ok (Table (Cmd (Client_Sh c) (Bin c) (name :: args))).

Definition CloneRepo (c : Client) (repo localPath : string) : result git_error string := git_stdout c "clone" [repo; localPath].

Definition RevisionAt (c : Client) (ref : string) := git_stdout c "rev-list" ["-n"; "1"; ref].
Definition Revision_ (c : Client) := RevisionAt c "HEAD".
Definition RepoRoot (c : Client) := git_stdout c "rev-parse" ["--show-toplevel"].
Definition ListFiles (c : Client) := stdoutLines c "ls-files" [].
Definition ModifiedFiles_ (c : Client) := stdoutLines c "ls-files" ["--modified"].
Definition NewFiles_ (c : Client) := stdoutLines c "ls-files" ["--others"; "--exclude-standard"].
Definition ListTags (c : Client) : result git_error (list GitTag) :=
  lines ← stdoutLines c "log" ["--date-order"; "--tags"; "--simplify-by-decoration"; "--pretty=format:%H %aI %D"];
  Ok (parseTags lines).
Definition ListUnpushedCommits (c : Client) := stdoutLines c "log" ["--branches"; "--not"; "--remotes"; "--pretty=%H"].
Definition NearestTag_ (c : Client) := git_stdout c "describe" ["--tags"; "--abbrev=0"; "--always"].
Definition NearestAnnotatedTag (c : Client) := git_stdout c "describe" ["--abbrev=0"; "--always"].
Definition CurrentBranch (c : Client) := git_stdout c "rev-parse" ["--abbrev-ref"; "HEAD"].

Definition add_remote (row : list string) (rs : Remotes) : result git_error Remotes :=
  match row with
  | [name; url; kind] =>
      if bool_decide (kind = "(push)") then Ok (AddPush name url rs)
      else if bool_decide (kind = "(fetch)") then Ok (AddFetch name url rs)
      else Err (UnexpectedKind kind)
  | _ => Err UnexpectedFormat
  end.
Definition ListRemotes (c : Client) : result git_error Remotes :=
  t ← git_table c "remote" ["-v"];
  rfold add_remote t ∅.

Definition NewRepo (c : Client) : result git_error Repo := root ← RepoRoot c; Ok (mkRepo root c).

(** The directory is looked for, but it is the directory of the client that is opened. *)
Definition OpenRepo (c : Client) (dirpath : string) : result git_error Repo :=
  let '(_, e) := CD sys_stat dirpath (Sh_Clone (Client_Sh c)) in
  match e with Some e => Err (BadDirectory e) | None => NewRepo (CloneClient c) end.

(** ** Source contexts *)

(** The variables of [SourceContext], that its functions set. *)
Record context_vars := mkVars {
  v_revision : string; v_branch : string;
  v_nearestTagName : string; v_nearestTagRevision : string;
  v_repoRelativeDir : string;
  v_files : list string; v_modifiedFiles : list string; v_newFiles : list string;
  v_allTags : list GitTag;
  v_remotes : Remotes;
  v_unpushed : list string
}.
Definition no_vars : context_vars := mkVars "" "" "" "" "" [] [] [] [] ∅ [].

Definition set_revision x v := mkVars x (v_branch v) (v_nearestTagName v) (v_nearestTagRevision v) (v_repoRelativeDir v)
  (v_files v) (v_modifiedFiles v) (v_newFiles v) (v_allTags v) (v_remotes v) (v_unpushed v).
Definition set_branch x v := mkVars (v_revision v) x (v_nearestTagName v) (v_nearestTagRevision v) (v_repoRelativeDir v)
  (v_files v) (v_modifiedFiles v) (v_newFiles v) (v_allTags v) (v_remotes v) (v_unpushed v).
Definition set_nearestTagName x v := mkVars (v_revision v) (v_branch v) x (v_nearestTagRevision v) (v_repoRelativeDir v)
  (v_files v) (v_modifiedFiles v) (v_newFiles v) (v_allTags v) (v_remotes v) (v_unpushed v).
Definition set_nearestTagRevision x v := mkVars (v_revision v) (v_branch v) (v_nearestTagName v) x (v_repoRelativeDir v)
  (v_files v) (v_modifiedFiles v) (v_newFiles v) (v_allTags v) (v_remotes v) (v_unpushed v).
Definition set_repoRelativeDir x v := mkVars (v_revision v) (v_branch v) (v_nearestTagName v) (v_nearestTagRevision v) x
  (v_files v) (v_modifiedFiles v) (v_newFiles v) (v_allTags v) (v_remotes v) (v_unpushed v).
Definition set_files x v := mkVars (v_revision v) (v_branch v) (v_nearestTagName v) (v_nearestTagRevision v) (v_repoRelativeDir v)
  x (v_modifiedFiles v) (v_newFiles v) (v_allTags v) (v_remotes v) (v_unpushed v).
Definition set_modifiedFiles x v := mkVars (v_revision v) (v_branch v) (v_nearestTagName v) (v_nearestTagRevision v) (v_repoRelativeDir v)
  (v_files v) x (v_newFiles v) (v_allTags v) (v_remotes v) (v_unpushed v).
Definition set_newFiles x v := mkVars (v_revision v) (v_branch v) (v_nearestTagName v) (v_nearestTagRevision v) (v_repoRelativeDir v)
  (v_files v) (v_modifiedFiles v) x (v_allTags v) (v_remotes v) (v_unpushed v).
Definition set_allTags x v := mkVars (v_revision v) (v_branch v) (v_nearestTagName v) (v_nearestTagRevision v) (v_repoRelativeDir v)
  (v_files v) (v_modifiedFiles v) (v_newFiles v) x (v_remotes v) (v_unpushed v).
Definition set_remotes x v := mkVars (v_revision v) (v_branch v) (v_nearestTagName v) (v_nearestTagRevision v) (v_repoRelativeDir v)
  (v_files v) (v_modifiedFiles v) (v_newFiles v) (v_allTags v) x (v_unpushed v).
Definition set_unpushed x v := mkVars (v_revision v) (v_branch v) (v_nearestTagName v) (v_nearestTagRevision v) (v_repoRelativeDir v)
  (v_files v) (v_modifiedFiles v) (v_newFiles v) (v_allTags v) (v_remotes v) x.

(** [x, *err = f()]: a variable is set to its zero value with an error. *)
Definition setting {A} (set : A → context_vars → context_vars) (zero : A) (r : result git_error A) (v : context_vars) :
    context_vars * option git_error :=
  match r with Ok x => (set x v, None) | Err e => (set zero v, Some e) end.

Definition offset_of (r : Repo) : result git_error string :=
  let dir := Client_Dir (Repo_Client r) in
  match NormalizedOffset sys_links (Root r) dir with Some o => Ok o | None => Err (NoOffset (Root r) dir) end.

Definition tag_functions (c : Client) : list (context_vars → context_vars * option git_error) :=
  [setting set_allTags [] (ListTags c);
   setting set_nearestTagName "" (NearestTag_ c);
   λ v, setting set_nearestTagRevision "" (RevisionAt c (v_nearestTagName v)) v].

Definition context_functions (r : Repo) : list (context_vars → context_vars * option git_error) :=
  let c := Repo_Client r in
  [setting set_branch "" (CurrentBranch c);
   setting set_revision "" (Revision_ c);
   setting set_repoRelativeDir "" (offset_of r);
   S_Set (tag_functions c);
   setting set_files [] (ListFiles c);
   setting set_modifiedFiles [] (ModifiedFiles_ c);
   setting set_newFiles [] (NewFiles_ c);
   setting set_remotes ∅ (ListRemotes c);
   setting set_unpushed [] (ListUnpushedCommits c)].

(** The remotes in an order of their map. *)
Definition made_context (order : Remotes → list (string * Remote)) (r : Repo) (v : context_vars) : SourceContext :=
  mkSourceContext (Root r) (v_repoRelativeDir v) (v_branch v) (v_revision v)
    (v_files v) (v_modifiedFiles v) (v_newFiles v) (v_allTags v)
    (mkGitTag (v_nearestTagName v) (v_nearestTagRevision v)) (v_nearestTagName v) (v_nearestTagRevision v)
    (guessPrimaryRemote (v_remotes v)) "" (allFetchURLs (order (v_remotes v)))
    (negb (bool_decide ((length (v_modifiedFiles v) + length (v_newFiles v))%nat = 0%nat)))
    (bool_decide (v_unpushed v ≠ [])) false.

(** What [SourceContext] returns in a run of its goroutines; [None] if it has not
    returned yet, or if there is no such run. *)
Definition Repo_SourceContext (order : Remotes → list (string * Remote)) (l : list action) (r : Repo) :
    option (result git_error SourceContext) :=
  p ← P_run (context_functions r) l (P_start (context_functions r) no_vars);
  e ← returned p;
  Some (match e with Some e => Err e | None => Ok (made_context order r (vars p)) end).

(** *** Discovery (graph.go) *)

(** The error and the context that were discovered: a context may come with the error of
    its annotated tag.  [None] as above. *)
Definition newSourceContextDiscovery (order : Remotes → list (string * Remote)) (l : list action) (sh : Sh) :
    option (option git_error * option SourceContext) :=
  match (gitc ← NewClient sh; OpenRepo gitc ".") with
  | Err e => Some (Some e, None)
  | Ok g =>
      r ← Repo_SourceContext order l g;
      Some (match r with
            | Err e => (Some e, None)
            | Ok c => (match NearestAnnotatedTag (Repo_Client g) with Ok _ => None | Err e => Some e end, Some c)
            end)
  end.

End Git.
