(* ===== verification/GitContext.v ===== *)
(** * Theorems on the source contexts of git (ext/git)

    What a run of the functions of a source context in parallel comes to, how the output
    of git is read back, and which URLs come to one name. *)

From S2P Require Import Prelude GoStrings GoPath Flaw Semv Ids ResolveFilter Builds.
From S2P Require Import Whitespace FirstErr Shell UrlParse Git.
#[local] Open Scope string_scope.
#[local] Open Scope Z_scope.
#[local] Open Scope list_scope.

(** ** Contexts *)

Section Contexts.
Context `{System}.

Definition value {A} (zero : A) (r : result git_error A) : A := match r with Ok x => x | Err _ => zero end.
Definition failure {A} (r : result git_error A) : option git_error := match r with Ok _ => None | Err e => Some e end.

Definition tag_effect (c : Client) : (context_vars → context_vars) * option git_error :=
  match ListTags c with
  | Err e => (set_allTags [], Some e)
  | Ok ts =>
      match NearestTag_ c with
      | Err e => (λ v, set_nearestTagName "" (set_allTags ts v), Some e)
      | Ok n => (λ v, set_nearestTagRevision (value "" (RevisionAt c n)) (set_nearestTagName n (set_allTags ts v)), failure (RevisionAt c n))
      end
  end.

(** What each of the functions does, and fails with. *)
Definition context_effects (r : Repo) : list ((context_vars → context_vars) * option git_error) :=
  let c := Repo_Client r in
  [(set_branch (value "" (CurrentBranch c)), failure (CurrentBranch c));
   (set_revision (value "" (Revision_ c)), failure (Revision_ c));
   (set_repoRelativeDir (value "" (offset_of r)), failure (offset_of r));
   tag_effect c;
   (set_files (value [] (ListFiles c)), failure (ListFiles c));
   (set_modifiedFiles (value [] (ModifiedFiles_ c)), failure (ModifiedFiles_ c));
   (set_newFiles (value [] (NewFiles_ c)), failure (NewFiles_ c));
   (set_remotes (value ∅ (ListRemotes c)), failure (ListRemotes c));
   (set_unpushed (value [] (ListUnpushedCommits c)), failure (ListUnpushedCommits c))].

Lemma setting_effect {A} (set : A → context_vars → context_vars) zero r v :
  setting set zero r v = (set (value zero r) v, failure r).
Proof using. by destruct r. Qed.

Lemma tag_functions_effect c v : S_Set (tag_functions c) v = ((tag_effect c).1 v, (tag_effect c).2).
Proof using.
  unfold tag_functions, tag_effect. cbn [S_Set]. rewrite setting_effect. destruct (ListTags c) as [ts|e]; cbn [value failure]; [|done].
  rewrite setting_effect. destruct (NearestTag_ c) as [n|e]; cbn [value failure]; [|done].
  rewrite setting_effect. cbn [v_nearestTagName set_nearestTagName]. by destruct (RevisionAt c n).
Qed.

Lemma context_independent r : independent (context_functions r) (context_effects r).
Proof using.
  split.
  - unfold context_functions, context_effects. repeat constructor; intros v; try apply setting_effect. apply tag_functions_effect.
  - intros g h w. unfold context_effects, tag_effect.
    destruct (ListTags _) as [ts|e]; [destruct (NearestTag_ _) as [n|e]|]; cbn [fmap list_fmap fst];
      rewrite !elem_of_cons, !elem_of_nil; intros Hg Hh; destruct_or!; subst; done.
Qed.

(** C31.  However the goroutines of a source context are scheduled, the context that is
    returned is the one that the commands give in turn, and an error that is returned
    is the error of one of them; if all of them succeed then every run that ends has
    returned the context. *)
Theorem SourceContext_any_order (order : Remotes → list (string * Remote)) (r : Repo) (l : list action) (p : par) :
  P_run (context_functions r) l (P_start (context_functions r) no_vars) = Some p →
  match Repo_SourceContext order l r with
  | Some (Ok sc) => ∃ v, S_Set (context_functions r) no_vars = (v, None) ∧ sc = made_context order r v
  | Some (Err e) => e ∈ omap snd (context_effects r) ∧ is_Some (S_Set (context_functions r) no_vars).2
  | None => ∃ a p', P_act (context_functions r) a p = Some p'
  end.
Proof using.
  intros Hl. unfold Repo_SourceContext. rewrite Hl. cbn [mbind option_bind].
  destruct (returned p) as [e|] eqn:Hr; cbn [mbind option_bind].
  - pose proof (P_independent _ _ _ _ _ _ (context_independent r) Hl Hr) as Hp. destruct e as [e|]; [|by exists (vars p)].
    split; [done|]. destruct (S_Set_independent _ _ no_vars (in_funcs _ _ (context_independent r))) as [_ ->].
    destruct (omap snd (context_effects r)); [by apply elem_of_nil in Hp|]. by eexists.
  - apply (P_progress _ p (P_gos_length _ _ _ _ Hl) Hr).
Qed.

(** *** Without remotes *)

(** A table of no output has one row, of one cell, and is no list of remotes. *)
Lemma ListRemotes_none c p : sys_exec (Cmd (Client_Sh c) (Bin c) ["remote"; "-v"]) = Ok p → p_end p = Exited 0 → Trim (p_stdout p) = "" →
  ListRemotes c = Err UnexpectedFormat.
Proof using.
  intros Hc He Ho. unfold ListRemotes, git_table, Table, SucceedResult, Command_Result. rewrite Hc, He.
  cbn [wait mbind result_bind fmap option_fmap option_map r_Err r_Stdout map_err git_ok]. by rewrite Output_Table_empty.
Qed.

(** In a repository without remotes no source context is ever made: every run that
    returns returns an error. *)
Theorem no_remotes_no_context (order : Remotes → list (string * Remote)) (r : Repo) (l : list action) (p : process) :
  sys_exec (Cmd (Client_Sh (Repo_Client r)) (Bin (Repo_Client r)) ["remote"; "-v"]) = Ok p → p_end p = Exited 0 →
  Trim (p_stdout p) = "" → ∀ sc, Repo_SourceContext order l r ≠ Some (Ok sc).
Proof using.
  intros Hc He Ho sc Hsc. unfold Repo_SourceContext in Hsc.
  destruct (P_run _ _ _) as [q|] eqn:Hl; [|done]. cbn [mbind option_bind] in Hsc.
  destruct (returned q) as [[e|]|] eqn:Hr; [done| |done].
  pose proof (P_independent _ _ _ _ _ _ (context_independent r) Hl Hr) as Hp.
  pose proof (S_Set_independent _ _ no_vars (in_funcs _ _ (context_independent r))) as [_ Hh]. rewrite Hp in Hh. cbn [snd] in Hh.
  assert (Some UnexpectedFormat ∈ (snd <$> context_effects r)) as Hin.
  { unfold context_effects. rewrite (ListRemotes_none _ p Hc He Ho). cbn [fmap list_fmap snd failure]. set_solver. }
  apply list_elem_of_fmap in Hin as (g&Hg&Hin). destruct (omap snd (context_effects r)) eqn:Ho'; [|done].
  assert (UnexpectedFormat ∈ omap snd (context_effects r)) as Hin' by (apply list_elem_of_omap; by exists g).
  rewrite Ho' in Hin'. by apply elem_of_nil in Hin'.
Qed.

(** *** Repositories *)

(** The directory must exist, and then it is the repository of the client's own
    directory that is opened. *)
Lemma OpenRepo_spec c dirpath : OpenRepo c dirpath =
  match snd (CD sys_stat dirpath (Client_Sh c)) with Some e => Err (BadDirectory e) | None => NewRepo c end.
Proof using. unfold OpenRepo, CloneClient, Sh_Clone. by destruct c as [[d] b v]. Qed.

End Contexts.

(** ** Examples *)

Definition eol : string := String.String newline "".
Definition tabulator : string := String.String "009"%char "".
Definition prints (s : string) : result text process := Ok (mkProcess s "" s (Exited 0)).

(** A repository of one tag and the remotes [remotes], at [/home/me/sous]. *)
Definition demo (remotes : string) : System := {|
  sys_exec c :=
    match cmd_Args c with
    | "remote" :: _ => prints remotes
    | "rev-parse" :: "--show-toplevel" :: _ => prints ("/home/me/sous" +:+ eol)
    | "rev-parse" :: _ => prints ("master" +:+ eol)
    | "rev-list" :: _ => prints ("1141dde" +:+ eol)
    | "describe" :: _ => prints ("v1.2.3" +:+ eol)
    | ["ls-files"] => prints ("main.go" +:+ eol +:+ "doc/x.md" +:+ eol)
    | ["log"; _; "--tags"; _; _] => prints ("1141dde 2015-10-02T12:12:01+01:00 HEAD -> master, tag: v1.2.3")
    | "version" :: _ => prints ("git version 2.7.4" +:+ eol)
    | _ => prints ""
    end;
  sys_stat p := Some (bool_decide (p = "/home/me/sous" ∨ p = "/home/me/sous/doc"));
  sys_links p := Some p
|}.
Definition origin : string :=
  "origin" +:+ tabulator +:+ "git@github.com:opentable/sous.git (fetch)" +:+ eol +:+
  "origin" +:+ tabulator +:+ "git@github.com:opentable/sous.git (push)" +:+ eol.
Definition demo_repo : Repo := mkRepo "/home/me/sous" (mkClient (mkSh "/home/me/sous/doc") "git" (mkVersion 2 7 4 "" "" "")).

(** The functions run out of turn. *)
Definition demo_run : list action := [FirstErr.Run 7; FirstErr.Run 3; FirstErr.Run 0; FirstErr.Run 8; FirstErr.Run 1; FirstErr.Run 2; FirstErr.Run 6; FirstErr.Run 5; FirstErr.Run 4; Close].
Definition demo_vars : context_vars := mkVars "1141dde" "master" "v1.2.3" "1141dde" "doc" ["main.go"; "doc/x.md"] [] []
  [mkGitTag "v1.2.3" "1141dde"] {["origin" := mkRemote "" "git@github.com:opentable/sous.git" "git@github.com:opentable/sous.git"]} [].

Lemma SourceContext_any_order_witness :
  let _ := demo origin in
  ∃ p, P_run (context_functions demo_repo) demo_run (P_start (context_functions demo_repo) no_vars) = Some p ∧
    Repo_SourceContext map_to_list demo_run demo_repo = Some (Ok (made_context map_to_list demo_repo demo_vars)) ∧
    RemoteURLs (made_context map_to_list demo_repo demo_vars) = ["github.com/opentable/sous"] ∧
    ∃ v, S_Set (context_functions demo_repo) no_vars = (v, None) ∧
      made_context map_to_list demo_repo demo_vars = made_context map_to_list demo_repo v.
Proof.
  intros S. destruct (P_run (context_functions demo_repo) demo_run (P_start (context_functions demo_repo) no_vars)) as [p|] eqn:Hl.
  2: { exfalso. revert Hl. vm_compute. discriminate. }
  exists p. split; [reflexivity|].
  assert (Repo_SourceContext map_to_list demo_run demo_repo = Some (Ok (made_context map_to_list demo_repo demo_vars))) as Hsc by (vm_compute; reflexivity).
  split; [exact Hsc|]. split; [vm_compute; reflexivity|].
  pose proof (SourceContext_any_order map_to_list demo_repo demo_run p Hl) as H. rewrite Hsc in H. exact H.
Defined.

(** What a client finds: the same context. *)
Example discovery_ex : let _ := demo origin in
  newSourceContextDiscovery map_to_list demo_run (mkSh "/home/me/sous/doc") =
    Some (None, Some (made_context map_to_list demo_repo demo_vars)).
Proof. vm_compute. reflexivity. Qed.

Lemma no_remotes_no_context_witness :
  let _ := demo "" in
  Repo_SourceContext map_to_list demo_run demo_repo = None ∧ ∀ sc, Repo_SourceContext map_to_list demo_run demo_repo ≠ Some (Ok sc).
Proof.
  intros S. split; [vm_compute; reflexivity|].
  apply (no_remotes_no_context map_to_list demo_repo demo_run (mkProcess "" "" "" (Exited 0))); reflexivity.
Defined.

(** Without remotes, the run that returns has received the error. *)
Example no_remotes_ex : let _ := demo "" in
  Repo_SourceContext map_to_list (take 9 demo_run ++ [Receive 7]) demo_repo = Some (Err UnexpectedFormat).
Proof. vm_compute. reflexivity. Qed.
