(* ===== verification/GitUrl.v ===== *)
(** * The spellings of a repository's URL (ext/git/remote.go)

    One repository is known by one name, however its URL is spelt. *)

From S2P Require Import Prelude GoStrings GoPath GoUrl UrlParse Git.
#[local] Open Scope string_scope.
#[local] Open Scope Z_scope.
#[local] Open Scope list_scope.

(** ** Bytes *)

Definition name_byte (c : ascii) : bool := alnum c || bool_decide (c ∈ bytes "-._~").
Definition path_byte (c : ascii) : bool := name_byte c || bool_decide (c = "/"%char).
Definition hostport_byte (c : ascii) : bool := name_byte c || bool_decide (c = ":"%char).
Definition all_of (P : ascii → bool) (s : string) : Prop := Forall (λ c, P c = true) (bytes s).

Ltac every_byte c := destruct c as [[] [] [] [] [] [] [] []]; vm_compute; try done.

Lemma name_path c : name_byte c = true → path_byte c = true.
Proof. unfold path_byte. by intros ->. Qed.
Lemma name_hostport c : name_byte c = true → hostport_byte c = true.
Proof. unfold hostport_byte. by intros ->. Qed.
Lemma hostport_allowed c : hostport_byte c = true → c ≠ "%"%char ∧ byte_allowed Host c = true.
Proof. every_byte c. Qed.
Lemma path_allowed c : path_byte c = true → c ≠ "%"%char ∧ byte_allowed PathPart c = true.
Proof. every_byte c. Qed.
Lemma name_allowed c : name_byte c = true → c ≠ "%"%char ∧ byte_allowed UserPassword c = true.
Proof. every_byte c. Qed.
Lemma name_user c : name_byte c = true → user_byte c = true.
Proof. every_byte c. Qed.
Lemma alpha_name c : is_alpha c = true → name_byte c = true.
Proof. every_byte c. Qed.

Lemma all_of_app P s1 s2 : all_of P (s1 +:+ s2) ↔ all_of P s1 ∧ all_of P s2.
Proof. unfold all_of. by rewrite bytes_app, Forall_app. Qed.
Lemma all_of_impl (P Q : ascii → bool) s : (∀ c, P c = true → Q c = true) → all_of P s → all_of Q s.
Proof. intros HPQ Hs. eapply Forall_impl; [exact Hs|exact HPQ]. Qed.
Lemma all_of_lacks P c s : all_of P s → P c = false → lacks c s = true.
Proof. apply lacks_forall. Qed.

Lemma unescape_id mode (P : ascii → bool) s : (∀ c, P c = true → c ≠ "%"%char ∧ byte_allowed mode c = true) →
  all_of P s → unescape mode s = Some s.
Proof.
  intros HP. induction s as [|c s IH]; [done|]. intros [Hc Hs]%Forall_cons. destruct (HP c Hc) as [H1 H2]. cbn [unescape].
  rewrite bool_decide_eq_false_2, H2, IH by done. done.
Qed.

(** ** Cutting *)

Lemma cut_spec c s : match cut c s with
  | (a, Some b) => s = a +:+ String c b ∧ lacks c a = true
  | (a, None) => s = a ∧ lacks c s = true
  end.
Proof.
  induction s as [|x s IH]; [done|]. cbn [cut]. case_decide as Hx; [by subst|]. destruct (cut c s) as [a [b|]]; destruct IH as [-> Hl].
  - split; [done|]. rewrite lacks_cons, Hl, bool_decide_eq_false_2 by done. done.
  - split; [done|]. rewrite lacks_cons, Hl, bool_decide_eq_false_2 by done. done.
Qed.

Lemma cut_last_lacks c s : lacks c s = true → cut_last c s = None.
Proof.
  induction s as [|x s IH]; [done|]. rewrite lacks_cons. intros [Hx Hs]%andb_prop. cbn. rewrite IH by done.
  by destruct (bool_decide (c = x)) eqn:E; [|rewrite bool_decide_eq_false_2 by (apply bool_decide_eq_false in E; done)].
Qed.

Lemma cut_last_app c a b : lacks c b = true → cut_last c (a +:+ String c b) = Some (a, b).
Proof.
  intros Hb. induction a as [|x a IH].
  - change ("" +:+ ?s) with s. cbn. rewrite cut_last_lacks by done. by rewrite bool_decide_eq_true_2.
  - change (String x a +:+ ?s) with (String x (a +:+ s)). cbn. by rewrite IH.
Qed.

Lemma scheme_from_alpha s r b : all_of is_alpha s → s ≠ "" ∨ b = false → scheme_from b (s +:+ String ":" r) = Some (Some (s, r)).
Proof.
  revert b. induction s as [|c s IH]; intros b Hs Hb.
  - destruct Hb as [?| ->]; done.
  - apply Forall_cons in Hs as [Hc Hs]. change (String c s +:+ ?x) with (String c (s +:+ x)). cbn [scheme_from].
    rewrite Hc. cbn [orb]. by rewrite (IH false) by auto.
Qed.

(** ** Parsing *)

Definition at_user (user : option string) : string := match user with Some u => u +:+ "@" | None => "" end.
Definition user_ok (user : option string) : Prop := match user with Some u => all_of name_byte u | None => True end.

Lemma parseHost_id hp : all_of hostport_byte hp → parseHost hp = Some hp.
Proof.
  intros Hhp. unfold parseHost.
  assert (has_prefix hp "[" = false) as ->; [|by apply (unescape_id _ hostport_byte), Hhp; apply hostport_allowed].
  destruct hp as [|c hp]; [done|]. apply Forall_cons in Hhp as [Hc _]. cbn. rewrite andb_true_r. apply bool_decide_eq_false.
  intros <-. by vm_compute in Hc.
Qed.

Lemma parseAuthority_id user hp : user_ok user → all_of hostport_byte hp → parseAuthority (at_user user +:+ hp) = Some hp.
Proof.
  intros Hu Hhp. unfold parseAuthority. assert (lacks "@" hp = true) as Hat by by apply (all_of_lacks hostport_byte).
  destruct user as [u|]; cbn [at_user].
  - assert ((u +:+ "@") +:+ hp = u +:+ String "@" hp) as -> by (rewrite str_app_assoc; done).
    rewrite cut_last_app, parseHost_id by done. cbn [mbind option_bind].
    assert (forallb user_byte (bytes u) = true) as ->.
    { apply forallb_forall. intros c Hc%list_elem_of_In. apply name_user. cbn in Hu. unfold all_of in Hu. rewrite Forall_forall in Hu. by apply Hu. }
    rewrite cut_lacks by by apply (all_of_lacks name_byte). cbn [default from_option id].
    by rewrite (unescape_id UserPassword name_byte u name_allowed).
  - change ("" +:+ hp) with hp. rewrite cut_last_lacks by done. by apply parseHost_id.
Qed.

(** What is before a path, and a path that is empty or rooted. *)
Lemma Parse_repository scheme user hp path : all_of is_alpha scheme → scheme ≠ "" → user_ok user → all_of hostport_byte hp →
  path = "" ∨ (∃ q, path = String "/" q) → all_of path_byte path →
  UrlParse.Parse (scheme +:+ "://" +:+ at_user user +:+ hp +:+ path) = Some (mkURL hp path).
Proof.
  intros Hs Hne Hu Hhp Hpath Hpb. set (auth := at_user user +:+ hp).
  assert (scheme +:+ "://" +:+ at_user user +:+ hp +:+ path = scheme +:+ String ":" ("//" +:+ (auth +:+ path))) as ->.
  { unfold auth. by rewrite str_app_assoc. }
  assert (∀ c, name_byte c = false → c ≠ "/"%char → c ≠ ":"%char → c ≠ "@"%char → lacks c (auth +:+ path) = true) as Hlack.
  { intros c Hc H1 H2 H3. rewrite lacks_app. apply andb_true_intro. split.
    - unfold auth. rewrite lacks_app. apply andb_true_intro. split.
      + destruct user as [u|]; cbn [at_user]; [|done]. rewrite lacks_app, (all_of_lacks name_byte) by done.
        rewrite lacks_cons, bool_decide_eq_false_2 by done. done.
      + apply (all_of_lacks hostport_byte); [done|]. unfold hostport_byte. by rewrite Hc, bool_decide_eq_false_2.
    - apply (all_of_lacks path_byte); [done|]. unfold path_byte. by rewrite Hc, bool_decide_eq_false_2. }
  assert (∀ c, name_byte c = false → c ≠ "/"%char → c ≠ ":"%char → c ≠ "@"%char → lacks c (scheme +:+ String ":" ("//" +:+ (auth +:+ path))) = true) as Hlacks.
  { intros c Hc H1 H2 H3. rewrite lacks_app, lacks_cons, lacks_app. rewrite (all_of_lacks is_alpha) by (done || by destruct (is_alpha c) eqn:E; [apply alpha_name in E; congruence|]).
    rewrite !lacks_cons, !bool_decide_eq_false_2, Hlack by done. done. }
  unfold UrlParse.Parse. rewrite cut_lacks by (apply Hlacks; done). unfold parse.
  rewrite bool_decide_eq_false_2.
  2: { intros Heq. destruct scheme as [|c scheme]; [done|]. apply (f_equal String.length) in Heq. cbn in Heq. rewrite str_length_app in Heq. cbn in Heq. lia. }
  unfold getscheme. rewrite scheme_from_alpha by auto. cbn [mbind option_bind default from_option id].
  change ("//" +:+ (auth +:+ path)) with (String "/" (String "/" (auth +:+ path))).
  rewrite cut_lacks by (rewrite !lacks_cons, Hlack by done; done). cbn [fst].
  change (has_prefix (String "/" (String "/" (auth +:+ path))) "/") with true.
  change (has_prefix (String "/" (String "/" (auth +:+ path))) "//") with true.
  rewrite (bool_decide_eq_false_2 (scheme = "")) by done. cbn [negb andb orb]. change (str_drop 2 _) with (auth +:+ path).
  assert (lacks "/" auth = true) as Hslash.
  { unfold auth. rewrite lacks_app. apply andb_true_intro. split; [|by apply (all_of_lacks hostport_byte)].
    destruct user as [u|]; cbn [at_user]; [|done]. rewrite lacks_app, (all_of_lacks name_byte) by done. done. }
  assert (cut "/" (auth +:+ path) = (auth, match path with "" => None | String _ q => Some q end)) as ->.
  { destruct Hpath as [->|[q ->]]; [|by apply cut_app]. rewrite str_app_nil_r. by apply cut_lacks. }
  unfold auth. rewrite parseAuthority_id by done. cbn [mbind option_bind].
  assert ((match match path with "" => None | String _ q => Some q end with Some p => "/" +:+ p | None => "" end) = path) as ->.
  { by destruct Hpath as [->|[q ->]]. }
  by rewrite (unescape_id PathPart path_byte path path_allowed).
Qed.

(** ** Names *)

Lemma str_drop_app (a b : string) : str_drop (String.length a) (a +:+ b) = b.
Proof. induction a as [|c a IH]; [done|exact IH]. Qed.
Lemma str_take_whole (a b : string) : str_take (String.length a) (a +:+ b) = a.
Proof. induction a as [|c a IH]; [by destruct b|]. change (String c (str_take (String.length a) (a +:+ b)) = String c a). by rewrite IH. Qed.
Lemma str_take_drop n s : str_take n s +:+ str_drop n s = s.
Proof. revert s. induction n as [|n IH]; intros [|c s]; try done. change (String c (str_take n s +:+ str_drop n s) = String c s). by rewrite IH. Qed.

Lemma trim_suffix_app s suffix : trim_suffix (s +:+ suffix) suffix = s.
Proof.
  unfold trim_suffix. rewrite str_length_app. replace (String.length s + String.length suffix - String.length suffix)%nat with (String.length s) by lia.
  rewrite str_drop_app, str_take_whole, bool_decide_eq_true_2; [done|]. split; [lia|done].
Qed.

Lemma trim_suffix_none s suffix : (∀ q, s ≠ q +:+ suffix) → trim_suffix s suffix = s.
Proof.
  intros Hn. unfold trim_suffix. case_bool_decide as Hd; [|done]. destruct Hd as [_ Hd]. exfalso.
  pose proof (str_take_drop (String.length s - String.length suffix) s) as Ht. rewrite Hd in Ht. by apply (Hn _ (eq_sym Ht)).
Qed.

Lemma trim_suffix_id s suffix : trim_suffix s suffix = s → suffix ≠ "" → ∀ q, s ≠ q +:+ suffix.
Proof.
  intros Ht Hne q ->. rewrite trim_suffix_app in Ht. apply (f_equal String.length) in Ht. rewrite str_length_app in Ht.
  destruct suffix; [done|]. cbn in Ht. lia.
Qed.

(** A path, and one rooted at the host. *)
Lemma Join_host h ps (rooted : bool) : plain h → ps ≠ [] → Forall plain ps →
  Join [h; (if rooted then "/" else "") +:+ join "/" ps] = h +:+ "/" +:+ join "/" ps.
Proof.
  intros Hh Hne Hps. assert (Forall plain (h :: ps)) as Hall by by constructor.
  assert (normal false (h :: ps)) as Hnorm by (exists 0%nat, (h :: ps); by split_and!).
  assert (h +:+ "/" +:+ join "/" ps = unsplit false (h :: ps)) as Hr by by destruct ps.
  assert (split_on slash h = [h]) as Hsh by by apply split_on_lacks, Hh.
  assert (split_on slash (join "/" ps) = ps) as Hsp by by apply split_on_join, plain_lacks.
  unfold Join. rewrite decide_False by apply Hh. rewrite Hr. unfold Clean.
  assert (IsAbs (join "/" [h; (if rooted then "/" else "") +:+ join "/" ps]) = false) as ->.
  { destruct Hh as (Hh1&_&_&Hh2). destruct h as [|c h]; [done|]. cbn. rewrite andb_true_r. apply bool_decide_eq_false. intros <-.
    by rewrite lacks_cons in Hh2. }
  f_equal. change (join "/" [h; ?x]) with (h +:+ String slash x). rewrite split_on_app_join, Hsh.
  destruct rooted.
  - change ("/" +:+ ?x) with ("" +:+ String slash x). rewrite split_on_app_join, Hsp. change (split_on slash "") with [""].
    transitivity (clean_comps false (h :: ps)); [|by apply clean_comps_id]. unfold clean_comps. cbn [app foldl].
    assert (∀ out, clean_step false out "" = out) as ->; [|done]. intros out. unfold clean_step. by rewrite decide_True by by left.
  - change ("" +:+ ?x) with x. rewrite Hsp. by apply clean_comps_id.
Qed.

(** *** Repositories *)

(** A host, and the components of a path that has no suffix. *)
Record repository_ok (h : string) (ps : list string) : Prop := {
  ro_host : plain h;
  ro_host_bytes : all_of name_byte h;
  ro_some : ps ≠ [];
  ro_plain : Forall plain ps;
  ro_bytes : Forall (all_of name_byte) ps;
  ro_suffix q : join "/" ps ≠ q +:+ ".git"
}.

Lemma join_path_bytes ps : Forall (all_of name_byte) ps → all_of path_byte (join "/" ps).
Proof.
  intros Hps. induction Hps as [|p ps Hp Hps IH]; [constructor|]. destruct ps as [|p' ps].
  - cbn. by eapply all_of_impl, Hp; apply name_path.
  - change (join "/" (p :: p' :: ps)) with (p +:+ String "/" (join "/" (p' :: ps))). apply all_of_app. split.
    + by eapply all_of_impl, Hp; apply name_path.
    + by constructor.
Qed.

Definition suffixes : list string := [""; ".git"].

Lemma trim_either s suffix : suffix ∈ suffixes → (∀ q, s ≠ q +:+ ".git") → trim_suffix (s +:+ suffix) ".git" = s.
Proof.
  intros Hs Hn. unfold suffixes in Hs. rewrite !elem_of_cons, elem_of_nil in Hs. destruct Hs as [->|[->|[]]].
  - rewrite str_app_nil_r. by apply trim_suffix_none.
  - apply trim_suffix_app.
Qed.

Definition repository_url (scheme : string) (user : option string) (h : string) (sep : string) (p suffix : string) : string :=
  scheme +:+ "://" +:+ at_user user +:+ h +:+ sep +:+ p +:+ suffix.

Lemma not_scp scheme s : all_of is_alpha scheme → has_prefix (scheme +:+ "://" +:+ s) "git@" = false.
Proof.
  intros Hs. destruct (has_prefix _ "git@") eqn:Hp; [|done]. exfalso.
  destruct scheme as [|a [|b [|c [|d scheme]]]]; cbn in Hp; repeat (apply andb_prop in Hp as [? Hp]); repeat match goal with
    H : bool_decide _ = true |- _ => apply bool_decide_eq_true in H; try done end.
  subst. repeat (apply Forall_cons in Hs as [? Hs]). done.
Qed.

Lemma suffix_bytes suffix : suffix ∈ suffixes → all_of path_byte suffix.
Proof. unfold suffixes. rewrite !elem_of_cons, elem_of_nil. intros [->|[->|[]]]; repeat constructor. Qed.

Lemma repository_bytes h ps suffix : repository_ok h ps → suffix ∈ suffixes → all_of path_byte (join "/" ps +:+ suffix).
Proof. intros H Hs. apply all_of_app. split; [by apply join_path_bytes, H|by apply suffix_bytes]. Qed.

Lemma path_name a : all_of path_byte a → lacks "/" a = true → all_of name_byte a.
Proof.
  induction a as [|c a IH]; [constructor|]. intros [Hc Ha]%Forall_cons. rewrite lacks_cons. intros [H1 H2]%andb_prop.
  constructor; [|by apply IH]. unfold path_byte in Hc. apply orb_prop in Hc as [Hc|Hc]; [done|].
  apply bool_decide_eq_true in Hc. subst. done.
Qed.

(** After a host and a colon, what is before the first slash is of the host still. *)
Lemma colon_parts p : all_of path_byte p → ∃ first path, p = first +:+ path ∧ all_of name_byte first ∧
  (path = "" ∨ ∃ q, path = String "/" q) ∧ all_of path_byte path.
Proof.
  intros Hp. pose proof (cut_spec "/" p) as Hc. destruct (cut "/" p) as [a [b|]]; destruct Hc as [-> Hl].
  - apply all_of_app in Hp as [Ha Hb]. exists a, (String "/" b). split_and!; [done|by apply path_name|by right; eexists|done].
  - exists a, "". rewrite str_app_nil_r. split_and!; [done|by apply path_name|by left|constructor].
Qed.

Lemma canonical_slash scheme user h ps suffix : all_of is_alpha scheme → scheme ≠ "" → user_ok user → repository_ok h ps →
  suffix ∈ suffixes → CanonicalRepoURL (repository_url scheme user h "/" (join "/" ps) suffix) = Ok (h +:+ "/" +:+ join "/" ps).
Proof.
  intros Hs Hne Hu Hr Hsuf. unfold repository_url, CanonicalRepoURL. rewrite not_scp by done.
  rewrite Parse_repository; try done.
  - cbn [u_Host u_Path]. rewrite (bool_decide_eq_false_2 (h = "")) by apply Hr. cbn [andb mbind result_bind].
    rewrite bool_decide_eq_false_2 by apply Hr. cbn [andb].
    rewrite cut_lacks by (apply (all_of_lacks name_byte); [apply Hr|done]).
    change ("/" +:+ (join "/" ps +:+ suffix)) with (("/" +:+ join "/" ps) +:+ suffix). rewrite trim_either; [|done|].
    + by rewrite (Join_host h ps true) by apply Hr.
    + intros [|c q] Hq; [done|]. injection Hq as _ Hq. by apply (ro_suffix _ _ Hr) in Hq.
  - eapply all_of_impl, Hr; apply name_hostport.
  - right. by eexists.
  - apply all_of_app. split; [repeat constructor|by eapply repository_bytes].
Qed.

Lemma canonical_colon scheme user h ps suffix : all_of is_alpha scheme → scheme ≠ "" → user_ok user → repository_ok h ps →
  suffix ∈ suffixes → CanonicalRepoURL (repository_url scheme user h ":" (join "/" ps) suffix) = Ok (h +:+ "/" +:+ join "/" ps).
Proof.
  intros Hs Hne Hu Hr Hsuf. unfold repository_url, CanonicalRepoURL. rewrite not_scp by done.
  destruct (colon_parts _ (repository_bytes _ _ _ Hr Hsuf)) as (first&path&Heq&Hf&Hpath&Hpb). rewrite Heq.
  assert (h +:+ ":" +:+ first +:+ path = (h +:+ String ":" first) +:+ path) as -> by (rewrite str_app_assoc; done).
  rewrite Parse_repository; try done.
  - cbn [u_Host u_Path]. assert (h +:+ String ":" first ≠ "") as Hhp by (destruct h; done).
    rewrite (bool_decide_eq_false_2 (_ = "")) by done. cbn [andb mbind result_bind].
    rewrite bool_decide_eq_false_2 by done. cbn [andb].
    rewrite cut_app by (apply (all_of_lacks name_byte); [apply Hr|done]).
    rewrite <-Heq, trim_either by (done || apply Hr).
    f_equal. apply (Join_host h ps false); apply Hr.
  - apply all_of_app. split; [eapply all_of_impl, Hr; apply name_hostport|]. constructor; [done|].
    by eapply all_of_impl, Hf; apply name_hostport.
Qed.

(** The ways to spell the URL of a repository: with a scheme, maybe a user, and the path
    after a slash or a colon; or as [scp] has it. *)
Inductive spelling : Type :=
| Url (scheme : string) (user : option string) (colon : bool)
| Scp.

Definition spell (sp : spelling) (h p suffix : string) : string :=
  match sp with
  | Url scheme user colon => repository_url scheme user h (if colon then ":" else "/") p suffix
  | Scp => "git@" +:+ h +:+ ":" +:+ p +:+ suffix
  end.
Definition spelling_ok (sp : spelling) : Prop :=
  match sp with Url scheme user _ => all_of is_alpha scheme ∧ scheme ≠ "" ∧ user_ok user | Scp => True end.

(** C32.  A repository has one name, the host and the path, however its URL is spelt: over
    any protocol, with a user or without, with the path after a slash or a colon, as
    [scp] has it, and with a final [.git] or without. *)
Theorem CanonicalRepoURL_forms (sp : spelling) (h : string) (ps : list string) (suffix : string) :
  spelling_ok sp → repository_ok h ps → suffix ∈ suffixes →
  CanonicalRepoURL (spell sp h (join "/" ps) suffix) = Ok (h +:+ "/" +:+ join "/" ps).
Proof.
  destruct sp as [scheme user []|].
  - intros (Hs&Hne&Hu) Hr Hsuf. by apply canonical_colon.
  - intros (Hs&Hne&Hu) Hr Hsuf. by apply canonical_slash.
  - intros _ Hr Hsuf. apply (canonical_colon "ssh" (Some "git")); try done; repeat constructor.
Qed.

Lemma CanonicalRepoURL_forms_witness :
  repository_ok "github.com" ["opentable"; "sous"] ∧
  CanonicalRepoURL "https://me@github.com/opentable/sous.git" = Ok "github.com/opentable/sous" ∧
  CanonicalRepoURL "git@github.com:opentable/sous.git" = Ok "github.com/opentable/sous".
Proof.
  assert (repository_ok "github.com" ["opentable"; "sous"]) as Hr.
  { constructor; [by split_and!|repeat constructor|done|repeat constructor; done|repeat constructor|by apply trim_suffix_id]. }
  split; [exact Hr|]. split.
  - refine (CanonicalRepoURL_forms (Url "https" (Some "me") false) "github.com" ["opentable"; "sous"] ".git" _ Hr _).
    + split_and!; [repeat constructor|done|repeat constructor].
    + apply (bool_decide_unpack _). by vm_compute.
  - refine (CanonicalRepoURL_forms Scp "github.com" ["opentable"; "sous"] ".git" I Hr _).
    apply (bool_decide_unpack _). by vm_compute.
Defined.

(** A name that is canonical already has no host to be parsed: it is given one twice. *)
Lemma CanonicalRepoURL_twice : CanonicalRepoURL "github.com/opentable/sous" = Ok "github.com/github.com/opentable/sous".
Proof. reflexivity. Qed.
(** The port of a URL becomes a part of the path. *)
Lemma CanonicalRepoURL_port : CanonicalRepoURL "https://github.com:443/opentable/sous" = Ok "github.com/443/opentable/sous".
Proof. reflexivity. Qed.
Example CanonicalRepoURL_bad : CanonicalRepoURL "https://" = Err (Unparseable "https://").
Proof. reflexivity. Qed.
