(* ===== verification/GitRemotes.v ===== *)
(** * The remotes that git prints (ext/git/client.go, util/shell)

    What [git remote -v] prints of some remotes is read back as those remotes. *)

From S2P Require Import Prelude GoStrings GoPath Flaw Semv Ids ResolveFilter Builds.
From S2P Require Import Whitespace FirstErr Shell UrlParse Git.
#[local] Open Scope string_scope.
#[local] Open Scope Z_scope.
#[local] Open Scope list_scope.

(** ** Trimming *)

Lemma rev_str_acc acc s : rev_str acc s = rev_str "" s +:+ acc.
Proof.
  revert acc. induction s as [|c s IH]; intros acc; [done|]. cbn [rev_str]. rewrite IH, (IH (String.String c "")). by rewrite str_app_assoc.
Qed.
Lemma rev_str_app a b : rev_str "" (a +:+ b) = rev_str "" b +:+ rev_str "" a.
Proof.
  induction a as [|c a IH]; [by rewrite str_app_nil_r|]. change (String.String c a +:+ b) with (String.String c (a +:+ b)). cbn [rev_str].
  rewrite rev_str_acc, (rev_str_acc (String.String c "") a), IH. by rewrite str_app_assoc.
Qed.
Lemma rev_str_involutive s : rev_str "" (rev_str "" s) = s.
Proof.
  induction s as [|c s IH]; [done|]. cbn [rev_str]. rewrite (rev_str_acc (String.String c "") s), rev_str_app, IH. done.
Qed.

(** Text that begins, or that ends, with something else than white space. *)
Definition starts (s : string) : Prop := ∃ c s', s = String.String c s' ∧ is_ws c = false.
Definition stops (s : string) : Prop := ∃ s' c, s = s' +:+ String.String c "" ∧ is_ws c = false.

Lemma starts_app a b : starts a → starts (a +:+ b).
Proof. intros (c&s&->&Hc). by exists c, (s +:+ b). Qed.
Lemma stops_app a b : stops b → stops (a +:+ b).
Proof. intros (s&c&->&Hc). exists (a +:+ s), c. by rewrite str_app_assoc. Qed.

Lemma not_in_Chars c : is_ws c = false → c ∉ Chars.
Proof. apply bool_decide_eq_false. Qed.

Lemma trim_left_ws w s : Forall (λ c, is_ws c = true) (bytes w) → trim_left Chars (w +:+ s) = trim_left Chars s.
Proof.
  induction w as [|c w IH]; [done|]. intros [Hc Hw]%Forall_cons. change (String.String c w +:+ s) with (String.String c (w +:+ s)).
  cbn [trim_left]. rewrite decide_True by by apply is_ws_spec. by apply IH.
Qed.

Lemma Trim_tight s w : starts s → stops s → Forall (λ c, is_ws c = true) (bytes (rev_str "" w)) → Trim (s +:+ w) = s.
Proof.
  intros (c&s'&->&Hc) (s2&c2&Hs&Hc2) Hw. unfold Trim, trim. change (String.String c s' +:+ w) with (String.String c (s' +:+ w)).
  cbn [trim_left]. rewrite decide_False by by apply not_in_Chars.
  change (String.String c (s' +:+ w)) with (String.String c s' +:+ w). rewrite rev_str_app, trim_left_ws by done.
  rewrite Hs, rev_str_app. change (rev_str "" (String.String c2 "")) with (String.String c2 "").
  change (String.String c2 "" +:+ ?x) with (String.String c2 x). cbn [trim_left]. rewrite decide_False by by apply not_in_Chars.
  change (String.String c2 (rev_str "" s2)) with (rev_str "" (String.String c2 "") +:+ rev_str "" s2). by rewrite <-rev_str_app, rev_str_involutive.
Qed.

Lemma Trim_id s : starts s → stops s → Trim s = s.
Proof. intros H1 H2. rewrite <-(str_app_nil_r s) at 1. apply Trim_tight; [done|done|constructor]. Qed.

(** ** Tables *)

Definition word (s : string) : Prop := s ≠ "" ∧ no_ws s.

Lemma word_starts w : word w → starts w.
Proof. intros [Hne Hw]. destruct w as [|c w]; [done|]. apply Forall_cons in Hw as [Hc _]. by exists c, w. Qed.
Lemma word_stops w : word w → stops w.
Proof.
  intros [Hne Hw]. induction w as [|c w IH]; [done|]. apply Forall_cons in Hw as [Hc Hw]. destruct w as [|d w].
  - by exists "", c.
  - apply (stops_app (String.String c "")). by apply IH.
Qed.
Lemma no_ws_lacks c w : no_ws w → is_ws c = true → lacks c w = true.
Proof.
  intros Hw Hc. apply lacks_spec. intros Hin. unfold no_ws in Hw. rewrite Forall_forall in Hw. by rewrite Hw in Hc.
Qed.

Definition tab_char : ascii := "009"%char.

(** A line of three columns, the last of them after a space. *)
Definition print_row (r : string * string * string) : string :=
  let '(a, b, c) := r in a +:+ String.String tab_char (b +:+ String.String " " c).
Definition row_ok (r : string * string * string) : Prop := let '(a, b, c) := r in word a ∧ word b ∧ word c.
Definition cells (r : string * string * string) : list string := let '(a, b, c) := r in [a; b; c].

Definition line_end : string := String.String newline "".
Definition print_rows (rs : list (string * string * string)) : string := join "" ((λ r, print_row r +:+ line_end) <$> rs).

Lemma row_starts r : row_ok r → starts (print_row r).
Proof. destruct r as [[a b] c]. intros (Ha&_). apply starts_app. by apply word_starts. Qed.
Lemma row_stops r : row_ok r → stops (print_row r).
Proof.
  destruct r as [[a b] c]. intros (_&_&Hc). cbn. apply stops_app. apply (stops_app (String.String tab_char "")). apply stops_app.
  apply (stops_app (String.String " " "")). by apply word_stops.
Qed.
Lemma row_line r : row_ok r → lacks newline (print_row r) = true.
Proof.
  destruct r as [[a b] c]. intros ([_ Ha]&[_ Hb]&[_ Hc]). cbn. rewrite lacks_app, lacks_cons, lacks_app, lacks_cons.
  rewrite !no_ws_lacks by done. done.
Qed.

Lemma Split_row r : row_ok r → Split (print_row r) = cells r.
Proof.
  destruct r as [[a b] c]. intros (Ha&Hb&Hc). cbn.
  assert (∀ w s c' s', word w → w +:+ s = String.String c' s' → is_ws c' = false) as Hhd.
  { intros w s c' s' [Hne Hw] Heq. destruct w as [|x w]; [done|]. injection Heq as <- _. by apply Forall_cons in Hw as [Hx _]. }
  rewrite Split_cons; [|apply Ha|done|by intros c' s'; apply Hhd|by destruct Hb, b].
  rewrite Split_cons; [|apply Hb|done| |apply Hc].
  - by rewrite Split_word by apply Hc.
  - intros c' s' Heq. apply (Hhd c "" c' s' Hc). by rewrite str_app_nil_r.
Qed.

Lemma print_rows_join r rs : print_rows (r :: rs) = join line_end (print_row <$> r :: rs) +:+ line_end.
Proof.
  revert r. induction rs as [|r' rs IH]; intros r; [done|].
  change (print_rows (r :: r' :: rs)) with ((print_row r +:+ line_end) +:+ print_rows (r' :: rs)). rewrite IH.
  change (join line_end (print_row <$> r :: r' :: rs)) with (print_row r +:+ line_end +:+ join line_end (print_row <$> r' :: rs)).
  by rewrite !str_app_assoc.
Qed.

Lemma join_starts r rs : row_ok r → starts (join line_end (print_row <$> r :: rs)).
Proof. intros Hr. destruct rs as [|r' rs]; [by apply row_starts|]. apply starts_app. by apply row_starts. Qed.
Lemma join_stops r rs : Forall row_ok (r :: rs) → stops (join line_end (print_row <$> r :: rs)).
Proof.
  revert r. induction rs as [|r' rs IH]; intros r [Hr Hrs]%Forall_cons; [by apply row_stops|].
  change (stops (print_row r +:+ line_end +:+ join line_end (print_row <$> r' :: rs))). by apply stops_app, stops_app, IH.
Qed.

Lemma Output_Table_rows r rs : Forall row_ok (r :: rs) → Output_Table (print_rows (r :: rs)) = cells <$> r :: rs.
Proof.
  intros Hall. pose proof Hall as [Hr _]%Forall_cons. unfold Output_Table, Output_Lines, Output_String.
  rewrite print_rows_join, Trim_tight; [|by apply join_starts|by apply join_stops|repeat constructor].
  assert (Forall (λ w, lacks newline w = true) (print_row <$> r :: rs)) as Hlines.
  { apply Forall_fmap. eapply Forall_impl; [exact Hall|apply row_line]. }
  unfold line_end. rewrite split_on_join by done.
  rewrite <-!list_fmap_compose. apply list_fmap_ext. intros i x Hx. rewrite Forall_lookup in Hall. pose proof (Hall _ _ Hx) as Hok. cbn.
  rewrite Trim_id by (by apply row_starts || by apply row_stops). by apply Split_row.
Qed.

(** ** Remotes *)

Section Remotes.
Context `{System}.

(** What [git remote -v] prints of remotes. *)
Definition remote_rows (r : string * Remote) : list (string * string * string) :=
  [(r.1, FetchURL r.2, "(fetch)"); (r.1, PushURL r.2, "(push)")].
Definition print_remotes (l : list (string * Remote)) : string := print_rows (l ≫= remote_rows).
(** A remote that has been read: its name is that of the map. *)
Definition remote_ok (r : string * Remote) : Prop := Remote_Name r.2 = "" ∧ word r.1 ∧ word (FetchURL r.2) ∧ word (PushURL r.2).

Definition unnamed (rs : Remotes) : Prop := map_Forall (λ _ r, Remote_Name r = "") rs.

Lemma add_rows r rs : unnamed rs → remote_ok r → rfold add_remote (cells <$> remote_rows r) rs = Ok (<[r.1 := r.2]> rs).
Proof using.
  intros Hrs [Hz _]. destruct r as [n [z p f]]. cbn in Hz. subst z.
  assert (Remote_Name (ensureExists rs n) = "") as Hn.
  { unfold ensureExists. destruct (rs !! n) as [r|] eqn:Hr; [by apply (Hrs n r)|done]. }
  change (Ok (AddPush n p (AddFetch n f rs)) = (Ok (<[n := mkRemote "" p f]> rs) : result git_error Remotes)).
  unfold AddPush, AddFetch. rewrite Hn. unfold ensureExists. by rewrite lookup_insert_eq, insert_insert_eq.
Qed.

Lemma add_all l rs : unnamed rs → Forall remote_ok l →
  rfold add_remote (cells <$> (l ≫= remote_rows)) rs = Ok (foldl (λ m r, <[r.1 := r.2]> m) rs l).
Proof using.
  revert rs. induction l as [|r l IH]; intros rs Hrs Hl; [done|]. apply Forall_cons in Hl as [Hr Hl].
  cbn [mbind list_bind foldl]. rewrite fmap_app, rfold_app, add_rows by done. apply IH; [|done].
  apply map_Forall_insert_2; [apply Hr|done].
Qed.

Lemma foldl_insert (l : list (string * Remote)) : NoDup l.*1 → foldl (λ m r, <[r.1 := r.2]> m) (∅ : Remotes) l = list_to_map l.
Proof using.
  induction l as [|[n r] l IH] using rev_ind; [done|]. rewrite fmap_app, NoDup_app. intros (Hl&Hn&_).
  rewrite foldl_snoc, list_to_map_snoc, IH; [done|done|]. intros Hin. apply (Hn _ Hin). left.
Qed.

(** Remotes are read back from what git prints of them, in any order. *)
Theorem ListRemotes_printed (c : Client) (rs : Remotes) (l : list (string * Remote)) (p : process) :
  l ≡ₚ map_to_list rs → l ≠ [] → Forall remote_ok l →
  sys_exec (Cmd (Client_Sh c) (Bin c) ["remote"; "-v"]) = Ok p → p_end p = Exited 0 → p_stdout p = print_remotes l →
  ListRemotes c = Ok rs.
Proof using.
  intros Hl Hne Hok Hc He Hout. unfold ListRemotes, git_table, Table, SucceedResult, Command_Result. rewrite Hc, He.
  cbn [wait mbind result_bind fmap option_fmap option_map r_Err r_Stdout map_err git_ok]. rewrite Hout.
  destruct l as [|r l]; [done|]. unfold print_remotes.
  assert (Forall row_ok ((r :: l) ≫= remote_rows)) as Hrows.
  { apply Forall_bind. eapply Forall_impl; [exact Hok|]. intros r' (_&H1&H2&H3).
    assert (word "(fetch)" ∧ word "(push)") as [Hf Hp] by (split; (split; [done|repeat constructor])).
    apply Forall_cons_2; [exact (conj H1 (conj H2 Hf))|]. apply Forall_cons_2; [exact (conj H1 (conj H3 Hp))|apply Forall_nil_2]. }
  cbn [mbind list_bind remote_rows app] in Hrows |- *. rewrite Output_Table_rows by done. cbn [git_ok map_err mbind result_bind].
  change (rfold add_remote (cells <$> ((r :: l) ≫= remote_rows)) ∅ = Ok rs). rewrite add_all by (done || apply map_Forall_empty). f_equal.
  rewrite foldl_insert; [|rewrite Hl; apply NoDup_fst_map_to_list].
  symmetry. by apply list_to_map_flip.
Qed.

End Remotes.

Definition two_remotes : list (string * Remote) :=
  [("origin", mkRemote "" "git@github.com:me/sous.git" "https://github.com/me/sous");
   ("upstream", mkRemote "" "git@github.com:opentable/sous.git" "https://github.com/opentable/sous")].

Lemma ListRemotes_printed_witness :
  let _ := {| sys_exec _ := Ok (mkProcess (print_remotes two_remotes) "" "" (Exited 0)); sys_stat _ := None; sys_links _ := None |} in
  ListRemotes (mkClient (mkSh "/") "git" (mkVersion 2 7 4 "" "" "")) = Ok (list_to_map two_remotes).
Proof.
  intros S.
  apply (ListRemotes_printed _ _ two_remotes (mkProcess (print_remotes two_remotes) "" "" (Exited 0))); try reflexivity.
  - discriminate.
  - repeat first [apply Forall_cons_2|apply Forall_nil_2]; (split; [done|]); (split; [|split]); (split; [done|repeat constructor]).
Defined.
