(* ===== verification/Github.v ===== *)
(** * Locations of sources on GitHub (ext/github: sourcehost.go, sourcelocation.go)

    Which strings are locations on GitHub, and what locations they are. *)

From S2P Require Import Prelude GoStrings GoPath Semv Ids.
#[local] Open Scope string_scope.
#[local] Open Scope list_scope.

(** ** Characters *)

Definition Prefix : string := "github.com/".
Definition Alpha : list ascii := bytes "abcdefghijklmnopqrstuvwxyzABCDEFGHIJKLMNOPQRSTUVWXYZ".
Definition Numeric : list ascii := bytes "0123456789".
Definition Hyphen : list ascii := ["-"%char].
Definition Dot : list ascii := ["."%char].
Definition Underscore : list ascii := ["_"%char].
Definition Slash : list ascii := ["/"%char].
Definition UsernameAllowedChars : list ascii := Alpha ++ Numeric.
Definition UsernameAllowedMiddleChars : list ascii := UsernameAllowedChars ++ Hyphen.
Definition RepoNameAllowedChars : list ascii := Alpha ++ Numeric.
Definition RepoNameAllowedMiddleChars : list ascii := RepoNameAllowedChars ++ Hyphen ++ Dot ++ Underscore.
Definition OffsetAllowedChars : list ascii := Alpha ++ Numeric ++ Hyphen ++ Dot ++ Underscore ++ Slash.

Inductive gh_error : Type :=
| NoPrefix (s : string)
| NoRepository (s : string)
| IllegalCharacter (what s : string) (index : nat)
| NotOwned (sl : SourceLocation)
| NotSupported.

(** The characters of a string from the [i]th on.  A rune of several bytes is illegal
    at its first. *)
Fixpoint validate_from (what s : string) (allowed middle : list ascii) (i : nat) (cs : list ascii) : option gh_error :=
  match cs with
  | [] => None
  | c :: cs =>
      let chars := if bool_decide (i = 0%nat) || bool_decide (S i = String.length s) then allowed else middle in
      if bool_decide (c ∈ chars) then validate_from what s allowed middle (S i) cs else Some (IllegalCharacter what s i)
  end.
Definition validateChars (what s : string) (allowed middle : list ascii) : option gh_error :=
  validate_from what s allowed middle 0 (bytes s).

(** ** Locations *)

Record repoPath := mkRepoPath { rp_User : string; rp_Repo : string; rp_Dir : string }.

Definition parseRepoPath (s : string) : result gh_error repoPath :=
  match split_on "/" s with
  | _ :: user :: repo :: dir => if bool_decide (repo = "") then Err (NoRepository s) else Ok (mkRepoPath user repo (Join dir))
  | _ => Err (NoRepository s)
  end.

Definition Validate (rp : repoPath) : option gh_error :=
  match validateChars "username" (rp_User rp) UsernameAllowedChars UsernameAllowedMiddleChars with
  | Some e => Some e
  | None =>
      match validateChars "repository name" (rp_Repo rp) RepoNameAllowedChars RepoNameAllowedMiddleChars with
      | Some e => Some e
      | None => validateChars "offset directory" (rp_Dir rp) OffsetAllowedChars OffsetAllowedChars
      end
  end.

Definition gh_ParseSourceLocation (s : string) : result gh_error SourceLocation :=
  if has_prefix s Prefix then
    let '(repo, dir) := cut "," s in
    rp ← parseRepoPath repo;
    let rp := mkRepoPath (rp_User rp) (rp_Repo rp)
      (match dir with
       | None => rp_Dir rp
       | Some d => if bool_decide (rp_Dir rp = "") then d else rp_Dir rp +:+ "," +:+ d
       end) in
    match Validate rp with
    | Some e => Err e
    | None => Ok (mkSourceLocation (Join [Prefix; rp_User rp; rp_Repo rp]) (rp_Dir rp))
    end
  else Err (NoPrefix s).

Definition CanParseSourceLocation (s : string) : bool := has_prefix s Prefix.
Definition Owns (sl : SourceLocation) : bool := has_prefix (Repo sl) Prefix.
(** Nothing is fetched yet. *)
Definition GetSource (sid : SourceID) : gh_error := if Owns (Location sid) then NotSupported else NotOwned (Location sid).

(** ** Lemmas *)

(** The first and the last character are allowed, and all of them in the middle. *)
Definition valid_chars (allowed middle : list ascii) (s : string) : Prop :=
  ∀ i c, bytes s !! i = Some c → c ∈ (if bool_decide (i = 0%nat) || bool_decide (S i = String.length s) then allowed else middle).

Lemma validateChars_ok what s allowed middle : validateChars what s allowed middle = None ↔ valid_chars allowed middle s.
Proof.
  unfold validateChars, valid_chars. set (ok i c := c ∈ (if bool_decide (i = 0%nat) || bool_decide (S i = String.length s) then allowed else middle)).
  assert (∀ cs n, validate_from what s allowed middle n cs = None ↔ ∀ i c, cs !! i = Some c → ok (n + i)%nat c) as H.
  { induction cs as [|c cs IH]; intros n; [done|]. cbn [validate_from]. case_bool_decide as Hc.
    - rewrite IH. split.
      + intros H [|i] x Hx; [by injection Hx as <-; rewrite Nat.add_0_r|]. rewrite <-Nat.add_succ_comm. by apply H.
      + intros H i x Hx. rewrite Nat.add_succ_comm. by apply H.
    - split; [done|]. intros H. destruct Hc. specialize (H 0%nat c eq_refl). by rewrite Nat.add_0_r in H. }
  apply H.
Qed.

Lemma valid_lacks allowed middle c s : valid_chars allowed middle s → c ∉ allowed → c ∉ middle → lacks c s = true.
Proof.
  intros Hs Ha Hm. apply lacks_spec. intros [i Hi]%list_elem_of_lookup. specialize (Hs i c Hi).
  by destruct (bool_decide _ || bool_decide _).
Qed.

Definition username (u : string) : Prop := u ≠ "" ∧ valid_chars UsernameAllowedChars UsernameAllowedMiddleChars u.
Definition repository (r : string) : Prop := r ≠ "" ∧ valid_chars RepoNameAllowedChars RepoNameAllowedMiddleChars r.
Definition offset_ok (ps : list string) : Prop := Forall plain ps ∧ valid_chars OffsetAllowedChars OffsetAllowedChars (join "/" ps).

Ltac not_in := apply (bool_decide_unpack _); by vm_compute.

Lemma name_plain allowed middle s : s ≠ "" → valid_chars allowed middle s → "."%char ∉ allowed → "/"%char ∉ allowed → "/"%char ∉ middle → plain s.
Proof.
  intros Hne Hs Hd Hsl Hm. split_and!; [done| | |by eapply valid_lacks].
  - intros ->. apply Hd. apply (Hs 0%nat). done.
  - intros ->. apply Hd. apply (Hs 0%nat). done.
Qed.
Lemma username_plain u : username u → plain u.
Proof. intros [Hne Hu]. eapply name_plain; [done|exact Hu|not_in..]. Qed.
Lemma repository_plain r : repository r → plain r.
Proof. intros [Hne Hr]. eapply name_plain; [done|exact Hr|not_in..]. Qed.

Lemma Join_plain ps : ps ≠ [] → Forall plain ps → Join ps = join "/" ps.
Proof.
  intros Hne Hps. destruct ps as [|p ps]; [done|]. pose proof Hps as [Hp _]%Forall_cons. cbn [Join].
  rewrite decide_False by apply Hp. unfold Clean.
  assert (IsAbs (join "/" (p :: ps)) = false) as ->.
  { assert (∃ c q, join "/" (p :: ps) = String.String c q ∧ c ≠ slash) as (c&q&->&Hc).
    { destruct Hp as (Hp&_&_&Hl). destruct p as [|c p]; [done|]. rewrite lacks_cons in Hl. apply andb_prop in Hl as [Hc _].
      apply negb_true_iff, bool_decide_eq_false in Hc. exists c. destruct ps; eexists; (split; [done|congruence]). }
    cbn. rewrite andb_true_r. by apply bool_decide_eq_false. }
  rewrite split_on_join by (done || by apply plain_lacks). rewrite clean_comps_id; [|by exists 0%nat, (p :: ps)].
  done.
Qed.

Lemma Join_github u r : username u ∨ u = "" → repository r →
  Join [Prefix; u; r] = Prefix +:+ (if bool_decide (u = "") then r else u +:+ "/" +:+ r).
Proof.
  intros Hu Hr%repository_plain. cbn [Join]. rewrite decide_False by done. unfold Clean.
  change (IsAbs (join "/" [Prefix; u; r])) with false.
  change (split_on slash (join "/" [Prefix; u; r])) with ("github.com" :: "" :: split_on slash (u +:+ String.String slash r)).
  rewrite split_on_app_join. assert (split_on slash r = [r]) as -> by by apply split_on_lacks, Hr.
  assert (∀ l, clean_comps false ("github.com" :: "" :: l) = clean_comps false ("github.com" :: l)) as -> by done.
  destruct Hu as [Hu%username_plain| ->].
  - assert (split_on slash u = [u]) as -> by by apply split_on_lacks, Hu.
    rewrite bool_decide_eq_false_2 by apply Hu. rewrite clean_comps_id; [done|]. exists 0%nat, ["github.com"; u; r].
    split_and!; [done| |done]. repeat constructor; try done; apply Hu || apply Hr.
  - change (split_on slash "") with [""]. rewrite bool_decide_eq_true_2 by done.
    assert (∀ l, clean_comps false ("github.com" :: [""] ++ l) = clean_comps false ("github.com" :: l)) as -> by done.
    rewrite clean_comps_id; [done|]. exists 0%nat, ["github.com"; r]. split_and!; [done| |done]. repeat constructor; try done; apply Hr.
Qed.

Definition slash_path (ps : list string) : string := if bool_decide (ps = []) then "" else "/" +:+ join "/" ps.

Lemma parse_github u r ps : plain u → plain r → Forall plain ps →
  parseRepoPath (Prefix +:+ u +:+ "/" +:+ r +:+ slash_path ps) = Ok (mkRepoPath u r (join "/" ps)).
Proof.
  intros Hu Hr Hps. unfold parseRepoPath.
  change (Prefix +:+ u +:+ "/" +:+ r +:+ slash_path ps) with ("github.com" +:+ String.String slash (u +:+ String.String slash (r +:+ slash_path ps))).
  rewrite !split_on_app_join. assert (split_on slash u = [u]) as -> by by apply split_on_lacks, Hu.
  assert (split_on slash (r +:+ slash_path ps) = r :: ps) as ->.
  { unfold slash_path. case_bool_decide as Hps'.
    - subst. rewrite str_app_nil_r. by apply split_on_lacks, Hr.
    - change ("/" +:+ ?x) with (String.String slash x). rewrite split_on_app_join, split_on_join by (done || by apply plain_lacks).
      by rewrite split_on_lacks by apply Hr. }
  change (split_on slash "github.com") with ["github.com"]. cbn [app]. rewrite bool_decide_eq_false_2 by apply Hr.
  f_equal. f_equal. destruct (decide (ps = [])) as [->|Hne]; [done|]. by apply Join_plain.
Qed.

(** A user, a repository and an offset that are made of the characters that are
    allowed are one location of GitHub, and it is parsed from either spelling: the offset
    after a comma, as a location is printed, or after a slash. *)
Theorem gh_ParseSourceLocation_spellings (u r : string) (ps : list string) :
  username u → repository r → offset_ok ps →
  let sl := mkSourceLocation (Prefix +:+ u +:+ "/" +:+ r) (join "/" ps) in
  gh_ParseSourceLocation (SourceLocation_String sl) = Ok sl ∧
  gh_ParseSourceLocation (Repo sl +:+ slash_path ps) = Ok sl.
Proof.
  intros Hu Hr [Hps Hoff] sl. pose proof (username_plain u Hu) as Pu. pose proof (repository_plain r Hr) as Pr.
  assert (Validate (mkRepoPath u r (join "/" ps)) = None) as Hval.
  { unfold Validate. cbn [rp_User rp_Repo rp_Dir]. by rewrite !(proj2 (validateChars_ok _ _ _ _)) by (apply Hu || apply Hr || exact Hoff). }
  assert (Join [Prefix; u; r] = Repo sl) as HJ by (rewrite Join_github by auto; rewrite bool_decide_eq_false_2 by apply Hu; done).
  assert (lacks "," (join "/" ps) = true) as Hlo by (eapply valid_lacks; [exact Hoff|not_in..]).
  assert (lacks "," (Repo sl) = true) as Hlr.
  { cbn [Repo sl]. rewrite !lacks_app. rewrite (valid_lacks _ _ _ _ (proj2 Hu)) by not_in. by rewrite (valid_lacks _ _ _ _ (proj2 Hr)) by not_in. }
  assert (lacks "," (slash_path ps) = true) as Hls.
  { unfold slash_path. case_bool_decide; [done|]. by rewrite lacks_app, Hlo. }
  assert (∀ x, has_prefix (Repo sl +:+ x) Prefix = true) as Hpre by by intros x; destruct x.
  assert (parseRepoPath (Repo sl +:+ slash_path ps) = Ok (mkRepoPath u r (join "/" ps))) as Hparse.
  { rewrite <-(parse_github u r ps) by done. cbn [Repo sl]. by rewrite !str_app_assoc. }
  split.
  - unfold SourceLocation_String. cbn [Dir]. case_decide as Hd.
    + unfold gh_ParseSourceLocation. rewrite <-(str_app_nil_r (Repo sl)) at 1. rewrite Hpre, cut_lacks by done.
      cbn [Dir sl] in Hd. assert (ps = []) as -> by (destruct ps as [|p ps]; [done|]; apply Forall_cons in Hps as [Hp _]; destruct Hp as [Hp _], p, ps; done).
      cbn [slash_path bool_decide] in Hparse. rewrite str_app_nil_r in Hparse. rewrite Hparse. cbn [mbind result_bind rp_User rp_Repo rp_Dir].
      rewrite Hval. cbn [rp_User rp_Repo rp_Dir]. by rewrite HJ.
    + unfold gh_ParseSourceLocation. rewrite Hpre. change ("," +:+ ?x) with (String.String "," x). rewrite cut_app by done.
      pose proof (parse_github u r [] Pu Pr (Forall_nil_2 _)) as Hp0. cbn [slash_path bool_decide join] in Hp0.
      rewrite str_app_nil_r in Hp0. cbn [Repo sl]. rewrite Hp0. cbn [mbind result_bind rp_User rp_Repo rp_Dir].
      rewrite bool_decide_eq_true_2 by done. change (Dir sl) with (join "/" ps). rewrite Hval. cbn [rp_User rp_Repo rp_Dir]. by rewrite HJ.
  - unfold gh_ParseSourceLocation. rewrite Hpre, cut_lacks by (rewrite lacks_app, Hlr; done).
    rewrite Hparse. cbn [mbind result_bind rp_User rp_Repo rp_Dir]. rewrite Hval. cbn [rp_User rp_Repo rp_Dir]. by rewrite HJ.
Qed.

Lemma gh_ParseSourceLocation_spellings_witness :
  gh_ParseSourceLocation "github.com/opentable/sous,util/shell" = Ok (mkSourceLocation "github.com/opentable/sous" "util/shell") ∧
  gh_ParseSourceLocation "github.com/opentable/sous/util/shell" = Ok (mkSourceLocation "github.com/opentable/sous" "util/shell").
Proof.
  assert (∀ what s allowed middle, validateChars what s allowed middle = None → valid_chars allowed middle s) as H.
  { intros what s allowed middle. apply validateChars_ok. }
  apply (gh_ParseSourceLocation_spellings "opentable" "sous" ["util"; "shell"]).
  - split; [discriminate|]. apply (H ""). vm_compute. reflexivity.
  - split; [discriminate|]. apply (H ""). vm_compute. reflexivity.
  - split; [|apply (H ""); vm_compute; reflexivity].
    apply Forall_cons_2; [|apply Forall_cons_2; [|apply Forall_nil_2]]; (split; [discriminate|split; [discriminate|split; [discriminate|reflexivity]]]).
Defined.

Lemma gh_parsed s sl : gh_ParseSourceLocation s = Ok sl →
  ∃ u r, (username u ∨ u = "") ∧ repository r ∧ valid_chars OffsetAllowedChars OffsetAllowedChars (Dir sl) ∧
    Repo sl = Prefix +:+ (if bool_decide (u = "") then r else u +:+ "/" +:+ r).
Proof.
  unfold gh_ParseSourceLocation. destruct (has_prefix s Prefix); [|done]. destruct (cut "," s) as [repo dir].
  destruct (parseRepoPath repo) as [rp|e] eqn:Hrp; [|done]. cbn [mbind result_bind rp_User rp_Repo rp_Dir].
  set (rp' := mkRepoPath _ _ _). destruct (Validate rp') eqn:Hval; [done|]. intros [= <-]. subst rp'.
  assert (rp_Repo rp ≠ "") as Hne.
  { clear Hval. unfold parseRepoPath in Hrp. destruct (split_on _ _) as [|? [|? [|? ?]]]; try done. case_bool_decide; [done|]. injection Hrp as <-; assumption. }
  unfold Validate in Hval. cbn [rp_User rp_Repo rp_Dir] in Hval.
  destruct (validateChars "username" _ _ _) eqn:Hu; [done|]. destruct (validateChars "repository name" _ _ _) eqn:Hr; [done|].
  apply validateChars_ok in Hu, Hr, Hval.
  assert (username (rp_User rp) ∨ rp_User rp = "") as Hu' by (destruct (decide (rp_User rp = "")); [by right|left; by split]).
  exists (rp_User rp), (rp_Repo rp). refine (conj Hu' (conj (conj Hne Hr) (conj Hval _))).
  apply Join_github; [done|by split].
Qed.

(** What is accepted is owned: its repository is on GitHub, of a repository's name
    and, at most, a user's, and its offset has no illegal character. *)
Theorem gh_ParseSourceLocation_owned (s : string) (sl : SourceLocation) :
  gh_ParseSourceLocation s = Ok sl →
  CanParseSourceLocation s = true ∧ Owns sl = true ∧ valid_chars OffsetAllowedChars OffsetAllowedChars (Dir sl) ∧
  ∃ u r, (username u ∨ u = "") ∧ repository r ∧ path_comps (Repo sl) = "github.com" :: filter (λ c, c ≠ "") [u; r].
Proof.
  intros Hs. destruct (gh_parsed s sl Hs) as (u&r&Hu&Hr&Hd&Hrepo). split_and!; [| |done|].
  - unfold CanParseSourceLocation. unfold gh_ParseSourceLocation in Hs. by destruct (has_prefix s Prefix).
  - unfold Owns. rewrite Hrepo. by destruct (if bool_decide _ then _ else _).
  - exists u, r. split_and!; [done|done|]. rewrite Hrepo. pose proof (repository_plain r Hr) as (Hr0&_&_&Hrl).
    unfold path_comps. change (Prefix +:+ ?x) with ("github.com" +:+ String.String slash x). rewrite split_on_app_join.
    change (split_on slash "github.com") with ["github.com"]. rewrite filter_app. cbn [app]. f_equal.
    destruct Hu as [Hu| ->].
    + pose proof (username_plain u Hu) as (Hu0&_&_&Hul). rewrite bool_decide_eq_false_2 by done.
      change (u +:+ "/" +:+ r) with (u +:+ String.String slash r). by rewrite split_on_app_join, !split_on_lacks.
    + by rewrite bool_decide_eq_true_2, split_on_lacks.
Qed.

Lemma gh_ParseSourceLocation_owned_witness :
  gh_ParseSourceLocation "github.com/opentable/sous/util/../lib" = Ok (mkSourceLocation "github.com/opentable/sous" "lib") ∧
  Owns (mkSourceLocation "github.com/opentable/sous" "lib") = true.
Proof.
  assert (gh_ParseSourceLocation "github.com/opentable/sous/util/../lib" = Ok (mkSourceLocation "github.com/opentable/sous" "lib")) as Hs by (vm_compute; reflexivity).
  split; [exact Hs|]. exact (proj1 (proj2 (gh_ParseSourceLocation_owned _ _ Hs))).
Defined.

(** ** Examples *)

(** No user, and an offset that leaves the repository. *)
Lemma gh_no_user : gh_ParseSourceLocation "github.com//sous" = Ok (mkSourceLocation "github.com/sous" "").
Proof. vm_compute. reflexivity. Qed.
Lemma gh_outside : gh_ParseSourceLocation "github.com/opentable/sous,../other" = Ok (mkSourceLocation "github.com/opentable/sous" "../other").
Proof. vm_compute. reflexivity. Qed.
Example gh_comma : gh_ParseSourceLocation "github.com/opentable/sous/a,b" = Err (IllegalCharacter "offset directory" "a,b" 1).
Proof. vm_compute. reflexivity. Qed.
Example gh_hyphen : gh_ParseSourceLocation "github.com/opentable/sous-" = Err (IllegalCharacter "repository name" "sous-" 4).
Proof. vm_compute. reflexivity. Qed.
