(* ===== verification/Cmdr.v ===== *)
(** * Command lines (util/cmdr; cli/cli.go, cli/sous.go, cli/sous_help.go)

    A tree of commands, how the arguments choose one of them and set its flags, and what
    becomes of its result.  Flags are parsed by Go's package [flag], as of Go 1.10.
    What commands and hooks act on is the type [W]. *)

From S2P Require Import Prelude GoStrings Flaw Whitespace.
#[local] Open Scope string_scope.
#[local] Open Scope Z_scope.
#[local] Open Scope list_scope.

(** ** Results *)

Definition EX_OK : Z := 0.
Definition EX_USAGE : Z := 64.
Definition EX_SOFTWARE : Z := 70.
Definition EX_OSERR : Z := 71.
Definition EX_IOERR : Z := 74.

(** The types of error results: the last is the [*cliErr] that the others hold. *)
Inductive err_type : Type := InternalErr | UsageErr | OSErr | IOErr | UnknownErr | PlainErr.
#[export] Instance err_type_eq_dec : EqDecision err_type.
Proof. solve_decision. Defined.

(** Errors: error results, those of paths, and others. *)
Inductive cmdr_error : Type :=
| ErrorResult (t : err_type) (Message Tip : text) (Err : option cmdr_error)
| PathError (msg : text)
| OtherError (msg : text).

(** Results; the errors among them are error results. *)
Inductive Result : Type :=
| SuccessResult (Data : string)
| ErrorRes (e : cmdr_error).

Definition newError (t : err_type) (format : text) (v : list arg) : cmdr_error := ErrorResult t (Sprintf format v) (Lit "") None.
Definition InternalErrorf (format : text) (v : list arg) : cmdr_error := newError InternalErr format v.
Definition UsageErrorf (format : text) (v : list arg) : cmdr_error := newError UsageErr format v.
Definition OSErrorf (format : text) (v : list arg) : cmdr_error := newError OSErr format v.
Definition IOErrorf (format : text) (v : list arg) : cmdr_error := newError IOErr format v.
Definition UnknownErrorf (format : text) (v : list arg) : cmdr_error := newError UnknownErr format v.

Definition err_ExitCode (t : err_type) : Z :=
  match t with InternalErr => EX_SOFTWARE | UsageErr => EX_USAGE | OSErr => EX_OSERR | IOErr => EX_IOERR | UnknownErr | PlainErr => 255 end.

Definition EnsureErrorResult (e : option cmdr_error) : cmdr_error :=
  match e with
  | Some (ErrorResult _ _ _ _ as r) => r
  | Some (PathError _ as p) => ErrorResult OSErr (Lit "") (Lit "") (Some p)
  | _ => ErrorResult UnknownErr (Lit "") (Lit "") e
  end.

(** What an error result is after a tip was given, or an error under it: the plain
    error that it holds. *)
Definition WithTip (e : cmdr_error) (tip : text) : cmdr_error :=
  match e with ErrorResult _ m _ u => ErrorResult PlainErr m tip u | e => e end.
Definition WithUnderlyingError (e : cmdr_error) (err : option cmdr_error) : cmdr_error :=
  match e with ErrorResult _ m t _ => ErrorResult PlainErr m t err | e => e end.
Definition UnderlyingError (e : cmdr_error) : cmdr_error :=
  match e with ErrorResult _ m t None => ErrorResult PlainErr m t None | ErrorResult _ _ _ (Some u) => u | e => e end.
Definition UserTip (e : cmdr_error) : text := match e with ErrorResult _ _ t _ => t | _ => Lit "" end.

Definition no_text (t : text) : bool := match t with Lit "" => true | _ => false end.

Fixpoint err_Error (e : cmdr_error) : text :=
  match e with
  | ErrorResult _ m _ None => m
  | ErrorResult _ m _ (Some u) => if no_text m then err_Error u else errorf "%s: %s" [AText m; AText (err_Error u)]
  | PathError m | OtherError m => m
  end.
Definition err_prefix (prefix : string) (e : cmdr_error) : text := errorf "%s error: %s" [AStr prefix; AText (err_Error e)].

Definition ExitCode (r : Result) : Z :=
  match r with SuccessResult _ => EX_OK | ErrorRes (ErrorResult t _ _ _) => err_ExitCode t | ErrorRes _ => 255 end.

Definition SuccessData (d : string) : Result := SuccessResult d.
Definition GeneralErrorf (format : string) (a : list arg) : cmdr_error := EnsureErrorResult (Some (OtherError (errorf format a))).
Definition ProduceResult (e : option cmdr_error) : Result :=
  match e with Some _ => ErrorRes (EnsureErrorResult e) | None => SuccessResult (String.String newline "") end.

Definition IsSuccess (r : option Result) : bool := match r with Some (SuccessResult _) => true | _ => false end.

Section Cmdr.
Context {W : Type}.

(** ** Flags *)

(** A flag, whether it is one of [boolFlag]s, and what setting it does. *)
Record flag := mkFlag { flag_name : string; flag_bool : bool; flag_set : string → W → W * option text }.

Inductive flag_error : Type := ErrHelp | Failf (msg : text).

Inductive token : Type := NotFlag | Terminator | BadSyntax | FlagTok (name : string) (value : option string).

Definition named (name : string) : token :=
  match name with
  | "" => BadSyntax
  | String.String c r =>
      if bool_decide (c = "-"%char) || bool_decide (c = "="%char) then BadSyntax
      else let '(a, v) := cut "=" r in FlagTok (String.String c a) v
  end.
Definition flag_token (s : string) : token :=
  match s with
  | String.String c (String.String d r) =>
      if bool_decide (c = "-"%char) then
        if bool_decide (d = "-"%char) then (if bool_decide (r = "") then Terminator else named r) else named (String.String d r)
      else NotFlag
  | _ => NotFlag
  end.

Definition flag_lookup (fs : list flag) (name : string) : option flag := List.find (λ f, bool_decide (flag_name f = name)) fs.

(** [FlagSet.Parse]: the arguments that are left, and the error. *)
Fixpoint parse_flags (fs : list flag) (args : list string) (w : W) : W * list string * option flag_error :=
  match args with
  | [] => (w, [], None)
  | s :: rest =>
      match flag_token s with
      | NotFlag => (w, args, None)
      | Terminator => (w, rest, None)
      | BadSyntax => (w, args, Some (Failf (errorf "bad flag syntax: %s" [AStr s])))
      | FlagTok name value =>
          match flag_lookup fs name with
          | None =>
              (w, rest, Some (if bool_decide (name = "help") || bool_decide (name = "h") then ErrHelp
                              else Failf (errorf "flag provided but not defined: -%s" [AStr name])))
          | Some f =>
              if flag_bool f then
                let '(w, e) := flag_set f (default "true" value) w in
                match e, value with
                | None, _ => parse_flags fs rest w
                | Some e, Some v => (w, rest, Some (Failf (errorf "invalid boolean value %q for -%s: %v" [AStr v; AStr name; AText e])))
                | Some e, None => (w, rest, Some (Failf (errorf "invalid boolean flag %s: %v" [AStr name; AText e])))
                end
              else
                match value, rest with
                | Some v, rest | None, v :: rest =>
                    let '(w, e) := flag_set f v w in
                    match e with
                    | None => parse_flags fs rest w
                    | Some e => (w, rest, Some (Failf (errorf "invalid value %q for flag -%s: %v" [AStr v; AStr name; AText e])))
                    end
                | None, [] => (w, [], Some (Failf (errorf "flag needs an argument: -%s" [AStr name])))
                end
          end
      end
  end.

(** ** Commands *)

(** A command, and which of [Executor], [Subcommander] and [AddsFlags] it is as well.
    A result may be nil. *)
Inductive Command : Type := mkCommand {
  Help : string;
  Execute : option (list string → W → W * option Result);
  Subcommands : option (list (string * Command));
  AddFlags : option (list flag)
}.
Abbreviation Commands := (list (string * Command)).

Definition find_command (subs : Commands) (name : string) : option Command :=
  snd <$> List.find (λ p, bool_decide (p.1 = name)) subs.

Definition SortedKeys (cs : Commands) : list string := sort_strings cs.*1.
Definition ListSubcommands (base : Command) : list string :=
  match Subcommands base with Some subs => sort_strings subs.*1 | None => [] end.

(** The line of a subcommand in the help of its command. *)
Definition subcommand_line (cs : Commands) (name : string) : text :=
  let help := match find_command cs name with Some c => Help c | None => "" end in
  errorf ("  %-10s%s" +:+ String.String newline "") [AStr name; AStr (hd "" (split_on newline help))].
Definition formatSubcommands (c : Command) : text :=
  match Subcommands c with
  | None => Lit ""
  | Some cs =>
      let nl := String.String newline "" in
      foldl Cat (Lit (nl +:+ nl +:+ "subcommands:" +:+ nl)) (subcommand_line cs <$> SortedKeys cs)
  end.

Fixpoint findBottomCommand (cmd : Command) (cmdArgs : list string) : Command :=
  match cmdArgs with
  | [] => cmd
  | next :: rest =>
      match Subcommands cmd with
      | None => cmd
      | Some subs => match find_command subs next with Some child => findBottomCommand child rest | None => cmd end
      end
  end.

(** ** The command line *)

Record Hooks := mkHooks {
  Startup : option (W → W * option cmdr_error);
  Parsed : option (Command → W → W * option cmdr_error);
  PreExecute : option (Command → W → W * option cmdr_error);
  PreFail : option (option cmdr_error → W → W * cmdr_error)
}.

Record CLI := mkCLI {
  Root : Command;
  CLI_Hooks : Hooks;
  HelpCommand : string;
  GlobalFlagSetFuncs : list (list flag)
}.

Record PreparedExecution := mkPrepared { Cmd : list string → W → W * option Result; Args : list string }.

Definition runHook (hook : option (Command → W → W * option cmdr_error)) (command : Command) (w : W) : W * option cmdr_error :=
  match hook with None => (w, None) | Some h => h command w end.

(** The error of flags that did not parse, or of a request for help. *)
Definition usage_of (c : CLI) (e : flag_error) : cmdr_error :=
  let tip := errorf "for help, use `%s`" [AStr (HelpCommand c)] in
  match e with
  | ErrHelp => UsageErrorf tip []
  | Failf msg => WithTip (UsageErrorf msg []) tip
  end.

(** The hooks before a command, which may stop it. *)
Definition run_hooks (c : CLI) (cmd : Command) (execute : list string → W → W * option Result) (args : list string) (w : W) :
    W * result cmdr_error PreparedExecution :=
  let '(w, e) := runHook (Parsed (CLI_Hooks c)) cmd w in
  match e with
  | Some e => (w, Err e)
  | None =>
      let '(w, e) := runHook (PreExecute (CLI_Hooks c)) cmd w in
      match e with Some e => (w, Err e) | None => (w, Ok (mkPrepared execute args)) end
  end.

(** The command that was found runs here: [None] is a panic, of a flag that is added
    twice. *)
Definition prepare_here (c : CLI) (cmd : Command) (cmdName : string) (cmdArgs : list string) (funcs : list (list flag)) (w : W) :
    option (W * result cmdr_error PreparedExecution) :=
  match Execute cmd with
  | None => Some (w, Err (InternalErrorf (Lit "%q is not runnable and has no subcommands") [AStr cmdName]))
  | Some execute =>
      let fs := concat (GlobalFlagSetFuncs c) ++ concat funcs in
      if decide (NoDup (flag_name <$> fs)) then
        let '(w, bottomCmdArgs, e) := parse_flags fs cmdArgs w in
        Some (match e with Some e => (w, Err (usage_of c e)) | None => run_hooks c cmd execute bottomCmdArgs w end)
      else None
  end.

Definition own_flags (cmd : Command) (funcs : list (list flag)) : list (list flag) :=
  match AddFlags cmd with Some f => [f] | None => funcs end.

Definition descend (cmd : Command) (cmdArgs : list string) : option Command :=
  match Subcommands cmd, cmdArgs with Some subs, name :: _ => find_command subs name | _, _ => None end.

Fixpoint prepare (c : CLI) (cmd : Command) (cmdArgs : list string) (funcs : list (list flag)) (w : W) :
    option (W * result cmdr_error PreparedExecution) :=
  match cmdArgs with
  | [] => Some (w, Err (InternalErrorf (Lit "command %T received zero args") []))
  | cmdName :: cmdArgs =>
      match descend cmd cmdArgs with
      | Some sub => prepare c sub cmdArgs (own_flags cmd funcs) w
      | None => prepare_here c cmd cmdName cmdArgs (own_flags cmd funcs) w
      end
  end.

(** The hook of the start runs once, and its error is dropped. *)
Definition started (c : CLI) : CLI :=
  mkCLI (Root c) (mkHooks None (Parsed (CLI_Hooks c)) (PreExecute (CLI_Hooks c)) (PreFail (CLI_Hooks c))) (HelpCommand c) (GlobalFlagSetFuncs c).
Definition Prepare (c : CLI) (args : list string) (w : W) : option (CLI * W * result cmdr_error PreparedExecution) :=
  let w := match Startup (CLI_Hooks c) with Some h => (h w).1 | None => w end in
  '(w, r) ← prepare (started c) (Root c) args [] w; Some (started c, w, r).

Definition InvokeWithoutPrinting (c : CLI) (args : list string) (w : W) : option (CLI * W * option Result) :=
  '(c, w, r) ← Prepare c args w;
  match r with
  | Err e => Some (c, w, Some (ErrorRes (EnsureErrorResult (Some e))))
  | Ok p => let '(w, r) := Cmd p (Args p) w in Some (c, w, r)
  end.

(** What is written to the outputs. *)
Record written := mkWritten { out : list text; err : list text }.

Definition printTip (tip : text) : list text :=
  if no_text tip then [] else [Lit "Tip: "; Sprintf tip []; Lit (String.String newline "")].
Definition handleErrorResult (c : CLI) (e : cmdr_error) (w : W) : W * written :=
  let '(w, e) := match PreFail (CLI_Hooks c) with Some h => h (Some (UnderlyingError e)) w | None => (w, e) end in
  (w, mkWritten [] ([err_Error e; Lit (String.String newline "")] ++ printTip (UserTip e))).
Definition handleSuccessResult (data : string) : written := mkWritten (if bool_decide (data = "") then [] else [Lit data]) [].

Definition OutputResult (c : CLI) (r : option Result) (w : W) : W * written :=
  match r with
  | Some (SuccessResult data) => (w, handleSuccessResult data)
  | Some (ErrorRes e) => handleErrorResult c e w
  | None => handleErrorResult c (InternalErrorf (Lit "nil result returned from %T") []) w
  end.

Definition Invoke (c : CLI) (args : list string) (w : W) : option (CLI * W * written * option Result) :=
  '(c, w, r) ← InvokeWithoutPrinting c args w;
  let '(w, o) := OutputResult c r w in Some (c, w, o, r).

(** The code that the process exits with: a nil result has none, and panics. *)
Definition InvokeAndExit (c : CLI) (args : list string) (w : W) : option (W * written * Z) :=
  '(_, w, o, r) ← Invoke c args w; r ← r; Some (w, o, ExitCode r).

(** *** The command sous *)

Definition usage : cmdr_error := ErrorResult UsageErr (Sprintf (Lit "usage: sous [options] command") []) (Lit "try `sous help` for a list of commands") None.

(** Without a command, the help, which is valid UTF-8, is a usage error. *)
Definition Sous_Execute (c : CLI) (w : W) : option (CLI * W * option Result) :=
  '(c, w, r) ← InvokeWithoutPrinting c ["sous"; "help"] w;
  Some (c, w, Some (ErrorRes (match r with
                              | Some (SuccessResult data) => UsageErrorf (Lit (Trim data +:+ String.String newline "")) []
                              | _ => usage
                              end))).

(** ** Theorems: commands *)

(** The commands from one to the one that its arguments choose. *)
Fixpoint chain (cmd : Command) (cmdArgs : list string) : list Command :=
  match cmdArgs with
  | [] => [cmd]
  | _ :: rest => match descend cmd cmdArgs with Some sub => cmd :: chain sub rest | None => [cmd] end
  end.

Lemma chain_cons cmd args : ∃ l, chain cmd args = cmd :: l.
Proof using. destruct args as [|name args]; [by eexists|]. cbn [chain]. destruct (descend cmd _); by eexists. Qed.

Lemma chain_bottom cmd args : last (chain cmd args) = Some (findBottomCommand cmd args).
Proof using.
  revert cmd. induction args as [|name args IH]; intros cmd; [done|]. cbn [chain findBottomCommand descend].
  unfold descend. destruct (Subcommands cmd) as [subs|]; [|done]. destruct (find_command subs name) as [sub|]; [|done].
  destruct (chain_cons sub args) as [l Hl]. rewrite <-IH, Hl. done.
Qed.

Lemma own_flags_last cmd l funcs :
  match last (omap AddFlags (cmd :: l)) with Some f => [f] | None => funcs end =
  match last (omap AddFlags l) with Some f => [f] | None => own_flags cmd funcs end.
Proof using.
  unfold own_flags. cbn [omap list_omap]. destruct (AddFlags cmd) as [f|]; [|done].
  destruct (omap AddFlags l) as [|g gs]; [done|].
  change (last (f :: g :: gs)) with (last (g :: gs)). destruct (last (g :: gs)) eqn:Hl; [done|]. by apply last_None in Hl.
Qed.

Lemma prepare_chain c cmd name args funcs w :
  let n := (length (chain cmd args) - 1)%nat in
  prepare c cmd (name :: args) funcs w =
  prepare_here c (findBottomCommand cmd args) (nth n (name :: args) "") (drop n args)
    (match last (omap AddFlags (chain cmd args)) with Some f => [f] | None => funcs end) w.
Proof using.
  revert cmd name funcs. induction args as [|next args IH]; intros cmd name funcs.
  - cbn [chain length Nat.sub nth drop findBottomCommand prepare]. rewrite own_flags_last. unfold descend. by destruct (Subcommands cmd).
  - cbn zeta. cbn [chain]. change (prepare c cmd (name :: next :: args) funcs w) with
      (match descend cmd (next :: args) with
       | Some sub => prepare c sub (next :: args) (own_flags cmd funcs) w
       | None => prepare_here c cmd name (next :: args) (own_flags cmd funcs) w end).
    destruct (descend cmd (next :: args)) as [sub|] eqn:Hd.
    + rewrite (IH sub next). rewrite own_flags_last. destruct (chain_cons sub args) as [l Hl]. rewrite Hl.
      cbn [length]. rewrite !Nat.sub_succ, !Nat.sub_0_r. cbn [nth drop]. f_equal.
      unfold descend in Hd. cbn [findBottomCommand]. destruct (Subcommands cmd); [|done]. by rewrite Hd.
    + rewrite own_flags_last. cbn [length Nat.sub nth drop omap list_omap last]. f_equal.
      unfold descend in Hd. cbn [findBottomCommand]. destruct (Subcommands cmd); [|done]. by rewrite Hd.
Qed.

(** The command that is executed is the one whose help is found for the same
    arguments; it is given the arguments after those that chose it, and the flags that
    are parsed, next to the global ones, are only those of the last of the commands on
    the way to it that has any. *)
Theorem prepare_bottom (c : CLI) (root : Command) (name : string) (args : list string) (w : W) :
  let path := chain root args in
  let n := (length path - 1)%nat in
  last path = Some (findBottomCommand root args) ∧
  prepare c root (name :: args) [] w =
    prepare_here c (findBottomCommand root args) (nth n (name :: args) "") (drop n args) (option_list (last (omap AddFlags path))) w.
Proof using.
  split; [apply chain_bottom|]. rewrite prepare_chain. by destruct (last (omap AddFlags _)).
Qed.

(** ** Theorems: flags *)

(** A flag as it is written, with one dash or two; its value after an equals sign, or
    in an argument of its own, or without a value. *)
Inductive assignment : Type := Inline (name value : string) | Spaced (name value : string) | Switch (name : string).
Definition a_name (a : assignment) : string := match a with Inline n _ | Spaced n _ | Switch n => n end.
Definition a_value (a : assignment) : string := match a with Inline _ v | Spaced _ v => v | Switch _ => "true" end.
Definition dashes (double : bool) : string := if double then "--" else "-".
Definition print_flag (p : bool * assignment) : list string :=
  match p.2 with
  | Inline n v => [dashes p.1 +:+ n +:+ "=" +:+ v]
  | Spaced n v => [dashes p.1 +:+ n; v]
  | Switch n => [dashes p.1 +:+ n]
  end.

Definition name_ok (n : string) : Prop := ∃ c r, n = String.String c r ∧ c ≠ "-"%char ∧ c ≠ "="%char ∧ lacks "=" r = true.

(** The flag is defined, it takes a value this way, and it accepts the value. *)
Definition assignable (fs : list flag) (a : assignment) : Prop :=
  name_ok (a_name a) ∧ ∃ f, flag_lookup fs (a_name a) = Some f ∧ (∀ w, (flag_set f (a_value a) w).2 = None) ∧
  match a with Inline _ _ => True | Spaced _ _ => flag_bool f = false | Switch _ => flag_bool f = true end.

Definition assign (fs : list flag) (w : W) (a : assignment) : W :=
  match flag_lookup fs (a_name a) with Some f => (flag_set f (a_value a) w).1 | None => w end.

Lemma token_of double n s : name_ok n → s = "" ∨ (∃ v, s = "=" +:+ v) →
  flag_token (dashes double +:+ n +:+ s) = FlagTok n (match s with "" => None | String.String _ v => Some v end).
Proof using.
  intros (c&r&->&H1&H2&Hr) Hs.
  assert (named (String.String c (r +:+ s)) = FlagTok (String.String c r) (match s with "" => None | String.String _ v => Some v end)) as Hn.
  { cbn [named]. rewrite !bool_decide_eq_false_2 by done. cbn [orb]. destruct Hs as [->|[v ->]].
    - by rewrite str_app_nil_r, cut_lacks.
    - change ("=" +:+ v) with (String.String "=" v). by rewrite cut_app. }
  destruct double; cbn [dashes].
  - change ("--" +:+ String.String c r +:+ s) with (String.String "-" (String.String "-" (String.String c (r +:+ s)))). cbn [flag_token].
    rewrite !bool_decide_eq_true_2, bool_decide_eq_false_2 by done. exact Hn.
  - change ("-" +:+ String.String c r +:+ s) with (String.String "-" (String.String c (r +:+ s))). cbn [flag_token].
    rewrite bool_decide_eq_true_2, bool_decide_eq_false_2 by done. exact Hn.
Qed.

Lemma parse_one fs p args w : assignable fs p.2 → parse_flags fs (print_flag p ++ args) w = parse_flags fs args (assign fs w p.2).
Proof using.
  destruct p as [double a]. intros (Hn&f&Hf&Hset&Hb). unfold assign. cbn [snd] in *. rewrite Hf. specialize (Hset w).
  destruct (flag_set f (a_value a) w) as [w' e] eqn:Hw. cbn [snd fst] in *. subst e.
  destruct a as [n v|n v|n]; cbn [a_name a_value] in *; cbn [print_flag snd fst app parse_flags].
  - rewrite (token_of double n ("=" +:+ v)) by eauto. change ("=" +:+ v) with (String.String "=" v). cbn beta iota. rewrite Hf. destruct (flag_bool f); cbn [default from_option id]; by rewrite Hw.
  - rewrite <-(str_app_nil_r n) at 1. rewrite (token_of double n "") by auto. rewrite Hf, Hb. by rewrite Hw.
  - rewrite <-(str_app_nil_r n) at 1. rewrite (token_of double n "") by auto. rewrite Hf, Hb. cbn [default from_option id]. by rewrite Hw.
Qed.

Lemma parse_written (fs : list flag) (l : list (bool * assignment)) tail w :
  Forall (λ p, assignable fs p.2) l → parse_flags fs ((l ≫= print_flag) ++ tail) w = parse_flags fs tail (foldl (assign fs) w l.*2).
Proof using.
  intros Hl. revert w. induction Hl as [|p l Hp Hl IH]; intros w; [done|].
  cbn [mbind list_bind fmap list_fmap foldl]. rewrite <-(assoc_L (++)), parse_one by done. apply IH.
Qed.

(** Flags that are written on the command line, in any of the ways, set their values
    in turn before the hooks run, and what the command is given are the arguments that
    follow them: those from the first that is no flag on, or all those after two dashes. *)
Theorem prepare_here_flags (c : CLI) (cmd : Command) (execute : list string → W → W * option Result) (name : string)
    (funcs : list (list flag)) (l : list (bool * assignment)) (rest : list string) (w : W) :
  let fs := concat (GlobalFlagSetFuncs c) ++ concat funcs in
  let w' := foldl (assign fs) w l.*2 in
  Execute cmd = Some execute → NoDup (flag_name <$> fs) → Forall (λ p, assignable fs p.2) l →
  prepare_here c cmd name ((l ≫= print_flag) ++ "--" :: rest) funcs w = Some (run_hooks c cmd execute rest w') ∧
  (match rest with [] => True | s :: _ => flag_token s = NotFlag end →
   prepare_here c cmd name ((l ≫= print_flag) ++ rest) funcs w = Some (run_hooks c cmd execute rest w')).
Proof using.
  cbn zeta. intros He Hnd Hl. unfold prepare_here. rewrite He, !decide_True by done. split.
  - by rewrite parse_written.
  - intros Hrest. rewrite parse_written by done. destruct rest as [|s rest]; [reflexivity|]. cbn [parse_flags]. by rewrite Hrest.
Qed.

(** ** Theorems: exit codes *)

(** C34.  A command line whose flags do not parse exits with 255, and not with the code of
    a usage error, which is that of one that asks for help; neither runs anything. *)
Theorem bad_flags_exit (c : CLI) (name : string) (args rest : list string) (e : flag_error) (w w' : W) :
  let path := chain (Root c) args in
  let n := (length path - 1)%nat in
  let fs := concat (GlobalFlagSetFuncs c) ++ concat (option_list (last (omap AddFlags path))) in
  Startup (CLI_Hooks c) = None → is_Some (Execute (findBottomCommand (Root c) args)) → NoDup (flag_name <$> fs) →
  parse_flags fs (drop n args) w = (w', rest, Some e) →
  InvokeAndExit c (name :: args) w =
    let '(w'', o) := handleErrorResult (started c) (usage_of c e) w' in
    Some (w'', o, match e with ErrHelp => EX_USAGE | Failf _ => 255 end).
Proof using.
  cbn zeta. intros Hs [execute Hex] Hnd Hp. unfold InvokeAndExit, Invoke, InvokeWithoutPrinting, Prepare. rewrite Hs, prepare_chain.
  assert (match last (omap AddFlags (chain (Root c) args)) with Some f => [f] | None => [] end =
    option_list (last (omap AddFlags (chain (Root c) args)))) as -> by by destruct (last _).
  unfold prepare_here. rewrite Hex. cbn [GlobalFlagSetFuncs started]. rewrite decide_True by done. rewrite Hp.
  cbn [mbind option_bind]. assert (EnsureErrorResult (Some (usage_of (started c) e)) = usage_of c e) as -> by by destruct e.
  cbn [OutputResult]. destruct (handleErrorResult _ _ _) as [w'' o]. cbn [mbind option_bind]. by destruct e.
Qed.

(** Only a success exits with zero. *)
Lemma ExitCode_success r : ExitCode r = 0 ↔ IsSuccess (Some r) = true.
Proof using. destruct r as [d|[[] m t u|m|m]]; done. Qed.

End Cmdr.

(** ** Examples *)

Definition stored (name : string) (is_bool : bool) : @flag (list (string * string)) :=
  mkFlag name is_bool (λ v w, ((name, v) :: w, None)).
(** A command that prints its arguments. *)
Definition echo (flags : option (list (@flag (list (string * string))))) (subs : option (list (string * Command))) : Command :=
  mkCommand "prints" (Some (λ args w, (w, Some (SuccessResult (join " " args))))) subs flags.
Definition demo_cli : CLI :=
  mkCLI (echo (Some [stored "config" false]) (Some [("build", echo (Some [stored "strict" true; stored "repo" false]) None); ("query", echo None None)]))
    (mkHooks None None None None) "sous help" [[stored "v" true]].

Lemma prepare_here_flags_witness :
  let cmd := echo None None in
  ∃ execute, Execute cmd = Some execute ∧
    prepare_here demo_cli cmd "build" ["-v"; "--repo=a=b"; "-strict"; "-repo"; "-c"; "--"; "-x"] [[stored "strict" true; stored "repo" false]] [] =
    Some (run_hooks demo_cli cmd execute ["-x"] [("repo", "-c"); ("strict", "true"); ("repo", "a=b"); ("v", "true")]).
Proof.
  intros cmd. eexists. split; [reflexivity|].
  refine (proj1 (prepare_here_flags demo_cli cmd _ "build" [[stored "strict" true; stored "repo" false]]
    [(false, Switch "v"); (true, Inline "repo" "a=b"); (false, Switch "strict"); (false, Spaced "repo" "-c")] ["-x"] [] eq_refl _ _)).
  { apply (bool_decide_unpack _). vm_compute. exact I. }
  assert (name_ok "repo") as H1 by (exists "r"%char, "epo"; split_and!; (discriminate || reflexivity)).
  assert (name_ok "strict") as H2 by (exists "s"%char, "trict"; split_and!; (discriminate || reflexivity)).
  assert (name_ok "v") as H3 by (exists "v"%char, ""; split_and!; (discriminate || reflexivity)).
  apply Forall_cons_2; [|apply Forall_cons_2; [|apply Forall_cons_2; [|apply Forall_cons_2; [|apply Forall_nil_2]]]].
  - split; [exact H3|]. exists (stored "v" true). repeat split.
  - split; [exact H1|]. exists (stored "repo" false). repeat split.
  - split; [exact H2|]. exists (stored "strict" true). repeat split.
  - split; [exact H1|]. exists (stored "repo" false). repeat split.
Defined.

Lemma bad_flags_exit_witness :
  InvokeAndExit demo_cli ["sous"; "build"; "-x"] [] =
    Some ([], mkWritten [] [Sprintf (errorf "flag provided but not defined: -%s" [AStr "x"]) []; Lit (String.String newline "");
      Lit "Tip: "; Sprintf (errorf "for help, use `%s`" [AStr "sous help"]) []; Lit (String.String newline "")], 255) ∧
  (snd <$> InvokeAndExit demo_cli ["sous"; "build"; "-h"] []) = Some EX_USAGE.
Proof.
  split.
  - refine (bad_flags_exit demo_cli "sous" ["build"; "-x"] [] (Failf (errorf "flag provided but not defined: -%s" [AStr "x"])) [] [] eq_refl _ _ eq_refl).
    + eexists. reflexivity.
    + apply (bool_decide_unpack _). vm_compute. exact I.
  - rewrite (bad_flags_exit demo_cli "sous" ["build"; "-h"] [] ErrHelp [] [] eq_refl); [reflexivity|eexists; reflexivity| |reflexivity].
    apply (bool_decide_unpack _). vm_compute. exact I.
Defined.

Example demo_build : (snd <$> InvokeWithoutPrinting demo_cli ["sous"; "build"; "-strict"; "-repo"; "github.com/opentable/sous"; "here"; "-v"] []) =
  Some (Some (SuccessResult "here -v")).
Proof. reflexivity. Qed.
(** The flag of a command is not one of its subcommand, if that has flags of its own. *)
Example demo_above : (snd <$> InvokeAndExit demo_cli ["sous"; "build"; "-config"; "x"] []) = Some 255.
Proof. reflexivity. Qed.
Example demo_forwarded : (InvokeAndExit demo_cli ["sous"; "query"; "-config"; "x"; "y"] []) = Some ([("config", "x")], mkWritten [Lit "y"] [], 0).
Proof. reflexivity. Qed.
